(* ===== verification/_CoqProject ===== *)
-Q . S2P
Prelude.v
Programs.v
Sha256.v
Canonical.v
AsciiJson.v
JsonLines.v
Ledger.v
Policy.v
Scheduler.v
PyLib.v
Graphs.v
OutcomeGraph.v
Schema.v
Contracts.v
RuntimeContracts.v
WaveManifest.v
CandidateState.v
Decisions.v
PlanLineage.v
MissionSchemas.v
MissionStore.v
Delivery.v
TokenLedger.v
Cohort.v
CohortJournal.v
Consultation.v
PromotionAuth.v
Projection.v
KernelStore.v
Verification.v
Closeout.v
Authority.v
Outbox.v
Workers.v
WorkItems.v
Court.v
Promotion.v
MemoryRecords.v
Memory.v
MemoryStore.v
Objectives.v
Plans.v
PlanStore.v
Rehydration.v
