(* ===== verification/Prelude.v ===== *)
(** * Hive Mind OS: a verification library

    Hive Mind OS ([src/src/hive_mind_os]) is a Python system that lets a
    population of language-model roles work on repositories under a kernel that
    is meant to stay in charge: every step is an event of a hash-chained log,
    authority is handed out as sealed envelopes that can only be narrowed, and
    side effects go through an outbox that never performs one twice.  This
    library models that kernel and the deterministic services around it, and
    proves the properties the rest of the system relies on.

    ** The program and how its parts interact

    - [brain_kernel/canonical.py] turns every contract into bytes; its SHA-256
      digests seal events, envelopes, intents and receipts.
    - [contracts.py] validates JSON documents against a closed schema subset;
      [brain_kernel/contracts.py] builds the kernel's dataclasses on top of it.
    - [brain_kernel/events.py] and [brain_kernel/projection.py] define kernel
      events and the reducer that folds them into missions and work items.
    - [brain_kernel/store.py] keeps the event log, the projection tables,
      idempotency keys, snapshots and the effect tables in SQLite; it calls the
      reducer on every append and on replay.
    - [brain_kernel/authority.py] admits, narrows and revokes envelopes and
      issues capability tokens; [brain_kernel/effects.py] and
      [brain_kernel/effect_outbox.py] check a token against the registry, record
      the intent in the store, and only then call an adapter.
    - [brain_kernel/objectives.py] checks the work graph of a mission and
      [brain_kernel/planner.py] turns it into a budgeted plan, stores the plan
      as a batch of work events in the event store and rebuilds it from there.
    - [brain_kernel/memory.py] keeps evidenced memories: artifacts by digest, a
      catalog of records with their lifecycle facts, and its snapshots.
    - [brain_kernel/consultation.py] adjudicates questions between roles,
      [brain_kernel/court_runtime.py] keeps the verdicts of temporary courts over
      such results, and [brain_kernel/promotion.py] lets a promotion decision
      into its log only on the strength of a court record;
      [brain_kernel/promotion_auth.py] checks the signed attestations behind it.
    - [token_ledger.py] records token use as events of the evidence ledger;
      [cohort_policy.py] decides which checkpoints may wait for the end of a cohort;
      [cohort_journal.py] keeps the history of a cohort run in files that several
      processes share.
    - [brain_kernel/exact_candidate_verification.py] runs a sealed plan against
      an exact tree and stores its verdict in an evidence bundle;
      [brain_kernel/closeout.py] derives from such bundles and the kernel state
      whether the obligations of a release are met.
    - [runtime_contracts.py] holds the contracts that other repositories use: the
      strict JSON reader, the runtime graph of a plan, the choice between decision
      alternatives.  [wave_manifest.py] seals the states of a wave of work,
      [plan_lineage.py] keeps the generations of a plan and carries receipts from
      one to the next, and [brain_kernel/candidate_state.py] journals the state of
      a candidate in an append-only table.
    - [mission_store.py] keeps the durable state of a mission: checkpoints of
      intended effects, their write-ahead records and receipts, and a portable
      state that [contracts.py] validates; [github_adapter.py] performs external
      effects over it, each at most once.
    - [ledger.py] is the evidence ledger of the older runtime, [policy.py],
      [roles.py] and [agents/] its authority check, [scheduler.py] its job queue,
      [outcome_graph.py] the planner of its work packages.

    ** Files

    - [Prelude]: exceptions as values, the error monad [result] ([let?]) and
      the state-and-error monad [M] in which a raised exception rolls the
      transaction back, the Python strings and sorting the components share,
      the tactics ([take_ok], [take_guard]) and hint databases.
    - [Programs]: methods of several commits as programs of atomic steps, with a
      rule for what holds wherever the process stops.
    - [Sha256]: FIPS 180-4 on byte strings, the [hashlib.sha256] of the program,
      over an interface of 32-bit words; the instance on the kernel's machine
      integers is the one evaluated, and is proved equal to the one on [Z].
    - [Canonical]: JSON values, [json.dumps] with sorted keys, [json.loads],
      [_plain], [canonical_bytes] and [canonical_digest].
    - [AsciiJson]: UTF-8 texts, and the parser on a text against the parser on
      its ASCII form.
    - [JsonLines]: a canonical document followed by further text reads back.
    - [Ledger]: [EvidenceLedger] of [ledger.py], its two tables with their
      triggers, [append_event], [append_lessons], [events], the migration.
    - [Policy]: the enumerations of [models.py], the eight role contracts, the
      catalog, [PolicyEngine.decide].
    - [Scheduler]: [Scheduler] of [scheduler.py] over an abstract clock, a
      type class with the order laws of timestamps; integers are an instance.
    - [PyLib]: [==] on JSON values, [dict.get], [re.fullmatch] for the patterns
      in use, [datetime.fromisoformat].
    - [Graphs]: dictionaries keyed by an identifier, acyclicity against
      well-foundedness; shared by the two graph components.
    - [OutcomeGraph]: [compile_outcome_graph], [ready_packages] and
      [dispatch_rounds] of [outcome_graph.py].
    - [Schema]: [validate_contract] and [_validate_node] of [contracts.py] and
      the kernel's schema documents.
    - [Contracts]: the validators, [normalize_portable_path], [Budget],
      [ConstraintEnvelope] with its narrowing checks, [EffectIntent],
      [EffectReceipt], and the evaluation, role and evidence contracts.
    - [RuntimeContracts]: the readers, validators and the runtime graph of
      [runtime_contracts.py]; [Decisions]: its remaining records, decision entries
      and [select_decision].
    - [WaveManifest]: [wave_manifest.py], the manifests and their transitions.
    - [CandidateState]: [brain_kernel/candidate_state.py], the journal, also with
      the two halves of a call interleaved by several processes.
    - [PlanLineage]: [plan_lineage.py]: generation records and their index,
      [carry_forward_receipts], activation material, traceability.
    - [MissionSchemas]: the schema documents of a mission, [tool_intent_digest]
      and [validate_runtime_state] of [contracts.py].
    - [MissionStore]: [mission_store.py], its tables, files and methods.
    - [Delivery]: [_idempotent_effect] of [github_adapter.py] over that store, the
      writing methods of the store in the steps in which they commit, and histories
      of all of them in which any call may die.
    - [TokenLedger]: [token_ledger.py]: measurements, records, calibration, and
      [TokenLedger] over [Ledger].
    - [Cohort]: [cohort_policy.py].
    - [CohortJournal]: [cohort_journal.py], and the interleavings of processes that
      read and append to one directory.
    - [Consultation]: [brain_kernel/consultation.py]: requests, assessments,
      results and their documents, [evaluate_consultation], the bounded loop.
    - [PromotionAuth]: [brain_kernel/promotion_auth.py]: base64, bindings,
      attestations, authorizations, [PromotionPrincipalVerifier] over a host's
      signature provider, rejection receipts.
    - [Projection]: [KernelEvent], the two state machines, [reduce_event].
    - [KernelStore]: the event half of [KernelStore]: [append_batch], [replay],
      [rebuild_projections], the views and the snapshots.
    - [Verification]: [brain_kernel/exact_candidate_verification.py]: snapshots of
      a tree, sealed plans, the verdict and its bundle.
    - [Closeout]: [brain_kernel/closeout.py]: the derived report.
    - [Authority]: [AuthorityRegistry], root provenance, external attestations,
      capability tokens.
    - [Outbox]: the effect half of [KernelStore], [validate_capability_token],
      [EffectGateway] and [DurableEffectOutbox], with crashes.
    - [Workers]: the same outbox methods as programs of atomic steps, pools of
      workers that interleave those steps, and a small logic (phases of a worker,
      what each step guarantees to the others) to reason about them.
    - [WorkItems]: [MissionCharter] and [WorkItem] of [brain_kernel/contracts.py].
    - [Court]: [brain_kernel/court_runtime.py]: briefs, cases, verdicts, the checks
      of a panel, [CourtHistory] with its appeals.
    - [Promotion]: the candidates, decisions and decision log of
      [brain_kernel/promotion.py], over [Court].
    - [MemoryRecords]: [MemoryRecord] of [brain_kernel/contracts.py].
    - [Memory]: the artifact store and the catalog of [brain_kernel/memory.py].
    - [MemoryStore]: its snapshots, their documents, [rebuild], and the catalog
      store; the operations as one state machine.
    - [Objectives]: [ObjectiveGraph] of [brain_kernel/objectives.py], the layered
      order, the path search and every check of the constructor.
    - [Plans]: schedules, complexity and the pure planners of
      [brain_kernel/planner.py] ([plan], [replan], [simplify],
      [select_simplest], the fixture planner).
    - [PlanStore]: [persist_plan] on top of [KernelStore], the grouping of
      stored work events, the replan lineage, and the readers
      [graph_from_events] and [orchestration_plan_from_events].
    - [Rehydration]: the two readers and the retry against [persist_plan].

    A class of the source is a [Record] for its state and one definition per
    method; a method that touches the database is a computation of [M] over
    that record, with the guards in the order the source checks them and the
    exception class and message it raises.  A SQLite table is the list of its
    rows in the order the program reads them; uniqueness, foreign-key and
    trigger constraints are checked where the insert or update happens.

    ** What the theorems show

    - Effects: over all histories of calls, crashes before and after the adapter
      runs, recoveries and reconciliations, no intent is performed twice
      ([effects_delivered_at_most_once]); an ambiguous one is not retried, an
      authorised reconciliation settles it, a returned result is backed by a
      stored receipt, and outbox entries only move forward.  The same holds for
      interleaved workers as long as no two of them execute one intent
      ([interleaved_effects_at_most_once]); without that discipline it fails:
      workers that have all read a pending entry before one of them begins it all
      call the adapter, in whatever order they run ([racing_workers_deliver_twice]).
    - Missions: an external effect of a mission is performed at most once and its
      outcome adopted for good, wherever processes die and whatever else is called
      on the store in between ([delivered_effects_adopted_once]).
    - Work: an event moves missions and work items along their state machines or
      not at all, and accepted or integrated work has an architect's sealed plan
      and a curator's passing verdict behind it
      ([accepted_work_was_evaluated]).
    - Store: every reachable store has a verifying chain that replays
      ([reachable_store_sound]); appends are accepted exactly when they are legal
      and fit the columns ([append_accepts]), atomic and idempotent; the projection tables are what a replay gives; a snapshot is
      never believed over the events.
    - Authority: a delegated envelope never grants what an ancestor does not
      ([delegation_never_amplifies]), revocation is final and reaches every
      descendant, [authorize] issues exactly when it should, external roots rest
      on an accepted verification.
    - Contracts: [canonical_bytes] is injective up to key order (through the
      parser), validated objects are closed, normalised paths are portable and
      fixed by normalisation.
    - Ledger: reachable ledgers validate, rows are never changed, two tables
      with the same last digest are equal or exhibit a SHA-256 collision, the
      migration links a legacy table, and reading returns what was appended,
      whatever characters it holds ([events_read_back], [ascii_round_trip]).
    - Tokens: each record is appended once, also across restarts
      ([token_records_append_once]); calibration reports true medians and does
      not depend on the order of the records; a measurement never turns an
      unknown count into a number.
    - Cohort journal: whatever processes do, crashes included, a run has one
      growing history with a legal lifecycle that every process reads
      ([journal_shared]); a store that has read it accepts only continuations of it,
      except when the whole directory is gone ([journal_tamper_evident]).
    - Consultation: every admissible question is adjudicated; suspected cheating
      ends in quarantine unless it is disproved with evidence, a human is asked
      only for genuine authority ([escalation_is_earned]), the order of the
      testimony does not matter, and the loop is bounded.
    - Court and promotion: a court record is judged by an unaffected, assigned
      judge, on evidence, and appeals are legal ([court_history_sound]); a
      promotion decision rests on such a record about its own artifact
      ([promotions_judged_independently]).
    - Attestations: an authorization verifies exactly when four independent bound
      principals signed it in order and in time and the age limit is one a duration
      can hold ([authorization_verified_iff]); what is signed determines the statement
      ([signed_bytes_commit]); receipts and authorizations survive storage.
    - Memory: the catalog only grows and retired records stay retired
      ([memory_is_append_only]), each state follows from its lifecycle facts, a
      persisted catalog restores exactly ([persisted_catalog_restores]), lessons
      rest on distinct evidenced episodes, expiry and retrieval are exact.
    - Policy: the exact condition for allowing an action, and that no autonomy
      level reaches the prohibited or external ones.
    - Scheduler: the table invariant (attempts within budget, lease columns,
      resources held by live tokens), the exact behaviour of [claim], refinement
      of an abstract job lifecycle, stale tokens rejected, finished jobs final.
    - Verification and closeout: a passing verdict rests on a candidate that was
      the sealed one before and after, on every check, and on a plan that exactly one
      event of the log sealed for the work, and the log holds that verdict
      ([verdict_is_earned]); a report without blockers has evidence for every
      obligation ([verified_closeout_is_evidenced]).
    - Runtime contracts: a runtime graph is accepted exactly when it keeps its
      sealed expectations ([runtime_graph_accepted_iff]); a decision is selected
      exactly when one safe, evidenced and authorised alternative is ahead
      ([decision_selected_iff]), and is read back as it was stored
      ([decision_entry_round_trip]).
    - Waves and candidates: an integrated wave went through every stage with one
      candidate ([integrated_wave_passed_every_stage]), its digest commits to its
      history ([wave_digest_commits]); whatever processes do to the journal of a
      candidate, it is one legal history whose sealed identity never changes, or it
      is refused as a whole because of a row that is too long or was planned for a
      guessed sequence ([candidate_journal_sound]).
    - Plan lineage: the index accepts exactly the lineages, in whatever order the
      records come ([generation_lineage_accepted_iff]); receipts are carried exactly
      where the contract of a node is unchanged ([carry_forward_partitions]).
    - Outcome graphs: the compiler accepts exactly the well-formed acyclic graphs,
      and the dispatch loop terminates and yields legal rounds for them.
    - Planning: an objective graph is accepted exactly when it is well formed
      ([objective_graph_accepts_iff]) and has one canonical order; plans stay
      within their charter however often they are revised
      ([plans_stay_within_charter]), and so does the whole stored lineage of a
      replan ([replan_lineage_within_charter]); simplification terminates; a
      stored plan is rebuilt exactly from the events when its write scopes are in
      the portable format, and refused otherwise ([persisted_plan_rehydrates]), and
      storing it again changes nothing.
    - These theorems state behaviour that differs from what the code intends or
      documents: [racing_workers_deliver_twice], [bundle_without_evaluation],
      [snapshot_unusable_after_plan], [failed_receipt_reported_as_success],
      [gateway_answers_for_other_intent], [explorer_inspect_history_refused],
      [plan_retry_reorders_sequences], [stored_artifact_reads_back],
      [retired_successor_supersedes], [failed_supersession_keeps_successor],
      [unasked_cheating_reports_are_ignored], [recommended_quarantine_resolves],
      [journal_tamper_evident], [stored_plan_lost], and these examples: [scalar_bundle_aborts],
      [sealed_candidate_replaced], [unsealed_manifest_accepted],
      [unsealed_candidate_integrated], [guessed_sequence_breaks_journal],
      [repeated_call_refused], [different_scores_tie], [oversized_score_overflows],
      [numeric_authentication_accepted], [refreshed_mission_skips_intake],
      [conflicting_outcomes_stored], [oversized_age_accepted].

    No theorem assumes that SHA-256 is injective: where uniqueness of digests
    matters the statement either exhibits a collision or takes the absence of
    one among the concrete values at hand as a hypothesis.  The only axioms in
    use are those the Standard Library states for the kernel's machine integers.

    ** Bounds and fuel

    - [loads] reads with twice the length of the text as fuel; the round-trip
      lemma behind [canonical_bytes_inj] shows it is enough for printed values.
    - [_validate_node] recurses over schemas that may refer to one another; the
      kernel's documents nest at most three deep ([kernel_validation_total]), those
      of a mission, through their references, at most nine
      ([validate_document_total]).
    - [_is_revoked] walks parent links with a set of visited digests; the size
      of the registry plus two steps is enough ([revoked_walk_closed]).
    - The cycle search of the graph compiler is bounded by the interpreter's
      recursion limit, an argument; a limit above the number of packages is never
      reached ([visit_complete]).  The dispatch loop gets one turn per remaining
      package, each of which removes one ([rounds_terminate]).
    - The layer loop of [ordered_items] gets one turn per item
      ([objective_loops_terminate]), the path search one per dependency edge
      and start, the lineage walk one per stored plan and one more
      ([lineage_loop_total]).
    - The index of generations is loaded in at most as many passes as there are
      records, since a pass that registers none ends the loop ([load_total]).  The
      search for the ancestors of a runtime node is bounded by the recursion limit,
      an argument; a limit above the number of nodes is enough.
    - The bytes of a document of [runtime_contracts.py] are limited to one
      mebibyte; the round trips take the limit as a hypothesis where it matters.
    - Snapshots and documents are read by structural recursion; the loop of
      consultation rounds is bounded by the program's own constant
      ([consultation_loop_bounded]).
    - The names of journal files have eight digits and are listed in the order of
      their text, which is the order of their numbers below [10 ^ 8]; the theorem
      takes fewer steps than that.
    - An integer that is bound to a SQLite parameter has 64 bits ([bind_integer]):
      the sequence number and the version of an event, the step of a checkpoint.  A
      duration has at most 999999999 days ([timedelta_seconds]).
    - A schedule of racing workers gives each of them the seven steps up to and with
      its adapter call; the number of workers is arbitrary.
    - [lstrip], [digits_end] and the pattern parser run on the length of their
      text, of which each step consumes at least one character.

    ** Parameters

    Readings of the clock, generated UUIDs, the process secret of the registry,
    the external-root verifier, the effect adapters, the signature provider,
    the receipt signer, the snapshots of working copies and the operations of external
    effects are arguments of the definitions that use them.

    ** What is not modelled

    Floating-point JSON numbers (the scores of a decision are the one place where a
    modelled contract admits a fraction; they are integers here); the limits that the
    interpreter puts on every program: memory, the depth of nested JSON, and the
    number of digits of an integer that is printed or read; sqlite3 connections, pragmas and several processes writing one database (a method of
    a store is one transaction, which is what the lock of the store gives the
    threads that share it; several transactions of one outbox call interleave in
    [Workers]); the ranking of memories, whose scores are sums of floats; [PromotionAuthority],
    which moves pointers in the files of the prompt registry; the Ed25519
    adapters; the role runtimes, which call language models, git and
    subprocesses and change kernel state only through the store, the registry
    and the outbox; the older runtime ([runtime.py], [courtroom.py]) and the missions, campaigns
    and services around the kernel, which drive the modelled stores through model
    calls, git, files and threads; the command line, hosts, benchmarks and recorded
    dockets. *)

From stdpp Require Export base list strings gmap sorting.
From Stdlib Require Export ZArith Lia.
From Stdlib Require Import Ascii DecimalString.

Declare Scope hive_scope.
Delimit Scope hive_scope with hive.
Open Scope hive_scope.
Open Scope Z_scope.

(** ** Exceptions

    A raised Python exception is a value: its class and its message. *)

(** The exception classes the modelled modules raise. *)
Inductive exc_class :=
| ValueError
| KeyError
| RuntimeError
| PermissionError
| OverflowError
| TypeError
| AssertionError
| IntegrityError
| StaleLeaseError
| LedgerIntegrityError
| GraphError
| KernelIntegrityError
| AuthorityDenied
| EffectReconciliationRequired
| TokenAccountingError
| CohortPolicyError | CohortJournalError
| ContractError
| MemoryDenied
| CourtProtocolError
| PromotionAuthorityError
| PromotionAuthenticationError
| ContractViolation | CandidateStateError
| AttributeError | OSError | ExactCandidateVerificationError | TechnicalCloseoutError | RoleProtocolError
| RecursionError | StopIteration
| StoreVersionError | StoreIntegrityError | ReconciliationError | FileNotFoundError | GitHubDeliveryError | GitHubEffectReconciliationRequired.

#[global] Instance exc_class_eq_dec : EqDecision exc_class.
Proof. solve_decision. Defined.

Record pyexc := Exc { exc_cls : exc_class; exc_msg : string }.

#[global] Instance pyexc_eq_dec : EqDecision pyexc.
Proof. solve_decision. Defined.

(** [type(error).__name__] *)
Definition exc_name (c : exc_class) : string :=
  match c with
  | ValueError => "ValueError" | KeyError => "KeyError" | RuntimeError => "RuntimeError"
  | PermissionError => "PermissionError" | OverflowError => "OverflowError" | TypeError => "TypeError"
  | AssertionError => "AssertionError" | IntegrityError => "IntegrityError"
  | StaleLeaseError => "StaleLeaseError" | LedgerIntegrityError => "LedgerIntegrityError"
  | GraphError => "GraphError" | KernelIntegrityError => "KernelIntegrityError"
  | AuthorityDenied => "AuthorityDenied" | EffectReconciliationRequired => "EffectReconciliationRequired"
  | TokenAccountingError => "TokenAccountingError" | CohortPolicyError => "CohortPolicyError" | CohortJournalError => "CohortJournalError"
  | ContractError => "ContractError" | MemoryDenied => "MemoryDenied" | CourtProtocolError => "CourtProtocolError"
  | PromotionAuthorityError => "PromotionAuthorityError" | PromotionAuthenticationError => "PromotionAuthenticationError"
  | ContractViolation => "ContractViolation" | CandidateStateError => "CandidateStateError"
  | AttributeError => "AttributeError" | OSError => "OSError"
  | ExactCandidateVerificationError => "ExactCandidateVerificationError" | TechnicalCloseoutError => "TechnicalCloseoutError"
  | RoleProtocolError => "RoleProtocolError" | RecursionError => "RecursionError"
  | StopIteration => "StopIteration" | StoreVersionError => "StoreVersionError" | StoreIntegrityError => "StoreIntegrityError"
  | ReconciliationError => "ReconciliationError" | FileNotFoundError => "FileNotFoundError" | GitHubDeliveryError => "GitHubDeliveryError"
  | GitHubEffectReconciliationRequired => "GitHubEffectReconciliationRequired"
  end.

(** [str(error)]: a [KeyError] prints the repr of its key. *)
Definition exc_str (e : pyexc) : string :=
  match exc_cls e with
  | KeyError => ("'" +:+ exc_msg e +:+ "'")%stdpp
  | _ => exc_msg e
  end.

(** A call returns a value or raises. *)
Inductive result (A : Type) : Type :=
| Ok (a : A)
| Raise (e : pyexc).
Arguments Ok {A} a.
Arguments Raise {A} e.

Definition raise {A} (c : exc_class) (m : string) : result A := Raise (Exc c m).

Definition rbind {A B} (r : result A) (f : A -> result B) : result B :=
  match r with Ok a => f a | Raise e => Raise e end.

(** [require b c m]: the guard [if not b: raise c(m)]. *)
Definition require (b : bool) (c : exc_class) (m : string) : result unit :=
  if b then Ok tt else raise c m.

Definition is_ok {A} (r : result A) : bool :=
  match r with Ok _ => true | Raise _ => false end.

Notation "'let?' x ':=' r 'in' k" := (rbind r (fun x => k))
  (at level 10, x pattern, r at level 100, k at level 200) : hive_scope.
Notation "r ;? k" := (rbind r (fun _ => k))
  (at level 100, right associativity) : hive_scope.

(** [try: r except (classes): raise ValueError(m)] *)
Definition wrap {A} (classes : list exc_class) (c : exc_class) (m : string) (r : result A) : result A :=
  match r with
  | Ok a => Ok a
  | Raise e => if bool_decide (exc_cls e ∈ classes) then raise c m else Raise e
  end.

(** An integer bound to a parameter of an SQLite statement: a signed 64-bit value. *)
Definition bind_integer (n : Z) : result unit :=
  require ((- 2 ^ 63 <=? n) && (n <? 2 ^ 63)) OverflowError "Python int too large to convert to SQLite INTEGER".

(** Run a loop body over a list; the first exception stops the loop. *)
Fixpoint rfold {A S} (f : S -> A -> result S) (s : S) (l : list A) : result S :=
  match l with
  | [] => Ok s
  | x :: xs => let? s' := f s x in rfold f s' xs
  end.

(** ** Stateful code

    A method of a stateful object takes the state and returns its result
    together with the state it leaves behind, also when it raises. *)
Definition M (S A : Type) : Type := S -> result A * S.

Definition ret {S A} (a : A) : M S A := fun s => (Ok a, s).
Definition fail {S A} (c : exc_class) (m : string) : M S A := fun s => (raise c m, s).
Definition bindM {S A B} (m : M S A) (f : A -> M S B) : M S B :=
  fun s => match m s with
           | (Ok a, s') => f a s'
           | (Raise e, s') => (Raise e, s')
           end.
Definition getM {S} : M S S := fun s => (Ok s, s).
Definition putM {S} (s : S) : M S unit := fun _ => (Ok tt, s).
Definition liftR {S A} (r : result A) : M S A := fun s => (r, s).
Definition guardM {S} (b : bool) (c : exc_class) (m : string) : M S unit :=
  liftR (require b c m).

(** Run a call per element and collect the results; a raised exception stops
    the loop and keeps the effects of the calls before it. *)
Fixpoint loopM {S A B} (f : A -> M S B) (l : list A) : M S (list B) :=
  match l with
  | [] => ret []
  | x :: xs => bindM (f x) (fun y => bindM (loopM f xs) (fun ys => ret (y :: ys)))
  end.

(** [with connection:] of sqlite3: the block commits when it returns and rolls
    every change back when it raises. *)
Definition atomic {S A} (m : M S A) : M S A :=
  fun s => match m s with
           | (Ok a, s') => (Ok a, s')
           | (Raise e, _) => (Raise e, s)
           end.

Notation "'let*' x ':=' m 'in' k" := (bindM m (fun x => k))
  (at level 10, x pattern, m at level 100, k at level 200) : hive_scope.
Notation "m ;* k" := (bindM m (fun _ => k))
  (at level 100, right associativity) : hive_scope.

(** ** Strings

    A Python [str] is represented by its UTF-8 encoding: byte-wise
    lexicographic order of UTF-8 is code-point order, which is the order of
    [<] and [sorted] on [str]. *)

(** Whether the string starts with a whitespace character of [str.isspace];
    the result is the rest of the string after that character. *)
Definition space_prefix (s : string) : option string :=
  match s with
  | String c s1 =>
      let n := N_of_ascii c in
      if (bool_decide (9 <= n)%N && bool_decide (n <= 13)%N) || (bool_decide (28 <= n)%N && bool_decide (n <= 32)%N) then Some s1
      else match s1 with
      | String c1 s2 =>
          let n1 := N_of_ascii c1 in
          if bool_decide (n = 194)%N && (bool_decide (n1 = 133)%N || bool_decide (n1 = 160)%N) then Some s2
          else match s2 with
          | String c2 s3 =>
              let n2 := N_of_ascii c2 in
              if (bool_decide (n = 225)%N && bool_decide (n1 = 154)%N && bool_decide (n2 = 128)%N)
                 || (bool_decide (n = 226)%N && bool_decide (n1 = 128)%N
                     && ((bool_decide (128 <= n2)%N && bool_decide (n2 <= 138)%N)
                         || bool_decide (n2 = 168)%N || bool_decide (n2 = 169)%N || bool_decide (n2 = 175)%N))
                 || (bool_decide (n = 226)%N && bool_decide (n1 = 129)%N && bool_decide (n2 = 159)%N)
                 || (bool_decide (n = 227)%N && bool_decide (n1 = 128)%N && bool_decide (n2 = 128)%N)
              then Some s3 else None
          | EmptyString => None
          end
      | EmptyString => None
      end
  | EmptyString => None
  end.

(** [str.lstrip]; every step consumes at least one byte, so the length is fuel
    enough. *)
Fixpoint lstrip_fuel (n : nat) (s : string) : string :=
  match n with
  | O => s
  | S n' => match space_prefix s with Some s' => lstrip_fuel n' s' | None => s end
  end.
Definition lstrip (s : string) : string := lstrip_fuel (String.length s) s.

(** [not s.strip()] *)
Definition is_blank (s : string) : bool := String.eqb (lstrip s) "".

Fixpoint rstrip (s : string) : string :=
  match s with
  | EmptyString => EmptyString
  | String c s' => if is_blank s then EmptyString else String c (rstrip s')
  end.
Definition strip (s : string) : string := rstrip (lstrip s).

(** [x in xs] *)
Definition mem (x : string) (l : list string) : bool := bool_decide (x ∈ l).

(** [",".join(xs)] *)
Definition join (sep : string) (l : list string) : string := String.concat sep l.

(** [s.startswith(p)] *)
Definition startswith (p s : string) : bool := String.prefix p s.

(** [str(n)] of an integer. *)
Definition str_of_Z (z : Z) : string := NilEmpty.string_of_int (Z.to_int z).

(** [set(xs)] written as the list of first occurrences, which is also what
    [dict.fromkeys(xs)] keeps. *)
Fixpoint dedup_acc {A} `{EqDecision A} (seen : list A) (l : list A) : list A :=
  match l with
  | [] => []
  | x :: xs => if bool_decide (x ∈ seen) then dedup_acc seen xs else x :: dedup_acc (x :: seen) xs
  end.
Definition dedup {A} `{EqDecision A} (l : list A) : list A := dedup_acc [] l.

(** [sorted(l, key=key)] on string keys: stable. *)
Fixpoint insert_by {A} (key : A -> string) (x : A) (l : list A) : list A :=
  match l with
  | [] => [x]
  | y :: ys => if String.leb (key x) (key y) then x :: y :: ys else y :: insert_by key x ys
  end.
Fixpoint sorted_by {A} (key : A -> string) (l : list A) : list A :=
  match l with
  | [] => []
  | x :: xs => insert_by key x (sorted_by key xs)
  end.
Definition sorted_str : list string -> list string := sorted_by id.

(** [len(set(l)) == len(l)] *)
Definition distinct {A} `{EqDecision A} (l : list A) : bool := bool_decide (NoDup l).

(** Lowercase hexadecimal characters. *)
Definition is_hex (c : ascii) : bool :=
  let n := N_of_ascii c in
  (bool_decide (48 <= n)%N && bool_decide (n <= 57)%N) || (bool_decide (97 <= n)%N && bool_decide (n <= 102)%N).
Fixpoint all_chars (p : ascii -> bool) (s : string) : bool :=
  match s with
  | EmptyString => true
  | String c s' => p c && all_chars p s'
  end.

(** ** Tactics *)

(** Split a boolean conjunction, disjunction or reflected test in the context. *)
Ltac bool_hyps :=
  repeat match goal with
  | H : _ && _ = true |- _ => apply andb_true_iff in H; destruct H
  | H : _ || _ = false |- _ => apply orb_false_iff in H; destruct H
  | H : negb _ = true |- _ => apply negb_true_iff in H
  | H : negb _ = false |- _ => apply negb_false_iff in H
  | H : bool_decide _ = true |- _ => apply bool_decide_eq_true in H
  | H : bool_decide _ = false |- _ => apply bool_decide_eq_false in H
  | H : String.eqb _ _ = true |- _ => apply String.eqb_eq in H
  | H : String.eqb _ _ = false |- _ => apply String.eqb_neq in H
  | H : Z.ltb _ _ = true |- _ => apply Z.ltb_lt in H
  | H : Z.ltb _ _ = false |- _ => apply Z.ltb_ge in H
  | H : Z.leb _ _ = true |- _ => apply Z.leb_le in H
  | H : Z.leb _ _ = false |- _ => apply Z.leb_gt in H
  | H : Z.eqb _ _ = true |- _ => apply Z.eqb_eq in H
  | H : Z.eqb _ _ = false |- _ => apply Z.eqb_neq in H
  end.

(** Follow a program to its successful result, one guard at a time. *)
Ltac peel_step :=
  match goal with
  | H : Ok _ = Ok _ |- _ => injection H as H
  | H : Raise _ = Raise _ |- _ => injection H as H
  | H : Ok _ = Raise _ |- _ => discriminate H
  | H : Raise _ = Ok _ |- _ => discriminate H
  | H : raise _ _ = Ok _ |- _ => discriminate H
  | H : (_, _) = (_, _) |- _ => injection H as H
  | H : Some _ = Some _ |- _ => injection H as H
  | H : Some _ = None |- _ => discriminate H
  | H : None = Some _ |- _ => discriminate H
  | u : unit |- _ => destruct u
  | H : rbind ?r _ = Ok _ |- _ =>
      let E := fresh "E" in destruct r eqn:E; cbn [rbind] in H; [|discriminate H]
  | H : require ?b _ _ = Ok _ |- _ =>
      let E := fresh "E" in destruct b eqn:E; cbn [require] in H; [clear H|discriminate H]
  end.
Ltac peel := repeat (peel_step; simplify_eq).

(** ** The shared lemma library *)

Create HintDb hive discriminated.
Create Rewrite HintDb hive.

Lemma rbind_ok {A B} (r : result A) (f : A -> result B) b :
  rbind r f = Ok b <-> exists a, r = Ok a /\ f a = Ok b.
Proof. destruct r; simpl; naive_solver. Qed.

Lemma require_ok b c m u : require b c m = Ok u <-> b = true.
Proof. destruct b, u; simpl; split; done. Qed.

Lemma bind_integer_ok n u : bind_integer n = Ok u <-> - 2 ^ 63 <= n < 2 ^ 63.
Proof. unfold bind_integer. rewrite require_ok, andb_true_iff, Z.leb_le, Z.ltb_lt. done. Qed.

Lemma wrap_ok {A} cs c m (r : result A) a : wrap cs c m r = Ok a -> r = Ok a.
Proof. destruct r; simpl; [done|]. case_bool_decide; discriminate. Qed.

Lemma bindM_ok {S A B} (m : M S A) (f : A -> M S B) s b s' :
  bindM m f s = (Ok b, s') <-> exists a s1, m s = (Ok a, s1) /\ f a s1 = (Ok b, s').
Proof. unfold bindM. destruct (m s) as [[a|e] s1]; naive_solver. Qed.

(** [take_ok H x E]: the first call of the program in [H] returned [x];
    [take_guard H E]: the guard at its head holds. *)
Ltac take_ok H x E := apply rbind_ok in H as (x & E & H).
Ltac take_guard H E := apply rbind_ok in H as ([] & E & H); apply require_ok in E.

(** One step of a stateful program, as an equation. *)
Section run.
Context {S A B : Type}.

Lemma run_guard b c m (f : unit -> M S A) s :
  bindM (guardM b c m) f s = if b then f tt s else (raise c m, s).
Proof. by destruct b. Qed.
Lemma run_get (f : S -> M S A) s : bindM getM f s = f s s.
Proof. done. Qed.
Lemma run_put s1 (f : unit -> M S A) s : bindM (putM s1) f s = f tt s1.
Proof. done. Qed.
Lemma run_lift (r : result B) (f : B -> M S A) s :
  bindM (liftR r) f s = match r with Ok a => f a s | Raise e => (Raise e, s) end.
Proof. by destruct r. Qed.
Lemma run_ret (b : B) (f : B -> M S A) s : bindM (ret b) f s = f b s.
Proof. done. Qed.
Lemma run_bind (m : M S B) (f : B -> M S A) s :
  bindM m f s = match m s with (Ok a, s') => f a s' | (Raise e, s') => (Raise e, s') end.
Proof. done. Qed.
End run.

(** A transaction that raises leaves the database as it was. *)
Lemma atomic_raise {S A} (m : M S A) s e s' :
  atomic m s = (Raise e, s') -> s' = s.
Proof. unfold atomic. destruct (m s) as [[a|e'] s1]; naive_solver. Qed.

Lemma atomic_ok {S A} (m : M S A) s a s' :
  atomic m s = (Ok a, s') <-> m s = (Ok a, s').
Proof. unfold atomic. destruct (m s) as [[b|e'] s1]; naive_solver. Qed.

Lemma rfold_app {A S} (f : S -> A -> result S) s l1 l2 :
  rfold f s (l1 ++ l2) = (let? s1 := rfold f s l1 in rfold f s1 l2).
Proof.
  revert s; induction l1 as [|x l1 IH]; intros s; simpl; [done|].
  destruct (f s x); simpl; [apply IH|done].
Qed.

(** A loop whose body always returns, returns. *)
Lemma rfold_total {A S} (f : S -> A -> result S) l s :
  (forall s x, x ∈ l -> exists s', f s x = Ok s') -> exists s', rfold f s l = Ok s'.
Proof.
  revert s; induction l as [|x l IH]; intros s Hf; simpl; [by eexists|].
  destruct (Hf s x) as [s1 ->]; [by left|]. simpl. apply IH. intros s2 y Hy. apply Hf. by right.
Qed.

(** A loop of checks passes when every check does. *)
Lemma rfold_unit {A} (f : unit -> A -> result unit) l u :
  rfold f tt l = Ok u <-> forall x, x ∈ l -> f tt x = Ok tt.
Proof.
  destruct u. induction l as [|x l IH]; simpl; [split; [intros _ x Hx; by apply elem_of_nil in Hx|done]|].
  rewrite rbind_ok. split.
  - intros ([] & H1 & H2) y Hy. apply elem_of_cons in Hy as [->|Hy]; [done|]. by apply IH.
  - intros H. exists tt. split; [apply H; by left|]. apply IH. intros y Hy. apply H. by right.
Qed.

(** An invariant of the loop body is an invariant of the loop. *)
Lemma rfold_inv {A S} (f : S -> A -> result S) (P : S -> Prop) l s s' :
  (forall s x s1, x ∈ l -> P s -> f s x = Ok s1 -> P s1) ->
  P s -> rfold f s l = Ok s' -> P s'.
Proof.
  revert s; induction l as [|x l IH]; intros s Hf Hs H; simpl in *; [by simplify_eq|].
  destruct (f s x) as [s1|e] eqn:E; simpl in H; [|done].
  eapply IH; [|eapply Hf; [apply list_elem_of_here|done|done]|done].
  intros. eapply Hf; [by apply list_elem_of_further|done|done].
Qed.

Lemma fold_left_inv {A S} (P : S -> Prop) (f : S -> A -> S) l s :
  P s -> (forall s x, P s -> P (f s x)) -> P (fold_left f l s).
Proof. revert s. induction l as [|x l IH]; intros s Hs Hf; cbn; auto. Qed.

Lemma filter_sublist {A} (f : A -> bool) l : List.filter f l `sublist_of` l.
Proof. induction l as [|x l IH]; [done|]. cbn. destruct (f x); [by apply sublist_skip|by apply sublist_cons]. Qed.

(** An element of a list with one more element at the end. *)
Lemma snoc_split {A} (l l1 l2 : list A) x y : l ++ [x] = l1 ++ y :: l2 ->
  (l = l1 /\ x = y /\ l2 = []) \/ exists l3, l = l1 ++ y :: l3 /\ l2 = l3 ++ [x].
Proof.
  intros E. destruct (exists_last (l := y :: l2)) as (l3 & z & El); [done|]. rewrite El, (assoc_L (++)) in E.
  apply app_inj_tail in E as [-> <-]. destruct l3 as [|w l3]; cbn in El; injection El as -> ->.
  - left. by rewrite app_nil_r.
  - right. by exists l3.
Qed.

Section dedup.
Context {A : Type} `{EqDecision A}.

Lemma elem_of_dedup_acc (seen l : list A) x :
  x ∈ dedup_acc seen l <-> x ∈ l /\ x ∉ seen.
Proof.
  revert seen; induction l as [|y l IH]; intros seen; simpl.
  - split; [intros H; by apply elem_of_nil in H|intros [H _]; by apply elem_of_nil in H].
  - case_bool_decide; rewrite ?elem_of_cons, IH, ?elem_of_cons; [naive_solver|].
    destruct (decide (x = y)) as [->|]; naive_solver.
Qed.

Lemma NoDup_dedup_acc (seen l : list A) : NoDup (dedup_acc seen l).
Proof.
  revert seen; induction l as [|y l IH]; intros seen; simpl; [constructor|].
  case_bool_decide; [done|]. constructor; [|done].
  rewrite elem_of_dedup_acc, elem_of_cons. naive_solver.
Qed.

Lemma elem_of_dedup (l : list A) x : x ∈ dedup l <-> x ∈ l.
Proof.
  unfold dedup. rewrite elem_of_dedup_acc. split; [naive_solver|].
  intros; split; [done|]. intros H0; by apply elem_of_nil in H0.
Qed.

Lemma dedup_acc_id (seen l : list A) : NoDup l -> (forall x, x ∈ l -> x ∉ seen) -> dedup_acc seen l = l.
Proof.
  intros Hn. revert seen. induction Hn as [|x l Hx Hl IH]; intros seen H; [done|]. cbn.
  rewrite bool_decide_eq_false_2 by (apply H; by left). f_equal. apply IH. intros y Hy. apply not_elem_of_cons.
  split; [by intros ->|apply H; by right].
Qed.

Lemma dedup_id (l : list A) : NoDup l -> dedup l = l.
Proof. intros H. unfold dedup. apply dedup_acc_id; [done|]. intros x _. apply not_elem_of_nil. Qed.

Lemma NoDup_dedup (l : list A) : NoDup (dedup l).
Proof. apply NoDup_dedup_acc. Qed.
End dedup.

Section sorted.
Context {A : Type} (key : A -> string).

Lemma insert_by_perm x l : insert_by key x l ≡ₚ x :: l.
Proof.
  induction l as [|y l IH]; simpl; [done|].
  destruct (String.leb _ _); [done|]. by rewrite IH, Permutation_swap.
Qed.

Lemma sorted_by_perm l : sorted_by key l ≡ₚ l.
Proof. induction l as [|x l IH]; simpl; [done|]. by rewrite insert_by_perm, IH. Qed.

Lemma elem_of_sorted_by x l : x ∈ sorted_by key l <-> x ∈ l.
Proof. by rewrite sorted_by_perm. Qed.

Definition key_le (x y : A) : Prop := String.le (key x) (key y).

Lemma insert_by_sorted x l :
  StronglySorted key_le l -> StronglySorted key_le (insert_by key x l).
Proof.
  induction 1 as [|y l Hl IH Hy]; simpl; [repeat constructor|].
  destruct (String.leb _ _) eqn:E.
  - assert (Hxy : key_le x y) by (unfold key_le, String.le; by rewrite E).
    constructor; [by constructor|]. constructor; [done|].
    eapply Forall_impl; [exact Hy|]. intros z Hz. unfold key_le in *. by etrans.
  - constructor; [done|]. rewrite insert_by_perm. constructor; [|done].
    unfold key_le, String.le. destruct (String.leb_total (key x) (key y)) as [?|H]; [congruence|by rewrite H].
Qed.

Lemma sorted_by_sorted l : StronglySorted key_le (sorted_by key l).
Proof. induction l; simpl; [constructor|by apply insert_by_sorted]. Qed.

(** Sorting is stable, so a sorted list is its own sorting. *)
Lemma sorted_by_id l : StronglySorted key_le l -> sorted_by key l = l.
Proof.
  induction 1 as [|x l Hl IH Hx]; simpl; [done|]. rewrite IH. destruct l as [|y l]; [done|]. simpl.
  inversion Hx as [|? ? Hxy]; subst. unfold key_le, String.le in Hxy.
  destruct (String.leb (key x) (key y)); done.
Qed.
End sorted.

Lemma sorted_str_perm l l' : l ≡ₚ l' -> sorted_str l = sorted_str l'.
Proof.
  intros H. unfold sorted_str. apply (StronglySorted_unique_strong (key_le id)); [|apply sorted_by_sorted..|by rewrite !sorted_by_perm].
  intros x y _ _ H1 H2. by apply (anti_symm String.le).
Qed.

Lemma filter_perm {A} (f : A -> bool) l l' : l ≡ₚ l' -> List.filter f l ≡ₚ List.filter f l'.
Proof.
  induction 1 as [|x l l' _ IH|x y l|l1 l2 l3 _ IH1 _ IH2]; cbn; [done| | |by rewrite IH1].
  - destruct (f x); by rewrite IH.
  - destruct (f x), (f y); try done. apply Permutation_swap.
Qed.

Lemma dedup_perm {A} `{EqDecision A} (l l' : list A) : l ≡ₚ l' -> dedup l ≡ₚ dedup l'.
Proof.
  intros H. apply NoDup_Permutation; [apply NoDup_dedup..|]. intros x. rewrite !elem_of_dedup. by rewrite H.
Qed.

Lemma mem_spec x l : mem x l = true <-> x ∈ l.
Proof. unfold mem. by rewrite bool_decide_eq_true. Qed.

(** A failed [all(...)] has a witness. *)
Lemma forallb_exists_false {A} (f : A -> bool) l : forallb f l = false -> exists x, x ∈ l /\ f x = false.
Proof.
  induction l as [|x l IH]; simpl; [done|]. destruct (f x) eqn:E; simpl.
  - intros H. destruct (IH H) as (y & Hy & Hf). exists y. split; [by right|done].
  - intros _. exists x. split; [by left|done].
Qed.

(** [<] on strings is a strict total order. *)
Lemma string_ltb_irrefl x : String.ltb x x = false.
Proof. unfold String.ltb. assert (H := String.compare_antisym x x). by destruct (String.compare x x). Qed.
Lemma string_ltb_total x y : x = y \/ String.ltb x y = true \/ String.ltb y x = true.
Proof.
  unfold String.ltb. rewrite (String.compare_antisym x y). destruct (String.compare y x) eqn:E; simpl; auto.
  left. symmetry. by apply String.compare_eq_iff.
Qed.

Lemma append_cons c (s t : string) : (String c s +:+ t = String c (s +:+ t))%stdpp.
Proof. done. Qed.

Lemma append_nil_l (t : string) : ("" +:+ t = t)%stdpp.
Proof. done. Qed.

Lemma append_assoc (s1 s2 s3 : string) : ((s1 +:+ s2) +:+ s3 = s1 +:+ (s2 +:+ s3))%stdpp.
Proof. induction s1 as [|c s1 IH]; rewrite ?append_cons, ?IH; done. Qed.

Lemma append_inj_l (p s1 s2 : string) : (p +:+ s1 = p +:+ s2)%stdpp -> s1 = s2.
Proof. induction p as [|c p IH]; rewrite ?append_cons; intros H; [done|]. inversion H; auto. Qed.

Lemma append_empty_r (s : string) : (s +:+ "" = s)%stdpp.
Proof. induction s as [|c s IH]; rewrite ?append_cons, ?IH; done. Qed.

#[export] Hint Rewrite append_cons append_nil_l append_assoc append_empty_r : hive.
#[export] Hint Resolve elem_of_dedup NoDup_dedup sorted_by_perm sorted_by_sorted : hive.
