(* ===== verification/Programs.v ===== *)
(** * Programs of atomic steps

    A method that commits several times is a program: a sequence of atomic steps
    on the shared state, between which the process may be interleaved with others
    or die.  [run] is the method of a process that is alone, [stopped] what one
    leaves behind that dies after some steps, and [safe] a weakest precondition with
    a crash condition that holds between any two steps. *)

From S2P Require Import Prelude.

Module Programs.

Inductive prog (S A : Type) : Type :=
| Done (r : result A)
| Act {B : Type} (m : M S B) (k : result B -> prog S A).
Arguments Done {S A}.
Arguments Act {S A B}.

Section programs.
Context {S : Type}.

Definition doP {A} (m : M S A) : prog S A := Act m Done.
Definition liftP {A} (r : result A) : prog S A := Done r.
Definition guardP (b : bool) (c : exc_class) (msg : string) : prog S unit := liftP (require b c msg).

(** [try: p ... except Exception]: go on with however [p] ended. *)
Fixpoint afterP {A B} (p : prog S A) (f : result A -> prog S B) : prog S B :=
  match p with
  | Done r => f r
  | Act m k => Act m (fun r => afterP (k r) f)
  end.
Definition bindP {A B} (p : prog S A) (f : A -> prog S B) : prog S B :=
  afterP p (fun r => match r with Ok a => f a | Raise e => Done (Raise e) end).

(** A program run to its end by a process that is alone. *)
Fixpoint run {A} (p : prog S A) : M S A :=
  match p with
  | Done r => liftR r
  | Act m k => fun s => let '(r, s') := m s in run (k r) s'
  end.
(** The state after at most [n] of its steps. *)
Fixpoint stopped (n : nat) {A} (p : prog S A) (s : S) : S :=
  match n, p with
  | Datatypes.S n', Act m k => let '(r, s') := m s in stopped n' (k r) s'
  | _, _ => s
  end.

(** From [s] every state of the program satisfies [crash], and its end [post]. *)
Fixpoint safe {A} (crash : S -> Prop) (p : prog S A) (post : result A -> S -> Prop) (s : S) : Prop :=
  crash s /\ match p with
             | Done r => post r s
             | Act m k => safe crash (k (fst (m s))) post (snd (m s))
             end.
End programs.

Notation "'let%' x ':=' p 'in' k" := (bindP p (fun x => k))
  (at level 10, x pattern, p at level 100, k at level 200) : hive_scope.
Notation "p ;% k" := (bindP p (fun _ => k)) (at level 100, right associativity) : hive_scope.

(** ** A process alone *)

Section alone.
Context {S A B : Type}.
Implicit Types (s : S).

Lemma run_after (p : prog S A) (f : result A -> prog S B) s :
  run (afterP p f) s = let '(r, s') := run p s in run (f r) s'.
Proof.
  revert s. induction p as [r|C m k IH]; intros s; cbn; [done|]. destruct (m s) as [r s']. apply IH.
Qed.
Lemma run_bindP (p : prog S A) (f : A -> prog S B) s :
  run (bindP p f) s = match run p s with (Ok a, s') => run (f a) s' | (Raise e, s') => (Raise e, s') end.
Proof. unfold bindP. rewrite run_after. by destruct (run p s) as [[a|e] s']. Qed.
Lemma run_do (m : M S A) s : run (doP m) s = m s.
Proof. unfold doP. cbn. by destruct (m s). Qed.
End alone.

(** ** Reasoning about crashes *)

Section crashes.
Context {S : Type} (crash : S -> Prop).

Lemma safe_run {A} (p : prog S A) post s : safe crash p post s -> post (fst (run p s)) (snd (run p s)).
Proof.
  revert s. induction p as [r|B m k IH]; intros s [_ H]; [done|]. cbn. destruct (m s) as [r s'] eqn:E. cbn [fst snd] in *. by apply IH.
Qed.
Lemma safe_stopped {A} n (p : prog S A) post s : safe crash p post s -> crash (stopped n p s).
Proof.
  revert n s. induction p as [r|B m k IH]; intros [|n] s [Hc H]; try exact Hc. cbn. destruct (m s) as [r s']. by apply IH.
Qed.
Lemma safe_mono {A} (p : prog S A) (post post' : result A -> S -> Prop) s :
  (forall r t, crash t -> post r t -> post' r t) -> safe crash p post s -> safe crash p post' s.
Proof. intros Hp. revert s. induction p as [r|B m k IH]; intros s [Hc H]; split; auto. Qed.
Lemma safe_crash {A} (p : prog S A) post s : safe crash p post s -> crash s.
Proof. destruct p; by intros [H _]. Qed.
Lemma safe_after {A B} (p : prog S A) (f : result A -> prog S B) post s :
  safe crash p (fun r t => safe crash (f r) post t) s -> safe crash (afterP p f) post s.
Proof. revert s. induction p as [r|C m k IH]; intros s [Hc H]; [exact H|]. split; [exact Hc|]. by apply IH. Qed.
(** The rule of composition. *)
Lemma safe_bindP {A B} (p : prog S A) (f : A -> prog S B) post s :
  safe crash p (fun r t => match r with Ok a => safe crash (f a) post t | Raise e => post (Raise e) t end) s -> safe crash (bindP p f) post s.
Proof.
  intros H. apply safe_after. revert H. apply safe_mono. intros [a|e] t Hc Ht; [done|]. by split.
Qed.
Lemma safe_do {A} (m : M S A) (post : result A -> S -> Prop) s :
  crash s -> crash (snd (m s)) -> post (fst (m s)) (snd (m s)) -> safe crash (doP m) post s.
Proof. intros H1 H2 H3. split; [done|]. by split. Qed.
Lemma safe_lift {A} (r : result A) (post : result A -> S -> Prop) s : crash s -> post r s -> safe crash (liftP r) post s.
Proof. by split. Qed.
Lemma safe_guard b c msg (post : result unit -> S -> Prop) s :
  crash s -> (b = true -> post (Ok tt) s) -> (b = false -> post (raise c msg) s) -> safe crash (guardP b c msg) post s.
Proof. intros Hc H1 H2. split; [done|]. destruct b; cbn; auto. Qed.
End crashes.

End Programs.
