(* ===== verification/Sha256.v ===== *)
(** * SHA-256

    [hashlib.sha256(data).hexdigest()], the digest every ledger, event and
    contract of the program is sealed with (FIPS 180-4), executable on the
    byte strings of the development.  The algorithm is written once over an
    interface of 32-bit words, with two implementations: integers in [Z] with
    the wrap-around written out, which is the standard as one reads it, and the
    kernel's machine integers, which is the one that is evaluated.
    [sha256_machine_words] shows that they give the same digests. *)

From S2P Require Import Prelude.
From Stdlib Require Import Ascii.
From Stdlib Require Uint63.

(** ** The algorithm over an interface of words *)

(** The eight working words. *)
Record words8 (W : Type) := Words8 { wa : W; wb : W; wc : W; wd : W; we : W; wf : W; wg : W; wh : W }.
Arguments Words8 {W}.
Arguments wa {W}.
Arguments wb {W}.
Arguments wc {W}.
Arguments wd {W}.
Arguments we {W}.
Arguments wf {W}.
Arguments wg {W}.
Arguments wh {W}.

Definition map_words {A B} (f : A -> B) (v : words8 A) : words8 B :=
  Words8 (f (wa v)) (f (wb v)) (f (wc v)) (f (wd v)) (f (we v)) (f (wf v)) (f (wg v)) (f (wh v)).

(** A 32-bit word: addition modulo [2 ^ 32], the bitwise operations, rotation
    and shift to the right by a number of bits below 32, the four bits from a
    given one, and the constants. *)
Class Word32 (W : Type) := {
  add32 : W -> W -> W;
  xor32 : W -> W -> W;
  and32 : W -> W -> W;
  not32 : W -> W;
  rotr : W -> W -> W;
  shr : W -> W -> W;
  const32 : Z -> W;
  nibble : Z -> W -> Z;
  round_words : list W;
  initial_words : words8 W }.

Section Compression.
Context {W : Type} `{Word32 W}.

Definition big_sigma0 (x : W) : W := xor32 (rotr (const32 2) x) (xor32 (rotr (const32 13) x) (rotr (const32 22) x)).
Definition big_sigma1 (x : W) : W := xor32 (rotr (const32 6) x) (xor32 (rotr (const32 11) x) (rotr (const32 25) x)).
Definition small_sigma0 (x : W) : W := xor32 (rotr (const32 7) x) (xor32 (rotr (const32 18) x) (shr (const32 3) x)).
Definition small_sigma1 (x : W) : W := xor32 (rotr (const32 17) x) (xor32 (rotr (const32 19) x) (shr (const32 10) x)).
Definition choose (x y z : W) : W := xor32 (and32 x y) (and32 (not32 x) z).
Definition majority (x y z : W) : W := xor32 (and32 x y) (xor32 (and32 x z) (and32 y z)).

(** The message schedule, most recent word first. *)
Fixpoint extend_schedule (n : nat) (w : list W) : list W :=
  match n with
  | O => w
  | S n' =>
      let at_ i := default (const32 0) (w !! (i : nat)) in
      let next := add32 (add32 (small_sigma1 (at_ 1%nat)) (at_ 6%nat))
                        (add32 (small_sigma0 (at_ 14%nat)) (at_ 15%nat)) in
      extend_schedule n' (next :: w)
  end.

Definition sha_round (v : words8 W) (kw : W * W) : words8 W :=
  let t1 := add32 (add32 (wh v) (big_sigma1 (we v)))
                  (add32 (choose (we v) (wf v) (wg v)) (add32 (fst kw) (snd kw))) in
  let t2 := add32 (big_sigma0 (wa v)) (majority (wa v) (wb v) (wc v)) in
  Words8 (add32 t1 t2) (wa v) (wb v) (wc v) (add32 (wd v) t1) (we v) (wf v) (wg v).

Definition compress (h : words8 W) (block : list W) : words8 W :=
  let w := reverse (extend_schedule 48 (reverse block)) in
  let v := foldl sha_round h (zip round_words w) in
  Words8 (add32 (wa h) (wa v)) (add32 (wb h) (wb v)) (add32 (wc h) (wc v)) (add32 (wd h) (wd v))
         (add32 (we h) (we v)) (add32 (wf h) (wf v)) (add32 (wg h) (wg v)) (add32 (wh h) (wh v)).

(** Process 16 words at a time; the number of words bounds the number of blocks. *)
Fixpoint process_blocks (n : nat) (h : words8 W) (ws : list W) : words8 W :=
  match n, ws with
  | S n', _ :: _ => process_blocks n' (compress h (take 16 ws)) (drop 16 ws)
  | _, _ => h
  end.
End Compression.

(** ** The constants *)

Definition w32 (x : Z) : Z := Z.land x 0xffffffff.

(** The constants are the first 32 bits of the fractional parts of the square
    and cube roots of the first primes. *)
Definition is_prime (n : Z) : bool :=
  forallb (fun d => negb (n mod d =? 0)) (seqZ 2 (n - 2)).
Definition small_primes : list Z := List.filter is_prime (seqZ 2 310).

(** The integer cube root, one bit at a time from the highest. *)
Fixpoint cube_root (bits : nat) (r n : Z) : Z :=
  match bits with
  | O => r
  | S b => let r' := r + 2 ^ Z.of_nat b in
           cube_root b (if r' * r' * r' <=? n then r' else r) n
  end.

Definition round_constants : list Z :=
  Eval vm_compute in (fun p => w32 (cube_root 36 0 (p * 2 ^ 96))) <$> small_primes.

Definition root_word (i : nat) : Z := w32 (Z.sqrt (default 0 (small_primes !! i) * 2 ^ 64)).
Definition initial_hash : words8 Z :=
  Eval vm_compute in
  Words8 (root_word 0) (root_word 1) (root_word 2) (root_word 3)
         (root_word 4) (root_word 5) (root_word 6) (root_word 7).

(** ** Words as integers *)

#[export] Instance integer_words : Word32 Z := {|
  add32 x y := w32 (x + y);
  xor32 := Z.lxor;
  and32 := Z.land;
  not32 x := Z.lxor x 0xffffffff;
  rotr n x := Z.lor (Z.shiftr x n) (w32 (Z.shiftl x (32 - n)));
  shr n x := Z.shiftr x n;
  const32 x := x;
  nibble i x := Z.land (Z.shiftr x i) 15;
  round_words := round_constants;
  initial_words := initial_hash |}.

(** ** Words as machine integers *)

Section Machine.
Import Uint63.
Open Scope uint63_scope.
Definition width32 : int := 32.
Definition low32 (x : int) : int := Uint63.land x 0xffffffff.
(** The lowest four bits. *)
Definition bits4 (x : int) : Z :=
  Z.b2z (bit x 0) + 2 * Z.b2z (bit x 1) + 4 * Z.b2z (bit x 2) + 8 * Z.b2z (bit x 3).
Definition machine_constants : list int := Eval vm_compute in map of_Z round_constants.
Definition machine_hash : words8 int := Eval vm_compute in map_words of_Z initial_hash.
#[export] Instance machine_words : Word32 int := {|
  add32 x y := low32 (x + y);
  xor32 := Uint63.lxor;
  and32 := Uint63.land;
  not32 x := Uint63.lxor x 0xffffffff;
  rotr n x := Uint63.lor (Uint63.lsr x n) (low32 (Uint63.lsl x (Uint63.sub width32 n)));
  shr n x := Uint63.lsr x n;
  const32 := of_Z;
  nibble i x := bits4 (Uint63.lsr x (of_Z i));
  round_words := machine_constants;
  initial_words := machine_hash |}.
End Machine.

(** ** Messages *)

(** The padded message: a one bit, zeros, and the bit length in 64 bits. *)
Definition be_bytes (n : nat) (x : Z) : list Z :=
  (fun i => Z.land (Z.shiftr x (8 * Z.of_nat i)) 0xff) <$> reverse (seq 0 n).
Definition pad (msg : list Z) : list Z :=
  let len := Z.of_nat (length msg) in
  msg ++ 0x80 :: replicate (Z.to_nat ((55 - len) mod 64)) 0 ++ be_bytes 8 (8 * len).

(** Big-endian 32-bit words of a byte list. *)
Fixpoint be_words (l : list Z) : list Z :=
  match l with
  | a :: b :: c :: d :: rest =>
      Z.lor (Z.shiftl a 24) (Z.lor (Z.shiftl b 16) (Z.lor (Z.shiftl c 8) d)) :: be_words rest
  | _ => []
  end.

Definition hex_digit (x : Z) : ascii :=
  ascii_of_N (Z.to_N (let d := x mod 16 in if d <? 10 then 48 + d else 87 + d)).
Definition hex_word {W} `{Word32 W} (x : W) (rest : string) : string :=
  String (hex_digit (nibble 28 x)) (String (hex_digit (nibble 24 x))
  (String (hex_digit (nibble 20 x)) (String (hex_digit (nibble 16 x))
  (String (hex_digit (nibble 12 x)) (String (hex_digit (nibble 8 x))
  (String (hex_digit (nibble 4 x)) (String (hex_digit (nibble 0 x)) rest))))))).
Definition hex_words {W} `{Word32 W} (v : words8 W) : string :=
  hex_word (wa v) (hex_word (wb v) (hex_word (wc v) (hex_word (wd v)
  (hex_word (we v) (hex_word (wf v) (hex_word (wg v) (hex_word (wh v) ""))))))).

Definition bytes_of_string (s : string) : list Z :=
  (fun c => Z.of_N (N_of_ascii c)) <$> String.list_ascii_of_string s.

(** The standard, over integers. *)
Definition sha256_words (msg : list Z) : words8 Z :=
  let ws := be_words (pad msg) in
  process_blocks (length ws) initial_words ws.

(** [sha256(s.encode("utf-8")).hexdigest()] on machine integers. *)
Definition sha256_hexdigest (s : string) : string :=
  let ws := be_words (pad (bytes_of_string s)) in
  hex_words (process_blocks (length ws) initial_words (map Uint63.of_Z ws)).

(** The shape of a digest reference: ["sha256:"] and 64 lowercase hexadecimal
    characters. *)
Definition is_sha256_ref (s : string) : bool :=
  startswith "sha256:" s && (Nat.eqb (String.length s) 71)
  && all_chars is_hex (String.substring 7 64 s).

(** ** The two implementations agree

    A map between two word types that commutes with the operations commutes
    with the algorithm. *)

Section Homomorphism.
Context {A B : Type} {WA : Word32 A} {WB : Word32 B} (f : A -> B).

Record word_map : Prop := {
  map_add x y : f (add32 x y) = add32 (f x) (f y);
  map_xor x y : f (xor32 x y) = xor32 (f x) (f y);
  map_and x y : f (and32 x y) = and32 (f x) (f y);
  map_not x : f (not32 x) = not32 (f x);
  map_rotr n x : 0 < n < 32 -> f (rotr (const32 n) x) = rotr (const32 n) (f x);
  map_shr n x : 0 < n < 32 -> f (shr (const32 n) x) = shr (const32 n) (f x);
  map_nibble i x : 0 <= i < 32 -> nibble i (f x) = nibble i x;
  map_zero : f (const32 0) = const32 0;
  map_rounds : map f round_words = round_words;
  map_initial : map_words f initial_words = initial_words }.

Context (Hf : word_map).

Lemma map_small_sigma0 x : f (small_sigma0 x) = small_sigma0 (f x).
Proof. unfold small_sigma0. by rewrite !(map_xor Hf), !(map_rotr Hf), (map_shr Hf). Qed.
Lemma map_small_sigma1 x : f (small_sigma1 x) = small_sigma1 (f x).
Proof. unfold small_sigma1. by rewrite !(map_xor Hf), !(map_rotr Hf), (map_shr Hf). Qed.

Lemma map_extend n w : map f (extend_schedule n w) = extend_schedule n (map f w).
Proof.
  revert w. induction n as [|n IH]; intros w; [done|]. cbn [extend_schedule]. rewrite IH. f_equal. cbn [map]. f_equal.
  assert (Hat : forall i, f (default (const32 0) (w !! i)) = default (const32 0) (map f w !! i)).
  { intros i. change (map f w) with (f <$> w). rewrite list_lookup_fmap. destruct (w !! i); [done|apply (map_zero Hf)]. }
  by rewrite !(map_add Hf), map_small_sigma0, map_small_sigma1, !Hat.
Qed.

Lemma map_round v kw : map_words f (sha_round v kw) = sha_round (map_words f v) (f kw.1, f kw.2).
Proof.
  destruct v. unfold sha_round, map_words, big_sigma0, big_sigma1, choose, majority.
  cbn [wa wb wc wd we wf wg wh fst snd].
  by rewrite !(map_add Hf), !(map_xor Hf), !(map_and Hf), !(map_rotr Hf), !(map_not Hf).
Qed.

Lemma map_rounds_all l v : map_words f (foldl sha_round v l) = foldl sha_round (map_words f v) (map (prod_map f f) l).
Proof. revert v. induction l as [|[k w] l IH]; intros v; [done|]. cbn [foldl map]. by rewrite IH, map_round. Qed.

Lemma map_zip (k w : list A) : map (prod_map f f) (zip k w) = zip (map f k) (map f w).
Proof. revert w. induction k as [|x k IH]; intros [|y w]; cbn; [done..|]. by rewrite IH. Qed.

Lemma map_reverse (l : list A) : map f (reverse l) = reverse (map f l).
Proof. exact (fmap_reverse f l). Qed.

Lemma map_compress h block : map_words f (compress h block) = compress (map_words f h) (map f block).
Proof.
  unfold compress. rewrite <- map_reverse, <- map_extend, <- map_reverse, <- (map_rounds Hf), <- map_zip, <- map_rounds_all.
  unfold map_words. cbn [wa wb wc wd we wf wg wh]. by rewrite !(map_add Hf).
Qed.

Lemma map_process n h ws : map_words f (process_blocks n h ws) = process_blocks n (map_words f h) (map f ws).
Proof.
  revert h ws. induction n as [|n IH]; intros h [|w ws]; [done..|]. cbn [process_blocks].
  rewrite IH, map_compress. change (map f ?l) with (f <$> l). by rewrite fmap_take, fmap_drop.
Qed.

Lemma map_hex v : hex_words (map_words f v) = hex_words v.
Proof. unfold hex_words, hex_word. cbn [map_words wa wb wc wd we wf wg wh]. by rewrite !(map_nibble Hf). Qed.
End Homomorphism.

Lemma low_bits x :
  Z.b2z (Z.testbit x 0) + 2 * Z.b2z (Z.testbit x 1) + 4 * Z.b2z (Z.testbit x 2) + 8 * Z.b2z (Z.testbit x 3) = x mod 2 ^ 4.
Proof. rewrite !Z.testbit_spec' by lia. change (2 ^ 0) with 1. change (2 ^ 1) with 2. change (2 ^ 2) with 4. change (2 ^ 3) with 8. change (2 ^ 4) with 16. Z.to_euclidean_division_equations. lia. Qed.

Lemma machine_bits4 x : bits4 x = Uint63.to_Z x mod 2 ^ 4.
Proof. unfold bits4. rewrite !Uint63.bitE. apply low_bits. Qed.

Lemma mask_mod x : w32 x = x mod 2 ^ 32.
Proof. unfold w32. change 0xffffffff with (Z.ones 32). by apply Z.land_ones. Qed.

Lemma mask_wrap x : w32 (x mod 2 ^ 63) = w32 x.
Proof. rewrite !mask_mod. apply Z.mod_mod_divide. by exists (2 ^ 31). Qed.

Lemma machine_low32 x : Uint63.to_Z (low32 x) = w32 (Uint63.to_Z x).
Proof. unfold low32. by rewrite Uint63.land_spec'. Qed.

Lemma machine_rotation n : 0 < n < 32 ->
  Uint63.to_Z (Uint63.of_Z n) = n /\ Uint63.to_Z (Uint63.sub width32 (Uint63.of_Z n)) = 32 - n.
Proof.
  intros Hn. assert (E : Uint63.to_Z (Uint63.of_Z n) = n).
  { rewrite Uint63.of_Z_spec. apply Z.mod_small. change Uint63.wB with (2 ^ 63). lia. }
  split; [done|]. rewrite Uint63.sub_spec, E. apply Z.mod_small. change Uint63.wB with (2 ^ 63).
  change (Uint63.to_Z width32) with 32. lia.
Qed.

Lemma machine_integers : word_map Uint63.to_Z.
Proof.
  split; cbn [add32 xor32 and32 not32 rotr shr const32 machine_words integer_words].
  - intros x y. by rewrite machine_low32, Uint63.add_spec, mask_wrap.
  - apply Uint63.lxor_spec'.
  - apply Uint63.land_spec'.
  - intros x. by rewrite Uint63.lxor_spec'.
  - intros n x Hn. destruct (machine_rotation n Hn) as [En Es].
    rewrite Uint63.lor_spec', machine_low32, Uint63.lsr_spec, Uint63.lsl_spec, mask_wrap, En, Es.
    by rewrite Z.shiftr_div_pow2, Z.shiftl_mul_pow2 by lia.
  - intros n x Hn. destruct (machine_rotation n Hn) as [En _]. rewrite Uint63.lsr_spec, En. by rewrite Z.shiftr_div_pow2 by lia.
  - intros i x Hi. cbn [nibble machine_words integer_words]. rewrite machine_bits4, <- Z.land_ones by lia. change (Z.ones 4) with 15. rewrite Uint63.lsr_spec, Uint63.of_Z_spec.
    change Uint63.wB with (2 ^ 63). rewrite (Z.mod_small i) by lia. by rewrite Z.shiftr_div_pow2 by lia.
  - reflexivity.
  - vm_compute. reflexivity.
  - vm_compute. reflexivity.
Qed.

(** Bytes and words stay in range. *)
Lemma lor_bound n x y : 0 <= n -> 0 <= x < 2 ^ n -> 0 <= y < 2 ^ n -> 0 <= Z.lor x y < 2 ^ n.
Proof.
  intros Hn Hx Hy. assert (E : Z.lor x y = Z.lor x y mod 2 ^ n); [|rewrite E; apply Z.mod_pos_bound; lia].
  rewrite <- Z.land_ones, Z.land_lor_distr_l, !Z.land_ones, !Z.mod_small by lia. done.
Qed.

Definition is_byte (x : Z) : Prop := 0 <= x < 256.

Lemma be_words_bound (l : list Z) : Forall is_byte l -> Forall (fun w => 0 <= w < 2 ^ 32) (be_words l).
Proof.
  revert l. fix IH 1. intros [|a [|b [|c [|d rest]]]] H; try apply Forall_nil_2. cbn [be_words].
  do 4 (apply Forall_cons in H as [? H]). unfold is_byte in *. apply Forall_cons. split; [|by apply IH].
  rewrite !Z.shiftl_mul_pow2 by lia. repeat apply lor_bound; lia.
Qed.

Lemma pad_bytes msg : Forall is_byte msg -> Forall is_byte (pad msg).
Proof.
  intros H. unfold pad. apply Forall_app. split; [done|]. apply Forall_cons. split; [unfold is_byte; lia|].
  apply Forall_app. split; [apply Forall_replicate; unfold is_byte; lia|]. unfold be_bytes. apply Forall_fmap, Forall_forall.
  intros i _. unfold is_byte, compose. change 0xff with (Z.ones 8). rewrite Z.land_ones by lia. apply Z.mod_pos_bound. lia.
Qed.

Lemma string_bytes s : Forall is_byte (bytes_of_string s).
Proof.
  unfold bytes_of_string. apply Forall_fmap, Forall_forall. intros c _. unfold is_byte, compose.
  assert (H := N_ascii_bounded c). lia.
Qed.

(** The digests the library evaluates are the digests of the standard. *)
Theorem sha256_machine_words s : sha256_hexdigest s = hex_words (sha256_words (bytes_of_string s)).
Proof.
  unfold sha256_hexdigest, sha256_words. cbv zeta.
  assert (H := be_words_bound _ (pad_bytes _ (string_bytes s))). revert H.
  generalize (be_words (pad (bytes_of_string s))) as ws. intros ws H.
  rewrite <- (map_hex Uint63.to_Z machine_integers), (map_process Uint63.to_Z machine_integers),
    (map_initial _ machine_integers). do 2 f_equal. rewrite map_map. rewrite <- (map_id ws) at 2. apply map_ext_in. intros w Hw.
  rewrite Uint63.of_Z_spec. apply Z.mod_small. rewrite Forall_forall in H. apply list_elem_of_In, H in Hw.
  change Uint63.wB with (2 ^ 63). lia.
Qed.

(** ** Test vectors of FIPS 180-4 *)

Example sha256_empty :
  sha256_hexdigest "" = "e3b0c44298fc1c149afbf4c8996fb92427ae41e4649b934ca495991b7852b855".
Proof. vm_compute. reflexivity. Qed.

Example sha256_abc :
  sha256_hexdigest "abc" = "ba7816bf8f01cfea414140de5dae2223b00361a396177a9cb410ff61f20015ad".
Proof. vm_compute. reflexivity. Qed.

Example sha256_two_blocks :
  sha256_hexdigest "abcdbcdecdefdefgefghfghighijhijkijkljklmklmnlmnomnopnopq"
  = "248d6a61d20638b8e5c026930c3e6039a33ce45964ff2167f6ecedd419db06c1".
Proof. vm_compute. reflexivity. Qed.

(** ** The shape of a digest *)

Lemma hex_digit_is_hex x : is_hex (hex_digit x) = true.
Proof.
  unfold hex_digit. assert (H := Z.mod_pos_bound x 16 ltac:(lia)).
  revert H; generalize (x mod 16) as d; intros d H.
  assert (Hd : d = 0 \/ d = 1 \/ d = 2 \/ d = 3 \/ d = 4 \/ d = 5 \/ d = 6 \/ d = 7 \/ d = 8
               \/ d = 9 \/ d = 10 \/ d = 11 \/ d = 12 \/ d = 13 \/ d = 14 \/ d = 15) by lia.
  repeat destruct Hd as [->|Hd]; try subst; reflexivity.
Qed.

Lemma sha256_hexdigest_shape s :
  String.length (sha256_hexdigest s) = 64%nat /\ all_chars is_hex (sha256_hexdigest s) = true.
Proof.
  unfold sha256_hexdigest. cbv zeta. generalize (process_blocks (length (be_words (pad (bytes_of_string s)))) initial_words
    (map Uint63.of_Z (be_words (pad (bytes_of_string s))))) as v; intros v.
  split; [reflexivity|]. unfold hex_words, hex_word. cbn [all_chars]. by rewrite !hex_digit_is_hex.
Qed.

Lemma sha256_ref_nonempty s : ("sha256:" +:+ sha256_hexdigest s <> "")%stdpp.
Proof. done. Qed.

#[global] Opaque sha256_hexdigest.
