(* ===== verification/Canonical.v ===== *)
(** * Canonical JSON

    The deterministic encoding of [brain_kernel/canonical.py] and of the
    [json.dumps]/[json.loads] calls of the other modules: JSON values, the
    printer with sorted keys and compact separators, the parser, and the
    digests built on them.  Floating-point numbers are not JSON values here:
    no contract modelled in this development carries one, and the parser
    rejects a literal with a fraction or an exponent. *)

From S2P Require Import Prelude Sha256.
From Stdlib Require Import Ascii DecimalString.
From Stdlib Require DecimalPos.

Inductive json :=
| JNull
| JBool (b : bool)
| JInt (z : Z)
| JStr (s : string)
| JList (l : list json)
| JObj (l : list (string * json)).

(** ** Characters *)

Definition code (c : ascii) : N := N_of_ascii c.
Definition chr (n : N) : ascii := ascii_of_N n.
Definition dquote : ascii := chr 34.
Definition backslash : ascii := chr 92.

(** ** Printing *)

(** The escapes of [json.dumps(..., ensure_ascii=False)]. *)
Definition escape_char (c : ascii) (rest : string) : string :=
  match code c with
  | 34 => String backslash (String dquote rest)
  | 92 => String backslash (String backslash rest)
  | 10 => String backslash (String "n" rest)
  | 13 => String backslash (String "r" rest)
  | 9 => String backslash (String "t" rest)
  | 12 => String backslash (String "f" rest)
  | 8 => String backslash (String "b" rest)
  | n => if (n <? 32)%N then
           String backslash (String "u" (String "0" (String "0"
             (String (hex_digit (Z.of_N n / 16)) (String (hex_digit (Z.of_N n)) rest)))))
         else String c rest
  end%N.

Fixpoint escape (s : string) (rest : string) : string :=
  match s with
  | EmptyString => rest
  | String c s' => escape_char c (escape s' rest)
  end.

(** A string literal, printed in front of [rest]. *)
Definition quote (s rest : string) : string :=
  String dquote (escape s (String dquote rest)).

(** A value printed in front of [rest], with the separators [","] and [":"]. *)
Fixpoint print (j : json) (rest : string) : string :=
  match j with
  | JNull => "null" +:+ rest
  | JBool true => "true" +:+ rest
  | JBool false => "false" +:+ rest
  | JInt z => str_of_Z z +:+ rest
  | JStr s => quote s rest
  | JList [] => "[]" +:+ rest
  | JList (x :: xs) =>
      String "[" (print x ((fix elems l := match l with
                            | [] => String "]" rest
                            | y :: ys => String "," (print y (elems ys))
                            end) xs))
  | JObj [] => "{}" +:+ rest
  | JObj ((k, x) :: xs) =>
      String "{" (quote k (String ":" (print x
        ((fix members l := match l with
          | [] => String "}" rest
          | (k', y) :: ys => String "," (quote k' (String ":" (print y (members ys))))
          end) xs))))
  end%stdpp.

(** [sort_keys=True]: every object with its entries in key order. *)
Fixpoint norm (j : json) : json :=
  match j with
  | JList l => JList (map norm l)
  | JObj l => JObj (sorted_by fst (map (fun kv => (kv.1, norm kv.2)) l))
  | _ => j
  end.

(** [json.dumps(value, ensure_ascii=False, sort_keys=True, separators=(",", ":"))] *)
Definition dumps (j : json) : string := print (norm j) "".

(** A code point as one or two [\uXXXX] escapes. *)
Definition u_escape (n : N) (rest : string) : string :=
  let h k := hex_digit (Z.of_N (n / k)) in
  String backslash (String "u" (String (h 4096%N) (String (h 256%N) (String (h 16%N) (String (h 1%N) rest))))).
Definition escape_code_point (n : N) (rest : string) : string :=
  (if n <? 65536 then u_escape n rest
   else u_escape (55296 + (n - 65536) / 1024) (u_escape (56320 + (n - 65536) mod 1024) rest))%N.

(** The [ensure_ascii=True] form of a printed document: characters outside
    the printable ASCII range occur only inside string literals, where each is
    replaced by its escape. *)
Fixpoint asciify (s : string) : string :=
  match s with
  | EmptyString => EmptyString
  | String a r =>
      let n := code a in
      if (n <? 127)%N then String a (asciify r)
      else if (n <? 192)%N then u_escape n (asciify r)
      else match r with
      | String b r1 =>
          if (n <? 224)%N then escape_code_point ((n - 192) * 64 + (code b - 128))%N (asciify r1)
          else match r1 with
          | String c r2 =>
              if (n <? 240)%N then
                escape_code_point (((n - 224) * 64 + (code b - 128)) * 64 + (code c - 128))%N (asciify r2)
              else match r2 with
              | String d r3 =>
                  escape_code_point ((((n - 240) * 64 + (code b - 128)) * 64 + (code c - 128)) * 64 + (code d - 128))%N (asciify r3)
              | EmptyString => EmptyString
              end
          | EmptyString => EmptyString
          end
      | EmptyString => EmptyString
      end
  end.

(** [json.dumps(value, sort_keys=True, separators=(",", ":"))] *)
Definition dumps_ascii (j : json) : string := asciify (dumps j).

(** ** Parsing: [json.loads] *)

Definition is_ws (c : ascii) : bool :=
  match code c with 32 | 9 | 10 | 13 => true | _ => false end%N.
Fixpoint skip (s : string) : string :=
  match s with
  | String c r => if is_ws c then skip r else s
  | EmptyString => s
  end.

Definition hex_value (c : ascii) : option N :=
  let n := code c in
  if (48 <=? n)%N && (n <=? 57)%N then Some (n - 48)%N
  else if (97 <=? n)%N && (n <=? 102)%N then Some (n - 87)%N
  else if (65 <=? n)%N && (n <=? 70)%N then Some (n - 55)%N
  else None.
Definition hex4 (a b c d : ascii) : option N :=
  match hex_value a, hex_value b, hex_value c, hex_value d with
  | Some x, Some y, Some z, Some t => Some (((x * 16 + y) * 16 + z) * 16 + t)%N
  | _, _, _, _ => None
  end.

(** The UTF-8 encoding of a code point. *)
Definition utf8 (n : N) : string :=
  (if n <? 128 then String (chr n) ""
   else if n <? 2048 then String (chr (192 + n / 64)) (String (chr (128 + n mod 64)) "")
   else if n <? 65536 then
     String (chr (224 + n / 4096)) (String (chr (128 + (n / 64) mod 64)) (String (chr (128 + n mod 64)) ""))
   else String (chr (240 + n / 262144)) (String (chr (128 + (n / 4096) mod 64))
          (String (chr (128 + (n / 64) mod 64)) (String (chr (128 + n mod 64)) ""))))%N.

Definition simple_escape (c : ascii) : option ascii :=
  match code c with
  | 34 => Some dquote | 92 => Some backslash | 47 => Some (chr 47)
  | 98 => Some (chr 8) | 102 => Some (chr 12) | 110 => Some (chr 10)
  | 114 => Some (chr 13) | 116 => Some (chr 9)
  | _ => None
  end%N.

Definition prepend (t : string) (o : option (string * string)) : option (string * string) :=
  match o with Some (s, r) => Some (String.append t s, r) | None => None end.

(** The body of a string literal, after its opening quote.  A lone surrogate
    has no UTF-8 form and is rejected. *)
Fixpoint pstring (s : string) : option (string * string) :=
  match s with
  | EmptyString => None
  | String c r =>
      if (code c =? 34)%N then Some (EmptyString, r)
      else if (code c =? 92)%N then
        match r with
        | EmptyString => None
        | String e r1 =>
            if (code e =? 117)%N then
              match r1 with
              | String h1 (String h2 (String h3 (String h4 r2))) =>
                  match hex4 h1 h2 h3 h4 with
                  | None => None
                  | Some n =>
                      if (55296 <=? n)%N && (n <=? 56319)%N then
                        match r2 with
                        | String b (String u (String k1 (String k2 (String k3 (String k4 r3))))) =>
                            if (code b =? 92)%N && (code u =? 117)%N then
                              match hex4 k1 k2 k3 k4 with
                              | Some m =>
                                  if (56320 <=? m)%N && (m <=? 57343)%N then
                                    prepend (utf8 (65536 + (n - 55296) * 1024 + (m - 56320))%N) (pstring r3)
                                  else None
                              | None => None
                              end
                            else None
                        | _ => None
                        end
                      else if (56320 <=? n)%N && (n <=? 57343)%N then None
                      else prepend (utf8 n) (pstring r2)
                  end
              | _ => None
              end
            else match simple_escape e with
                 | Some x => prepend (String x EmptyString) (pstring r1)
                 | None => None
                 end
        end
      else if (code c <? 32)%N then None
      else prepend (String c EmptyString) (pstring r)
  end.

Definition is_digit (c : ascii) : bool := (48 <=? code c)%N && (code c <=? 57)%N.
Fixpoint span_digits (s : string) : string * string :=
  match s with
  | String c r => if is_digit c then (let '(d, t) := span_digits r in (String c d, t)) else (EmptyString, s)
  | EmptyString => (EmptyString, EmptyString)
  end.

(** The digits of an integer literal: a zero, or digits that do not start with
    one.  The sign has been read already. *)
Definition pdigits (s : string) : option (Z * string) :=
  match s with
  | String c r =>
      if (code c =? 48)%N then Some (0, r)
      else let '(d, t) := span_digits s in
           match NilEmpty.uint_of_string d with
           | Some Decimal.Nil => None
           | Some u => Some (Z.of_uint u, t)
           | None => None
           end
  | EmptyString => None
  end.

Definition literal (lit : string) (v : json) (s : string) : option (json * string) :=
  if String.prefix lit s then Some (v, String.substring (String.length lit) (String.length s - String.length lit) s)
  else None.

(** [dict(pairs)]: a repeated key keeps its first position and takes the last
    value. *)
Fixpoint dict_set {A} (k : string) (v : A) (l : list (string * A)) : list (string * A) :=
  match l with
  | [] => [(k, v)]
  | (k', v') :: r => if String.eqb k k' then (k, v) :: r else (k', v') :: dict_set k v r
  end.
Definition dict_of_pairs {A} (l : list (string * A)) : list (string * A) :=
  foldl (fun acc kv => dict_set kv.1 kv.2 acc) [] l.

(** The parser over [object_pairs_hook], which turns the members of an object
    into a dictionary or refuses them. *)
Section parser.
Context (pairs_hook : list (string * json) -> option (list (string * json))).

Fixpoint hooked_value (n : nat) (s : string) : option (json * string) :=
  match n with
  | O => None
  | S n' =>
      match s with
      | EmptyString => None
      | String c r =>
          match code c with
          | 34 => match pstring r with Some (t, r') => Some (JStr t, r') | None => None end
          | 91 => match skip r with
                  | String d r' =>
                      if (code d =? 93)%N then Some (JList [], r')
                      else match hooked_elems n' (String d r') with Some (l, r'') => Some (JList l, r'') | None => None end
                  | EmptyString => None
                  end
          | 123 => match skip r with
                   | String d r' =>
                       if (code d =? 125)%N then Some (JObj [], r')
                       else match hooked_members n' (String d r') with
                            | Some (l, r'') => match pairs_hook l with Some o => Some (JObj o, r'') | None => None end
                            | None => None end
                   | EmptyString => None
                   end
          | 110 => literal "null" JNull s
          | 116 => literal "true" (JBool true) s
          | 102 => literal "false" (JBool false) s
          | 45 => match pdigits r with Some (z, r') => Some (JInt (- z), r') | None => None end
          | _ => match pdigits s with Some (z, r') => Some (JInt z, r') | None => None end
          end%N
      end
  end
with hooked_elems (n : nat) (s : string) : option (list json * string) :=
  match n with
  | O => None
  | S n' =>
      match hooked_value n' s with
      | None => None
      | Some (v, r) =>
          match skip r with
          | String d r' =>
              if (code d =? 93)%N then Some ([v], r')
              else if (code d =? 44)%N then
                match hooked_elems n' (skip r') with Some (l, r'') => Some (v :: l, r'') | None => None end
              else None
          | EmptyString => None
          end
      end
  end
with hooked_members (n : nat) (s : string) : option (list (string * json) * string) :=
  match n with
  | O => None
  | S n' =>
      match s with
      | String q r =>
          if (code q =? 34)%N then
            match pstring r with
            | None => None
            | Some (k, r1) =>
                match skip r1 with
                | String d r2 =>
                    if (code d =? 58)%N then
                      match hooked_value n' (skip r2) with
                      | None => None
                      | Some (v, r3) =>
                          match skip r3 with
                          | String e r4 =>
                              if (code e =? 125)%N then Some ([(k, v)], r4)
                              else if (code e =? 44)%N then
                                match hooked_members n' (skip r4) with
                                | Some (l, r5) => Some ((k, v) :: l, r5) | None => None end
                              else None
                          | EmptyString => None
                          end
                      end
                    else None
                | EmptyString => None
                end
            end
          else None
      | EmptyString => None
      end
  end.

(** [json.loads(s, object_pairs_hook=...)]; [None] is [JSONDecodeError], or the
    hook's exception.  Every call of the parser consumes a character, so twice
    the length is fuel enough. *)
Definition loads_with (s : string) : option json :=
  match hooked_value (S (2 * String.length s)) (skip s) with
  | Some (v, r) => if String.eqb (skip r) "" then Some v else None
  | None => None
  end.
End parser.

(** The hook of a plain [dict]. *)
Definition plain_pairs (l : list (string * json)) : option (list (string * json)) := Some (dict_of_pairs l).
Notation pvalue := (hooked_value plain_pairs).
Notation pelems := (hooked_elems plain_pairs).
Notation pmembers := (hooked_members plain_pairs).

(** [json.loads(s)] *)
Definition loads (s : string) : option json := loads_with plain_pairs s.

(** ** The round trip *)

Section json_ind.
Context (P : json -> Prop).
Context (Hnull : P JNull) (Hbool : forall b, P (JBool b)) (Hint : forall z, P (JInt z)).
Context (Hstr : forall s, P (JStr s)).
Context (Hlist : forall l, Forall P l -> P (JList l)).
Context (Hobj : forall l, Forall (fun kv => P kv.2) l -> P (JObj l)).

Fixpoint json_ind' (j : json) : P j :=
  match j with
  | JNull => Hnull
  | JBool b => Hbool b
  | JInt z => Hint z
  | JStr s => Hstr s
  | JList l => Hlist l ((fix go l : Forall P l := match l with
      | [] => Forall_nil_2 _
      | x :: xs => Forall_cons_2 _ _ _ (json_ind' x) (go xs) end) l)
  | JObj l => Hobj l ((fix go l : Forall (fun kv => P kv.2) l := match l with
      | [] => Forall_nil_2 _
      | x :: xs => Forall_cons_2 _ _ _ (json_ind' x.2) (go xs) end) l)
  end.
End json_ind.

(** Python dictionaries have distinct keys. *)
Fixpoint json_wf (j : json) : bool :=
  match j with
  | JList l => forallb json_wf l
  | JObj l => distinct (map fst l) && forallb (fun kv => json_wf kv.2) l
  | _ => true
  end.

Definition elems_tail (rest : string) : list json -> string :=
  fix elems l := match l with
    | [] => String "]" rest
    | y :: ys => String "," (print y (elems ys))
    end.
Definition members_tail (rest : string) : list (string * json) -> string :=
  fix members l := match l with
    | [] => String "}" rest
    | (k', y) :: ys => String "," (quote k' (String ":" (print y (members ys))))
    end.

Lemma pstring_escape_char c r :
  pstring (escape_char c r) = prepend (String c EmptyString) (pstring r).
Proof. destruct c as [[] [] [] [] [] [] [] []]; reflexivity. Qed.

Lemma pstring_escape s rest : pstring (escape s (String dquote rest)) = Some (s, rest).
Proof.
  induction s as [|c s IH]; [reflexivity|].
  cbn [escape]. rewrite pstring_escape_char, IH. reflexivity.
Qed.

(** The next character does not extend an integer literal. *)
Definition no_digit (s : string) : bool :=
  match s with String c _ => negb (is_digit c) | EmptyString => true end.

Lemma span_digits_uint d rest :
  no_digit rest = true ->
  span_digits (NilEmpty.string_of_uint d +:+ rest)%stdpp = (NilEmpty.string_of_uint d, rest).
Proof.
  intros H. induction d as [|d IH|d IH|d IH|d IH|d IH|d IH|d IH|d IH|d IH|d IH];
    cbn [NilEmpty.string_of_uint]; rewrite ?append_cons, ?append_nil_l;
    [|cbn [span_digits]; rewrite IH; reflexivity..].
  destruct rest as [|c r]; [done|]. cbn in *. by apply negb_true_iff in H as ->.
Qed.

Lemma to_uint_head p d : Pos.to_uint p <> Decimal.D0 d.
Proof.
  intros H. assert (Hn := DecimalPos.Unsigned.to_of (Pos.to_uint p)).
  rewrite DecimalPos.Unsigned.of_to in Hn. cbn in Hn. rewrite H in Hn.
  assert (Hh : forall d e, Decimal.nzhead d <> Decimal.D0 e).
  { clear. intros d e. induction d; cbn; congruence. }
  unfold Decimal.unorm in Hn. cbn in Hn. destruct (Decimal.nzhead d) eqn:E; try congruence.
  - apply (DecimalPos.Unsigned.to_uint_nonzero p). by rewrite H, <- Hn.
  - by apply Hh in E.
Qed.

Lemma pdigits_uint p rest :
  no_digit rest = true ->
  pdigits (NilEmpty.string_of_uint (Pos.to_uint p) +:+ rest)%stdpp = Some (Zpos p, rest).
Proof.
  intros H. assert (Hs := span_digits_uint (Pos.to_uint p) rest H).
  assert (Hz : Z.of_uint (Pos.to_uint p) = Zpos p)
    by (unfold Z.of_uint; by rewrite DecimalPos.Unsigned.of_to).
  assert (Hu := NilEmpty.usu (Pos.to_uint p)).
  destruct (Pos.to_uint p) eqn:E; try by apply to_uint_head in E.
  { by apply DecimalPos.Unsigned.to_uint_nonnil in E. }
  all: revert Hs Hu; cbn [NilEmpty.string_of_uint]; rewrite append_cons; intros Hs Hu;
    unfold pdigits; rewrite Hs, Hu, Hz; reflexivity.
Qed.

Lemma pvalue_int hook n z rest :
  no_digit rest = true -> hooked_value hook (S n) (str_of_Z z +:+ rest)%stdpp = Some (JInt z, rest).
Proof.
  intros H. destruct z as [|p|p]; unfold str_of_Z; cbn [Z.to_int].
  - reflexivity.
  - cbn [NilEmpty.string_of_int]. assert (Hp := pdigits_uint p rest H).
    destruct (Pos.to_uint p) eqn:E; try by apply to_uint_head in E.
    { by apply DecimalPos.Unsigned.to_uint_nonnil in E. }
    all: revert Hp; cbn [NilEmpty.string_of_uint]; rewrite append_cons; intros Hp;
      cbn [hooked_value]; cbv [code N_of_ascii N_of_digits]; cbn match; cbn -[pdigits]; by rewrite Hp.
  - cbn [NilEmpty.string_of_int]. rewrite append_cons. cbn -[pdigits NilEmpty.string_of_uint].
    by rewrite pdigits_uint.
Qed.

Lemma dict_set_fresh {A} k (v : A) l : k ∉ l.*1 -> dict_set k v l = l ++ [(k, v)].
Proof.
  induction l as [|[k' v'] l IH]; intros H; cbn [dict_set]; [done|].
  rewrite fmap_cons, not_elem_of_cons in H. destruct H as [Hk Hl].
  cbn in Hk. apply String.eqb_neq in Hk. by rewrite Hk, IH.
Qed.

Lemma dict_of_pairs_distinct {A} (l : list (string * A)) : NoDup l.*1 -> dict_of_pairs l = l.
Proof.
  unfold dict_of_pairs. change l with ([] ++ l) at 1 3.
  generalize (@nil (string * A)) as acc. revert l.
  induction l as [|[k v] l IH]; intros acc H; simpl; [by rewrite app_nil_r|].
  rewrite dict_set_fresh.
  - rewrite (IH (acc ++ [(k, v)])); rewrite <- app_assoc; done.
  - rewrite fmap_app, fmap_cons in H. apply NoDup_app in H as (_ & H & _).
    intros Hk. by apply (H k Hk), list_elem_of_here.
Qed.

(** The fuel [pvalue] and [pelems] need on a printed value. *)
Fixpoint jfuel (j : json) : nat :=
  match j with
  | JList l => S (foldr (fun x e => S (Nat.max (jfuel x) e)) 0%nat l)
  | JObj l => S (foldr (fun kv e => S (Nat.max (jfuel kv.2) e)) 0%nat l)
  | _ => 1%nat
  end.

Lemma str_of_Z_head z : exists c s,
  str_of_Z z = String c s /\ is_ws c = false /\ (code c =? 93)%N = false /\ (code c =? 125)%N = false.
Proof.
  unfold str_of_Z. destruct z as [|p|p]; cbn [Z.to_int NilEmpty.string_of_int]; [by do 2 eexists| |by do 2 eexists].
  destruct (Pos.to_uint p) eqn:E; [by apply DecimalPos.Unsigned.to_uint_nonnil in E|by do 2 eexists..].
Qed.

(** A printed value starts with a character that is neither white space nor a
    closing bracket. *)
Lemma print_head j rest : exists c s,
  print j rest = String c s /\ is_ws c = false /\ (code c =? 93)%N = false /\ (code c =? 125)%N = false.
Proof.
  destruct j as [|[]|z|s|[|x l]|[|[k x] l]]; try by do 2 eexists.
  destruct (str_of_Z_head z) as (c & s & Hz & H).
  exists c, (s +:+ rest)%stdpp. split; [|done]. cbn [print]. by rewrite Hz, append_cons.
Qed.

Lemma skip_print j rest : skip (print j rest) = print j rest.
Proof. destruct (print_head j rest) as (c & s & -> & H & _). cbn [skip]. by rewrite H. Qed.

Lemma skip_other c r : is_ws c = false -> skip (String c r) = String c r.
Proof. intros H. cbn [skip]. by rewrite H. Qed.

Lemma skip_quote k rest : skip (quote k rest) = quote k rest.
Proof. done. Qed.

Lemma elems_tail_cons rest y ys :
  elems_tail rest (y :: ys) = String "," (print y (elems_tail rest ys)).
Proof. done. Qed.

Lemma members_tail_cons rest k y ys :
  members_tail rest ((k, y) :: ys) = String "," (quote k (String ":" (print y (members_tail rest ys)))).
Proof. done. Qed.

Lemma no_digit_elems rest l : no_digit (elems_tail rest l) = true.
Proof. by destruct l. Qed.

Lemma no_digit_members rest l : no_digit (members_tail rest l) = true.
Proof. by destruct l as [|[]]. Qed.

Lemma substring_all s : String.substring 0 (String.length s) s = s.
Proof. induction s as [|c s IH]; [done|]. cbn. by rewrite IH. Qed.

Lemma literal_read lit v rest : literal lit v (lit +:+ rest)%stdpp = Some (v, rest).
Proof.
  unfold literal.
  assert (Hp : String.prefix lit (lit +:+ rest)%stdpp = true).
  { induction lit as [|c lit IH]; [by destruct rest|]. rewrite append_cons. cbn.
    destruct (ascii_dec c c); [done|congruence]. }
  rewrite Hp. f_equal. f_equal. clear Hp v.
  induction lit as [|c lit IH]; [rewrite append_nil_l; cbn [String.length]|].
  - rewrite Nat.sub_0_r. apply substring_all.
  - rewrite append_cons. cbn. exact IH.
Qed.

(** A hook that keeps members with distinct keys as they are reads a printed
    value back. *)
Section hooked.
Context (hook : list (string * json) -> option (list (string * json))).
Context (Hhook : forall l, NoDup l.*1 -> hook l = Some l).

Definition reads_back (j : json) : Prop :=
  json_wf j = true -> forall n rest, no_digit rest = true -> (jfuel j <= n)%nat ->
  hooked_value hook n (print j rest) = Some (j, rest).

Lemma pelems_print x xs n rest :
  Forall reads_back (x :: xs) -> forallb json_wf (x :: xs) = true ->
  (foldr (fun x e => S (Nat.max (jfuel x) e)) 0%nat (x :: xs) <= n)%nat ->
  hooked_elems hook n (print x (elems_tail rest xs)) = Some (x :: xs, rest).
Proof.
  revert x n. induction xs as [|y ys IH]; intros x n HF Hwf Hn;
    apply Forall_cons in HF as [Hx HF]; cbn [forallb foldr] in Hwf, Hn; bool_hyps;
    (destruct n as [|n]; [lia|]); cbn [hooked_elems];
    rewrite Hx by (done || lia || apply no_digit_elems); [done|].
  rewrite elems_tail_cons, skip_other by done.
  change (code "," =? 93)%N with false; change (code "," =? 44)%N with true; cbn match.
  rewrite skip_print, IH; [done|done| |cbn [foldr]; lia].
  cbn [forallb]. by apply andb_true_iff.
Qed.

Lemma pmembers_print k x xs n rest :
  Forall (fun kv => reads_back kv.2) ((k, x) :: xs) ->
  forallb (fun kv => json_wf kv.2) ((k, x) :: xs) = true ->
  (foldr (fun kv e => S (Nat.max (jfuel kv.2) e)) 0%nat ((k, x) :: xs) <= n)%nat ->
  hooked_members hook n (quote k (String ":" (print x (members_tail rest xs)))) = Some ((k, x) :: xs, rest).
Proof.
  revert k x n. induction xs as [|[k' y] ys IH]; intros k x n HF Hwf Hn;
    apply Forall_cons in HF as [Hx HF]; cbn [forallb foldr snd] in Hwf, Hn, Hx; bool_hyps;
    (destruct n as [|n]; [lia|]); cbn [hooked_members]; unfold quote at 1;
    change (code dquote =? 34)%N with true; cbn match; rewrite pstring_escape, skip_other by done;
    change (code ":" =? 58)%N with true; cbn match; rewrite skip_print, Hx by (done || lia || apply no_digit_members); [done|].
  rewrite members_tail_cons, skip_other by done.
  change (code "," =? 125)%N with false; change (code "," =? 44)%N with true; cbn match.
  rewrite skip_quote, IH; [done|done| |cbn [foldr snd]; lia].
  cbn [forallb snd]. by apply andb_true_iff.
Qed.

Lemma hooked_print j : reads_back j.
Proof.
  induction j as [|b|z|s|l IH|l IH] using json_ind'; intros Hwf n rest Hd Hn;
    (destruct n as [|n]; [cbn [jfuel] in Hn; lia|]).
  - exact (literal_read "null" JNull rest).
  - destruct b; [exact (literal_read "true" (JBool true) rest)|exact (literal_read "false" (JBool false) rest)].
  - by apply pvalue_int.
  - cbn [print]. unfold quote. cbn -[pstring escape]. by rewrite pstring_escape.
  - destruct l as [|x xs]; [done|].
    change (print (JList (x :: xs)) rest) with (String "[" (print x (elems_tail rest xs))).
    cbn [hooked_value]. change (code "[") with 91%N. cbn match. rewrite skip_print.
    assert (He := pelems_print x xs n rest IH Hwf). cbn [jfuel] in Hn.
    specialize (He ltac:(lia)).
    destruct (print_head x (elems_tail rest xs)) as (c & s & Hc & _ & H93 & _).
    rewrite Hc in He |- *. by rewrite H93, He.
  - destruct l as [|[k x] xs]; [done|].
    change (print (JObj ((k, x) :: xs)) rest)
      with (String "{" (quote k (String ":" (print x (members_tail rest xs))))).
    cbn [json_wf] in Hwf. bool_hyps. unfold distinct in *. bool_hyps.
    cbn [hooked_value]. change (code "{") with 123%N. cbn match. rewrite skip_quote.
    unfold quote at 1. change (code dquote =? 125)%N with false. cbn match. fold (quote k (String ":" (print x (members_tail rest xs)))).
    cbn [jfuel] in Hn. rewrite (pmembers_print k x xs n rest IH) by (done || lia).
    by rewrite Hhook.
Qed.
End hooked.

Lemma plain_pairs_distinct l : NoDup l.*1 -> plain_pairs l = Some l.
Proof. intros H. unfold plain_pairs. by rewrite dict_of_pairs_distinct. Qed.

Lemma pvalue_print j : reads_back plain_pairs j.
Proof. apply hooked_print, plain_pairs_distinct. Qed.

Lemma length_append (s t : string) :
  String.length (s +:+ t)%stdpp = (String.length s + String.length t)%nat.
Proof. induction s as [|c s IH]; rewrite ?append_cons; cbn; [done|]. by rewrite IH. Qed.

Lemma length_escape s rest : (String.length rest <= String.length (escape s rest))%nat.
Proof.
  induction s as [|c s IH]; [done|]. cbn [escape].
  assert (H : (String.length (escape s rest) <= String.length (escape_char c (escape s rest)))%nat); [|lia].
  generalize (escape s rest) as r; intros r. unfold escape_char. repeat case_match; cbn [String.length]; lia.
Qed.

Lemma length_quote s rest : (String.length rest + 2 <= String.length (quote s rest))%nat.
Proof. unfold quote. cbn. assert (H := length_escape s (String dquote rest)). cbn in H. lia. Qed.

(** Twice the printed length pays for the fuel of reading it back. *)
Lemma jfuel_bound j rest :
  (jfuel j + 2 * String.length rest + 1 <= 2 * String.length (print j rest))%nat.
Proof.
  revert rest. induction j as [|[]|z|s|l IH|l IH] using json_ind'; intros rest;
    try (cbn [print jfuel]; rewrite length_append; cbn [String.length]; lia).
  - cbn [print jfuel]. rewrite length_append.
    destruct (str_of_Z_head z) as (c & s & -> & _). cbn. lia.
  - cbn [print jfuel]. assert (H := length_quote s rest). lia.
  - assert (Ht : forall l, Forall (fun j => forall rest, (jfuel j + 2 * String.length rest + 1 <= 2 * String.length (print j rest))%nat) l ->
      (foldr (fun x e => S (Nat.max (jfuel x) e)) 0 l + 2 * String.length rest <= 2 * String.length (elems_tail rest l))%nat).
    { induction 1 as [|y ys Hy _ IHys]; [cbn; lia|].
      rewrite elems_tail_cons. cbn [foldr String.length]. specialize (Hy (elems_tail rest ys)). lia. }
    destruct l as [|x xs]; [cbn [print]; rewrite length_append; cbn; lia|]. apply Forall_cons in IH as [Hx IH].
    change (print (JList (x :: xs)) rest) with (String "[" (print x (elems_tail rest xs))).
    specialize (Hx (elems_tail rest xs)). specialize (Ht xs IH). cbn [jfuel foldr String.length]. lia.
  - assert (Ht : forall l, Forall (fun kv => forall rest, (jfuel kv.2 + 2 * String.length rest + 1 <= 2 * String.length (print kv.2 rest))%nat) l ->
      (foldr (fun kv e => S (Nat.max (jfuel kv.2) e)) 0 l + 2 * String.length rest <= 2 * String.length (members_tail rest l))%nat).
    { induction 1 as [|[k y] ys Hy _ IHys]; [cbn; lia|].
      rewrite members_tail_cons. cbn [foldr String.length snd] in *. specialize (Hy (members_tail rest ys)).
      assert (H := length_quote k (String ":" (print y (members_tail rest ys)))). cbn [String.length] in H. lia. }
    destruct l as [|[k x] xs]; [cbn [print]; rewrite length_append; cbn; lia|]. apply Forall_cons in IH as [Hx IH]. cbn [snd] in Hx.
    change (print (JObj ((k, x) :: xs)) rest) with (String "{" (quote k (String ":" (print x (members_tail rest xs))))).
    specialize (Hx (members_tail rest xs)). specialize (Ht xs IH). cbn [jfuel foldr String.length snd].
    assert (H := length_quote k (String ":" (print x (members_tail rest xs)))). cbn [String.length] in H. lia.
Qed.

Lemma norm_wf j : json_wf j = true -> json_wf (norm j) = true.
Proof.
  induction j as [|b|z|s|l IH|l IH] using json_ind'; intros Hwf; try done; cbn [norm json_wf] in *.
  - rewrite forallb_forall in *. intros x Hx. apply in_map_iff in Hx as (y & <- & Hy).
    rewrite Forall_forall in IH. apply IH; [by apply list_elem_of_In|by apply Hwf].
  - bool_hyps. unfold distinct in *. bool_hyps. apply andb_true_iff. split.
    + apply bool_decide_eq_true. change (map fst) with (fmap (M:=list) (@fst string json)).
      rewrite sorted_by_perm. rewrite <- list_fmap_compose. done.
    + rewrite forallb_forall in *. intros x Hx. rewrite <- list_elem_of_In, elem_of_sorted_by, list_elem_of_In in Hx.
      apply in_map_iff in Hx as (y & <- & Hy). rewrite Forall_forall in IH. cbn.
      apply IH; [by apply list_elem_of_In|by apply H0].
Qed.

Lemma loads_with_dumps hook j : (forall l, NoDup l.*1 -> hook l = Some l) -> json_wf j = true ->
  loads_with hook (dumps j) = Some (norm j).
Proof.
  intros Hh Hwf. unfold loads_with, dumps. rewrite skip_print.
  rewrite hooked_print; [done|done|by apply norm_wf|done|].
  assert (H := jfuel_bound (norm j) ""). cbn [String.length] in H. lia.
Qed.

Lemma loads_dumps_norm j : json_wf j = true -> loads (dumps j) = Some (norm j).
Proof. apply loads_with_dumps, plain_pairs_distinct. Qed.

Lemma norm_idem j : norm (norm j) = norm j.
Proof.
  induction j as [| | | |l IH|l IH] using json_ind'; try done; cbn [norm]; f_equal.
  - induction IH as [|x l Hx _ IHl]; [done|]. cbn [map]. by rewrite Hx, IHl.
  - assert (Hfix : map (fun kv : string * json => (kv.1, norm kv.2)) (sorted_by fst (map (fun kv => (kv.1, norm kv.2)) l))
                   = sorted_by fst (map (fun kv => (kv.1, norm kv.2)) l)).
    { apply list_eq_Forall2, Forall2_fmap_l, Forall_Forall2_diag, Forall_forall.
      intros [k v] Hin. rewrite elem_of_sorted_by in Hin. apply list_elem_of_fmap in Hin as ([k' v'] & [= -> ->] & Hin).
      rewrite Forall_forall in IH. specialize (IH _ Hin). simpl in *. by rewrite IH. }
    rewrite Hfix. apply sorted_by_id, sorted_by_sorted.
Qed.

Section canonical_order.

Lemma norm_obj_perm l l' :
  distinct (map fst l) = true -> l ≡ₚ l' -> norm (JObj l) = norm (JObj l').
Proof.
  intros Hd Hp. unfold distinct in Hd. bool_hyps. cbn [norm]. f_equal.
  set (f := fun kv : string * json => (kv.1, norm kv.2)).
  assert (Hnd : NoDup (sorted_by fst (map f l)).*1).
  { rewrite sorted_by_perm. change (map f l) with (f <$> l). by rewrite <- list_fmap_compose. }
  apply (StronglySorted_unique_strong (key_le fst)); [|apply sorted_by_sorted..|].
  - intros [k1 v1] [k2 v2] H1 H2 H12 H21. unfold key_le in *; cbn in *.
    assert (k1 = k2) as <- by (by apply (anti_symm String.le)).
    apply list_elem_of_lookup in H1 as [i Hi]. apply list_elem_of_lookup in H2 as [i' Hi'].
    assert (sorted_by fst (map f l) ≡ₚ sorted_by fst (map f l')) as Hs
      by (rewrite !sorted_by_perm; by apply Permutation_map).
    assert (H2' : (k1, v2) ∈ sorted_by fst (map f l)) by (rewrite Hs; by eapply list_elem_of_lookup_2).
    apply list_elem_of_lookup in H2' as [i2 Hi2].
    assert (i = i2) as -> by (eapply (NoDup_lookup _ _ _ k1 Hnd); rewrite list_lookup_fmap, ?Hi, ?Hi2; done).
    congruence.
  - rewrite !sorted_by_perm. by apply Permutation_map.
Qed.
End canonical_order.

(** ** [canonical.py] *)

(** Dictionary keys, as [str(key)] sees them. *)
Inductive pykey := KStr (s : string) | KInt (z : Z) | KBool (b : bool) | KNone.

Definition key_str (k : pykey) : string :=
  match k with
  | KStr s => s
  | KInt z => str_of_Z z
  | KBool true => "True"
  | KBool false => "False"
  | KNone => "None"
  end.

(** The Python values a contract is built from: enum members and dataclass
    instances besides the JSON types. *)
Inductive pyval :=
| PNone
| PBool (b : bool)
| PInt (z : Z)
| PStr (s : string)
| PEnum (v : pyval)
| PData (fields : list (string * pyval))
| PDict (items : list (pykey * pyval))
| PSeq (items : list pyval).

(** [_plain] followed by the JSON view of its result. *)
Fixpoint plain (v : pyval) : json :=
  match v with
  | PEnum v' => plain v'
  | PData fs => JObj (dict_of_pairs (map (fun kv => (kv.1, plain kv.2)) fs))
  | PDict items => JObj (dict_of_pairs (map (fun kv => (key_str kv.1, plain kv.2)) items))
  | PSeq items => JList (map plain items)
  | PNone => JNull
  | PBool b => JBool b
  | PInt z => JInt z
  | PStr s => JStr s
  end.

Definition canonical_bytes (j : json) : string := dumps j.

Definition canonical_digest (j : json) : string := ("sha256:" +:+ sha256_hexdigest (canonical_bytes j))%stdpp.

Definition canonical_document (v : pyval) : result json :=
  match plain v with
  | JObj l => Ok (JObj l)
  | _ => raise ValueError "kernel contract must serialize to a JSON object"
  end.

Lemma dict_set_keys {A} k (v : A) l :
  NoDup l.*1 -> NoDup (dict_set k v l).*1 /\ (forall x, x ∈ (dict_set k v l).*1 <-> x = k \/ x ∈ l.*1).
Proof.
  induction l as [|[k' v'] l IH]; cbn [dict_set]; intros Hnd.
  { split; [apply NoDup_singleton|]. intros x. cbn. set_solver. }
  rewrite fmap_cons in Hnd. cbn in Hnd. apply NoDup_cons in Hnd as [Hk Hnd].
  destruct (String.eqb k k') eqn:E; bool_hyps.
  - subst. rewrite fmap_cons. cbn. split; [by constructor|]. set_solver.
  - destruct (IH Hnd) as [IH1 IH2]. rewrite fmap_cons. cbn. split.
    + constructor; [|done]. rewrite IH2. naive_solver.
    + intros x. rewrite !elem_of_cons, IH2. naive_solver.
Qed.

Lemma dict_set_Forall {A} (P : A -> Prop) k v l :
  P v -> Forall (fun kv => P kv.2) l -> Forall (fun kv => P kv.2) (dict_set k v l).
Proof.
  intros Hv. induction 1 as [|[k' v'] l Hx Hl IH]; cbn [dict_set]; [by constructor|].
  destruct (String.eqb k k'); by constructor.
Qed.

Lemma dict_of_pairs_keys {A} (l : list (string * A)) : NoDup (dict_of_pairs l).*1.
Proof.
  unfold dict_of_pairs. assert (H : NoDup (@nil (string * A)).*1) by constructor. revert H.
  generalize (@nil (string * A)) as acc. induction l as [|[k v] l IH]; intros acc H; [done|].
  cbn. apply IH. by apply dict_set_keys.
Qed.

Lemma dict_of_pairs_Forall {A} (P : A -> Prop) l :
  Forall (fun kv => P kv.2) l -> Forall (fun kv => P kv.2) (dict_of_pairs l).
Proof.
  unfold dict_of_pairs. assert (H : Forall (fun kv => P kv.2) (@nil (string * A))) by constructor. revert H.
  generalize (@nil (string * A)) as acc. induction l as [|[k v] l IH]; intros acc H Hl; [done|].
  cbn. apply Forall_cons in Hl as [Hv Hl]. apply IH; [|done]. by apply dict_set_Forall.
Qed.

Section pyval_ind.
Context (P : pyval -> Prop).
Context (Hnone : P PNone) (Hbool : forall b, P (PBool b)) (Hint : forall z, P (PInt z)).
Context (Hstr : forall s, P (PStr s)) (Henum : forall v, P v -> P (PEnum v)).
Context (Hdata : forall l, Forall (fun kv => P kv.2) l -> P (PData l)).
Context (Hdict : forall l, Forall (fun kv => P kv.2) l -> P (PDict l)).
Context (Hseq : forall l, Forall P l -> P (PSeq l)).

Fixpoint pyval_ind' (v : pyval) : P v :=
  match v with
  | PNone => Hnone
  | PBool b => Hbool b
  | PInt z => Hint z
  | PStr s => Hstr s
  | PEnum v' => Henum v' (pyval_ind' v')
  | PData l => Hdata l ((fix go l : Forall (fun kv => P kv.2) l := match l with
      | [] => Forall_nil_2 _
      | x :: xs => Forall_cons_2 _ _ _ (pyval_ind' x.2) (go xs) end) l)
  | PDict l => Hdict l ((fix go l : Forall (fun kv => P kv.2) l := match l with
      | [] => Forall_nil_2 _
      | x :: xs => Forall_cons_2 _ _ _ (pyval_ind' x.2) (go xs) end) l)
  | PSeq l => Hseq l ((fix go l : Forall P l := match l with
      | [] => Forall_nil_2 _
      | x :: xs => Forall_cons_2 _ _ _ (pyval_ind' x) (go xs) end) l)
  end.
End pyval_ind.

Lemma dict_json_wf {K} (f : K -> string) (l : list (K * pyval)) :
  Forall (fun kv => json_wf (plain kv.2) = true) l ->
  json_wf (JObj (dict_of_pairs (map (fun kv => (f kv.1, plain kv.2)) l))) = true.
Proof.
  intros H. cbn [json_wf]. apply andb_true_iff. split.
  - unfold distinct. apply bool_decide_eq_true, dict_of_pairs_keys.
  - apply forallb_forall. intros kv Hkv. apply list_elem_of_In in Hkv. revert kv Hkv. apply Forall_forall.
    apply (dict_of_pairs_Forall (fun j => json_wf j = true)).
    apply Forall_map. by eapply Forall_impl; [exact H|].
Qed.

(** Every contract serializes to a document with distinct keys. *)
Lemma plain_wf v : json_wf (plain v) = true.
Proof.
  induction v as [| | | | |l IH|l IH|l IH] using pyval_ind'; try done; cbn [plain].
  - by apply (dict_json_wf id).
  - by apply dict_json_wf.
  - cbn [json_wf]. apply forallb_forall. intros j Hj. apply in_map_iff in Hj as (v & <- & Hv).
    rewrite Forall_forall in IH. apply IH. by apply list_elem_of_In.
Qed.

(** C32: canonical bytes determine the document, and nothing but its key order is lost. *)
Theorem canonical_bytes_inj v v' :
  canonical_bytes (plain v) = canonical_bytes (plain v') <-> norm (plain v) = norm (plain v').
Proof.
  split; [|unfold canonical_bytes, dumps; by intros ->].
  intros H. assert (H1 := loads_dumps_norm _ (plain_wf v)). assert (H2 := loads_dumps_norm _ (plain_wf v')).
  unfold canonical_bytes in H. rewrite H in H1. congruence.
Qed.
