(* ===== verification/AsciiJson.v ===== *)
(** * The ASCII form of JSON

    [json.dumps] escapes every character outside printable ASCII unless told
    otherwise ([dumps_ascii]); the evidence ledger stores its payloads so.  This
    file proves that [json.loads] reads that form back to the same document:
    the parser takes the same course on a text and on its escaped form. *)

From S2P Require Import Prelude Sha256 Canonical.
From Stdlib Require Import Ascii DecimalString.

Module AsciiJson.

(** ** UTF-8 texts *)

(** A code point a Python string can hold and UTF-8 can encode. *)
Definition scalar (n : N) : Prop := (n < 55296 \/ 57344 <= n < 1114112)%N.

(** The concatenation of the encodings of code points. *)
Inductive utf8_text : string -> Prop :=
| text_nil : utf8_text ""
| text_char n r : scalar n -> utf8_text r -> utf8_text (utf8 n +:+ r)%stdpp.

(** Every name and string of a document is such a text. *)
Fixpoint utf8_json (j : json) : Prop :=
  match j with
  | JStr s => utf8_text s
  | JList l => foldr (fun x P => utf8_json x /\ P) True l
  | JObj l => foldr (fun kv P => (utf8_text kv.1 /\ utf8_json kv.2) /\ P) True l
  | _ => True
  end.

(** ** Arithmetic of the encodings *)

Lemma code_chr n : (n < 256)%N -> code (chr n) = n.
Proof. apply N_ascii_embedding. Qed.

Lemma chr_code a : chr (code a) = a.
Proof. apply ascii_N_embedding. Qed.

Lemma hex_value_digit n : hex_value (hex_digit (Z.of_N n)) = Some (n mod 16)%N.
Proof.
  unfold hex_digit. assert (E : Z.of_N n mod 16 = Z.of_N (n mod 16)) by (by rewrite N2Z.inj_mod). rewrite E.
  assert (H : (n mod 16 < 16)%N) by (apply N.mod_lt; lia). revert H. generalize (n mod 16)%N as d. intros d H.
  assert (Hd : (d = 0 \/ d = 1 \/ d = 2 \/ d = 3 \/ d = 4 \/ d = 5 \/ d = 6 \/ d = 7 \/ d = 8
               \/ d = 9 \/ d = 10 \/ d = 11 \/ d = 12 \/ d = 13 \/ d = 14 \/ d = 15)%N) by lia.
  repeat destruct Hd as [->|Hd]; try subst; reflexivity.
Qed.

Lemma hex4_digits n : (n < 65536)%N ->
  hex4 (hex_digit (Z.of_N (n / 4096))) (hex_digit (Z.of_N (n / 256))) (hex_digit (Z.of_N (n / 16))) (hex_digit (Z.of_N (n / 1))) = Some n.
Proof.
  intros H. unfold hex4. rewrite !hex_value_digit. f_equal. zify; Z.to_euclidean_division_equations; lia.
Qed.

(** Reading an escape reads its character. *)
Lemma pstring_escaped n r : scalar n -> pstring (escape_code_point n r) = prepend (utf8 n) (pstring r).
Proof.
  intros Hn. unfold escape_code_point. destruct (n <? 65536)%N eqn:E.
  - apply N.ltb_lt in E. unfold u_escape. cbn [pstring]. change (code backslash) with 92%N. change (code "u") with 117%N. cbn match.
    change ((92 =? 34)%N) with false. change ((92 =? 92)%N) with true. change ((117 =? 117)%N) with true. cbn match.
    rewrite hex4_digits by done.
    assert (E1 : ((55296 <=? n) && (n <=? 56319))%N = false) by (apply andb_false_iff; rewrite !N.leb_gt; unfold scalar in Hn; lia).
    assert (E2 : ((56320 <=? n) && (n <=? 57343))%N = false) by (apply andb_false_iff; rewrite !N.leb_gt; unfold scalar in Hn; lia).
    by rewrite E1, E2.
  - apply N.ltb_ge in E. unfold scalar in Hn. set (hi := (55296 + (n - 65536) / 1024)%N). set (lo := (56320 + (n - 65536) mod 1024)%N).
    assert (Hhi : (55296 <= hi <= 56319)%N) by (unfold hi; zify; Z.to_euclidean_division_equations; lia).
    assert (Hlo : (56320 <= lo <= 57343)%N) by (unfold lo; zify; Z.to_euclidean_division_equations; lia).
    assert (Hs : (65536 + (hi - 55296) * 1024 + (lo - 56320))%N = n) by (unfold hi, lo; zify; Z.to_euclidean_division_equations; lia).
    unfold u_escape. cbn [pstring]. change (code backslash) with 92%N. change (code "u") with 117%N. cbn match.
    change ((92 =? 34)%N) with false. change ((92 =? 92)%N) with true. change ((117 =? 117)%N) with true. cbn match.
    rewrite !hex4_digits by lia. cbn [andb].
    assert (E1 : ((55296 <=? hi) && (hi <=? 56319))%N = true) by (apply andb_true_iff; rewrite !N.leb_le; lia).
    assert (E2 : ((56320 <=? lo) && (lo <=? 57343))%N = true) by (apply andb_true_iff; rewrite !N.leb_le; lia).
    by rewrite E1, E2, Hs.
Qed.

Lemma prepend_nested s t o : prepend s (prepend t o) = prepend (s +:+ t)%stdpp o.
Proof. destruct o as [[u r]|]; [|done]. cbn. f_equal. f_equal. change String.append with String.app. by rewrite append_assoc. Qed.

Lemma pstring_raw a r : (127 <= code a)%N -> pstring (String a r) = prepend (String a "") (pstring r).
Proof.
  intros H. cbn [pstring]. assert (E1 : (code a =? 34)%N = false) by (apply N.eqb_neq; lia).
  assert (E2 : (code a =? 92)%N = false) by (apply N.eqb_neq; lia). assert (E3 : (code a <? 32)%N = false) by (apply N.ltb_ge; lia).
  by rewrite E1, E2, E3.
Qed.

(** The bytes of an encoding of more than one byte. *)
Ltac encoding_bounds := unfold scalar in *; zify; Z.to_euclidean_division_equations; lia.

Lemma utf8_raw n r : scalar n -> (127 <= n)%N -> pstring (utf8 n +:+ r)%stdpp = prepend (utf8 n) (pstring r).
Proof.
  intros Hs Hn. unfold utf8. destruct (n <? 128)%N eqn:E1; [|destruct (n <? 2048)%N eqn:E2; [|destruct (n <? 65536)%N eqn:E3]];
    rewrite ?N.ltb_lt, ?N.ltb_ge in *; rewrite ?append_cons, append_nil_l;
    rewrite !pstring_raw by (rewrite code_chr; encoding_bounds); rewrite ?prepend_nested; reflexivity.
Qed.

Lemma asciify_char n r : scalar n ->
  asciify (utf8 n +:+ r)%stdpp = if (n <? 127)%N then String (chr n) (asciify r) else escape_code_point n (asciify r).
Proof.
  intros Hs. unfold utf8. destruct (n <? 127)%N eqn:E0.
  { apply N.ltb_lt in E0. rewrite (proj2 (N.ltb_lt _ _)) by lia. rewrite append_cons, append_nil_l. cbn [asciify].
    rewrite code_chr by lia. by rewrite (proj2 (N.ltb_lt _ _)) by lia. }
  apply N.ltb_ge in E0. unfold escape_code_point.
  destruct (n <? 128)%N eqn:E1; [|destruct (n <? 2048)%N eqn:E2; [|destruct (n <? 65536)%N eqn:E3]];
    rewrite ?N.ltb_lt, ?N.ltb_ge in *; rewrite ?append_cons, append_nil_l; cbn [asciify]; rewrite !code_chr by encoding_bounds.
  - rewrite (proj2 (N.ltb_ge _ _)) by lia. rewrite (proj2 (N.ltb_lt n 192)) by lia. by rewrite (proj2 (N.ltb_lt n 65536)) by lia.
  - rewrite (proj2 (N.ltb_ge _ 127)) by encoding_bounds. rewrite (proj2 (N.ltb_ge _ 192)) by encoding_bounds.
    rewrite (proj2 (N.ltb_lt _ 224)) by encoding_bounds. unfold escape_code_point.
    replace ((192 + n / 64 - 192) * 64 + (128 + n mod 64 - 128))%N with n by encoding_bounds.
    by rewrite (proj2 (N.ltb_lt n 65536)) by lia.
  - rewrite (proj2 (N.ltb_ge _ 127)) by encoding_bounds. rewrite (proj2 (N.ltb_ge _ 192)) by encoding_bounds.
    rewrite (proj2 (N.ltb_ge _ 224)) by encoding_bounds. rewrite (proj2 (N.ltb_lt _ 240)) by encoding_bounds. unfold escape_code_point.
    replace (((224 + n / 4096 - 224) * 64 + (128 + (n / 64) mod 64 - 128)) * 64 + (128 + n mod 64 - 128))%N with n by encoding_bounds.
    by rewrite (proj2 (N.ltb_lt n 65536)) by lia.
  - rewrite (proj2 (N.ltb_ge _ 127)) by encoding_bounds. rewrite (proj2 (N.ltb_ge _ 192)) by encoding_bounds.
    rewrite (proj2 (N.ltb_ge _ 224)) by encoding_bounds. rewrite (proj2 (N.ltb_ge _ 240)) by encoding_bounds. unfold escape_code_point.
    replace ((((240 + n / 262144 - 240) * 64 + (128 + (n / 4096) mod 64 - 128)) * 64 + (128 + (n / 64) mod 64 - 128)) * 64
             + (128 + n mod 64 - 128))%N with n by encoding_bounds.
    by rewrite (proj2 (N.ltb_ge n 65536)) by lia.
Qed.
(** ** The parser on a text and on its ASCII form *)

Lemma utf8_head n : exists b s, utf8 n = String b s /\ ((n < 128)%N /\ b = chr n /\ s = "" \/ (128 <= n)%N /\ (n < 1114112 -> 192 <= code b)%N).
Proof.
  unfold utf8. destruct (n <? 128)%N eqn:E1; [|destruct (n <? 2048)%N eqn:E2; [|destruct (n <? 65536)%N eqn:E3]];
    rewrite ?N.ltb_lt, ?N.ltb_ge in *; eexists _, _; (split; [reflexivity|]); [by left|right; split; [lia|intros H; rewrite code_chr; encoding_bounds]..].
Qed.

Lemma text_tail a r : (code a < 128)%N -> utf8_text (String a r) -> utf8_text r.
Proof.
  intros Ha H. inversion H as [|n r' Hn Hr E]. destruct (utf8_head n) as (b & s & Eu & [(_ & _ & ->)|(Hl & Hb)]); rewrite Eu in E.
  - rewrite append_cons, append_nil_l in E. by injection E as _ ->.
  - rewrite append_cons in E. injection E as -> _. unfold scalar in Hn. lia.
Qed.

Lemma text_cons a r : (code a < 128)%N -> utf8_text r -> utf8_text (String a r).
Proof.
  intros Ha Hr. assert (E : String a r = (utf8 (code a) +:+ r)%stdpp).
  { unfold utf8. rewrite (proj2 (N.ltb_lt _ _)) by done. by rewrite chr_code, append_cons, append_nil_l. }
  rewrite E. constructor; [left; lia|done].
Qed.

Lemma asciify_cons a r : (code a < 127)%N -> asciify (String a r) = String a (asciify r).
Proof. intros H. cbn [asciify]. by rewrite (proj2 (N.ltb_lt _ _)). Qed.

(** What follows a character that needs an escape. *)
Lemma escaped_head a r : utf8_text (String a r) -> (127 <= code a)%N -> exists x, asciify (String a r) = String backslash x.
Proof.
  intros H Ha. inversion H as [|n r' Hn Hr E]. rewrite E, <- E. rewrite asciify_char by done. destruct (n <? 127)%N eqn:El.
  - exfalso. apply N.ltb_lt in El. destruct (utf8_head n) as (b & s & Eu & [(_ & -> & ->)|(Hl & _)]); [|lia]. rewrite Eu, append_cons in E.
    injection E as <- _. rewrite code_chr in Ha by lia. lia.
  - unfold escape_code_point, u_escape. by destruct (n <? 65536)%N; eexists.
Qed.

(** The simulation: a parser that succeeds on a text returns the same value
    from its ASCII form and leaves the ASCII form of what it left. *)
Definition simulates {A} (parse : string -> option (A * string)) : Prop :=
  forall s x r, utf8_text s -> parse s = Some (x, r) -> parse (asciify s) = Some (x, asciify r) /\ utf8_text r.

Lemma prepend_some t o s r : prepend t o = Some (s, r) -> exists s', o = Some (s', r) /\ s = String.append t s'.
Proof. destruct o as [[s' r']|]; [|done]. cbn. intros [= <- <-]. by exists s'. Qed.

Lemma hex_value_ascii a n : hex_value a = Some n -> (code a < 127)%N.
Proof.
  unfold hex_value. repeat (case_match; [intros _; rewrite ?andb_true_iff, ?N.leb_le in *; lia|]). done.
Qed.

Lemma hex4_ascii a b c d n : hex4 a b c d = Some n -> (code a < 127 /\ code b < 127 /\ code c < 127 /\ code d < 127)%N.
Proof.
  unfold hex4. destruct (hex_value a) eqn:E1; [|done]. destruct (hex_value b) eqn:E2; [|done]. destruct (hex_value c) eqn:E3; [|done].
  destruct (hex_value d) eqn:E4; [|done]. intros _. split_and!; by eapply hex_value_ascii.
Qed.

Lemma simple_escape_ascii e x : simple_escape e = Some x -> (code e < 127)%N.
Proof.
  unfold simple_escape. intros H. assert (Hb : bool_decide (code e < 127)%N = true); [|by bool_hyps].
  destruct e as [[] [] [] [] [] [] [] []]; first [discriminate H|reflexivity].
Qed.

(** Drop an ASCII character from the text in [H], whose code is below 127 by [Hc]. *)
Ltac eat H Hc := apply text_tail in H; [rewrite asciify_cons by exact Hc|lia].

Lemma pstring_simulates : simulates pstring.
Proof.
  intros s. remember (String.length s) as k eqn:Hk. revert s Hk. induction k as [k IH] using lt_wf_ind. intros s -> x r Ht H.
  assert (IH' : forall s' x r, (String.length s' < String.length s)%nat -> utf8_text s' -> pstring s' = Some (x, r) ->
    pstring (asciify s') = Some (x, asciify r) /\ utf8_text r).
  { intros s' x' r' Hl. by apply (IH (String.length s')). } clear IH.
  destruct Ht as [|n r0 Hn Ht]; [discriminate H|].
  destruct (127 <=? n)%N eqn:En; [apply N.leb_le in En|apply N.leb_gt in En].
  - rewrite utf8_raw in H by done. apply prepend_some in H as (s' & H & ->).
    rewrite asciify_char by done. rewrite (proj2 (N.ltb_ge _ _)) by done. rewrite pstring_escaped by done.
    apply IH' in H as [-> Hr]; [done| |done]. rewrite length_append. destruct (utf8_head n) as (b & t & -> & _). cbn. lia.
  - rewrite asciify_char by done. rewrite (proj2 (N.ltb_lt n 127)) by done.
    assert (Eu : utf8 n = String (chr n) "") by (unfold utf8; by rewrite (proj2 (N.ltb_lt n 128)) by lia).
    rewrite Eu, append_cons, append_nil_l in *. set (c := chr n) in *. assert (Hc : (code c < 127)%N) by (unfold c; rewrite code_chr; lia).
    clearbody c. clear n Hn En Eu. cbn [pstring] in H |- *. cbn [String.length] in IH'.
    destruct (code c =? 34)%N; [by injection H as <- <-|]. destruct (code c =? 92)%N.
    + destruct r0 as [|e r1]; [done|]. cbn [String.length] in IH'. destruct (code e =? 117)%N eqn:Eq.
      * assert (He : (code e < 127)%N) by (apply N.eqb_eq in Eq; lia). eat Ht He. rewrite Eq.
        destruct r1 as [|h1 [|h2 [|h3 [|h4 r2]]]]; try done. cbn [String.length] in IH'.
        destruct (hex4 h1 h2 h3 h4) as [m|] eqn:E4; [|done]. assert (Hh := hex4_ascii _ _ _ _ _ E4). destruct Hh as (G1 & G2 & G3 & G4).
        eat Ht G1. eat Ht G2. eat Ht G3. eat Ht G4. rewrite E4. destruct ((55296 <=? m) && (m <=? 56319))%N.
        -- destruct r2 as [|b [|u [|k1 [|k2 [|k3 [|k4 r3]]]]]]; try done. cbn [String.length] in IH'.
           destruct ((code b =? 92) && (code u =? 117))%N eqn:Eb; [|done].
           destruct (hex4 k1 k2 k3 k4) as [l|] eqn:E5; [|done]. assert (Hh := hex4_ascii _ _ _ _ _ E5). destruct Hh as (K1 & K2 & K3 & K4).
           assert (Hb : (code b < 127)%N) by (apply andb_true_iff in Eb as [Eb _]; apply N.eqb_eq in Eb; lia).
           assert (Hu : (code u < 127)%N) by (apply andb_true_iff in Eb as [_ Eb]; apply N.eqb_eq in Eb; lia).
           eat Ht Hb. eat Ht Hu. eat Ht K1. eat Ht K2. eat Ht K3. eat Ht K4. rewrite Eb, E5.
           destruct ((56320 <=? l) && (l <=? 57343))%N; [|done]. apply prepend_some in H as (s' & H & ->).
           apply IH' in H as [-> Hr]; [done|lia|done].
        -- destruct ((56320 <=? m) && (m <=? 57343))%N; [done|]. apply prepend_some in H as (s' & H & ->).
           apply IH' in H as [-> Hr]; [done|lia|done].
      * destruct (simple_escape e) as [y|] eqn:Ee; [|done]. assert (He := simple_escape_ascii _ _ Ee). eat Ht He. rewrite Eq, Ee.
        apply prepend_some in H as (s' & H & ->). apply IH' in H as [-> Hr]; [done|lia|done].
    + destruct (code c <? 32)%N; [done|]. apply prepend_some in H as (s' & H & ->). apply IH' in H as [-> Hr]; [done|lia|done].
Qed.

Lemma skip_simulates s : utf8_text s -> skip (asciify s) = asciify (skip s) /\ utf8_text (skip s).
Proof.
  induction s as [|c r IH]; intros Ht; [done|]. destruct (127 <=? code c)%N eqn:Ec; [apply N.leb_le in Ec|apply N.leb_gt in Ec].
  - assert (Ew : is_ws c = false).
    { unfold is_ws. destruct c as [[] [] [] [] [] [] [] []]; first [reflexivity|vm_compute in Ec; by destruct Ec]. }
    destruct (escaped_head c r Ht Ec) as [x Ex]. rewrite skip_other by done. rewrite Ex. done.
  - rewrite asciify_cons by done. cbn [skip]. destruct (is_ws c); [apply text_tail in Ht; [by apply IH|lia]|]. by rewrite asciify_cons.
Qed.

Lemma span_digits_simulates s d t : utf8_text s -> span_digits s = (d, t) -> span_digits (asciify s) = (d, asciify t) /\ utf8_text t.
Proof.
  revert d t. induction s as [|c r IH]; intros d t Ht H; [by injection H as <- <-|]. cbn [span_digits] in H.
  destruct (is_digit c) eqn:Ed.
  - assert (Ec : (code c < 127)%N) by (unfold is_digit in Ed; rewrite andb_true_iff, !N.leb_le in Ed; lia).
    destruct (span_digits r) as [d' t'] eqn:E. injection H as <- <-. apply text_tail in Ht; [|lia].
    destruct (IH d' t' Ht eq_refl) as [E' Ht']. rewrite asciify_cons by done. cbn [span_digits]. by rewrite Ed, E'.
  - injection H as <- <-. split; [|done]. destruct (127 <=? code c)%N eqn:Ec; [apply N.leb_le in Ec|apply N.leb_gt in Ec].
    + destruct (escaped_head c r Ht Ec) as [x Ex]. by rewrite Ex.
    + rewrite asciify_cons by done. cbn [span_digits]. by rewrite Ed.
Qed.

Lemma pdigits_simulates : simulates pdigits.
Proof.
  intros s x r Ht H. destruct s as [|c s]; [done|]. cbn [pdigits] in H. destruct (code c =? 48)%N eqn:Ec.
  - injection H as <- <-. assert (Hc : (code c < 127)%N) by (apply N.eqb_eq in Ec; lia). rewrite asciify_cons by done.
    cbn [pdigits]. rewrite Ec. split; [done|]. apply text_tail in Ht; [done|lia].
  - destruct (span_digits (String c s)) as [d t] eqn:E. destruct (span_digits_simulates _ _ _ Ht E) as [E' Ht'].
    assert (Hd : d <> "").
    { intros ->. cbn in H. done. }
    assert (Hc : (code c < 127)%N).
    { cbn [span_digits] in E. destruct (is_digit c) eqn:Ed; [|by simplify_eq].
      unfold is_digit in Ed. rewrite andb_true_iff, !N.leb_le in Ed. lia. }
    rewrite asciify_cons in * by done. cbn [pdigits]. rewrite Ec, E'.
    destruct (NilEmpty.uint_of_string d) as [u|]; [|done]. destruct u; first [discriminate H|injection H as <- <-; done].
Qed.

Lemma literal_inv lit v s x r : literal lit v s = Some (x, r) -> x = v /\ s = (lit +:+ r)%stdpp.
Proof.
  unfold literal. destruct (String.prefix lit s) eqn:E; [|done]. intros [= <- <-]. split; [done|].
  revert s E. induction lit as [|a lit IH]; intros s E; [rewrite append_nil_l; cbn [String.length]; by rewrite Nat.sub_0_r, substring_all|].
  destruct s as [|b s]; [done|]. cbn in E. destruct (ascii_dec a b) as [<-|]; [|done]. rewrite append_cons. cbn. f_equal. by apply IH.
Qed.

Lemma literal_simulates lit v : all_chars (fun c => code c <? 127)%N lit = true -> simulates (literal lit v).
Proof.
  intros Hl s x r Ht H. apply literal_inv in H as [-> ->].
  assert (E : asciify (lit +:+ r)%stdpp = (lit +:+ asciify r)%stdpp /\ utf8_text r).
  { induction lit as [|a lit IH]; [by rewrite !append_nil_l in *|]. rewrite !append_cons in *. cbn in Hl. apply andb_true_iff in Hl as [Ha Hl].
    apply N.ltb_lt in Ha. rewrite asciify_cons by done. apply text_tail in Ht; [|lia]. by destruct (IH Hl Ht) as [-> ?]. }
  destruct E as [-> Hr]. by rewrite literal_read.
Qed.

(** A value starts with an ASCII character. *)
Lemma value_head n c r : (127 <= code c)%N -> pvalue (S n) (String c r) = None.
Proof.
  intros Hc. assert (E : pvalue (S n) (String c r) = match pdigits (String c r) with Some (z, r') => Some (JInt z, r') | None => None end).
  { destruct c as [[] [] [] [] [] [] [] []]; first [reflexivity|vm_compute in Hc; by destruct Hc]. }
  rewrite E. cbn [pdigits span_digits]. rewrite (proj2 (N.eqb_neq _ _)) by lia. assert (Ed : is_digit c = false).
  { unfold is_digit. apply andb_false_iff. rewrite !N.leb_gt. lia. }
  by rewrite Ed.
Qed.

(** The dispatch of [pvalue] on the first character, as a chain of tests. *)
Lemma pvalue_dispatch n c r : pvalue (S n) (String c r) =
  (if code c =? 34 then match pstring r with Some (t, r') => Some (JStr t, r') | None => None end
   else if code c =? 91 then
     match skip r with
     | String d r' => if code d =? 93 then Some (JList [], r')
                      else match pelems n (String d r') with Some (l, r'') => Some (JList l, r'') | None => None end
     | EmptyString => None
     end
   else if code c =? 123 then
     match skip r with
     | String d r' => if code d =? 125 then Some (JObj [], r')
                      else match pmembers n (String d r') with Some (l, r'') => Some (JObj (dict_of_pairs l), r'') | None => None end
     | EmptyString => None
     end
   else if code c =? 110 then literal "null" JNull (String c r)
   else if code c =? 116 then literal "true" (JBool true) (String c r)
   else if code c =? 102 then literal "false" (JBool false) (String c r)
   else if code c =? 45 then match pdigits r with Some (z, r') => Some (JInt (- z), r') | None => None end
   else match pdigits (String c r) with Some (z, r') => Some (JInt z, r') | None => None end)%N.
Proof. destruct c as [[] [] [] [] [] [] [] []]; reflexivity. Qed.

Lemma simulates_map {A B} (f : A -> B) (parse : string -> option (A * string)) : simulates parse ->
  simulates (fun s => match parse s with Some (x, r) => Some (f x, r) | None => None end).
Proof.
  intros H s y r Ht E. destruct (parse s) as [[x r']|] eqn:Ep; [|done]. injection E as <- <-. by destruct (H s x r' Ht Ep) as [-> Hr].
Qed.

(** A separator character: it is ASCII, and its text follows. *)
Lemma after_skip s d r' n : utf8_text s -> skip s = String d r' -> (code d =? n)%N = true -> (n < 127)%N ->
  skip (asciify s) = String d (asciify r') /\ utf8_text r'.
Proof.
  intros Ht Es Ed Hn. apply N.eqb_eq in Ed. destruct (skip_simulates s Ht) as [E Ht']. rewrite Es in E, Ht'.
  rewrite asciify_cons in E by lia. split; [done|]. apply text_tail in Ht'; [done|lia].
Qed.

(** The head of what is left is the same separator or none. *)
Lemma head_test s n : utf8_text s -> (n < 127)%N -> (n <> 92)%N ->
  match skip (asciify s), skip s with
  | String a _, String b _ => (code a =? n)%N = (code b =? n)%N
  | EmptyString, EmptyString => True
  | _, _ => False
  end.
Proof.
  intros Ht Hn Hb. destruct (skip_simulates s Ht) as [-> Ht']. destruct (skip s) as [|b t]; [done|].
  destruct (127 <=? code b)%N eqn:Ec; [apply N.leb_le in Ec|apply N.leb_gt in Ec].
  - destruct (escaped_head b t Ht' Ec) as [x ->]. change (code backslash) with 92%N. rewrite !(proj2 (N.eqb_neq _ _)) by lia. done.
  - by rewrite asciify_cons.
Qed.

Section Step.
Context (n : nat) (Hv : simulates (pvalue n)) (He : simulates (pelems n)) (Hm : simulates (pmembers n)).

Lemma bracket_simulates {A B} (close : N) (none : B) (f : A -> B) (parse : string -> option (A * string)) :
  (close < 127)%N -> close <> 92%N -> simulates parse ->
  simulates (fun r => match skip r with
                      | String d r' => if (code d =? close)%N then Some (none, r')
                                       else match parse (String d r') with Some (l, r'') => Some (f l, r'') | None => None end
                      | EmptyString => None
                      end).
Proof.
  intros Hc1 Hc2 Hp s x r Ht H. destruct (skip s) as [|d r'] eqn:Es; [done|]. assert (Hh := head_test s close Ht Hc1 Hc2).
  destruct (code d =? close)%N eqn:Ed.
  - injection H as <- <-. destruct (after_skip s d r' close Ht Es Ed Hc1) as [-> Hr]. by rewrite Ed.
  - destruct (skip_simulates s Ht) as [E Ht']. rewrite Es in E, Ht', Hh. rewrite E in Hh |- *.
    destruct (parse (String d r')) as [[l r'']|] eqn:Ep; [|done]. injection H as <- <-.
    destruct (Hp _ _ _ Ht' Ep) as [E' Hr]. destruct (asciify (String d r')) as [|a t]; [done|]. rewrite Hh, Ed, E'. done.
Qed.

Lemma pvalue_simulates : simulates (pvalue (S n)).
Proof.
  intros s x r Ht H. destruct s as [|c s]; [done|]. destruct (127 <=? code c)%N eqn:Ec; [apply N.leb_le in Ec|apply N.leb_gt in Ec].
  { by rewrite value_head in H. }
  assert (Ht' := Ht). apply text_tail in Ht'; [|lia]. rewrite pvalue_dispatch in H. rewrite asciify_cons by done. rewrite pvalue_dispatch.
  destruct (code c =? 34)%N; [exact (simulates_map JStr pstring pstring_simulates s x r Ht' H)|].
  destruct (code c =? 91)%N; [exact (bracket_simulates 93 (JList []) JList _ ltac:(lia) ltac:(lia) He s x r Ht' H)|].
  destruct (code c =? 123)%N; [exact (bracket_simulates 125 (JObj []) (fun l => JObj (dict_of_pairs l)) _ ltac:(lia) ltac:(lia) Hm s x r Ht' H)|].
  rewrite <- (asciify_cons c s Ec).
  destruct (code c =? 110)%N; [exact (literal_simulates "null" JNull eq_refl _ x r Ht H)|].
  destruct (code c =? 116)%N; [exact (literal_simulates "true" (JBool true) eq_refl _ x r Ht H)|].
  destruct (code c =? 102)%N; [exact (literal_simulates "false" (JBool false) eq_refl _ x r Ht H)|].
  destruct (code c =? 45)%N; [exact (simulates_map (fun z => JInt (- z)) pdigits pdigits_simulates s x r Ht' H)|].
  exact (simulates_map JInt pdigits pdigits_simulates _ x r Ht H).
Qed.

(** After an element: the end of the collection, or a comma and the rest. *)
Lemma separator_simulates {A B} (close : N) (one : B) (f : A -> B) (parse : string -> option (A * string)) :
  (close < 127)%N -> close <> 92%N -> simulates parse ->
  simulates (fun r => match skip r with
                      | String d r' => if (code d =? close)%N then Some (one, r')
                                       else if (code d =? 44)%N then
                                         match parse (skip r') with Some (l, r'') => Some (f l, r'') | None => None end
                                       else None
                      | EmptyString => None
                      end).
Proof.
  intros Hc1 Hc2 Hp s x r Ht H. destruct (skip s) as [|d r'] eqn:Es; [done|]. destruct (code d =? close)%N eqn:Ed.
  - injection H as <- <-. destruct (after_skip s d r' close Ht Es Ed Hc1) as [-> Hr]. by rewrite Ed.
  - destruct (code d =? 44)%N eqn:E4; [|done]. destruct (after_skip s d r' 44 Ht Es E4 ltac:(lia)) as [-> Hr]. rewrite Ed, E4.
    destruct (skip_simulates r' Hr) as [-> Hr']. destruct (parse (skip r')) as [[l r'']|] eqn:Ep; [|done]. injection H as <- <-.
    by destruct (Hp _ _ _ Hr' Ep) as [-> ?].
Qed.

Lemma pelems_simulates : simulates (pelems (S n)).
Proof.
  intros s x r Ht H. cbn [hooked_elems] in *. destruct (pvalue n s) as [[v r1]|] eqn:Ev; [|done]. destruct (Hv _ _ _ Ht Ev) as [-> Hr1].
  exact (separator_simulates 93 [v] (fun l => v :: l) _ ltac:(lia) ltac:(lia) He r1 x r Hr1 H).
Qed.

Lemma pmembers_simulates : simulates (pmembers (S n)).
Proof.
  intros s x r Ht H. destruct s as [|q s]; [done|]. cbn [hooked_members] in H. destruct (code q =? 34)%N eqn:Eq; [|done].
  assert (Hq : (code q < 127)%N) by (apply N.eqb_eq in Eq; lia). eat Ht Hq. cbn [hooked_members]. rewrite Eq.
  destruct (pstring s) as [[k r1]|] eqn:Ek; [|done]. destruct (pstring_simulates _ _ _ Ht Ek) as [-> Hr1].
  destruct (skip r1) as [|d r2] eqn:Es; [done|]. destruct (code d =? 58)%N eqn:Ed; [|done].
  destruct (after_skip r1 d r2 58 Hr1 Es Ed ltac:(lia)) as [-> Hr2]. rewrite Ed. destruct (skip_simulates r2 Hr2) as [-> Hr2'].
  destruct (pvalue n (skip r2)) as [[v r3]|] eqn:Ev; [|done]. destruct (Hv _ _ _ Hr2' Ev) as [-> Hr3].
  exact (separator_simulates 125 [(k, v)] (fun l => (k, v) :: l) _ ltac:(lia) ltac:(lia) Hm r3 x r Hr3 H).
Qed.
End Step.

Lemma parsers_simulate n : simulates (pvalue n) /\ simulates (pelems n) /\ simulates (pmembers n).
Proof.
  induction n as [|n (Hv & He & Hm)]; [split_and!; intros s x r _ H; discriminate H|].
  split_and!; [by apply pvalue_simulates|by apply pelems_simulates|by apply pmembers_simulates].
Qed.

(** ** Printed documents are texts *)

Lemma ascii_text s t : all_chars (fun c => code c <? 128)%N s = true -> utf8_text t -> utf8_text (s +:+ t)%stdpp.
Proof.
  intros Hs Ht. induction s as [|a s IH]; [by rewrite append_nil_l|]. cbn in Hs. apply andb_true_iff in Hs as [Ha Hs].
  rewrite append_cons. apply text_cons; [by apply N.ltb_lt in Ha|by apply IH].
Qed.

Lemma escape_char_text c t : (code c < 128)%N -> utf8_text t -> utf8_text (escape_char c t).
Proof.
  intros Hc Ht. assert (Hb : (code c <? 128)%N = true) by (by apply N.ltb_lt). clear Hc.
  destruct c as [[] [] [] [] [] [] [] []]; first [discriminate Hb|repeat (apply text_cons; [reflexivity|]); exact Ht].
Qed.

Lemma escape_char_raw c t : (128 <= code c)%N -> escape_char c t = String c t.
Proof. intros Hc. destruct c as [[] [] [] [] [] [] [] []]; first [reflexivity|vm_compute in Hc; by destruct Hc]. Qed.

Lemma escape_text s rest : utf8_text s -> utf8_text rest -> utf8_text (escape s rest).
Proof.
  intros Hs Hr. induction Hs as [|n s Hn Hs IH]; [done|]. destruct (n <? 128)%N eqn:E.
  - apply N.ltb_lt in E. unfold utf8. rewrite (proj2 (N.ltb_lt _ _)) by done. rewrite append_cons, append_nil_l. cbn [escape].
    apply escape_char_text; [rewrite code_chr; lia|done].
  - apply N.ltb_ge in E. assert (Ee : escape (utf8 n +:+ s)%stdpp rest = (utf8 n +:+ escape s rest)%stdpp); [|rewrite Ee; by constructor].
    unfold utf8. rewrite (proj2 (N.ltb_ge _ _)) by done. destruct (n <? 2048)%N eqn:E2; [|destruct (n <? 65536)%N eqn:E3];
      rewrite ?N.ltb_lt, ?N.ltb_ge in *; rewrite ?append_cons, !append_nil_l; cbn [escape];
      rewrite !escape_char_raw by (rewrite code_chr; encoding_bounds); done.
Qed.

Lemma quote_text s rest : utf8_text s -> utf8_text rest -> utf8_text (quote s rest).
Proof. intros Hs Hr. unfold quote. apply text_cons; [reflexivity|]. apply escape_text; [done|]. by apply text_cons. Qed.

Lemma uint_ascii u : all_chars (fun c => code c <? 128)%N (NilEmpty.string_of_uint u) = true.
Proof. by induction u. Qed.

Lemma print_text j rest : utf8_json j -> utf8_text rest -> utf8_text (print j rest).
Proof.
  revert rest. induction j as [|[]|z|s|l IH|l IH] using json_ind'; intros rest Hj Hr.
  - by apply (ascii_text "null").
  - by apply (ascii_text "true").
  - by apply (ascii_text "false").
  - cbn [print]. apply ascii_text; [|done]. unfold str_of_Z. destruct (Z.to_int z); apply uint_ascii.
  - by apply quote_text.
  - destruct l as [|x xs]; [by apply (ascii_text "[]")|].
    change (print (JList (x :: xs)) rest) with (String "[" (print x (elems_tail rest xs))). cbn in Hj. destruct Hj as [Hx Hxs].
    apply Forall_cons in IH as [IHx IH]. apply text_cons; [reflexivity|]. apply IHx; [done|].
    induction xs as [|y ys IHys]; [by apply text_cons|]. rewrite elems_tail_cons. cbn in Hxs. destruct Hxs as [Hy Hys].
    apply Forall_cons in IH as [IHy IH]. apply text_cons; [reflexivity|]. apply IHy; [done|]. by apply IHys.
  - destruct l as [|[k x] xs]; [by apply (ascii_text "{}")|].
    change (print (JObj ((k, x) :: xs)) rest) with (String "{" (quote k (String ":" (print x (members_tail rest xs))))). cbn in Hj. destruct Hj as [[Hk Hx] Hxs].
    apply Forall_cons in IH as [IHx IH]. apply text_cons; [reflexivity|]. apply quote_text; [done|]. apply text_cons; [reflexivity|]. apply IHx; [done|].
    induction xs as [|[k' y] ys IHys]; [by apply text_cons|]. rewrite members_tail_cons. cbn in Hxs. destruct Hxs as [[Hk' Hy] Hys].
    apply Forall_cons in IH as [IHy IH]. apply text_cons; [reflexivity|]. apply quote_text; [done|]. apply text_cons; [reflexivity|]. apply IHy; [done|]. by apply IHys.
Qed.

Lemma utf8_list l : utf8_json (JList l) <-> Forall utf8_json l.
Proof. cbn. induction l as [|x l IH]; cbn; [by split|]. by rewrite Forall_cons, IH. Qed.
Lemma utf8_obj l : utf8_json (JObj l) <-> Forall (fun kv => utf8_text kv.1 /\ utf8_json kv.2) l.
Proof. cbn. induction l as [|x l IH]; cbn; [by split|]. by rewrite Forall_cons, IH. Qed.

Lemma norm_utf8 j : utf8_json j -> utf8_json (norm j).
Proof.
  induction j as [|[]|z|s|l IH|l IH] using json_ind'; intros H; try done.
  - apply utf8_list in H. cbn [norm]. apply utf8_list. apply Forall_map. rewrite Forall_forall in *. auto.
  - apply utf8_obj in H. cbn [norm]. apply utf8_obj. rewrite sorted_by_perm. apply Forall_map. rewrite Forall_forall in *.
    intros kv Hin. cbn. destruct (H kv Hin). auto.
Qed.

Lemma utf8_length n : (String.length (utf8 n) <= 4)%nat.
Proof. unfold utf8. repeat case_match; cbn; lia. Qed.

Lemma asciify_length s : utf8_text s -> (String.length s <= String.length (asciify s))%nat.
Proof.
  induction 1 as [|n s Hn Hs IH]; [done|]. rewrite asciify_char, length_append by done. assert (H4 := utf8_length n).
  destruct (n <? 127)%N eqn:E.
  - destruct (utf8_head n) as (b & t & -> & [(_ & _ & ->)|(Hl & _)]); [cbn; lia|apply N.ltb_lt in E; lia].
  - unfold escape_code_point, u_escape. destruct (n <? 65536)%N; cbn [String.length]; lia.
Qed.

Lemma loads_ascii j : json_wf j = true -> utf8_json j -> loads (dumps_ascii j) = Some (norm j).
Proof.
  intros Hw Hu. set (t := print (norm j) ""). assert (Ht : utf8_text t) by (apply print_text; [by apply norm_utf8|constructor]).
  assert (Hl := asciify_length t Ht). unfold loads, loads_with, dumps_ascii, dumps. fold t.
  destruct (skip_simulates t Ht) as [-> _]. unfold t at 2. rewrite skip_print. fold t.
  assert (Hp : pvalue (S (2 * String.length (asciify t))) t = Some (norm j, "")).
  { apply pvalue_print; [by apply norm_wf|done|]. assert (H := jfuel_bound (norm j) ""). fold t in H. cbn [String.length] in H. lia. }
  apply parsers_simulate in Hp as [-> _]; [|done]. reflexivity.
Qed.

Lemma hex_digit_ascii x : (code (hex_digit x) <? 127)%N = true.
Proof.
  assert (H := hex_digit_is_hex x). revert H. generalize (hex_digit x) as a. intros a H.
  destruct a as [[] [] [] [] [] [] [] []]; first [discriminate H|reflexivity].
Qed.

Lemma asciify_ascii s : utf8_text s -> all_chars (fun c => code c <? 127)%N (asciify s) = true.
Proof.
  induction 1 as [|n s Hn Hs IH]; [done|]. rewrite asciify_char by done. destruct (n <? 127)%N eqn:E.
  - cbn [all_chars]. rewrite code_chr by (apply N.ltb_lt in E; lia). by rewrite E.
  - unfold escape_code_point, u_escape. destruct (n <? 65536)%N; cbn [all_chars]; rewrite !hex_digit_ascii; exact IH.
Qed.

(** A document written in ASCII form, as the evidence ledger stores its
    payloads, is read back as the same document in canonical form, whatever
    characters its names and strings hold; and that form holds ASCII characters
    only. *)
Theorem ascii_round_trip j : json_wf j = true -> utf8_json j ->
  loads (dumps_ascii j) = Some (norm j) /\ all_chars (fun c => code c <? 127)%N (dumps_ascii j) = true.
Proof. intros Hw Hu. split; [by apply loads_ascii|]. apply asciify_ascii, print_text; [by apply norm_utf8|constructor]. Qed.

Definition text_of (points : list N) : string := foldr (fun n s => utf8 n +:+ s)%stdpp "" points.
Lemma text_of_utf8 points : Forall scalar points -> utf8_text (text_of points).
Proof. induction 1; cbn; by constructor. Qed.

(** An accented letter, a delete, and a character outside the basic plane. *)
Definition sample_text : string := text_of [97; 233; 127; 8364; 128512]%N.
Definition sample_document : json := JObj [("b", JStr sample_text); ("a", JInt 3)].
Lemma ascii_round_trip_witness :
  loads (dumps_ascii sample_document) = Some (norm sample_document) /\ all_chars (fun c => code c <? 127)%N (dumps_ascii sample_document) = true.
Proof.
  apply (ascii_round_trip sample_document); [vm_compute; reflexivity|]. cbn [utf8_json sample_document foldr fst snd].
  split; [split; [apply (text_of_utf8 [98%N])|apply text_of_utf8]|split; [split; [apply (text_of_utf8 [97%N])|exact I]|exact I]];
    repeat constructor; unfold scalar; lia.
Defined.
End AsciiJson.
