(* ===== verification/JsonLines.v ===== *)
(** * Canonical lines

    A canonical document followed by further text, such as the newline that ends
    a file, reads back, and whatever the parser returns has distinct keys. *)

From S2P Require Import Prelude Sha256 Canonical AsciiJson.
From Stdlib Require Import Ascii.

Definition newline : string := String (ascii_of_N 10) "".

Lemma escape_char_app c t rest : escape_char c (t +:+ rest)%stdpp = (escape_char c t +:+ rest)%stdpp.
Proof. destruct c as [[] [] [] [] [] [] [] []]; reflexivity. Qed.

Lemma escape_app s t rest : escape s (t +:+ rest)%stdpp = (escape s t +:+ rest)%stdpp.
Proof. induction s as [|c s IH]; [done|]. cbn [escape]. rewrite IH. apply escape_char_app. Qed.

Lemma quote_app s t rest : quote s (t +:+ rest)%stdpp = (quote s t +:+ rest)%stdpp.
Proof. unfold quote. rewrite append_cons. f_equal. apply (escape_app s (String dquote t)). Qed.

Lemma elems_app l t rest : Forall (fun x => forall t, print x (t +:+ rest) = print x t +:+ rest)%stdpp l ->
  elems_tail (t +:+ rest)%stdpp l = (elems_tail t l +:+ rest)%stdpp.
Proof. induction 1 as [|x l Hx _ IH]; [done|]. rewrite !elems_tail_cons, append_cons, IH. by rewrite Hx. Qed.

Lemma members_app l t rest : Forall (fun kv => forall t, print kv.2 (t +:+ rest) = print kv.2 t +:+ rest)%stdpp l ->
  members_tail (t +:+ rest)%stdpp l = (members_tail t l +:+ rest)%stdpp.
Proof.
  induction 1 as [|[k x] l Hx _ IH]; [done|]. cbn in Hx. rewrite !members_tail_cons, append_cons, IH, Hx.
  rewrite <- quote_app. by rewrite append_cons.
Qed.

Lemma print_app j t rest : print j (t +:+ rest)%stdpp = (print j t +:+ rest)%stdpp.
Proof.
  revert t. induction j as [|[]|z|s|l IH|l IH] using json_ind'; intros t; try (cbn [print]; by rewrite append_assoc).
  - apply quote_app.
  - destruct l as [|x xs]; [cbn [print]; by rewrite append_assoc|]. apply Forall_cons in IH as [Hx IH].
    change (print (JList (x :: xs)) ?r) with (String "[" (print x (elems_tail r xs))). by rewrite elems_app, Hx, append_cons by done.
  - destruct l as [|[k x] xs]; [cbn [print]; by rewrite append_assoc|]. apply Forall_cons in IH as [Hx IH].
    change (print (JObj ((k, x) :: xs)) ?r) with (String "{" (quote k (String ":" (print x (members_tail r xs))))).
    cbn in Hx. rewrite members_app, Hx by done. rewrite <- (append_cons ":"), quote_app. by rewrite append_cons.
Qed.

Lemma loads_line j : json_wf j = true -> loads (canonical_bytes j +:+ newline)%stdpp = Some (norm j).
Proof.
  intros Hw. unfold canonical_bytes, dumps. rewrite <- print_app, append_nil_l. unfold loads, loads_with. rewrite skip_print.
  rewrite pvalue_print; [done|by apply norm_wf|done|]. assert (H := jfuel_bound (norm j) newline). cbn [String.length newline] in H. lia.
Qed.


(** What the parser returns is a Python value: its keys are distinct. *)
Lemma literal_wf lit v s j r : json_wf v = true -> literal lit v s = Some (j, r) -> json_wf j = true.
Proof. unfold literal. intros Hv H. destruct (String.prefix lit s); [by injection H as <- <-|done]. Qed.

Lemma parsers_wf n :
  (forall s j r, pvalue n s = Some (j, r) -> json_wf j = true)
  /\ (forall s l r, pelems n s = Some (l, r) -> Forall (fun j => json_wf j = true) l)
  /\ (forall s l r, pmembers n s = Some (l, r) -> Forall (fun kv => json_wf kv.2 = true) l).
Proof.
  induction n as [|n (IHv & IHe & IHm)]; [done|]. split_and!.
  - intros s j r H. destruct s as [|c s]; [done|]. rewrite AsciiJson.pvalue_dispatch in H.
    repeat case_match; simplify_eq; try done; try (by eapply literal_wf; [|eassumption]).
    + cbn [json_wf]. apply forallb_forall. intros x Hx. apply list_elem_of_In in Hx. revert x Hx. apply Forall_forall. eapply IHe; eassumption.
    + cbn [json_wf]. apply andb_true_iff. split; [by apply bool_decide_eq_true, dict_of_pairs_keys|].
      apply forallb_forall. intros x Hx. apply list_elem_of_In in Hx. revert x Hx. apply Forall_forall.
      apply (dict_of_pairs_Forall (fun j => json_wf j = true)). eapply IHm; eassumption.
  - intros s l r H. cbn [hooked_elems] in H. repeat case_match; simplify_eq; try done; eauto using Forall_cons_2.
  - intros s l r H. cbn [hooked_members] in H. repeat case_match; simplify_eq; try done; eauto using Forall_cons_2.
Qed.

Lemma loads_wf s j : loads s = Some j -> json_wf j = true.
Proof. unfold loads, loads_with. intros H. repeat case_match; simplify_eq. eapply (proj1 (parsers_wf _)); eassumption. Qed.
