(* ===== verification/Ledger.v ===== *)
(** * The evidence ledger

    [ledger.py]: an append-only SQLite event table whose rows are linked by
    SHA-256 digests, and the lessons table beside it.  The state is the pair of
    tables; a row of an [INTEGER PRIMARY KEY] table is kept in key order, which
    is the order SQLite stores it in and [ORDER BY sequence] reads it in. *)

From S2P Require Import Prelude Sha256 Canonical AsciiJson.

Module Ledger.

(** ** Data *)

(** A row of [events]; the two digest columns may be NULL. *)
Record event_row := EventRow {
  sequence : Z;
  run_id : string;
  event_type : string;
  actor : string;
  payload : string;
  created_at : string;
  prev_digest : option string;
  row_digest : option string
}.

(** A row of [lessons]. *)
Record lesson_row := LessonRow {
  l_sequence : Z;
  l_run_id : string;
  l_role : string;
  l_lesson : string;
  l_source : option Z;
  l_created_at : string
}.

(** The two tables and the [AUTOINCREMENT] counter of [lessons]. *)
Record ledger := MkLedger {
  l_events : list event_row;
  l_lessons : list lesson_row;
  l_counter : Z
}.

Definition empty_ledger : ledger := MkLedger [] [] 0.

(** ** Operations *)

(** The bytes [_event_digest] hashes. *)
Definition event_preimage (seq : Z) (run etype act pay created previous : string) : string :=
  dumps (JList [JInt seq; JStr run; JStr etype; JStr act; JStr pay; JStr created; JStr previous]).

Definition _event_digest (seq : Z) (run etype act pay created previous : string) : string :=
  ("sha256:" +:+ sha256_hexdigest (event_preimage seq run etype act pay created previous))%stdpp.

(** The digest of a stored row after a predecessor digest. *)
Definition row_expected (r : event_row) (previous : string) : string :=
  _event_digest (sequence r) (run_id r) (event_type r) (actor r) (payload r) (created_at r) previous.

(** One iteration of the validation loop; the loop state is [previous]. *)
Definition validate_row (previous : string) (r : event_row) : result string :=
  require (bool_decide (prev_digest r = Some previous)) LedgerIntegrityError "ledger event chain is malformed" ;?
  match row_digest r with
  | None => raise LedgerIntegrityError "ledger event chain is malformed"
  | Some stored =>
      require (String.eqb stored (row_expected r previous)) LedgerIntegrityError "ledger event chain digest mismatch" ;?
      Ok stored
  end.

Definition _validate_event_chain (rows : list event_row) : result string := rfold validate_row "" rows.

(** [INSERT INTO events]: the primary key keeps the rows in order and unique. *)
Fixpoint insert_event (r : event_row) (rows : list event_row) : result (list event_row) :=
  match rows with
  | [] => Ok [r]
  | x :: xs =>
      if sequence r <? sequence x then Ok (r :: x :: xs)
      else if sequence r =? sequence x then raise IntegrityError "UNIQUE constraint failed: events.sequence"
      else let? ys := insert_event r xs in Ok (x :: ys)
  end.

(** [append_event]; [now] is the reading of [utc_now]. *)
Definition append_event (run etype act : string) (pay : json) (now : string) : M ledger Z :=
  let encoded := dumps_ascii pay in
  atomic (fun st =>
    let prior := last (l_events st) in
    match (match prior with None => Some "" | Some p => row_digest p end) with
    | None => (raise LedgerIntegrityError "ledger predecessor digest is missing", st)
    | Some previous =>
        let seq := match prior with None => 1 | Some p => sequence p + 1 end in
        let digest := _event_digest seq run etype act encoded now previous in
        match insert_event (EventRow seq run etype act encoded now (Some previous) (Some digest)) (l_events st) with
        | Ok rows => (Ok seq, MkLedger rows (l_lessons st) (l_counter st))
        | Raise e => (Raise e, st)
        end
    end).

(** One [INSERT INTO lessons]: the foreign key must name an event. *)
Definition insert_lesson (run role lesson : string) (source : option Z) (now : string) (st : ledger) : result ledger :=
  require (match source with
           | None => true
           | Some k => existsb (fun r => sequence r =? k) (l_events st)
           end) IntegrityError "FOREIGN KEY constraint failed" ;?
  let n := l_counter st + 1 in
  Ok (MkLedger (l_events st) (l_lessons st ++ [LessonRow n run role lesson source now]) n).

(** [append_lessons]: blank lessons are dropped, the others inserted in one
    transaction. *)
Definition append_lessons (run role : string) (lessons : list string) (source : option Z) (now : string) : M ledger unit :=
  let rows := map strip (List.filter (fun l => negb (is_blank l)) lessons) in
  match rows with
  | [] => ret tt
  | _ => atomic (fun st =>
           match rfold (fun st l => insert_lesson run role l source now st) st rows with
           | Ok st' => (Ok tt, st')
           | Raise e => (Raise e, st)
           end)
  end.

(** [events(run_id)]: validate the whole chain, then decode the selected rows. *)
Fixpoint decode_rows (rows : list event_row) : result (list (event_row * json)) :=
  match rows with
  | [] => Ok []
  | r :: rs =>
      match loads (payload r) with
      | None => raise ValueError "JSONDecodeError"
      | Some j => let? rest := decode_rows rs in Ok ((r, j) :: rest)
      end
  end.
Definition events (run : option string) : M ledger (list (event_row * json)) :=
  fun st =>
    (_validate_event_chain (l_events st) ;?
     decode_rows (List.filter (fun r => match run with None => true | Some x => String.eqb (run_id r) x end) (l_events st)),
     st).

(** The append-only triggers: an UPDATE or DELETE that reaches a row aborts. *)
Definition update_events (hits : event_row -> bool) : M ledger unit :=
  fun st => (require (negb (existsb hits (l_events st))) IntegrityError "events are append-only", st).
Definition delete_events (hits : event_row -> bool) : M ledger unit :=
  fun st => (require (negb (existsb hits (l_events st))) IntegrityError "events are append-only", st).
Definition update_lessons (hits : lesson_row -> bool) : M ledger unit :=
  fun st => (require (negb (existsb hits (l_lessons st))) IntegrityError "lessons are append-only", st).
Definition delete_lessons (hits : lesson_row -> bool) : M ledger unit :=
  fun st => (require (negb (existsb hits (l_lessons st))) IntegrityError "lessons are append-only", st).

(** [_migrate_event_chain]: when some row has no digest, link every row again
    from the start. *)
Fixpoint relink (previous : string) (rows : list event_row) : list event_row :=
  match rows with
  | [] => []
  | r :: rs =>
      let digest := row_expected r previous in
      EventRow (sequence r) (run_id r) (event_type r) (actor r) (payload r) (created_at r)
               (Some previous) (Some digest) :: relink digest rs
  end.
Definition has_digests (r : event_row) : bool :=
  match prev_digest r, row_digest r with Some _, Some _ => true | _, _ => false end.
Definition _migrate_event_chain (st : ledger) : ledger :=
  match l_events st with
  | [] => st
  | rows => if forallb has_digests rows then st
            else MkLedger (relink "" rows) (l_lessons st) (l_counter st)
  end.

(** ** The ledger as a state machine *)

Inductive op :=
| OpAppend (run etype act : string) (pay : json) (now : string)
| OpLessons (run role : string) (lessons : list string) (source : option Z) (now : string)
| OpEvents (run : option string)
| OpUpdateEvents (hits : event_row -> bool)
| OpDeleteEvents (hits : event_row -> bool)
| OpUpdateLessons (hits : lesson_row -> bool)
| OpDeleteLessons (hits : lesson_row -> bool)
| OpReopen.

(** The tables after an operation, whether it returned or raised. *)
Definition run_op (o : op) (st : ledger) : ledger :=
  match o with
  | OpAppend run etype act pay now => (append_event run etype act pay now st).2
  | OpLessons run role lessons source now => (append_lessons run role lessons source now st).2
  | OpEvents run => (events run st).2
  | OpUpdateEvents hits => (update_events hits st).2
  | OpDeleteEvents hits => (delete_events hits st).2
  | OpUpdateLessons hits => (update_lessons hits st).2
  | OpDeleteLessons hits => (delete_lessons hits st).2
  | OpReopen => _migrate_event_chain st
  end.

Inductive reachable : ledger -> Prop :=
| reach_empty : reachable empty_ledger
| reach_step o st : reachable st -> reachable (run_op o st).

(** The digest the next event will be linked to. *)
Definition head_digest (rows : list event_row) : string :=
  match last rows with Some r => default "" (row_digest r) | None => "" end.

(** The bytes a row's digest was computed from. *)
Definition stored_preimage (r : event_row) : string :=
  event_preimage (sequence r) (run_id r) (event_type r) (actor r) (payload r) (created_at r)
    (default "" (prev_digest r)).

Record ledger_ok (st : ledger) : Prop := {
  ok_chain : _validate_event_chain (l_events st) = Ok (head_digest (l_events st));
  ok_seq : sequence <$> l_events st = seqZ 1 (Z.of_nat (length (l_events st)));
  ok_lesson_seq : l_sequence <$> l_lessons st = seqZ 1 (l_counter st);
  ok_counter : l_counter st = Z.of_nat (length (l_lessons st));
  ok_lesson_src : Forall (fun l => match l_source l with
                                   | Some k => 1 <= k <= Z.of_nat (length (l_events st))
                                   | None => True end) (l_lessons st)
}.

(** ** Lemmas on the chain *)

Lemma validate_row_ok previous r h :
  validate_row previous r = Ok h <->
  prev_digest r = Some previous /\ row_digest r = Some h /\ h = row_expected r previous.
Proof.
  unfold validate_row. rewrite rbind_ok. setoid_rewrite require_ok.
  split.
  - intros (u & H1 & H2). bool_hyps. destruct (row_digest r) as [d|]; [|done].
    apply rbind_ok in H2 as (u' & H2 & H3). apply require_ok in H2. bool_hyps. peel. naive_solver.
  - intros (H1 & H2 & ->). exists tt. rewrite bool_decide_eq_true. split; [done|]. rewrite H2.
    cbn. rewrite String.eqb_refl. done.
Qed.

Lemma head_digest_snoc rows r : head_digest (rows ++ [r]) = default "" (row_digest r).
Proof. unfold head_digest. by rewrite last_snoc. Qed.

Lemma validate_snoc rows r h :
  _validate_event_chain (rows ++ [r]) = Ok h <->
  exists p, _validate_event_chain rows = Ok p /\ validate_row p r = Ok h.
Proof.
  unfold _validate_event_chain. rewrite rfold_app, rbind_ok.
  split; intros (p & H1 & H2); exists p; (split; [done|]); cbn in *.
  - by destruct (validate_row p r).
  - by rewrite H2.
Qed.

(** The loop ends with the digest of the last row. *)
Lemma validate_head rows h : _validate_event_chain rows = Ok h -> h = head_digest rows.
Proof.
  destruct rows as [|r rows _] using rev_ind; [by intros [=]|].
  rewrite validate_snoc, head_digest_snoc. intros (p & _ & H).
  apply validate_row_ok in H as (_ & -> & _). done.
Qed.

Lemma insert_event_last r rows :
  Forall (fun x => sequence x < sequence r) rows -> insert_event r rows = Ok (rows ++ [r]).
Proof.
  induction 1 as [|x xs Hx _ IH]; [done|]. cbn [insert_event].
  destruct (Z.ltb_spec (sequence r) (sequence x)); [lia|].
  destruct (Z.eqb_spec (sequence r) (sequence x)); [lia|]. by rewrite IH.
Qed.

Lemma seqZ_snoc n : seqZ 1 (Z.of_nat n + 1) = seqZ 1 (Z.of_nat n) ++ [Z.of_nat n + 1].
Proof.
  rewrite seqZ_app by lia. f_equal. rewrite seqZ_cons by lia. f_equal. lia.
Qed.

Lemma sequences_below rows :
  sequence <$> rows = seqZ 1 (Z.of_nat (length rows)) ->
  Forall (fun x => sequence x < Z.of_nat (length rows) + 1) rows /\
  (forall r, last rows = Some r -> sequence r = Z.of_nat (length rows)).
Proof.
  intros H. split.
  - apply Forall_lookup. intros i x Hi.
    assert (Hs : (sequence <$> rows) !! i = Some (sequence x)) by by rewrite list_lookup_fmap, Hi.
    rewrite H, lookup_seqZ in Hs. lia.
  - intros r Hr. rewrite last_lookup in Hr.
    assert (Hs : (sequence <$> rows) !! pred (length rows) = Some (sequence r)) by by rewrite list_lookup_fmap, Hr.
    rewrite H, lookup_seqZ in Hs. lia.
Qed.

(** The hashed bytes determine every field of the event. *)
Lemma event_preimage_inj s1 r1 t1 a1 p1 c1 d1 s2 r2 t2 a2 p2 c2 d2 :
  event_preimage s1 r1 t1 a1 p1 c1 d1 = event_preimage s2 r2 t2 a2 p2 c2 d2 ->
  (s1, r1, t1, a1, p1, c1, d1) = (s2, r2, t2, a2, p2, c2, d2).
Proof.
  unfold event_preimage. intros H.
  assert (H1 := loads_dumps_norm (JList [JInt s1; JStr r1; JStr t1; JStr a1; JStr p1; JStr c1; JStr d1]) eq_refl).
  rewrite H, loads_dumps_norm in H1 by done. cbn in H1. by simplify_eq.
Qed.

(** A digest is never the empty string that starts the chain. *)
Lemma row_expected_nonempty r p : row_expected r p <> "".
Proof. done. Qed.

Lemma head_digest_nonempty rows r h : _validate_event_chain (rows ++ [r]) = Ok h -> h <> "".
Proof. rewrite validate_snoc. intros (p & _ & (_ & _ & ->)%validate_row_ok). done. Qed.

(** [append_event] on a ledger with a sound chain. *)
Lemma append_event_spec run etype act pay now st :
  ledger_ok st ->
  let n := Z.of_nat (length (l_events st)) + 1 in
  let prev := head_digest (l_events st) in
  let enc := dumps_ascii pay in
  append_event run etype act pay now st =
    (Ok n, MkLedger (l_events st ++ [EventRow n run etype act enc now (Some prev)
                                       (Some (_event_digest n run etype act enc now prev))])
             (l_lessons st) (l_counter st)).
Proof.
  intros Hok n prev enc. destruct (sequences_below _ (ok_seq _ Hok)) as [Hlt Hlast].
  unfold append_event, atomic.
  assert (Hp : match last (l_events st) with None => Some "" | Some p => row_digest p end = Some prev
               /\ match last (l_events st) with None => 1 | Some p => sequence p + 1 end = n).
  { unfold prev, head_digest. assert (Hc := ok_chain _ Hok).
    destruct (l_events st) as [|r rows _] eqn:E using rev_ind; [done|].
    rewrite last_snoc in *. rewrite validate_snoc in Hc. destruct Hc as (p & _ & (_ & H & _)%validate_row_ok).
    rewrite H. split; [done|]. rewrite (Hlast r eq_refl). done. }
  destruct Hp as [-> ->]. fold enc. rewrite insert_event_last; [done|exact Hlt].
Qed.

Lemma ledger_ok_append run etype act pay now st :
  ledger_ok st -> ledger_ok (append_event run etype act pay now st).2.
Proof.
  intros Hok. rewrite append_event_spec by done. cbn [snd].
  destruct Hok as [Hc Hs Hl Hn Hf]. split; cbn [l_events l_lessons l_counter]; [| |done|done|].
  - rewrite validate_snoc, head_digest_snoc. exists (head_digest (l_events st)). split; [done|].
    apply validate_row_ok. done.
  - rewrite fmap_app, Hs, length_app, Nat2Z.inj_add. symmetry. apply seqZ_snoc.
  - eapply Forall_impl; [exact Hf|]. intros l; cbn beta; destruct (l_source l); [|done].
    rewrite length_app. cbn [length]. lia.
Qed.

Lemma source_in_range rows k :
  sequence <$> rows = seqZ 1 (Z.of_nat (length rows)) ->
  existsb (fun r => sequence r =? k) rows = true -> 1 <= k <= Z.of_nat (length rows).
Proof.
  intros H Hk. apply existsb_exists in Hk as (r & Hr & Hk). apply Z.eqb_eq in Hk. subst k.
  assert (Hin : sequence r ∈ sequence <$> rows) by (apply list_elem_of_fmap_2, list_elem_of_In; done).
  rewrite H, elem_of_seqZ in Hin. lia.
Qed.

(** What an operation may do to the tables: extend them. *)
Definition extends (st st' : ledger) : Prop :=
  l_events st `prefix_of` l_events st' /\ l_lessons st `prefix_of` l_lessons st'.

#[global] Instance extends_preorder : PreOrder extends.
Proof. split; [done|]. intros x y z [H1 H2] [H3 H4]. split; by etrans. Qed.

Lemma insert_lesson_ok run role x source now st st' :
  ledger_ok st -> insert_lesson run role x source now st = Ok st' -> ledger_ok st' /\ extends st st'.
Proof.
  intros [Hc Hs Hl Hn Hf] H. unfold insert_lesson in H. peel.
  split; [split; cbn [l_events l_lessons l_counter]|split; cbn; [done|by apply prefix_app_r]].
  - done.
  - done.
  - rewrite fmap_app, Hl, Hn. symmetry. apply seqZ_snoc.
  - rewrite length_app. cbn [length]. lia.
  - apply Forall_app. split; [done|]. constructor; [|constructor]. cbn.
    destruct source; [|done]. by eapply source_in_range.
Qed.

Lemma append_lessons_ok run role lessons source now st :
  ledger_ok st ->
  ledger_ok (append_lessons run role lessons source now st).2 /\
  extends st (append_lessons run role lessons source now st).2.
Proof.
  intros Hok. unfold append_lessons, atomic, ret. destruct (map strip _) as [|x xs] eqn:E; [done|]. clear E.
  destruct (rfold _ st (x :: xs)) as [st'|e] eqn:E; [|done]. cbn [snd].
  eapply (rfold_inv _ (fun s => ledger_ok s /\ extends st s)); [|done|exact E].
  intros s y s1 _ [H1 H2] H3. apply insert_lesson_ok in H3 as [H3 H4]; [|done].
  split; [done|]. by etrans.
Qed.

Lemma validated_has_digests rows h :
  _validate_event_chain rows = Ok h -> forallb has_digests rows = true.
Proof.
  revert h. induction rows as [|r rows IH] using rev_ind; intros h; [done|].
  rewrite validate_snoc. intros (p & H1 & (H2 & H3 & _)%validate_row_ok).
  rewrite forallb_app, (IH _ H1). cbn. unfold has_digests. by rewrite H2, H3.
Qed.

(** Opening a sound ledger again changes nothing. *)
Lemma migrate_id st : ledger_ok st -> _migrate_event_chain st = st.
Proof.
  intros Hok. unfold _migrate_event_chain.
  assert (H := validated_has_digests _ _ (ok_chain _ Hok)).
  destruct (l_events st); [done|]. by rewrite H.
Qed.

Lemma ledger_run_op_ok o st : ledger_ok st -> ledger_ok (run_op o st) /\ extends st (run_op o st).
Proof.
  intros Hok. destruct o; cbn [run_op]; try done.
  - split; [by apply ledger_ok_append|]. rewrite append_event_spec by done.
    split; cbn; [by apply prefix_app_r|done].
  - by apply append_lessons_ok.
  - by rewrite migrate_id.
Qed.

Lemma ledger_reachable_ok st : reachable st -> ledger_ok st.
Proof.
  induction 1 as [|o st _ IH]; [|by apply ledger_run_op_ok].
  by split.
Qed.
#[export] Hint Resolve ledger_reachable_ok : hive.

(** ** Properties *)

(** In every ledger reachable through the public operations (appends,
    lessons, reads, attempted updates and deletions, reopening) the stored
    digest chain validates, events are numbered 1..n without gaps, lessons
    likewise, and every lesson that cites an event cites a stored one. *)
Theorem reachable_ledger_sound st : reachable st -> ledger_ok st.
Proof. apply ledger_reachable_ok. Qed.

(** The ledger is append-only: no operation on a reachable ledger, whether
    it returns or raises, changes or removes a stored event or lesson. *)
Theorem ledger_append_only o st :
  reachable st ->
  l_events st `prefix_of` l_events (run_op o st) /\ l_lessons st `prefix_of` l_lessons (run_op o st).
Proof. intros H. apply ledger_run_op_ok. auto with hive. Qed.

(** On a reachable ledger [append_event] never raises: it returns the next
    sequence number and adds exactly one row, whose digest binds its content to
    the previous head. *)
Theorem append_event_returns run etype act pay now st :
  reachable st ->
  let n := Z.of_nat (length (l_events st)) + 1 in
  exists r, append_event run etype act pay now st =
              (Ok n, MkLedger (l_events st ++ [r]) (l_lessons st) (l_counter st)) /\
            sequence r = n /\ payload r = dumps_ascii pay /\
            prev_digest r = Some (head_digest (l_events st)) /\
            row_digest r = Some (row_expected r (head_digest (l_events st))).
Proof. intros H n. rewrite append_event_spec by auto with hive. by eexists. Qed.

(** ** Reading back what was appended *)

Record appended := Appended { ap_run : string; ap_type : string; ap_actor : string; ap_payload : json; ap_now : string }.
Definition append_one (st : ledger) (x : appended) : ledger :=
  (append_event (ap_run x) (ap_type x) (ap_actor x) (ap_payload x) (ap_now x) st).2.
Definition append_all (xs : list appended) : ledger := fold_left append_one xs empty_ledger.

(** A payload a Python caller can pass: distinct names, Unicode texts. *)
Definition payload_ok (x : appended) : Prop := json_wf (ap_payload x) = true /\ AsciiJson.utf8_json (ap_payload x).

(** The row an append left. *)
Definition row_of (r : event_row) (x : appended) : Prop :=
  run_id r = ap_run x /\ event_type r = ap_type x /\ actor r = ap_actor x /\ payload r = dumps_ascii (ap_payload x) /\ created_at r = ap_now x.
(** What a reader sees of it. *)
Definition seen (p : event_row * json) : string * string * string * string * json :=
  (run_id p.1, event_type p.1, actor p.1, created_at p.1, p.2).
Definition given (x : appended) : string * string * string * string * json :=
  (ap_run x, ap_type x, ap_actor x, ap_now x, norm (ap_payload x)).
Definition of_run (run : option string) (id : string) : bool := match run with None => true | Some x => String.eqb id x end.

Lemma append_all_rows xs : ledger_ok (append_all xs) /\ Forall2 row_of (l_events (append_all xs)) xs.
Proof.
  unfold append_all. induction xs as [|x xs [Hok Hf]] using rev_ind; [split; [apply ledger_reachable_ok; constructor|constructor]|].
  rewrite fold_left_app. cbn. unfold append_one at 1 3. split; [by apply ledger_ok_append|].
  rewrite append_event_spec by done. cbn. by apply Forall2_app; [|constructor].
Qed.

Lemma decode_rows_ok rows js : Forall2 (fun r j => loads (payload r) = Some j) rows js -> decode_rows rows = Ok (zip rows js).
Proof. induction 1 as [|r j rows js E _ IH]; [done|]. cbn. by rewrite E, IH. Qed.

Lemma events_ok run st js : ledger_ok st ->
  Forall2 (fun r j => loads (payload r) = Some j) (List.filter (fun r => of_run run (run_id r)) (l_events st)) js ->
  events run st = (Ok (zip (List.filter (fun r => of_run run (run_id r)) (l_events st)) js), st).
Proof. intros Hok Hf. unfold events. rewrite (ok_chain _ Hok). cbn [rbind]. by rewrite (decode_rows_ok _ js). Qed.

(** C31: what was appended is what is read.  After any appends of well-formed
    payloads, reading the ledger, or the part of one run, validates the chain
    and returns exactly those events, in order, with their run, type, actor and
    moment, and each payload as the same document in canonical form. *)
Theorem events_read_back xs run : Forall payload_ok xs ->
  exists rows, events run (append_all xs) = (Ok rows, append_all xs)
    /\ map seen rows = map given (List.filter (fun x => of_run run (ap_run x)) xs).
Proof.
  intros Hp. destruct (append_all_rows xs) as [Hok Hf]. set (st := append_all xs) in *.
  assert (Hj : Forall2 (fun r j => loads (payload r) = Some j) (List.filter (fun r => of_run run (run_id r)) (l_events st))
                 (map (fun x => norm (ap_payload x)) (List.filter (fun x => of_run run (ap_run x)) xs))
               /\ map seen (zip (List.filter (fun r => of_run run (run_id r)) (l_events st))
                                (map (fun x => norm (ap_payload x)) (List.filter (fun x => of_run run (ap_run x)) xs)))
                  = map given (List.filter (fun x => of_run run (ap_run x)) xs)).
  { clearbody st. generalize dependent (l_events st). intros rows Hf. induction Hf as [|r x rows xs (E1 & E2 & E3 & E4 & E5) Hf IH]; [done|].
    apply Forall_cons in Hp as [[Hw Hu] Hp]. destruct (IH Hp) as [IH1 IH2]. cbn [List.filter]. rewrite <- E1. destruct (of_run run (run_id r)); [|done].
    cbn [map zip]. split; [constructor; [|done]; rewrite E4; by apply AsciiJson.loads_ascii|]. cbn. f_equal; [|exact IH2].
    unfold seen, given. cbn. congruence. }
  destruct Hj as [Hj Hs]. eexists. split; [by apply events_ok|exact Hs].
Qed.

(** C29: the chain is tamper evident: two event tables that both validate and end
    in the same digest are equal, row by row and column by column, unless two
    of their own rows exhibit a SHA-256 collision. *)
Theorem ledger_tamper_evident rows rows' h :
  _validate_event_chain rows = Ok h -> _validate_event_chain rows' = Ok h ->
  rows = rows' \/
  exists r r', r ∈ rows /\ r' ∈ rows' /\ stored_preimage r <> stored_preimage r' /\
               sha256_hexdigest (stored_preimage r) = sha256_hexdigest (stored_preimage r').
Proof.
  revert rows' h. induction rows as [|r rows IH] using rev_ind; intros rows' h H H'.
  { destruct rows' as [|r' rows' _] using rev_ind; [by left|].
    apply head_digest_nonempty in H'. by injection H as <-. }
  destruct rows' as [|r' rows' _] using rev_ind.
  { apply head_digest_nonempty in H. by injection H' as <-. }
  apply validate_snoc in H as (p & Hp & (Hr1 & Hr2 & Hh)%validate_row_ok).
  apply validate_snoc in H' as (p' & Hp' & (Hr1' & Hr2' & Hh')%validate_row_ok).
  assert (Heq : sha256_hexdigest (stored_preimage r) = sha256_hexdigest (stored_preimage r')).
  { unfold stored_preimage. rewrite Hr1, Hr1'. cbn [default]. apply (append_inj_l "sha256:").
    change (row_expected r p = row_expected r' p'). congruence. }
  destruct (decide (stored_preimage r = stored_preimage r')) as [Hpre|Hne].
  - unfold stored_preimage in Hpre. rewrite Hr1, Hr1' in Hpre. apply event_preimage_inj in Hpre.
    cbn [default] in Hpre. injection Hpre as E1 E2 E3 E4 E5 E6 E7. cbn in E7. subst p'. clear Heq Hh Hh'.
    destruct (IH _ _ Hp Hp') as [->|(x & x' & Hx & Hx' & Hcol)].
    + left. f_equal. f_equal. destruct r, r'; cbn in *; congruence.
    + right. exists x, x'. rewrite !elem_of_app. auto.
  - right. exists r, r'. rewrite !elem_of_app, !list_elem_of_singleton. auto.
Qed.

(** Migrating a legacy table without digests keeps every row's content and
    order and yields a chain that validates; a table whose rows all carry
    digests is left alone. *)
Theorem migration_links_chain st :
  let st' := _migrate_event_chain st in
  (if forallb has_digests (l_events st) then st' = st
   else is_ok (_validate_event_chain (l_events st')) = true) /\
  ((fun r => (sequence r, run_id r, event_type r, actor r, payload r, created_at r)) <$> l_events st') =
  ((fun r => (sequence r, run_id r, event_type r, actor r, payload r, created_at r)) <$> l_events st).
Proof.
  intros st'. unfold st', _migrate_event_chain. destruct (l_events st) as [|x xs] eqn:E; [by rewrite E|].
  destruct (forallb has_digests (x :: xs)); [by rewrite E|]. cbn [l_events]. clear E.
  generalize (x :: xs) as rows. intros rows. split.
  - unfold _validate_event_chain. generalize "" as p. induction rows as [|r rows IH]; intros p; [done|].
    cbn [relink rfold]. match goal with |- context [validate_row ?a ?b] =>
      assert (Hv : validate_row a b = Ok (row_expected r p)) by (apply validate_row_ok; done) end.
    rewrite Hv. cbn. apply IH.
  - generalize "" as p. induction rows as [|r rows IH]; intros p; [done|]. cbn [relink]. rewrite !fmap_cons. f_equal. apply IH.
Qed.

(** ** Witnesses *)

Definition sample : ledger :=
  run_op (OpLessons "run-1" "builder" ["check first"] (Some 1) "t1")
    (run_op (OpAppend "run-1" "run.started" "orchestrator" (JObj [("goal", JStr "x")]) "t0") empty_ledger).

Lemma sample_reachable : reachable sample.
Proof. apply reach_step, reach_step, reach_empty. Qed.

Lemma reachable_ledger_sound_witness : reachable sample /\ ledger_ok sample.
Proof. split; [exact sample_reachable|exact (reachable_ledger_sound sample sample_reachable)]. Defined.

Lemma ledger_append_only_witness :
  l_events sample `prefix_of` l_events (run_op (OpDeleteEvents (fun _ => true)) sample).
Proof. exact (proj1 (ledger_append_only (OpDeleteEvents (fun _ => true)) sample sample_reachable)). Defined.

Lemma append_event_returns_witness :
  exists r, append_event "run-1" "run.finished" "steward" (JObj []) "t2" sample =
              (Ok 2, MkLedger (l_events sample ++ [r]) (l_lessons sample) (l_counter sample)) /\ sequence r = 2.
Proof.
  destruct (append_event_returns "run-1" "run.finished" "steward" (JObj []) "t2" sample sample_reachable)
    as (r & H & Hs & _).
  exists r. split; [exact H|exact Hs].
Defined.

Lemma ledger_tamper_evident_witness :
  l_events sample = l_events sample \/
  exists r r', r ∈ l_events sample /\ r' ∈ l_events sample /\ stored_preimage r <> stored_preimage r' /\
               sha256_hexdigest (stored_preimage r) = sha256_hexdigest (stored_preimage r').
Proof.
  exact (ledger_tamper_evident (l_events sample) (l_events sample) (head_digest (l_events sample))
           ltac:(vm_compute; reflexivity) ltac:(vm_compute; reflexivity)).
Defined.

Definition noted : list appended :=
  [Appended "run-1" "note" "builder" (JObj [("n", JInt 1)]) "t1"; Appended "run-2" "note" "builder" JNull "t2"].
Lemma events_read_back_witness :
  exists rows, events (Some "run-1") (append_all noted) = (Ok rows, append_all noted)
    /\ map seen rows = [("run-1", "note", "builder", "t1", JObj [("n", JInt 1)])].
Proof.
  apply (events_read_back noted (Some "run-1")). constructor; [|constructor; [by split|constructor]]. split; [reflexivity|].
  split; [split; [apply (AsciiJson.text_of_utf8 [110%N]); constructor; [left; lia|constructor]|exact I]|exact I].
Defined.
End Ledger.
