(* ===== verification/Policy.v ===== *)
(** * Roles, contracts and the policy engine

    [models.py] (the enumerations), [agents/*.py] and [roles.py] (the eight role
    contracts and their catalog) and [policy.py] (the fail-closed authority
    check every side effect goes through). *)

From S2P Require Import Prelude.

Module Policy.

(** ** Enumerations of [models.py] *)

Inductive Role :=
| ORCHESTRATOR | EXPLORER | ARCHITECT | BUILDER | CURATOR | OPTIMIZER | STEWARD | INTEGRATOR.

#[global] Instance Role_eq_dec : EqDecision Role.
Proof. solve_decision. Defined.

Definition role_value (r : Role) : string :=
  match r with
  | ORCHESTRATOR => "orchestrator" | EXPLORER => "explorer" | ARCHITECT => "architect"
  | BUILDER => "builder" | CURATOR => "curator" | OPTIMIZER => "optimizer"
  | STEWARD => "steward" | INTEGRATOR => "integrator"
  end.

Inductive RiskTier := LOW | MODERATE | HIGH | CRITICAL.

Inductive AutonomyLevel := OBSERVE | ADVISE | SANDBOX | REPOSITORY | DELIVERY | GOVERNED_FULL.

(** The integer of the [IntEnum] member. *)
Definition level (a : AutonomyLevel) : Z :=
  match a with OBSERVE => 0 | ADVISE => 1 | SANDBOX => 2 | REPOSITORY => 3 | DELIVERY => 4 | GOVERNED_FULL => 5 end.

(** An argument that may fail its [isinstance] test. *)
Inductive untyped (A : Type) := Typed (a : A) | Untyped.
Arguments Typed {A} a.
Arguments Untyped {A}.

(** ** Actions of [policy.py] *)

Inductive Action :=
| READ_REPOSITORY
| SEARCH_WEB
| QUERY_AGENTS
| CREATE_WORK_ITEMS
| INSPECT_HISTORY
| RUN_ANALYSIS
| MODEL_SYSTEM
| WRITE_DESIGN
| WRITE_WORKSPACE
| RUN_COMMANDS
| RUN_TESTS
| INSPECT_DIFF
| SECURITY_SCAN
| INSPECT_INTERFACES
| WRITE_ADAPTERS
| RUN_CONTRACT_TESTS
| INSPECT_RUNTIME
| MANAGE_DEPENDENCIES
| QUERY_LEDGER
| RUN_EVALUATIONS
| PROPOSE_SKILL_CHANGE
| CREATE_AGENT_VARIANT
| CREATE_BRANCH
| OPEN_PULL_REQUEST
| COMMENT_PULL_REQUEST
| MERGE_PULL_REQUEST
| DEPLOY
| MANAGE_SECRETS
| SPEND_MONEY
| SELF_REPLICATE_UNBOUNDED
| MUTATE_MISSION_CHARTER
| MUTATE_POLICY
| CONCEAL_ACTIVITY.

#[global] Instance Action_eq_dec : EqDecision Action.
Proof. solve_decision. Defined.

Definition action_value (a : Action) : string :=
  match a with
  | READ_REPOSITORY => "read_repository"
  | SEARCH_WEB => "search_web"
  | QUERY_AGENTS => "query_agents"
  | CREATE_WORK_ITEMS => "create_work_items"
  | INSPECT_HISTORY => "inspect_history"
  | RUN_ANALYSIS => "run_analysis"
  | MODEL_SYSTEM => "model_system"
  | WRITE_DESIGN => "write_design"
  | WRITE_WORKSPACE => "write_workspace"
  | RUN_COMMANDS => "run_commands"
  | RUN_TESTS => "run_tests"
  | INSPECT_DIFF => "inspect_diff"
  | SECURITY_SCAN => "security_scan"
  | INSPECT_INTERFACES => "inspect_interfaces"
  | WRITE_ADAPTERS => "write_adapters"
  | RUN_CONTRACT_TESTS => "run_contract_tests"
  | INSPECT_RUNTIME => "inspect_runtime"
  | MANAGE_DEPENDENCIES => "manage_dependencies"
  | QUERY_LEDGER => "query_ledger"
  | RUN_EVALUATIONS => "run_evaluations"
  | PROPOSE_SKILL_CHANGE => "propose_skill_change"
  | CREATE_AGENT_VARIANT => "create_agent_variant"
  | CREATE_BRANCH => "create_branch"
  | OPEN_PULL_REQUEST => "open_pull_request"
  | COMMENT_PULL_REQUEST => "comment_pull_request"
  | MERGE_PULL_REQUEST => "merge_pull_request"
  | DEPLOY => "deploy"
  | MANAGE_SECRETS => "manage_secrets"
  | SPEND_MONEY => "spend_money"
  | SELF_REPLICATE_UNBOUNDED => "self_replicate_unbounded"
  | MUTATE_MISSION_CHARTER => "mutate_mission_charter"
  | MUTATE_POLICY => "mutate_policy"
  | CONCEAL_ACTIVITY => "conceal_activity"
  end.

(** [ACTION_LEVEL] *)
Definition action_level (a : Action) : AutonomyLevel :=
  match a with
  | READ_REPOSITORY => OBSERVE
  | SEARCH_WEB => OBSERVE
  | QUERY_AGENTS => ADVISE
  | CREATE_WORK_ITEMS => ADVISE
  | INSPECT_HISTORY => OBSERVE
  | RUN_ANALYSIS => SANDBOX
  | MODEL_SYSTEM => SANDBOX
  | WRITE_DESIGN => SANDBOX
  | WRITE_WORKSPACE => SANDBOX
  | RUN_COMMANDS => SANDBOX
  | RUN_TESTS => SANDBOX
  | INSPECT_DIFF => OBSERVE
  | SECURITY_SCAN => SANDBOX
  | INSPECT_INTERFACES => OBSERVE
  | WRITE_ADAPTERS => REPOSITORY
  | RUN_CONTRACT_TESTS => SANDBOX
  | INSPECT_RUNTIME => OBSERVE
  | MANAGE_DEPENDENCIES => REPOSITORY
  | QUERY_LEDGER => OBSERVE
  | RUN_EVALUATIONS => SANDBOX
  | PROPOSE_SKILL_CHANGE => SANDBOX
  | CREATE_AGENT_VARIANT => SANDBOX
  | CREATE_BRANCH => REPOSITORY
  | OPEN_PULL_REQUEST => REPOSITORY
  | COMMENT_PULL_REQUEST => REPOSITORY
  | MERGE_PULL_REQUEST => DELIVERY
  | DEPLOY => DELIVERY
  | MANAGE_SECRETS => GOVERNED_FULL
  | SPEND_MONEY => GOVERNED_FULL
  | SELF_REPLICATE_UNBOUNDED => GOVERNED_FULL
  | MUTATE_MISSION_CHARTER => GOVERNED_FULL
  | MUTATE_POLICY => GOVERNED_FULL
  | CONCEAL_ACTIVITY => GOVERNED_FULL
  end.

Definition PROHIBITED_ACTIONS : list Action :=
  [SELF_REPLICATE_UNBOUNDED; MUTATE_MISSION_CHARTER; MUTATE_POLICY; CONCEAL_ACTIVITY].

Definition EXTERNAL_GRANT_ACTIONS : list Action :=
  [MERGE_PULL_REQUEST; DEPLOY; MANAGE_SECRETS; SPEND_MONEY].

(** ** Role contracts of [agents/*.py] *)

Record RoleContract := MkContract {
  c_role : Role;
  c_mission : string;
  c_required_outputs : list string;
  c_default_capabilities : list string;
  c_quality_gates : list string;
  c_readiness_obligations : list string
}.

Record RoleCapabilities := MkCapabilities {
  allowed_actions : list string;
  forbidden_actions : list string;
  required_outputs : list string
}.

(** [RoleCapabilities.__post_init__] *)
Definition check_capabilities (c : RoleCapabilities) : result RoleCapabilities :=
  require (bool_decide (required_outputs c <> [])) ValueError "agent capabilities require declared outputs" ;?
  require (negb (existsb (fun a => mem a (forbidden_actions c)) (allowed_actions c)))
    ValueError "agent action sets overlap" ;?
  Ok c.

Definition capabilities_allow (c : RoleCapabilities) (action : string) : bool :=
  mem action (allowed_actions c) && negb (mem action (forbidden_actions c)).

Definition orchestrator_contract : RoleContract :=
  MkContract ORCHESTRATOR
    "Translate outcomes into bounded work, coordinate specialists, and manage tradeoffs."
    ["objective decomposition"; "execution plan"; "risk register"]
    ["read_repository"; "query_agents"; "create_work_items"]
    ["acceptance criteria are testable"; "dependencies are explicit"]
    ["objective decomposition"; "budget allocation"; "stop conditions"].
Definition orchestrator_capabilities : RoleCapabilities :=
  MkCapabilities ["query_state"; "plan"; "request_human_gate"]
    ["write"; "accept"; "verify"; "merge"; "policy_change"]
    ["objective_plan"; "risk_register"; "budget_allocation"; "stop_conditions"].

Definition explorer_contract : RoleContract :=
  MkContract EXPLORER
    "Find the highest-value problems using repository, user, product, and external evidence."
    ["problem statement"; "evidence map"; "ranked opportunities"]
    ["read_repository"; "search_web"; "inspect_history"; "run_analysis"; "run_commands"]
    ["problem is evidence-backed"; "alternatives were considered"]
    ["repository inspection"; "evidence map"; "non-mutating discovery"].
Definition explorer_capabilities : RoleCapabilities :=
  MkCapabilities ["read"; "analyze"; "request_source_search"]
    ["write"; "accept"; "candidate_mutation"]
    ["evidence_map"; "candidate"; "uncertainty"].

Definition architect_contract : RoleContract :=
  MkContract ARCHITECT
    "Design scalable, secure, evolvable solutions and explicit decision records."
    ["architecture"; "interfaces"; "threat model"; "migration plan"]
    ["read_repository"; "model_system"; "write_design"]
    ["constraints are satisfied"; "failure modes are addressed"]
    ["interfaces"; "migration"; "rollback"].
Definition architect_capabilities : RoleCapabilities :=
  MkCapabilities ["read"; "propose_design_artifact"]
    ["implementation_approval"; "weaken_constraints"]
    ["architecture"; "interfaces"; "threat_model"; "rollback_plan"].

Definition builder_contract : RoleContract :=
  MkContract BUILDER
    "Implement the smallest complete change and ship it with executable verification."
    ["implementation"; "tests"; "change summary"]
    ["read_repository"; "model_system"; "write_workspace"; "run_commands"; "create_branch"; "open_pull_request"; "comment_pull_request"]
    ["tests pass"; "change is traceable to the objective"]
    ["bounded implementation"; "executable tests"; "typed effect intents"].
Definition builder_capabilities : RoleCapabilities :=
  MkCapabilities ["request_isolated_write"; "request_command"; "request_branch_commit"]
    ["accept"; "protected_branch"; "merge"; "deploy"; "modify_sealed_acceptance"]
    ["candidate"; "tests"; "change_summary"; "effect_intents"].

Definition curator_contract : RoleContract :=
  MkContract CURATOR
    "Protect quality, trust, compliance, and factual integrity."
    ["verification report"; "defect findings"; "release recommendation"]
    ["read_repository"; "write_workspace"; "run_tests"; "run_commands"; "inspect_diff"; "security_scan"]
    ["claims have evidence"; "critical regressions are absent"]
    ["exact candidate"; "independent verification"; "non-mutating review"].
Definition curator_capabilities : RoleCapabilities :=
  MkCapabilities ["read_fresh_workspace"; "request_test"; "inspect_diff"]
    ["candidate_write"; "accept"; "reuse_builder_scratchpad"]
    ["check_results"; "defect_findings"; "verdict"; "evidence_bundle"].

Definition integrator_contract : RoleContract :=
  MkContract INTEGRATOR
    "Connect systems, data, tools, and workflows through stable contracts."
    ["integration contract"; "compatibility result"; "data lineage"]
    ["inspect_interfaces"; "write_adapters"; "run_contract_tests"]
    ["contracts are versioned"; "provenance is preserved"]
    ["versioned contracts"; "compatibility"; "repair routing"].
Definition integrator_capabilities : RoleCapabilities :=
  MkCapabilities ["read"; "request_contract_test"; "request_builder_work"]
    ["write"; "merge"; "conceal_breaking_change"]
    ["compatibility_report"; "data_lineage"; "integration_result"].

Definition steward_contract : RoleContract :=
  MkContract STEWARD
    "Keep code, infrastructure, dependencies, and operational knowledge healthy."
    ["health report"; "maintenance change"; "operational runbook"]
    ["inspect_runtime"; "manage_dependencies"; "write_workspace"; "run_tests"]
    ["system remains recoverable"; "maintenance reduces measured risk"]
    ["health"; "recovery"; "operational readiness"].
Definition steward_capabilities : RoleCapabilities :=
  MkCapabilities ["read_runtime_state"; "request_recovery_test"; "propose_maintenance_work"]
    ["trade_recoverability_for_speed"]
    ["recovery_proof"; "operational_readiness"; "maintenance_findings"].

Definition optimizer_contract : RoleContract :=
  MkContract OPTIMIZER
    "Measure outcomes, run controlled experiments, and improve the system."
    ["metrics"; "experiment result"; "improvement proposal"]
    ["query_ledger"; "run_evaluations"; "run_commands"; "propose_skill_change"]
    ["improvement beats baseline"; "regressions stay within budget"]
    ["measure outcomes"; "held-out evaluation"; "challenger proposal"].
Definition optimizer_capabilities : RoleCapabilities :=
  MkCapabilities ["query_ledger"; "request_held_out_experiment"; "register_candidate"]
    ["promote"; "change_champion"; "change_dataset"; "policy_change"]
    ["comparison"; "measurement_caveats"; "promotion_recommendation"].

(** The class attributes of one direct agent implementation. *)
Record AgentType := MkAgent {
  a_role : Role;
  a_contract : RoleContract;
  a_capabilities : RoleCapabilities;
  a_next_role : option Role;
  a_requires_evaluator_mode : bool
}.

Definition AGENT_TYPES : list AgentType :=
  [MkAgent ORCHESTRATOR orchestrator_contract orchestrator_capabilities (Some EXPLORER) false;
   MkAgent EXPLORER explorer_contract explorer_capabilities (Some ARCHITECT) false;
   MkAgent ARCHITECT architect_contract architect_capabilities (Some BUILDER) false;
   MkAgent BUILDER builder_contract builder_capabilities (Some CURATOR) false;
   MkAgent CURATOR curator_contract curator_capabilities (Some INTEGRATOR) true;
   MkAgent INTEGRATOR integrator_contract integrator_capabilities (Some BUILDER) false;
   MkAgent STEWARD steward_contract steward_capabilities (Some OPTIMIZER) false;
   MkAgent OPTIMIZER optimizer_contract optimizer_capabilities None false].

Definition canonical_roles : list Role := a_role <$> AGENT_TYPES.

(** [agent_type_for], the argument already normalized by [Role(role)]. *)
Definition agent_type_for (r : Role) : result AgentType :=
  match List.find (fun a => bool_decide (a_role a = r)) AGENT_TYPES with
  | Some a => Ok a
  | None => raise ValueError ("no direct implementation is registered for " +:+ role_value r)%stdpp
  end.

(** [ROLE_CONTRACTS[role]] *)
Definition ROLE_CONTRACTS (r : Role) : result RoleContract :=
  match List.find (fun a => bool_decide (a_role a = r)) AGENT_TYPES with
  | Some a => Ok (a_contract a)
  | None => raise KeyError (role_value r)
  end.

Definition IMPLEMENTED_REPOSITORY_ROLES : list Role := [EXPLORER; BUILDER; CURATOR].
Definition all_roles : list Role :=
  [ORCHESTRATOR; EXPLORER; ARCHITECT; BUILDER; CURATOR; OPTIMIZER; STEWARD; INTEGRATOR].
Definition PLANNED_ROLES : list Role :=
  List.filter (fun r => negb (bool_decide (r ∈ IMPLEMENTED_REPOSITORY_ROLES))) all_roles.

(** ** The policy engine *)

Record PolicyDecision := MkDecision { allowed : bool; reason : string }.

(** The actions the engine leaves to the Explorer. *)
Definition explorer_actions : list Action := [READ_REPOSITORY; SEARCH_WEB; RUN_ANALYSIS; RUN_COMMANDS].

(** [PolicyEngine(autonomy).decide(role, action, risk)] *)
Definition decide_policy (autonomy : AutonomyLevel)
    (role : untyped Role) (action : untyped Action) (risk : untyped RiskTier) : result PolicyDecision :=
  match role, action, risk with
  | Untyped, _, _ => Ok (MkDecision false "invalid role identity")
  | _, Untyped, _ => Ok (MkDecision false "invalid action")
  | _, _, Untyped => Ok (MkDecision false "invalid risk tier")
  | Typed r, Typed a, Typed _ =>
      if bool_decide (a ∈ PROHIBITED_ACTIONS) then
        Ok (MkDecision false (action_value a +:+ " violates a non-delegable autonomy invariant")%stdpp)
      else
        let required := action_level a in
        if level autonomy <? level required then
          Ok (MkDecision false (action_value a +:+ " requires autonomy level " +:+ str_of_Z (level required))%stdpp)
        else if bool_decide (a ∈ EXTERNAL_GRANT_ACTIONS) then
          Ok (MkDecision false (action_value a +:+ " requires an external policy grant")%stdpp)
        else if bool_decide (r = EXPLORER) && negb (bool_decide (a ∈ explorer_actions)) then
          Ok (MkDecision false "explorer is read-only by role contract")
        else
          let? contract := ROLE_CONTRACTS r in
          if negb (mem (action_value a) (c_default_capabilities contract)) then
            Ok (MkDecision false (action_value a +:+ " is not declared for " +:+ role_value r)%stdpp)
          else Ok (MkDecision true "allowed by autonomy level and role contract")
  end.

(** Whether the engine lets the action through. *)
Definition permits (autonomy : AutonomyLevel) (r : untyped Role) (a : untyped Action) (k : untyped RiskTier) : bool :=
  match decide_policy autonomy r a k with Ok d => allowed d | Raise _ => false end.

(** ** Lemmas *)

Lemma find_role_total r : exists a, List.find (fun a => bool_decide (a_role a = r)) AGENT_TYPES = Some a /\ a_role a = r.
Proof. destruct r; by eexists. Qed.

Lemma role_contract_total r : exists c, ROLE_CONTRACTS r = Ok c /\ c_role c = r.
Proof. destruct r; by eexists. Qed.

(** ** Properties *)

(** The engine is total and fail-closed: it always returns a decision, and
    allows an action exactly when the three arguments are typed, the action is
    neither prohibited nor reserved to an external grant, the autonomy level
    reaches the action's level, an Explorer stays within its read-only set, and
    the role's contract declares the action. *)
Theorem policy_decides autonomy r a k :
  (exists d, decide_policy autonomy r a k = Ok d) /\
  (permits autonomy r a k = true <->
   exists role act tier c, r = Typed role /\ a = Typed act /\ k = Typed tier /\
     act ∉ PROHIBITED_ACTIONS /\ act ∉ EXTERNAL_GRANT_ACTIONS /\
     level (action_level act) <= level autonomy /\
     (role = EXPLORER -> act ∈ explorer_actions) /\
     ROLE_CONTRACTS role = Ok c /\ action_value act ∈ c_default_capabilities c).
Proof.
  unfold permits. destruct r as [role|], a as [act|], k as [tier|];
    try (split; [by eexists|]; split; [discriminate|by intros (? & ? & ? & ? & ? & ? & ? & _)]).
  destruct (role_contract_total role) as (c & Hc & _).
  cbn [decide_policy]. rewrite Hc. cbn [rbind].
  split; [repeat match goal with |- context [if ?b then _ else _] => destruct b end; by eexists|]. split.
  - intros H. exists role, act, tier, c.
    destruct (bool_decide (act ∈ PROHIBITED_ACTIONS)) eqn:E1; [done|].
    destruct (level autonomy <? level (action_level act)) eqn:E2; [done|].
    destruct (bool_decide (act ∈ EXTERNAL_GRANT_ACTIONS)) eqn:E3; [done|].
    destruct (bool_decide (role = EXPLORER) && _) eqn:E4; [done|].
    destruct (negb (mem _ _)) eqn:E5; [done|]. bool_hyps. apply mem_spec in E5.
    repeat split; try done. intros ->. rewrite bool_decide_eq_true_2 in E4 by done.
    cbn in E4. by bool_hyps.
  - intros (role' & act' & tier' & c' & [= <-] & [= <-] & [= <-] & H1 & H2 & H3 & H4 & H5 & H6).
    assert (c' = c) as -> by congruence. apply mem_spec in H6. rewrite H6.
    rewrite (bool_decide_eq_false_2 _ H1), (bool_decide_eq_false_2 _ H2).
    destruct (Z.ltb_spec (level autonomy) (level (action_level act))); [lia|].
    destruct (bool_decide (role = EXPLORER)) eqn:E; [|done]. bool_hyps.
    by rewrite (bool_decide_eq_true_2 _ (H4 E)).
Qed.

(** Authority grows with the autonomy level: what a level permits, every
    higher level permits too. *)
Theorem policy_monotone lo hi r a k :
  level lo <= level hi -> permits lo r a k = true -> permits hi r a k = true.
Proof.
  intros Hle H. destruct r as [r|], a as [a|], k as [k|]; try done.
  unfold permits, decide_policy in *.
  destruct (bool_decide (a ∈ PROHIBITED_ACTIONS)); [done|].
  destruct (Z.ltb_spec (level lo) (level (action_level a))); [done|].
  destruct (Z.ltb_spec (level hi) (level (action_level a))); [lia|]. exact H.
Qed.

(** Full autonomy buys nothing beyond repository autonomy: every action that
    needs a delivery or governed level is prohibited or needs an external
    grant, so no level permits an irreversible or constitutional action. *)
Theorem policy_ceiling autonomy r a k :
  permits autonomy r a k = true ->
  permits REPOSITORY r a k = true /\
  (forall act, a = Typed act ->
     act ∉ [MERGE_PULL_REQUEST; DEPLOY; MANAGE_SECRETS; SPEND_MONEY; SELF_REPLICATE_UNBOUNDED;
            MUTATE_MISSION_CHARTER; MUTATE_POLICY; CONCEAL_ACTIVITY]).
Proof.
  intros H. destruct r as [r|], a as [a|], k as [k|]; try done.
  unfold permits, decide_policy in *.
  destruct (bool_decide (a ∈ PROHIBITED_ACTIONS)) eqn:E1; [done|].
  destruct (Z.ltb_spec (level autonomy) (level (action_level a))); [done|].
  destruct (bool_decide (a ∈ EXTERNAL_GRANT_ACTIONS)) eqn:E2; [done|].
  bool_hyps. split.
  - destruct (Z.ltb_spec (level REPOSITORY) (level (action_level a))) as [Hlt|]; [|exact H].
    exfalso. destruct a; cbn in Hlt; try lia; (apply E1 || apply E2); set_solver.
  - intros act [= <-]. unfold PROHIBITED_ACTIONS, EXTERNAL_GRANT_ACTIONS in *. set_solver.
Qed.

(** The catalog is complete and coherent: the eight agents cover every role
    once, in lifecycle order, each owning the contract of its own role and a
    capability set that passes its construction check; only the Curator runs
    as an evaluator. *)
Theorem catalog_coherent :
  canonical_roles ≡ₚ all_roles /\ NoDup canonical_roles /\
  Forall (fun a => c_role (a_contract a) = a_role a /\
                   check_capabilities (a_capabilities a) = Ok (a_capabilities a) /\
                   (a_requires_evaluator_mode a = true <-> a_role a = CURATOR) /\
                   agent_type_for (a_role a) = Ok a) AGENT_TYPES /\
  PLANNED_ROLES ++ IMPLEMENTED_REPOSITORY_ROLES ≡ₚ all_roles.
Proof.
  split; [|split; [|split]].
  - apply (bool_decide_unpack _). vm_compute. exact I.
  - apply (bool_decide_unpack _). vm_compute. exact I.
  - unfold AGENT_TYPES. repeat constructor; done.
  - apply (bool_decide_unpack _). vm_compute. exact I.
Qed.

(** The Explorer contract declares [inspect_history], which the engine's
    read-only rule for the Explorer refuses at every autonomy level. *)
Theorem explorer_inspect_history_refused autonomy k :
  "inspect_history" ∈ c_default_capabilities explorer_contract /\
  permits autonomy (Typed EXPLORER) (Typed INSPECT_HISTORY) k = false.
Proof.
  split; [apply (bool_decide_unpack _); vm_compute; exact I|].
  destruct k; [|done]. unfold permits, decide_policy. by destruct autonomy.
Qed.

Lemma policy_monotone_witness :
  permits GOVERNED_FULL (Typed BUILDER) (Typed CREATE_BRANCH) (Typed LOW) = true.
Proof. exact (policy_monotone REPOSITORY GOVERNED_FULL (Typed BUILDER) (Typed CREATE_BRANCH) (Typed LOW) ltac:(cbn; lia) eq_refl). Defined.

Lemma policy_ceiling_witness :
  permits REPOSITORY (Typed BUILDER) (Typed CREATE_BRANCH) (Typed LOW) = true.
Proof. exact (proj1 (policy_ceiling GOVERNED_FULL (Typed BUILDER) (Typed CREATE_BRANCH) (Typed LOW) eq_refl)). Defined.

End Policy.
