(* ===== verification/Scheduler.v ===== *)
(** * The job scheduler

    [scheduler.py]: a SQLite job queue with token-bound leases, resource leases,
    retries with exponential backoff, and dead-lettering.  The state is the two
    tables; every method is one transaction.  Readings of the clock and the
    generated UUIDs are arguments of the operations. *)

From S2P Require Import Prelude Sha256 Canonical.
From Stdlib Require Import Ascii.

Module Scheduler.

(** ** Time

    What the scheduler asks of [float] seconds.  [tle] is the order of the
    values that are not NaN (SQLite stores NaN as NULL, which the NOT NULL
    columns refuse); [tadd] is rounded addition; [tscale d k] is
    [d * 2 ** k], [None] when the power overflows a float. *)
Class Clock (T : Type) := {
  tzero : T;
  tle : T -> T -> bool;
  tadd : T -> T -> T;
  tscale : T -> Z -> option T
}.

(** The laws used: a total preorder, and adding a non-negative delay never
    goes back in time.  They hold of IEEE doubles, rounding included. *)
Class ClockLaws (T : Type) `{Clock T} := {
  tle_trans x y z : tle x y = true -> tle y z = true -> tle x z = true;
  tle_total x y : tle x y = true \/ tle y x = true;
  tadd_ge x d : tle tzero d = true -> tle x (tadd x d) = true;
  tscale_nonneg d k x : tle tzero d = true -> tscale d k = Some x -> tle tzero x = true
}.

(** Integer ticks: exact arithmetic, no overflow. *)
#[global] Instance tick_clock : Clock Z := {
  tzero := 0;
  tle := Z.leb;
  tadd := Z.add;
  tscale d k := Some (if 0 <=? k then d * 2 ^ k else d / 2 ^ (- k))
}.

#[global] Instance tick_clock_laws : ClockLaws Z.
Proof.
  split; cbn; intros; rewrite ?Z.leb_le in *; try lia.
  destruct (Z.leb_spec 0 k); injection H0 as <-.
  - assert (0 <= 2 ^ k) by (apply Z.pow_nonneg; lia). nia.
  - apply Z.div_pos; [done|]. apply Z.pow_pos_nonneg; lia.
Qed.

Section model.
Context {T : Type} `{Clock T}.

Definition tlt (x y : T) : bool := negb (tle y x).

(** ** Data *)

Inductive job_state := Ready | Leased | Done | DeadLetter.

(** A row of [jobs]. *)
Record job := Job {
  id : string;
  kind : string;
  payload_json : string;
  payload_digest : string;
  state : job_state;
  attempts : Z;
  max_attempts : Z;
  not_before : T;
  lease_owner : option string;
  lease_token : option string;
  lease_expiry : option T;
  mission_id : option string;
  last_error : option string;
  created_at : T;
  updated_at : T
}.

(** A row of [resource_leases]. *)
Record resource_lease := ResourceLease {
  resource_id : string;
  r_job_id : string;
  r_owner : string;
  r_token : string;
  r_expiry : T;
  r_created_at : T;
  r_updated_at : T
}.

Record db := MkDb { jobs : list job; resources : list resource_lease }.

(** The scheduler's configuration. *)
Record config := MkConfig { lease_seconds : T; backoff_seconds : T }.

(** The guard of [Scheduler.__init__]. *)
Definition check_config (c : config) : result config :=
  require (negb (tle (lease_seconds c) tzero || tlt (backoff_seconds c) tzero))
    ValueError "lease must be positive and backoff cannot be negative" ;?
  Ok c.

(** ** SQL helpers *)

Definition is_ready (j : job) : bool := match state j with Ready => true | _ => false end.
Definition is_leased (j : job) : bool := match state j with Leased => true | _ => false end.

(** [lease_expiry < now], false on NULL. *)
Definition expired (now : T) (j : job) : bool :=
  match lease_expiry j with Some e => tlt e now | None => false end.

(** [state='leased' AND lease_token=? AND lease_expiry>=?] *)
Definition live_lease (token : string) (now : T) (j : job) : bool :=
  is_leased j && bool_decide (lease_token j = Some token)
  && match lease_expiry j with Some e => tle now e | None => false end.

(** [(? IS NULL OR column=?)] *)
Definition matches (sel : option string) (column : option string) : bool :=
  match sel with None => true | Some v => bool_decide (column = Some v) end.

(** The selectors of [claim]. *)
Record selector := Selector { s_kind : option string; s_mission : option string; s_job : option string }.
Definition selected (s : selector) (j : job) : bool :=
  matches (s_kind s) (Some (kind j)) && matches (s_mission s) (mission_id j) && matches (s_job s) (Some (id j)).

(** [UPDATE jobs SET ... WHERE ...] *)
Definition update_where (p : job -> bool) (f : job -> job) (l : list job) : list job :=
  map (fun j => if p j then f j else j) l.

(** [WHERE id=?] *)
Definition has_id (i : string) (j : job) : bool := String.eqb (id j) i.

(** [ORDER BY created_at,id LIMIT 1] *)
Definition job_leb (x y : job) : bool :=
  tlt (created_at x) (created_at y) || (tle (created_at x) (created_at y) && String.leb (id x) (id y)).
Fixpoint select_first (l : list job) : option job :=
  match l with
  | [] => None
  | x :: xs => match select_first xs with
               | None => Some x
               | Some y => if job_leb x y then Some x else Some y
               end
  end.

(** ** Operations *)

(** [enqueue]: [INSERT OR IGNORE], then read back by digest. *)
Definition payload_digest_of (k encoded : string) : string :=
  ("sha256:" +:+ sha256_hexdigest (k +:+ String zero encoded))%stdpp.

Definition enqueue (k : string) (payload : list (string * json)) (maxa : Z) (nb : option T)
    (mission : option string) (now : T) (uuid : string) : M db job :=
  guardM (negb (is_blank k) && (1 <=? maxa)) ValueError "job kind and positive max_attempts are required" ;*
  atomic (fun st =>
    let encoded := dumps (JObj payload) in
    let digest := payload_digest_of k encoded in
    let row := Job ("JOB-" +:+ uuid)%stdpp k encoded digest Ready 0 maxa (default now nb)
                   None None None mission None now now in
    let conflict := existsb (fun j => has_id (id row) j || String.eqb (payload_digest j) digest) (jobs st) in
    let st' := if conflict then st else MkDb (jobs st ++ [row]) (resources st) in
    match List.find (fun j => String.eqb (payload_digest j) digest) (jobs st') with
    | Some j => (Ok j, st')
    | None => (raise AssertionError "", st')
    end).

(** The transaction of [claim], statement by statement. *)

Definition lease_backed (now : T) (js : list job) (r : resource_lease) : bool :=
  existsb (fun j => String.eqb (id j) (r_job_id r) && live_lease (r_token r) now j) js.
Definition drop_stale_resources (now : T) (st : db) : db :=
  MkDb (jobs st)
       (List.filter (fun r => negb (tlt (r_expiry r) now || negb (lease_backed now (jobs st) r))) (resources st)).

Definition retire (now : T) (j : job) : job :=
  Job (id j) (kind j) (payload_json j) (payload_digest j) DeadLetter (attempts j) (max_attempts j)
      (not_before j) None None None (mission_id j)
      (Some (default "lease expired after final attempt" (last_error j))) (created_at j) now.
Definition exhausted (now : T) (s : selector) (j : job) : bool :=
  is_leased j && expired now j && (max_attempts j <=? attempts j) && selected s j.

(** The two clean-up statements at the start of the transaction. *)
Definition prepare_claim (now : T) (s : selector) (st : db) : db :=
  let st1 := drop_stale_resources now st in
  MkDb (update_where (exhausted now s) (retire now) (jobs st1)) (resources st1).

Definition claimable (now : T) (j : job) : bool :=
  (attempts j <? max_attempts j)
  && ((is_ready j && tle (not_before j) now) || (is_leased j && expired now j)).

Definition take_lease (owner token : string) (expiry now : T) (j : job) : job :=
  Job (id j) (kind j) (payload_json j) (payload_digest j) Leased (attempts j + 1) (max_attempts j)
      (not_before j) (Some owner) (Some token) (Some expiry) (mission_id j) (last_error j) (created_at j) now.

Definition insert_resource (jid owner token : string) (expiry now : T)
    (rs : list resource_lease) (r : string) : result (list resource_lease) :=
  require (negb (existsb (fun x => String.eqb (resource_id x) r) rs))
    IntegrityError "UNIQUE constraint failed: resource_leases.resource_id" ;?
  Ok (rs ++ [ResourceLease r jid owner token expiry now now]).

Definition claim (c : config) (owner : string) (s : selector) (resource_ids : list string)
    (now : T) (token : string) : M db (option job) :=
  guardM (negb (is_blank owner)) ValueError "worker owner is required" ;*
  guardM (forallb (fun r => negb (is_blank r)) resource_ids) ValueError "resource identities must be non-empty strings" ;*
  atomic (fun st0 =>
    let wanted := sorted_str (dedup resource_ids) in
    let expiry := tadd now (lease_seconds c) in
    let st2 := prepare_claim now s st0 in
    match select_first (List.filter (fun j => claimable now j && selected s j) (jobs st2)) with
    | None => (Ok None, st2)
    | Some row =>
        if existsb (fun r => mem (resource_id r) wanted && tle now (r_expiry r)) (resources st2)
        then (Ok None, st2)
        else
          let hit := fun j => has_id (id row) j && claimable now j in
          match List.find hit (jobs st2) with
          | None => (Ok None, st2)
          | Some j =>
              match rfold (insert_resource (id row) owner token expiry now) (resources st2) wanted with
              | Ok rs => (Ok (Some (take_lease owner token expiry now j)),
                          MkDb (update_where hit (take_lease owner token expiry now) (jobs st2)) rs)
              | Raise e => (Raise e, st2)
              end
          end
    end).

(** A statement on the job that holds a live lease, and one on the resources
    leased under the same token. *)
Definition on_live_lease (jid token : string) (now : T) (f : job -> job)
    (g : list resource_lease -> list resource_lease) (msg : string) : M db job :=
  fun st =>
    let hit := fun j => has_id jid j && live_lease token now j in
    match List.find hit (jobs st) with
    | Some j => (Ok (f j), MkDb (update_where hit f (jobs st)) (g (resources st)))
    | None => (raise StaleLeaseError msg, st)
    end.

Definition held_by (jid token : string) (r : resource_lease) : bool :=
  String.eqb (r_job_id r) jid && String.eqb (r_token r) token.
Definition release (jid token : string) (rs : list resource_lease) : list resource_lease :=
  List.filter (fun r => negb (held_by jid token r)) rs.

(** [COALESCE(?,mission_id)] *)
Definition coalesce {A} (x y : option A) : option A := match x with Some _ => x | None => y end.

Definition finish (st : job_state) (nb : option T) (mission err : option string) (now : T) (j : job) : job :=
  Job (id j) (kind j) (payload_json j) (payload_digest j) st (attempts j) (max_attempts j)
      (default (not_before j) nb) None None None mission err (created_at j) now.

Definition dead_letter (jid token err : string) (mission : option string) (now : T) : M db job :=
  on_live_lease jid token now
    (fun j => finish DeadLetter None (coalesce mission (mission_id j)) (Some err) now j)
    (release jid token) "dead-letter rejected for stale lease".

Definition extend_lease (expiry now : T) (j : job) : job :=
  Job (id j) (kind j) (payload_json j) (payload_digest j) (state j) (attempts j) (max_attempts j)
      (not_before j) (lease_owner j) (lease_token j) (Some expiry) (mission_id j) (last_error j) (created_at j) now.
Definition extend_resource (jid token : string) (expiry now : T) (r : resource_lease) : resource_lease :=
  if held_by jid token r
  then ResourceLease (resource_id r) (r_job_id r) (r_owner r) (r_token r) expiry (r_created_at r) now
  else r.
Definition heartbeat (c : config) (jid token : string) (now : T) : M db job :=
  let expiry := tadd now (lease_seconds c) in
  on_live_lease jid token now (extend_lease expiry now)
    (map (extend_resource jid token expiry now)) "heartbeat rejected for stale lease".

Definition complete (jid token mission : string) (now : T) : M db job :=
  on_live_lease jid token now
    (fun j => finish Done None (Some mission) (last_error j) now j)
    (release jid token) "completion rejected for stale lease".

(** [fail]: the backoff is computed before the row is written, so an overflow
    leaves the job leased. *)
Definition fail_job (c : config) (jid token err : string) (mission : option string) (now : T) : M db job :=
  atomic (fun st =>
    match List.find (has_id jid) (jobs st) with
    | None => (raise KeyError jid, st)
    | Some current =>
        if negb (live_lease token now current)
        then (raise StaleLeaseError "failure rejected for stale lease", st)
        else
          let dead := max_attempts current <=? attempts current in
          match tscale (backoff_seconds c) (attempts current - 1) with
          | None => (raise OverflowError "int too large to convert to float", st)
          | Some delay =>
              on_live_lease jid token now
                (fun j => finish (if dead then DeadLetter else Ready) (Some (tadd now delay))
                            (coalesce mission (mission_id j)) (Some err) now j)
                (release jid token) "failure rejected for stale lease" st
          end
    end).

Definition get (jid : string) : M db job :=
  fun st => match List.find (has_id jid) (jobs st) with
            | Some j => (Ok j, st)
            | None => (raise KeyError jid, st)
            end.

(** [jobs()]: every row, [ORDER BY created_at,id]. *)
Fixpoint insert_job (j : job) (l : list job) : list job :=
  match l with
  | [] => [j]
  | k :: ks => if job_leb j k then j :: k :: ks else k :: insert_job j ks
  end.
Definition list_jobs : M db (list job) :=
  fun st => (Ok (foldr insert_job [] (jobs st)), st).

(** [ManualClock.advance]; the state is the clock's value. *)
Definition advance (seconds : T) : M T unit :=
  guardM (negb (tlt seconds tzero)) ValueError "clock cannot move backwards" ;*
  (fun value => (Ok tt, tadd value seconds)).

End model.
Arguments job : clear implicits.
Arguments db : clear implicits.
Arguments config : clear implicits.
Arguments resource_lease : clear implicits.

(** ** The lifecycle of one job

    The abstract specification: the transitions a stored job may take in one
    operation. *)
Section spec.
Context {T : Type} `{Clock T}.
Implicit Types (j k : job T) (st : db T).

Inductive job_step j : job T -> Prop :=
| step_same : job_step j j
| step_claim owner token expiry now :
    claimable now j = true -> job_step j (take_lease owner token expiry now j)
| step_retire now :
    is_leased j = true -> expired now j = true -> max_attempts j <= attempts j -> job_step j (retire now j)
| step_heartbeat token expiry now :
    live_lease token now j = true -> job_step j (extend_lease expiry now j)
| step_complete token mission now :
    live_lease token now j = true ->
    job_step j (finish Done None (Some mission) (last_error j) now j)
| step_dead token nb mission err now :
    live_lease token now j = true -> job_step j (finish DeadLetter nb mission (Some err) now j)
| step_retry token nb mission err now :
    live_lease token now j = true -> attempts j < max_attempts j ->
    job_step j (finish Ready (Some nb) mission (Some err) now j).

(** Well-formed job rows: the lease columns are set exactly while leased, and
    the attempt counter stays within its budget. *)
Definition no_lease j : Prop := lease_owner j = None /\ lease_token j = None /\ lease_expiry j = None.
Definition job_ok j : Prop :=
  0 <= attempts j <= max_attempts j /\ 1 <= max_attempts j /\
  match state j with
  | Ready => attempts j < max_attempts j /\ no_lease j
  | Leased => 1 <= attempts j /\ is_Some (lease_owner j) /\ is_Some (lease_token j) /\ is_Some (lease_expiry j)
  | Done | DeadLetter => no_lease j
  end.

(** A resource lease is backed by the leased job that holds its token. *)
Definition backed (js : list (job T)) (r : resource_lease T) : Prop :=
  exists j, j ∈ js /\ id j = r_job_id r /\ state j = Leased /\
            lease_token j = Some (r_token r) /\ lease_expiry j = Some (r_expiry r).

Record db_ok st : Prop := {
  ok_ids : NoDup (id <$> jobs st);
  ok_digests : NoDup (payload_digest <$> jobs st);
  ok_jobs : Forall job_ok (jobs st);
  ok_resource_ids : NoDup (resource_id <$> resources st);
  ok_backed : Forall (backed (jobs st)) (resources st)
}.

(** ** The scheduler as a state machine *)

Inductive op :=
| OpEnqueue (k : string) (payload : list (string * json)) (maxa : Z) (nb : option T) (mission : option string) (now : T) (uuid : string)
| OpClaim (owner : string) (s : selector) (rs : list string) (now : T) (token : string)
| OpHeartbeat (jid token : string) (now : T)
| OpComplete (jid token mission : string) (now : T)
| OpFail (jid token err : string) (mission : option string) (now : T)
| OpDeadLetter (jid token err : string) (mission : option string) (now : T).

Definition run_op (c : config T) (o : op) (st : db T) : db T :=
  match o with
  | OpEnqueue k payload maxa nb mission now uuid => (enqueue k payload maxa nb mission now uuid st).2
  | OpClaim owner s rs now token => (claim c owner s rs now token st).2
  | OpHeartbeat jid token now => (heartbeat c jid token now st).2
  | OpComplete jid token mission now => (complete jid token mission now st).2
  | OpFail jid token err mission now => (fail_job c jid token err mission now st).2
  | OpDeadLetter jid token err mission now => (dead_letter jid token err mission now st).2
  end.

Inductive reachable (c : config T) : db T -> Prop :=
| reach_empty : reachable c (MkDb [] [])
| reach_step o st : reachable c st -> reachable c (run_op c o st).

(** ** Lemmas on one job *)

Lemma live_lease_spec token now j :
  live_lease token now j = true <->
  state j = Leased /\ lease_token j = Some token /\ exists e, lease_expiry j = Some e /\ tle now e = true.
Proof.
  unfold live_lease, is_leased. rewrite !andb_true_iff, bool_decide_eq_true.
  destruct (state j), (lease_expiry j); naive_solver.
Qed.

Lemma claimable_spec now j :
  claimable now j = true <->
  attempts j < max_attempts j /\
  ((state j = Ready /\ tle (not_before j) now = true) \/
   (state j = Leased /\ exists e, lease_expiry j = Some e /\ tlt e now = true)).
Proof.
  unfold claimable, is_ready, is_leased, expired.
  rewrite andb_true_iff, orb_true_iff, !andb_true_iff, Z.ltb_lt.
  destruct (state j), (lease_expiry j); naive_solver.
Qed.

Lemma job_step_static j k :
  job_step j k ->
  id k = id j /\ kind k = kind j /\ payload_json k = payload_json j /\
  payload_digest k = payload_digest j /\ max_attempts k = max_attempts j /\ created_at k = created_at j.
Proof. destruct 1; done. Qed.

Lemma job_step_ok j k : job_ok j -> job_step j k -> job_ok k.
Proof.
  intros (Ha & Hm & Hs). destruct 1 as [| ? ? ? ? Hc | ? | ? ? ? Hl | | |]; unfold job_ok in *; cbn; try done.
  - apply claimable_spec in Hc as [Hc _]. repeat split; try lia; by eexists.
  - apply live_lease_spec in Hl as (Hl & _). rewrite Hl in Hs. rewrite Hl. destruct Hs as (? & ? & ? & ?).
    repeat split; try done; try lia.
Qed.

(** Completed and dead-lettered jobs never change again. *)
Lemma job_step_terminal j k : state j = Done \/ state j = DeadLetter -> job_step j k -> k = j.
Proof.
  intros Ht. destruct 1 as [| ? ? ? ? Hc | ? Hc | ? ? ? Hl | ? ? ? Hl | ? ? ? ? ? Hl | ? ? ? ? ? Hl]; [done|..].
  - apply claimable_spec in Hc as (_ & [[Hc _]|[Hc _]]); destruct Ht; congruence.
  - unfold is_leased in Hc. destruct Ht as [Ht|Ht]; by rewrite Ht in Hc.
  - apply live_lease_spec in Hl as (Hl & _). destruct Ht; congruence.
  - apply live_lease_spec in Hl as (Hl & _). destruct Ht; congruence.
  - apply live_lease_spec in Hl as (Hl & _). destruct Ht; congruence.
  - apply live_lease_spec in Hl as (Hl & _). destruct Ht; congruence.
Qed.

(** ** Lemmas on the tables *)

Lemma update_where_step p f (l : list (job T)) :
  (forall j, j ∈ l -> p j = true -> job_step j (f j)) -> Forall2 job_step l (update_where p f l).
Proof.
  induction l as [|j l IH]; intros Hf; cbn; constructor.
  - destruct (p j) eqn:E; [apply Hf; [apply list_elem_of_here|done]|constructor].
  - apply IH. intros k Hk. apply Hf. by apply list_elem_of_further.
Qed.

Lemma job_steps_ids l l' : Forall2 job_step l l' -> id <$> l' = id <$> l.
Proof. induction 1 as [|? ? ? ? Hj]; cbn; [done|]. f_equal; [|done]. by destruct (job_step_static _ _ Hj) as (? & ? & ? & ? & ?). Qed.

Lemma job_steps_digests l l' : Forall2 job_step l l' -> payload_digest <$> l' = payload_digest <$> l.
Proof. induction 1 as [|? ? ? ? Hj]; cbn; [done|]. f_equal; [|done]. by destruct (job_step_static _ _ Hj) as (? & ? & ? & ? & ?). Qed.

Lemma job_steps_ok l l' : Forall2 job_step l l' -> Forall job_ok l -> Forall job_ok l'.
Proof. induction 1; intros Hl; [done|]. inv Hl. constructor; [by eapply job_step_ok|auto]. Qed.

Lemma elem_of_update_where p f (l : list (job T)) k :
  k ∈ update_where p f l <-> exists j, j ∈ l /\ k = if p j then f j else j.
Proof. unfold update_where. rewrite list_elem_of_In, in_map_iff. setoid_rewrite <- list_elem_of_In. naive_solver. Qed.

Lemma find_elem_of p (l : list (job T)) j : List.find p l = Some j -> j ∈ l /\ p j = true.
Proof. intros Hf. apply find_some in Hf. by rewrite list_elem_of_In. Qed.

(** The primary key: one row per identifier. *)
Lemma id_unique (l : list (job T)) j k : NoDup (id <$> l) -> j ∈ l -> k ∈ l -> id j = id k -> j = k.
Proof.
  intros Hnd Hj Hk He. apply list_elem_of_lookup in Hj as [i Hi]. apply list_elem_of_lookup in Hk as [i' Hi'].
  assert (i = i') as <-; [|congruence].
  eapply (NoDup_lookup (id <$> l)); [done|rewrite list_lookup_fmap, Hi; done|].
  rewrite list_lookup_fmap, Hi'. cbn. by rewrite He.
Qed.

Lemma has_id_eq i j : has_id i j = true <-> id j = i.
Proof. unfold has_id. apply String.eqb_eq. Qed.

(** Assembling the invariant after an operation that only steps jobs. *)
Lemma db_ok_steps st l' rs :
  db_ok st -> Forall2 job_step (jobs st) l' ->
  NoDup (resource_id <$> rs) -> Forall (backed l') rs -> db_ok (MkDb l' rs).
Proof.
  intros [Hi Hd Hj Hr Hb] Hs Hrs Hbs. split; cbn [jobs resources]; try done.
  - by rewrite (job_steps_ids _ _ Hs).
  - by rewrite (job_steps_digests _ _ Hs).
  - by eapply job_steps_ok.
Qed.

Lemma NoDup_filter_resources p (rs : list (resource_lease T)) :
  NoDup (resource_id <$> rs) -> NoDup (resource_id <$> List.filter p rs).
Proof.
  induction rs as [|r rs IH]; cbn; [done|]. rewrite NoDup_cons. intros [Hr Hnd].
  destruct (p r); cbn; [|auto]. constructor; [|auto].
  intros Hin. apply Hr. apply list_elem_of_fmap in Hin as (x & Hx & Hin). rewrite Hx.
  apply list_elem_of_In, filter_In in Hin as [Hin _]. apply list_elem_of_fmap_2. by apply list_elem_of_In.
Qed.

Lemma Forall_filter_resources (P : resource_lease T -> Prop) p rs :
  (forall r, r ∈ rs -> p r = true -> P r) -> Forall P (List.filter p rs).
Proof.
  intros HP. apply Forall_forall. intros r Hr. apply list_elem_of_In, filter_In in Hr as [Hr Hp].
  apply HP; [by apply list_elem_of_In|done].
Qed.
End spec.

Section operations.
Context {T : Type} `{Clock T}.
Implicit Types (j k : job T) (st : db T).

Lemma on_live_lease_cases jid token now f g msg st :
  (exists j, j ∈ jobs st /\ id j = jid /\ live_lease token now j = true /\
     on_live_lease jid token now f g msg st =
       (Ok (f j), MkDb (update_where (fun j => has_id jid j && live_lease token now j) f (jobs st)) (g (resources st)))) \/
  ((forall j, j ∈ jobs st -> id j = jid -> live_lease token now j = false) /\
   on_live_lease jid token now f g msg st = (raise StaleLeaseError msg, st)).
Proof.
  unfold on_live_lease. destruct (List.find _ (jobs st)) as [j|] eqn:E.
  - left. apply find_elem_of in E as [Hj Hp]. bool_hyps. apply has_id_eq in H0. by exists j.
  - right. split; [|done]. intros j Hj Hid. apply list_elem_of_In in Hj.
    assert (Hn := find_none _ _ E j Hj). cbn in Hn. apply has_id_eq in Hid. by rewrite Hid in Hn.
Qed.

(** Rows untouched by an update keep backing their resource leases. *)
Lemma backed_untouched p f (l : list (job T)) r :
  backed l r ->
  (forall j, j ∈ l -> id j = r_job_id r -> state j = Leased -> lease_token j = Some (r_token r) ->
             lease_expiry j = Some (r_expiry r) -> p j = false) ->
  backed (update_where p f l) r.
Proof.
  intros (j & Hj & Hi & Hs & Ht & He) Hp. exists j. repeat split; try done.
  apply elem_of_update_where. exists j. split; [done|]. by rewrite Hp.
Qed.

Lemma release_ok jid token now f st :
  db_ok st -> (forall j, j ∈ jobs st -> id j = jid -> live_lease token now j = true -> job_step j (f j)) ->
  db_ok (MkDb (update_where (fun j => has_id jid j && live_lease token now j) f (jobs st)) (release jid token (resources st))).
Proof.
  intros Hok Hf. eapply db_ok_steps; [exact Hok| |apply NoDup_filter_resources, Hok|].
  - apply update_where_step. intros j Hj Hp. bool_hyps. apply has_id_eq in H0. by apply Hf.
  - apply Forall_filter_resources. intros r Hr Hh. bool_hyps.
    apply backed_untouched; [by eapply Forall_forall in Hr; [|apply Hok]|].
    intros j Hj Hi Hs Ht _. apply not_true_is_false. intros Hp. bool_hyps.
    apply has_id_eq in H0. apply live_lease_spec in H1 as (_ & Ht' & _).
    unfold held_by in Hh. rewrite <- Hi, H0, String.eqb_refl in Hh. cbn in Hh.
    apply String.eqb_neq in Hh. apply Hh. congruence.
Qed.

Lemma on_live_release_ok jid token now f msg st :
  db_ok st -> (forall j, j ∈ jobs st -> id j = jid -> live_lease token now j = true -> job_step j (f j)) ->
  db_ok (on_live_lease jid token now f (release jid token) msg st).2 /\
  Forall2 job_step (jobs st) (jobs (on_live_lease jid token now f (release jid token) msg st).2).
Proof.
  intros Hok Hf.
  destruct (on_live_lease_cases jid token now f (release jid token) msg st) as [(j & Hj & Hi & Hl & ->)|[_ ->]]; cbn [snd].
  - split; [by apply release_ok|]. apply update_where_step. intros k Hk Hp. bool_hyps.
    apply has_id_eq in H0. by apply Hf.
  - split; [done|]. by apply Forall_Forall2_diag, Forall_true; constructor.
Qed.

Lemma heartbeat_ok c jid token now st :
  db_ok st -> db_ok (heartbeat c jid token now st).2 /\ Forall2 job_step (jobs st) (jobs (heartbeat c jid token now st).2).
Proof.
  intros Hok. unfold heartbeat. set (expiry := tadd now (lease_seconds c)).
  destruct (on_live_lease_cases jid token now (extend_lease expiry now) (map (extend_resource jid token expiry now))
              "heartbeat rejected for stale lease" st) as [(j & Hj & Hi & Hl & ->)|[_ ->]]; cbn [snd];
    [|split; [done|]; by apply Forall_Forall2_diag, Forall_true; constructor].
  assert (Hs : Forall2 job_step (jobs st) (update_where (fun j => has_id jid j && live_lease token now j) (extend_lease expiry now) (jobs st))).
  { apply update_where_step. intros k Hk Hp. bool_hyps. by eapply step_heartbeat. }
  split; [|exact Hs]. eapply db_ok_steps; [exact Hok|exact Hs| |].
  - change (map ?f) with (fmap (M:=list) f). rewrite <- list_fmap_compose.
    rewrite (list_fmap_ext _ resource_id); [apply Hok|]. intros i r _. cbn. unfold extend_resource.
    by destruct (held_by jid token r).
  - apply Forall_map, Forall_forall. intros r Hr. assert (Hb := ok_backed _ Hok). rewrite Forall_forall in Hb.
    specialize (Hb r Hr). unfold extend_resource. destruct (held_by jid token r) eqn:E.
    + unfold held_by in E. bool_hyps. destruct Hb as (k & Hk & Hki & Hks & Hkt & Hke).
      assert (k = j) as -> by (eapply id_unique; [apply Hok|done|done|congruence]).
      exists (extend_lease expiry now j). repeat split; try done.
      apply elem_of_update_where. exists j. split; [done|].
      rewrite Hl. by rewrite (proj2 (has_id_eq _ _) Hi).
    + apply backed_untouched; [done|]. intros k Hk Hki Hks Hkt _.
      apply not_true_is_false. intros Hp. bool_hyps. apply has_id_eq in H0.
      apply live_lease_spec in H1 as (_ & Ht & _). unfold held_by in E.
      assert (String.eqb (r_job_id r) jid = true) as E1 by (apply String.eqb_eq; congruence).
      rewrite E1 in E. cbn in E. apply String.eqb_neq in E. congruence.
Qed.

Lemma fail_job_ok c jid token err mission now st :
  db_ok st -> db_ok (fail_job c jid token err mission now st).2 /\
  Forall2 job_step (jobs st) (jobs (fail_job c jid token err mission now st).2).
Proof.
  intros Hok. unfold fail_job, atomic.
  assert (Hrefl : Forall2 job_step (jobs st) (jobs st)) by by apply Forall_Forall2_diag, Forall_true; constructor.
  destruct (List.find (has_id jid) (jobs st)) as [j|] eqn:E; [|done].
  apply find_elem_of in E as [Hj Hid]. apply has_id_eq in Hid.
  destruct (live_lease token now j) eqn:Hl; cbn [negb]; [|done].
  destruct (tscale _ _) as [delay|]; [|done].
  match goal with |- context [on_live_lease jid token now ?f ?g ?msg st] =>
    assert (Hf : forall k, k ∈ jobs st -> id k = jid -> live_lease token now k = true -> job_step k (f k));
      [|destruct (on_live_release_ok jid token now f msg st Hok Hf) as [H1 H2];
        destruct (on_live_lease jid token now f g msg st) as [[?|?] ?]; done]
  end.
  intros k Hk Hki Hkl. assert (k = j) as -> by (eapply id_unique; [apply Hok|done|done|congruence]).
  destruct (Z.leb_spec (max_attempts j) (attempts j)); [by eapply step_dead|by eapply step_retry].
Qed.
End operations.

Section claiming.
Context {T : Type} `{Clock T}.
Implicit Types (j k : job T) (st : db T).

Lemma select_first_elem l j : select_first l = Some j -> j ∈ l.
Proof.
  revert j. induction l as [|x l IH]; intros j Hs; cbn in *; [done|].
  destruct (select_first l) as [y|]; [destruct (job_leb x y)|]; simplify_eq; rewrite elem_of_cons; auto.
Qed.

Lemma select_first_none l : select_first l = None <-> l = [].
Proof. destruct l as [|x l]; [done|]. cbn. destruct (select_first l) as [y|]; [destruct (job_leb x y)|]; done. Qed.

(** A resource lease that survives the clean-up is held by a live lease. *)
Lemma prepared_resource now s st r :
  db_ok st -> r ∈ resources (prepare_claim now s st) ->
  r ∈ resources st /\ tle now (r_expiry r) = true /\
  exists j, j ∈ jobs st /\ id j = r_job_id r /\ state j = Leased /\
            lease_token j = Some (r_token r) /\ lease_expiry j = Some (r_expiry r).
Proof.
  intros Hok Hr. cbn in Hr. apply list_elem_of_In, filter_In in Hr as [Hr Hk]. apply list_elem_of_In in Hr.
  bool_hyps. unfold tlt in *. bool_hyps. split; [done|]. split; [done|].
  assert (Hb := ok_backed _ Hok). rewrite Forall_forall in Hb. by apply Hb.
Qed.

Lemma not_expired now j e : lease_expiry j = Some e -> tle now e = true -> expired now j = false.
Proof. intros He Ht. unfold expired, tlt. by rewrite He, Ht. Qed.

Lemma claimable_not_live now j e :
  claimable now j = true -> state j = Leased -> lease_expiry j = Some e -> tle now e = true -> False.
Proof.
  intros Hc Hs He Ht. apply claimable_spec in Hc as (_ & [[? _]|(_ & e' & He' & Hlt)]); [congruence|].
  unfold tlt in Hlt. simplify_eq. by rewrite Ht in Hlt.
Qed.

Lemma prepare_steps now s st : Forall2 job_step (jobs st) (jobs (prepare_claim now s st)).
Proof.
  cbn. apply update_where_step. intros j _ Hp. unfold exhausted in Hp. bool_hyps. by apply step_retire.
Qed.

Lemma prepare_ok now s st : db_ok st -> db_ok (prepare_claim now s st).
Proof.
  intros Hok. eapply db_ok_steps; [done|apply prepare_steps|apply NoDup_filter_resources, Hok|].
  apply Forall_forall. intros r Hr. destruct (prepared_resource now s st r Hok Hr) as (Hr' & Ht & Hb).
  apply backed_untouched; [exact Hb|]. intros j _ _ _ _ He. unfold exhausted.
  rewrite (not_expired now j _ He Ht). by rewrite andb_false_r.
Qed.

Lemma insert_resources jid owner token expiry now (rs : list (resource_lease T)) wanted :
  NoDup wanted -> (forall r, r ∈ rs -> resource_id r ∉ wanted) ->
  rfold (insert_resource jid owner token expiry now) rs wanted =
  Ok (rs ++ ((fun w => ResourceLease w jid owner token expiry now now) <$> wanted)).
Proof.
  revert rs. induction wanted as [|w ws IH]; intros rs Hnd Hdis; cbn [rfold]; [by rewrite app_nil_r|].
  apply NoDup_cons in Hnd as [Hw Hnd].
  assert (Hx : existsb (fun x => String.eqb (resource_id x) w) rs = false).
  { apply not_true_is_false. intros Hx. apply existsb_exists in Hx as (x & Hx & He). bool_hyps.
    apply (Hdis x); [by apply list_elem_of_In|]. rewrite He. apply list_elem_of_here. }
  unfold insert_resource at 1. rewrite Hx. cbn. rewrite IH; [by rewrite <- app_assoc|done|].
  intros r Hr. apply elem_of_app in Hr as [Hr|Hr].
  - specialize (Hdis r Hr). rewrite not_elem_of_cons in Hdis. tauto.
  - apply list_elem_of_singleton in Hr. by subst r.
Qed.

Definition wanted_resources (rs : list string) : list string := sorted_str (dedup rs).

Lemma wanted_nodup rs : NoDup (wanted_resources rs).
Proof. unfold wanted_resources, sorted_str. rewrite sorted_by_perm. apply NoDup_dedup. Qed.

Definition claim_guards (owner : string) (rs : list string) : bool :=
  negb (is_blank owner) && forallb (fun r => negb (is_blank r)) rs.

(** The jobs a claim may choose from. *)
Definition eligible (s : selector) now st : list (job T) :=
  List.filter (fun j => claimable now j && selected s j) (jobs (prepare_claim now s st)).

(** Every outcome of [claim]. *)
Lemma claim_cases c owner s rs now token st :
  db_ok st ->
  let st2 := prepare_claim now s st in
  let expiry := tadd now (lease_seconds c) in
  (claim_guards owner rs = false /\ exists e, claim c owner s rs now token st = (Raise e, st)) \/
  (claim_guards owner rs = true /\
   (eligible s now st = [] \/ exists r, r ∈ resources st2 /\ resource_id r ∈ wanted_resources rs) /\
   claim c owner s rs now token st = (Ok None, st2)) \/
  (claim_guards owner rs = true /\
   exists j, select_first (eligible s now st) = Some j /\ j ∈ jobs st2 /\ claimable now j = true /\ selected s j = true /\
     (forall r, r ∈ resources st2 -> resource_id r ∉ wanted_resources rs) /\
     claim c owner s rs now token st =
       (Ok (Some (take_lease owner token expiry now j)),
        MkDb (update_where (fun k => has_id (id j) k && claimable now k) (take_lease owner token expiry now) (jobs st2))
             (resources st2 ++ ((fun w => ResourceLease w (id j) owner token expiry now now) <$> wanted_resources rs)))).
Proof.
  intros Hok st2 expiry. unfold claim, bindM, guardM, liftR, claim_guards, require.
  destruct (is_blank owner); cbn [negb andb]; [left; split; [done|by eexists]|].
  destruct (forallb _ rs); [|left; split; [done|by eexists]].
  right. unfold atomic. cbv zeta. fold (eligible s now st). fold st2. fold expiry. fold (wanted_resources rs).
  destruct (select_first (eligible s now st)) as [j|] eqn:Es.
  2: { left. apply select_first_none in Es. split; [done|]. split; [by left|done]. }
  assert (Hj := select_first_elem _ _ Es). apply list_elem_of_In, filter_In in Hj as [Hj Hp].
  apply list_elem_of_In in Hj. bool_hyps.
  destruct (existsb _ (resources st2)) eqn:Ec.
  { left. split; [done|]. split; [|done]. right. apply existsb_exists in Ec as (r & Hr & Hc).
    bool_hyps. exists r. rewrite list_elem_of_In. split; [done|by apply mem_spec]. }
  right. split; [done|]. exists j.
  assert (Hdis : forall r, r ∈ resources st2 -> resource_id r ∉ wanted_resources rs).
  { intros r Hr Hw. destruct (prepared_resource now s st r Hok Hr) as (_ & Ht & _).
    assert (Hx : existsb (fun r => mem (resource_id r) (wanted_resources rs) && tle now (r_expiry r)) (resources st2) = true).
    { apply existsb_exists. exists r. rewrite <- list_elem_of_In, Ht, andb_true_r. split; [done|by apply mem_spec]. }
    congruence. }
  repeat split; try done.
  destruct (List.find _ (jobs st2)) as [k|] eqn:Ef.
  - apply find_elem_of in Ef as [Hk Hkp]. bool_hyps. apply has_id_eq in H2.
    assert (k = j) as -> by (eapply id_unique; [apply (ok_ids _ (prepare_ok now s st Hok))|done|done|done]).
    rewrite insert_resources; [done|apply wanted_nodup|done].
  - apply list_elem_of_In in Hj. assert (Hn := find_none _ _ Ef j Hj). cbn in Hn.
    rewrite (proj2 (has_id_eq _ _) eq_refl), H0 in Hn. done.
Qed.

Lemma claim_ok c owner s rs now token st :
  db_ok st -> db_ok (claim c owner s rs now token st).2 /\
  Forall2 job_step (jobs st) (jobs (claim c owner s rs now token st).2).
Proof.
  intros Hok. assert (Hok2 := prepare_ok now s st Hok). assert (Hst := prepare_steps now s st).
  destruct (claim_cases c owner s rs now token st Hok)
    as [[_ [e ->]]|[(_ & _ & ->)|(_ & j & _ & Hj & Hc & _ & Hdis & ->)]]; cbn [snd]; [|done|].
  { split; [done|]. by apply Forall_Forall2_diag, Forall_true; constructor. }
  set (take := take_lease owner token (tadd now (lease_seconds c)) now).
  set (hit := fun k => has_id (id j) k && claimable now k).
  assert (Hs2 : Forall2 job_step (jobs (prepare_claim now s st)) (update_where hit take (jobs (prepare_claim now s st)))).
  { apply update_where_step. intros k _ Hp. unfold hit in Hp. bool_hyps. by apply step_claim. }
  split.
  - eapply db_ok_steps; [exact Hok2|exact Hs2| |].
    + rewrite fmap_app, <- list_fmap_compose. apply NoDup_app. split; [apply Hok2|]. split.
      * intros x Hx Hw. apply list_elem_of_fmap in Hx as (r & -> & Hr). apply (Hdis r Hr).
        by rewrite list_fmap_id in Hw.
      * rewrite list_fmap_id. apply wanted_nodup.
    + apply Forall_app. split.
      * apply Forall_forall. intros r Hr. assert (Hb := ok_backed _ Hok2). rewrite Forall_forall in Hb.
        apply backed_untouched; [by apply Hb|]. intros k _ _ Hk _ He. unfold hit.
        destruct (prepared_resource now s st r Hok Hr) as (_ & Ht & _).
        apply not_true_is_false. intros Hp. bool_hyps. by apply (claimable_not_live now k (r_expiry r)) in H1.
      * apply Forall_fmap, Forall_forall. intros w _. exists (take j). repeat split; try done.
        apply elem_of_update_where. exists j. split; [done|]. unfold hit.
        by rewrite (proj2 (has_id_eq _ _) eq_refl), Hc.
  - cbn [jobs]. change (jobs (prepare_claim now s st)) with (update_where (exhausted now s) (retire now) (jobs st)).
    clear. generalize (jobs st) as l. induction l as [|k l IH]; cbn; constructor; [|exact IH].
    destruct (exhausted now s k) eqn:E; unfold exhausted in E; bool_hyps.
    + replace (hit (retire now k)) with false by (unfold hit, claimable; cbn; by rewrite !andb_false_r).
      by apply step_retire.
    + destruct (hit k) eqn:Eh; [|constructor]. unfold hit in Eh. bool_hyps. by apply step_claim.
Qed.
End claiming.

Section theorems.
Context {T : Type} `{Clock T}.
Implicit Types (j k : job T) (st : db T) (c : config T).

(** The row [enqueue] would insert. *)
Definition fresh_job (knd : string) (payload : list (string * json)) (maxa : Z) (nb : option T)
    (mission : option string) (now : T) (uuid : string) : job T :=
  Job ("JOB-" +:+ uuid)%stdpp knd (dumps (JObj payload)) (payload_digest_of knd (dumps (JObj payload)))
      Ready 0 maxa (default now nb) None None None mission None now now.

Lemma enqueue_cases knd payload maxa nb mission now uuid st :
  let row := fresh_job knd payload maxa nb mission now uuid in
  let res := enqueue knd payload maxa nb mission now uuid st in
  (exists e, res = (Raise e, st)) \/
  (1 <= maxa /\ exists j, j ∈ jobs st /\ payload_digest j = payload_digest row /\ res = (Ok j, st)) \/
  (1 <= maxa /\ (forall j, j ∈ jobs st -> payload_digest j <> payload_digest row /\ id j <> id row) /\
   res = (Ok row, MkDb (jobs st ++ [row]) (resources st))).
Proof.
  intros row res. unfold res, enqueue, bindM, guardM, liftR, require.
  destruct (negb (is_blank knd) && (1 <=? maxa)) eqn:Eg; [|left; by eexists]. bool_hyps. unfold atomic.
  change (Job _ _ _ _ Ready 0 _ _ _ _ _ _ _ _ _) with row.
  change (payload_digest_of knd _) with (payload_digest row).
  destruct (existsb _ (jobs st)) eqn:Ec.
  - destruct (List.find _ (jobs st)) as [j|] eqn:Ef; [|left; by eexists].
    right. left. apply find_elem_of in Ef as [Hj Hd]. bool_hyps. split; [done|]. by exists j.
  - right. right. split; [done|].
    assert (Hfree : forall j, j ∈ jobs st -> payload_digest j <> payload_digest row /\ id j <> id row).
    { intros j Hj. apply list_elem_of_In in Hj.
      assert (Hx : has_id (id row) j || String.eqb (payload_digest j) (payload_digest row) = false).
      { apply not_true_is_false. intros Hx. enough (existsb (fun j => has_id (id row) j || String.eqb (payload_digest j) (payload_digest row)) (jobs st) = true) by congruence.
        apply existsb_exists. by exists j. }
      bool_hyps. split; [done|]. unfold has_id in *. by bool_hyps. }
    split; [done|].
    cbn [jobs]. destruct (List.find _ (jobs st ++ [row])) as [j|] eqn:Ef.
    + apply find_elem_of in Ef as [Hj Hd]. bool_hyps. apply elem_of_app in Hj as [Hj|Hj].
      * by apply Hfree in Hj as [Hj _].
      * apply list_elem_of_singleton in Hj. by subst.
    + exfalso. assert (Hn := find_none _ _ Ef row). cbn in Hn. rewrite String.eqb_refl in Hn.
      discriminate Hn. apply in_app_iff. right. by left.
Qed.

Lemma enqueue_ok knd payload maxa nb mission now uuid st :
  db_ok st ->
  let st' := (enqueue knd payload maxa nb mission now uuid st).2 in
  db_ok st' /\ exists new, jobs st' = jobs st ++ new /\
    Forall (fun j => state j = Ready /\ attempts j = 0) new.
Proof.
  intros Hok st'. unfold st'.
  destruct (enqueue_cases knd payload maxa nb mission now uuid st)
    as [[e ->]|[(_ & j & _ & _ & ->)|(Hm & Hf & ->)]]; cbn [snd];
    [split; [done|]; exists []; by rewrite app_nil_r..|].
  split; [|eexists; split; [done|]; by repeat constructor].
  destruct Hok as [Hi Hd Hj Hr Hb]. split; cbn [jobs resources].
  - rewrite fmap_app. apply NoDup_app. split; [done|]. split; [|apply NoDup_singleton].
    intros x Hx Hx'. apply list_elem_of_fmap in Hx as (j & -> & Hx). apply list_elem_of_singleton in Hx'.
    by apply Hf in Hx as [_ Hx].
  - rewrite fmap_app. apply NoDup_app. split; [done|]. split; [|apply NoDup_singleton].
    intros x Hx Hx'. apply list_elem_of_fmap in Hx as (j & -> & Hx). apply list_elem_of_singleton in Hx'.
    by apply Hf in Hx as [Hx _].
  - apply Forall_app. split; [done|]. constructor; [|constructor]. unfold job_ok. cbn. repeat split; lia.
  - done.
  - eapply Forall_impl; [exact Hb|]. intros r (j & Hx & ?). exists j. rewrite elem_of_app. auto.
Qed.

Lemma sched_run_op_ok c o st :
  db_ok st ->
  db_ok (run_op c o st) /\
  exists old new, jobs (run_op c o st) = old ++ new /\ Forall2 job_step (jobs st) old /\
                  Forall (fun j => state j = Ready /\ attempts j = 0) new.
Proof.
  intros Hok.
  assert (Hlift : forall st', db_ok st' /\ Forall2 job_step (jobs st) (jobs st') ->
    db_ok st' /\ exists old new, jobs st' = old ++ new /\ Forall2 job_step (jobs st) old /\
                  Forall (fun j => state j = Ready /\ attempts j = 0) new).
  { intros st' [H1 H2]. split; [done|]. exists (jobs st'), []. by rewrite app_nil_r. }
  destruct o; cbn [run_op].
  - destruct (enqueue_ok k payload maxa nb mission now uuid st Hok) as (H1 & new & H2 & H3).
    split; [done|]. exists (jobs st), new. split; [done|]. split; [|done].
    by apply Forall_Forall2_diag, Forall_true; constructor.
  - by apply Hlift, claim_ok.
  - by apply Hlift, heartbeat_ok.
  - apply Hlift. unfold complete. apply on_live_release_ok; [done|]. intros j _ _ Hl. by eapply step_complete.
  - by apply Hlift, fail_job_ok.
  - apply Hlift. unfold dead_letter. apply on_live_release_ok; [done|]. intros j _ _ Hl. by eapply step_dead.
Qed.

Lemma sched_reachable_ok c st : reachable c st -> db_ok st.
Proof. induction 1; [|by apply sched_run_op_ok]. split; cbn; constructor. Qed.

(** C12: in every reachable queue, job identifiers and payload digests are
    unique, the attempt counter never exceeds its budget, lease columns are set
    exactly while a job is leased, each resource is leased at most once, and
    every resource lease is backed by the leased job that holds its token and
    shares its expiry. *)
Theorem scheduler_invariant c st : reachable c st -> db_ok st.
Proof. apply sched_reachable_ok. Qed.

(** Refinement of the job lifecycle: whatever operation runs, each stored job
    takes one lifecycle transition or stays as it is, no job disappears, and a
    new job starts ready with no attempts. *)
Theorem scheduler_refines_lifecycle c o st :
  reachable c st ->
  exists old new, jobs (run_op c o st) = old ++ new /\ Forall2 job_step (jobs st) old /\
                  Forall (fun j => state j = Ready /\ attempts j = 0) new.
Proof. intros Hr. apply sched_run_op_ok. by eapply sched_reachable_ok. Qed.

(** A job that is done or dead-lettered is never modified again. *)
Theorem terminal_jobs_are_final c o st j :
  reachable c st -> j ∈ jobs st -> state j = Done \/ state j = DeadLetter -> j ∈ jobs (run_op c o st).
Proof.
  intros Hr Hj Ht. destruct (sched_run_op_ok c o st (sched_reachable_ok _ _ Hr)) as (_ & old & new & -> & Hs & _).
  apply list_elem_of_lookup in Hj as [i Hi]. destruct (Forall2_lookup_l _ _ _ _ _ Hs Hi) as (k & Hk & Hjk).
  apply job_step_terminal in Hjk as ->; [|done].
  apply elem_of_app. left. by eapply list_elem_of_lookup_2.
Qed.

(** C34: [claim] never fails on a reachable queue once its arguments pass: it
    returns [None] only when nothing is eligible or a wanted resource is leased,
    and otherwise the first eligible job in creation order; that job was
    ready and due or its lease had expired, and it is stored as returned, with
    the caller's token, one more attempt within budget, and all wanted
    resources leased to it. *)
Theorem claim_correct c owner s rs now token st :
  reachable c st -> claim_guards owner rs = true ->
  let st' := (claim c owner s rs now token st).2 in
  match (claim c owner s rs now token st).1 with
  | Raise _ => False
  | Ok None => eligible s now st = [] \/
               exists r, r ∈ resources st /\ tle now (r_expiry r) = true /\ resource_id r ∈ wanted_resources rs
  | Ok (Some j') =>
      exists j, select_first (eligible s now st) = Some j /\ claimable now j = true /\
        j' = take_lease owner token (tadd now (lease_seconds c)) now j /\ j' ∈ jobs st' /\
        attempts j' <= max_attempts j' /\
        (forall w, w ∈ rs -> exists r, r ∈ resources st' /\ resource_id r = w /\ r_job_id r = id j' /\ r_token r = token)
  end.
Proof.
  intros Hr Hg. assert (Hok := sched_reachable_ok _ _ Hr). cbv zeta.
  destruct (claim_cases c owner s rs now token st Hok)
    as [[Hg' _]|[(_ & Hn & ->)|(_ & j & Hj & Hjin & Hc & _ & _ & ->)]]; cbn [fst snd]; [congruence| |].
  - destruct Hn as [?|(r & Hr' & Hw)]; [by left|right].
    destruct (prepared_resource now s st r Hok Hr') as (? & ? & _). eauto.
  - exists j. split; [done|]. split; [done|]. split; [done|]. split.
    { apply elem_of_update_where. exists j. split; [done|]. by rewrite (proj2 (has_id_eq _ _) eq_refl), Hc. }
    split; [cbn; apply claimable_spec in Hc; lia|].
    intros w Hw. exists (ResourceLease w (id j) owner token (tadd now (lease_seconds c)) now now).
    split; [|done]. cbn [resources]. apply elem_of_app. right.
    apply list_elem_of_fmap. exists w. split; [done|]. unfold wanted_resources, sorted_str.
    by rewrite elem_of_sorted_by, elem_of_dedup.
Qed.

(** A worker that lost its lease cannot change anything: heartbeat,
    completion, failure and dead-lettering with a token that holds no live
    lease raise and leave both tables untouched. *)
Theorem stale_lease_rejected c jid token now st :
  (forall j, j ∈ jobs st -> id j = jid -> live_lease token now j = false) ->
  (exists e, heartbeat c jid token now st = (Raise e, st) /\ exc_cls e = StaleLeaseError) /\
  (forall mission, exists e, complete jid token mission now st = (Raise e, st) /\ exc_cls e = StaleLeaseError) /\
  (forall err mission, exists e, dead_letter jid token err mission now st = (Raise e, st) /\ exc_cls e = StaleLeaseError) /\
  (forall err mission, exists e, fail_job c jid token err mission now st = (Raise e, st) /\
                                 (exc_cls e = StaleLeaseError \/ exc_cls e = KeyError)).
Proof.
  intros Hs.
  assert (Hlive : forall f g msg, on_live_lease jid token now f g msg st = (raise StaleLeaseError msg, st)).
  { intros f g msg. destruct (on_live_lease_cases jid token now f g msg st) as [(j & Hj & Hi & Hl & _)|[_ ->]]; [|done].
    by rewrite (Hs j Hj Hi) in Hl. }
  unfold heartbeat, complete, dead_letter. setoid_rewrite Hlive.
  repeat split; try (intros; by eexists).
  intros err mission. unfold fail_job, atomic. destruct (List.find (has_id jid) (jobs st)) as [j|] eqn:E; [|eexists; split; [done|by right]].
  apply find_elem_of in E as [Hj Hi]. apply has_id_eq in Hi. rewrite (Hs j Hj Hi). eexists. split; [done|by left].
Qed.

(** Enqueueing is idempotent: repeating an accepted request, at any later
    time and with any new identifier, returns the stored job and changes
    nothing. *)
Theorem enqueue_idempotent c knd payload maxa nb mission now uuid st j st' maxa' nb' mission' now' uuid' :
  reachable c st ->
  enqueue knd payload maxa nb mission now uuid st = (Ok j, st') -> 1 <= maxa' ->
  enqueue knd payload maxa' nb' mission' now' uuid' st' = (Ok j, st').
Proof.
  intros Hst He Hm.
  assert (Hok := sched_reachable_ok _ _ Hst).
  assert (Hok' : db_ok st') by (destruct (enqueue_ok knd payload maxa nb mission now uuid st Hok) as [Hx _]; by rewrite He in Hx).
  assert (Hj : j ∈ jobs st' /\ payload_digest j = payload_digest_of knd (dumps (JObj payload))).
  { destruct (enqueue_cases knd payload maxa nb mission now uuid st) as [[e Hx]|[(_ & k & Hk & Hd & Hx)|(_ & _ & Hx)]];
      rewrite Hx in He; simplify_eq; cbn; [done|].
    split; [|done]. apply elem_of_app. right. by apply list_elem_of_singleton. }
  destruct Hj as [Hj Hd].
  unfold enqueue, bindM, guardM, liftR, require in He |- *.
  destruct (is_blank knd); [done|]. cbn [negb andb] in *.
  destruct (Z.leb_spec 1 maxa'); [|lia]. unfold atomic. cbv zeta.
  set (row := Job _ _ _ _ _ _ _ _ _ _ _ _ _ _ _).
  destruct (existsb (fun k => has_id (id row) k || _) (jobs st')) eqn:Ex.
  - destruct (List.find _ (jobs st')) as [k|] eqn:Ef.
    + apply find_elem_of in Ef as [Hk Hkd]. bool_hyps.
      assert (k = j) as ->; [|done].
      apply list_elem_of_lookup in Hj as [i Hi]. apply list_elem_of_lookup in Hk as [i' Hi'].
      assert (i = i') as <-; [|congruence].
      eapply (NoDup_lookup (payload_digest <$> jobs st')); [apply Hok'|rewrite list_lookup_fmap, Hi; cbn; by rewrite Hd|].
      rewrite list_lookup_fmap, Hi'. cbn. by rewrite Hkd.
    + exfalso. apply list_elem_of_In in Hj. assert (Hn := find_none _ _ Ef j Hj). cbn in Hn.
      by rewrite Hd, String.eqb_refl in Hn.
  - exfalso. enough (existsb (fun k => has_id (id row) k || String.eqb (payload_digest k) (payload_digest_of knd (dumps (JObj payload)))) (jobs st') = true) by congruence.
    apply existsb_exists. exists j. rewrite <- list_elem_of_In, Hd, String.eqb_refl, orb_true_r. done.
Qed.
End theorems.

Section timed.
Context {T : Type} `{ClockLaws T}.
Implicit Types (j k : job T) (st : db T) (c : config T).

Lemma tle_refl (x : T) : tle x x = true.
Proof. by destruct (tle_total x x). Qed.

Lemma job_leb_total j k : job_leb j k = true \/ job_leb k j = true.
Proof.
  unfold job_leb, tlt. destruct (tle (created_at j) (created_at k)) eqn:E1, (tle (created_at k) (created_at j)) eqn:E2; cbn; auto.
  apply String.leb_total.
Qed.

Lemma leb_string_trans a b d : String.leb a b = true -> String.leb b d = true -> String.leb a d = true.
Proof.
  intros H1 H2. apply Is_true_eq_true. change (String.le a d). transitivity b; unfold String.le; by apply Is_true_eq_left.
Qed.

Lemma job_leb_trans j k l : job_leb j k = true -> job_leb k l = true -> job_leb j l = true.
Proof.
  unfold job_leb, tlt. rewrite !orb_true_iff, !andb_true_iff, !negb_true_iff.
  assert (Hng : forall x y : T, tle y x = false -> tle x y = true) by (intros x y; destruct (tle_total x y); congruence).
  assert (Hlt : forall x y z : T, tle y x = false -> tle y z = true -> tle z x = false).
  { intros x y z H1 H2. apply not_true_is_false. intros H3. rewrite (tle_trans y z x) in H1; done. }
  assert (Hlt' : forall x y z : T, tle x y = true -> tle z y = false -> tle z x = false).
  { intros x y z H1 H2. apply not_true_is_false. intros H3. rewrite (tle_trans z x y) in H2; done. }
  intros [H1|[H1 H1']] [H2|[H2 H2']].
  - left. eauto.
  - left. eauto.
  - left. eauto.
  - right. split; [eapply tle_trans; eauto|eapply leb_string_trans; eauto].
Qed.

(** The chosen row is the least one. *)
Lemma select_first_least l j k : select_first l = Some j -> k ∈ l -> job_leb j k = true.
Proof.
  revert j. induction l as [|x l IH]; intros j Hs Hk; cbn in Hs; [by apply elem_of_nil in Hk|].
  assert (Hrefl : job_leb x x = true) by (by destruct (job_leb_total x x)).
  apply elem_of_cons in Hk as [->|Hk].
  - destruct (select_first l) as [y|]; [|by simplify_eq].
    destruct (job_leb x y) eqn:E; simplify_eq; [done|]. by destruct (job_leb_total x j); [congruence|].
  - destruct (select_first l) as [y|] eqn:Ey.
    + destruct (job_leb x y) eqn:E; simplify_eq; [|by apply IH]. eapply job_leb_trans; [exact E|by apply IH].
    + apply select_first_none in Ey. subst. by apply elem_of_nil in Hk.
Qed.

(** Claims are first-in first-out: the claimed job is the oldest eligible one,
    ties broken by identifier. *)
Theorem claim_oldest_first c owner s rs now token st j' :
  reachable c st -> (claim c owner s rs now token st).1 = Ok (Some j') ->
  forall k, k ∈ eligible s now st ->
    tlt (created_at j') (created_at k) = true \/
    (tle (created_at j') (created_at k) = true /\ String.leb (id j') (id k) = true).
Proof.
  intros Hr Hc k Hk.
  destruct (claim_cases c owner s rs now token st (sched_reachable_ok _ _ Hr))
    as [[_ [e Hx]]|[(_ & _ & Hx)|(_ & j & Hj & _ & _ & _ & _ & Hx)]]; rewrite Hx in Hc; cbn in Hc; simplify_eq.
  assert (Hl := select_first_least _ _ _ Hj Hk). unfold job_leb in Hl.
  apply orb_true_iff in Hl as [?|Hl]; [by left|]. bool_hyps. by right.
Qed.

(** C39: a granted lease works: with a valid configuration the worker that claimed
    a job can complete it with its token at any time up to the expiry it was
    given (at the claim itself in particular); the job is then done and none of
    its resources stays leased. *)
Theorem claimed_lease_completes c owner s rs now token st j' st' :
  check_config c = Ok c -> reachable c st -> claim c owner s rs now token st = (Ok (Some j'), st') ->
  tle now (tadd now (lease_seconds c)) = true /\
  forall later mission, tle later (tadd now (lease_seconds c)) = true ->
    exists d st'', complete (id j') token mission later st' = (Ok d, st'') /\
      id d = id j' /\ state d = Done /\ mission_id d = Some mission /\ d ∈ jobs st'' /\
      (forall r, r ∈ resources st'' -> held_by (id j') token r = false).
Proof.
  intros Hcfg Hr Hc. unfold check_config in Hcfg. peel. bool_hyps.
  split. { apply tadd_ge. destruct (tle_total tzero (lease_seconds c)); congruence. }
  intros later mission Hlater. assert (Hok := sched_reachable_ok _ _ Hr).
  assert (Hok' : db_ok st') by (assert (Hx := proj1 (claim_ok c owner s rs now token st Hok)); by rewrite Hc in Hx).
  destruct (claim_cases c owner s rs now token st Hok)
    as [[_ [e Hx]]|[(_ & _ & Hx)|(_ & j & Hj & Hjin & Hcl & _ & _ & Hx)]]; rewrite Hx in Hc; simplify_eq.
  assert (Hin : take_lease owner token (tadd now (lease_seconds c)) now j ∈
                update_where (fun k => has_id (id j) k && claimable now k) (take_lease owner token (tadd now (lease_seconds c)) now)
                  (jobs (prepare_claim now s st))).
  { apply elem_of_update_where. exists j. split; [done|]. by rewrite (proj2 (has_id_eq _ _) eq_refl), Hcl. }
  unfold complete. match goal with |- context [on_live_lease ?a ?b ?d ?f ?g ?m ?x] =>
    destruct (on_live_lease_cases a b d f g m x) as [(k & Hk & Hki & Hkl & ->)|[Hno _]] end.
  - eexists _, _. split; [done|]. cbn [id finish state mission_id jobs resources]. split; [done|]. split; [done|]. split; [done|].
    split.
    + apply elem_of_update_where. exists k. split; [done|]. by rewrite (proj2 (has_id_eq _ _) Hki), Hkl.
    + intros r Hr'. apply list_elem_of_In, filter_In in Hr' as [_ Hr']. by bool_hyps.
  - exfalso. specialize (Hno _ Hin eq_refl).
    enough (live_lease token later (take_lease owner token (tadd now (lease_seconds c)) now j) = true) by congruence.
    apply live_lease_spec. cbn. eauto.
Qed.
End timed.

(** ** Witnesses: a concrete run on integer ticks *)

Definition cfg : config Z := MkConfig 30 1.
Definition any : selector := Selector None None None.
Definition queue1 : db Z := run_op cfg (OpEnqueue "deliver" [("mission", JStr "m-1")] 2 None None 100 "u1") (MkDb [] []).
Definition queue2 : db Z := run_op cfg (OpClaim "worker-a" any ["repo:main"] 101 "tok-a") queue1.
Definition queue3 : db Z := run_op cfg (OpComplete "JOB-u1" "tok-a" "m-1" 110) queue2.

Lemma queue1_reachable : reachable cfg queue1.
Proof. apply reach_step, reach_empty. Qed.
Lemma queue2_reachable : reachable cfg queue2.
Proof. apply reach_step, queue1_reachable. Qed.
Lemma queue3_reachable : reachable cfg queue3.
Proof. apply reach_step, queue2_reachable. Qed.

Lemma scheduler_invariant_witness : db_ok queue2 /\ length (resources queue2) = 1%nat.
Proof. split; [exact (scheduler_invariant cfg queue2 queue2_reachable)|vm_compute; reflexivity]. Defined.

Lemma scheduler_refines_lifecycle_witness :
  exists old new, jobs queue3 = old ++ new /\ Forall2 job_step (jobs queue2) old /\
                  Forall (fun j : job Z => state j = Ready /\ attempts j = 0) new.
Proof. exact (scheduler_refines_lifecycle cfg (OpComplete "JOB-u1" "tok-a" "m-1" 110) queue2 queue2_reachable). Defined.

Definition done_job : job Z := default (fresh_job "x" [] 1 None None 0 "x") (head (jobs queue3)).
Lemma terminal_jobs_are_final_witness :
  done_job ∈ jobs (run_op cfg (OpClaim "worker-b" any [] 500 "tok-b") queue3).
Proof.
  exact (terminal_jobs_are_final cfg (OpClaim "worker-b" any [] 500 "tok-b") queue3 done_job queue3_reachable
           ltac:(vm_compute; apply list_elem_of_here) ltac:(left; vm_compute; reflexivity)).
Defined.

Lemma claim_correct_witness :
  match (claim cfg "worker-a" any ["repo:main"] 101 "tok-a" queue1).1 with
  | Ok (Some j') => attempts j' <= max_attempts j' | _ => False end.
Proof.
  pose proof (claim_correct cfg "worker-a" any ["repo:main"] 101 "tok-a" queue1 queue1_reachable
                ltac:(vm_compute; reflexivity)) as Hc.
  vm_compute. vm_compute in Hc. destruct Hc as (j & Hj & _). intros Hx; discriminate Hx.
Defined.

Lemma stale_lease_rejected_witness :
  exists e, heartbeat cfg "JOB-u1" "tok-old" 105 queue2 = (Raise e, queue2) /\ exc_cls e = StaleLeaseError.
Proof.
  refine (proj1 (stale_lease_rejected cfg "JOB-u1" "tok-old" 105 queue2 _)).
  intros j Hj _. vm_compute in Hj. apply elem_of_cons in Hj as [->|Hj]; [vm_compute; reflexivity|].
  by apply elem_of_nil in Hj.
Defined.

Definition first_enqueue := enqueue "deliver" [("mission", JStr "m-1")] 2 None None 100 "u1" (MkDb (T:=Z) [] []).
Lemma enqueue_idempotent_witness :
  exists j, enqueue "deliver" [("mission", JStr "m-1")] 5 None None 900 "u2" queue1 = (Ok j, queue1).
Proof.
  destruct first_enqueue as [[j|e] st'] eqn:E; [|exfalso; vm_compute in E; discriminate E].
  exists j. assert (Hq : queue1 = st') by (unfold first_enqueue in E; unfold queue1; cbn [run_op]; rewrite E; reflexivity).
  rewrite Hq.
  refine (enqueue_idempotent cfg "deliver" [("mission", JStr "m-1")] 2 None None 100 "u1" (MkDb [] []) j st' 5 None None 900 "u2"
           (reach_empty cfg) E _). lia.
Defined.

Definition claimed : option (job Z) :=
  match (claim cfg "worker-a" any ["repo:main"] 101 "tok-a" queue1).1 with Ok o => o | Raise _ => None end.
Lemma claim_oldest_first_witness :
  exists j', claimed = Some j' /\ forall k, k ∈ eligible any 101 queue1 ->
    tlt (created_at j') (created_at k) = true \/
    (tle (created_at j') (created_at k) = true /\ String.leb (id j') (id k) = true).
Proof.
  destruct claimed as [j'|] eqn:E; [|exfalso; vm_compute in E; discriminate E]. exists j'. split; [reflexivity|].
  refine (claim_oldest_first cfg "worker-a" any ["repo:main"] 101 "tok-a" queue1 j' queue1_reachable _).
  unfold claimed in E. destruct ((claim _ _ _ _ _ _ _).1) as [o|e]; [by rewrite E|discriminate E].
Defined.

Lemma claimed_lease_completes_witness :
  exists j' st', claim cfg "worker-a" any ["repo:main"] 101 "tok-a" queue1 = (Ok (Some j'), st') /\
  tle 101 (tadd 101 (lease_seconds cfg)) = true.
Proof.
  destruct (claim cfg "worker-a" any ["repo:main"] 101 "tok-a" queue1) as [[[j'|]|e] st'] eqn:E;
    [|exfalso; vm_compute in E; discriminate E..].
  exists j', st'. split; [reflexivity|].
  exact (proj1 (claimed_lease_completes cfg "worker-a" any ["repo:main"] 101 "tok-a" queue1 j' st'
                  eq_refl queue1_reachable E)).
Defined.

End Scheduler.
