(* ===== verification/PyLib.v ===== *)
(** * The Python library the contracts rely on

    What the modelled modules use of Python's own library beyond the prelude:
    [==] on JSON values, [re] for the sequences of character classes the
    contracts match, [str.split] and [str.replace], and
    [datetime.fromisoformat] with the ordering of datetimes. *)

From S2P Require Import Prelude Canonical.
From Stdlib Require Import Ascii.

(** ** Equality of JSON values

    Python's [==]: a [bool] is the integer 0 or 1, dictionaries compare as
    maps. *)

Definition lookup_key {A} (k : string) (l : list (string * A)) : option A :=
  option_map snd (List.find (fun kv => String.eqb kv.1 k) l).

(** Each entry of [l] has an equal entry of the same key in [d]. *)
Definition eq_members (eq : json -> json -> bool) (d : list (string * json)) : list (string * json) -> bool :=
  fix go l := match l with
  | [] => true
  | (k, x) :: xs => match lookup_key k d with Some y => eq x y | None => false end && go xs
  end.
Definition eq_elements (eq : json -> json -> bool) : list json -> list json -> bool :=
  fix go l l' := match l, l' with
  | [], [] => true
  | x :: xs, y :: ys => eq x y && go xs ys
  | _, _ => false
  end.

Fixpoint py_eq (a b : json) {struct a} : bool :=
  match a, b with
  | JNull, JNull => true
  | JBool x, JBool y => Bool.eqb x y
  | JBool x, JInt y => Z.eqb (Z.b2z x) y
  | JInt x, JBool y => Z.eqb x (Z.b2z y)
  | JInt x, JInt y => Z.eqb x y
  | JStr x, JStr y => String.eqb x y
  | JList l, JList l' => eq_elements py_eq l l'
  | JObj l, JObj l' => Nat.eqb (length l) (length l') && eq_members py_eq l' l
  | _, _ => false
  end.

(** [document.get(key)], and [None] where the key is missing. *)
Definition get (k : string) (l : list (string * json)) : json :=
  default JNull (lookup_key k l).
Definition has (k : string) (l : list (string * json)) : bool :=
  match lookup_key k l with Some _ => true | None => false end.

(** [isinstance] tests. *)
Definition as_str (j : json) : option string := match j with JStr s => Some s | _ => None end.
Definition as_int (j : json) : option Z := match j with JInt z => Some z | _ => None end.
Definition as_list (j : json) : option (list json) := match j with JList l => Some l | _ => None end.
Definition as_obj (j : json) : option (list (string * json)) := match j with JObj l => Some l | _ => None end.

(** [d.pop(key)] on a dictionary that has the key. *)
Definition pop_key {A} (k : string) (l : list (string * A)) : list (string * A) :=
  List.filter (fun kv => negb (String.eqb kv.1 k)) l.

(** [dict[key] = value] on a JSON object. *)
Definition set_key (k : string) (v : json) (l : list (string * json)) : list (string * json) :=
  dict_set k v l.

(** ** [str] methods *)

(** [s.replace(c, r)] for a one-character pattern. *)
Fixpoint replace_char (c : ascii) (r : string) (s : string) : string :=
  match s with
  | EmptyString => EmptyString
  | String a s' => (if ascii_dec a c then r +:+ replace_char c r s' else String a (replace_char c r s'))%stdpp
  end.

(** [s.split(c)] for a one-character separator. *)
Fixpoint split_on (c : ascii) (s : string) : list string :=
  match s with
  | EmptyString => [EmptyString]
  | String a s' =>
      if ascii_dec a c then EmptyString :: split_on c s'
      else match split_on c s' with
           | p :: ps => String a p :: ps
           | [] => [String a EmptyString]
           end
  end.

(** The characters of a [str], each as its own UTF-8 string: what iterating
    over a [str] yields. *)
Fixpoint chars_acc (s cur : string) : list string :=
  match s with
  | EmptyString => if String.eqb cur "" then [] else [cur]
  | String a s' =>
      if (128 <=? N_of_ascii a)%N && (N_of_ascii a <? 192)%N then chars_acc s' (cur +:+ String a "")%stdpp
      else (if String.eqb cur "" then [] else [cur]) ++ chars_acc s' (String a "")
  end.
Definition chars (s : string) : list string := chars_acc s "".

(** [len(s)] *)
Definition str_len (s : string) : Z := Z.of_nat (length (chars s)).

(** ** Regular expressions

    A pattern is a sequence of characters of a class, optional characters,
    starred classes and anchors; [match_items] is [re.fullmatch] without
    anchors. *)

Inductive re_item :=
| One (c : ascii -> bool)
| Opt (c : ascii -> bool)
| Star (c : ascii -> bool)
| Dollar.

Fixpoint match_items (p : list re_item) (s : string) : bool :=
  match p with
  | [] => String.eqb s ""
  | One c :: p' => match s with String a s' => c a && match_items p' s' | EmptyString => false end
  | Opt c :: p' =>
      match_items p' s
      || match s with String a s' => c a && match_items p' s' | EmptyString => false end
  | Star c :: p' =>
      (fix star s := match_items p' s
         || match s with String a s' => c a && star s' | EmptyString => false end) s
  | Dollar :: p' => (String.eqb s "" || String.eqb s (String (chr 10) "")) && match_items p' ""
  end.

(** Classes and literals. *)
Definition between (lo hi : N) (a : ascii) : bool := (lo <=? code a)%N && (code a <=? hi)%N.
Definition is_upper (a : ascii) : bool := between 65 90 a.
Definition is_lower (a : ascii) : bool := between 97 122 a.
Definition is_alnum (a : ascii) : bool := is_upper a || is_lower a || is_digit a.
(** [[A-Za-z0-9._-]] *)
Definition is_id_char (a : ascii) : bool :=
  is_alnum a || bool_decide (code a = 46)%N || bool_decide (code a = 95)%N || bool_decide (code a = 45)%N.
Definition lit (c : ascii) : re_item := One (fun a => bool_decide (a = c)).
Fixpoint lits (s : string) : list re_item :=
  match s with EmptyString => [] | String c s' => lit c :: lits s' end.
Definition times (n : nat) (c : ascii -> bool) : list re_item := replicate n (One c).
Definition upto (n : nat) (c : ascii -> bool) : list re_item := replicate n (Opt c).

(** ** [datetime.fromisoformat] *)

(** Parse exactly [n] digits. *)
Fixpoint digits_acc (n : nat) (acc : Z) (s : string) : option (Z * string) :=
  match n with
  | O => Some (acc, s)
  | S n' => match s with
            | String a s' => if is_digit a then digits_acc n' (acc * 10 + Z.of_N (code a - 48)) s' else None
            | EmptyString => None
            end
  end.
Definition digits (n : nat) (s : string) : option (Z * string) := digits_acc n 0 s.

Definition is_leap (y : Z) : bool := (y mod 4 =? 0) && (negb (y mod 100 =? 0) || (y mod 400 =? 0)).
Definition days_in_month (y m : Z) : Z :=
  if m =? 2 then (if is_leap y then 29 else 28)
  else if (m =? 4) || (m =? 6) || (m =? 9) || (m =? 11) then 30 else 31.
Definition days_before_year (y : Z) : Z :=
  (y - 1) * 365 + (y - 1) / 4 - (y - 1) / 100 + (y - 1) / 400.
Definition days_before_month (y m : Z) : Z :=
  foldr Z.add 0 (map (fun k => days_in_month y (Z.of_nat k)) (seq 1 (Z.to_nat (m - 1)))).

(** The proleptic Gregorian ordinal of a valid date. *)
Definition ordinal (y m d : Z) : option Z :=
  if (1 <=? y) && (1 <=? m) && (m <=? 12) && (1 <=? d) && (d <=? days_in_month y m)
  then Some (days_before_year y + days_before_month y m + d) else None.

(** ISO week dates: the Monday of week one is the Monday on or before January 4. *)
Definition week1_monday (y : Z) : Z :=
  let first := days_before_year y + 1 in
  let weekday := (first + 6) mod 7 in
  let monday := first - weekday in
  if 3 <? weekday then monday + 7 else monday.
Definition iso_week (y w d : Z) : option Z :=
  let long := (week1_monday (y + 1) - week1_monday y) / 7 in
  let o := week1_monday y + (w - 1) * 7 + (d - 1) in
  if (1 <=? y) && (1 <=? w) && (w <=? long) && (1 <=? d) && (d <=? 7)
     && (1 <=? o) && (o <=? 3652059)
  then Some o else None.

Definition char_at (n : nat) (s : string) : option ascii := String.get n s.
Definition is_char (c : ascii) (o : option ascii) : bool := bool_decide (o = Some c).
Definition digit_at (n : nat) (s : string) : bool :=
  match char_at n s with Some a => is_digit a | None => false end.
Definition drop_bytes (n : nat) (s : string) : string := String.substring n (String.length s - n) s.
Definition take_bytes (n : nat) (s : string) : string := String.substring 0 n s.

(** The run of digits that starts at position [n]: the position after it. *)
Fixpoint digits_end (fuel n : nat) (s : string) : nat :=
  match fuel with
  | O => n
  | S f => if digit_at n s then digits_end f (S n) s else n
  end.

(** Where the date ends and the time begins. *)
Definition date_end (s : string) : option nat :=
  let len := String.length s in
  if (len <? 7)%nat then None
  else if (len =? 7)%nat then Some 7%nat
  else if is_char "-" (char_at 4 s) then
    if is_char "W" (char_at 5 s) then
      if is_char "-" (char_at 8 s) then
        if (len =? 9)%nat then None
        else if (10 <? len)%nat && digit_at 10 s then Some 8%nat
        else Some 10%nat
      else Some 8%nat
    else Some 10%nat
  else if is_char "W" (char_at 4 s) then
    let idx := digits_end len 7 s in
    if (idx <? 9)%nat then Some idx
    else if Nat.even idx then Some 7%nat else Some 8%nat
  else Some 8%nat.

(** [YYYY-MM-DD], [YYYYMMDD], [YYYY-Www[-D]] and [YYYYWww[D]]. *)
Definition parse_date (s : string) : option Z :=
  match digits 4 s with
  | None => None
  | Some (y, r) =>
      let dash := is_char "-" (char_at 0 r) in
      let r := if dash then drop_bytes 1 r else r in
      if is_char "W" (char_at 0 r) then
        match digits 2 (drop_bytes 1 r) with
        | None => None
        | Some (w, r) =>
            if String.eqb r "" then iso_week y w 1
            else if Bool.eqb (is_char "-" (char_at 0 r)) dash then
              match digits 1 (if dash then drop_bytes 1 r else r) with
              | Some (d, "") => iso_week y w d
              | _ => None
              end
            else None
        end
      else
        match digits 2 r with
        | None => None
        | Some (m, r) =>
            if Bool.eqb (is_char "-" (char_at 0 r)) dash then
              match digits 2 (if dash then drop_bytes 1 r else r) with
              | Some (d, "") => ordinal y m d
              | _ => None
              end
            else None
        end
  end.

(** [.f+] or [,f+]: microseconds, truncated after six digits. *)
Definition parse_fraction (s : string) : option Z :=
  match s with
  | String c r =>
      if bool_decide (c = "."%char) || bool_decide (c = ","%char) then
        let n := String.length r in
        if (n =? 0)%nat || negb (all_chars is_digit r) then None
        else let k := Nat.min n 6 in
             match digits k r with
             | Some (v, _) => Some (v * 10 ^ (6 - Z.of_nat k))
             | None => None
             end
      else None
  | EmptyString => Some 0
  end.

(** [HH[:?MM[:?SS[(.|,)f+]]]] in microseconds, with the three fields. *)
Definition parse_clock (s : string) : option (Z * Z * Z * Z) :=
  match digits 2 s with
  | None => None
  | Some (h, "") => Some (h, 0, 0, 0)
  | Some (h, r) =>
      let colon := is_char ":" (char_at 0 r) in
      match digits 2 (if colon then drop_bytes 1 r else r) with
      | None => None
      | Some (m, "") => Some (h, m, 0, 0)
      | Some (m, r) =>
          if colon && negb (is_char ":" (char_at 0 r)) then None
          else match digits 2 (if colon then drop_bytes 1 r else r) with
          | None => None
          | Some (sec, r) =>
              match parse_fraction r with
              | Some us => Some (h, m, sec, us)
              | None => None
              end
          end
      end
  end.

Definition micros (c : Z * Z * Z * Z) : Z :=
  let '(h, m, s, us) := c in ((h * 60 + m) * 60 + s) * 1000000 + us.
Definition day_micros : Z := 86400 * 1000000.

(** The offset that follows the clock: [Z], or a signed duration under a day. *)
Definition parse_offset (sign : ascii) (s : string) : option Z :=
  if bool_decide (sign = "Z"%char) then (if String.eqb s "" then Some 0 else None)
  else match parse_clock s with
  | Some c => if micros c <? day_micros
              then Some (if bool_decide (sign = "-"%char) then - micros c else micros c) else None
  | None => None
  end.

(** Split the time at its first offset sign. *)
Fixpoint split_sign (s : string) : string * option (ascii * string) :=
  match s with
  | EmptyString => (EmptyString, None)
  | String a s' =>
      if bool_decide (a = "+"%char) || bool_decide (a = "-"%char) || bool_decide (a = "Z"%char)
      then (EmptyString, Some (a, s'))
      else let '(t, o) := split_sign s' in (String a t, o)
  end.

(** A [datetime]: its local time in microseconds since 0001-01-01, and its
    UTC offset when it is aware. *)
Record datetime := Datetime { local_micros : Z; utcoffset : option Z }.

Definition parse_time (s : string) : option (Z * option Z) :=
  let '(t, o) := split_sign s in
  match parse_clock t with
  | Some (h, m, sec, us) =>
      if (h <? 24) && (m <? 60) && (sec <? 60) then
        match o with
        | None => Some (micros (h, m, sec, us), None)
        | Some (sign, z) =>
            match parse_offset sign z with
            | Some off => Some (micros (h, m, sec, us), Some off)
            | None => None
            end
        end
      else None
  | None => None
  end.

(** The byte length of the separator character. *)
Definition separator_len (s : string) : nat :=
  match s with
  | EmptyString => 0
  | String a _ => if (code a <? 192)%N then 1 else if (code a <? 224)%N then 2 else if (code a <? 240)%N then 3 else 4
  end.

Definition fromisoformat (s : string) : option datetime :=
  match date_end s with
  | None => None
  | Some n =>
      match parse_date (take_bytes n s) with
      | None => None
      | Some o =>
          let rest := drop_bytes n s in
          let rest := drop_bytes (separator_len rest) rest in
          if String.eqb rest "" then Some (Datetime (o * day_micros) None)
          else match parse_time rest with
          | Some (us, off) => Some (Datetime (o * day_micros + us) off)
          | None => None
          end
      end
  end.

(** [datetime.fromisoformat(value.replace("Z", "+00:00"))] *)
Definition from_zulu (value : string) : option datetime :=
  fromisoformat (replace_char "Z" "+00:00" value).

Definition is_aware (d : datetime) : bool :=
  match utcoffset d with Some _ => true | None => false end.

(** The point in time an aware datetime denotes, in microseconds. *)
Definition instant (d : datetime) : Z := local_micros d - default 0 (utcoffset d).

(** [a <= b] on datetimes: an aware and a naive one cannot be ordered. *)
Definition dt_le (a b : datetime) : result bool :=
  if Bool.eqb (is_aware a) (is_aware b) then Ok (instant a <=? instant b)
  else raise TypeError "can't compare offset-naive and offset-aware datetimes".

Example fromisoformat_extended :
  from_zulu "2024-02-29T12:30:15.5Z" =
  Some (Datetime (738945 * day_micros + micros (12, 30, 15, 500000)) (Some 0)).
Proof. vm_compute. reflexivity. Qed.

Example fromisoformat_basic : fromisoformat "20240229T1230" = fromisoformat "2024-02-29 12:30".
Proof. vm_compute. reflexivity. Qed.

Example fromisoformat_week : fromisoformat "2024-W09-4" = fromisoformat "2024-02-29".
Proof. vm_compute. reflexivity. Qed.

Example fromisoformat_offset :
  option_map instant (fromisoformat "2024-03-01T01:00:00+02:00") = option_map instant (from_zulu "2024-02-29T23:00:00Z").
Proof. vm_compute. reflexivity. Qed.

Example fromisoformat_rejects :
  (fromisoformat "2023-02-29", fromisoformat "2024-01-01T24:00", fromisoformat "2024-01-01T10:00:00+24:00") = (None, None, None).
Proof. vm_compute. reflexivity. Qed.

(** ** Dictionary lemmas *)

Lemma lookup_key_cons {A} k k' (v : A) l :
  lookup_key k ((k', v) :: l) = if String.eqb k' k then Some v else lookup_key k l.
Proof. unfold lookup_key. simpl. by destruct (String.eqb k' k). Qed.

Lemma lookup_key_set {A} k k' (v : A) l :
  lookup_key k (dict_set k' v l) = if String.eqb k' k then Some v else lookup_key k l.
Proof.
  induction l as [|[k1 v1] l IH]; simpl.
  - rewrite lookup_key_cons. by destruct (String.eqb k' k).
  - destruct (String.eqb_spec k' k1) as [->|Hn]; rewrite !lookup_key_cons.
    + by destruct (String.eqb k1 k).
    + rewrite IH. destruct (String.eqb_spec k1 k) as [->|]; [|done].
      by destruct (String.eqb_spec k' k).
Qed.

Lemma lookup_key_in {A} k (v : A) l : lookup_key k l = Some v -> (k, v) ∈ l.
Proof.
  induction l as [|[k1 v1] l IH]; [done|]. rewrite lookup_key_cons.
  destruct (String.eqb_spec k1 k) as [->|]; [intros [= ->]; by left|right; auto].
Qed.

Lemma lookup_key_not_in {A} k (l : list (string * A)) : lookup_key k l = None <-> k ∉ l.*1.
Proof.
  induction l as [|[k1 v1] l IH]; simpl; [split; [intros _ H; by apply elem_of_nil in H|done]|].
  rewrite lookup_key_cons, elem_of_cons. destruct (String.eqb_spec k1 k) as [->|]; [naive_solver|].
  rewrite IH. naive_solver.
Qed.

Lemma lookup_key_NoDup {A} k (v : A) l : NoDup l.*1 -> (k, v) ∈ l -> lookup_key k l = Some v.
Proof.
  induction l as [|[k1 v1] l IH]; simpl; intros Hnd Hin; [by apply elem_of_nil in Hin|].
  apply NoDup_cons in Hnd as [Hk Hnd]. rewrite lookup_key_cons.
  apply elem_of_cons in Hin as [[= -> ->]|Hin]; [by rewrite String.eqb_refl|].
  destruct (String.eqb_spec k1 k) as [->|]; [|auto]. exfalso. apply Hk.
  apply (list_elem_of_fmap_2 fst _ _ Hin).
Qed.

Lemma lookup_key_app {A} k (l l' : list (string * A)) :
  lookup_key k (l ++ l') = match lookup_key k l with Some v => Some v | None => lookup_key k l' end.
Proof. induction l as [|[k' v] l IH]; [done|]. cbn [app]. rewrite !lookup_key_cons, IH. by destruct (String.eqb k' k). Qed.

Lemma get_set_key k k' v l : get k (set_key k' v l) = if String.eqb k' k then v else get k l.
Proof. unfold get, set_key. rewrite lookup_key_set. by destruct (String.eqb k' k). Qed.

Lemma lookup_key_map {A B} (f : A -> B) k l :
  lookup_key k (map (fun kv => (kv.1, f kv.2)) l) = f <$> lookup_key k l.
Proof.
  induction l as [|[k1 v1] l IH]; [done|]. cbn [map fst snd]. rewrite !lookup_key_cons, IH. by destruct (String.eqb k1 k).
Qed.

Lemma py_eq_str v s : py_eq v (JStr s) = true <-> v = JStr s.
Proof. destruct v; simpl; try (split; intros H; discriminate H). rewrite String.eqb_eq. naive_solver. Qed.

Lemma lookup_key_perm {A} k (l l' : list (string * A)) :
  NoDup l.*1 -> l ≡ₚ l' -> lookup_key k l = lookup_key k l'.
Proof.
  intros Hnd Hp. assert (Hnd' : NoDup l'.*1) by (by rewrite <- Hp).
  destruct (lookup_key k l) as [v|] eqn:E.
  - symmetry. apply lookup_key_NoDup; [done|]. rewrite <- Hp. by apply lookup_key_in.
  - symmetry. apply lookup_key_not_in. rewrite <- Hp. by apply lookup_key_not_in.
Qed.

(** Upserting every entry of a dictionary. *)
Lemma lookup_key_upsert {A B} (f : A -> B) k (l : list (string * A)) t :
  NoDup l.*1 ->
  lookup_key k (fold_left (fun t m => dict_set m.1 (f m.2) t) l t) =
  match lookup_key k l with Some v => Some (f v) | None => lookup_key k t end.
Proof.
  revert t. induction l as [|[k1 v1] l IH]; intros t Hnd; [done|].
  apply NoDup_cons in Hnd as [Hk Hnd]. cbn [fold_left fst snd]. rewrite (IH _ Hnd), lookup_key_cons, lookup_key_set.
  destruct (String.eqb_spec k1 k) as [->|]; [|done].
  assert (lookup_key k l = None) as -> by (by apply lookup_key_not_in). done.
Qed.

Lemma NoDup_upsert {A B} (f : A -> B) (l : list (string * A)) t :
  NoDup t.*1 -> NoDup (fold_left (fun t m => dict_set m.1 (f m.2) t) l t).*1.
Proof.
  revert t. induction l as [|[k1 v1] l IH]; intros t Hnd; [done|]. cbn. apply IH. by apply dict_set_keys.
Qed.

Lemma eq_members_true eq d l :
  (forall kv, kv ∈ l -> exists y, lookup_key kv.1 d = Some y /\ eq kv.2 y = true) <-> eq_members eq d l = true.
Proof.
  induction l as [|[k x] l IH]; cbn; [split; [done|intros _ kv H; by apply elem_of_nil in H]|].
  rewrite andb_true_iff, <- IH. split.
  - intros H. split; [destruct (H (k, x)) as (y & Ey & E); [by left|]; cbn in Ey; by rewrite Ey|]. intros kv Hin. apply H. by right.
  - intros [Hx Hl] kv Hin. apply elem_of_cons in Hin as [->|Hin]; [|auto]. cbn.
    destruct (lookup_key k d); [eauto|discriminate Hx].
Qed.

(** A dictionary equals itself. *)
Lemma py_eq_refl j : json_wf j = true -> py_eq j j = true.
Proof.
  induction j as [|b|z|s|l IH|l IH] using json_ind'; intros Hwf; cbn [py_eq].
  - done.
  - by destruct b.
  - apply Z.eqb_refl.
  - apply String.eqb_refl.
  - cbn [json_wf] in Hwf. induction IH as [|x l Hx _ IHl]; [done|]. cbn in *. bool_hyps.
    apply andb_true_iff. auto.
  - rewrite Nat.eqb_refl. cbn [andb]. cbn [json_wf] in Hwf. unfold distinct in Hwf. bool_hyps.
    apply eq_members_true. intros [k v] Hin. exists v. split; [by apply lookup_key_NoDup|].
    rewrite Forall_forall in IH. apply (IH (k, v) Hin). rewrite forallb_forall in H0. apply (H0 (k, v)).
    by apply list_elem_of_In.
Qed.
