(* ===== verification/Graphs.v ===== *)
(** * Dependency graphs

    What the outcome graph and the objective graph share: dictionaries of
    records indexed by a key, and finite dependency relations, where being
    acyclic and being finishable (well-founded) are the same thing. *)

From S2P Require Import Prelude Canonical PyLib.

Module Graphs.

(** ** Indexing *)

(** [{key(x): x for x in l}] *)
Definition index_by {A} (key : A -> string) (l : list A) : list (string * A) :=
  dict_of_pairs (map (fun x => (key x, x)) l).

Section indexing.
Context {A : Type} (key : A -> string).

Lemma index_by_keys (l : list A) : NoDup (index_by key l).*1.
Proof. apply dict_of_pairs_keys. Qed.

(** Every entry of the index is a record under its own key. *)
Lemma index_by_entries (l : list A) i x : (i, x) ∈ index_by key l -> x ∈ l /\ key x = i.
Proof.
  cut (Forall (fun ix => ix.2 ∈ l /\ key ix.2 = ix.1) (index_by key l)).
  { rewrite Forall_forall. intros H Hin. by apply (H (i, x)). }
  cut (forall l0 acc, l0 ⊆ l -> Forall (fun ix => ix.2 ∈ l /\ key ix.2 = ix.1) acc ->
    Forall (fun ix => ix.2 ∈ l /\ key ix.2 = ix.1)
      (foldl (fun acc kv => dict_set kv.1 kv.2 acc) acc (map (fun x => (key x, x)) l0))).
  { intros G. apply G; [done|constructor]. }
  induction l0 as [|y l0 IH]; intros acc Hs Hacc; [done|]. cbn. apply IH; [set_solver|].
  assert (Hy : y ∈ l) by (apply Hs; by left). clear -Hy Hacc. induction Hacc as [|[j z] acc Hz Hacc IHacc]; cbn.
  - by repeat constructor.
  - destruct (String.eqb (key y) j); constructor; try done.
Qed.

Lemma index_by_elem (l : list A) k : k ∈ (index_by key l).*1 <-> k ∈ map key l.
Proof.
  split.
  - intros H. apply list_elem_of_fmap in H as ([i x] & -> & H). apply index_by_entries in H as [Hx <-].
    cbn. by apply (list_elem_of_fmap_2 key).
  - unfold index_by, dict_of_pairs. cut (forall acc, NoDup acc.*1 -> k ∈ map key l \/ k ∈ acc.*1 ->
      k ∈ (foldl (fun acc kv => dict_set kv.1 kv.2 acc) acc (map (fun x => (key x, x)) l)).*1).
    { intros G H. apply G; [constructor|by left]. }
    induction l as [|x l IH]; intros acc Hn H; cbn.
    + destruct H as [H|H]; [by apply elem_of_nil in H|done].
    + destruct (dict_set_keys (key x) x acc Hn) as [Hn' He]. apply IH; [done|]. rewrite He.
      cbn in H. rewrite elem_of_cons in H. tauto.
Qed.

Lemma index_by_NoDup (l : list A) : NoDup (map key l) -> index_by key l = map (fun x => (key x, x)) l.
Proof. intros Hn. apply dict_of_pairs_distinct. by rewrite <- list_fmap_compose. Qed.

Lemma index_by_some (l : list A) i x : NoDup (map key l) ->
  lookup_key i (index_by key l) = Some x <-> x ∈ l /\ key x = i.
Proof.
  intros Hn. split.
  - intros H. apply lookup_key_in in H. by apply index_by_entries.
  - intros [Hx <-]. apply lookup_key_NoDup; [apply index_by_keys|]. rewrite index_by_NoDup by done.
    apply list_elem_of_fmap. by exists x.
Qed.

(** Keys are unique exactly when the index is as long as the list. *)
Lemma index_by_length (l : list A) : length (index_by key l) = length l <-> NoDup (map key l).
Proof.
  split.
  - intros H.
    assert (Hsub : (index_by key l).*1 ⊆+ map key l).
    { apply NoDup_submseteq; [apply index_by_keys|]. intros k. by rewrite index_by_elem. }
    assert (Hp : (index_by key l).*1 ≡ₚ map key l).
    { apply submseteq_length_Permutation; [done|]. rewrite length_map, length_fmap. lia. }
    rewrite <- Hp. apply index_by_keys.
  - intros Hn. by rewrite index_by_NoDup, length_map.
Qed.

Lemma same_key (l : list A) x y : NoDup (map key l) -> x ∈ l -> y ∈ l -> key x = key y -> x = y.
Proof.
  intros Hn Hx Hy E. assert (H1 := proj2 (index_by_some l (key x) x Hn) (conj Hx eq_refl)).
  assert (H2 := proj2 (index_by_some l (key x) y Hn) (conj Hy (eq_sym E))). congruence.
Qed.
End indexing.

(** ** Taking identifiers from a list *)

Lemma filter_keys {A} (r : list string) (rem : list (string * A)) :
  (List.filter (fun kp => negb (mem kp.1 r)) rem).*1 = List.filter (fun k => negb (mem k r)) rem.*1.
Proof. induction rem as [|[k p] rem IH]; cbn; [done|]. destruct (mem k r); cbn; [done|]. by f_equal. Qed.

Lemma elem_of_filter_not (r l : list string) x : x ∈ List.filter (fun k => negb (mem k r)) l <-> x ∈ l /\ x ∉ r.
Proof. by rewrite list_elem_of_In, filter_In, <- list_elem_of_In, negb_true_iff, <- not_true_iff_false, mem_spec. Qed.

Lemma NoDup_filter_list {A} (f : A -> bool) (l : list A) : NoDup l -> NoDup (List.filter f l).
Proof. intros H. apply NoDup_ListNoDup, List.NoDup_filter, NoDup_ListNoDup, H. Qed.

(** The identifiers taken and those left are the identifiers there were. *)
Lemma split_keys (r l : list string) : NoDup l -> NoDup r -> r ⊆ l -> r ++ List.filter (fun k => negb (mem k r)) l ≡ₚ l.
Proof.
  intros Hl Hr Hs. apply NoDup_Permutation; [|done|].
  - apply NoDup_app. split; [done|]. split; [intros x Hx Hf; by apply elem_of_filter_not in Hf as [_ Hf]|].
    by apply NoDup_filter_list.
  - intros x. rewrite elem_of_app, elem_of_filter_not. split; [intros [Hx|[Hx _]]; [by apply Hs|done]|].
    intros Hx. destruct (decide (x ∈ r)); auto.
Qed.

(** ** Finite dependency relations *)

(** [R i d]: [i] depends on [d]. *)
Section relations.
Context (R : string -> string -> Prop).

Definition no_cycle : Prop := forall i, ~ tc R i i.
(** Everything [i] depends on, directly or not, can be finished before it. *)
Definition finishable (i : string) : Prop := Acc (fun d i => R i d) i.

Lemma finishable_no_cycle i : finishable i -> ~ tc R i i.
Proof.
  induction 1 as [i _ IH]. intros Hc. inversion Hc as [? ? H1|? d ? H1 H2]; subst.
  - by apply (IH i).
  - apply (IH d); [done|]. by eapply tc_r.
Qed.

(** On finitely many identifiers the converse holds: a path of dependencies
    that never meets itself is no longer than the number of identifiers. *)
Lemma no_cycle_finishable (ids : list string) :
  (forall i d, R i d -> i ∈ ids) -> no_cycle -> forall i, finishable i.
Proof.
  intros Hids Hc. cut (forall n path i, NoDup path -> path ⊆ ids -> (forall x, x ∈ path -> tc R x i) ->
    (length ids < n + length path)%nat -> finishable i).
  { intros G i. apply (G (S (length ids)) [] i); [constructor|set_solver|set_solver|cbn; lia]. }
  induction n as [|n IH]; intros path i Hnd Hsub Hpath Hlen.
  { exfalso. assert (length path <= length ids)%nat by (by apply submseteq_length, NoDup_submseteq). lia. }
  constructor. intros d Hd. apply (IH (i :: path)).
  - constructor; [|done]. intros Hi. by apply (Hc i), Hpath.
  - intros x Hx. apply elem_of_cons in Hx as [->|Hx]; [by eapply Hids|by apply Hsub].
  - intros x Hx. apply elem_of_cons in Hx as [->|Hx]; [by apply tc_once|]. eapply tc_r; [by apply Hpath|done].
  - cbn. lia.
Qed.
End relations.

End Graphs.
