(* ===== verification/OutcomeGraph.v ===== *)
(** * Outcome graphs

    [outcome_graph.py]: work packages with dependencies, the compiler that
    accepts only well-formed acyclic graphs, and the planner that cuts a graph
    into capacity- and conflict-aware dispatch rounds. *)

From S2P Require Import Prelude Sha256 Canonical PyLib Graphs.

Module OutcomeGraph.
Export Graphs.

(** ** Packages and graphs *)

Record OutcomeWorkPackage := {
  package_id : string;
  outcome_ids : list string;
  dependencies : list string;
  allowed_paths : list string;
  semantic_locks : list string;
  acceptance_ids : list string;
  risk_tier : string;
  required_roles : list string;
  effort : Z;
  rollback : string;
  pkg_state : string }.

(** [OutcomeWorkPackage.__post_init__] *)
Definition check_package (p : OutcomeWorkPackage) : result OutcomeWorkPackage :=
  require (negb (String.eqb (package_id p) "") && negb (bool_decide (outcome_ids p = [])))
    GraphError "package and outcome ids are required" ;?
  require (1 <=? effort p) GraphError "effort must be positive" ;?
  require (distinct (dependencies p)) GraphError "duplicate dependency" ;?
  require (negb (mem (package_id p) (dependencies p))) GraphError "package cannot depend on itself" ;?
  Ok p.

Record OutcomeGraphSpec := {
  packages : list OutcomeWorkPackage;
  base_snapshot : string;
  contract_version : Z;
  maximum_concurrent : Z;
  court_receipt : string }.

(** The graph as a dataclass value, for [canonical_digest(self)]. *)
Definition strings (l : list string) : pyval := PSeq (map PStr l).
Definition package_value (p : OutcomeWorkPackage) : pyval :=
  PData [("package_id", PStr (package_id p)); ("outcome_ids", strings (outcome_ids p));
         ("dependencies", strings (dependencies p)); ("allowed_paths", strings (allowed_paths p));
         ("semantic_locks", strings (semantic_locks p)); ("acceptance_ids", strings (acceptance_ids p));
         ("risk_tier", PStr (risk_tier p)); ("required_roles", strings (required_roles p));
         ("effort", PInt (effort p)); ("rollback", PStr (rollback p)); ("state", PStr (pkg_state p))].
Definition spec_value (s : OutcomeGraphSpec) : pyval :=
  PData [("packages", PSeq (map package_value (packages s))); ("base_snapshot", PStr (base_snapshot s));
         ("contract_version", PInt (contract_version s)); ("maximum_concurrent", PInt (maximum_concurrent s));
         ("court_receipt", PStr (court_receipt s))].
(** [OutcomeGraphSpec.digest] *)
Definition spec_digest (s : OutcomeGraphSpec) : string := canonical_digest (plain (spec_value s)).

(** ** Compiling a graph *)

(** [{p.package_id: p for p in ps}] *)
Definition by_id (ps : list OutcomeWorkPackage) : list (string * OutcomeWorkPackage) :=
  index_by package_id ps.

(** [repr] of a list of identifiers without quotes or escapes, as the error
    message prints it. *)
Definition repr_list (l : list string) : string :=
  ("[" +:+ join ", " (map (fun s => "'" +:+ s +:+ "'") l) +:+ "]")%stdpp.

(** [visit]: depth-first, with the set of identifiers on the current path and
    the set of finished ones.  [limit] is what is left of the interpreter's
    recursion limit. *)
Fixpoint visit (limit : nat) (ids : list (string * OutcomeWorkPackage)) (visiting visited : list string) (i : string)
    : result (list string) :=
  match limit with
  | O => raise RecursionError "maximum recursion depth exceeded"
  | S n =>
      if mem i visiting then raise GraphError "outcome graph contains a cycle"
      else if mem i visited then Ok visited
      else match lookup_key i ids with
           | None => raise KeyError i
           | Some p =>
               let? v := rfold (fun v d => visit n ids (i :: visiting) v d) visited (dependencies p) in
               Ok (i :: v)
           end
  end.

(** [set(a) & set(b)] is not empty. *)
Definition overlap (a b : list string) : bool := existsb (fun x => mem x b) a.

(** The pairs of packages the last loop of the compiler rejects. *)
Definition unordered_writers (a b : OutcomeWorkPackage) : bool :=
  String.ltb (package_id a) (package_id b) && overlap (allowed_paths a) (allowed_paths b)
  && negb (mem (package_id b) (dependencies a)) && negb (mem (package_id a) (dependencies b)).

Definition check_writers (ab : OutcomeWorkPackage * OutcomeWorkPackage) : result unit :=
  require (negb (unordered_writers ab.1 ab.2)) GraphError "overlapping writers require an ordering dependency".

(** The dependencies of a package must be packages of the graph. *)
Definition check_missing (ids : list string) (p : OutcomeWorkPackage) : result unit :=
  let missing := List.filter (fun d => negb (mem d ids)) (dependencies p) in
  require (bool_decide (missing = [])) GraphError ("missing dependency: " +:+ repr_list (sorted_str (dedup missing)))%stdpp.

(** [compile_outcome_graph] on a graph.  The source starts its searches in the
    order of a set; here they start in the order of the packages. *)
Definition compile_spec (limit : nat) (s : OutcomeGraphSpec) : result OutcomeGraphSpec :=
  let ids := map package_id (packages s) in
  require (distinct ids) GraphError "duplicate package id" ;?
  require (negb (String.eqb (base_snapshot s) "")) GraphError "base snapshot is required" ;?
  require (1 <=? maximum_concurrent s) GraphError "capacity must be positive" ;?
  rfold (fun _ => check_missing ids) tt (packages s) ;?
  rfold (visit limit (by_id (packages s)) []) [] ids ;?
  rfold (fun _ => check_writers) tt (list_prod (packages s) (packages s)) ;?
  Ok s.

(** [compile_outcome_graph] on packages. *)
Definition compile_outcome_graph (limit : nat) (ps : list OutcomeWorkPackage) (base : option string) (maximum : Z) (receipt : string)
    : result OutcomeGraphSpec :=
  compile_spec limit {| packages := ps; base_snapshot := default "" base; contract_version := 1;
                        maximum_concurrent := maximum; court_receipt := receipt |}.

(** ** Dispatch *)

(** [set(p.dependencies) <= done] *)
Definition satisfied (completed : list string) (p : OutcomeWorkPackage) : bool :=
  forallb (fun d => mem d completed) (dependencies p).

Definition ready_packages (s : OutcomeGraphSpec) (completed : list string) : list OutcomeWorkPackage :=
  List.filter (fun p => String.eqb (pkg_state p) "pending" && satisfied completed p) (packages s).

(** The loop that fills one round. *)
Fixpoint choose (capacity : Z) (candidates : list OutcomeWorkPackage) (chosen : list OutcomeWorkPackage) (paths locks : list string)
    : list OutcomeWorkPackage :=
  match candidates with
  | [] => chosen
  | p :: ps =>
      if capacity <=? Z.of_nat (length chosen) then chosen
      else if overlap paths (allowed_paths p) || overlap locks (semantic_locks p) then choose capacity ps chosen paths locks
      else choose capacity ps (chosen ++ [p]) (paths ++ allowed_paths p) (locks ++ semantic_locks p)
  end.

Definition round_of (capacity : Z) (completed : list string) (remaining : list (string * OutcomeWorkPackage)) : result (list string) :=
  let candidates := List.filter (satisfied completed) (map snd remaining) in
  require (negb (bool_decide (candidates = []))) GraphError "graph cannot make progress" ;?
  let chosen := map package_id (choose capacity (sorted_by package_id candidates) [] [] []) in
  require (negb (bool_decide (chosen = []))) GraphError "ready packages conflict at configured capacity" ;?
  Ok chosen.

(** [while remaining]: every turn removes a package, so the number of remaining
    packages bounds the turns; [None] is a loop that is still running. *)
Fixpoint rounds_loop (fuel : nat) (capacity : Z) (completed : list string) (remaining : list (string * OutcomeWorkPackage))
    : option (result (list (list string))) :=
  match remaining with
  | [] => Some (Ok [])
  | _ :: _ =>
      match fuel with
      | O => None
      | S n =>
          match round_of capacity completed remaining with
          | Raise e => Some (Raise e)
          | Ok chosen =>
              match rounds_loop n capacity (completed ++ chosen)
                      (List.filter (fun kp => negb (mem kp.1 chosen)) remaining) with
              | Some (Ok rounds) => Some (Ok (chosen :: rounds))
              | other => other
              end
          end
      end
  end.
Definition dispatch_rounds (s : OutcomeGraphSpec) (completed : list string) : option (result (list (list string))) :=
  let remaining := by_id (List.filter (fun p => negb (mem (package_id p) completed)) (packages s)) in
  rounds_loop (length remaining) (maximum_concurrent s) completed remaining.

(** ** What the compiler accepts *)

(** [i] depends directly on [d]. *)
Definition dep (ps : list OutcomeWorkPackage) (i d : string) : Prop :=
  exists p, p ∈ ps /\ package_id p = i /\ d ∈ dependencies p.
Definition acyclic (ps : list OutcomeWorkPackage) : Prop := forall i, ~ tc (dep ps) i i.
Definition closed (ps : list OutcomeWorkPackage) : Prop := forall i d, dep ps i d -> d ∈ map package_id ps.
(** Packages that share a path are ordered by a direct dependency. *)
Definition writers_ordered (ps : list OutcomeWorkPackage) : Prop :=
  forall a b x, a ∈ ps -> b ∈ ps -> package_id a <> package_id b -> x ∈ allowed_paths a -> x ∈ allowed_paths b ->
    package_id b ∈ dependencies a \/ package_id a ∈ dependencies b.
Record well_formed (s : OutcomeGraphSpec) : Prop := {
  wf_ids : NoDup (map package_id (packages s));
  wf_base : base_snapshot s <> "";
  wf_capacity : 1 <= maximum_concurrent s;
  wf_closed : closed (packages s);
  wf_acyclic : acyclic (packages s);
  wf_writers : writers_ordered (packages s) }.

Lemma by_id_some ps i p : NoDup (map package_id ps) -> lookup_key i (by_id ps) = Some p <-> p ∈ ps /\ package_id p = i.
Proof. apply index_by_some. Qed.

Section visiting.
Context (ps : list OutcomeWorkPackage) (Hn : NoDup (map package_id ps)).

Notation finished := (Acc (fun d i => dep ps i d)).

(** A search that returns adds only identifiers whose dependencies can all be
    finished. *)
Lemma visit_sound limit visiting visited i v :
  visit limit (by_id ps) visiting visited i = Ok v -> Forall finished visited ->
  i ∈ v /\ visited ⊆ v /\ Forall finished v.
Proof.
  revert visiting visited i v. induction limit as [|n IH]; intros visiting visited i v H Hv; [done|]. cbn in H.
  destruct (mem i visiting); [done|]. destruct (mem i visited) eqn:Ei.
  { injection H as <-. apply mem_spec in Ei. done. }
  destruct (lookup_key i (by_id ps)) as [p|] eqn:Ep; [|done]. take_ok H v1 E. injection H as <-.
  assert (Hl : forall l v0, rfold (fun v d => visit n (by_id ps) (i :: visiting) v d) v0 l = Ok v1 -> Forall finished v0 ->
    v0 ⊆ v1 /\ Forall finished v1 /\ forall d, d ∈ l -> d ∈ v1).
  { intros l. induction l as [|d l IHl]; intros v0 Hr Hv0; cbn in Hr.
    - injection Hr as <-. split; [done|]. split; [done|]. intros d Hd. by apply elem_of_nil in Hd.
    - take_ok Hr v2 E2. apply IH in E2 as (Hd & Hs & Hf); [|done]. destruct (IHl v2 Hr Hf) as (H1 & H2 & H3).
      split; [by etrans|]. split; [done|]. intros d' Hd'. apply elem_of_cons in Hd' as [->|Hd']; [by apply H1|by apply H3]. }
  destruct (Hl _ _ E Hv) as (Hs & Hf & Hd). split; [by left|]. split; [set_solver|]. constructor; [|done].
  constructor. intros d (q & Hq & Hqi & Hqd). assert (Eq : lookup_key i (by_id ps) = Some q) by (by apply by_id_some).
  rewrite Ep in Eq. injection Eq as <-. rewrite Forall_forall in Hf. apply Hf. by apply Hd.
Qed.

(** A search cannot fail on an acyclic graph: its path never meets itself, and
    so is no longer than the number of packages. *)
Lemma visit_complete (Hc : closed ps) (Ha : acyclic ps) limit visiting visited i :
  i ∈ map package_id ps -> NoDup visiting -> visiting ⊆ map package_id ps ->
  (forall x, x ∈ visiting -> tc (dep ps) x i) -> (length ps < limit + length visiting)%nat ->
  exists v, visit limit (by_id ps) visiting visited i = Ok v.
Proof.
  revert visiting visited i. induction limit as [|n IH]; intros visiting visited i Hi Hnd Hsub Hpath Hlen.
  { exfalso. assert (H : (length visiting <= length (map package_id ps))%nat) by (by apply submseteq_length, NoDup_submseteq).
    rewrite length_map in H. lia. }
  cbn. destruct (mem i visiting) eqn:Ev; [apply mem_spec in Ev; by destruct (Ha i); apply Hpath|].
  destruct (mem i visited); [by eexists|]. apply list_elem_of_fmap in Hi as (p & -> & Hp).
  assert (Ep : lookup_key (package_id p) (by_id ps) = Some p) by (by apply by_id_some). rewrite Ep.
  assert (Hni : package_id p ∉ visiting) by (intros H; apply mem_spec in H; congruence).
  destruct (rfold_total (fun v d => visit n (by_id ps) (package_id p :: visiting) v d) (dependencies p) visited) as [v ->];
    [|by eexists].
  intros v d Hd. assert (Hdep : dep ps (package_id p) d) by (by exists p). apply IH.
  - by apply (Hc (package_id p)).
  - by constructor.
  - intros x Hx. apply elem_of_cons in Hx as [->|Hx]; [|by apply Hsub]. apply list_elem_of_fmap. by exists p.
  - intros x Hx. apply elem_of_cons in Hx as [->|Hx]; [by apply tc_once|]. eapply tc_r; [by apply Hpath|done].
  - cbn. lia.
Qed.

End visiting.

Lemma missing_none ids p : List.filter (fun d => negb (mem d ids)) (dependencies p) = [] <-> forall d, d ∈ dependencies p -> d ∈ ids.
Proof.
  induction (dependencies p) as [|d l IH]; cbn; [split; [intros _ d Hd; by apply elem_of_nil in Hd|done]|].
  destruct (mem d ids) eqn:E; cbn.
  - apply mem_spec in E. rewrite IH. split; [intros H d' Hd'; apply elem_of_cons in Hd' as [->|Hd']; auto|].
    intros H d' Hd'. apply H. by right.
  - split; [done|]. intros H. assert (Hd : d ∈ ids) by (apply H; by left). apply mem_spec in Hd. congruence.
Qed.

Lemma overlap_spec a b : overlap a b = true <-> exists x, x ∈ a /\ x ∈ b.
Proof.
  unfold overlap. rewrite existsb_exists. split; intros (x & H1 & H2); exists x.
  - by rewrite list_elem_of_In, <- mem_spec.
  - by rewrite list_elem_of_In in H1; rewrite mem_spec.
Qed.

Lemma writers_spec ps : NoDup (map package_id ps) ->
  (forall a b, a ∈ ps -> b ∈ ps -> unordered_writers a b = false) <-> writers_ordered ps.
Proof.
  intros Hn. split.
  - intros H a b x Ha Hb Hne Hxa Hxb.
    assert (Ho : overlap (allowed_paths a) (allowed_paths b) = true) by (apply overlap_spec; eauto).
    assert (Ho' : overlap (allowed_paths b) (allowed_paths a) = true) by (apply overlap_spec; eauto).
    assert (Hab := H a b Ha Hb). assert (Hba := H b a Hb Ha). unfold unordered_writers in *. rewrite Ho in Hab. rewrite Ho' in Hba.
    destruct (mem (package_id b) (dependencies a)) eqn:E1; [left; by apply mem_spec|].
    destruct (mem (package_id a) (dependencies b)) eqn:E2; [right; by apply mem_spec|]. cbn in Hab, Hba.
    rewrite !andb_true_r in *. exfalso. destruct (string_ltb_total (package_id a) (package_id b)) as [?|[?|?]]; congruence.
  - intros H a b Ha Hb. unfold unordered_writers. destruct (String.ltb _ _) eqn:El; [|done].
    destruct (overlap _ _) eqn:Eo; [|done]. apply overlap_spec in Eo as (x & Hxa & Hxb). cbn.
    destruct (H a b x Ha Hb) as [Hd|Hd]; [intros E; rewrite E in El; by rewrite string_ltb_irrefl in El|done|done| |];
      apply mem_spec in Hd; rewrite Hd; [done|]. by rewrite andb_false_r.
Qed.

(** The two loops of pure checks. *)
Lemma missing_loop_spec ps :
  rfold (fun _ => check_missing (map package_id ps)) tt ps = Ok tt <-> closed ps.
Proof.
  rewrite rfold_unit. split.
  - intros H i d (p & Hp & <- & Hd). specialize (H p Hp). apply require_ok, bool_decide_eq_true in H.
    by apply (proj1 (missing_none _ p) H).
  - intros H p Hp. apply require_ok, bool_decide_eq_true, missing_none. intros d Hd. apply (H (package_id p)). by exists p.
Qed.

Lemma writers_loop_spec ps : NoDup (map package_id ps) ->
  rfold (fun _ => check_writers) tt (list_prod ps ps) = Ok tt <-> writers_ordered ps.
Proof.
  intros Hn. rewrite rfold_unit, <- writers_spec by done. split.
  - intros H a b Ha Hb. specialize (H (a, b)). apply negb_true_iff, (require_ok _ GraphError "overlapping writers require an ordering dependency" tt).
    apply H, list_elem_of_In, in_prod; by apply list_elem_of_In.
  - intros H [a b] Hab. apply list_elem_of_In, in_prod_iff in Hab as [Ha Hb]. apply require_ok, negb_true_iff, H; by apply list_elem_of_In.
Qed.

(** Every package of a searched graph can be finished. *)
Lemma search_sound limit ps v :
  NoDup (map package_id ps) -> rfold (visit limit (by_id ps) []) [] (map package_id ps) = Ok v ->
  forall i, i ∈ map package_id ps -> Acc (fun d i => dep ps i d) i.
Proof.
  intros Hn H. cut (forall l v0, rfold (visit limit (by_id ps) []) v0 l = Ok v -> Forall (Acc (fun d i => dep ps i d)) v0 ->
    v0 ⊆ v /\ Forall (Acc (fun d i => dep ps i d)) v /\ l ⊆ v).
  { intros G i Hi. destruct (G _ _ H) as (_ & Hf & Hs); [constructor|]. rewrite Forall_forall in Hf. by apply Hf, Hs. }
  intros l. induction l as [|i l IH]; intros v0 Hr Hv0; cbn in Hr.
  - injection Hr as <-. split; [done|]. split; [done|]. intros x Hx. by apply elem_of_nil in Hx.
  - take_ok Hr v1 E. apply visit_sound in E as (Hi & Hs & Hf); [|done|done]. destruct (IH v1 Hr Hf) as (H1 & H2 & H3).
    split; [by etrans|]. split; [done|]. intros x Hx. apply elem_of_cons in Hx as [->|Hx]; [by apply H1|by apply H3].
Qed.

Lemma search_complete limit ps :
  NoDup (map package_id ps) -> closed ps -> acyclic ps -> (length ps < limit)%nat ->
  exists v, rfold (visit limit (by_id ps) []) [] (map package_id ps) = Ok v.
Proof.
  intros Hn Hc Ha Hl. apply rfold_total. intros v i Hi. apply visit_complete; try done; [constructor|set_solver|set_solver|cbn; lia].
Qed.

(** A package outside the graph depends on nothing. *)
Lemma search_acyclic limit ps v :
  NoDup (map package_id ps) -> rfold (visit limit (by_id ps) []) [] (map package_id ps) = Ok v -> acyclic ps.
Proof.
  intros Hn H i Hc. apply (finishable_no_cycle (dep ps) i); [|done]. eapply search_sound; [done|done|].
  assert (exists d, dep ps i d) as (d & p & Hp & <- & _) by (inversion Hc; eauto). apply list_elem_of_fmap. by exists p.
Qed.

(** [compile_outcome_graph] accepts exactly the well-formed graphs: unique
    identifiers, a base snapshot, positive capacity, no missing dependency, no
    dependency cycle of any length, and a direct dependency between any two
    packages that may write one path, whenever the interpreter's recursion limit
    exceeds the number of packages. *)
Theorem compile_accepts_iff limit s :
  (length (packages s) < limit)%nat -> compile_spec limit s = Ok s <-> well_formed s.
Proof.
  intros Hl. unfold compile_spec. split.
  - intros H. take_guard H H1. take_guard H H2. take_guard H H3. take_ok H u H4. take_ok H v H5. take_ok H u' H6. destruct u, u'.
    apply bool_decide_eq_true in H1. apply negb_true_iff, String.eqb_neq in H2. apply Z.leb_le in H3.
    split; [done|done|done|by apply missing_loop_spec|by eapply search_acyclic|by apply writers_loop_spec].
  - intros [H1 H2 H3 H4 H5 H6]. unfold distinct. rewrite bool_decide_eq_true_2 by done. cbn [require rbind].
    apply String.eqb_neq in H2. rewrite H2. cbn [negb require rbind]. apply Z.leb_le in H3. rewrite H3. cbn [require rbind].
    rewrite (proj2 (missing_loop_spec (packages s)) H4). cbn [rbind].
    destruct (search_complete limit (packages s) H1 H4 H5 Hl) as [v ->]. cbn [rbind].
    by rewrite (proj2 (writers_loop_spec (packages s) H1) H6).
Qed.

(** ** Dispatch rounds *)

(** Two packages may run side by side. *)
Definition compatible (a b : OutcomeWorkPackage) : Prop :=
  (forall x, x ∈ allowed_paths a -> x ∉ allowed_paths b) /\ (forall x, x ∈ semantic_locks a -> x ∉ semantic_locks b).

(** A plan from what is [completed]: every round is non-empty, within capacity,
    depends only on what was completed before it, and holds packages that are
    compatible with one another. *)
Inductive legal_rounds (ps : list OutcomeWorkPackage) (capacity : Z) : list string -> list (list string) -> Prop :=
| rounds_nil completed : legal_rounds ps capacity completed []
| rounds_cons completed r rs :
    r <> [] -> Z.of_nat (length r) <= capacity ->
    (forall i d, i ∈ r -> dep ps i d -> d ∈ completed) ->
    (forall a b, a ∈ ps -> b ∈ ps -> package_id a ∈ r -> package_id b ∈ r -> package_id a <> package_id b -> compatible a b) ->
    legal_rounds ps capacity (completed ++ r) rs ->
    legal_rounds ps capacity completed (r :: rs).

Lemma overlap_false a b : overlap a b = false -> forall x, x ∈ a -> x ∉ b.
Proof. intros H x Ha Hb. assert (overlap a b = true) by (apply overlap_spec; eauto). congruence. Qed.

(** What a filled round is: a subsequence of the candidates, within capacity,
    pairwise compatible when the chosen ones are. *)
Lemma choose_spec capacity candidates chosen paths locks :
  (forall p, p ∈ chosen -> allowed_paths p ⊆ paths /\ semantic_locks p ⊆ locks) ->
  StronglySorted compatible chosen -> Z.of_nat (length chosen) <= capacity ->
  exists l, choose capacity candidates chosen paths locks = chosen ++ l /\ l `sublist_of` candidates
    /\ StronglySorted compatible (chosen ++ l) /\ Z.of_nat (length (chosen ++ l)) <= capacity.
Proof.
  revert chosen paths locks. induction candidates as [|p ps IH]; intros chosen paths locks Hc Hs Hl; cbn.
  { exists []. rewrite app_nil_r. done. }
  destruct (Z.leb_spec capacity (Z.of_nat (length chosen))) as [Hle|Hlt].
  { exists []. rewrite app_nil_r. split; [done|]. split; [apply sublist_nil_l|done]. }
  destruct (overlap paths (allowed_paths p) || overlap locks (semantic_locks p)) eqn:Eo.
  { destruct (IH chosen paths locks Hc Hs Hl) as (l & E & Hsub & Hss & Hlen). exists l. split; [done|].
    split; [by constructor|done]. }
  apply orb_false_iff in Eo as [Ep Ek].
  destruct (IH (chosen ++ [p]) (paths ++ allowed_paths p) (locks ++ semantic_locks p)) as (l & E & Hsub & Hss & Hlen).
  - intros q Hq. apply elem_of_app in Hq as [Hq|Hq].
    + destruct (Hc q Hq). split; set_solver.
    + apply list_elem_of_singleton in Hq as ->. split; set_solver.
  - apply StronglySorted_app_2; [|done|repeat constructor]. intros q p' Hq Hp'. apply list_elem_of_singleton in Hp' as ->.
    destruct (Hc q Hq) as [H1 H2]. split; intros x Hx.
    + apply (overlap_false _ _ Ep). by apply H1.
    + apply (overlap_false _ _ Ek). by apply H2.
  - rewrite length_app. cbn. lia.
  - exists (p :: l). rewrite <- app_assoc in E, Hss, Hlen. cbn in E, Hss, Hlen. split; [done|]. split; [by constructor|done].
Qed.

Lemma choose_first capacity p ps : 1 <= capacity -> choose capacity (p :: ps) [] [] [] <> [].
Proof.
  intros Hc. cbn. destruct (Z.leb_spec capacity (Z.of_nat 0)) as [|_]; [lia|].
  destruct (choose_spec capacity ps [p] (allowed_paths p) (semantic_locks p)) as (l & -> & _); [| |cbn; lia|done].
  - intros q Hq. by apply list_elem_of_singleton in Hq as ->.
  - apply SSorted_cons; [apply SSorted_nil|constructor].
Qed.

Lemma compatible_sym a b : compatible a b -> compatible b a.
Proof. intros [H1 H2]. split; intros x Hx Hy; [by apply (H1 x)|by apply (H2 x)]. Qed.

Lemma sorted_pairs (l : list OutcomeWorkPackage) a b :
  StronglySorted compatible l -> a ∈ l -> b ∈ l -> a <> b -> compatible a b.
Proof.
  induction 1 as [|x l Hl IH Hx]; [intros Ha; by apply elem_of_nil in Ha|]. rewrite Forall_forall in Hx.
  rewrite !elem_of_cons. intros [->|Ha] [->|Hb] Hne; [done|by apply Hx|by apply compatible_sym, Hx|by apply IH].
Qed.

Lemma sublist_map {A B} (f : A -> B) l1 l2 : l1 `sublist_of` l2 -> map f l1 `sublist_of` map f l2.
Proof. by induction 1; simpl; constructor. Qed.

Section dispatch.
Context (ps : list OutcomeWorkPackage) (capacity : Z).
Context (Hn : NoDup (map package_id ps)) (Hcap : 1 <= capacity) (Hclosed : closed ps).
Context (Hacc : forall i, i ∈ map package_id ps -> Acc (fun d i => dep ps i d) i).

(** The packages not yet dispatched. *)
Record pending_graph (completed : list string) (remaining : list (string * OutcomeWorkPackage)) : Prop := {
  pg_keys : NoDup remaining.*1;
  pg_packages : forall i p, (i, p) ∈ remaining -> p ∈ ps /\ package_id p = i;
  pg_cover : forall i, i ∈ map package_id ps -> i ∈ completed \/ i ∈ remaining.*1 }.

Lemma same_package p q : p ∈ ps -> q ∈ ps -> package_id p = package_id q -> p = q.
Proof. by apply same_key. Qed.

(** Some remaining package has all its dependencies completed. *)
Lemma some_candidate completed remaining i :
  pending_graph completed remaining -> i ∈ remaining.*1 -> List.filter (satisfied completed) (map snd remaining) <> [].
Proof.
  intros [Hk Hp Hcov] Hi. assert (Ha : Acc (fun d i => dep ps i d) i).
  { apply list_elem_of_fmap in Hi as ([j p] & -> & Hj). destruct (Hp j p Hj) as [H1 H2]. apply Hacc.
    apply list_elem_of_fmap. by exists p. }
  revert Hi. induction Ha as [i _ IH]. intros Hi. apply list_elem_of_fmap in Hi as ([j p] & -> & Hj). cbn in IH.
  destruct (Hp j p Hj) as [Hin Hid]. destruct (satisfied completed p) eqn:Es.
  - intros E. assert (Hf : In p (List.filter (satisfied completed) (map snd remaining))).
    { apply filter_In. split; [|done]. apply in_map_iff. exists (j, p). split; [done|]. by apply list_elem_of_In. }
    by rewrite E in Hf.
  - apply forallb_exists_false in Es as (d & Hd & Hm). assert (Hdep : dep ps j d) by (by exists p).
    apply (IH d Hdep). destruct (Hcov d) as [Hc|Hr]; [by apply (Hclosed j)| |done]. apply mem_spec in Hc. congruence.
Qed.

(** One turn of the loop. *)
Lemma round_ok completed remaining :
  pending_graph completed remaining -> remaining <> [] ->
  exists r, round_of capacity completed remaining = Ok r /\ r <> [] /\ Z.of_nat (length r) <= capacity /\ NoDup r
    /\ r ⊆ remaining.*1 /\ (forall i d, i ∈ r -> dep ps i d -> d ∈ completed)
    /\ (forall a b, a ∈ ps -> b ∈ ps -> package_id a ∈ r -> package_id b ∈ r -> package_id a <> package_id b -> compatible a b).
Proof.
  intros Hg Hne. destruct remaining as [|[i0 p0] rest] eqn:Er; [done|]. rewrite <- Er in *.
  assert (Hi0 : i0 ∈ remaining.*1) by (rewrite Er; by left).
  assert (Hcand := some_candidate completed remaining i0 Hg Hi0). destruct Hg as [Hk Hp Hcov].
  unfold round_of. rewrite bool_decide_eq_false_2 by done. cbn [negb require rbind].
  set (cands := List.filter (satisfied completed) (map snd remaining)) in *.
  assert (Hin : forall p, p ∈ cands -> p ∈ ps /\ (package_id p, p) ∈ remaining /\ satisfied completed p = true).
  { intros p Hpc. apply list_elem_of_In, filter_In in Hpc as [H1 H2]. apply in_map_iff in H1 as ([j q] & <- & H1).
    apply list_elem_of_In in H1. destruct (Hp j q H1) as [H3 H4]. cbn. by rewrite H4. }
  destruct (choose_spec capacity (sorted_by package_id cands) [] [] []) as (l & E & Hsub & Hss & Hlen);
    [intros p Hpn; by apply elem_of_nil in Hpn|constructor|cbn; lia|]. rewrite E. cbn [app] in *.
  assert (Hl : forall p, p ∈ l -> p ∈ cands).
  { intros p Hpl. apply (elem_of_sorted_by package_id). by eapply sublist_subseteq. }
  assert (Hlne : l <> []).
  { rewrite <- E. destruct (sorted_by package_id cands) as [|p ps'] eqn:Es; [|by apply choose_first].
    destruct Hcand. apply Permutation_nil. rewrite <- Es. apply sorted_by_perm. }
  rewrite bool_decide_eq_false_2 by (by destruct l). cbn [negb require rbind]. eexists. split; [reflexivity|].
  split; [by destruct l|]. split; [by rewrite length_map|]. split; [|split; [|split]].
  - eapply (sublist_NoDup _ (map package_id (sorted_by package_id cands))); [|by apply sublist_map].
    assert (Hperm : map package_id (sorted_by package_id cands) ≡ₚ map package_id cands) by (by apply Permutation_map, sorted_by_perm).
    rewrite Hperm. eapply sublist_NoDup; [exact Hk|]. unfold cands. clear -Hp.
    induction remaining as [|[j q] rem IH]; cbn; [done|]. assert (Hq := proj2 (Hp j q ltac:(by left))).
    assert (IH' := IH (fun i p H => Hp i p (list_elem_of_further _ _ _ H))).
    destruct (satisfied completed q); cbn; [rewrite Hq; by constructor|by constructor].
  - intros i Hi. apply list_elem_of_fmap in Hi as (p & -> & Hpl). destruct (Hin p (Hl p Hpl)) as (_ & H & _).
    apply list_elem_of_fmap. by exists (package_id p, p).
  - intros i d Hi (q & Hq & Hqi & Hd). apply list_elem_of_fmap in Hi as (p & -> & Hpl).
    destruct (Hin p (Hl p Hpl)) as (Hpp & _ & Hsat). rewrite (same_package q p Hq Hpp Hqi) in Hd.
    unfold satisfied in Hsat. rewrite forallb_forall in Hsat. apply mem_spec, Hsat. by apply list_elem_of_In.
  - intros a b Ha Hb Hia Hib Hne'. apply list_elem_of_fmap in Hia as (p & Hpa & Hpl). apply list_elem_of_fmap in Hib as (q & Hqb & Hql).
    destruct (Hin p (Hl p Hpl)) as (Hpp & _). destruct (Hin q (Hl q Hql)) as (Hqp & _).
    rewrite (same_package a p), (same_package b q) by done. eapply sorted_pairs; [exact Hss|done|done|congruence].
Qed.

End dispatch.

Section planning.
Context (ps : list OutcomeWorkPackage) (capacity : Z).
Context (Hn : NoDup (map package_id ps)) (Hcap : 1 <= capacity) (Hclosed : closed ps).
Context (Hacc : forall i, i ∈ map package_id ps -> Acc (fun d i => dep ps i d) i).

Lemma pending_next completed remaining r :
  pending_graph ps completed remaining ->
  pending_graph ps (completed ++ r) (List.filter (fun kp => negb (mem kp.1 r)) remaining).
Proof.
  intros [Hk Hp Hc]. split.
  - rewrite filter_keys. apply NoDup_filter_list, Hk.
  - intros i p Hip. apply list_elem_of_In, filter_In in Hip as [Hip _]. apply Hp. by apply list_elem_of_In.
  - intros i Hi. rewrite elem_of_app, filter_keys, elem_of_filter_not. destruct (decide (i ∈ r)) as [Hr|Hr]; [tauto|].
    destruct (Hc i Hi); tauto.
Qed.

Lemma rounds_ok n completed remaining :
  pending_graph ps completed remaining -> (length remaining <= n)%nat ->
  exists rounds, rounds_loop n capacity completed remaining = Some (Ok rounds)
    /\ concat rounds ≡ₚ remaining.*1 /\ legal_rounds ps capacity completed rounds.
Proof.
  revert completed remaining. induction n as [|n IH]; intros completed remaining Hg Hl.
  { destruct remaining; [|cbn in Hl; lia]. exists []. split; [done|]. split; [done|constructor]. }
  destruct remaining as [|kp rest] eqn:Er; [exists []; split; [done|]; split; [done|constructor]|]. rewrite <- Er in *.
  destruct (round_ok ps capacity Hn Hcap Hclosed Hacc completed remaining Hg) as (r & E & Hne & Hlen & Hnd & Hsub & Hdep & Hcomp);
    [by rewrite Er|].
  assert (Hperm : r ++ (List.filter (fun kp => negb (mem kp.1 r)) remaining).*1 ≡ₚ remaining.*1).
  { rewrite filter_keys. apply split_keys; [apply Hg|done|done]. }
  destruct (IH (completed ++ r) (List.filter (fun kp => negb (mem kp.1 r)) remaining)) as (rounds & Er' & Hp & Hleg).
  - by apply pending_next.
  - apply Permutation_length in Hperm. rewrite length_app, !length_fmap in Hperm. destruct r; [done|]. cbn in Hperm. lia.
  - exists (r :: rounds). split; [|split].
    + rewrite Er. cbn [rounds_loop]. rewrite <- Er, E, Er'. done.
    + cbn. by rewrite Hp.
    + by constructor.
Qed.
End planning.

Lemma by_id_entries l : NoDup (by_id l).*1 /\ (forall i p, (i, p) ∈ by_id l -> p ∈ l /\ package_id p = i)
  /\ (forall i, i ∈ map package_id l -> i ∈ (by_id l).*1).
Proof. split; [apply index_by_keys|]. split; [apply index_by_entries|]. intros i. by apply index_by_elem. Qed.

(** C13: on a compiled graph [dispatch_rounds] always returns, whatever is already
    completed: its rounds dispatch every other package exactly once, each round
    is non-empty and within capacity, waits for all dependencies of its
    packages, and never puts two packages that share a path or a semantic lock
    side by side. *)
Theorem dispatch_rounds_legal limit s completed :
  compile_spec limit s = Ok s ->
  exists rounds, dispatch_rounds s completed = Some (Ok rounds)
    /\ concat rounds ≡ₚ List.filter (fun i => negb (mem i completed)) (map package_id (packages s))
    /\ legal_rounds (packages s) (maximum_concurrent s) completed rounds.
Proof.
  intros H. unfold compile_spec in H. take_guard H H1. take_guard H H2. take_guard H H3. take_ok H u H4. take_ok H v H5.
  apply bool_decide_eq_true in H1. apply Z.leb_le in H3. destruct u. apply missing_loop_spec in H4.
  assert (Hacc := search_sound _ _ _ H1 H5). unfold dispatch_rounds.
  set (todo := List.filter (fun p => negb (mem (package_id p) completed)) (packages s)).
  assert (Hids : map package_id todo = List.filter (fun i => negb (mem i completed)) (map package_id (packages s))).
  { unfold todo. clear. induction (packages s) as [|p l IH]; cbn; [done|]. destruct (mem _ _); cbn; [done|by f_equal]. }
  destruct (by_id_entries todo) as (Hk & He & Hd).
  destruct (rounds_ok (packages s) (maximum_concurrent s) H1 H3 H4 Hacc (length (by_id todo)) completed (by_id todo))
    as (rounds & E & Hp & Hleg); [|done|].
  - split; [done| |].
    + intros i p Hip. destruct (He i p Hip) as [Hin Hi]. split; [|done]. apply list_elem_of_In, filter_In in Hin as [Hin _].
      by apply list_elem_of_In.
    + intros i Hi. destruct (decide (i ∈ completed)); [by left|right]. apply Hd. rewrite Hids. by apply elem_of_filter_not.
  - exists rounds. split; [done|]. split; [|done]. rewrite Hp, <- Hids. apply NoDup_Permutation; [done| |].
    + rewrite Hids. apply NoDup_filter_list, H1.
    + intros i. split; [|apply Hd]. intros Hi. apply list_elem_of_fmap in Hi as ([j p] & -> & Hj). destruct (He j p Hj) as [Hin <-].
      apply list_elem_of_fmap. by exists p.
Qed.

(** Whatever is chosen was chosen before or is a candidate. *)
Lemma choose_incl capacity candidates chosen paths locks p :
  p ∈ choose capacity candidates chosen paths locks -> p ∈ chosen \/ p ∈ candidates.
Proof.
  revert chosen paths locks. induction candidates as [|q qs IH]; intros chosen paths locks; cbn; [by left|].
  destruct (_ <=? _); [by left|]. destruct (_ || _); intros H; apply IH in H as [H|H]; try (right; by right); [by left|].
  apply elem_of_app in H as [H|H]; [by left|]. apply list_elem_of_singleton in H as ->. right. by left.
Qed.

Lemma round_progress capacity completed remaining r :
  (forall i p, (i, p) ∈ remaining -> package_id p = i) -> round_of capacity completed remaining = Ok r ->
  exists i, i ∈ r /\ i ∈ remaining.*1.
Proof.
  intros Hk H. unfold round_of in H. take_guard H H1. take_guard H H2. injection H as <-.
  destruct (choose _ _ _ _ _) as [|p l] eqn:E; [done|]. exists (package_id p). split; [by left|].
  assert (Hp : p ∈ choose capacity (sorted_by package_id (List.filter (satisfied completed) (map snd remaining))) [] [] [])
    by (rewrite E; by left).
  apply choose_incl in Hp as [Hp|Hp]; [by apply elem_of_nil in Hp|]. apply elem_of_sorted_by in Hp.
  apply list_elem_of_In, filter_In in Hp as [Hp _]. apply in_map_iff in Hp as ([i q] & <- & Hq). apply list_elem_of_In in Hq.
  apply list_elem_of_fmap. exists (i, q). split; [|done]. cbn. by apply Hk.
Qed.

Lemma rounds_terminate n capacity completed remaining :
  (forall i p, (i, p) ∈ remaining -> package_id p = i) -> (length remaining <= n)%nat ->
  rounds_loop n capacity completed remaining <> None.
Proof.
  revert completed remaining. induction n as [|n IH]; intros completed remaining Hk Hl;
    (destruct remaining as [|kp rest] eqn:Er; [done|]); [cbn in Hl; lia|]. rewrite <- Er in *.
  assert (E : rounds_loop (S n) capacity completed remaining =
    match round_of capacity completed remaining with
    | Raise e => Some (Raise e)
    | Ok chosen => match rounds_loop n capacity (completed ++ chosen) (List.filter (fun kp => negb (mem kp.1 chosen)) remaining) with
                   | Some (Ok rounds) => Some (Ok (chosen :: rounds)) | other => other end
    end) by (by rewrite Er). rewrite E. clear E. destruct (round_of capacity completed remaining) as [r|e] eqn:E; [|done].
  destruct (round_progress _ _ _ _ Hk E) as (i & Hir & Hik).
  assert (Hlt : (length (List.filter (fun kp => negb (mem kp.1 r)) remaining) < length remaining)%nat).
  { clear -Hir Hik. induction remaining as [|[k p] rem IH]; [by apply elem_of_nil in Hik|]. cbn.
    destruct (mem k r) eqn:Em; cbn; [assert (H := List.filter_length_le (fun kp : string * OutcomeWorkPackage => negb (mem kp.1 r)) rem); lia|].
    apply elem_of_cons in Hik as [->|Hik]; [apply mem_spec in Hir; cbn in *; congruence|]. specialize (IH Hik). lia. }
  assert (G := IH (completed ++ r) (List.filter (fun kp => negb (mem kp.1 r)) remaining)).
  destruct (rounds_loop n _ _ _) as [[rounds|e]|]; [done|done|]. exfalso. apply G; [|lia|done].
  intros j p Hj. apply list_elem_of_In, filter_In in Hj as [Hj _]. apply Hk. by apply list_elem_of_In.
Qed.

(** The dispatch loop terminates on every graph, compiled or not, at every
    capacity: it returns rounds or raises. *)
Theorem dispatch_rounds_terminate s completed : exists r, dispatch_rounds s completed = Some r.
Proof.
  unfold dispatch_rounds. set (l := List.filter _ _). destruct (by_id_entries l) as (_ & He & _).
  destruct (rounds_loop _ _ _ _) as [r|] eqn:E; [by eexists|]. exfalso. revert E. apply rounds_terminate; [|done].
  intros i p Hip. by apply He.
Qed.

(** ** A sample graph *)

Module SampleGraph.
Definition package (i : string) (deps paths locks : list string) : OutcomeWorkPackage :=
  {| package_id := i; outcome_ids := ["OUT-1"]; dependencies := deps; allowed_paths := paths; semantic_locks := locks;
     acceptance_ids := []; risk_tier := "medium"; required_roles := []; effort := 1; rollback := "retain prior candidate";
     pkg_state := "pending" |}.
(** A diamond with a lock between its two middle packages. *)
Definition diamond : list OutcomeWorkPackage :=
  [package "d" ["b"; "c"] ["src/app"] []; package "b" ["a"] ["src/core"] ["schema"];
   package "c" ["a"] ["docs"] ["schema"]; package "a" [] ["src/api"; "src/core"] []; package "e" [] ["tests"] []].
Definition spec : OutcomeGraphSpec :=
  {| packages := diamond; base_snapshot := "main"; contract_version := 1; maximum_concurrent := 2; court_receipt := "" |}.
End SampleGraph.

Lemma compile_accepts_iff_witness : well_formed SampleGraph.spec.
Proof. apply (compile_accepts_iff 1000 SampleGraph.spec); [cbn; lia|]. vm_compute. reflexivity. Defined.

Lemma dispatch_rounds_legal_witness :
  dispatch_rounds SampleGraph.spec [] = Some (Ok [["a"; "e"]; ["b"]; ["c"]; ["d"]])
  /\ legal_rounds (packages SampleGraph.spec) 2 [] [["a"; "e"]; ["b"]; ["c"]; ["d"]].
Proof.
  assert (E : dispatch_rounds SampleGraph.spec [] = Some (Ok [["a"; "e"]; ["b"]; ["c"]; ["d"]])) by (vm_compute; reflexivity).
  split; [exact E|]. destruct (dispatch_rounds_legal 1000 SampleGraph.spec []) as (rounds & H & _ & Hl); [vm_compute; reflexivity|].
  rewrite E in H. injection H as <-. exact Hl.
Defined.

End OutcomeGraph.
