(* ===== verification/Schema.v ===== *)
(** * Contract schemas

    [contracts.py]: the fail-closed JSON Schema subset every contract document
    is validated against, [receipts.portable_path_parts] for its
    [portable-relative-path] format, and the kernel's own schema documents
    ([schemas/brain-kernel-*.schema.json]) that the modelled code loads. *)

From S2P Require Import Prelude Canonical PyLib.
From Stdlib Require Import Ascii.

(** ** Patterns

    [compile] reads the pattern syntax the kernel schemas use: [^], [$],
    literals, bracketed classes and the quantifiers.  A pattern outside that
    syntax has no meaning here ([None]). *)
Module Pattern.

Definition in_ranges (rs : list (N * N)) (a : ascii) : bool :=
  existsb (fun r => between r.1 r.2 a) rs.

(** The inside of [[...]]: ranges and single characters. *)
Fixpoint parse_class (fuel : nat) (s : string) : option (list (N * N) * string) :=
  match fuel with
  | O => None
  | S f =>
      match s with
      | EmptyString => None
      | String a r =>
          if ascii_dec a "]" then Some ([], r)
          else match r with
          | String d (String b r') =>
              if bool_decide (d = "-"%char) && negb (bool_decide (b = "]"%char)) then
                option_map (fun p => ((code a, code b) :: p.1, p.2)) (parse_class f r')
              else option_map (fun p => ((code a, code a) :: p.1, p.2)) (parse_class f r)
          | _ => option_map (fun p => ((code a, code a) :: p.1, p.2)) (parse_class f r)
          end
      end
  end.

(** A quantifier and the items it makes of a class. *)
Definition quantify (c : ascii -> bool) (s : string) : option (list re_item * string) :=
  match s with
  | String q r =>
      if ascii_dec q "*" then Some ([Star c], r)
      else if ascii_dec q "+" then Some ([One c; Star c], r)
      else if ascii_dec q "?" then Some ([Opt c], r)
      else if ascii_dec q "{" then
        match pdigits r with
        | Some (n, String d r') =>
            if ascii_dec d "}" then Some (times (Z.to_nat n) c, r')
            else if ascii_dec d "," then
              match pdigits r' with
              | Some (m, String e r'') =>
                  if ascii_dec e "}" then Some (times (Z.to_nat n) c ++ upto (Z.to_nat (m - n)) c, r'')
                  else None
              | _ => match r' with
                     | String e r'' => if ascii_dec e "}" then Some (times (Z.to_nat n) c ++ [Star c], r'') else None
                     | EmptyString => None
                     end
              end
            else None
        | _ => None
        end
      else Some ([One c], s)
  | EmptyString => Some ([One c], EmptyString)
  end.

(** Characters with a meaning this subset does not cover. *)
Definition is_special (a : ascii) : bool :=
  mem (String a "") ["."; "("; ")"; "|"; "\"; "^"; "*"; "+"; "?"; "{"; "}"; "]"].

Fixpoint parse_items (fuel : nat) (s : string) : option (list re_item) :=
  match fuel with
  | O => None
  | S f =>
      match s with
      | EmptyString => Some [Star (fun _ => true)]
      | String a r =>
          if ascii_dec a "$" then (if String.eqb r "" then Some [Dollar] else None)
          else
            let atom :=
              if ascii_dec a "[" then
                option_map (fun p => (in_ranges p.1, p.2)) (parse_class (String.length r) r)
              else if is_special a then None
              else Some ((fun b => bool_decide (b = a)), r) in
            match atom with
            | None => None
            | Some (c, r1) =>
                match quantify c r1 with
                | None => None
                | Some (its, r2) => option_map (app its) (parse_items f r2)
                end
            end
      end
  end.

Definition compile (p : string) : option (list re_item) :=
  match p with
  | String a r =>
      if ascii_dec a "^" then parse_items (S (String.length p)) r
      else option_map (cons (Star (fun _ => true))) (parse_items (S (String.length p)) p)
  | EmptyString => Some [Star (fun _ => true)]
  end.

(** [re.search(pattern, value) is not None] *)
Definition re_search (p value : string) : option bool :=
  option_map (fun its => match_items its value) (compile p).

End Pattern.

Module Schema.
Export Pattern.

(** ** Formats *)

(** [_RFC3339_PATTERN]: the two optional parts give four sequences. *)
Definition rfc3339_date : list re_item :=
  times 4 is_digit ++ [lit "-"] ++ times 2 is_digit ++ [lit "-"] ++ times 2 is_digit ++ [lit "T"]
  ++ times 2 is_digit ++ [lit ":"] ++ times 2 is_digit ++ [lit ":"] ++ times 2 is_digit.
Definition rfc3339_fraction : list re_item := [lit "."; One is_digit; Star is_digit].
Definition rfc3339_offset : list re_item :=
  One (fun a => bool_decide (a = "+"%char) || bool_decide (a = "-"%char)) ::
  times 2 is_digit ++ [lit ":"] ++ times 2 is_digit.
Definition is_rfc3339 (s : string) : bool :=
  existsb (fun p => match_items p s)
    [rfc3339_date ++ [lit "Z"]; rfc3339_date ++ rfc3339_offset;
     rfc3339_date ++ rfc3339_fraction ++ [lit "Z"]; rfc3339_date ++ rfc3339_fraction ++ rfc3339_offset].

(** The [date-time] format: an RFC 3339 time with an offset. *)
Definition is_date_time (s : string) : bool :=
  is_rfc3339 s && match from_zulu s with Some d => is_aware d | None => false end.

Definition drive_prefix (s : string) : bool :=
  match s with
  | String a (String c _) => (is_upper a || is_lower a) && bool_decide (c = ":"%char)
  | _ => false
  end.

Fixpoint ends_with (p : ascii -> bool) (s : string) : bool :=
  match s with
  | EmptyString => false
  | String a EmptyString => p a
  | String _ s' => ends_with p s'
  end.

Definition upper_char (a : ascii) : ascii := if is_lower a then chr (code a - 32) else a.
Fixpoint upper (s : string) : string :=
  match s with EmptyString => EmptyString | String a s' => String (upper_char a) (upper s') end.

(** [s.split(".", 1)[0]] *)
Definition before_dot (s : string) : string := default "" (head (split_on "." s)).

Definition reserved_names : list string :=
  ["CON"; "PRN"; "AUX"; "NUL"]
  ++ map (fun n => ("COM" +:+ str_of_Z (Z.of_nat n))%stdpp) (seq 1 9)
  ++ map (fun n => ("LPT" +:+ str_of_Z (Z.of_nat n))%stdpp) (seq 1 9).

Definition is_segment_char (a : ascii) : bool := is_id_char a || bool_decide (a = " "%char).

Definition portable_segment (part : string) : bool :=
  match_items [One is_segment_char; Star is_segment_char] part
  && negb (ends_with (fun a => bool_decide (a = " "%char) || bool_decide (a = "."%char)) part)
  && negb (mem (upper (before_dot part)) reserved_names).

(** [PurePosixPath(parts).as_posix()] for segments that are neither empty nor a
    dot and hold no slash: the segments joined. *)
Definition as_posix (parts : list string) : string := join "/" parts.

Definition dot_segment (part : string) : bool := mem part [""; "."; ".."].

Definition portable_path_parts (value : string) : result (list string) :=
  require (negb (String.eqb value "" || startswith "/" value
                 || negb (all_chars (fun a => negb (bool_decide (a = backslash))) value)
                 || drive_prefix value))
    ValueError "path must use portable relative POSIX syntax" ;?
  let raw_parts := split_on "/" value in
  require (negb (existsb dot_segment raw_parts))
    ValueError "path must not contain empty, current, or parent segments" ;?
  require (forallb portable_segment raw_parts)
    ValueError "path contains a nonportable or reserved segment" ;?
  require (String.eqb (as_posix raw_parts) value)
    ValueError "path must use canonical portable relative POSIX syntax" ;?
  Ok raw_parts.

(** ** The validator *)

Definition matches_type (value : json) (expected : string) : bool :=
  if String.eqb expected "null" then match value with JNull => true | _ => false end
  else if String.eqb expected "boolean" then match value with JBool _ => true | _ => false end
  else if String.eqb expected "integer" then match value with JInt _ => true | _ => false end
  else if String.eqb expected "number" then match value with JInt _ => true | _ => false end
  else if String.eqb expected "string" then match value with JStr _ => true | _ => false end
  else if String.eqb expected "array" then match value with JList _ => true | _ => false end
  else if String.eqb expected "object" then match value with JObj _ => true | _ => false end
  else false.

(** [type(a) is type(b)] *)
Definition same_type (a b : json) : bool :=
  match a, b with
  | JNull, JNull | JBool _, JBool _ | JInt _, JInt _ | JStr _, JStr _
  | JList _, JList _ | JObj _, JObj _ => true
  | _, _ => false
  end.

(** The [repr] of a list of plain strings, as the type message prints it. *)
Definition repr_types (l : list json) : string :=
  ("[" +:+ join ", " (map (fun j => match j with JStr s => "'" +:+ s +:+ "'" | _ => "" end) l) +:+ "]")%stdpp.

Definition msg (path text : string) : string := (path +:+ ": " +:+ text)%stdpp.
Definition when (b : bool) (m : string) : list string := if b then [m] else [].

(** The issue of a keyword with an integer, string, list or object argument. *)
Definition on {A B} (get_arg : json -> option A) (key : string) (schema : list (string * json))
    (none : B) (f : A -> B) : B :=
  match get_arg (get key schema) with Some a => f a | None => none end.

(** The string keywords.  [None]: the pattern is outside the modelled syntax. *)
Definition string_issues (schema : list (string * json)) (path s : string) : option (list string) :=
  option_map (fun pattern_issues =>
    on as_int "minLength" schema [] (fun n =>
      when (str_len s <? n) (msg path ("string is shorter than " +:+ str_of_Z n)%stdpp))
    ++ on as_int "maxLength" schema [] (fun n =>
      when (n <? str_len s) (msg path ("string is longer than " +:+ str_of_Z n)%stdpp))
    ++ pattern_issues
    ++ (if py_eq (get "format" schema) (JStr "date-time")
        then when (negb (is_date_time s)) (msg path "invalid date-time") else [])
    ++ (if py_eq (get "format" schema) (JStr "portable-relative-path")
        then when (negb (is_ok (portable_path_parts s))) (msg path "invalid portable relative path") else []))
  (on as_str "pattern" schema (Some []) (fun p =>
    option_map (fun ok => when (negb ok) (msg path "string does not match required pattern")) (re_search p s))).

Definition integer_issues (schema : list (string * json)) (path : string) (z : Z) : list string :=
  on as_int "minimum" schema [] (fun n =>
    when (z <? n) (msg path ("number is below minimum " +:+ str_of_Z n)%stdpp)).

(** The array keywords other than [items]; [_json_identity] is [dumps]. *)
Definition array_issues (schema : list (string * json)) (path : string) (l : list json) : list string :=
  let n := Z.of_nat (length l) in
  on as_int "minItems" schema [] (fun k =>
    when (n <? k) (msg path ("array has fewer than " +:+ str_of_Z k +:+ " items")%stdpp))
  ++ on as_int "maxItems" schema [] (fun k =>
    when (k <? n) (msg path ("array has more than " +:+ str_of_Z k +:+ " items")%stdpp))
  ++ match get "uniqueItems" schema with
     | JBool true => when (negb (distinct (map dumps l))) (msg path "array items are not unique") | _ => [] end.

(** Run a check per element and collect the issues in order. *)
Fixpoint collect {A} (f : A -> option (list string)) (l : list A) : option (list string) :=
  match l with
  | [] => Some []
  | x :: xs => match f x, collect f xs with Some a, Some b => Some (a ++ b) | _, _ => None end
  end.
Definition and_then (a b : option (list string)) : option (list string) :=
  match a, b with Some x, Some y => Some (x ++ y) | _, _ => None end.

Fixpoint enumerate_from {A} (n : nat) (l : list A) : list (nat * A) :=
  match l with [] => [] | x :: xs => (n, x) :: enumerate_from (S n) xs end.

Definition missing_issues (schema : list (string * json)) (path : string) (fields : list (string * json)) : list string :=
  match lookup_key "required" schema with
  | Some (JList req) =>
      concat (map (fun k => match k with
                            | JStr k => when (negb (has k fields)) (msg path ("missing required property " +:+ k)%stdpp)
                            | _ => [] end) req)
  | _ => []
  end.

(** [load_schema]: the schema documents of the package by name; [KeyError] for
    a name that is not registered. *)
Definition resources : Type := string -> result (list (string * json)).

(** The components of [PurePosixPath(r)]. *)
Definition posix_parts (r : string) : list string :=
  List.filter (fun p => negb (mem p [""; "."])) (split_on "/" r).
(** [path.suffix == ".json"] of a file name. *)
Definition has_json_suffix (name : string) : bool :=
  (5 <? String.length name)%nat && String.eqb (drop_bytes (String.length name - 5) name) ".json".
(** [name.removesuffix(".schema.json")] *)
Definition schema_suffix : string := ".schema.json".
Definition remove_suffix (name : string) : string :=
  let n := (String.length name - String.length schema_suffix)%nat in
  if String.eqb (drop_bytes n name) schema_suffix then take_bytes n name else name.
Definition resolve_ref (load : resources) (reference : string) : result (list (string * json)) :=
  let name := default "" (last (posix_parts reference)) in
  require (negb (startswith "/" reference) && Nat.eqb (length (posix_parts reference)) 1 && has_json_suffix name)
    ValueError ("non-local schema reference is prohibited: " +:+ reference)%stdpp ;?
  match load (remove_suffix name) with
  | Raise (Exc KeyError _) => raise ValueError ("unknown local schema reference: " +:+ reference)%stdpp
  | r => r
  end.

(** [const] and [enum]. *)
Definition value_issues (schema : list (string * json)) (path : string) (value : json) : list string :=
  match lookup_key "const" schema with
  | Some c => when (negb (same_type value c && py_eq value c)) (msg path "value does not match const")
  | None => [] end
  ++ on as_list "enum" schema [] (fun allowed =>
       when (negb (existsb (py_eq value) allowed)) (msg path "value is not in enum")).

(** The members of an object the schema does not declare, in name order. *)
Definition unknown_keys (properties fields : list (string * json)) : list string :=
  sorted_str (dedup (List.filter (fun k => negb (has k properties)) fields.*1)).

(** [_validate_node]: the issues found, in order.  The fuel bounds the nesting
    of schemas, which [$ref] can make unbounded; [None] when it runs out. *)
Fixpoint validate_node (fuel : nat) (load : resources) (value : json)
    (schema : list (string * json)) (path : string) : option (list string) :=
  match fuel with
  | O => None
  | S f =>
  let node v s p := match as_obj s with Some s => validate_node f load v s p | None => Some [] end in
  match as_str (get "$ref" schema) with
  | Some reference =>
      match resolve_ref load reference with
      | Ok target => validate_node f load value target path
      | Raise e => Some [msg path (exc_msg e)]
      end
  | None =>
  let body :=
    and_then (Some (value_issues schema path value))
    (and_then
      match value with
      | JStr s => string_issues schema path s
      | JInt z => Some (integer_issues schema path z)
      | JList l =>
          and_then (Some (array_issues schema path l))
            (on as_obj "items" schema (Some []) (fun item =>
              collect (fun ix => validate_node f load ix.2 item
                                   (path +:+ "[" +:+ str_of_Z (Z.of_nat ix.1) +:+ "]")%stdpp)
                      (enumerate_from 0 l)))
      | JObj fields =>
          and_then (Some (missing_issues schema path fields))
            match as_obj (default (JObj []) (lookup_key "properties" schema)) with
            | Some properties =>
                and_then
                  (collect (fun kc => if has kc.1 fields
                                      then node (get kc.1 fields) kc.2 (path +:+ "." +:+ kc.1)%stdpp
                                      else Some [])
                           properties)
                  match get "additionalProperties" schema with
                  | JBool false =>
                      Some (when (negb (bool_decide (unknown_keys properties fields = [])))
                              (msg path ("unknown properties: " +:+ join ", " (unknown_keys properties fields))%stdpp))
                  | JObj additional =>
                      collect (fun k => validate_node f load (get k fields) additional (path +:+ "." +:+ k)%stdpp)
                              (unknown_keys properties fields)
                  | _ => Some []
                  end
            | None => Some []
            end
      | _ => Some []
      end
      (on as_list "allOf" schema (Some []) (fun branches =>
        collect (fun b =>
          match as_obj b with
          | Some branch =>
              match as_obj (get "if" branch), as_obj (get "then" branch) with
              | Some condition, Some consequence =>
                  match validate_node f load value condition path with
                  | Some [] => validate_node f load value consequence path
                  | Some _ => Some []
                  | None => None
                  end
              | _, _ => validate_node f load value branch path
              end
          | None => Some []
          end) branches))) in
  match get "type" schema with
  | JStr expected =>
      if matches_type value expected then body else Some [msg path ("expected " +:+ expected)%stdpp]
  | JList expected =>
      if existsb (fun t => match t with JStr t => matches_type value t | _ => false end) expected then body
      else Some [msg path ("expected one of " +:+ repr_types expected)%stdpp]
  | _ => body
  end
  end
  end.

Record ContractValidation := { valid : bool; issues : list string }.

(** [validate_contract] for the kernel schemas ([repository-profile] has a
    further runtime check of its own). *)
Definition validate_contract (fuel : nat) (load : resources) (name : string) (document : json)
    : option ContractValidation :=
  match load name with
  | Raise e =>
      Some {| valid := false; issues := ["schema unavailable: " +:+ exc_name (exc_cls e) +:+ ": " +:+ exc_str e]%stdpp |}
  | Ok schema =>
      option_map (fun found => {| valid := bool_decide (found = []); issues := dedup found |})
        (validate_node fuel load document schema "$")
  end.

(** ** The kernel's schema documents *)

Definition string_schema : json := JObj [("type", JStr "string")].
Definition nonempty_schema : json := JObj [("type", JStr "string"); ("minLength", JInt 1)].
Definition strings_schema : json := JObj [("type", JStr "array"); ("items", string_schema)].
Definition digest_schema : json := JObj [("type", JStr "string"); ("pattern", JStr "^sha256:[0-9a-f]{64}$")].

(** [schemas/brain-kernel-evaluation.schema.json] *)
Definition evaluation_schema : list (string * json) :=
  [("$schema", JStr "https://json-schema.org/draft/2020-12/schema");
   ("$id", JStr "https://hive-mind-os.local/schemas/brain-kernel-evaluation.schema.json");
   ("type", JStr "object");
   ("additionalProperties", JBool false);
   ("required", JList (map JStr [
     "plan_id"; "base_commit"; "base_tree_digest"; "acceptance_commands";
     "environment_requirements"; "allowed_test_paths"; "test_digests"; "security_checks";
     "contamination_checks"; "evaluator_requirements"; "evidence_bundle_format";
     "pass_fail_abstain_rules"; "regression_budget"; "state"; "plan_digest"]));
   ("properties", JObj [
     ("plan_id", nonempty_schema);
     ("base_commit", JObj [("type", JStr "string"); ("pattern", JStr "^[0-9a-f]{40}$")]);
     ("base_tree_digest", digest_schema);
     ("acceptance_commands", JObj [("type", JStr "array"); ("minItems", JInt 1); ("items", JObj [("type", JStr "string")])]);
     ("environment_requirements", strings_schema);
     ("allowed_test_paths", JObj [("type", JStr "array"); ("items", JObj [("type", JStr "string"); ("format", JStr "portable-relative-path")])]);
     ("test_digests", JObj [("type", JStr "array"); ("items", JObj [("type", JStr "string"); ("pattern", JStr "^sha256:[0-9a-f]{64}$")])]);
     ("security_checks", strings_schema);
     ("contamination_checks", strings_schema);
     ("evaluator_requirements", strings_schema);
     ("evidence_bundle_format", nonempty_schema);
     ("pass_fail_abstain_rules", strings_schema);
     ("regression_budget", JObj [("type", JStr "object")]);
     ("state", JObj [("enum", JList [JStr "SEALED"; JStr "PASSED"; JStr "FAILED"; JStr "ABSTAINED"])]);
     ("plan_digest", digest_schema)])].

(** [schemas/brain-kernel-historical-evidence-reference.schema.json] *)
Definition historical_evidence_schema : list (string * json) :=
  [("$schema", JStr "https://json-schema.org/draft/2020-12/schema");
   ("$id", JStr "https://hive-mind-os.local/schemas/brain-kernel-historical-evidence-reference.schema.json");
   ("type", JStr "object");
   ("additionalProperties", JBool false);
   ("required", JList (map JStr [
     "receipt_ref"; "receipt_digest"; "provenance_label"; "retention_note"]));
   ("properties", JObj [
     ("receipt_ref", nonempty_schema);
     ("receipt_digest", digest_schema);
     ("provenance_label", nonempty_schema);
     ("retention_note", nonempty_schema)])].

(** [schemas/brain-kernel-effect-intent.schema.json] *)
Definition effect_intent_schema : list (string * json) :=
  [("$schema", JStr "https://json-schema.org/draft/2020-12/schema");
   ("$id", JStr "https://hive-mind-os.local/schemas/brain-kernel-effect-intent.schema.json");
   ("type", JStr "object");
   ("additionalProperties", JBool false);
   ("required", JList (map JStr [
     "mission_id"; "work_id"; "attempt_id"; "actor_id"; "role"; "action"; "risk_tier";
     "target_adapter"; "target"; "parameters_digest"; "idempotency_key";
     "authority_envelope_digest"; "expected_preconditions"; "rollback_description";
     "policy_decision_ref"; "intent_digest"]));
   ("properties", JObj [
     ("mission_id", string_schema);
     ("work_id", string_schema);
     ("attempt_id", string_schema);
     ("actor_id", nonempty_schema);
     ("role", JObj [("enum", JList [JStr "orchestrator"; JStr "explorer"; JStr "architect"; JStr "builder"; JStr "curator"; JStr "integrator"; JStr "steward"; JStr "optimizer"])]);
     ("action", nonempty_schema);
     ("risk_tier", JObj [("enum", JList [JStr "R0"; JStr "R1"; JStr "R2"; JStr "R3"; JStr "R4"])]);
     ("target_adapter", nonempty_schema);
     ("target", JObj [("type", JStr "string"); ("format", JStr "portable-relative-path")]);
     ("parameters_digest", digest_schema);
     ("idempotency_key", digest_schema);
     ("authority_envelope_digest", digest_schema);
     ("expected_preconditions", strings_schema);
     ("rollback_description", nonempty_schema);
     ("policy_decision_ref", nonempty_schema);
     ("intent_digest", digest_schema)])].

(** [schemas/brain-kernel-work-item.schema.json] *)
Definition work_item_schema : list (string * json) :=
  [("$schema", JStr "https://json-schema.org/draft/2020-12/schema");
   ("$id", JStr "https://hive-mind-os.local/schemas/brain-kernel-work-item.schema.json");
   ("type", JStr "object");
   ("additionalProperties", JBool false);
   ("required", JList (map JStr [
     "work_id"; "mission_id"; "parent_work_id"; "depth"; "title"; "objective"; "role"; "risk_tier";
     "dependencies"; "required_inputs"; "expected_outputs"; "acceptance_specs"; "write_scope";
     "requested_actions"; "context_request"; "max_attempts"; "status"; "authority_envelope_digest";
     "idempotency_key"]));
   ("properties", JObj [
     ("work_id", JObj [("type", JStr "string"); ("pattern", JStr "^WORK-[A-Za-z0-9][A-Za-z0-9._-]*$")]);
     ("mission_id", JObj [("type", JStr "string"); ("pattern", JStr "^MISSION-[A-Za-z0-9][A-Za-z0-9._-]*$")]);
     ("parent_work_id", JObj [("type", JList [JStr "string"; JStr "null"])]);
     ("depth", JObj [("type", JStr "integer"); ("minimum", JInt 0)]);
     ("title", nonempty_schema);
     ("objective", nonempty_schema);
     ("role", JObj [("enum", JList [JStr "orchestrator"; JStr "explorer"; JStr "architect"; JStr "builder"; JStr "curator"; JStr "integrator"; JStr "steward"; JStr "optimizer"])]);
     ("risk_tier", JObj [("enum", JList [JStr "R0"; JStr "R1"; JStr "R2"; JStr "R3"; JStr "R4"])]);
     ("dependencies", strings_schema);
     ("required_inputs", strings_schema);
     ("expected_outputs", strings_schema);
     ("acceptance_specs", strings_schema);
     ("write_scope", JObj [("type", JStr "array"); ("items", JObj [("type", JStr "string"); ("format", JStr "portable-relative-path")])]);
     ("requested_actions", strings_schema);
     ("context_request", JObj [("type", JStr "object")]);
     ("max_attempts", JObj [("type", JStr "integer"); ("minimum", JInt 1)]);
     ("status", JObj [("enum", JList [JStr "PROPOSED"; JStr "READY"; JStr "LEASED"; JStr "RUNNING"; JStr "AWAITING_VERIFICATION"; JStr "ACCEPTED"; JStr "INTEGRATED"; JStr "BLOCKED_DEPENDENCY"; JStr "WAITING_HUMAN"; JStr "RETRYABLE_FAILED"; JStr "TERMINAL_FAILED"; JStr "CANCELLED"; JStr "SUPERSEDED"])]);
     ("authority_envelope_digest", digest_schema);
     ("idempotency_key", digest_schema)])].

(** [schemas/brain-kernel-memory-record.schema.json] *)
Definition memory_record_schema : list (string * json) :=
  [("$schema", JStr "https://json-schema.org/draft/2020-12/schema");
   ("$id", JStr "https://hive-mind-os.local/schemas/brain-kernel-memory-record.schema.json");
   ("type", JStr "object");
   ("additionalProperties", JBool false);
   ("required", JList (map JStr [
     "record_id"; "memory_class"; "scope"; "subject_keys"; "content_ref"; "source_refs"; "authority_level";
     "sensitivity"; "valid_from"; "valid_to"; "recorded_at"; "available_at"; "state"; "supersedes";
     "superseded_by"; "evaluator_id"; "outcome_refs"; "retention_policy"; "digest"]));
   ("properties", JObj [
     ("record_id", JObj [("type", JStr "string"); ("pattern", JStr "^MEMORY-")]);
     ("memory_class", nonempty_schema);
     ("scope", JObj [("enum", JList [JStr "global"; JStr "repository"; JStr "mission"; JStr "role"; JStr "work_item"])]);
     ("subject_keys", strings_schema);
     ("content_ref", nonempty_schema);
     ("source_refs", strings_schema);
     ("authority_level", string_schema);
     ("sensitivity", string_schema);
     ("valid_from", JObj [("type", JStr "string"); ("format", JStr "date-time")]);
     ("valid_to", JObj [("type", JList [JStr "string"; JStr "null"])]);
     ("recorded_at", JObj [("type", JStr "string"); ("format", JStr "date-time")]);
     ("available_at", JObj [("type", JStr "string"); ("format", JStr "date-time")]);
     ("state", JObj [("enum", JList [JStr "ACTIVE"; JStr "SUPERSEDED"; JStr "CONTRADICTED"; JStr "RETRACTED"; JStr "EXPIRED"; JStr "QUARANTINED"])]);
     ("supersedes", strings_schema);
     ("superseded_by", strings_schema);
     ("evaluator_id", JObj [("type", JList [JStr "string"; JStr "null"])]);
     ("outcome_refs", strings_schema);
     ("retention_policy", nonempty_schema);
     ("digest", digest_schema)])].

(** The schemas the modelled kernel code loads. *)
Definition kernel_schemas : resources := fun name =>
  if String.eqb name "brain-kernel-evaluation" then Ok evaluation_schema
  else if String.eqb name "brain-kernel-historical-evidence-reference" then Ok historical_evidence_schema
  else if String.eqb name "brain-kernel-effect-intent" then Ok effect_intent_schema
  else if String.eqb name "brain-kernel-work-item" then Ok work_item_schema
  else if String.eqb name "brain-kernel-memory-record" then Ok memory_record_schema
  else raise KeyError ("unknown contract schema: " +:+ name)%stdpp.

(** ** Totality *)

(** The schema nests at most [n] deep, through its references, and holds only
    patterns of the modelled syntax. *)
Fixpoint supported (n : nat) (load : resources) (schema : list (string * json)) : bool :=
  match n with
  | O => false
  | S n' =>
      match as_str (get "$ref" schema) with
      | Some reference => match resolve_ref load reference with Ok target => supported n' load target | Raise _ => true end
      | None =>
          on as_str "pattern" schema true (fun p => bool_decide (is_Some (compile p)))
          && on as_obj "items" schema true (supported n' load)
          && match as_obj (default (JObj []) (lookup_key "properties" schema)) with
             | Some ps => forallb (fun kc => match as_obj kc.2 with Some s => supported n' load s | None => true end) ps
             | None => true end
          && on as_obj "additionalProperties" schema true (supported n' load)
          && on as_list "allOf" schema true (forallb (fun b =>
               match as_obj b with
               | Some br => match as_obj (get "if" br), as_obj (get "then" br) with
                            | Some c, Some t => supported n' load c && supported n' load t
                            | _, _ => supported n' load br end
               | None => true end))
      end
  end.

Lemma and_then_some a b : is_Some a -> is_Some b -> is_Some (and_then a b).
Proof. intros [x ->] [y ->]. by eexists. Qed.

Lemma collect_some {A} (f : A -> option (list string)) l :
  (forall x, x ∈ l -> is_Some (f x)) -> is_Some (collect f l).
Proof.
  induction l as [|x l IH]; intros H; simpl; [by eexists|].
  destruct (H x) as [a ->]; [by left|]. destruct IH as [b ->]; [|by eexists].
  intros y Hy. apply H. by right.
Qed.

Lemma forallb_elem {A} (p : A -> bool) l x : forallb p l = true -> x ∈ l -> p x = true.
Proof. rewrite forallb_forall. intros H Hx. apply H. by apply list_elem_of_In. Qed.

Lemma string_issues_some schema path s :
  on as_str "pattern" schema true (fun p => bool_decide (is_Some (compile p))) = true ->
  is_Some (string_issues schema path s).
Proof.
  unfold string_issues, on, re_search. destruct (as_str _); [|intros; by eexists].
  rewrite bool_decide_eq_true. intros [its ->]. by eexists.
Qed.

Lemma validate_node_total n fuel load value schema path :
  supported n load schema = true -> (n <= fuel)%nat -> is_Some (validate_node fuel load value schema path).
Proof.
  revert fuel value schema path. induction n as [|n IH]; [done|].
  intros [|f] value schema path Hs Hle; [lia|]. cbn [supported] in Hs.
  assert (IH' : forall v s p, supported n load s = true -> is_Some (validate_node f load v s p))
    by (intros; apply IH; [done|lia]). clear IH.
  cbn [validate_node]. destruct (as_str (get "$ref" schema)) as [reference|].
  { destruct (resolve_ref load reference); [by apply IH'|by eexists]. }
  apply andb_true_iff in Hs as [Hs Hall]. apply andb_true_iff in Hs as [Hs Hadd].
  apply andb_true_iff in Hs as [Hs Hprops]. apply andb_true_iff in Hs as [Hpat Hitems]. cbv zeta.
  match goal with |- is_Some (match get "type" schema with JStr _ => if _ then ?b else _ | _ => _ end) =>
    assert (Hb : is_Some b);
      [|destruct (get "type" schema) as [| | | |types|]; try exact Hb;
        [destruct (matches_type _ _)|destruct (existsb _ types)]; first [exact Hb | by eexists]] end.
  apply and_then_some; [by eexists|]. apply and_then_some.
  - destruct value as [| | |s|l|fields]; try (by eexists); [by apply string_issues_some| |];
      (apply and_then_some; [by eexists|]).
    + unfold on in *. destruct (as_obj (get "items" schema)); [|by eexists]. apply collect_some; auto.
    + destruct (as_obj (default _ _)) as [ps|]; [|by eexists]. apply and_then_some.
      * apply collect_some. intros kc Hk. pose proof (forallb_elem _ _ _ Hprops Hk) as Hc. cbv beta in Hc.
        destruct (has _ _); [|by eexists]. destruct (as_obj kc.2); [auto|by eexists].
      * unfold on in Hadd. destruct (get "additionalProperties" schema) as [|[]| | | |]; try (by eexists).
        apply collect_some; auto.
  - unfold on in *. destruct (as_list (get "allOf" schema)); [|by eexists].
    apply collect_some. intros b Hbr. pose proof (forallb_elem _ _ _ Hall Hbr) as Hc. cbv beta in Hc.
    destruct (as_obj b) as [br|]; [|by eexists].
    destruct (as_obj (get "if" br)) as [c|]; [|auto]. destruct (as_obj (get "then" br)); [|auto].
    apply andb_true_iff in Hc as [Hc Ht].
    destruct (IH' value c path Hc) as [[|] ->]; [auto|by eexists].
Qed.

Lemma kernel_schemas_supported name schema : kernel_schemas name = Ok schema -> supported 3 kernel_schemas schema = true.
Proof.
  unfold kernel_schemas. intros H.
  repeat (destruct (String.eqb _ _); [injection H as <-; vm_compute; reflexivity|]). discriminate H.
Qed.

(** [validate_contract] always returns on the kernel's own schemas, for every
    document and every name: three levels of nesting are enough, and no
    document makes it recurse further. *)
Theorem kernel_validation_total fuel name document :
  (3 <= fuel)%nat -> is_Some (validate_contract fuel kernel_schemas name document).
Proof.
  intros Hf. unfold validate_contract. destruct (kernel_schemas name) as [schema|e] eqn:E; [|by eexists].
  destruct (validate_node_total 3 fuel kernel_schemas document schema "$") as [l ->];
    [by eapply kernel_schemas_supported|done|by eexists].
Qed.

Lemma kernel_validation_total_witness :
  is_Some (validate_contract 3 kernel_schemas "brain-kernel-evaluation" JNull).
Proof. apply (kernel_validation_total 3 "brain-kernel-evaluation" JNull). lia. Defined.

(** ** Fail-closed objects *)

Lemma and_then_nil a b : and_then a b = Some [] -> a = Some [] /\ b = Some [].
Proof.
  destruct a as [[|]|], b as [[|]|]; simpl; intros H; simplify_eq; done.
Qed.

Lemma collect_nil {A} (f : A -> option (list string)) l x :
  collect f l = Some [] -> x ∈ l -> f x = Some [].
Proof.
  induction l as [|y l IH]; simpl; intros H Hx; [by apply elem_of_nil in Hx|].
  destruct (f y) as [[|]|] eqn:Ey; destruct (collect f l) as [[|]|] eqn:El; simplify_eq.
  apply elem_of_cons in Hx as [->|Hx]; [done|auto].
Qed.

Lemma when_nil b m : when b m = [] -> b = false.
Proof. by destruct b. Qed.

Lemma unknown_keys_nil properties fields :
  unknown_keys properties fields = [] -> forall k, k ∈ fields.*1 -> has k properties = true.
Proof.
  unfold unknown_keys, sorted_str. intros H k Hk. destruct (has k properties) eqn:E; [done|].
  assert (k ∈ sorted_by id (dedup (List.filter (fun k => negb (has k properties)) fields.*1))) as Hin.
  { rewrite elem_of_sorted_by, elem_of_dedup. apply list_elem_of_In, filter_In.
    split; [by apply list_elem_of_In|by rewrite E]. }
  rewrite H in Hin. by apply elem_of_nil in Hin.
Qed.

(** What a closed object schema without further keywords accepts, exactly. *)
Record closed_schema (schema properties : list (string * json)) (required : list string) : Prop := {
  cs_ref : as_str (get "$ref" schema) = None;
  cs_type : get "type" schema = JStr "object";
  cs_properties : lookup_key "properties" schema = Some (JObj properties);
  cs_additional : get "additionalProperties" schema = JBool false;
  cs_required : lookup_key "required" schema = Some (JList (map JStr required));
  cs_const : lookup_key "const" schema = None;
  cs_enum : as_list (get "enum" schema) = None;
  cs_all : as_list (get "allOf" schema) = None }.

Lemma collect_nil_iff {A} (f : A -> option (list string)) l :
  collect f l = Some [] <-> forall x, x ∈ l -> f x = Some [].
Proof.
  split; [intros H x; by apply collect_nil|].
  induction l as [|y l IH]; intros H; [done|]. cbn. rewrite (H y) by (by left).
  rewrite IH; [done|]. intros x Hx. apply H. by right.
Qed.

Lemma and_then_nil_iff a b : and_then a b = Some [] <-> a = Some [] /\ b = Some [].
Proof. split; [apply and_then_nil|]. by intros [-> ->]. Qed.

Lemma missing_issues_nil schema path fields required :
  lookup_key "required" schema = Some (JList (map JStr required)) ->
  missing_issues schema path fields = [] <-> forall k, k ∈ required -> has k fields = true.
Proof.
  intros E. unfold missing_issues. rewrite E. clear E. induction required as [|k l IH]; cbn.
  - split; [intros _ k Hk; by apply elem_of_nil in Hk|done].
  - destruct (has k fields) eqn:Eh; cbn.
    + rewrite IH. split; intros H k' Hk'; [apply elem_of_cons in Hk' as [->|]; auto|apply H; by right].
    + split; [done|]. intros H. rewrite (H k) in Eh; [done|by left].
Qed.

Lemma unknown_keys_none properties fields :
  unknown_keys properties fields = [] <-> forall k, k ∈ fields.*1 -> has k properties = true.
Proof.
  split; [apply unknown_keys_nil|]. intros H. unfold unknown_keys.
  assert (List.filter (fun k => negb (has k properties)) fields.*1 = []) as ->; [|done].
  induction (fields.*1) as [|k l IH]; [done|]. cbn. rewrite (H k) by (by left). cbn. apply IH.
  intros k' Hk'. apply H. by right.
Qed.

Lemma closed_object_iff fuel load fields schema path properties required :
  closed_schema schema properties required ->
  validate_node (S fuel) load (JObj fields) schema path = Some [] <->
  (forall k, k ∈ fields.*1 -> has k properties = true)
  /\ (forall k, k ∈ required -> has k fields = true)
  /\ (forall k child, (k, JObj child) ∈ properties -> has k fields = true ->
       validate_node fuel load (get k fields) child (path +:+ "." +:+ k)%stdpp = Some []).
Proof.
  intros [Href Htype Hprops Hadd Hreq Hconst Henum Hall]. cbn [validate_node]. rewrite Href, Htype. cbv zeta.
  change (matches_type (JObj fields) "object") with true. cbv iota.
  unfold value_issues, on. rewrite Hconst, Henum, Hall, Hprops, Hadd.
  cbn [default as_obj from_option id]. rewrite !and_then_nil_iff, collect_nil_iff.
  assert (Hs : forall l : list string, Some l = Some [] <-> l = []) by (intros; split; congruence).
  rewrite !Hs, (missing_issues_nil _ _ _ _ Hreq).
  assert (when (negb (bool_decide (unknown_keys properties fields = [])))
    (msg path ("unknown properties: " +:+ join ", " (unknown_keys properties fields))%stdpp) = []
    <-> unknown_keys properties fields = []) as ->.
  { case_bool_decide; cbn; split; congruence. }
  rewrite unknown_keys_none. split.
  - intros (_ & (H1 & H2 & H3) & _). split; [done|]. split; [done|]. intros k child Hk Hh.
    specialize (H2 _ Hk). cbn in H2. by rewrite Hh in H2.
  - intros (H1 & H2 & H3). split; [done|]. split; [|done]. split; [done|]. split; [|done].
    intros [k c] Hk. cbn. destruct (has k fields) eqn:Eh; [|done]. destruct c; cbn; try done. by apply H3.
Qed.

(** A node that validates has the type its schema names. *)
Lemma validated_type fuel load value schema path t :
  as_str (get "$ref" schema) = None -> get "type" schema = JStr t ->
  validate_node fuel load value schema path = Some [] -> matches_type value t = true.
Proof.
  destruct fuel as [|f]; [done|]. cbn [validate_node]. intros -> ->. cbv zeta. by destruct (matches_type value t).
Qed.

Lemma validated_string fuel load value schema path :
  as_str (get "$ref" schema) = None -> get "type" schema = JStr "string" ->
  validate_node fuel load value schema path = Some [] -> exists s, value = JStr s.
Proof.
  intros H1 H2 H. eapply validated_type in H; [|done..]. destruct value; try discriminate H. by eexists.
Qed.

Lemma enumerate_from_elem {A} (l : list A) n x : x ∈ l -> exists i, (i, x) ∈ enumerate_from n l.
Proof.
  revert n. induction l as [|y l IH]; intros n Hx; [by apply elem_of_nil in Hx|].
  apply elem_of_cons in Hx as [->|Hx]; cbn; [exists n; by left|]. destruct (IH (S n) Hx) as [i Hi]. exists i. by right.
Qed.

Lemma validated_array fuel load value schema path item :
  as_str (get "$ref" schema) = None -> get "type" schema = JStr "array" -> as_obj (get "items" schema) = Some item ->
  validate_node (S fuel) load value schema path = Some [] ->
  exists l, value = JList l /\ forall x, x ∈ l -> exists p, validate_node fuel load x item p = Some [].
Proof.
  intros Href Ht Hi H. assert (Hm := H). eapply validated_type in Hm; [|done..].
  destruct value as [| | | |l|]; try discriminate Hm. exists l. split; [done|].
  cbn [validate_node] in H. rewrite Href, Ht in H. cbv zeta in H. rewrite Hm in H.
  apply and_then_nil in H as [_ H]. apply and_then_nil in H as [H _]. apply and_then_nil in H as [_ H].
  unfold on in H. rewrite Hi in H. intros x Hx. destruct (enumerate_from_elem l 0 x Hx) as [i Hix].
  eexists. exact (collect_nil _ _ _ H Hix).
Qed.

Lemma validated_enum fuel load value schema path names :
  as_str (get "$ref" schema) = None -> get "type" schema = JNull ->
  as_list (get "enum" schema) = Some (map JStr names) ->
  validate_node fuel load value schema path = Some [] -> exists s, value = JStr s /\ s ∈ names.
Proof.
  destruct fuel as [|f]; [done|]. cbn [validate_node]. intros -> -> He. cbv zeta. intros H.
  apply and_then_nil in H as [H _]. injection H as H. unfold value_issues, on in H. rewrite He in H.
  apply app_eq_nil in H as [_ H]. apply when_nil in H. bool_hyps. apply existsb_exists in H as (j & Hj & E).
  apply in_map_iff in Hj as (s & <- & Hs). apply py_eq_str in E. exists s. split; [done|]. by apply list_elem_of_In.
Qed.

(** A string of the [portable-relative-path] format. *)
Lemma validated_path fuel load value schema path :
  as_str (get "$ref" schema) = None -> get "type" schema = JStr "string" ->
  get "format" schema = JStr "portable-relative-path" ->
  validate_node fuel load value schema path = Some [] ->
  exists s, value = JStr s /\ is_ok (portable_path_parts s) = true.
Proof.
  intros Href Ht Hf H. assert (Hs := H). eapply validated_string in Hs as [s ->]; [|done..]. exists s. split; [done|].
  destruct fuel as [|f]; [done|]. cbn [validate_node] in H. rewrite Href, Ht in H. cbv zeta in H.
  change (matches_type (JStr s) "string") with true in H. cbv iota in H.
  apply and_then_nil in H as [_ H]. apply and_then_nil in H as [H _]. unfold string_issues in H.
  match type of H with option_map _ ?o = _ => destruct o; [|done] end. cbn in H. injection H as H.
  rewrite !app_nil in H. destruct H as (_ & _ & _ & _ & H). rewrite Hf in H. cbn [py_eq] in H.
  rewrite String.eqb_refl in H. apply when_nil in H. by bool_hyps.
Qed.

(** A document that validates against a closed object schema is an object
    that has every required member, has no member the schema does not declare,
    and whose declared members all validate against their own schemas. *)
Theorem validated_objects_are_closed fuel load value schema path properties required :
  as_str (get "$ref" schema) = None ->
  get "type" schema = JStr "object" ->
  lookup_key "properties" schema = Some (JObj properties) ->
  get "additionalProperties" schema = JBool false ->
  lookup_key "required" schema = Some (JList (map JStr required)) ->
  validate_node (S fuel) load value schema path = Some [] ->
  exists fields, value = JObj fields
    /\ (forall k, k ∈ fields.*1 -> has k properties = true)
    /\ (forall k, k ∈ required -> has k fields = true)
    /\ (forall k child, (k, JObj child) ∈ properties -> has k fields = true ->
         validate_node fuel load (get k fields) child (path +:+ "." +:+ k)%stdpp = Some []).
Proof.
  intros Href Htype Hprops Hadd Hreq H. cbn [validate_node] in H. rewrite Href, Htype in H. cbv zeta in H.
  destruct (matches_type value "object") eqn:Hm; [|discriminate H].
  destruct value as [| | | | |fields]; try discriminate Hm. exists fields.
  apply and_then_nil in H as [_ H]. apply and_then_nil in H as [H _].
  rewrite Hprops, Hadd in H. cbn [default as_obj from_option] in H.
  apply and_then_nil in H as [Hmiss H]. apply and_then_nil in H as [Hkids Hunk].
  split; [done|]. split; [|split].
  - apply unknown_keys_nil. injection Hunk as Hunk. apply when_nil in Hunk. by bool_hyps.
  - intros k Hk. injection Hmiss as Hmiss. unfold missing_issues in Hmiss. rewrite Hreq in Hmiss.
    destruct (has k fields) eqn:E; [done|]. exfalso.
    assert (msg path ("missing required property " +:+ k)%stdpp ∈ @nil string) as Hin; [|by apply elem_of_nil in Hin].
    rewrite <- Hmiss. apply list_elem_of_In, in_concat. eexists. split.
    + apply in_map_iff. exists (JStr k). split; [reflexivity|]. apply in_map. by apply list_elem_of_In.
    + rewrite E. by left.
  - intros k child Hk Hhas. pose proof (collect_nil _ _ _ Hkids Hk) as Hc. cbv beta in Hc. simpl in Hc.
    by rewrite Hhas in Hc.
Qed.

Lemma validated_objects_are_closed_witness :
  let document := JObj [("receipt_ref", JStr "receipt:1"); ("receipt_digest", JStr ("sha256:" +:+ String.concat "" (replicate 64 "a"))%stdpp);
                        ("provenance_label", JStr "archive"); ("retention_note", JStr "keep")] in
  exists fields, document = JObj fields
    /\ forall k, k ∈ ["receipt_ref"; "receipt_digest"; "provenance_label"; "retention_note"] -> has k fields = true.
Proof.
  intros document.
  destruct (validated_objects_are_closed 1 kernel_schemas document historical_evidence_schema "$"
    [("receipt_ref", nonempty_schema); ("receipt_digest", digest_schema);
     ("provenance_label", nonempty_schema); ("retention_note", nonempty_schema)]
    ["receipt_ref"; "receipt_digest"; "provenance_label"; "retention_note"]) as (fields & E & _ & Hreq & _);
    [reflexivity|reflexivity|reflexivity|reflexivity|reflexivity|vm_compute; reflexivity|].
  exists fields. split; [exact E|exact Hreq].
Defined.

End Schema.
