(* ===== verification/Contracts.v ===== *)
(** * Kernel contracts

    [brain_kernel/contracts.py]: the field validators, portable paths, the
    budget, the authority envelope, effect intents and receipts as records, and
    the contracts the event reducer rebuilds from JSON (evaluation plans and
    results, role results, historical evidence) as dictionaries of fields. *)

From S2P Require Import Prelude Sha256 Canonical PyLib Schema.
From Stdlib Require Import Ascii.

Module Contracts.
Export Schema.

(** ** Enumerations *)

Inductive MissionState :=
| M_CREATED | M_PLANNING | M_READY | M_RUNNING | M_VERIFYING | M_INTEGRATING | M_COMPLETED
| M_WAITING_HUMAN | M_PAUSED | M_FAILED | M_CANCELLED | M_ROLLING_BACK.
#[global] Instance MissionState_eq_dec : EqDecision MissionState.
Proof. solve_decision. Defined.

Inductive WorkState :=
| W_PROPOSED | W_READY | W_LEASED | W_RUNNING | W_AWAITING_VERIFICATION | W_ACCEPTED | W_INTEGRATED
| W_BLOCKED_DEPENDENCY | W_WAITING_HUMAN | W_RETRYABLE_FAILED | W_TERMINAL_FAILED | W_CANCELLED | W_SUPERSEDED.
#[global] Instance WorkState_eq_dec : EqDecision WorkState.
Proof. solve_decision. Defined.

Inductive EvaluationState := E_SEALED | E_PASSED | E_FAILED | E_ABSTAINED.
#[global] Instance EvaluationState_eq_dec : EqDecision EvaluationState.
Proof. solve_decision. Defined.

Definition mission_states : list MissionState :=
  [M_CREATED; M_PLANNING; M_READY; M_RUNNING; M_VERIFYING; M_INTEGRATING; M_COMPLETED;
   M_WAITING_HUMAN; M_PAUSED; M_FAILED; M_CANCELLED; M_ROLLING_BACK].
Definition mission_value (s : MissionState) : string :=
  match s with
  | M_CREATED => "CREATED" | M_PLANNING => "PLANNING" | M_READY => "READY" | M_RUNNING => "RUNNING"
  | M_VERIFYING => "VERIFYING" | M_INTEGRATING => "INTEGRATING" | M_COMPLETED => "COMPLETED"
  | M_WAITING_HUMAN => "WAITING_HUMAN" | M_PAUSED => "PAUSED" | M_FAILED => "FAILED"
  | M_CANCELLED => "CANCELLED" | M_ROLLING_BACK => "ROLLING_BACK"
  end.

Definition work_states : list WorkState :=
  [W_PROPOSED; W_READY; W_LEASED; W_RUNNING; W_AWAITING_VERIFICATION; W_ACCEPTED; W_INTEGRATED;
   W_BLOCKED_DEPENDENCY; W_WAITING_HUMAN; W_RETRYABLE_FAILED; W_TERMINAL_FAILED; W_CANCELLED; W_SUPERSEDED].
Definition work_value (s : WorkState) : string :=
  match s with
  | W_PROPOSED => "PROPOSED" | W_READY => "READY" | W_LEASED => "LEASED" | W_RUNNING => "RUNNING"
  | W_AWAITING_VERIFICATION => "AWAITING_VERIFICATION" | W_ACCEPTED => "ACCEPTED"
  | W_INTEGRATED => "INTEGRATED" | W_BLOCKED_DEPENDENCY => "BLOCKED_DEPENDENCY"
  | W_WAITING_HUMAN => "WAITING_HUMAN" | W_RETRYABLE_FAILED => "RETRYABLE_FAILED"
  | W_TERMINAL_FAILED => "TERMINAL_FAILED" | W_CANCELLED => "CANCELLED" | W_SUPERSEDED => "SUPERSEDED"
  end.

Definition evaluation_value (s : EvaluationState) : string :=
  match s with E_SEALED => "SEALED" | E_PASSED => "PASSED" | E_FAILED => "FAILED" | E_ABSTAINED => "ABSTAINED" end.

(** [SomeEnum(value)]: the member with that value, else [ValueError]. *)
Definition enum_of {E} (name : string) (members : list E) (value_of : E -> string) (v : json) : result E :=
  match List.find (fun e => py_eq v (JStr (value_of e))) members with
  | Some e => Ok e
  | None => raise ValueError ("not a valid " +:+ name)%stdpp
  end.
Definition mission_state_of : json -> result MissionState := enum_of "MissionState" mission_states mission_value.
Definition work_state_of : json -> result WorkState := enum_of "WorkState" work_states work_value.
Definition evaluation_state_of : json -> result EvaluationState :=
  enum_of "EvaluationState" [E_SEALED; E_PASSED; E_FAILED; E_ABSTAINED] evaluation_value.

(** ** Validators

    They take the Python value itself, because each tests its type. *)

Definition ROLE_NAMES : list string :=
  ["orchestrator"; "explorer"; "architect"; "builder"; "curator"; "integrator"; "steward"; "optimizer"].
Definition RISK_TIERS : list string := ["R0"; "R1"; "R2"; "R3"; "R4"].

Definition _require (value : json) (label : string) : result unit :=
  require (match value with JStr s => negb (is_blank s) | _ => false end) ValueError (label +:+ " is required")%stdpp.

(** [_IDS]: the prefix of each kind of identifier. *)
Inductive id_kind := K_mission | K_work | K_authority | K_lease | K_attempt | K_memory | K_candidate.
Definition id_prefix (k : id_kind) : string :=
  match k with
  | K_mission => "MISSION-" | K_work => "WORK-" | K_authority => "AUTH-" | K_lease => "LEASE-"
  | K_attempt => "ATTEMPT-" | K_memory => "MEMORY-" | K_candidate => "CANDIDATE-"
  end.
Definition id_name (k : id_kind) : string :=
  match k with
  | K_mission => "mission" | K_work => "work" | K_authority => "authority" | K_lease => "lease"
  | K_attempt => "attempt" | K_memory => "memory" | K_candidate => "candidate"
  end.
Definition is_identifier (k : id_kind) (s : string) : bool :=
  match_items (lits (id_prefix k) ++ [One is_alnum; Star is_id_char]) s.
Definition _identifier (value : json) (k : id_kind) : result unit :=
  _require value (id_name k +:+ " id")%stdpp ;?
  require (match value with JStr s => is_identifier k s | _ => false end)
    ValueError ("invalid " +:+ id_name k +:+ " id")%stdpp.

Definition is_digest (s : string) : bool := match_items (lits "sha256:" ++ times 64 is_hex) s.
Definition _digest (value : json) (label : string) : result unit :=
  require (match value with JStr s => is_digest s | _ => false end)
    ValueError (label +:+ " must be lowercase sha256:<64 hex>")%stdpp.

Definition _sha (value : json) : result unit :=
  require (match value with JStr s => match_items (times 40 is_hex) s | _ => false end)
    ValueError "base_commit must be a lowercase 40-hex SHA".

Definition _time (value : json) (label : string) : result unit :=
  match value with
  | JStr s =>
      require (is_rfc3339 s) ValueError (label +:+ " must be an RFC 3339 time")%stdpp ;?
      match from_zulu s with
      | None => raise ValueError (label +:+ " must be an RFC 3339 time")%stdpp
      | Some d => require (is_aware d) ValueError (label +:+ " must include an offset")%stdpp
      end
  | _ => raise ValueError (label +:+ " must be an RFC 3339 time")%stdpp
  end.

(** [_instant] *)
Definition _instant (value : string) : result datetime :=
  match from_zulu value with Some d => Ok d | None => raise ValueError "Invalid isoformat string" end.

Definition normalize_portable_path (value : json) : result string :=
  match value with
  | JStr s =>
      require (negb (String.eqb s "")) ValueError "path is required" ;?
      let path := replace_char backslash "/" s in
      require (negb (startswith "/" path || drive_prefix path)) ValueError "path must be relative" ;?
      let parts := split_on "/" path in
      require (negb (existsb dot_segment parts)) ValueError "path has unsafe segments" ;?
      let result := as_posix parts in
      require (negb (String.eqb result ".")) ValueError "path is required" ;?
      Ok result
  | _ => raise ValueError "path is required"
  end.

(** Whether a value may be an element of a set. *)
Definition hashable (v : json) : bool := match v with JList _ | JObj _ => false | _ => true end.

(** [value in ROLE_NAMES] on a frozen set: an unhashable value raises. *)
Definition in_names (value : json) (names : list string) : result bool :=
  match value with
  | JList _ | JObj _ => raise TypeError "unhashable type"
  | JStr s => Ok (mem s names)
  | _ => Ok false
  end.
Definition _role (value : json) : result unit :=
  let? known := in_names value ROLE_NAMES in
  require known ValueError "role is not registered".

Definition _nonnegative (value : json) (label : string) : result unit :=
  require (match value with JInt z => 0 <=? z | _ => false end)
    ValueError (label +:+ " must be a non-negative integer")%stdpp.

(** [tuple(value)] *)
Definition tuple_of (v : json) : result (list json) :=
  match v with
  | JList l => Ok l
  | JStr s => Ok (map JStr (chars s))
  | JObj l => Ok (map JStr l.*1)
  | _ => raise TypeError "object is not iterable"
  end.

(** [bool(value)] *)
Definition truthy (v : json) : bool :=
  match v with
  | JNull => false
  | JBool b => b
  | JInt z => negb (z =? 0)
  | JStr s => negb (String.eqb s "")
  | JList l => negb (Nat.eqb (length l) 0)
  | JObj l => negb (Nat.eqb (length l) 0)
  end.

(** Run a check over a sequence. *)
Fixpoint each {A} (f : A -> result unit) (l : list A) : result unit :=
  match l with [] => Ok tt | x :: xs => f x ;? each f xs end.
Fixpoint map_result {A B} (f : A -> result B) (l : list A) : result (list B) :=
  match l with
  | [] => Ok []
  | x :: xs => let? y := f x in let? ys := map_result f xs in Ok (y :: ys)
  end.

(** ** Contracts as dictionaries of fields *)

Definition contract : Type := list (string * json).

(** [cls] on the keyword arguments [values] of a dataclass without defaults: every field is given and
    nothing else; the instance lists its fields in declaration order. *)
Definition construct (fields : list string) (values : contract) : result contract :=
  require (forallb (fun kv => mem kv.1 fields) values && forallb (fun k => has k values) fields)
    TypeError "unexpected or missing argument" ;?
  Ok (map (fun k => (k, get k values)) fields).

Definition budget_fields : list string :=
  ["max_wall_seconds"; "max_model_calls"; "max_input_tokens"; "max_output_tokens";
   "max_cost_microunits"; "max_tool_calls"; "max_work_items"; "max_depth"].
(** [Budget] on the keyword arguments [value] *)
Definition budget_of (value : json) : result json :=
  match value with
  | JObj values =>
      let? b := construct budget_fields values in
      each (fun k => _nonnegative (get k b) k) budget_fields ;?
      Ok (JObj b)
  | _ => raise TypeError "argument after ** must be a mapping"
  end.

(** The schema check of [_Contract.from_document]; three levels of nesting are
    enough for every kernel schema. *)
Definition schema_check (schema_name : string) (document : contract) : result unit :=
  match validate_contract 3 kernel_schemas schema_name (JObj document) with
  | Some v => require (valid v) ValueError ("invalid kernel contract: " +:+ join "; " (issues v))%stdpp
  | None => raise RuntimeError "maximum recursion depth exceeded"
  end.

(** *** Evaluation plans *)

Definition evaluation_plan_fields : list string :=
  ["plan_id"; "base_commit"; "base_tree_digest"; "acceptance_commands"; "environment_requirements";
   "allowed_test_paths"; "test_digests"; "security_checks"; "contamination_checks"; "evaluator_requirements";
   "evidence_bundle_format"; "pass_fail_abstain_rules"; "regression_budget"; "state"; "plan_digest"].

(** [EvaluationPlan.__post_init__] *)
Definition check_evaluation_plan (p : contract) : result contract :=
  _require (get "plan_id" p) "plan_id" ;?
  _sha (get "base_commit" p) ;?
  _digest (get "base_tree_digest" p) "digest" ;?
  require (truthy (get "acceptance_commands" p)) ValueError "acceptance_commands is required" ;?
  let? paths := tuple_of (get "allowed_test_paths" p) in
  let? normal := map_result normalize_portable_path paths in
  let p := set_key "allowed_test_paths" (JList (map JStr normal)) p in
  let? tests := tuple_of (get "test_digests" p) in
  each (fun d => _digest d "digest") (tests ++ [get "plan_digest" p]) ;?
  _require (get "evidence_bundle_format" p) "evidence_bundle_format" ;?
  Ok p.

(** [EvaluationPlan.from_document] *)
Definition evaluation_plan_from_document (document : contract) : result contract :=
  schema_check "brain-kernel-evaluation" document ;?
  let? budget := budget_of (get "regression_budget" document) in
  let values := set_key "regression_budget" budget document in
  let? state := evaluation_state_of (get "state" values) in
  let values := set_key "state" (JStr (evaluation_value state)) values in
  let? p := construct evaluation_plan_fields values in
  check_evaluation_plan p.

(** *** Evaluation results *)

Definition evaluation_result_fields : list string :=
  ["plan_digest"; "candidate_digest"; "evaluator_id"; "state"; "check_results"; "evidence_refs"; "result_digest"].

(** [EvaluationResult] on the keyword arguments [values] *)
Definition evaluation_result_of (values : contract) : result contract :=
  let? r := construct evaluation_result_fields values in
  each (fun label => _digest (get label r) label) ["plan_digest"; "candidate_digest"; "result_digest"] ;?
  _require (get "evaluator_id" r) "evaluator_id" ;?
  Ok r.

(** *** Role results *)

Definition role_result_fields : list string :=
  ["mission_id"; "work_id"; "attempt_id"; "role"; "executor_id"; "context_manifest_digest";
   "authority_envelope_digest"; "base_artifact_refs"; "candidate_artifact_refs"; "output_artifact_refs";
   "claims"; "effect_receipt_refs"; "unresolved_risks"; "requested_next_role"; "self_assessment"; "result_digest"].

(** [RoleResult] on the keyword arguments [values] *)
Definition role_result_of (values : contract) : result contract :=
  let? r := construct role_result_fields values in
  _identifier (get "mission_id" r) K_mission ;?
  _identifier (get "work_id" r) K_work ;?
  _identifier (get "attempt_id" r) K_attempt ;?
  _role (get "role" r) ;?
  _require (get "executor_id" r) "executor_id" ;?
  _digest (get "context_manifest_digest" r) "digest" ;?
  _digest (get "authority_envelope_digest" r) "digest" ;?
  match get "requested_next_role" r with JNull => Ok tt | role => _role role end ;?
  _digest (get "result_digest" r) "result_digest" ;?
  Ok r.

(** *** Historical evidence *)

Definition historical_evidence_fields : list string :=
  ["receipt_ref"; "receipt_digest"; "provenance_label"; "retention_note"].

(** [HistoricalEvidenceReference] on the keyword arguments [values] *)
Definition historical_evidence_of (values : contract) : result contract :=
  let? r := construct historical_evidence_fields values in
  _require (get "receipt_ref" r) "receipt_ref" ;?
  _digest (get "receipt_digest" r) "receipt_digest" ;?
  _require (get "provenance_label" r) "provenance_label" ;?
  _require (get "retention_note" r) "retention_note" ;?
  Ok r.

(** [HistoricalEvidenceReference.from_document] *)
Definition historical_evidence_from_document (document : json) : result contract :=
  match document with
  | JObj values =>
      schema_check "brain-kernel-historical-evidence-reference" values ;?
      historical_evidence_of values
  | _ => raise ValueError "kernel contract document must be an object"
  end.

(** ** Typed contracts *)

Record Budget := {
  max_wall_seconds : Z; max_model_calls : Z; max_input_tokens : Z; max_output_tokens : Z;
  max_cost_microunits : Z; max_tool_calls : Z; max_work_items : Z; max_depth : Z }.

Definition budget_values (b : Budget) : list Z :=
  [max_wall_seconds b; max_model_calls b; max_input_tokens b; max_output_tokens b;
   max_cost_microunits b; max_tool_calls b; max_work_items b; max_depth b].
Definition budget_document (b : Budget) : json := JObj (zip budget_fields (map JInt (budget_values b))).
(** [Budget.__post_init__] *)
Definition check_budget (b : Budget) : result unit :=
  each (fun nv => _nonnegative (JInt nv.2) nv.1) (zip budget_fields (budget_values b)).

Definition opt_str (o : option string) : json := match o with Some s => JStr s | None => JNull end.
Definition strs (l : list string) : json := JList (map JStr l).

Record ConstraintEnvelope := {
  envelope_id : string;
  env_mission_id : string;
  env_work_id : string;
  parent_envelope_digest : option string;
  actor_role : string;
  env_risk_tier : string;
  allowed_actions : list string;
  denied_actions : list string;
  path_read_scope : list string;
  path_write_scope : list string;
  network_allowlist : list string;
  data_scopes : list string;
  secret_scopes : list string;
  human_gates : list string;
  budgets : Budget;
  expires_at : string;
  policy_fingerprint : string;
  digest_value : string }.

(** The path scopes replaced by their normal form. *)
Definition with_scopes (e : ConstraintEnvelope) (reads writes : list string) : ConstraintEnvelope :=
  {| envelope_id := envelope_id e; env_mission_id := env_mission_id e; env_work_id := env_work_id e;
     parent_envelope_digest := parent_envelope_digest e; actor_role := actor_role e;
     env_risk_tier := env_risk_tier e; allowed_actions := allowed_actions e; denied_actions := denied_actions e;
     path_read_scope := reads; path_write_scope := writes; network_allowlist := network_allowlist e;
     data_scopes := data_scopes e; secret_scopes := secret_scopes e; human_gates := human_gates e;
     budgets := budgets e; expires_at := expires_at e; policy_fingerprint := policy_fingerprint e;
     digest_value := digest_value e |}.

(** [ConstraintEnvelope.__post_init__]; the budget was checked when it was
    built. *)
Definition check_envelope (e : ConstraintEnvelope) : result ConstraintEnvelope :=
  _identifier (JStr (envelope_id e)) K_authority ;?
  _identifier (JStr (env_mission_id e)) K_mission ;?
  _identifier (JStr (env_work_id e)) K_work ;?
  match parent_envelope_digest e with
  | Some d => _digest (JStr d) "parent_envelope_digest"
  | None => Ok tt
  end ;?
  _role (JStr (actor_role e)) ;?
  require (mem (env_risk_tier e) RISK_TIERS) ValueError "invalid risk_tier" ;?
  let? reads := map_result (fun p => normalize_portable_path (JStr p)) (path_read_scope e) in
  let? writes := map_result (fun p => normalize_portable_path (JStr p)) (path_write_scope e) in
  _time (JStr (expires_at e)) "expires_at" ;?
  _digest (JStr (policy_fingerprint e)) "policy_fingerprint" ;?
  _digest (JStr (digest_value e)) "digest" ;?
  Ok (with_scopes e reads writes).

(** Every field but the seal, under its JSON name. *)
Definition envelope_content (e : ConstraintEnvelope) : contract :=
  [("envelope_id", JStr (envelope_id e)); ("mission_id", JStr (env_mission_id e));
   ("work_id", JStr (env_work_id e)); ("parent_envelope_digest", opt_str (parent_envelope_digest e));
   ("actor_role", JStr (actor_role e)); ("risk_tier", JStr (env_risk_tier e));
   ("allowed_actions", strs (allowed_actions e)); ("denied_actions", strs (denied_actions e));
   ("path_read_scope", strs (path_read_scope e)); ("path_write_scope", strs (path_write_scope e));
   ("network_allowlist", strs (network_allowlist e)); ("data_scopes", strs (data_scopes e));
   ("secret_scopes", strs (secret_scopes e)); ("human_gates", strs (human_gates e));
   ("budgets", budget_document (budgets e)); ("expires_at", JStr (expires_at e));
   ("policy_fingerprint", JStr (policy_fingerprint e))].

(** [ConstraintEnvelope.to_document] *)
Definition envelope_to_document (e : ConstraintEnvelope) : contract :=
  envelope_content e ++ [("digest", JStr (digest_value e))].

Definition content_digest (e : ConstraintEnvelope) : string :=
  canonical_digest (JObj (pop_key "digest" (envelope_to_document e))).

Definition with_digest (e : ConstraintEnvelope) (d : string) : ConstraintEnvelope :=
  {| envelope_id := envelope_id e; env_mission_id := env_mission_id e; env_work_id := env_work_id e;
     parent_envelope_digest := parent_envelope_digest e; actor_role := actor_role e;
     env_risk_tier := env_risk_tier e; allowed_actions := allowed_actions e; denied_actions := denied_actions e;
     path_read_scope := path_read_scope e; path_write_scope := path_write_scope e;
     network_allowlist := network_allowlist e; data_scopes := data_scopes e; secret_scopes := secret_scopes e;
     human_gates := human_gates e; budgets := budgets e; expires_at := expires_at e;
     policy_fingerprint := policy_fingerprint e; digest_value := d |}.

(** [ConstraintEnvelope.sealed]; [replace] runs the field checks again. *)
Definition sealed (e : ConstraintEnvelope) : result ConstraintEnvelope :=
  check_envelope (with_digest e (content_digest e)).

Definition authority_key (e : ConstraintEnvelope) : string :=
  canonical_digest (JObj (pop_key "parent_envelope_digest" (pop_key "envelope_id" (pop_key "digest" (envelope_to_document e))))).

(** [set(a).issubset(b)] *)
Definition subset (a b : list string) : bool := forallb (fun x => mem x b) a.

(** The comparisons of [is_no_broader_than] before the expiry. *)
Definition narrower_scopes (child parent : ConstraintEnvelope) : bool :=
  subset (allowed_actions child) (allowed_actions parent)
  && subset (denied_actions parent) (denied_actions child)
  && subset (path_read_scope child) (path_read_scope parent)
  && subset (path_write_scope child) (path_write_scope parent)
  && subset (network_allowlist child) (network_allowlist parent)
  && subset (data_scopes child) (data_scopes parent)
  && subset (secret_scopes child) (secret_scopes parent)
  && subset (human_gates parent) (human_gates child).
Definition budget_le (a b : Budget) : bool :=
  forallb (fun p => p.1 <=? p.2) (zip (budget_values a) (budget_values b)).

Definition is_no_broader_than (child parent : ConstraintEnvelope) : result bool :=
  if narrower_scopes child parent then
    let? c := _instant (expires_at child) in
    let? p := _instant (expires_at parent) in
    let? sooner := dt_le c p in
    Ok (sooner && budget_le (budgets child) (budgets parent))
  else Ok false.

Record EffectIntent := {
  i_mission_id : string; i_work_id : string; i_attempt_id : string; i_actor_id : string; i_role : string;
  i_action : string; i_risk_tier : string; target_adapter : string; i_target : string;
  parameters_digest : string; i_idempotency_key : string; authority_envelope_digest : string;
  expected_preconditions : list string; rollback_description : string; policy_decision_ref : string;
  intent_digest : string }.

Definition with_target (i : EffectIntent) (t : string) : EffectIntent :=
  {| i_mission_id := i_mission_id i; i_work_id := i_work_id i; i_attempt_id := i_attempt_id i;
     i_actor_id := i_actor_id i; i_role := i_role i; i_action := i_action i; i_risk_tier := i_risk_tier i;
     target_adapter := target_adapter i; i_target := t; parameters_digest := parameters_digest i;
     i_idempotency_key := i_idempotency_key i; authority_envelope_digest := authority_envelope_digest i;
     expected_preconditions := expected_preconditions i; rollback_description := rollback_description i;
     policy_decision_ref := policy_decision_ref i; intent_digest := intent_digest i |}.
Definition with_intent_digest (i : EffectIntent) (d : string) : EffectIntent :=
  {| i_mission_id := i_mission_id i; i_work_id := i_work_id i; i_attempt_id := i_attempt_id i;
     i_actor_id := i_actor_id i; i_role := i_role i; i_action := i_action i; i_risk_tier := i_risk_tier i;
     target_adapter := target_adapter i; i_target := i_target i; parameters_digest := parameters_digest i;
     i_idempotency_key := i_idempotency_key i; authority_envelope_digest := authority_envelope_digest i;
     expected_preconditions := expected_preconditions i; rollback_description := rollback_description i;
     policy_decision_ref := policy_decision_ref i; intent_digest := d |}.

(** [EffectIntent.__post_init__] *)
Definition check_intent (i : EffectIntent) : result EffectIntent :=
  _identifier (JStr (i_mission_id i)) K_mission ;?
  _identifier (JStr (i_work_id i)) K_work ;?
  _identifier (JStr (i_attempt_id i)) K_attempt ;?
  _require (JStr (i_actor_id i)) "actor_id" ;?
  _role (JStr (i_role i)) ;?
  each (fun lv => _require (JStr lv.2) lv.1)
    [("action", i_action i); ("target_adapter", target_adapter i); ("target", i_target i);
     ("rollback_description", rollback_description i); ("policy_decision_ref", policy_decision_ref i)] ;?
  let? target := normalize_portable_path (JStr (i_target i)) in
  each (fun d => _digest (JStr d) "digest")
    [parameters_digest i; i_idempotency_key i; authority_envelope_digest i; intent_digest i] ;?
  Ok (with_target i target).

Definition intent_content (i : EffectIntent) : contract :=
  [("mission_id", JStr (i_mission_id i)); ("work_id", JStr (i_work_id i)); ("attempt_id", JStr (i_attempt_id i));
   ("actor_id", JStr (i_actor_id i)); ("role", JStr (i_role i)); ("action", JStr (i_action i));
   ("risk_tier", JStr (i_risk_tier i)); ("target_adapter", JStr (target_adapter i)); ("target", JStr (i_target i));
   ("parameters_digest", JStr (parameters_digest i)); ("idempotency_key", JStr (i_idempotency_key i));
   ("authority_envelope_digest", JStr (authority_envelope_digest i));
   ("expected_preconditions", strs (expected_preconditions i)); ("rollback_description", JStr (rollback_description i));
   ("policy_decision_ref", JStr (policy_decision_ref i))].
(** [EffectIntent.to_document] *)
Definition intent_to_document (i : EffectIntent) : contract :=
  intent_content i ++ [("intent_digest", JStr (intent_digest i))].

(** [EffectIntent.from_document]: the schema has checked the type of every
    member that is read here. *)
Definition str_field (k : string) (d : contract) : string := default "" (as_str (get k d)).
Definition strs_field (k : string) (d : contract) : list string :=
  omap as_str (default [] (as_list (get k d))).
Definition intent_from_document (document : json) : result EffectIntent :=
  match document with
  | JObj d =>
      schema_check "brain-kernel-effect-intent" d ;?
      check_intent
        {| i_mission_id := str_field "mission_id" d; i_work_id := str_field "work_id" d;
           i_attempt_id := str_field "attempt_id" d; i_actor_id := str_field "actor_id" d;
           i_role := str_field "role" d; i_action := str_field "action" d; i_risk_tier := str_field "risk_tier" d;
           target_adapter := str_field "target_adapter" d; i_target := str_field "target" d;
           parameters_digest := str_field "parameters_digest" d; i_idempotency_key := str_field "idempotency_key" d;
           authority_envelope_digest := str_field "authority_envelope_digest" d;
           expected_preconditions := strs_field "expected_preconditions" d;
           rollback_description := str_field "rollback_description" d;
           policy_decision_ref := str_field "policy_decision_ref" d; intent_digest := str_field "intent_digest" d |}
  | _ => raise ValueError "kernel contract document must be an object"
  end.

Record EffectReceipt := {
  r_intent_digest : string; started_at : string; ended_at : string; adapter_identity : string;
  adapter_version : string; observed_precondition_digest : string; r_status : string;
  stdout_digest : option string; stderr_digest : option string; produced_identifiers : list string;
  postcondition_digest : string; retry_of : option string; rollback_receipt : option string }.

(** [EffectReceipt.__post_init__] *)
Definition check_receipt (r : EffectReceipt) : result EffectReceipt :=
  each (fun lv => _digest (JStr lv.2) lv.1)
    [("intent_digest", r_intent_digest r); ("observed_precondition_digest", observed_precondition_digest r);
     ("postcondition_digest", postcondition_digest r)] ;?
  each (fun lv => _time (JStr lv.2) lv.1) [("started_at", started_at r); ("ended_at", ended_at r)] ;?
  _require (JStr (adapter_identity r)) "adapter_identity" ;?
  _require (JStr (adapter_version r)) "adapter_version" ;?
  require (mem (r_status r) ["SUCCEEDED"; "FAILED"; "ABSTAINED"]) ValueError "invalid receipt status" ;?
  each (fun o => match o with Some d => _digest (JStr d) "digest" | None => Ok tt end)
    [stdout_digest r; stderr_digest r; retry_of r; rollback_receipt r] ;?
  Ok r.

(** [EffectReceipt.to_document] *)
Definition receipt_to_document (r : EffectReceipt) : contract :=
  [("intent_digest", JStr (r_intent_digest r)); ("started_at", JStr (started_at r)); ("ended_at", JStr (ended_at r));
   ("adapter_identity", JStr (adapter_identity r)); ("adapter_version", JStr (adapter_version r));
   ("observed_precondition_digest", JStr (observed_precondition_digest r)); ("status", JStr (r_status r));
   ("stdout_digest", opt_str (stdout_digest r)); ("stderr_digest", opt_str (stderr_digest r));
   ("produced_identifiers", strs (produced_identifiers r)); ("postcondition_digest", JStr (postcondition_digest r));
   ("retry_of", opt_str (retry_of r)); ("rollback_receipt", opt_str (rollback_receipt r))].

(** ** Portable paths *)

Definition without (c : ascii) (s : string) : bool := all_chars (fun a => negb (bool_decide (a = c))) s.

Lemma all_chars_append p s t : all_chars p (s +:+ t)%stdpp = all_chars p s && all_chars p t.
Proof. induction s as [|a s IH]; rewrite ?append_cons; simpl; [done|]. by rewrite IH, andb_assoc. Qed.

Lemma replace_char_without c r s : without c r = true -> without c (replace_char c r s) = true.
Proof.
  unfold without. intros Hr. induction s as [|a s IH]; [done|]. simpl.
  destruct (ascii_dec a c) as [->|Ha]; [by rewrite all_chars_append, Hr, IH|].
  simpl. by rewrite IH, bool_decide_eq_false_2.
Qed.

Lemma replace_char_absent c r s : without c s = true -> replace_char c r s = s.
Proof.
  unfold without. induction s as [|a s IH]; [done|]. simpl. intros H. bool_hyps.
  destruct (ascii_dec a c); [done|]. by rewrite IH.
Qed.

Lemma concat_cons sep x y l : String.concat sep (x :: y :: l) = (x +:+ sep +:+ String.concat sep (y :: l))%stdpp.
Proof. reflexivity. Qed.

Lemma join_split c s : join (String c "") (split_on c s) = s.
Proof.
  unfold join. induction s as [|a s IH]; [done|]. cbn [split_on].
  destruct (ascii_dec a c) as [->|Ha].
  - destruct (split_on c s) as [|p ps] eqn:E; [destruct s; simpl in E; repeat case_match; done|].
    by rewrite concat_cons, IH.
  - destruct (split_on c s) as [|p ps] eqn:E; [destruct s; simpl in E; repeat case_match; done|].
    destruct ps as [|q ps].
    + simpl in IH |- *. by subst.
    + rewrite concat_cons in IH |- *. rewrite append_cons. by rewrite IH.
Qed.

Lemma normalize_path_spec s p :
  normalize_portable_path (JStr s) = Ok p <->
  p = replace_char backslash "/" s /\ s <> "" /\ startswith "/" p = false /\ drive_prefix p = false
  /\ existsb dot_segment (split_on "/" p) = false /\ p <> ".".
Proof.
  unfold normalize_portable_path, as_posix. rewrite join_split. split.
  - intros H. peel. bool_hyps. done.
  - intros (-> & H1 & H2 & H3 & H4 & H5). apply String.eqb_neq in H1, H5. by rewrite H1, H2, H3, H4, H5.
Qed.

Lemma replace_char_nonempty c a r s : s <> "" -> replace_char c (String a r) s <> "".
Proof. destruct s; [done|]. simpl. intros _. destruct (ascii_dec _ _); done. Qed.

(** A normalised path is a relative POSIX path: it has no backslash, does not
    start at the root or on a drive, none of its segments is empty, a dot or
    a parent reference; and normalising it again changes nothing. *)
Theorem normalized_paths_are_portable s p :
  normalize_portable_path (JStr s) = Ok p ->
  p <> "" /\ without backslash p = true /\ startswith "/" p = false /\ drive_prefix p = false
  /\ (forall part, part ∈ split_on "/" p -> part <> "" /\ part <> "." /\ part <> "..")
  /\ normalize_portable_path (JStr p) = Ok p.
Proof.
  intros H. apply normalize_path_spec in H as (Hp & Hs & H1 & H2 & H3 & H4).
  assert (Hw : without backslash p = true) by (rewrite Hp; by apply replace_char_without).
  assert (Hne : p <> "") by (rewrite Hp; by apply replace_char_nonempty).
  split; [done|]. split; [done|]. split; [done|]. split; [done|]. split.
  - intros part Hin. assert (Hd : dot_segment part = false).
    { destruct (dot_segment part) eqn:E; [|done]. rewrite <- H3. symmetry. apply existsb_exists.
      exists part. split; [by apply list_elem_of_In|done]. }
    unfold dot_segment, mem in Hd. bool_hyps. rewrite !elem_of_cons in Hd. naive_solver.
  - apply normalize_path_spec. rewrite replace_char_absent by done. done.
Qed.

Lemma normalized_paths_are_portable_witness :
  normalize_portable_path (JStr "src\core/model.py") = Ok "src/core/model.py"
  /\ normalize_portable_path (JStr "src/core/model.py") = Ok "src/core/model.py".
Proof.
  split; [vm_compute; reflexivity|].
  apply (normalized_paths_are_portable "src\core/model.py" "src/core/model.py"). vm_compute. reflexivity.
Defined.

(** ** Narrowing *)

Lemma subset_spec a b : subset a b = true <-> a ⊆ b.
Proof.
  unfold subset. rewrite forallb_forall. split; intros H x; [rewrite list_elem_of_In|rewrite <- list_elem_of_In];
    intros Hx; [apply mem_spec; auto|]. apply mem_spec. auto.
Qed.

Lemma subset_trans a b c : subset a b = true -> subset b c = true -> subset a c = true.
Proof. rewrite !subset_spec. intros; by etrans. Qed.

(** [child] is no broader than [parent]: every comparison of
    [is_no_broader_than] holds. *)
Record narrower (child parent : ConstraintEnvelope) : Prop := {
  n_scopes : narrower_scopes child parent = true;
  n_expiry : exists c p, _instant (expires_at child) = Ok c /\ _instant (expires_at parent) = Ok p
               /\ dt_le c p = Ok true;
  n_budget : budget_le (budgets child) (budgets parent) = true }.

Lemma is_no_broader_than_spec child parent :
  is_no_broader_than child parent = Ok true <-> narrower child parent.
Proof.
  unfold is_no_broader_than. split.
  - intros H. destruct (narrower_scopes _ _) eqn:E; [|discriminate H].
    apply rbind_ok in H as (c & Hc & H). apply rbind_ok in H as (p & Hp & H).
    apply rbind_ok in H as (b & Hb & H). injection H as H. bool_hyps. subst b. split; eauto.
  - intros [-> (c & p & -> & -> & Hle) Hb]. cbn [rbind]. rewrite Hle. cbn [rbind]. by rewrite Hb.
Qed.

Lemma budget_le_trans a b c : budget_le a b = true -> budget_le b c = true -> budget_le a c = true.
Proof.
  unfold budget_le, budget_values. cbn [zip zip_with forallb fst snd].
  intros H1 H2. bool_hyps. rewrite !andb_true_iff, !Z.leb_le. repeat split; try done; lia.
Qed.

Lemma dt_le_trans a b c : dt_le a b = Ok true -> dt_le b c = Ok true -> dt_le a c = Ok true.
Proof.
  unfold dt_le. destruct (Bool.eqb (is_aware a) _) eqn:E1; [|discriminate].
  destruct (Bool.eqb (is_aware b) _) eqn:E2; [|discriminate].
  apply Bool.eqb_prop in E1, E2. rewrite E1, E2, Bool.eqb_reflx. intros H1 H2.
  injection H1 as H1. injection H2 as H2. bool_hyps. f_equal. apply Z.leb_le. lia.
Qed.

Lemma narrower_trans a b c : narrower a b -> narrower b c -> narrower a c.
Proof.
  intros [S1 (c1 & p1 & E1 & E2 & L1) B1] [S2 (c2 & p2 & E3 & E4 & L2) B2]. split.
  - unfold narrower_scopes in *. bool_hyps. rewrite !andb_true_iff.
    repeat split; eapply subset_trans; eassumption.
  - rewrite E2 in E3. injection E3 as <-. exists c1, p2. split; [done|]. split; [done|]. by eapply dt_le_trans.
  - by eapply budget_le_trans.
Qed.

(** ** Stored objects *)

Lemma has_elem k (d : contract) : has k d = true <-> k ∈ d.*1.
Proof.
  unfold has. destruct (lookup_key k d) eqn:E.
  - split; [intros _|done]. apply lookup_key_in in E. by apply (list_elem_of_fmap_2 fst) in E.
  - apply lookup_key_not_in in E. split; [done|by intros].
Qed.

(** Members of a normalised object. *)
Lemma norm_obj_members l : exists l', norm (JObj l) = JObj l' /\ l' ≡ₚ map (fun kv => (kv.1, norm kv.2)) l.
Proof. cbn [norm]. eexists. split; [done|]. apply sorted_by_perm. Qed.

Lemma norm_strs l : norm (strs l) = strs l.
Proof.
  unfold strs. cbn [norm]. f_equal. rewrite List.map_map. by apply map_ext.
Qed.

Lemma strs_wf l : json_wf (strs l) = true.
Proof. cbn. induction l; done. Qed.

Lemma object_wf (t : contract) : NoDup t.*1 -> (forall k v, (k, v) ∈ t -> json_wf v = true) -> json_wf (JObj t) = true.
Proof.
  intros Hn Hv. cbn. apply andb_true_iff. split; [by apply bool_decide_eq_true|].
  apply forallb_forall. intros [k v] Hin. apply (Hv k). by apply list_elem_of_In.
Qed.

(** The members of a stored (canonical) object. *)
Lemma stored_members t d : NoDup t.*1 -> norm (JObj t) = JObj d ->
  (forall k, get k d = norm (get k t)) /\ d.*1 ≡ₚ t.*1.
Proof.
  intros Hn E. destruct (norm_obj_members t) as (l & El & Hl). rewrite E in El. injection El as <-.
  assert (Hk : d.*1 ≡ₚ t.*1).
  { rewrite Hl. change (map ?f t) with (f <$> t). by rewrite <- list_fmap_compose. }
  split; [|done]. intros k. unfold get. rewrite (lookup_key_perm k d (map (fun kv => (kv.1, norm kv.2)) t)) by (by rewrite ?Hk).
  rewrite lookup_key_map. by destruct (lookup_key k t).
Qed.

(** Objects of equal canonical bytes have equal members. *)
Lemma same_bytes_members (t t' : contract) : json_wf (JObj t) = true -> json_wf (JObj t') = true ->
  canonical_bytes (JObj t) = canonical_bytes (JObj t') -> forall k, norm (get k t) = norm (get k t').
Proof.
  intros Hw Hw' E k. assert (En : norm (JObj t) = norm (JObj t')).
  { apply loads_dumps_norm in Hw, Hw'. unfold canonical_bytes in E. rewrite E in Hw. congruence. }
  destruct (norm_obj_members t) as (d & Ed & _). rewrite Ed in En.
  assert (Hn : NoDup t.*1 /\ NoDup t'.*1).
  { cbn in Hw, Hw'. apply andb_true_iff in Hw as [Hw _], Hw' as [Hw' _]. unfold distinct in Hw, Hw'. by bool_hyps. }
  destruct (stored_members t d (proj1 Hn) Ed) as [<- _]. by destruct (stored_members t' d (proj2 Hn) (eq_sym En)) as [<- _].
Qed.

(** Objects of distinct keys with the same members are permutations. *)
Lemma same_members_perm (d t : contract) : NoDup t.*1 -> d.*1 ≡ₚ t.*1 -> (forall k, get k d = get k t) -> d ≡ₚ t.
Proof.
  intros Hn Hk Hg. assert (Hd : NoDup d.*1) by (by rewrite Hk).
  assert (Hin : forall a b : contract, NoDup a.*1 -> a.*1 ≡ₚ b.*1 -> (forall k, get k a = get k b) -> forall kv, kv ∈ a -> kv ∈ b).
  { intros a b Ha Hab Hgab [k w] Hkw. assert (Hb : k ∈ b.*1) by (rewrite <- Hab; by apply (list_elem_of_fmap_2 fst _ (k, w))).
    apply (lookup_key_NoDup k w a Ha) in Hkw. specialize (Hgab k). unfold get in Hgab. rewrite Hkw in Hgab. cbn in Hgab.
    destruct (lookup_key k b) as [u|] eqn:E; [|by apply lookup_key_not_in in E]. cbn in Hgab. subst u. by apply lookup_key_in in E. }
  apply NoDup_Permutation; [by apply (NoDup_fmap_1 fst)..|]. intros kv. split; apply Hin; [done..|by symmetry|intros k; by rewrite Hg].
Qed.

Lemma NoDup_fields (l names : list string) : NoDup l -> NoDup names -> subset l names = true -> names ⊆ l -> l ≡ₚ names.
Proof.
  intros Hl Hn H1%subset_spec H2. apply NoDup_Permutation; [done..|]. intros x. split; [apply H1|apply H2].
Qed.

Lemma canonical_perm (d t : contract) : NoDup d.*1 -> d ≡ₚ t -> canonical_bytes (JObj d) = canonical_bytes (JObj t).
Proof. intros Hn Hp. unfold canonical_bytes, dumps. rewrite (norm_obj_perm d t); [done|by apply bool_decide_eq_true|done]. Qed.

Lemma pop_key_sub {A} k (l : list (string * A)) : (pop_key k l).*1 `sublist_of` l.*1.
Proof.
  induction l as [|[k' x] l IH]; [done|]. unfold pop_key in *. cbn. destruct (String.eqb k' k); cbn; [by apply sublist_cons|by apply sublist_skip].
Qed.

Lemma get_pop_key k k' (d : contract) : k <> k' -> get k (pop_key k' d) = get k d.
Proof.
  intros Hk. unfold pop_key, get. f_equal. induction d as [|[x v] d IH]; [done|]. cbn. destruct (String.eqb_spec x k') as [->|Hne]; cbn.
  - rewrite IH, lookup_key_cons. by destruct (String.eqb_spec k' k).
  - by rewrite !lookup_key_cons, IH.
Qed.

Lemma pop_key_NoDup {A} k (l : list (string * A)) : NoDup l.*1 -> NoDup (pop_key k l).*1.
Proof. intros H. exact (sublist_NoDup _ _ H (pop_key_sub k l)). Qed.

Lemma pop_key_perm {A} k (l l' : list (string * A)) : l ≡ₚ l' -> pop_key k l ≡ₚ pop_key k l'.
Proof. apply filter_perm. Qed.

(** A stored object whose members are in canonical form has the same members. *)
Lemma stored_plain (t d : contract) : NoDup t.*1 -> loads (canonical_bytes (JObj t)) = Some (JObj d) ->
  (forall k w, (k, w) ∈ t -> json_wf w = true /\ norm w = w) -> d ≡ₚ t.
Proof.
  intros Hn Hl Ht. unfold canonical_bytes in Hl. rewrite loads_dumps_norm in Hl by (apply object_wf; [done|]; intros k w Hin; by apply (Ht k)).
  assert (E : norm (JObj t) = JObj d) by congruence. destruct (stored_members t d Hn E) as [Hg Hk].
  apply same_members_perm; [done..|]. intros k. rewrite Hg. unfold get. destruct (lookup_key k t) as [w|] eqn:El; [|done].
  apply lookup_key_in in El. by apply (Ht k).
Qed.

(** A digest of the program is one in form. *)
Lemma match_lits p q s : match_items (lits p ++ q) (p +:+ s)%stdpp = match_items q s.
Proof.
  induction p as [|a p IH]; [done|]. rewrite append_cons. cbn -[is_hex]. rewrite IH. by rewrite bool_decide_eq_true_2.
Qed.

Lemma match_times n f s : String.length s = n -> all_chars f s = true -> match_items (times n f) s = true.
Proof.
  revert s. induction n as [|n IH]; intros [|a s] Hl H; try done. cbn in *. apply andb_true_iff in H as [-> H].
  apply IH; [by injection Hl|done].
Qed.

Lemma reference_is_digest s : is_digest ("sha256:" +:+ sha256_hexdigest s)%stdpp = true.
Proof.
  unfold is_digest. rewrite match_lits. apply match_times; apply sha256_hexdigest_shape.
Qed.

Lemma each_ok {A} (f : A -> result unit) l u : each f l = Ok u <-> forall x, x ∈ l -> f x = Ok tt.
Proof.
  destruct u. induction l as [|x l IH]; cbn; [split; [intros _ x Hx; by apply elem_of_nil in Hx|done]|].
  rewrite rbind_ok. split.
  - intros ([] & H1 & H2) y Hy. apply elem_of_cons in Hy as [->|Hy]; [done|]. by apply IH.
  - intros H. exists tt. split; [apply H; by left|]. apply IH. intros y Hy. apply H. by right.
Qed.

Lemma map_result_length {A B} (f : A -> result B) l ys : map_result f l = Ok ys -> length ys = length l.
Proof.
  revert ys. induction l as [|x l IH]; simpl; intros ys H; [by injection H as <-|].
  peel. simpl. f_equal. by apply IH.
Qed.

Lemma map_result_Forall2 {A B} (f : A -> result B) l ys :
  Forall2 (fun x y => f x = Ok y) l ys -> map_result f l = Ok ys.
Proof. induction 1 as [|x y l ys E _ IH]; cbn; [done|]. by rewrite E, IH. Qed.

Lemma map_result_ext {A B} (f f' : A -> result B) l : (forall x, f x = f' x) -> map_result f l = map_result f' l.
Proof. intros H. induction l as [|x l IH]; cbn; [done|]. by rewrite H, IH. Qed.

Lemma map_result_app {A B} (f : A -> result B) l1 l2 a b :
  map_result f l1 = Ok a -> map_result f l2 = Ok b -> map_result f (l1 ++ l2) = Ok (a ++ b).
Proof.
  revert a. induction l1 as [|x l1 IH]; intros a H1 H2; cbn in *; [by injection H1 as <-|].
  take_ok H1 y Ey. take_ok H1 ys Eys. injection H1 as <-. rewrite Ey. cbn [rbind]. by rewrite (IH ys).
Qed.

Lemma map_result_elem {A B} (f : A -> result B) l ys y : map_result f l = Ok ys -> y ∈ ys -> exists x, x ∈ l /\ f x = Ok y.
Proof.
  revert ys. induction l as [|x l IH]; cbn; intros ys H Hy; [injection H as <-; by apply elem_of_nil in Hy|].
  take_ok H z Ez. take_ok H zs Ezs. injection H as <-. apply elem_of_cons in Hy as [->|Hy].
  - exists x. split; [by left|done].
  - destruct (IH zs Ezs Hy) as (x' & Hx & E). exists x'. split; [by right|done].
Qed.

Lemma map_result_map {A B C} (f : B -> result C) (g : A -> B) (h : A -> C) l :
  (forall x, x ∈ l -> f (g x) = Ok (h x)) -> map_result f (map g l) = Ok (map h l).
Proof.
  induction l as [|x l IH]; intros H; [done|]. cbn. rewrite (H x) by (by left). cbn. rewrite IH; [done|].
  intros y Hy. apply H. by right.
Qed.

(** A checked envelope has an aware expiry. *)
Lemma time_instant s label : _time (JStr s) label = Ok tt -> exists d, from_zulu s = Some d /\ is_aware d = true.
Proof.
  unfold _time. intros H. apply rbind_ok in H as (? & _ & H).
  destruct (from_zulu s) as [d|]; [|discriminate H]. apply require_ok in H. by exists d.
Qed.

(** Normalising a list of paths twice is normalising it once. *)
Lemma normalize_all_idem l l' :
  map_result (fun p => normalize_portable_path (JStr p)) l = Ok l' ->
  map_result (fun p => normalize_portable_path (JStr p)) l' = Ok l'.
Proof.
  revert l'. induction l as [|x l IH]; cbn [map_result]; intros l' H; [by injection H as <-|].
  apply rbind_ok in H as (y & E & H). apply rbind_ok in H as (ys & El & H). injection H as <-.
  cbn [map_result]. rewrite (IH _ El).
  apply normalize_path_spec in E as (Hp & Hs & H1 & H2 & H3 & H4).
  assert (normalize_portable_path (JStr y) = Ok y) as ->; [|done].
  apply normalize_path_spec. rewrite replace_char_absent by (rewrite Hp; by apply replace_char_without).
  split; [done|]. split; [rewrite Hp; by apply replace_char_nonempty|done].
Qed.

End Contracts.
