(* ===== verification/RuntimeContracts.v ===== *)
(** * Contracts of the portable runtime

    [runtime_contracts.py]: strict JSON objects, the validators of digests,
    identifiers, times and paths, node contracts with their write scopes, and
    the check of a whole runtime graph.  A Python string is its UTF-8 bytes. *)

From S2P Require Import Prelude Sha256 Canonical AsciiJson PyLib Graphs Schema Contracts.
From Stdlib Require Import Ascii.

Module RuntimeContracts.
Export Graphs Contracts.
Import AsciiJson.

Definition violation {A} (m : string) : result A := raise ContractViolation m.

(** ** Strict JSON *)

Definition DEFAULT_MAXIMUM_JSON_BYTES : Z := 1048576.
Definition DEFAULT_MAXIMUM_JSON_DEPTH : Z := 64.

(** The members of an object, unless a key repeats. *)
Definition _closed_object (l : list (string * json)) : option (list (string * json)) :=
  if distinct l.*1 then Some l else None.

(** The largest depth the stack of [_json_depth] meets. *)
Fixpoint _json_depth (j : json) : Z :=
  match j with
  | JList l => 1 + foldr Z.max 0 (map _json_depth l)
  | JObj l => 1 + foldr Z.max 0 (map (fun kv => _json_depth kv.2) l)
  | _ => 1
  end.

(** [raw.decode("utf-8", "strict")] succeeds. *)
Definition continuation (b : ascii) : bool := (code b / 64 =? 2)%N.
Fixpoint utf8_valid (s : string) : bool :=
  match s with
  | EmptyString => true
  | String a r =>
      let n := code a in
      if (n <? 128)%N then utf8_valid r
      else match r with
      | String b r1 =>
          if (n <? 224)%N then (194 <=? n)%N && continuation b && utf8_valid r1
          else match r1 with
          | String c r2 =>
              if (n <? 240)%N then
                let p := (((n - 224) * 64 + (code b - 128)) * 64 + (code c - 128))%N in
                continuation b && continuation c && (2048 <=? p)%N && negb ((55296 <=? p)%N && (p <? 57344)%N) && utf8_valid r2
              else match r2 with
              | String d r3 =>
                  let p := ((((n - 240) * 64 + (code b - 128)) * 64 + (code c - 128)) * 64 + (code d - 128))%N in
                  continuation b && continuation c && continuation d && (65536 <=? p)%N && (p <? 1114112)%N && utf8_valid r3
              | EmptyString => false
              end
          | EmptyString => false
          end
      | EmptyString => false
      end
  end.

Definition BOM : string := String (chr 239) (String (chr 187) (String (chr 191) "")).

(** The steps of [strict_json_object]: the limits on the bytes, their decoding,
    and the parser, which answers [None] for malformed text and for a repeated
    key alike. *)
Definition json_limits (maximum_bytes maximum_depth : Z) (raw : string) : result unit :=
  require (0 <? maximum_bytes) ContractViolation "maximum_bytes must be a positive integer" ;?
  require (0 <? maximum_depth) ContractViolation "maximum_depth must be a positive integer" ;?
  require (negb (String.eqb raw "") && (Z.of_nat (String.length raw) <=? maximum_bytes))
    ContractViolation "JSON input is empty or exceeds the byte limit" ;?
  require (negb (startswith BOM raw)) ContractViolation "UTF-8 BOM is forbidden".
Definition parse_object (maximum_depth : Z) (text : string) : result contract :=
  match loads_with _closed_object text with
  | None => violation "JSON input is malformed"
  | Some (JObj d) => require (_json_depth (JObj d) <=? maximum_depth) ContractViolation "JSON input exceeds the nesting-depth limit" ;? Ok d
  | Some _ => violation "contract JSON must be an object"
  end.
Definition strict_json_object (maximum_bytes maximum_depth : Z) (raw : string) : result contract :=
  json_limits maximum_bytes maximum_depth raw ;?
  require (utf8_valid raw) ContractViolation "JSON input is not strict UTF-8" ;?
  parse_object maximum_depth raw.
Definition strict_object : string -> result contract := strict_json_object DEFAULT_MAXIMUM_JSON_BYTES DEFAULT_MAXIMUM_JSON_DEPTH.
(** [strict_json_object(text.encode("utf-8"))]: an encoded string decodes. *)
Definition strict_text (text : string) : result contract :=
  json_limits DEFAULT_MAXIMUM_JSON_BYTES DEFAULT_MAXIMUM_JSON_DEPTH text ;?
  parse_object DEFAULT_MAXIMUM_JSON_DEPTH text.

(** ** Validators *)

Definition require_digest (value : json) (label : string) : result unit :=
  require (match value with JStr s => is_digest s | _ => false end)
    ContractViolation (label +:+ " must be lowercase sha256:<64 hex>")%stdpp.

Definition is_portable_char (a : ascii) : bool := is_alnum a || mem (String a "") ["."; "_"; ":"; "/"; "-"].
(** The pattern [[A-Za-z0-9][A-Za-z0-9._:/-]{0,255}], matched in full. *)
Definition is_portable (s : string) : bool :=
  match s with
  | String a s' => is_alnum a && all_chars is_portable_char s' && (String.length s' <=? 255)%nat
  | EmptyString => false
  end.
Definition require_identifier (value : json) (label : string) : result unit :=
  require (match value with JStr s => is_portable s | _ => false end) ContractViolation (label +:+ " is not a portable identifier")%stdpp.

Definition require_time (value : json) (label : string) : result datetime :=
  match value with
  | JStr s =>
      require (is_rfc3339 s) ContractViolation (label +:+ " must be an RFC 3339 timestamp")%stdpp ;?
      match from_zulu s with
      | None => violation (label +:+ " must be an RFC 3339 timestamp")%stdpp
      | Some d => require (is_aware d) ContractViolation (label +:+ " must include an offset")%stdpp ;? Ok d
      end
  | _ => violation (label +:+ " must be an RFC 3339 timestamp")%stdpp
  end.

Definition portable_path (value : string) : result string :=
  require (negb (String.eqb value "")) ContractViolation "path is required" ;?
  require (all_chars (fun c => code c <? 128)%N value) ContractViolation "path must contain ASCII characters only" ;?
  require (all_chars (fun c => (32 <=? code c)%N && negb (code c =? 127)%N) value) ContractViolation "path contains a control character" ;?
  let candidate := replace_char backslash "/" value in
  require (negb (startswith "/" candidate || drive_prefix candidate)) ContractViolation "path must be repository-relative" ;?
  let parts := split_on "/" candidate in
  require (negb (existsb dot_segment parts)) ContractViolation "path contains an unsafe segment" ;?
  Ok (as_posix parts).

(** [_unique_strings] on a tuple of strings. *)
Definition _unique_strings (values : list string) (label : string) (required : bool) : result unit :=
  require (negb (mem "" values)) ContractViolation (label +:+ " must contain non-empty strings")%stdpp ;?
  require (negb required || negb (bool_decide (values = []))) ContractViolation (label +:+ " is required")%stdpp ;?
  require (distinct values) ContractViolation (label +:+ " contains duplicates")%stdpp.

(** [_closed]: the object has exactly these members. *)
Definition _closed (document : contract) (fields : list string) (label : string) : result unit :=
  require (forallb (fun k => mem k fields) document.*1 && forallb (fun k => mem k document.*1) fields)
    ContractViolation (label +:+ " has missing or unsupported fields")%stdpp.

(** A member that must be a list of strings. *)
Definition string_list (v : json) (label : string) : result (list string) :=
  match v with
  | JList l => require (forallb (fun x => bool_decide (is_Some (as_str x))) l) ContractViolation (label +:+ " must be a string list")%stdpp ;? Ok (omap as_str l)
  | _ => violation (label +:+ " must be a string list")%stdpp
  end.

(** [type(value) is int], and the integer *)
Definition exact_int (value : json) (test : Z -> bool) (message : string) : result Z :=
  match value with JInt z => require (test z) ContractViolation message ;? Ok z | _ => violation message end.
(** [not value] *)
Definition falsy (value : json) : bool :=
  match value with JNull | JBool false | JInt 0 | JStr "" | JList [] | JObj [] => true | _ => false end.

(** ** Node contracts *)

Inductive DurabilityRole := D_NONE | D_PROVIDER | D_CONSUMER.
#[global] Instance DurabilityRole_eq_dec : EqDecision DurabilityRole.
Proof. solve_decision. Defined.
Definition durability_value (r : DurabilityRole) : string := match r with D_NONE => "none" | D_PROVIDER => "provider" | D_CONSUMER => "consumer" end.
Definition durability_of (v : json) : result DurabilityRole :=
  wrap [TypeError; ValueError] ContractViolation "unsupported durability_role" (enum_of "DurabilityRole" [D_NONE; D_PROVIDER; D_CONSUMER] durability_value v).

Record NodeRuntimeContract := {
  node_id : string;
  node_dependencies : list string;
  durability_role : DurabilityRole;
  durability_providers : list string;
  write_scope : list string }.

(** [NodeRuntimeContract.__post_init__] *)
Definition check_node (n : NodeRuntimeContract) : result NodeRuntimeContract :=
  require_identifier (JStr (node_id n)) "node_id" ;?
  _unique_strings (node_dependencies n) "dependencies" false ;?
  _unique_strings (durability_providers n) "durability_providers" false ;?
  _unique_strings (write_scope n) "write_scope" false ;?
  require (negb (mem (node_id n) (node_dependencies n))) ContractViolation "node cannot depend on itself" ;?
  let? normalized := map_result portable_path (write_scope n) in
  require (bool_decide (normalized = write_scope n)) ContractViolation "write_scope paths must use normalized POSIX spelling" ;?
  require (bool_decide (durability_role n = D_CONSUMER) || bool_decide (durability_providers n = []))
    ContractViolation "only durability consumers may name providers" ;?
  Ok n.

Definition node_to_document (n : NodeRuntimeContract) : contract :=
  [("node_id", JStr (node_id n)); ("dependencies", strs (node_dependencies n)); ("durability_role", JStr (durability_value (durability_role n)));
   ("durability_providers", strs (durability_providers n)); ("write_scope", strs (write_scope n))].
Definition node_from_document (document : contract) : result NodeRuntimeContract :=
  _closed document ["node_id"; "dependencies"; "durability_role"; "durability_providers"; "write_scope"] "node runtime contract" ;?
  let? deps := string_list (get "dependencies" document) "dependencies" in
  let? providers := string_list (get "durability_providers" document) "durability_providers" in
  let? scope := string_list (get "write_scope" document) "write_scope" in
  let? role := durability_of (get "durability_role" document) in
  require_identifier (get "node_id" document) "node_id" ;?
  check_node {| node_id := str_field "node_id" document; node_dependencies := deps; durability_role := role;
                durability_providers := providers; write_scope := scope |}.

Record SharedSurfaceOwner := { surface : string; surface_owner : string; surface_paths : list string }.
(** [SharedSurfaceOwner.__post_init__] *)
Definition check_surface (s : SharedSurfaceOwner) : result SharedSurfaceOwner :=
  require_identifier (JStr (surface s)) "surface" ;?
  require_identifier (JStr (surface_owner s)) "surface owner" ;?
  _unique_strings (surface_paths s) "surface paths" true ;?
  let? normalized := map_result portable_path (surface_paths s) in
  require (bool_decide (normalized = surface_paths s)) ContractViolation "surface paths must use normalized POSIX spelling" ;?
  Ok s.
Definition surface_to_document (s : SharedSurfaceOwner) : contract :=
  [("surface", JStr (surface s)); ("owner", JStr (surface_owner s)); ("paths", strs (surface_paths s))].

(** ** The runtime graph *)

Definition contracts_by_id (nodes : list NodeRuntimeContract) : list (string * NodeRuntimeContract) := index_by node_id nodes.

(** [_ancestors]: depth first from a node, with the nodes on the current path
    and the ancestors found.  [limit] is what is left of the interpreter's
    recursion limit. *)
Fixpoint visit (limit : nat) (by_id : list (string * NodeRuntimeContract)) (visiting found : list string) (current : string) : result (list string) :=
  match limit with
  | O => raise RecursionError "maximum recursion depth exceeded"
  | S n =>
      require (negb (mem current visiting)) ContractViolation "node dependency graph contains a cycle" ;?
      match lookup_key current by_id with
      | None => raise KeyError current
      | Some node =>
          rfold (fun found d =>
            require (mem d by_id.*1) ContractViolation ("node " +:+ current +:+ " has unknown dependency " +:+ d)%stdpp ;?
            if mem d found then Ok found else visit n by_id (current :: visiting) (d :: found) d) found (node_dependencies node)
      end
  end.
Definition _ancestors (limit : nat) (by_id : list (string * NodeRuntimeContract)) (i : string) : result (list string) := visit limit by_id [] [] i.

Record RuntimeContractSummary := { node_count : Z; unique_write_path_count : Z; shared_surface_count : Z; summary_digest : string }.

(** One turn of the loop over the nodes: [all_paths] maps a path to its owner. *)
Definition check_provider (by_id : list (string * NodeRuntimeContract)) (ancestors : list string) (i provider : string) : result unit :=
  require (mem provider ancestors) ContractViolation ("durability provider " +:+ provider +:+ " is not an ancestor of " +:+ i)%stdpp ;?
  match lookup_key provider by_id with
  | None => raise KeyError provider
  | Some p => require (bool_decide (durability_role p = D_PROVIDER)) ContractViolation ("durability provider " +:+ provider +:+ " is not typed provider")%stdpp
  end.
Definition claim_path (i : string) (all_paths : gmap string string) (path : string) : result (gmap string string) :=
  match all_paths !! path with
  | Some previous => violation ("write path " +:+ path +:+ " has multiple owners: " +:+ previous +:+ ", " +:+ i)%stdpp
  | None => Ok (<[path := i]> all_paths)
  end.
Definition node_turn (by_id : list (string * NodeRuntimeContract)) (ancestors : list (string * list string))
    (expected : gmap string (DurabilityRole * list string)) (all_paths : gmap string string) (n : NodeRuntimeContract) : result (gmap string string) :=
  match expected !! node_id n with
  | None => raise KeyError (node_id n)
  | Some e =>
      require (bool_decide (e = (durability_role n, durability_providers n))) ContractViolation ("durability assignment changed for " +:+ node_id n)%stdpp ;?
      each (check_provider by_id (default [] (lookup_key (node_id n) ancestors)) (node_id n)) (durability_providers n) ;?
      rfold (claim_path (node_id n)) all_paths (write_scope n)
  end.

Definition surface_turn (by_id : list (string * NodeRuntimeContract)) (all_paths : gmap string string) (s : SharedSurfaceOwner) : result unit :=
  require (mem (surface_owner s) by_id.*1) ContractViolation ("shared surface owner " +:+ surface_owner s +:+ " is unknown")%stdpp ;?
  each (fun path => require (bool_decide (all_paths !! path = Some (surface_owner s))) ContractViolation
                      ("shared surface path " +:+ path +:+ " is not solely owned by " +:+ surface_owner s)%stdpp) (surface_paths s).

Definition runtime_digest (nodes : list NodeRuntimeContract) (surfaces : list SharedSurfaceOwner) : string :=
  canonical_digest (JObj [("nodes", JList (map (fun n => JObj (node_to_document n)) nodes));
                          ("shared_surfaces", JList (map (fun s => JObj (surface_to_document s)) surfaces))]).

Definition validate_runtime_contracts (limit : nat) (nodes : list NodeRuntimeContract) (surfaces : list SharedSurfaceOwner)
    (expected : gmap string (DurabilityRole * list string)) (owners : gmap string string) (count path_count : Z) : result RuntimeContractSummary :=
  require (Z.of_nat (length nodes) =? count) ContractViolation "runtime contract node count does not match the sealed expectation" ;?
  let by_id := contracts_by_id nodes in
  require (Nat.eqb (length by_id) (length nodes)) ContractViolation "runtime contract contains duplicate node ids" ;?
  require (bool_decide (list_to_set by_id.*1 = dom expected)) ContractViolation "durability assignment inventory is incomplete or substituted" ;?
  let? ancestors := map_result (fun i => let? l := _ancestors limit by_id i in Ok (i, l)) by_id.*1 in
  let? all_paths := rfold (node_turn by_id ancestors expected) ∅ nodes in
  require (Z.of_nat (size all_paths) =? path_count) ContractViolation "unique write-path count does not match the sealed expectation" ;?
  let inventory := index_by surface surfaces in
  require (Nat.eqb (length inventory) (length surfaces)) ContractViolation "shared surface inventory contains duplicates" ;?
  require (bool_decide (list_to_map (map (fun ks => (ks.1, surface_owner ks.2)) inventory) = owners)) ContractViolation "shared surface owner mapping changed" ;?
  each (surface_turn by_id all_paths) surfaces ;?
  Ok {| node_count := Z.of_nat (length nodes); unique_write_path_count := Z.of_nat (size all_paths);
        shared_surface_count := Z.of_nat (length surfaces); summary_digest := runtime_digest nodes surfaces |}.

(** ** Ancestors are the transitive dependencies *)

Section visits.
Context (by_id : list (string * NodeRuntimeContract)).

Definition needs (i d : string) : Prop := exists n, lookup_key i by_id = Some n /\ d ∈ node_dependencies n.

(** What a search adds: proper descendants that are off the current path, with
    everything they need. *)
Definition added (path : list string) (c : string) (found' : list string) (x : string) : Prop :=
  tc needs c x /\ x ∉ path /\ x ∈ by_id.*1 /\ forall d, needs x d -> d ∈ found'.
Definition extends (path : list string) (c : string) (found found' : list string) : Prop :=
  found ⊆ found' /\ forall x, x ∈ found' -> x ∈ found \/ added path c found' x.

Lemma added_mono path c found found' x : found ⊆ found' -> added path c found x -> added path c found' x.
Proof. intros Hs (H1 & H2 & H3 & H4). split_and!; auto. Qed.

Lemma extends_trans path c f1 f2 f3 : extends path c f1 f2 -> extends path c f2 f3 -> extends path c f1 f3.
Proof.
  intros [H1 H2] [H3 H4]. split; [by etrans|]. intros x Hx. destruct (H4 x Hx) as [Hx2|Ha]; [|by right].
  destruct (H2 x Hx2) as [?|Ha]; [by left|]. right. by eapply added_mono.
Qed.

Lemma visit_ok limit visiting found c found' : visit limit by_id visiting found c = Ok found' ->
  c ∉ visiting /\ (forall d, needs c d -> d ∈ found' /\ d ∈ by_id.*1) /\ extends (c :: visiting) c found found'.
Proof.
  revert visiting found c found'. induction limit as [|limit IH]; intros visiting found c found' H; [done|]. cbn [visit] in H.
  take_guard H Ec. apply negb_true_iff, not_true_iff_false in Ec. rewrite mem_spec in Ec. destruct (lookup_key c by_id) as [node|] eqn:En; [|done].
  split; [done|].
  assert (G : forall ds f1 f2, (forall d, d ∈ ds -> needs c d) ->
    rfold (fun found d => require (mem d by_id.*1) ContractViolation ("node " +:+ c +:+ " has unknown dependency " +:+ d)%stdpp ;?
                          if mem d found then Ok found else visit limit by_id (c :: visiting) (d :: found) d) f1 ds = Ok f2 ->
    (forall d, d ∈ ds -> d ∈ f2 /\ d ∈ by_id.*1) /\ extends (c :: visiting) c f1 f2).
  { clear H found found'. induction ds as [|d ds IHd]; intros f1 f2 Hds H; cbn [rfold] in H.
    - injection H as <-. split; [by intros d ?%elem_of_nil|]. split; [done|by left].
    - take_ok H f Ef. destruct (IHd f f2) as [H1 H2]; [intros x Hx; apply Hds; by right|done|]. take_guard Ef Ed. apply mem_spec in Ed.
      assert (Hnd : needs c d) by (apply Hds; by left).
      assert (Hf : d ∈ f /\ extends (c :: visiting) c f1 f).
      { destruct (mem d f1) eqn:Em; [injection Ef as <-; apply mem_spec in Em; split; [done|split; [done|by left]]|].
        destruct (IH _ _ _ _ Ef) as (Hd & Hn & He1 & He2). split; [apply He1; by left|]. split; [intros x Hx; apply He1; by right|].
        intros x Hx. destruct (He2 x Hx) as [[->|?]%elem_of_cons|(T & P & I & C)]; [|by left|].
        - right. split_and!; [by apply tc_once|done|done|intros y Hy; by apply Hn].
        - right. split_and!; [by eapply tc_l|set_solver|done|done]. }
      destruct Hf as [Hd Hf]. split; [|by eapply extends_trans]. intros x [->|Hx]%elem_of_cons; [|by apply H1]. split; [by apply H2|done]. }
  destruct (G (node_dependencies node) found found') as [G1 G2]; [intros d Hd; by exists node|exact H|]. split; [|done].
  intros d (n & Hn & Hd). apply G1. congruence.
Qed.

Lemma ancestors_ok limit i l : _ancestors limit by_id i = Ok l ->
  (forall x, x ∈ l <-> tc needs i x) /\ ~ tc needs i i /\ (forall d, needs i d -> d ∈ by_id.*1).
Proof.
  intros H. destruct (visit_ok _ _ _ _ _ H) as (_ & Hn & Hs & Hx).
  assert (Hcl : forall x y, tc needs x y -> x = i \/ x ∈ l -> y ∈ l).
  { intros x y T. assert (Hone : forall x y, needs x y -> x = i \/ x ∈ l -> y ∈ l).
    { intros a b Hab [->|Ha]; [by apply Hn|]. destruct (Hx a Ha) as [?%elem_of_nil|(_ & _ & _ & C)]; [done|by apply C]. }
    induction T as [x y Hxy|x y z Hxy T IH]; intros Ha; [by eapply Hone|]. apply IH. right. by eapply Hone. }
  split; [|split; [|intros d Hd; by apply Hn]].
  - intros x. split; [|intros T; eapply Hcl; [exact T|by left]]. intros Hl. by destruct (Hx x Hl) as [?%elem_of_nil|(T & _)].
  - intros T. assert (Hi : i ∈ l) by (eapply Hcl; [exact T|by left]). destruct (Hx i Hi) as [?%elem_of_nil|(_ & P & _)]; [done|]. apply P. by left.
Qed.

(** Without cycles and unknown dependencies the search ends within as many
    calls as there are nodes. *)
Lemma visit_total limit visiting found c :
  (forall i d, needs i d -> d ∈ by_id.*1) -> no_cycle needs -> c ∈ by_id.*1 ->
  NoDup visiting -> visiting ⊆ by_id.*1 -> (forall v, v ∈ visiting -> tc needs v c) ->
  (length by_id < limit + length visiting)%nat -> exists found', visit limit by_id visiting found c = Ok found'.
Proof.
  intros Hk Hc. revert visiting found c. induction limit as [|limit IH]; intros visiting found c Hin Hnd Hsub Hpath Hlen.
  { exfalso. assert (length visiting <= length by_id.*1)%nat by (by apply submseteq_length, NoDup_submseteq). rewrite length_fmap in *. lia. }
  cbn [visit]. assert (Hcv : c ∉ visiting) by (intros Hv; by apply (Hc c), Hpath).
  rewrite (proj2 (negb_true_iff _)) by (by apply not_true_iff_false; rewrite mem_spec). cbn [require rbind].
  destruct (lookup_key c by_id) as [node|] eqn:En; [|exfalso; by apply (proj1 (lookup_key_not_in _ _) En)]. apply rfold_total. intros f d Hd.
  assert (Hnd' : needs c d) by (by exists node). assert (Hdk := Hk _ _ Hnd'). rewrite (proj2 (mem_spec d _) Hdk). cbn [require rbind].
  destruct (mem d f); [by eexists|]. apply IH; [done|by constructor| | |cbn; lia].
  - intros x [->|Hx]%elem_of_cons; [done|by apply Hsub].
  - intros v [->|Hv]%elem_of_cons; [by apply tc_once|]. eapply tc_r; [by apply Hpath|done].
Qed.
End visits.

(** ** What an accepted runtime graph is *)

Definition depends (nodes : list NodeRuntimeContract) (i d : string) : Prop := exists n, n ∈ nodes /\ node_id n = i /\ d ∈ node_dependencies n.
(** Every write path with the node that claims it. *)
Definition claims_of (nodes : list NodeRuntimeContract) : list (string * string) :=
  flat_map (fun n => map (fun p => (p, node_id n)) (write_scope n)) nodes.

(** The sealed expectations hold of the graph: its nodes are the expected ones,
    dependencies are known and acyclic, durability is as assigned and rests on
    providers among the ancestors, every path has one writer, and shared surfaces
    belong to the expected owners, who are the writers of their paths. *)
Record sealed_graph (nodes : list NodeRuntimeContract) (surfaces : list SharedSurfaceOwner)
    (expected : gmap string (DurabilityRole * list string)) (owners : gmap string string) (count path_count : Z) : Prop := {
  sg_count : Z.of_nat (length nodes) = count;
  sg_ids : NoDup (map node_id nodes);
  sg_inventory : forall i, i ∈ map node_id nodes <-> is_Some (expected !! i);
  sg_known : forall i d, depends nodes i d -> d ∈ map node_id nodes;
  sg_acyclic : no_cycle (depends nodes);
  sg_durability : forall n, n ∈ nodes -> expected !! node_id n = Some (durability_role n, durability_providers n);
  sg_providers : forall n p, n ∈ nodes -> p ∈ durability_providers n ->
    tc (depends nodes) (node_id n) p /\ exists m, m ∈ nodes /\ node_id m = p /\ durability_role m = D_PROVIDER;
  sg_writers : NoDup (claims_of nodes).*1;
  sg_path_count : Z.of_nat (length (claims_of nodes)) = path_count;
  sg_surfaces : NoDup (map surface surfaces);
  sg_owners : forall name i, owners !! name = Some i <-> exists s, s ∈ surfaces /\ surface s = name /\ surface_owner s = i;
  sg_owned : forall s, s ∈ surfaces -> surface_owner s ∈ map node_id nodes /\ forall p, p ∈ surface_paths s -> (p, surface_owner s) ∈ claims_of nodes }.

(** *** Claiming paths *)

(** The map of owners holds exactly these claims. *)
Record holds (m : gmap string string) (claims : list (string * string)) : Prop := {
  ho_claims : forall p i, m !! p = Some i <-> (p, i) ∈ claims;
  ho_size : size m = length claims;
  ho_unique : NoDup claims.*1 }.

Lemma holds_none m claims p : holds m claims -> m !! p = None <-> p ∉ claims.*1.
Proof.
  intros H. rewrite eq_None_not_Some. split; intros Hn Hp; apply Hn.
  - apply list_elem_of_fmap in Hp as ([p' i] & -> & Hin). exists i. by apply (ho_claims _ _ H).
  - destruct Hp as [i Hi]. apply (ho_claims _ _ H) in Hi. apply list_elem_of_fmap. by exists (p, i).
Qed.

Lemma holds_claim m claims p i : holds m claims -> p ∉ claims.*1 -> holds (<[p := i]> m) (claims ++ [(p, i)]).
Proof.
  intros H Hp. assert (Hm := proj2 (holds_none _ _ p H) Hp). constructor.
  - intros q j. rewrite elem_of_app, list_elem_of_singleton, <- (ho_claims _ _ H). destruct (decide (p = q)) as [<-|Hne].
    + rewrite lookup_insert_eq, Hm. naive_solver.
    + rewrite lookup_insert_ne by done. naive_solver.
  - rewrite map_size_insert_None, length_app by done. rewrite (ho_size _ _ H). cbn. lia.
  - rewrite fmap_app. apply NoDup_app. split; [apply (ho_unique _ _ H)|]. split; [|apply NoDup_singleton]. cbn. set_solver.
Qed.

Lemma claim_paths_iff i ps m claims : holds m claims ->
  (forall m', rfold (claim_path i) m ps = Ok m' -> holds m' (claims ++ map (fun p => (p, i)) ps))
  /\ (NoDup (claims.*1 ++ ps) -> exists m', rfold (claim_path i) m ps = Ok m').
Proof.
  revert m claims. induction ps as [|p ps IH]; intros m claims H; cbn [rfold map].
  - rewrite app_nil_r. split; [by intros m' [= <-]|]. intros _. by eexists.
  - unfold claim_path at 1 3. destruct (m !! p) eqn:E; cbn [rbind].
    + split; [done|]. intros Hn. exfalso. apply NoDup_app in Hn as (_ & Hn & _). assert (Hp : p ∈ claims.*1).
      { destruct (decide (p ∈ claims.*1)) as [|Hnp]; [done|]. apply (holds_none _ _ _ H) in Hnp. congruence. }
      apply (Hn p Hp). by left.
    + apply (holds_none _ _ _ H) in E. destruct (IH (<[p := i]> m) (claims ++ [(p, i)])) as [H1 H2]; [by apply holds_claim|].
      split; [intros m' Hm'; specialize (H1 m' Hm'); by rewrite <- (assoc_L (++)) in H1|]. intros Hn. apply H2.
      rewrite fmap_app, <- (assoc_L (++)). exact Hn.
Qed.

(** *** The loops *)

Definition node_checks (by_id : list (string * NodeRuntimeContract)) (ancestors : list (string * list string))
    (expected : gmap string (DurabilityRole * list string)) (n : NodeRuntimeContract) : Prop :=
  expected !! node_id n = Some (durability_role n, durability_providers n)
  /\ forall p, p ∈ durability_providers n -> p ∈ default [] (lookup_key (node_id n) ancestors)
       /\ exists m, lookup_key p by_id = Some m /\ durability_role m = D_PROVIDER.

Lemma check_provider_iff by_id ancestors i p : check_provider by_id ancestors i p = Ok tt
  <-> p ∈ ancestors /\ exists m, lookup_key p by_id = Some m /\ durability_role m = D_PROVIDER.
Proof.
  unfold check_provider. split.
  - intros H. take_guard H E. apply mem_spec in E. split; [done|]. destruct (lookup_key p by_id) as [m|]; [|done]. apply require_ok in H.
    exists m. split; [done|]. by apply bool_decide_eq_true in H.
  - intros [H (m & -> & Hm)]. rewrite (proj2 (mem_spec _ _) H), Hm. done.
Qed.

Lemma node_turn_iff by_id ancestors expected claims m n : holds m claims ->
  (forall m', node_turn by_id ancestors expected m n = Ok m' -> node_checks by_id ancestors expected n /\ holds m' (claims ++ claims_of [n]))
  /\ (node_checks by_id ancestors expected n -> NoDup (claims ++ claims_of [n]).*1 -> exists m', node_turn by_id ancestors expected m n = Ok m').
Proof.
  intros Hh. destruct (claim_paths_iff (node_id n) (write_scope n) m claims Hh) as [C1 C2]. unfold node_turn, claims_of. cbn [flat_map]. rewrite app_nil_r. split.
  - intros m' H. destruct (expected !! node_id n) as [e|] eqn:E; [|done]. take_guard H E1. apply bool_decide_eq_true in E1 as ->. take_ok H u E2.
    assert (E3 := proj1 (each_ok _ _ u) E2). split; [|by apply C1]. split; [done|]. intros p Hp. exact (proj1 (check_provider_iff _ _ _ _) (E3 p Hp)).
  - intros [E Hp] Hn. rewrite E, bool_decide_eq_true_2 by done. cbn [require rbind]. rewrite (proj2 (each_ok _ _ tt)) by (intros p Hin; exact (proj2 (check_provider_iff _ _ _ _) (Hp p Hin))).
    apply C2. rewrite fmap_app in Hn. change (map ?f ?l) with (f <$> l) in Hn. rewrite <- list_fmap_compose, list_fmap_id in Hn. exact Hn.
Qed.

Lemma claims_of_cons n nodes : claims_of (n :: nodes) = claims_of [n] ++ claims_of nodes.
Proof. unfold claims_of. cbn [flat_map]. by rewrite app_nil_r. Qed.

Lemma node_loop_iff by_id ancestors expected nodes claims m : holds m claims ->
  (forall m', rfold (node_turn by_id ancestors expected) m nodes = Ok m' ->
     (forall n, n ∈ nodes -> node_checks by_id ancestors expected n) /\ holds m' (claims ++ claims_of nodes))
  /\ ((forall n, n ∈ nodes -> node_checks by_id ancestors expected n) -> NoDup (claims ++ claims_of nodes).*1 ->
      exists m', rfold (node_turn by_id ancestors expected) m nodes = Ok m').
Proof.
  revert m claims. induction nodes as [|n nodes IH]; intros m claims Hh; cbn [rfold].
  - split; [intros m' [= <-]; split; [by intros n ?%elem_of_nil|by rewrite app_nil_r]|]. intros _ _. by eexists.
  - destruct (node_turn_iff by_id ancestors expected claims m n Hh) as [T1 T2]. rewrite (claims_of_cons n nodes), (assoc_L (++)). split.
    + intros m' H. take_ok H m1 E. destruct (T1 _ E) as [Hc Hh1]. destruct (IH _ _ Hh1) as [I1 _]. destruct (I1 _ H) as [Hcs Hm]. split; [|done].
      intros x [->|Hx]%elem_of_cons; [done|by apply Hcs].
    + intros Hc Hn. destruct T2 as [m1 E]; [apply Hc; by left| |].
      { rewrite fmap_app in Hn. by apply NoDup_app in Hn as [Hn _]. }
      rewrite E. cbn [rbind]. destruct (T1 _ E) as [_ Hh1]. apply (IH _ _ Hh1); [intros x Hx; apply Hc; by right|done].
Qed.

Lemma surface_turn_iff by_id m claims s : holds m claims ->
  surface_turn by_id m s = Ok tt <-> surface_owner s ∈ by_id.*1 /\ forall p, p ∈ surface_paths s -> (p, surface_owner s) ∈ claims.
Proof.
  intros Hh. unfold surface_turn. split.
  - intros H. take_guard H E. apply mem_spec in E. split; [done|]. intros p Hp. assert (H' := proj1 (each_ok _ _ tt) H p Hp).
    apply require_ok, bool_decide_eq_true in H'. by apply (ho_claims _ _ Hh).
  - intros [E H]. rewrite (proj2 (mem_spec _ _) E). cbn [require rbind]. apply each_ok. intros p Hp. apply require_ok, bool_decide_eq_true.
    by apply (ho_claims _ _ Hh), H.
Qed.

Lemma ancestor_table limit by_id ks table : map_result (fun i => let? l := _ancestors limit by_id i in Ok (i, l)) ks = Ok table ->
  forall i, i ∈ ks -> exists l, lookup_key i table = Some l /\ _ancestors limit by_id i = Ok l.
Proof.
  revert table. induction ks as [|k ks IH]; intros table H i Hi; [by apply elem_of_nil in Hi|]. cbn [map_result] in H. take_ok H x E. take_ok E l El.
  injection E as <-. take_ok H rest Er. injection H as <-. destruct (decide (k = i)) as [<-|Hne].
  - exists l. split; [|done]. by rewrite lookup_key_cons, String.eqb_refl.
  - apply elem_of_cons in Hi as [->|Hi]; [done|]. destruct (IH _ Er i Hi) as (l' & Hl & Ha). exists l'. split; [|done].
    by rewrite lookup_key_cons, (proj2 (String.eqb_neq k i) Hne).
Qed.

Lemma ancestor_table_total limit by_id ks : (forall i, i ∈ ks -> exists l, _ancestors limit by_id i = Ok l) ->
  exists table, map_result (fun i => let? l := _ancestors limit by_id i in Ok (i, l)) ks = Ok table.
Proof.
  induction ks as [|k ks IH]; intros H; [by eexists|]. cbn [map_result]. destruct (H k) as [l ->]; [by left|]. cbn [rbind].
  destruct IH as [t ->]; [intros i Hi; apply H; by right|]. by eexists.
Qed.

Lemma contracts_by_id_some nodes i n : NoDup (map node_id nodes) -> lookup_key i (contracts_by_id nodes) = Some n <-> n ∈ nodes /\ node_id n = i.
Proof. apply index_by_some. Qed.

Lemma needs_depends nodes i d : NoDup (map node_id nodes) -> needs (contracts_by_id nodes) i d <-> depends nodes i d.
Proof. intros Hn. unfold needs, depends. setoid_rewrite (contracts_by_id_some nodes i _ Hn). naive_solver. Qed.

Lemma tc_needs_depends nodes i d : NoDup (map node_id nodes) -> tc (needs (contracts_by_id nodes)) i d <-> tc (depends nodes) i d.
Proof.
  intros Hn. split; induction 1 as [x y H|x y z H _ IH]; [apply tc_once|eapply tc_l; [|exact IH]|apply tc_once|eapply tc_l; [|exact IH]]; by apply (needs_depends nodes _ _ Hn).
Qed.

Lemma owner_map_iff (surfaces : list SharedSurfaceOwner) (owners : gmap string string) : NoDup (map surface surfaces) ->
  list_to_map (map (fun ks => (ks.1, surface_owner ks.2)) (index_by surface surfaces)) = owners
  <-> forall name i, owners !! name = Some i <-> exists s, s ∈ surfaces /\ surface s = name /\ surface_owner s = i.
Proof.
  intros Hn. rewrite index_by_NoDup by done. rewrite List.map_map. cbn [fst snd]. set (l := map _ surfaces).
  assert (Hl : forall name i, (list_to_map l : gmap string string) !! name = Some i <-> exists s, s ∈ surfaces /\ surface s = name /\ surface_owner s = i).
  { intros name i. rewrite <- elem_of_list_to_map.
    - unfold l. rewrite list_elem_of_In, in_map_iff. setoid_rewrite <- list_elem_of_In. split.
      + intros (s & [= <- <-] & Hs). by exists s.
      + intros (s & Hs & <- & <-). by exists s.
    - unfold l. change (map ?f ?x) with (f <$> x). by rewrite <- list_fmap_compose. }
  split; [by intros <-|]. intros H. apply map_eq. intros name. apply option_eq. intros i. by rewrite Hl, H.
Qed.

Section acceptance.
Context (nodes : list NodeRuntimeContract) (surfaces : list SharedSurfaceOwner) (expected : gmap string (DurabilityRole * list string)).
Context (Hids : NoDup (map node_id nodes)).

Lemma by_id_keys : (contracts_by_id nodes).*1 = map node_id nodes.
Proof. unfold contracts_by_id. rewrite index_by_NoDup by done. rewrite <- list_fmap_compose. by apply list_fmap_ext. Qed.

Lemma checks_of_table limit table :
  map_result (fun i => let? l := _ancestors limit (contracts_by_id nodes) i in Ok (i, l)) (contracts_by_id nodes).*1 = Ok table ->
  (forall i d, depends nodes i d -> d ∈ map node_id nodes) /\ no_cycle (depends nodes)
  /\ forall n, n ∈ nodes -> node_checks (contracts_by_id nodes) table expected n
       <-> expected !! node_id n = Some (durability_role n, durability_providers n)
           /\ forall p, p ∈ durability_providers n -> tc (depends nodes) (node_id n) p /\ exists m, m ∈ nodes /\ node_id m = p /\ durability_role m = D_PROVIDER.
Proof.
  intros Ht. assert (Ha : forall i, i ∈ map node_id nodes -> exists l, lookup_key i table = Some l
    /\ (forall x, x ∈ l <-> tc (depends nodes) i x) /\ ~ tc (depends nodes) i i /\ forall d, depends nodes i d -> d ∈ map node_id nodes).
  { intros i Hi. rewrite <- by_id_keys in Hi. destruct (ancestor_table _ _ _ _ Ht i Hi) as (l & Hl & Hanc). exists l. split; [done|].
    apply ancestors_ok in Hanc as (H1 & H2 & H3). rewrite by_id_keys in H3. split_and!.
    - intros x. by rewrite H1, tc_needs_depends.
    - by rewrite <- tc_needs_depends.
    - intros d Hd. by apply H3, needs_depends. }
  assert (Hin : forall i d, tc (depends nodes) i d -> i ∈ map node_id nodes).
  { intros i d T. destruct T as [i d (n & Hn & <- & _)|i d e (n & Hn & <- & _) _]; by apply (list_elem_of_fmap_2 node_id). }
  split; [|split].
  - intros i d Hd. destruct (Ha i) as (_ & _ & _ & _ & H); [eapply Hin; by apply tc_once|by apply H].
  - intros i T. destruct (Ha i) as (_ & _ & _ & H & _); [by eapply Hin|done].
  - intros n Hn. assert (Hni : node_id n ∈ map node_id nodes) by (by apply (list_elem_of_fmap_2 node_id)).
    destruct (Ha _ Hni) as (l & Hl & Hx & _). unfold node_checks. rewrite Hl. cbn [default]. setoid_rewrite Hx.
    setoid_rewrite (contracts_by_id_some nodes _ _ Hids). split; intros [H1 H2]; (split; [done|]); intros p Hp; destruct (H2 p Hp) as (T & m & Hm);
      (split; [done|]); exists m; tauto.
Qed.

Lemma table_total limit : (length nodes < limit)%nat -> (forall i d, depends nodes i d -> d ∈ map node_id nodes) -> no_cycle (depends nodes) ->
  exists table, map_result (fun i => let? l := _ancestors limit (contracts_by_id nodes) i in Ok (i, l)) (contracts_by_id nodes).*1 = Ok table.
Proof.
  intros Hl Hk Hc. apply ancestor_table_total. intros i Hi. apply visit_total; [| |done|constructor|set_solver|set_solver|].
  - intros j d Hd. rewrite by_id_keys. eapply Hk. by apply needs_depends in Hd.
  - intros j T. apply (Hc j). by apply tc_needs_depends in T.
  - rewrite <- (length_fmap fst (contracts_by_id nodes)). rewrite by_id_keys, length_map. cbn. lia.
Qed.
End acceptance.

Lemma length_by_id nodes : length (contracts_by_id nodes) = length nodes <-> NoDup (map node_id nodes).
Proof. apply index_by_length. Qed.

Lemma empty_holds : holds ∅ [].
Proof. constructor; [|by rewrite map_size_empty|constructor]. intros p i. rewrite lookup_empty, elem_of_nil. done. Qed.

(** C28: a runtime graph is accepted exactly when it is the sealed one.  With a
    recursion limit above the number of nodes, [validate_runtime_contracts]
    succeeds if and only if node identifiers are unique and are the expected
    ones, dependencies are known and acyclic, every durability assignment is the
    expected one and names providers among the transitive dependencies, every
    write path has exactly one writer, and the shared surfaces belong to the
    expected owners, who write their paths; the summary counts the nodes, paths
    and surfaces and digests them. *)
Theorem runtime_graph_accepted_iff limit nodes surfaces expected owners count path_count summary : (length nodes < limit)%nat ->
  validate_runtime_contracts limit nodes surfaces expected owners count path_count = Ok summary
  <-> sealed_graph nodes surfaces expected owners count path_count
      /\ summary = {| node_count := count; unique_write_path_count := path_count; shared_surface_count := Z.of_nat (length surfaces);
                      summary_digest := runtime_digest nodes surfaces |}.
Proof.
  intros Hl. unfold validate_runtime_contracts. split.
  - intros H. take_guard H E1. apply Z.eqb_eq in E1. take_guard H E2. apply Nat.eqb_eq in E2. apply length_by_id in E2 as Hids. take_guard H E3.
    apply bool_decide_eq_true in E3. take_ok H table Et. take_ok H paths Ep. take_guard H E4. apply Z.eqb_eq in E4. take_guard H E5.
    apply Nat.eqb_eq, index_by_length in E5. take_guard H E6. apply bool_decide_eq_true in E6. assert (E7 := proj1 (owner_map_iff _ _ E5) E6). take_ok H u Es. injection H as <-.
    destruct (checks_of_table nodes expected Hids _ _ Et) as (Hk & Hc & Hn). destruct (node_loop_iff (contracts_by_id nodes) table expected nodes [] ∅ empty_holds) as [L _].
    destruct (L _ Ep) as [Hch Hh]. cbn [app] in Hh. rewrite by_id_keys in E3 by done. split; [|by rewrite E1, E4].
    constructor; try done.
    + intros i. rewrite <- elem_of_dom, <- E3. by rewrite elem_of_list_to_set.
    + intros n Hin. exact (proj1 (proj1 (Hn n Hin) (Hch n Hin))).
    + intros n p Hin. exact (proj2 (proj1 (Hn n Hin) (Hch n Hin)) p).
    + apply (ho_unique _ _ Hh).
    + by rewrite <- (ho_size _ _ Hh).
    + intros s Hs. assert (Hst := proj1 (each_ok _ _ u) Es s Hs). rewrite (surface_turn_iff _ _ _ _ Hh), by_id_keys in Hst by done. exact Hst.
  - intros [[] ->]. rewrite (proj2 (Z.eqb_eq _ _)) by done. cbn [require rbind].
    rewrite (proj2 (Nat.eqb_eq _ _)) by (by apply length_by_id). cbn [require rbind]. rewrite by_id_keys by done.
    rewrite bool_decide_eq_true_2 by (apply set_eq; intros i; by rewrite elem_of_list_to_set, elem_of_dom). cbn [require rbind].
    destruct (table_total nodes sg_ids0 limit Hl sg_known0 sg_acyclic0) as [table Et]. assert (Et' := Et). rewrite by_id_keys in Et by done. rewrite Et. cbn [rbind].
    destruct (checks_of_table nodes expected sg_ids0 _ _ Et') as (_ & _ & Hn). destruct (node_loop_iff (contracts_by_id nodes) table expected nodes [] ∅ empty_holds) as [L1 L2].
    destruct L2 as [paths Ep]; [intros n Hin; apply (proj2 (Hn n Hin)); split; [by apply sg_durability0|intros p Hp; by apply sg_providers0]|done|].
    rewrite Ep. cbn [rbind]. destruct (L1 _ Ep) as [_ Hh]. cbn [app] in Hh. rewrite (ho_size _ _ Hh), (proj2 (Z.eqb_eq _ _)) by done. cbn [require rbind].
    rewrite (proj2 (Nat.eqb_eq _ _)) by (by apply index_by_length). cbn [require rbind]. rewrite bool_decide_eq_true_2 by (by apply (proj2 (owner_map_iff _ _ sg_surfaces0))). cbn [require rbind].
    rewrite (proj2 (each_ok _ _ tt)); [cbn [rbind]; by rewrite sg_count0, sg_path_count0|]. intros s Hs. rewrite (surface_turn_iff _ _ _ _ Hh), by_id_keys by done. by apply sg_owned0.
Qed.

(** ** Strict JSON *)

(** A text the strict parser reads is read by [json.loads] as the same value. *)
Lemma closed_object_pairs l o : _closed_object l = Some o -> plain_pairs l = Some o.
Proof.
  unfold _closed_object, distinct. case_bool_decide as Hn; [|done]. intros [= <-]. by apply plain_pairs_distinct.
Qed.

Lemma strict_parsers n :
  (forall s j r, hooked_value _closed_object n s = Some (j, r) -> pvalue n s = Some (j, r))
  /\ (forall s l r, hooked_elems _closed_object n s = Some (l, r) -> pelems n s = Some (l, r))
  /\ (forall s l r, hooked_members _closed_object n s = Some (l, r) -> pmembers n s = Some (l, r)).
Proof.
  induction n as [|n (IHv & IHe & IHm)]; [done|]. split_and!.
  - intros s j r H. destruct s as [|c s]; [done|]. cbn [hooked_value] in *. 
    repeat match type of H with
           | match code c with _ => _ end = _ => destruct (code c) as [|p]; [exact H|]
           | match ?p with xI _ => _ | xO _ => _ | xH => _ end = _ => destruct p; try exact H
           end.
    all: destruct (skip s) as [|d s']; [exact H|]; destruct (code d =? _)%N; [exact H|].
    + destruct (hooked_members _closed_object n (String d s')) as [[l r']|] eqn:E; [|done]. rewrite (IHm _ _ _ E).
      destruct (_closed_object l) as [o|] eqn:Eo; [|done]. by rewrite (closed_object_pairs _ _ Eo).
    + destruct (hooked_elems _closed_object n (String d s')) as [[l r']|] eqn:E; [|done]. by rewrite (IHe _ _ _ E).
  - intros s l r H. cbn [hooked_elems] in *. destruct (hooked_value _closed_object n s) as [[v r1]|] eqn:E; [|done]. rewrite (IHv _ _ _ E).
    destruct (skip r1) as [|d r2]; [done|]. destruct (code d =? 93)%N; [done|]. destruct (code d =? 44)%N; [|done].
    destruct (hooked_elems _closed_object n (skip r2)) as [[l' r3]|] eqn:E2; [|done]. by rewrite (IHe _ _ _ E2).
  - intros s l r H. cbn [hooked_members] in *. destruct s as [|q s]; [done|]. destruct (code q =? 34)%N; [|done].
    destruct (pstring s) as [[k r1]|]; [|done]. destruct (skip r1) as [|d r2]; [done|]. destruct (code d =? 58)%N; [|done].
    destruct (hooked_value _closed_object n (skip r2)) as [[v r3]|] eqn:E; [|done]. rewrite (IHv _ _ _ E).
    destruct (skip r3) as [|e r4]; [done|]. destruct (code e =? 125)%N; [done|]. destruct (code e =? 44)%N; [|done].
    destruct (hooked_members _closed_object n (skip r4)) as [[l' r5]|] eqn:E2; [|done]. by rewrite (IHm _ _ _ E2).
Qed.

Lemma strict_loads s j : loads_with _closed_object s = Some j -> loads s = Some j.
Proof.
  unfold loads, loads_with. destruct (hooked_value _closed_object _ _) as [[v r]|] eqn:E; [|done]. by rewrite (proj1 (strict_parsers _) _ _ _ E).
Qed.

(** Sorting keys does not change the depth. *)
Lemma max_perm (l l' : list Z) : l ≡ₚ l' -> foldr Z.max 0 l = foldr Z.max 0 l'.
Proof. induction 1; cbn; lia. Qed.

Lemma depth_norm j : _json_depth (norm j) = _json_depth j.
Proof.
  induction j as [|b|z|s|l IH|l IH] using json_ind'; try done; cbn [norm _json_depth]; f_equal.
  - rewrite List.map_map. f_equal. apply map_ext_in. intros x Hx%list_elem_of_In. by rewrite Forall_forall in IH; apply IH.
  - rewrite (max_perm _ (map (fun kv => _json_depth kv.2) (map (fun kv => (kv.1, norm kv.2)) l))).
    + rewrite List.map_map. f_equal. apply map_ext_in. intros x Hx%list_elem_of_In. cbn. by rewrite Forall_forall in IH; apply IH.
    + apply Permutation_map, sorted_by_perm.
Qed.

(** A canonical document within the limits is read back. *)
Lemma limits_ok text : (exists c, text = String "{" c) -> Z.of_nat (String.length text) <= DEFAULT_MAXIMUM_JSON_BYTES ->
  json_limits DEFAULT_MAXIMUM_JSON_BYTES DEFAULT_MAXIMUM_JSON_DEPTH text = Ok tt.
Proof.
  intros [c ->] Hl. unfold json_limits. cbn [require rbind Z.ltb]. rewrite (proj2 (Z.leb_le _ _)) by done. reflexivity.
Qed.

Lemma object_text d : exists c, canonical_bytes (JObj d) = String "{" c.
Proof. unfold canonical_bytes, dumps. cbn [norm]. destruct (sorted_by _ _) as [|[k x] l]; by eexists. Qed.

Lemma parse_canonical d : json_wf (JObj d) = true -> _json_depth (JObj d) <= DEFAULT_MAXIMUM_JSON_DEPTH ->
  exists o, norm (JObj d) = JObj o /\ parse_object DEFAULT_MAXIMUM_JSON_DEPTH (canonical_bytes (JObj d)) = Ok o.
Proof.
  intros Hw Hd. unfold parse_object, canonical_bytes. rewrite loads_with_dumps.
  - eexists. split; [reflexivity|]. cbn [norm]. rewrite (proj2 (Z.leb_le _ _)); [done|].
    change (JObj (sorted_by fst (map (fun kv => (kv.1, norm kv.2)) d))) with (norm (JObj d)). by rewrite depth_norm.
  - intros l Hn. unfold _closed_object, distinct. by rewrite bool_decide_eq_true_2.
  - done.
Qed.

Lemma strict_text_canonical d : json_wf (JObj d) = true -> _json_depth (JObj d) <= DEFAULT_MAXIMUM_JSON_DEPTH ->
  Z.of_nat (String.length (canonical_bytes (JObj d))) <= DEFAULT_MAXIMUM_JSON_BYTES ->
  exists o, norm (JObj d) = JObj o /\ strict_text (canonical_bytes (JObj d)) = Ok o.
Proof.
  intros Hw Hd Hl. destruct (parse_canonical d Hw Hd) as (o & Ho & Hp). exists o. split; [done|]. unfold strict_text.
  rewrite limits_ok by (apply object_text || done). exact Hp.
Qed.

(** *** Texts decode *)

Lemma utf8_valid_char n r : scalar n -> utf8_valid (utf8 n +:+ r)%stdpp = utf8_valid r.
Proof.
  intros Hs. unfold utf8. destruct (n <? 128)%N eqn:E1; [|destruct (n <? 2048)%N eqn:E2; [|destruct (n <? 65536)%N eqn:E3]];
    rewrite ?N.ltb_lt, ?N.ltb_ge in *; rewrite ?append_cons, append_nil_l; cbn [utf8_valid]; unfold continuation; rewrite !code_chr by encoding_bounds.
  - by rewrite (proj2 (N.ltb_lt n 128)) by lia.
  - rewrite (proj2 (N.ltb_ge _ 128)) by encoding_bounds. rewrite (proj2 (N.ltb_lt _ 224)) by encoding_bounds.
    rewrite (proj2 (N.leb_le _ _)) by encoding_bounds. by rewrite (proj2 (N.eqb_eq _ _)) by encoding_bounds.
  - rewrite (proj2 (N.ltb_ge _ 128)) by encoding_bounds. rewrite (proj2 (N.ltb_ge _ 224)) by encoding_bounds. rewrite (proj2 (N.ltb_lt _ 240)) by encoding_bounds.
    replace (((224 + n / 4096 - 224) * 64 + (128 + (n / 64) mod 64 - 128)) * 64 + (128 + n mod 64 - 128))%N with n by encoding_bounds.
    rewrite !(proj2 (N.eqb_eq _ _)) by encoding_bounds. rewrite (proj2 (N.leb_le 2048 n)) by lia. 
    assert (Hn : ((55296 <=? n) && (n <? 57344))%N = false) by (unfold scalar in Hs; apply andb_false_iff; rewrite N.leb_gt, N.ltb_ge; lia). by rewrite Hn.
  - rewrite (proj2 (N.ltb_ge _ 128)) by encoding_bounds. rewrite (proj2 (N.ltb_ge _ 224)) by encoding_bounds. rewrite (proj2 (N.ltb_ge _ 240)) by encoding_bounds.
    replace ((((240 + n / 262144 - 240) * 64 + (128 + (n / 4096) mod 64 - 128)) * 64 + (128 + (n / 64) mod 64 - 128)) * 64
             + (128 + n mod 64 - 128))%N with n by encoding_bounds.
    rewrite !(proj2 (N.eqb_eq _ _)) by encoding_bounds. rewrite (proj2 (N.leb_le 65536 n)) by lia. unfold scalar in Hs. by rewrite (proj2 (N.ltb_lt n 1114112)) by lia.
Qed.

Lemma utf8_valid_text s : utf8_text s -> utf8_valid s = true.
Proof. induction 1 as [|n r Hn _ IH]; [done|]. by rewrite utf8_valid_char. Qed.

(** Characters matched by classes of ASCII characters are ASCII. *)
Definition ascii_item (it : re_item) : Prop :=
  match it with One c | Opt c | Star c => forall a, c a = true -> (code a < 128)%N | Dollar => True end.
Lemma matched_ascii p s : Forall ascii_item p -> match_items p s = true -> all_chars (fun c => code c <? 128)%N s = true.
Proof.
  intros Hp. revert s. induction Hp as [|it p Hi Hp IH]; intros s H; cbn [match_items] in H.
  - apply String.eqb_eq in H as ->. done.
  - destruct it as [c|c|c|]; cbn in Hi.
    + destruct s as [|a s]; [done|]. bool_hyps. cbn [all_chars]. apply andb_true_iff. split; [by apply N.ltb_lt, Hi|by apply IH].
    + apply orb_true_iff in H as [H|H]; [by apply IH|]. destruct s as [|a s]; [done|]. bool_hyps. cbn [all_chars]. apply andb_true_iff.
      split; [by apply N.ltb_lt, Hi|by apply IH].
    + induction s as [|a s IHs]; [done|]. apply orb_true_iff in H as [H|H]; [by apply IH|]. apply andb_true_iff in H as [H1 H2].
      cbn [all_chars]. apply andb_true_iff. split; [by apply N.ltb_lt, Hi|by apply IHs].
    + bool_hyps. apply orb_true_iff in H as [H|H]; apply String.eqb_eq in H as ->; reflexivity.
Qed.

Lemma ascii_utf8 s : all_chars (fun c => code c <? 128)%N s = true -> utf8_text s.
Proof. intros H. rewrite <- (append_empty_r s). apply ascii_text; [done|constructor]. Qed.

(** Digests, identifiers and times are such texts. *)
Ltac ascii_class := intros a; destruct a as [[] [] [] [] [] [] [] []]; vm_compute; (reflexivity || discriminate).
Lemma hex_ascii : forall a, is_hex a = true -> (code a < 128)%N.
Proof. ascii_class. Qed.
Lemma digit_ascii : forall a, is_digit a = true -> (code a < 128)%N.
Proof. ascii_class. Qed.
Lemma alnum_ascii : forall a, is_alnum a = true -> (code a < 128)%N.
Proof. ascii_class. Qed.
Lemma portable_ascii : forall a, is_portable_char a = true -> (code a < 128)%N.
Proof. ascii_class. Qed.

Lemma hex_text n s : match_items (times n is_hex) s = true -> utf8_text s.
Proof. intros H. apply ascii_utf8. revert H. apply matched_ascii, Forall_replicate. exact hex_ascii. Qed.

Lemma is_digest_text s : is_digest s = true -> utf8_text s.
Proof.
  unfold is_digest. intros H. apply ascii_utf8. revert H. apply matched_ascii, Forall_app. split.
  - repeat constructor; intros a H%bool_decide_eq_true; subst a; reflexivity.
  - apply Forall_replicate. exact hex_ascii.
Qed.

Lemma identifier_text s : is_portable s = true -> utf8_text s.
Proof.
  destruct s as [|a s]; [done|]. cbn [is_portable]. rewrite !andb_true_iff. intros [[Ha Hs] _]. apply ascii_utf8.
  cbn [all_chars]. apply andb_true_iff. split; [by apply N.ltb_lt, alnum_ascii|].
  induction s as [|b s IH]; [done|]. cbn [all_chars] in *. apply andb_true_iff in Hs as [Hb Hs]. apply andb_true_iff. split; [by apply N.ltb_lt, portable_ascii|by apply IH].
Qed.

Lemma time_text s : is_rfc3339 s = true -> utf8_text s.
Proof.
  unfold is_rfc3339. intros H. apply ascii_utf8.
  assert (Hl : forall c, (code c < 128)%N -> ascii_item (lit c)) by (intros c Hc a Ha%bool_decide_eq_true; by subst).
  assert (Hd : Forall ascii_item rfc3339_date) by (unfold rfc3339_date; repeat (apply Forall_app; split); repeat constructor; try exact digit_ascii; apply Hl; reflexivity).
  assert (Hf : Forall ascii_item rfc3339_fraction) by (repeat constructor; try exact digit_ascii; apply Hl; reflexivity).
  assert (Ho : Forall ascii_item rfc3339_offset).
  { unfold rfc3339_offset. constructor; [ascii_class|]. repeat (apply Forall_app; split); repeat constructor; try exact digit_ascii; apply Hl; reflexivity. }
  assert (Hz : Forall ascii_item [lit "Z"]) by (constructor; [by apply Hl|constructor]).
  cbn [existsb] in H. rewrite !orb_true_iff in H. destruct H as [H|[H|[H|[H|H]]]]; [..|done]; (eapply matched_ascii; [|exact H]); rewrite !Forall_app; tauto.
Qed.

(** ** Stored documents *)

Lemma norm_opt_str o : norm (opt_str o) = opt_str o.
Proof. by destruct o. Qed.

(** An object with exactly the fields of [t] is closed for them. *)
Lemma closed_stored (d t : contract) fields label : d.*1 ≡ₚ t.*1 -> t.*1 = fields -> _closed d fields label = Ok tt.
Proof.
  intros Hp <-. unfold _closed. rewrite (proj2 (andb_true_iff _ _)); [done|]. split; apply forallb_forall; intros k Hk%list_elem_of_In; apply mem_spec.
  - by rewrite <- Hp.
  - by rewrite Hp.
Qed.

(** A stored member of an object with distinct keys. *)
Ltac stored t Hn E Hg Hk := destruct (stored_members t _ ltac:(apply (bool_decide_unpack (NoDup _)); vm_compute; exact I) E) as [Hg Hk].

Lemma objects_of os : omap as_obj (map JObj os) = os.
Proof. induction os as [|o os IH]; [done|]. cbn. f_equal. exact IH. Qed.

Lemma require_digest_str v label u : require_digest v label = Ok u -> exists s, v = JStr s.
Proof. unfold require_digest. intros H%require_ok. destruct v; try done. by eexists. Qed.
Lemma require_identifier_str v label u : require_identifier v label = Ok u -> exists s, v = JStr s.
Proof. unfold require_identifier. intros H%require_ok. destruct v; try done. by eexists. Qed.
Lemma require_time_str v label d : require_time v label = Ok d -> exists s, v = JStr s.
Proof. unfold require_time. destruct v; try done. intros _. by eexists. Qed.

Lemma exact_int_ok v test message z : exact_int v test message = Ok z -> v = JInt z /\ test z = true.
Proof. unfold exact_int. destruct v; try done. intros H. take_guard H E. by injection H as ->. Qed.

Lemma opt_str_inj o o' : opt_str o = opt_str o' -> o = o'.
Proof. destruct o, o'; naive_solver. Qed.

(** ** A sample graph *)

Module SampleRuntime.
Definition provider : NodeRuntimeContract :=
  {| node_id := "store"; node_dependencies := []; durability_role := D_PROVIDER; durability_providers := []; write_scope := ["src/store.py"] |}.
Definition consumer : NodeRuntimeContract :=
  {| node_id := "service"; node_dependencies := ["store"]; durability_role := D_CONSUMER; durability_providers := ["store"]; write_scope := ["src/service.py"] |}.
Definition owner : SharedSurfaceOwner := {| surface := "schema"; surface_owner := "store"; surface_paths := ["src/store.py"] |}.
Definition expected : gmap string (DurabilityRole * list string) := {["store" := (D_PROVIDER, []); "service" := (D_CONSUMER, ["store"])]}.
Definition summary : RuntimeContractSummary := Eval vm_compute in
  match validate_runtime_contracts 1000 [provider; consumer] [owner] expected {["schema" := "store"]} 2 2 with
  | Ok s => s | Raise _ => {| node_count := 0; unique_write_path_count := 0; shared_surface_count := 0; summary_digest := "" |} end.
End SampleRuntime.

Lemma runtime_graph_accepted_iff_witness :
  sealed_graph [SampleRuntime.provider; SampleRuntime.consumer] [SampleRuntime.owner] SampleRuntime.expected {["schema" := "store"]} 2 2.
Proof.
  apply (runtime_graph_accepted_iff 1000 [SampleRuntime.provider; SampleRuntime.consumer] [SampleRuntime.owner] SampleRuntime.expected
           {["schema" := "store"]} 2 2 SampleRuntime.summary); [cbn; lia|]. vm_compute. reflexivity.
Defined.

(** A cycle that one of its nodes is not asked about is still found, because
    the ancestors of every node are computed. *)
Example cyclic_graph_refused :
  let node i d := {| node_id := i; node_dependencies := [d]; durability_role := D_NONE; durability_providers := []; write_scope := [] |} in
  validate_runtime_contracts 1000 [node "x" "a"; node "a" "b"; node "b" "a"] [] {["x" := (D_NONE, []); "a" := (D_NONE, []); "b" := (D_NONE, [])]} ∅ 3 0
    = Raise (Exc ContractViolation "node dependency graph contains a cycle").
Proof. vm_compute. reflexivity. Qed.

End RuntimeContracts.
