(* ===== verification/WaveManifest.v ===== *)
(** * Wave manifests

    [wave_manifest.py]: the identity of a candidate, the nodes of a wave, and
    the manifest of a wave with its digest, its transitions and its documents.
    A constructor takes the members it has to check as JSON values. *)

From S2P Require Import Prelude Sha256 Canonical AsciiJson PyLib Schema Contracts RuntimeContracts.
From Stdlib Require Import Ascii.

Module WaveManifest.
Export RuntimeContracts.

(** ** States *)

Inductive WaveState :=
| PLANNED | RUNNING | CHECKPOINTED | CANDIDATE_SEALED | VERIFYING | INTEGRATION_READY | RECOVERABLE | REPLAN_REQUIRED | INTEGRATED | FAILED | CANCELLED.
#[global] Instance WaveState_eq_dec : EqDecision WaveState.
Proof. solve_decision. Defined.
Definition wave_states : list WaveState :=
  [PLANNED; RUNNING; CHECKPOINTED; CANDIDATE_SEALED; VERIFYING; INTEGRATION_READY; RECOVERABLE; REPLAN_REQUIRED; INTEGRATED; FAILED; CANCELLED].
Definition wave_value (s : WaveState) : string :=
  match s with
  | PLANNED => "PLANNED" | RUNNING => "RUNNING" | CHECKPOINTED => "CHECKPOINTED" | CANDIDATE_SEALED => "CANDIDATE_SEALED" | VERIFYING => "VERIFYING"
  | INTEGRATION_READY => "INTEGRATION_READY" | RECOVERABLE => "RECOVERABLE" | REPLAN_REQUIRED => "REPLAN_REQUIRED" | INTEGRATED => "INTEGRATED"
  | FAILED => "FAILED" | CANCELLED => "CANCELLED"
  end.
Definition wave_state_of : json -> result WaveState := enum_of "WaveState" wave_states wave_value.

Inductive WaveNodeState := N_PENDING | N_READY | N_RUNNING | N_CHECKPOINTED | N_COMPLETED | N_RECOVERABLE | N_REPLAN_REQUIRED | N_FAILED | N_CANCELLED.
#[global] Instance WaveNodeState_eq_dec : EqDecision WaveNodeState.
Proof. solve_decision. Defined.
Definition wave_node_states : list WaveNodeState :=
  [N_PENDING; N_READY; N_RUNNING; N_CHECKPOINTED; N_COMPLETED; N_RECOVERABLE; N_REPLAN_REQUIRED; N_FAILED; N_CANCELLED].
Definition wave_node_value (s : WaveNodeState) : string :=
  match s with
  | N_PENDING => "PENDING" | N_READY => "READY" | N_RUNNING => "RUNNING" | N_CHECKPOINTED => "CHECKPOINTED" | N_COMPLETED => "COMPLETED"
  | N_RECOVERABLE => "RECOVERABLE" | N_REPLAN_REQUIRED => "REPLAN_REQUIRED" | N_FAILED => "FAILED" | N_CANCELLED => "CANCELLED"
  end.
Definition wave_node_state_of : json -> result WaveNodeState := enum_of "WaveNodeState" wave_node_states wave_node_value.

(** ** Candidates *)

Record CandidateIdentity := { commit : string; tree : string; candidate_subject : string }.
#[global] Instance CandidateIdentity_eq_dec : EqDecision CandidateIdentity.
Proof. solve_decision. Defined.

(** [_GIT_OBJECT.fullmatch(value) is not None] *)
Definition git_object (value : json) : result bool :=
  match value with JStr s => Ok (match_items (times 40 is_hex) s) | _ => raise TypeError "expected string or bytes-like object" end.
(** [CandidateIdentity(commit, tree, subject_id)] *)
Definition identity_of (c t subject : json) : result CandidateIdentity :=
  let? c_ok := git_object c in
  let? t_ok := (if c_ok then git_object t else Ok false) in
  require t_ok ContractViolation "candidate identity requires lowercase 40-hex commit and tree" ;?
  require_digest subject "candidate subject_id" ;?
  Ok {| commit := default "" (as_str c); tree := default "" (as_str t); candidate_subject := default "" (as_str subject) |}.
Definition identity_to_document (i : CandidateIdentity) : contract :=
  [("commit", JStr (commit i)); ("tree", JStr (tree i)); ("subject_id", JStr (candidate_subject i))].
Definition identity_digest (i : CandidateIdentity) : string := canonical_digest (JObj (identity_to_document i)).
Definition identity_from_document (document : contract) : result CandidateIdentity :=
  _closed document ["commit"; "tree"; "subject_id"] "candidate identity" ;?
  identity_of (get "commit" document) (get "tree" document) (get "subject_id" document).
(** [None if identity is None else identity.to_document()] *)
Definition identity_document (i : option CandidateIdentity) : json := match i with Some i => JObj (identity_to_document i) | None => JNull end.

(** ** Nodes *)

Record WaveNode := {
  wave_node_id : string;
  wave_node_state : WaveNodeState;
  attempt : Z;
  node_checkpoint : option string;
  node_result : option string }.

(** [if value is not None: require_digest(value, label)] *)
Definition optional_digest (value : json) (label : string) : result (option string) :=
  match value with JNull => Ok None | _ => require_digest value label ;? Ok (as_str value) end.
(** [WaveNode(...)] *)
Definition wave_node_of (id : json) (state : WaveNodeState) (tries checkpoint r : json) : result WaveNode :=
  require_identifier id "wave node_id" ;?
  let? n := exact_int tries (Z.leb 0) "wave node attempt must be a non-negative integer" in
  let? cp := optional_digest checkpoint "checkpoint_digest" in
  let? rd := optional_digest r "result_digest" in
  require (negb (bool_decide (state = N_CHECKPOINTED)) || bool_decide (is_Some cp)) ContractViolation "CHECKPOINTED node requires a checkpoint digest" ;?
  require (negb (bool_decide (state = N_COMPLETED)) || bool_decide (is_Some rd)) ContractViolation "COMPLETED node requires a result digest" ;?
  Ok {| wave_node_id := default "" (as_str id); wave_node_state := state; attempt := n; node_checkpoint := cp; node_result := rd |}.
Definition wave_node_to_document (n : WaveNode) : contract :=
  [("node_id", JStr (wave_node_id n)); ("state", JStr (wave_node_value (wave_node_state n))); ("attempt", JInt (attempt n));
   ("checkpoint_digest", opt_str (node_checkpoint n)); ("result_digest", opt_str (node_result n))].
Definition wave_node_from_document (item : contract) : result WaveNode :=
  _closed item ["node_id"; "state"; "attempt"; "checkpoint_digest"; "result_digest"] "wave node" ;?
  let? state := wrap [TypeError; ValueError] ContractViolation "unsupported wave node state" (wave_node_state_of (get "state" item)) in
  wave_node_of (get "node_id" item) state (get "attempt" item) (get "checkpoint_digest" item) (get "result_digest" item).

(** ** Manifests *)

Record WaveManifest := {
  wave_id : string;
  plan_digest : string;
  generation_id : string;
  wave_subject : string;
  parent_wave_digest : option string;
  wave_state : WaveState;
  wave_nodes : list WaveNode;
  wave_checkpoint : option string;
  candidate : option CandidateIdentity;
  created_at : string;
  manifest_digest : string }.

Definition manifest_body (m : WaveManifest) : contract :=
  [("schema_version", JInt 1); ("wave_id", JStr (wave_id m)); ("plan_digest", JStr (plan_digest m)); ("generation_id", JStr (generation_id m));
   ("subject_id", JStr (wave_subject m)); ("parent_wave_digest", opt_str (parent_wave_digest m)); ("state", JStr (wave_value (wave_state m)));
   ("nodes", JList (map (fun n => JObj (wave_node_to_document n)) (wave_nodes m))); ("checkpoint_digest", opt_str (wave_checkpoint m));
   ("candidate", identity_document (candidate m)); ("created_at", JStr (created_at m))].
Definition manifest_to_document (m : WaveManifest) : contract := manifest_body m ++ [("manifest_digest", JStr (manifest_digest m))].
Definition digest_of (m : WaveManifest) : string := canonical_digest (JObj (manifest_body m)).
Definition with_digest (m : WaveManifest) (d : string) : WaveManifest :=
  {| wave_id := wave_id m; plan_digest := plan_digest m; generation_id := generation_id m; wave_subject := wave_subject m;
     parent_wave_digest := parent_wave_digest m; wave_state := wave_state m; wave_nodes := wave_nodes m; wave_checkpoint := wave_checkpoint m;
     candidate := candidate m; created_at := created_at m; manifest_digest := d |}.

Definition checkpoint_states : list WaveState := [CHECKPOINTED; CANDIDATE_SEALED; VERIFYING; INTEGRATION_READY; INTEGRATED].
Definition candidate_states : list WaveState := [CANDIDATE_SEALED; VERIFYING; INTEGRATION_READY; INTEGRATED].
Definition open_states : list WaveState := [PLANNED; RUNNING; CHECKPOINTED].

(** [WaveManifest(...)] *)
Definition manifest_of (version id plan generation subject parent : json) (state : WaveState) (nodes : list WaveNode) (checkpoint : json)
    (cand : option CandidateIdentity) (created digest : json) : result WaveManifest :=
  exact_int version (Z.eqb 1) "unsupported wave-manifest schema version" ;?
  require_identifier id "wave_id" ;?
  require_digest plan "plan_digest" ;?
  require_digest generation "generation_id" ;?
  require_digest subject "subject_id" ;?
  let? parent := optional_digest parent "parent_wave_digest" in
  require (negb (bool_decide (nodes = [])) && distinct (map wave_node_id nodes)) ContractViolation "wave nodes are required and must be unique" ;?
  let? cp := optional_digest checkpoint "wave checkpoint_digest" in
  require_time created "wave created_at" ;?
  require (negb (bool_decide (state ∈ checkpoint_states)) || bool_decide (is_Some cp)) ContractViolation
    (wave_value state +:+ " wave requires a checkpoint digest")%stdpp ;?
  require (negb (bool_decide (state ∈ candidate_states)) || bool_decide (is_Some cand)) ContractViolation
    (wave_value state +:+ " wave requires a sealed candidate")%stdpp ;?
  let s := default "" (as_str subject) in
  require (match cand with Some c => String.eqb (candidate_subject c) s | None => true end) ContractViolation "candidate subject differs from wave subject" ;?
  require (negb (bool_decide (state ∈ open_states)) || bool_decide (cand = None)) ContractViolation "candidate cannot exist before CANDIDATE_SEALED" ;?
  let m := {| wave_id := default "" (as_str id); plan_digest := default "" (as_str plan); generation_id := default "" (as_str generation);
              wave_subject := s; parent_wave_digest := parent; wave_state := state; wave_nodes := nodes; wave_checkpoint := cp;
              candidate := cand; created_at := default "" (as_str created); manifest_digest := "" |} in
  if falsy digest then Ok (with_digest m (digest_of m))
  else require (py_eq digest (JStr (digest_of m))) ContractViolation "wave manifest digest is invalid" ;? Ok (with_digest m (digest_of m)).

Definition manifest_canonical_bytes (m : WaveManifest) : string := canonical_bytes (JObj (manifest_to_document m)).
Definition manifest_fields : list string :=
  ["schema_version"; "wave_id"; "plan_digest"; "generation_id"; "subject_id"; "parent_wave_digest"; "state"; "nodes"; "checkpoint_digest";
   "candidate"; "created_at"; "manifest_digest"].
Definition manifest_from_document (document : contract) : result WaveManifest :=
  _closed document manifest_fields "wave manifest" ;?
  let? items := match get "nodes" document with
                | JList l => require (forallb (fun x => bool_decide (is_Some (as_obj x))) l) ContractViolation "wave nodes must be an object list" ;? Ok (omap as_obj l)
                | _ => violation "wave nodes must be an object list"
                end in
  let? nodes := map_result wave_node_from_document items in
  let? cand := match get "candidate" document with
               | JNull => Ok None
               | JObj item => let? i := identity_from_document item in Ok (Some i)
               | _ => violation "candidate must be an object"
               end in
  let? state := wrap [TypeError; ValueError] ContractViolation "unsupported wave state" (wave_state_of (get "state" document)) in
  manifest_of (get "schema_version" document) (get "wave_id" document) (get "plan_digest" document) (get "generation_id" document)
    (get "subject_id" document) (get "parent_wave_digest" document) state nodes (get "checkpoint_digest" document) cand
    (get "created_at" document) (get "manifest_digest" document).
Definition manifest_from_bytes (raw : string) : result WaveManifest :=
  let? document := strict_object raw in
  manifest_from_document document.

(** [_ALLOWED_TRANSITIONS] *)
Definition allowed_transitions (s : WaveState) : list WaveState :=
  match s with
  | PLANNED => [RUNNING; CANCELLED]
  | RUNNING => [CHECKPOINTED; RECOVERABLE; REPLAN_REQUIRED; FAILED; CANCELLED]
  | CHECKPOINTED => [RUNNING; CANDIDATE_SEALED; RECOVERABLE; REPLAN_REQUIRED; FAILED; CANCELLED]
  | CANDIDATE_SEALED => [VERIFYING; REPLAN_REQUIRED; FAILED]
  | VERIFYING => [INTEGRATION_READY; REPLAN_REQUIRED; FAILED]
  | INTEGRATION_READY => [INTEGRATED; REPLAN_REQUIRED; FAILED]
  | RECOVERABLE => [RUNNING; REPLAN_REQUIRED; FAILED; CANCELLED]
  | REPLAN_REQUIRED | INTEGRATED | FAILED | CANCELLED => []
  end.

(** What a transition may set; the rest is kept. *)
Record wave_step := {
  to_state : WaveState;
  new_nodes : option (list WaveNode);
  new_checkpoint : option string;
  new_candidate : option CandidateIdentity;
  at_time : string }.
(** [WaveManifest.transition]; [replace] runs the constructor again. *)
Definition transition (m : WaveManifest) (t : wave_step) : result WaveManifest :=
  require (bool_decide (to_state t ∈ allowed_transitions (wave_state m))) ContractViolation
    ("invalid wave transition " +:+ wave_value (wave_state m) +:+ " -> " +:+ wave_value (to_state t))%stdpp ;?
  manifest_of (JInt 1) (JStr (wave_id m)) (JStr (plan_digest m)) (JStr (generation_id m)) (JStr (wave_subject m)) (JStr (manifest_digest m))
    (to_state t) (default (wave_nodes m) (new_nodes t)) (opt_str (match new_checkpoint t with Some c => Some c | None => wave_checkpoint m end))
    (match new_candidate t with Some c => Some c | None => candidate m end) (JStr (at_time t)) (JStr "").

(** ** Round trips *)

Lemma wave_state_back s : wave_state_of (JStr (wave_value s)) = Ok s.
Proof. by destruct s. Qed.
Lemma wave_node_state_back s : wave_node_state_of (JStr (wave_node_value s)) = Ok s.
Proof. by destruct s. Qed.
(** Values that their constructor has accepted. *)
Definition valid_identity (i : CandidateIdentity) : Prop := identity_of (JStr (commit i)) (JStr (tree i)) (JStr (candidate_subject i)) = Ok i.
Definition valid_node (n : WaveNode) : Prop :=
  wave_node_of (JStr (wave_node_id n)) (wave_node_state n) (JInt (attempt n)) (opt_str (node_checkpoint n)) (opt_str (node_result n)) = Ok n.
Definition rebuilt (m : WaveManifest) : result WaveManifest :=
  manifest_of (JInt 1) (JStr (wave_id m)) (JStr (plan_digest m)) (JStr (generation_id m)) (JStr (wave_subject m)) (opt_str (parent_wave_digest m))
    (wave_state m) (wave_nodes m) (opt_str (wave_checkpoint m)) (candidate m) (JStr (created_at m)) (JStr (manifest_digest m)).
Definition valid_manifest (m : WaveManifest) : Prop :=
  rebuilt m = Ok m /\ Forall valid_node (wave_nodes m) /\ forall c, candidate m = Some c -> valid_identity c.

Lemma identity_back i o : valid_identity i -> norm (JObj (identity_to_document i)) = JObj o -> identity_from_document o = Ok i.
Proof.
  intros Hi E. stored (identity_to_document i) Hn E Hg Hk. unfold identity_from_document.
  rewrite (closed_stored _ _ _ _ Hk) by done. cbn [rbind]. by rewrite !Hg.
Qed.

Lemma node_back n o : valid_node n -> norm (JObj (wave_node_to_document n)) = JObj o -> wave_node_from_document o = Ok n.
Proof.
  intros Hi E. stored (wave_node_to_document n) Hn E Hg Hk. unfold wave_node_from_document.
  rewrite (closed_stored _ _ _ _ Hk) by done. cbn [rbind]. rewrite !Hg. cbn [get lookup_key]. cbn.
  change (wave_node_state_of (JStr ?x)) with (wave_node_state_of (JStr x)). rewrite !norm_opt_str. 
  setoid_rewrite wave_node_state_back. exact Hi.
Qed.

Lemma nodes_back ns : Forall valid_node ns -> exists os, map norm (map (fun n => JObj (wave_node_to_document n)) ns) = map JObj os
  /\ map_result wave_node_from_document os = Ok ns.
Proof.
  induction 1 as [|n ns Hn _ (os & E & H)]; [by exists []|]. destruct (norm_obj_members (wave_node_to_document n)) as (o & Eo & _).
  exists (o :: os). cbn [map]. rewrite Eo, E. split; [done|]. cbn [map_result]. by rewrite (node_back n o Hn Eo), H.
Qed.

Lemma manifest_back m o : valid_manifest m -> norm (JObj (manifest_to_document m)) = JObj o -> manifest_from_document o = Ok m.
Proof.
  intros (Hr & Hns & Hc) E. stored (manifest_to_document m) Hn E Hg Hk. unfold manifest_from_document.
  rewrite (closed_stored _ _ _ _ Hk) by done. cbn [rbind]. rewrite !Hg. destruct (nodes_back _ Hns) as (os & En & Hos).
  change (norm (get "nodes" (manifest_to_document m))) with (JList (map norm (map (fun n => JObj (wave_node_to_document n)) (wave_nodes m)))). rewrite En.
  rewrite (proj2 (forallb_forall _ _)) by (intros x (y & <- & _)%in_map_iff; reflexivity). cbn [require rbind].
  rewrite objects_of, Hos. cbn [rbind].
  change (norm (get "candidate" (manifest_to_document m))) with (norm (identity_document (candidate m))).
  assert (Ec : match norm (identity_document (candidate m)) with
               | JNull => Ok None | JObj item => let? i := identity_from_document item in Ok (Some i) | _ => violation "candidate must be an object" end = Ok (candidate m)).
  { destruct (candidate m) as [c|] eqn:Ecand; [|done]. cbn [identity_document]. destruct (norm_obj_members (identity_to_document c)) as (oc & Eoc & _).
    by rewrite Eoc, (identity_back c oc (Hc c eq_refl) Eoc). }
  rewrite Ec. cbn [rbind]. change (norm (get "state" (manifest_to_document m))) with (JStr (wave_value (wave_state m))). rewrite wave_state_back. cbn [wrap rbind].
  change (norm (get "parent_wave_digest" (manifest_to_document m))) with (norm (opt_str (parent_wave_digest m))).
  change (norm (get "checkpoint_digest" (manifest_to_document m))) with (norm (opt_str (wave_checkpoint m))). rewrite !norm_opt_str. exact Hr.
Qed.

(** ** What the constructor accepts *)

Lemma optional_digest_opt v label o : optional_digest v label = Ok o -> v = opt_str o.
Proof.
  unfold optional_digest. destruct v; intros H; try (by injection H as <-); take_ok H u E; apply require_digest_str in E as [x Ex]; try done; injection H as <-; by injection Ex as ->.
Qed.
Lemma digest_not_falsy x : falsy (JStr (canonical_digest x)) = false.
Proof. done. Qed.

Ltac manifest_fields := cbn [wave_id plan_digest generation_id wave_subject parent_wave_digest wave_state wave_nodes wave_checkpoint candidate created_at manifest_digest].

(** The manifest the constructor returns is valid, carries its own digest, and
    has the members it was given. *)
Lemma manifest_of_ok version id plan generation subject parent state nodes checkpoint cand created digest m :
  manifest_of version id plan generation subject parent state nodes checkpoint cand created digest = Ok m ->
  Forall valid_node nodes -> (forall c, cand = Some c -> valid_identity c) ->
  valid_manifest m /\ manifest_digest m = digest_of m /\ wave_state m = state /\ wave_nodes m = nodes /\ candidate m = cand
  /\ id = JStr (wave_id m) /\ plan = JStr (plan_digest m) /\ generation = JStr (generation_id m) /\ subject = JStr (wave_subject m)
  /\ parent = opt_str (parent_wave_digest m) /\ checkpoint = opt_str (wave_checkpoint m) /\ created = JStr (created_at m).
Proof.
  intros H Hns Hc. unfold manifest_of in H. take_ok H v Ev. apply exact_int_ok in Ev as Ev'. destruct Ev' as [-> Ev1]. apply Z.eqb_eq in Ev1 as <-.
  take_ok H u1 E1. destruct (require_identifier_str _ _ _ E1) as [i ->]. take_ok H u2 E2. destruct (require_digest_str _ _ _ E2) as [p ->].
  take_ok H u3 E3. destruct (require_digest_str _ _ _ E3) as [g ->]. take_ok H u4 E4. destruct (require_digest_str _ _ _ E4) as [s ->].
  take_ok H par E5. assert (E5' := optional_digest_opt _ _ _ E5). subst parent. take_guard H E6. take_ok H cp E7. assert (E7' := optional_digest_opt _ _ _ E7). subst checkpoint.
  take_ok H t E8. destruct (require_time_str _ _ _ E8) as [c ->]. take_guard H E9. take_guard H E10. take_guard H E11. take_guard H E12.
  unfold default, as_str, id in *. assert (Hm : m = with_digest m (digest_of m) /\ exists m0, m = with_digest m0 (digest_of m0)
    /\ m0 = {| wave_id := i; plan_digest := p; generation_id := g; wave_subject := s; parent_wave_digest := par; wave_state := state; wave_nodes := nodes;
               wave_checkpoint := cp; candidate := cand; created_at := c; manifest_digest := "" |}).
  { destruct (falsy digest); [injection H as <-|take_guard H E13; injection H as <-]; (split; [reflexivity|]); by eexists. }
  destruct Hm as (_ & m0 & -> & ->). unfold with_digest at 1. manifest_fields. split_and!; try reflexivity. split; [|split; [exact Hns|exact Hc]].
  unfold rebuilt, with_digest. manifest_fields. unfold manifest_of. change (exact_int (JInt 1) _ _) with (@Ok Z 1). cbn [rbind]. rewrite E1, E2, E3, E4. cbn [rbind]. rewrite E5. cbn [rbind]. rewrite E6. cbn [require rbind].
  rewrite E7. cbn [rbind]. rewrite E8. cbn [rbind]. rewrite E9, E10. unfold default, as_str, id. cbn [require rbind]. rewrite E11, E12. cbn [require rbind].
  rewrite (proj2 (py_eq_str _ _) eq_refl). reflexivity.
Qed.

Lemma valid_digest m : valid_manifest m -> manifest_digest m = digest_of m.
Proof. intros (H & Hn & Hc). by apply (manifest_of_ok _ _ _ _ _ _ _ _ _ _ _ _ _ H Hn Hc). Qed.

(** ** Transitions *)

(** A step whose nodes and candidate were constructed. *)
Definition step_ok (t : wave_step) : Prop :=
  (forall ns, new_nodes t = Some ns -> Forall valid_node ns) /\ (forall c, new_candidate t = Some c -> valid_identity c).

Record follows (m : WaveManifest) (t : wave_step) (m' : WaveManifest) : Prop := {
  fo_valid : valid_manifest m';
  fo_allowed : wave_state m' ∈ allowed_transitions (wave_state m);
  fo_state : wave_state m' = to_state t;
  fo_parent : parent_wave_digest m' = Some (manifest_digest m);
  fo_same : wave_id m' = wave_id m /\ plan_digest m' = plan_digest m /\ generation_id m' = generation_id m /\ wave_subject m' = wave_subject m;
  fo_nodes : wave_nodes m' = default (wave_nodes m) (new_nodes t);
  fo_candidate : candidate m' = match new_candidate t with Some c => Some c | None => candidate m end }.

Lemma transition_follows m t m' : valid_manifest m -> step_ok t -> transition m t = Ok m' -> follows m t m'.
Proof.
  intros (Hr & Hns & Hc) [Ht1 Ht2] H. unfold transition in H. take_guard H E. apply bool_decide_eq_true in E.
  destruct (manifest_of_ok _ _ _ _ _ _ _ _ _ _ _ _ _ H) as (Hv & _ & Hs & Hn & Hca & Hi & Hp & Hg & Hsu & Hpa & _).
  - destruct (new_nodes t) as [ns|] eqn:En; [by apply Ht1|done].
  - intros c. destruct (new_candidate t) as [c'|] eqn:Ec; [intros [= <-]; by apply Ht2|apply Hc].
  - change (JStr (manifest_digest m)) with (opt_str (Some (manifest_digest m))) in Hpa. apply opt_str_inj in Hpa.
    constructor; try done; [by rewrite Hs|]. split_and!; congruence.
Qed.

(** The state and the candidate fit together. *)
Lemma valid_candidate m : valid_manifest m ->
  (wave_state m ∈ candidate_states -> exists c, candidate m = Some c /\ candidate_subject c = wave_subject m /\ is_Some (wave_checkpoint m))
  /\ (wave_state m ∈ open_states -> candidate m = None).
Proof.
  intros (H & _). unfold rebuilt, manifest_of in H. take_ok H v Ev. take_ok H u1 E1. take_ok H u2 E2. take_ok H u3 E3. take_ok H u4 E4. take_ok H par E5.
  take_guard H E6. take_ok H cp E7. apply optional_digest_opt, opt_str_inj in E7 as <-. take_ok H t E8. take_guard H E9. take_guard H E10. take_guard H E11. take_guard H E12. split.
  - intros Hs. rewrite (bool_decide_eq_true_2 _ Hs) in E10. cbn [negb orb] in E10. apply bool_decide_eq_true in E10 as [c Hc]. exists c. split; [done|].
    rewrite Hc in E11. apply String.eqb_eq in E11. split; [exact E11|]. assert (Hs' : wave_state m ∈ checkpoint_states).
    { unfold candidate_states, checkpoint_states in *. set_solver. }
    rewrite (bool_decide_eq_true_2 _ Hs') in E9. by apply bool_decide_eq_true in E9.
  - intros Hs. rewrite (bool_decide_eq_true_2 _ Hs) in E12. by apply bool_decide_eq_true in E12.
Qed.

(** ** Manifests as bytes *)

Import AsciiJson.

Lemma require_digest_text s label u : require_digest (JStr s) label = Ok u -> utf8_text s.
Proof. intros H%require_ok. by apply is_digest_text. Qed.
Lemma require_identifier_text s label u : require_identifier (JStr s) label = Ok u -> utf8_text s.
Proof. intros H%require_ok. by apply identifier_text. Qed.
Lemma require_time_text s label d : require_time (JStr s) label = Ok d -> utf8_text s.
Proof. unfold require_time. intros H. take_guard H E. by apply time_text. Qed.
Lemma optional_digest_text o label o' : optional_digest (opt_str o) label = Ok o' -> utf8_json (opt_str o).
Proof. destruct o as [s|]; [|done]. unfold optional_digest. cbn [opt_str]. intros H. take_ok H u E. by eapply require_digest_text. Qed.
Lemma sha_text x : utf8_text (canonical_digest x).
Proof. apply is_digest_text, reference_is_digest. Qed.

(** A document whose strings are texts, with distinct names, of bounded depth. *)
Definition plain_text (bound : Z) (j : json) : Prop := utf8_json j /\ json_wf j = true /\ _json_depth j <= bound.

Lemma plain_str s : utf8_text s -> plain_text 1 (JStr s).
Proof. intros. unfold plain_text. by split_and!. Qed.
Lemma plain_int z : plain_text 1 (JInt z).
Proof. intros. unfold plain_text. by split_and!. Qed.
Lemma plain_opt o : utf8_json (opt_str o) -> plain_text 1 (opt_str o).
Proof. intros H. unfold plain_text. split_and!; by destruct o. Qed.
Lemma plain_weaken b b' j : b <= b' -> plain_text b j -> plain_text b' j.
Proof. intros Hb (H1 & H2 & H3). unfold plain_text. split_and!; try done. lia. Qed.

Lemma plain_object b (d : contract) : 0 <= b -> NoDup d.*1 -> Forall (fun kv => utf8_text kv.1 /\ plain_text b kv.2) d -> plain_text (1 + b) (JObj d).
Proof.
  intros Hb Hn Hd. unfold plain_text. split_and!.
  - apply utf8_obj. eapply Forall_impl; [exact Hd|]. intros kv [H1 [H2 _]]. by split.
  - apply object_wf; [done|]. intros k v Hin. rewrite Forall_forall in Hd. by apply (Hd (k, v)).
  - cbn [_json_depth]. clear Hn. induction Hd as [|kv d [_ (_ & _ & H)] _ IH]; cbn; lia.
Qed.
Lemma plain_list b (l : list json) : 0 <= b -> Forall (plain_text b) l -> plain_text (1 + b) (JList l).
Proof.
  intros Hb Hl. unfold plain_text. split_and!.
  - apply utf8_list. eapply Forall_impl; [exact Hl|]. by intros j [H _].
  - cbn. apply forallb_forall. intros j Hj%list_elem_of_In. rewrite Forall_forall in Hl. by apply Hl.
  - cbn [_json_depth]. induction Hl as [|j l (_ & _ & H) _ IH]; cbn; lia.
Qed.

Lemma name_text s : all_chars (fun c => code c <? 128)%N s = true -> utf8_text s.
Proof. apply ascii_utf8. Qed.

Lemma git_object_text s : git_object (JStr s) = Ok true -> utf8_text s.
Proof.
  unfold git_object. generalize (match_items (times 40 is_hex) s) (hex_text 40 s). intros b H [= ->]. by apply H.
Qed.

Lemma identity_plain i : valid_identity i -> plain_text 2 (JObj (identity_to_document i)).
Proof.
  unfold valid_identity, identity_of. intros H. take_ok H a Ea. take_ok H b Eb. take_guard H Ec. take_ok H u Ed. rewrite Ec in Eb. clear Ec b.
  destruct a; [|done]. apply (plain_object 1); [lia|apply (bool_decide_unpack (NoDup ["commit"; "tree"; "subject_id"])); vm_compute; exact I|].
  repeat (apply Forall_cons; split); try apply Forall_nil_2; (split; [by apply name_text|]); cbn [snd]; apply plain_str.
  - by apply git_object_text.
  - by apply git_object_text.
  - by eapply require_digest_text.
Qed.

Lemma node_plain n : valid_node n -> plain_text 2 (JObj (wave_node_to_document n)).
Proof.
  unfold valid_node, wave_node_of. intros H. take_ok H u E1. take_ok H z E2. take_ok H cp E3. take_ok H rd E4.
  apply (plain_object 1); [lia|apply (bool_decide_unpack (NoDup ["node_id"; "state"; "attempt"; "checkpoint_digest"; "result_digest"])); vm_compute; exact I|].
  repeat (apply Forall_cons; split); try apply Forall_nil_2; (split; [by apply name_text|]); cbn [snd].
  - apply plain_str. by eapply require_identifier_text.
  - apply plain_str. destruct (wave_node_state n); by apply name_text.
  - apply plain_int.
  - apply plain_opt. by eapply optional_digest_text.
  - apply plain_opt. by eapply optional_digest_text.
Qed.

Lemma manifest_plain m : valid_manifest m -> plain_text 4 (JObj (manifest_to_document m)).
Proof.
  intros Hv. assert (Hd := valid_digest m Hv). destruct Hv as (H & Hns & Hc). unfold rebuilt, manifest_of in H. take_ok H v Ev.
  take_ok H u1 E1. take_ok H u2 E2. take_ok H u3 E3. take_ok H u4 E4. take_ok H par E5. take_guard H E6. take_ok H cp E7. take_ok H t E8. clear H.
  apply (plain_object 3); [lia|apply (bool_decide_unpack (NoDup manifest_fields)); vm_compute; exact I|]. unfold manifest_to_document, manifest_body. cbn [app].
  repeat (apply Forall_cons; split); try apply Forall_nil_2; (split; [by apply name_text|]); cbn [snd].
  - by apply (plain_weaken 1), plain_int.
  - apply (plain_weaken 1), plain_str; [lia|by eapply require_identifier_text].
  - apply (plain_weaken 1), plain_str; [lia|by eapply require_digest_text].
  - apply (plain_weaken 1), plain_str; [lia|by eapply require_digest_text].
  - apply (plain_weaken 1), plain_str; [lia|by eapply require_digest_text].
  - apply (plain_weaken 1), plain_opt; [lia|by eapply optional_digest_text].
  - apply (plain_weaken 1), plain_str; [lia|destruct (wave_state m); by apply name_text].
  - apply (plain_list 2); [lia|]. apply Forall_fmap. eapply Forall_impl; [exact Hns|]. exact node_plain.
  - apply (plain_weaken 1), plain_opt; [lia|by eapply optional_digest_text].
  - destruct (candidate m) as [c|] eqn:E; [apply (plain_weaken 2); [lia|]; by apply identity_plain, Hc|by apply (plain_weaken 1)].
  - apply (plain_weaken 1), plain_str; [lia|by eapply require_time_text].
  - apply (plain_weaken 1), plain_str; [lia|]. rewrite Hd. apply sha_text.
Qed.

(** A manifest survives storage: the bytes of a valid manifest within the size
    limit are read back as exactly that manifest, and its document is. *)
Theorem manifest_bytes_round_trip m : valid_manifest m -> Z.of_nat (String.length (manifest_canonical_bytes m)) <= DEFAULT_MAXIMUM_JSON_BYTES ->
  manifest_from_bytes (manifest_canonical_bytes m) = Ok m.
Proof.
  intros Hv Hl. destruct (manifest_plain m Hv) as (Hu & Hw & Hd). unfold manifest_from_bytes, strict_object, strict_json_object, manifest_canonical_bytes.
  rewrite limits_ok by (apply object_text || exact Hl). cbn [rbind]. rewrite utf8_valid_text by (apply print_text; [by apply norm_utf8|constructor]). cbn [require rbind].
  destruct (parse_canonical _ Hw) as (o & Ho & ->); [unfold DEFAULT_MAXIMUM_JSON_DEPTH; lia|]. cbn [rbind]. by apply manifest_back.
Qed.

(** ** Histories of a wave *)

(** The manifests of a wave, the newest last: a planned one without a parent,
    then one transition after another. *)
Inductive wave_history : list WaveManifest -> Prop :=
| history_start m : valid_manifest m -> wave_state m = PLANNED -> parent_wave_digest m = None -> wave_history [m]
| history_step h m t m' : wave_history (h ++ [m]) -> step_ok t -> transition m t = Ok m' -> wave_history (h ++ [m; m']).

Lemma history_valid h : wave_history h -> Forall valid_manifest h.
Proof.
  induction 1 as [m Hm _ _|h m t m' Hh IH Ht E]; [by constructor|]. apply Forall_app in IH as [IH Hm]. apply Forall_app. split; [done|].
  apply Forall_cons in Hm as [Hm _]. constructor; [done|]. constructor; [|constructor].
    by apply (fo_valid _ _ _ (transition_follows _ _ _ Hm Ht E)).
Qed.

(** The last manifest of a history, and the step that made it. *)
Lemma history_last h m' : wave_history (h ++ [m']) ->
  (h = [] /\ wave_state m' = PLANNED /\ parent_wave_digest m' = None)
  \/ exists h0 m t, h = h0 ++ [m] /\ wave_history (h0 ++ [m]) /\ step_ok t /\ transition m t = Ok m' /\ follows m t m'.
Proof.
  intros H. inversion H as [m Hv Hs Hp E|h0 m t m1 Hh Ht Htr E].
  - left. destruct h as [|x h]; [by injection E as ->|]. by destruct h.
  - right. change [m; m1] with ([m] ++ [m1]) in E. rewrite (assoc_L (++)) in E. apply app_inj_tail in E as [<- ->].
    exists h0, m, t. split_and!; try done. apply transition_follows; [|done..]. apply history_valid in Hh. by apply Forall_app in Hh as [_ [? _]%Forall_cons].
Qed.

Lemma step_back h m' s : wave_history (h ++ [m']) -> s <> PLANNED -> wave_state m' = s ->
  exists h0 m t, h = h0 ++ [m] /\ wave_history (h0 ++ [m]) /\ follows m t m' /\ s ∈ allowed_transitions (wave_state m).
Proof.
  intros H Hs E. destruct (history_last h m' H) as [(_ & E' & _)|(h0 & m & t & -> & Hh & _ & _ & F)]; [congruence|].
  exists h0, m, t. split_and!; try done. rewrite <- E. apply (fo_allowed _ _ _ F).
Qed.

Lemma before_integrated s : INTEGRATED ∈ allowed_transitions s -> s = INTEGRATION_READY.
Proof. destruct s; cbn; set_solver. Qed.
Lemma before_ready s : INTEGRATION_READY ∈ allowed_transitions s -> s = VERIFYING.
Proof. destruct s; cbn; set_solver. Qed.
Lemma before_verifying s : VERIFYING ∈ allowed_transitions s -> s = CANDIDATE_SEALED.
Proof. destruct s; cbn; set_solver. Qed.
Lemma before_sealed s : CANDIDATE_SEALED ∈ allowed_transitions s -> s = CHECKPOINTED.
Proof. destruct s; cbn; set_solver. Qed.

(** What makes a manifest part of the lifecycle of a candidate of this wave. *)
Definition with_candidate (w m : WaveManifest) (s : WaveState) : Prop :=
  valid_manifest m /\ wave_state m = s /\ is_Some (wave_checkpoint m)
  /\ wave_id m = wave_id w /\ plan_digest m = plan_digest w /\ generation_id m = generation_id w /\ wave_subject m = wave_subject w
  /\ exists c, candidate m = Some c /\ candidate_subject c = wave_subject w.
Definition linked (m m' : WaveManifest) : Prop := parent_wave_digest m' = Some (digest_of m).

Lemma candidate_stage w m s : valid_manifest m -> wave_state m = s -> s ∈ candidate_states ->
  wave_id m = wave_id w /\ plan_digest m = plan_digest w /\ generation_id m = generation_id w /\ wave_subject m = wave_subject w -> with_candidate w m s.
Proof.
  intros Hv Hs Hin (? & ? & ? & Hsub). destruct (proj1 (valid_candidate m Hv)) as (c & Hc & Hcs & Hcp); [by rewrite Hs|].
  unfold with_candidate. split_and!; try done. exists c. split; [done|congruence].
Qed.

(** C19: no stage of a wave is skipped.  In every history of transitions that starts
    with a planned manifest, an integrated manifest is preceded by one that was
    ready for integration, one that was being verified, one whose candidate was
    sealed and a checkpoint, in this order and with nothing in between; each is
    valid, names its predecessor by digest, belongs to the same wave, plan,
    generation and subject, and from the sealing on has a checkpoint and a
    candidate of that subject. *)
Theorem integrated_wave_passed_every_stage h m : wave_history (h ++ [m]) -> wave_state m = INTEGRATED ->
  exists h0 p c v r, h = h0 ++ [p; c; v; r] /\ valid_manifest p /\ wave_state p = CHECKPOINTED /\ candidate p = None
    /\ with_candidate p c CANDIDATE_SEALED /\ with_candidate p v VERIFYING /\ with_candidate p r INTEGRATION_READY /\ with_candidate p m INTEGRATED
    /\ linked p c /\ linked c v /\ linked v r /\ linked r m.
Proof.
  intros H E.
  destruct (step_back h m INTEGRATED H ltac:(done) E) as (h1 & r & t1 & -> & H1 & F1 & A1). apply before_integrated in A1.
  destruct (step_back h1 r INTEGRATION_READY H1 ltac:(done) A1) as (h2 & v & t2 & -> & H2 & F2 & A2). apply before_ready in A2.
  destruct (step_back h2 v VERIFYING H2 ltac:(done) A2) as (h3 & c & t3 & -> & H3 & F3 & A3). apply before_verifying in A3.
  destruct (step_back h3 c CANDIDATE_SEALED H3 ltac:(done) A3) as (h4 & p & t4 & -> & H4 & F4 & A4). apply before_sealed in A4.
  assert (Hp : valid_manifest p) by (apply history_valid, Forall_app in H4; by destruct H4 as [_ [? _]%Forall_cons]).
  exists h4, p, c, v, r. rewrite <- !(assoc_L (++)). split; [done|]. split; [done|]. split; [done|].
  split; [apply (valid_candidate p Hp); rewrite A4; unfold open_states; set_solver|].
  assert (Hl : forall a t b, valid_manifest a -> follows a t b -> linked a b) by (intros a t b Ha F; unfold linked; rewrite (fo_parent _ _ _ F); by rewrite valid_digest).
  assert (L4 := Hl _ _ _ Hp F4). assert (L3 := Hl _ _ _ (fo_valid _ _ _ F4) F3). assert (L2 := Hl _ _ _ (fo_valid _ _ _ F3) F2).
  assert (L1 := Hl _ _ _ (fo_valid _ _ _ F2) F1). clear Hl.
  destruct F4 as [V4 _ S4 _ (? & ? & ? & ?) _ _], F3 as [V3 _ S3 _ (? & ? & ? & ?) _ _], F2 as [V2 _ S2 _ (? & ? & ? & ?) _ _], F1 as [V1 _ S1 _ (? & ? & ? & ?) _ _].
  split_and!; try assumption; (apply candidate_stage; [assumption|assumption|unfold candidate_states; set_solver|split_and!; congruence]).
Qed.

(** *** A digest commits to the whole history *)

Lemma wave_value_inj s s' : wave_value s = wave_value s' -> s = s'.
Proof. intros E. assert (H := wave_state_back s). rewrite E, wave_state_back in H. by injection H. Qed.

Lemma same_body m m' : valid_manifest m -> valid_manifest m' -> canonical_bytes (JObj (manifest_body m)) = canonical_bytes (JObj (manifest_body m')) -> m = m'.
Proof.
  intros Hv Hv' E. assert (Hd : digest_of m = digest_of m') by (unfold digest_of, canonical_digest; by rewrite E).
  rewrite <- !(valid_digest) in Hd by done.
  assert (Hw : forall x, valid_manifest x -> json_wf (JObj (manifest_to_document x)) = true /\ json_wf (JObj (manifest_body x)) = true).
  { intros x Hx. destruct (manifest_plain x Hx) as (_ & Hw & _). split; [done|]. unfold manifest_to_document in Hw. cbn [json_wf] in *.
    rewrite andb_true_iff in *. rewrite forallb_app, andb_true_iff in Hw. split; [|tauto]. vm_compute. reflexivity. }
  assert (Hb : forall k, norm (get k (manifest_body m)) = norm (get k (manifest_body m'))) by (apply same_bytes_members; [by apply Hw|by apply Hw|exact E]).
  destruct (norm_obj_members (manifest_to_document m)) as (o & Eo & _). destruct (norm_obj_members (manifest_to_document m')) as (o' & Eo' & _).
  assert (Hg : forall k, get k o = get k o').
  { intros k. stored (manifest_to_document m) Hn Eo Hg Hk. stored (manifest_to_document m') Hn' Eo' Hg' Hk'. rewrite Hg, Hg'.
    assert (Happ : forall x, get k (manifest_to_document x) = if has k (manifest_body x) then get k (manifest_body x) else get k [("manifest_digest", JStr (manifest_digest x))]).
    { intros x. unfold get, has, manifest_to_document. rewrite lookup_key_app. by destruct (lookup_key k (manifest_body x)). }
    rewrite !Happ, Hd. replace (has k (manifest_body m')) with (has k (manifest_body m)) by (apply eq_true_iff_eq; by rewrite !has_elem). destruct (has k (manifest_body m)); [apply Hb|done]. }
  assert (Hr : manifest_from_document o = manifest_from_document o').
  { unfold manifest_from_document. rewrite !Hg. f_equal. stored (manifest_to_document m) Hn Eo Hg1 Hk. stored (manifest_to_document m') Hn' Eo' Hg2 Hk'.
    rewrite (closed_stored _ _ _ _ Hk) by done. by rewrite (closed_stored _ _ _ _ Hk'). }
  rewrite (manifest_back m o Hv Eo), (manifest_back m' o' Hv' Eo') in Hr. by injection Hr.
Qed.

(** The digest of a manifest commits to its whole history: two histories whose
    last manifests have the same digest are equal, or exhibit two manifest bodies
    with different bytes and the same SHA-256. *)
Theorem wave_digest_commits h h' m m' : wave_history (h ++ [m]) -> wave_history (h' ++ [m']) -> manifest_digest m = manifest_digest m' ->
  h ++ [m] = h' ++ [m']
  \/ exists x x', x ∈ h ++ [m] /\ x' ∈ h' ++ [m'] /\ canonical_bytes (JObj (manifest_body x)) <> canonical_bytes (JObj (manifest_body x'))
       /\ sha256_hexdigest (canonical_bytes (JObj (manifest_body x))) = sha256_hexdigest (canonical_bytes (JObj (manifest_body x'))).
Proof.
  revert h' m m'. induction h as [|p h IH] using rev_ind; intros h' m m' H H' E;
    (assert (Hv : valid_manifest m) by (apply history_valid, Forall_app in H; by destruct H as [_ [? _]%Forall_cons]));
    (assert (Hv' : valid_manifest m') by (apply history_valid, Forall_app in H'; by destruct H' as [_ [? _]%Forall_cons]));
    (assert (Es : sha256_hexdigest (canonical_bytes (JObj (manifest_body m))) = sha256_hexdigest (canonical_bytes (JObj (manifest_body m'))))
       by (rewrite !valid_digest in E by done; by apply append_inj_l in E));
    (destruct (decide (canonical_bytes (JObj (manifest_body m)) = canonical_bytes (JObj (manifest_body m')))) as [Eb|];
       [apply same_body in Eb as <-; [|done..]|right; exists m, m'; rewrite !elem_of_app, !list_elem_of_singleton; auto]).
  - left. destruct (history_last _ _ H') as [(-> & _)|(h0 & q & t & -> & _ & _ & _ & F)]; [done|]. destruct (history_last _ _ H) as [(_ & _ & Hp)|(h1 & q' & t' & E1 & _)]; [|by destruct h1].
    rewrite (fo_parent _ _ _ F) in Hp. done.
  - destruct (history_last _ _ H) as [(E1 & _)|(h1 & q & t & E1 & H1 & _ & _ & F)]; [by destruct h|]. apply app_inj_tail in E1 as [<- <-].
    destruct (history_last _ _ H') as [(-> & _ & Hp)|(h0 & q' & t' & -> & H0 & _ & _ & F')]; [rewrite (fo_parent _ _ _ F) in Hp; done|].
    assert (Ep : manifest_digest p = manifest_digest q') by (assert (X := fo_parent _ _ _ F); rewrite (fo_parent _ _ _ F') in X; by injection X).
    destruct (IH _ _ _ H1 H0 Ep) as [->|(x & x' & Hx & Hx' & Hc)]; [by left|]. right. exists x, x'. split; [apply elem_of_app; by left|]. split; [apply elem_of_app; by left|done].
Qed.

(** ** A sample wave *)

Module SampleWave.

Definition hex (c : string) (n : nat) : string := String.concat "" (replicate n c).
Definition subject : string := ("sha256:" +:+ hex "a" 64)%stdpp.
Definition candidate_of (c : string) : CandidateIdentity := {| commit := hex c 40; tree := hex c 40; candidate_subject := subject |}.
Definition node : WaveNode := {| wave_node_id := "build"; wave_node_state := N_PENDING; attempt := 0; node_checkpoint := None; node_result := None |}.
Definition blank : WaveManifest :=
  {| wave_id := ""; plan_digest := ""; generation_id := ""; wave_subject := ""; parent_wave_digest := None; wave_state := PLANNED; wave_nodes := [];
     wave_checkpoint := None; candidate := None; created_at := ""; manifest_digest := "" |}.
Definition ok_or {A} (a : A) (r : result A) : A := match r with Ok x => x | Raise _ => a end.
Definition planned : WaveManifest := Eval vm_compute in 
  ok_or blank (manifest_of (JInt 1) (JStr "wave-1") (JStr subject) (JStr subject) (JStr subject) JNull PLANNED [node] JNull None
                 (JStr "2030-01-01T00:00:00Z") (JStr "")).
Definition move (s : WaveState) (cp : option string) (c : option CandidateIdentity) : wave_step :=
  {| to_state := s; new_nodes := None; new_checkpoint := cp; new_candidate := c; at_time := "2030-01-01T01:00:00Z" |}.
Definition after (m : WaveManifest) (t : wave_step) : WaveManifest := ok_or blank (transition m t).
Definition running : WaveManifest := Eval vm_compute in  after planned (move RUNNING None None).
Definition checkpointed : WaveManifest := Eval vm_compute in  after running (move CHECKPOINTED (Some subject) None).
Definition sealed : WaveManifest := Eval vm_compute in  after checkpointed (move CANDIDATE_SEALED None (Some (candidate_of "1"))).
Definition verifying : WaveManifest := Eval vm_compute in  after sealed (move VERIFYING None None).
Definition ready : WaveManifest := Eval vm_compute in  after verifying (move INTEGRATION_READY None None).
Definition integrated : WaveManifest := Eval vm_compute in  after ready (move INTEGRATED None None).

Lemma valid_sample_identity : valid_identity (candidate_of "1").
Proof. vm_compute. reflexivity. Qed.
Lemma step_fine s cp : step_ok (move s cp None).
Proof. by split. Qed.
Lemma sealing_fine : step_ok (move CANDIDATE_SEALED None (Some (candidate_of "1"))).
Proof. split; [done|]. intros c [= <-]. exact valid_sample_identity. Qed.

Lemma sample_history : wave_history ([planned; running; checkpointed; sealed; verifying; ready] ++ [integrated]).
Proof.
  apply (history_step [planned; running; checkpointed; sealed; verifying] ready (move INTEGRATED None None)); [|apply step_fine|vm_compute; reflexivity].
  apply (history_step [planned; running; checkpointed; sealed] verifying (move INTEGRATION_READY None None)); [|apply step_fine|vm_compute; reflexivity].
  apply (history_step [planned; running; checkpointed] sealed (move VERIFYING None None)); [|apply step_fine|vm_compute; reflexivity].
  apply (history_step [planned; running] checkpointed (move CANDIDATE_SEALED None (Some (candidate_of "1")))); [|apply sealing_fine|vm_compute; reflexivity].
  apply (history_step [planned] running (move CHECKPOINTED (Some subject) None)); [|apply step_fine|vm_compute; reflexivity].
  apply (history_step [] planned (move RUNNING None None)); [|apply step_fine|vm_compute; reflexivity].
  apply history_start; [|reflexivity..]. split; [vm_compute; reflexivity|]. split; [repeat constructor; vm_compute; reflexivity|done].
Qed.

End SampleWave.

Lemma manifest_bytes_round_trip_witness :
  manifest_from_bytes (manifest_canonical_bytes SampleWave.integrated) = Ok SampleWave.integrated.
Proof.
  apply (manifest_bytes_round_trip SampleWave.integrated).
  - pose proof (history_valid _ SampleWave.sample_history) as H. apply Forall_app in H as [_ H]. by apply Forall_cons in H as [H _].
  - vm_compute. discriminate.
Defined.

Lemma integrated_wave_passed_every_stage_witness : exists p c v r, with_candidate p c CANDIDATE_SEALED /\ with_candidate p v VERIFYING /\ linked v r.
Proof.
  destruct (integrated_wave_passed_every_stage _ SampleWave.integrated SampleWave.sample_history eq_refl)
    as (h0 & p & c & v & r & _ & _ & _ & _ & H1 & H2 & _ & _ & _ & _ & H3 & _).
  exists p, c, v, r. split; [exact H1|]. split; [exact H2|exact H3].
Defined.

Lemma wave_digest_commits_witness :
  let h := [SampleWave.planned; SampleWave.running; SampleWave.checkpointed; SampleWave.sealed; SampleWave.verifying; SampleWave.ready] in
  h ++ [SampleWave.integrated] = h ++ [SampleWave.integrated]
  \/ exists x x', x ∈ h ++ [SampleWave.integrated] /\ x' ∈ h ++ [SampleWave.integrated]
       /\ canonical_bytes (JObj (manifest_body x)) <> canonical_bytes (JObj (manifest_body x'))
       /\ sha256_hexdigest (canonical_bytes (JObj (manifest_body x))) = sha256_hexdigest (canonical_bytes (JObj (manifest_body x'))).
Proof.
  exact (wave_digest_commits _ _ SampleWave.integrated SampleWave.integrated SampleWave.sample_history SampleWave.sample_history eq_refl).
Defined.

(** The candidate is sealed by name only: a later transition may put another one
    in its place. *)
Example sealed_candidate_replaced :
  candidate SampleWave.sealed = Some (SampleWave.candidate_of "1")
  /\ candidate (SampleWave.after SampleWave.sealed (SampleWave.move VERIFYING None (Some (SampleWave.candidate_of "2")))) = Some (SampleWave.candidate_of "2").
Proof. split; vm_compute; reflexivity. Qed.

(** A document without its digest is accepted as if it were sealed. *)
Example unsealed_manifest_accepted :
  manifest_from_document (manifest_body SampleWave.integrated ++ [("manifest_digest", JStr "")]) = Ok SampleWave.integrated
  /\ manifest_from_document (manifest_body SampleWave.integrated ++ [("manifest_digest", JNull)]) = Ok SampleWave.integrated.
Proof. split; vm_compute; reflexivity. Qed.

End WaveManifest.
