(* ===== verification/CandidateState.v ===== *)
(** * The candidate journal

    [brain_kernel/candidate_state.py]: snapshots of a candidate, and the
    append-only journal of their transitions.  The journal is the list of the
    rows of [candidate_events] in the order of [global_sequence]; each method
    that writes does so in one transaction at its end.  [transition] reads the
    journal and writes it later, so that other processes can write in between:
    the two halves are also steps of their own. *)

From S2P Require Import Prelude Sha256 Canonical AsciiJson PyLib Schema Contracts RuntimeContracts WaveManifest.
From Stdlib Require Import Ascii.

Module CandidateState.
Export WaveManifest.

Definition broken {A} (m : string) : result A := raise CandidateStateError m.

Definition _TERMINAL_STATES : list WaveState := [INTEGRATED; FAILED; CANCELLED].
Definition _TRANSITIONS (s : WaveState) : list WaveState :=
  match s with
  | CHECKPOINTED => [CHECKPOINTED; CANDIDATE_SEALED; RECOVERABLE; REPLAN_REQUIRED; FAILED; CANCELLED]
  | CANDIDATE_SEALED => [CANDIDATE_SEALED; VERIFYING; RECOVERABLE; REPLAN_REQUIRED; FAILED; CANCELLED]
  | VERIFYING => [VERIFYING; INTEGRATION_READY; RECOVERABLE; REPLAN_REQUIRED; FAILED; CANCELLED]
  | INTEGRATION_READY => [INTEGRATION_READY; RECOVERABLE; REPLAN_REQUIRED; INTEGRATED; FAILED; CANCELLED]
  | RECOVERABLE => [RECOVERABLE; CANDIDATE_SEALED; VERIFYING; INTEGRATION_READY; REPLAN_REQUIRED; INTEGRATED; FAILED; CANCELLED]
  | REPLAN_REQUIRED => [REPLAN_REQUIRED; CANCELLED]
  | INTEGRATED => [INTEGRATED]
  | FAILED => [FAILED]
  | CANCELLED => [CANCELLED]
  | PLANNED | RUNNING => []
  end.
(** [state not in _TRANSITIONS[prior]]: a state without an entry raises. *)
Definition may_move (prior state : WaveState) : result bool :=
  require (negb (bool_decide (prior ∈ [PLANNED; RUNNING]))) KeyError (wave_value prior) ;? Ok (bool_decide (state ∈ _TRANSITIONS prior)).

Definition _required (value : json) (label : string) : result unit :=
  require (match value with JStr s => negb (is_blank s) | _ => false end) ValueError (label +:+ " is required")%stdpp.
Definition _digest (value : json) (label : string) : result unit :=
  require (match value with
           | JStr s => startswith "sha256:" s && (str_len s =? 71) && all_chars is_hex (drop_bytes 7 s)
           | _ => false
           end) ValueError (label +:+ " must be a lowercase sha256 digest")%stdpp.
Definition positive (value : json) (label : string) : result Z :=
  match value with
  | JInt z => require (1 <=? z) ValueError (label +:+ " must be a positive integer")%stdpp ;? Ok z
  | _ => raise ValueError (label +:+ " must be a positive integer")%stdpp
  end.

(** ** Snapshots *)

Record CandidateSnapshot := {
  s_candidate : string;
  s_wave : string;
  s_node : string;
  s_generation : Z;
  s_state : WaveState;
  s_manifest : string;
  s_authority : string;
  s_checkpoint : string;
  s_identity : option CandidateIdentity;
  s_sequence : Z;
  s_reason : option string }.

Definition identity_states : list WaveState := [CANDIDATE_SEALED; VERIFYING; INTEGRATION_READY; INTEGRATED].
Definition reason_states : list WaveState := [RECOVERABLE; REPLAN_REQUIRED; FAILED; CANCELLED].

(** [CandidateSnapshot(...)] *)
Definition snapshot_of (c w n generation : json) (state : WaveState) (manifest authority checkpoint : json) (identity : option CandidateIdentity)
    (sequence reason : json) : result CandidateSnapshot :=
  _required c "candidate_id" ;?
  _required w "wave_id" ;?
  _required n "node_id" ;?
  let? g := positive generation "generation" in
  _digest manifest "manifest_digest" ;?
  _digest authority "authority_digest" ;?
  _digest checkpoint "checkpoint_digest" ;?
  let? q := positive sequence "sequence" in
  require (negb (bool_decide (state ∈ identity_states)) || bool_decide (is_Some identity)) ValueError
    "sealed and adoption states require an exact candidate identity" ;?
  match reason with JNull => Ok tt | _ => _required reason "reason" end ;?
  require (negb (bool_decide (state ∈ reason_states)) || negb (bool_decide (as_str reason = None))) ValueError
    (wave_value state +:+ " candidate state requires a reason")%stdpp ;?
  Ok {| s_candidate := default "" (as_str c); s_wave := default "" (as_str w); s_node := default "" (as_str n); s_generation := g; s_state := state;
        s_manifest := default "" (as_str manifest); s_authority := default "" (as_str authority); s_checkpoint := default "" (as_str checkpoint);
        s_identity := identity; s_sequence := q; s_reason := as_str reason |}.

Definition snapshot_fields : list string :=
  ["schema_version"; "candidate_id"; "wave_id"; "node_id"; "generation"; "state"; "manifest_digest"; "authority_digest"; "checkpoint_digest"; "identity";
   "sequence"; "reason"].
Definition snapshot_to_document (s : CandidateSnapshot) : contract :=
  [("schema_version", JInt 1); ("candidate_id", JStr (s_candidate s)); ("wave_id", JStr (s_wave s)); ("node_id", JStr (s_node s));
   ("generation", JInt (s_generation s)); ("state", JStr (wave_value (s_state s))); ("manifest_digest", JStr (s_manifest s));
   ("authority_digest", JStr (s_authority s)); ("checkpoint_digest", JStr (s_checkpoint s)); ("identity", identity_document (s_identity s));
   ("sequence", JInt (s_sequence s)); ("reason", opt_str (s_reason s))].
Definition snapshot_from_document (value : contract) : result CandidateSnapshot :=
  require (forallb (fun k => mem k snapshot_fields) value.*1 && forallb (fun k => mem k value.*1) snapshot_fields
           && match get "schema_version" value with JInt 1 => true | _ => false end)
    CandidateStateError "candidate snapshot has an unknown shape" ;?
  require (match get "identity" value with JNull | JObj _ => true | _ => false end) CandidateStateError "candidate identity is malformed" ;?
  wrap [KeyError; TypeError; ValueError; ContractViolation] CandidateStateError "candidate snapshot is invalid"
    (let? identity := match get "identity" value with JObj item => let? i := identity_from_document item in Ok (Some i) | _ => Ok None end in
     let? state := wave_state_of (get "state" value) in
     snapshot_of (get "candidate_id" value) (get "wave_id" value) (get "node_id" value) (get "generation" value) state (get "manifest_digest" value)
       (get "authority_digest" value) (get "checkpoint_digest" value) identity (get "sequence" value) (get "reason" value)).

(** ** The journal *)

Record candidate_row := {
  r_candidate : string;
  r_sequence : Z;
  r_key : string;
  r_payload : string;
  r_previous : option string;
  r_event : string }.
Notation journal := (list candidate_row).

(** The triggers of the table. *)
Definition update_candidate_events : M journal unit := fail IntegrityError "candidate history is append-only".
Definition delete_candidate_events : M journal unit := fail IntegrityError "candidate history is append-only".

Definition _rows (candidate_id : option string) (j : journal) : list candidate_row :=
  match candidate_id with
  | Some c => List.filter (fun r => String.eqb (r_candidate r) c) j
  | None => j
  end.

Definition _decode (r : candidate_row) : result CandidateSnapshot :=
  let? value := wrap [ValueError; ContractViolation] CandidateStateError "candidate history contains invalid JSON" (strict_text (r_payload r)) in
  let? s := snapshot_from_document value in
  require (String.eqb (s_candidate s) (r_candidate r) && (s_sequence s =? r_sequence r)) CandidateStateError
    "candidate history index disagrees with payload" ;?
  Ok s.

Definition event_digest_of (previous : option string) (s : CandidateSnapshot) : string :=
  canonical_digest (JObj [("previous_digest", opt_str previous); ("snapshot", JObj (snapshot_to_document s))]).
Definition payload_of (s : CandidateSnapshot) : string := canonical_bytes (JObj (snapshot_to_document s)).

(** The three dictionaries of [verify]. *)
Record chains := { previous_of : gmap string string; expected_of : gmap string Z; latest_of : gmap string CandidateSnapshot }.

(** The immutable bindings of a candidate. *)
Definition bindings (s : CandidateSnapshot) : list string * Z :=
  ([s_candidate s; s_wave s; s_node s; s_manifest s; s_authority s], s_generation s).

Definition check_successor (prior : option CandidateSnapshot) (s : CandidateSnapshot) : result unit :=
  match prior with
  | None => require (bool_decide (s_state s = CHECKPOINTED) && bool_decide (s_identity s = None)) CandidateStateError
              "candidate history must begin at CHECKPOINTED"
  | Some p =>
      let? legal := may_move (s_state p) (s_state s) in
      require legal CandidateStateError "candidate history contains an invalid transition" ;?
      require (bool_decide (bindings s = bindings p)) CandidateStateError "candidate history changed immutable bindings" ;?
      require (bool_decide (s_identity p = None) || bool_decide (s_identity s = s_identity p)) CandidateStateError
        "candidate history changed sealed identity"
  end.
Definition verify_row (st : chains) (r : candidate_row) : result chains :=
  let? s := _decode r in
  let c := s_candidate s in
  let expected := default 1 (expected_of st !! c) in
  require (s_sequence s =? expected) CandidateStateError "candidate history sequence is discontinuous" ;?
  let prior := previous_of st !! c in
  require (bool_decide (r_previous r = prior)) CandidateStateError "candidate history hash chain is broken" ;?
  require (String.eqb (r_payload r) (payload_of s)) CandidateStateError "candidate history payload is not canonical" ;?
  require (String.eqb (r_event r) (event_digest_of prior s)) CandidateStateError "candidate history event digest is invalid" ;?
  check_successor (latest_of st !! c) s ;?
  Ok {| previous_of := <[c := event_digest_of prior s]> (previous_of st); expected_of := <[c := expected + 1]> (expected_of st);
        latest_of := <[c := s]> (latest_of st) |}.
Definition verify (j : journal) : result chains := rfold verify_row {| previous_of := ∅; expected_of := ∅; latest_of := ∅ |} j.
(** [CandidateStateJournal(path)] on an existing file *)
Definition open_journal (j : journal) : result unit := let? st := verify j in Ok tt.

Definition latest (candidate_id : string) (j : journal) : result (option CandidateSnapshot) :=
  _required (JStr candidate_id) "candidate_id" ;?
  match last (_rows (Some candidate_id) j) with
  | None => Ok None
  | Some r => let? st := verify j in let? s := _decode r in Ok (Some s)
  end.
Definition history (candidate_id : string) (j : journal) : result (list CandidateSnapshot) :=
  _required (JStr candidate_id) "candidate_id" ;?
  let? st := verify j in
  map_result _decode (_rows (Some candidate_id) j).

(** ** Appending *)

Definition row_by_key (key : string) (j : journal) : option candidate_row := List.find (fun r => String.eqb (r_key r) key) j.
(** [ORDER BY candidate_sequence DESC LIMIT 1] *)
Definition higher (best : option candidate_row) (r : candidate_row) : option candidate_row :=
  match best with Some b => if r_sequence b <? r_sequence r then Some r else best | None => Some r end.
Definition last_row (candidate_id : string) (j : journal) : option candidate_row := fold_left higher (_rows (Some candidate_id) j) None.

Definition insert_row (r : candidate_row) : M journal unit :=
  let* j := getM in
  guardM (negb (existsb (fun r' => String.eqb (r_key r') (r_key r) || String.eqb (r_event r') (r_event r)
                                   || String.eqb (r_candidate r') (r_candidate r) && (r_sequence r' =? r_sequence r)) j))
    IntegrityError "UNIQUE constraint failed: candidate_events" ;*
  putM (j ++ [r]).

Definition _append (s : CandidateSnapshot) (expected_sequence : Z) (key : string) : M journal CandidateSnapshot :=
  liftR (_required (JStr key) "idempotency_key") ;*
  let encoded := payload_of s in
  let* j := getM in
  match row_by_key key j with
  | Some retry =>
      let* existing := liftR (_decode retry) in
      guardM (String.eqb encoded (r_payload retry)) CandidateStateError "idempotency key is bound to another candidate transition" ;*
      ret existing
  | None =>
      let last := last_row (s_candidate s) j in
      guardM (match last with Some r => r_sequence r | None => 0 end =? expected_sequence) CandidateStateError "candidate compare-and-swap sequence failed" ;*
      guardM (s_sequence s =? expected_sequence + 1) CandidateStateError "candidate snapshot sequence is invalid" ;*
      let previous := option_map r_event last in
      insert_row {| r_candidate := s_candidate s; r_sequence := s_sequence s; r_key := key; r_payload := encoded; r_previous := previous;
                    r_event := event_digest_of previous s |} ;*
      ret s
  end.

Record checkpoint_call := {
  k_candidate : string; k_wave : string; k_node : string; k_generation : Z; k_manifest : string; k_authority : string; k_checkpoint : string; k_key : string }.
Definition checkpoint_snapshot (k : checkpoint_call) : result CandidateSnapshot :=
  snapshot_of (JStr (k_candidate k)) (JStr (k_wave k)) (JStr (k_node k)) (JInt (k_generation k)) CHECKPOINTED (JStr (k_manifest k)) (JStr (k_authority k))
    (JStr (k_checkpoint k)) None (JInt 1) JNull.
Definition checkpoint (k : checkpoint_call) : M journal CandidateSnapshot :=
  let* s := liftR (checkpoint_snapshot k) in
  _append s 0 (k_key k).

Record transition_call := {
  t_candidate : string; t_expected : Z; t_state : WaveState; t_key : string; t_identity : option CandidateIdentity; t_checkpoint : option string;
  t_reason : option string }.

(** What [transition] finds before it appends: the result of an earlier call, or
    the snapshot to append. *)
Inductive planned := Known (s : CandidateSnapshot) | New (s : CandidateSnapshot).
Definition same_call (t : transition_call) (existing : CandidateSnapshot) : bool :=
  String.eqb (s_candidate existing) (t_candidate t) && (s_sequence existing =? t_expected t + 1) && bool_decide (s_state existing = t_state t)
  && (bool_decide (t_identity t = None) || bool_decide (s_identity existing = t_identity t))
  && (bool_decide (t_checkpoint t = None) || bool_decide (Some (s_checkpoint existing) = t_checkpoint t))
  && bool_decide (s_reason existing = t_reason t).
Definition next_snapshot (current : CandidateSnapshot) (t : transition_call) : result CandidateSnapshot :=
  let? legal := may_move (s_state current) (t_state t) in
  require legal CandidateStateError ("candidate cannot transition from " +:+ wave_value (s_state current) +:+ " to " +:+ wave_value (t_state t))%stdpp ;?
  let exact_identity := match t_identity t with Some i => Some i | None => s_identity current end in
  require (bool_decide (s_identity current = None) || bool_decide (exact_identity = s_identity current)) CandidateStateError
    "sealed candidate identity is immutable" ;?
  require (negb (bool_decide (t_state t = CANDIDATE_SEALED)) || bool_decide (is_Some exact_identity)) CandidateStateError
    "candidate sealing requires an exact identity" ;?
  require (negb (bool_decide (s_state current ∈ _TERMINAL_STATES)) || bool_decide (t_state t = s_state current)) CandidateStateError
    "terminal candidate state is immutable" ;?
  let digest := match t_checkpoint t with Some d => if String.eqb d "" then s_checkpoint current else d | None => s_checkpoint current end in
  snapshot_of (JStr (s_candidate current)) (JStr (s_wave current)) (JStr (s_node current)) (JInt (s_generation current)) (t_state t)
    (JStr (s_manifest current)) (JStr (s_authority current)) (JStr digest) exact_identity (JInt (t_expected t + 1)) (opt_str (t_reason t)).
Definition plan_transition (t : transition_call) (j : journal) : result planned :=
  match row_by_key (t_key t) j with
  | Some retry =>
      let? existing := _decode retry in
      require (same_call t existing) CandidateStateError "idempotency key is bound to another candidate transition" ;?
      Ok (Known existing)
  | None =>
      let? current := latest (t_candidate t) j in
      match current with
      | None => broken "candidate has not been checkpointed"
      | Some current => let? s := next_snapshot current t in Ok (New s)
      end
  end.
Definition transition (t : transition_call) : M journal CandidateSnapshot :=
  let* j := getM in
  let* p := liftR (plan_transition t j) in
  match p with
  | Known s => ret s
  | New s => _append s (t_expected t) (t_key t)
  end.

(** ** Several processes *)

(** The journal file, and the transitions that have been planned but not
    written, by process. *)
Record system := { sys_journal : journal; sys_pending : gmap nat (CandidateSnapshot * Z * string) }.
Inductive step :=
| Checkpoint (k : checkpoint_call)
| Call (t : transition_call)
| Plan (process : nat) (t : transition_call)
| Write (process : nat).
Definition exec (s : system) (x : step) : system :=
  match x with
  | Checkpoint k => {| sys_journal := (checkpoint k (sys_journal s)).2; sys_pending := sys_pending s |}
  | Call t => {| sys_journal := (transition t (sys_journal s)).2; sys_pending := sys_pending s |}
  | Plan p t =>
      match plan_transition t (sys_journal s) with
      | Ok (New n) => {| sys_journal := sys_journal s; sys_pending := <[p := (n, t_expected t, t_key t)]> (sys_pending s) |}
      | _ => s
      end
  | Write p =>
      match sys_pending s !! p with
      | Some (n, e, k) => {| sys_journal := (_append n e k (sys_journal s)).2; sys_pending := delete p (sys_pending s) |}
      | None => s
      end
  end.
Definition run (xs : list step) (s : system) : system := fold_left exec xs s.
Definition nothing_written : system := {| sys_journal := []; sys_pending := ∅ |}.

(** ** Snapshots and their documents *)

Definition rebuilt_snapshot (s : CandidateSnapshot) : result CandidateSnapshot :=
  snapshot_of (JStr (s_candidate s)) (JStr (s_wave s)) (JStr (s_node s)) (JInt (s_generation s)) (s_state s) (JStr (s_manifest s)) (JStr (s_authority s))
    (JStr (s_checkpoint s)) (s_identity s) (JInt (s_sequence s)) (opt_str (s_reason s)).
(** A snapshot that its constructor has accepted. *)
Definition valid_snapshot (s : CandidateSnapshot) : Prop := rebuilt_snapshot s = Ok s /\ forall i, s_identity s = Some i -> valid_identity i.

Lemma required_str v label u : _required v label = Ok u -> exists s, v = JStr s.
Proof. unfold _required. intros H%require_ok. destruct v; try done. by eexists. Qed.
Lemma digest_str v label u : _digest v label = Ok u -> exists s, v = JStr s.
Proof. unfold _digest. intros H%require_ok. destruct v; try done. by eexists. Qed.
Lemma positive_ok v label n : positive v label = Ok n -> v = JInt n /\ 1 <= n.
Proof. unfold positive. destruct v; try done. intros H. take_guard H E. apply Z.leb_le in E. by injection H as ->. Qed.

Ltac snapshot_fields := cbn [s_candidate s_wave s_node s_generation s_state s_manifest s_authority s_checkpoint s_identity s_sequence s_reason].

(** What the constructor returns is valid and has the members it was given. *)
Lemma snapshot_of_ok c w n g state m a k identity q r s :
  snapshot_of c w n g state m a k identity q r = Ok s -> (forall i, identity = Some i -> valid_identity i) ->
  valid_snapshot s /\ s_state s = state /\ s_identity s = identity /\ c = JStr (s_candidate s) /\ w = JStr (s_wave s) /\ n = JStr (s_node s)
  /\ g = JInt (s_generation s) /\ m = JStr (s_manifest s) /\ a = JStr (s_authority s) /\ q = JInt (s_sequence s) /\ 1 <= s_sequence s.
Proof.
  intros H Hi. assert (H0 := H). unfold snapshot_of in H. take_ok H u1 E1. destruct (required_str _ _ _ E1) as [c' ->]. take_ok H u2 E2. destruct (required_str _ _ _ E2) as [w' ->].
  take_ok H u3 E3. destruct (required_str _ _ _ E3) as [n' ->]. take_ok H g' E4. destruct (positive_ok _ _ _ E4) as [-> _].
  take_ok H u5 E5. destruct (digest_str _ _ _ E5) as [m' ->]. take_ok H u6 E6. destruct (digest_str _ _ _ E6) as [a' ->].
  take_ok H u7 E7. destruct (digest_str _ _ _ E7) as [k' ->]. take_ok H q' E8. destruct (positive_ok _ _ _ E8) as [-> Hq]. take_ok H u9 E9. take_ok H u10 E10.
  assert (Er : r = opt_str (as_str r)) by (destruct r; try done; by apply required_str in E10 as [? ?]).
  take_ok H u11 E11. injection H as <-. snapshot_fields. cbn [default as_str]. split; [|by split_and!]. split; [|exact Hi].
  unfold rebuilt_snapshot. snapshot_fields. cbn [default as_str]. by rewrite <- Er.
Qed.

Lemma snapshot_back s o : valid_snapshot s -> norm (JObj (snapshot_to_document s)) = JObj o -> snapshot_from_document o = Ok s.
Proof.
  intros [Hr Hi] E. stored (snapshot_to_document s) Hn E Hg Hk. unfold snapshot_from_document.
  assert (Hc := closed_stored _ _ snapshot_fields "" Hk eq_refl). apply require_ok in Hc. rewrite Hc. rewrite !Hg.
  change (norm (get "schema_version" (snapshot_to_document s))) with (JInt 1).
  change (norm (get "identity" (snapshot_to_document s))) with (norm (identity_document (s_identity s))).
  assert (Ei : (match norm (identity_document (s_identity s)) with JNull | JObj _ => true | _ => false end = true)
               /\ match norm (identity_document (s_identity s)) with
                  | JObj item => let? i := identity_from_document item in Ok (Some i) | _ => Ok None end = Ok (s_identity s)).
  { destruct (s_identity s) as [i|]; [|done]. cbn [identity_document]. destruct (norm_obj_members (identity_to_document i)) as (oi & Eoi & _).
    split; [by rewrite Eoi|]. by rewrite Eoi, (identity_back i oi (Hi i eq_refl) Eoi). }
  destruct Ei as [Ei1 Ei2]. rewrite Ei1, Ei2. cbn [andb require rbind].
  change (norm (get "state" (snapshot_to_document s))) with (JStr (wave_value (s_state s))). rewrite wave_state_back. cbn [rbind].
  change (norm (get "reason" (snapshot_to_document s))) with (norm (opt_str (s_reason s))). rewrite norm_opt_str. unfold rebuilt_snapshot in Hr.
  match goal with |- wrap _ _ _ ?r = _ => change r with (rebuilt_snapshot s) end. unfold rebuilt_snapshot. by rewrite Hr.
Qed.

Lemma identity_shape i : json_wf (JObj (identity_to_document i)) = true /\ _json_depth (JObj (identity_to_document i)) = 2.
Proof. split; [|done]. cbn [json_wf identity_to_document]. vm_compute. reflexivity. Qed.
Lemma snapshot_shape s : json_wf (JObj (snapshot_to_document s)) = true /\ _json_depth (JObj (snapshot_to_document s)) <= 3.
Proof.
  unfold snapshot_to_document. split.
  - apply object_wf; [apply (bool_decide_unpack (NoDup snapshot_fields)); vm_compute; exact I|].
    intros k v Hin. repeat (apply elem_of_cons in Hin as [[= -> ->]|Hin]; [try done; try (by destruct (s_reason s))|]); [|by apply not_elem_of_nil in Hin].
    destruct (s_identity s) as [i|]; [apply identity_shape|done].
  - destruct (s_identity s), (s_reason s); done.
Qed.

(** A snapshot whose payload can be read again. *)
Definition fits (s : CandidateSnapshot) : Prop := Z.of_nat (String.length (payload_of s)) <= DEFAULT_MAXIMUM_JSON_BYTES.

Lemma decode_fresh s key previous event : valid_snapshot s -> fits s ->
  _decode {| r_candidate := s_candidate s; r_sequence := s_sequence s; r_key := key; r_payload := payload_of s; r_previous := previous; r_event := event |} = Ok s.
Proof.
  intros Hv Hf. unfold _decode. cbn [r_payload r_candidate r_sequence]. destruct (snapshot_shape s) as [Hw Hd].
  destruct (strict_text_canonical (snapshot_to_document s) Hw) as (o & Ho & Hs); [unfold DEFAULT_MAXIMUM_JSON_DEPTH; lia|exact Hf|].
  unfold payload_of. rewrite Hs. cbn [wrap rbind]. rewrite (snapshot_back s o Hv Ho). cbn [rbind]. by rewrite String.eqb_refl, Z.eqb_refl.
Qed.

Lemma identity_from_ok item i : identity_from_document item = Ok i -> valid_identity i.
Proof.
  unfold identity_from_document. intros H. take_ok H u E. clear E. revert H. generalize (get "commit" item) (get "tree" item) (get "subject_id" item).
  intros c t s H. assert (H0 := H). unfold identity_of in H. take_ok H a Ea. take_ok H b Eb. take_guard H Ec. take_ok H u' Ed. injection H as <-.
  assert (Hc : exists c', c = JStr c') by (destruct c; try done; by eexists). destruct Hc as [c' ->].
  destruct a; [|by injection Eb as <-]. assert (Ht : exists t', t = JStr t') by (destruct t; try done; by eexists). destruct Ht as [t' ->].
  destruct (require_digest_str _ _ _ Ed) as [s' ->]. exact H0.
Qed.

(** What is decoded was constructed. *)
Lemma decode_ok r s : _decode r = Ok s -> valid_snapshot s /\ s_candidate s = r_candidate r /\ s_sequence s = r_sequence r.
Proof.
  unfold _decode. intros H. take_ok H v E1. take_ok H s' E2. take_guard H E3. injection H as ->. rewrite andb_true_iff in E3. destruct E3 as [Ec Eq].
  apply String.eqb_eq in Ec. apply Z.eqb_eq in Eq. split; [|done]. unfold snapshot_from_document in E2. take_ok E2 u1 Ea. take_ok E2 u2 Eb.
  apply wrap_ok in E2. take_ok E2 idn Ei. take_ok E2 st Est. eapply snapshot_of_ok; [exact E2|]. intros i Hi. rewrite Hi in Ei.
  destruct (get "identity" v) as [| | | | |item]; try done. take_ok Ei j Ej. injection Ei as <-. by eapply identity_from_ok.
Qed.

(** ** What [verify] accepts *)

Notation rows_of c j := (_rows (Some c) j).

Lemma rows_snoc c j r : rows_of c (j ++ [r]) = rows_of c j ++ (if String.eqb (r_candidate r) c then [r] else []).
Proof. unfold _rows. rewrite List.filter_app. cbn [List.filter]. by destruct (String.eqb _ _). Qed.
Lemma rows_app c j j' : rows_of c (j ++ j') = rows_of c j ++ rows_of c j'.
Proof. apply List.filter_app. Qed.

(** A snapshot that may come after the snapshots [h] of a candidate. *)
Record comes_after (c : string) (h : list CandidateSnapshot) (s : CandidateSnapshot) : Prop := {
  ca_valid : valid_snapshot s;
  ca_candidate : s_candidate s = c;
  ca_sequence : s_sequence s = Z.of_nat (length h) + 1;
  ca_legal : check_successor (last h) s = Ok tt }.
Inductive lifecycle (c : string) : list CandidateSnapshot -> Prop :=
| life_nil : lifecycle c []
| life_snoc h s : lifecycle c h -> comes_after c h s -> lifecycle c (h ++ [s]).

(** What the dictionaries of [verify] hold about one candidate. *)
Record tracked (j : journal) (st : chains) (c : string) (h : list CandidateSnapshot) : Prop := {
  tr_decoded : map_result _decode (rows_of c j) = Ok h;
  tr_lifecycle : lifecycle c h;
  tr_numbers : forall i r, rows_of c j !! i = Some r -> r_sequence r = Z.of_nat i + 1;
  tr_previous : previous_of st !! c = option_map r_event (last (rows_of c j));
  tr_expected : default 1 (expected_of st !! c) = Z.of_nat (length h) + 1;
  tr_latest : latest_of st !! c = last h }.

Lemma verify_snoc j r st' : verify (j ++ [r]) = Ok st' <-> exists st, verify j = Ok st /\ verify_row st r = Ok st'.
Proof.
  unfold verify. rewrite rfold_app, rbind_ok. split; intros (st & H1 & H2); exists st; (split; [exact H1|]).
  - cbn [rfold] in H2. destruct (verify_row st r); [exact H2|done].
  - cbn [rfold]. by rewrite H2.
Qed.

(** One more row is accepted when it is the link the chain asks for. *)
Lemma verify_row_ok st r st' : verify_row st r = Ok st' <->
  exists s, _decode r = Ok s /\ s_sequence s = default 1 (expected_of st !! s_candidate s) /\ r_previous r = previous_of st !! s_candidate s
    /\ r_payload r = payload_of s /\ r_event r = event_digest_of (r_previous r) s /\ check_successor (latest_of st !! s_candidate s) s = Ok tt
    /\ st' = {| previous_of := <[s_candidate s := r_event r]> (previous_of st);
                expected_of := <[s_candidate s := default 1 (expected_of st !! s_candidate s) + 1]> (expected_of st);
                latest_of := <[s_candidate s := s]> (latest_of st) |}.
Proof.
  unfold verify_row. split.
  - intros H. take_ok H s E1. take_guard H E2. take_guard H E3. take_guard H E4. take_guard H E5. take_ok H u E6. destruct u. injection H as <-.
    apply Z.eqb_eq in E2. apply bool_decide_eq_true in E3. apply String.eqb_eq in E4, E5. exists s. rewrite E5, E3. by split_and!.
  - intros (s & E1 & E2 & E3 & E4 & E5 & E6 & ->). rewrite E1. cbn [rbind]. rewrite E2, Z.eqb_refl. cbn [require rbind]. rewrite bool_decide_eq_true_2 by done.
    cbn [require rbind]. rewrite E4, String.eqb_refl. cbn [require rbind]. rewrite E5, E3, String.eqb_refl. cbn [require rbind]. by rewrite E6.
Qed.

Lemma verify_tracks j st c : verify j = Ok st -> exists h, tracked j st c h.
Proof.
  revert st. induction j as [|r j IH] using rev_ind; intros st' H.
  - injection H as <-. exists []. constructor; try done. constructor.
  - apply verify_snoc in H as (st & Hj & H). apply verify_row_ok in H as (s & Hd & Hq & Hp & _ & _ & Hl & ->).
    destruct (IH _ Hj) as (h & T). destruct (decode_ok _ _ Hd) as (Hv & Hc & Hs). destruct (decide (r_candidate r = c)) as [E|E].
    + rewrite Hc, E in *. rewrite (tr_expected _ _ _ _ T) in Hq. rewrite (tr_latest _ _ _ _ T) in Hl. assert (Hn := map_result_length _ _ _ (tr_decoded _ _ _ _ T)).
      exists (h ++ [s]). constructor; cbn [previous_of expected_of latest_of]; rewrite ?rows_snoc, ?E, ?String.eqb_refl, ?lookup_insert_eq, ?last_snoc; try done.
      * apply map_result_app; [apply T|]. cbn [map_result]. by rewrite Hd.
      * constructor; [apply T|]. by constructor.
      * intros i x Hx. apply lookup_snoc_Some in Hx as [[_ Hx]|[-> <-]]; [by apply (tr_numbers _ _ _ _ T)|]. by rewrite <- Hn, <- Hs.
      * rewrite length_app, (tr_expected _ _ _ _ T). cbn. lia.
    + exists h. rewrite Hc. constructor; cbn [previous_of expected_of latest_of]; rewrite ?rows_snoc, ?(proj2 (String.eqb_neq _ _) E), ?app_nil_r, ?lookup_insert_ne by done; apply T.
Qed.

(** The row with the highest number of a candidate is its last one. *)
Lemma last_row_last c j : (forall i r, rows_of c j !! i = Some r -> r_sequence r = Z.of_nat i + 1) -> last_row c j = last (rows_of c j).
Proof.
  unfold last_row. generalize (rows_of c j). intros l. induction l as [|r l IH] using rev_ind; intros H; [done|].
  rewrite fold_left_app, last_snoc. cbn [fold_left]. rewrite IH by (intros i x Hx; apply H; by apply lookup_app_l_Some).
  destruct (last l) as [b|] eqn:E; [|done]. cbn [higher]. apply last_Some in E as [l' ->].
  assert (Hr : r_sequence r = Z.of_nat (length (l' ++ [b])) + 1) by (apply H; by rewrite lookup_app_r, Nat.sub_diag by lia).
  assert (Hb : r_sequence b = Z.of_nat (length l') + 1) by (apply H; rewrite <- (assoc_L (++)); by rewrite lookup_app_r, Nat.sub_diag by lia).
  rewrite length_app in Hr. cbn in Hr. by rewrite (proj2 (Z.ltb_lt _ _)) by lia.
Qed.

(** ** Appending keeps the journal verified *)

Definition row_of (n : CandidateSnapshot) (key : string) (j : journal) : candidate_row :=
  {| r_candidate := s_candidate n; r_sequence := s_sequence n; r_key := key; r_payload := payload_of n;
     r_previous := option_map r_event (last_row (s_candidate n) j); r_event := event_digest_of (option_map r_event (last_row (s_candidate n) j)) n |}.

(** An append writes the row of its snapshot or nothing. *)
Lemma append_writes n e key j r j' : _append n e key j = (r, j') ->
  j' = j \/ (j' = j ++ [row_of n key j] /\ r = Ok n /\ row_by_key key j = None
             /\ match last_row (s_candidate n) j with Some b => r_sequence b | None => 0 end = e /\ s_sequence n = e + 1).
Proof.
  unfold _append. rewrite run_lift. destruct (_required _ _); [|by intros [= _ <-]; left]. rewrite run_get.
  destruct (row_by_key key j) as [x|].
  - rewrite run_lift. destruct (_decode x); [|by intros [= _ <-]; left]. rewrite run_guard. destruct (String.eqb _ _); by intros [= _ <-]; left.
  - rewrite run_guard. destruct (_ =? e) eqn:E1; [|by intros [= _ <-]; left]. rewrite run_guard.
    destruct (s_sequence n =? e + 1) eqn:E2; [|by intros [= _ <-]; left]. apply Z.eqb_eq in E1, E2.
    rewrite run_bind. unfold insert_row. rewrite run_get, run_guard. destruct (negb _); [|by intros [= _ <-]; left].
    intros [= <- <-]. right. by split_and!.
Qed.

(** A snapshot that may follow the last one of its candidate. *)
Definition ready (j : journal) (st : chains) (n : CandidateSnapshot) : Prop :=
  valid_snapshot n /\ fits n /\ check_successor (latest_of st !! s_candidate n) n = Ok tt
  /\ s_sequence n = match last_row (s_candidate n) j with Some b => r_sequence b | None => 0 end + 1.

Lemma expected_next j st c h : tracked j st c h ->
  default 1 (expected_of st !! c) = match last_row c j with Some b => r_sequence b | None => 0 end + 1.
Proof.
  intros T. rewrite (tr_expected _ _ _ _ T), (last_row_last _ _ (tr_numbers _ _ _ _ T)), (map_result_length _ _ _ (tr_decoded _ _ _ _ T)).
  assert (H := tr_numbers _ _ _ _ T). destruct (last (rows_of c j)) as [b|] eqn:E.
  - apply last_Some in E as [l E]. rewrite E in *. rewrite (H (length l) b) by (by rewrite lookup_app_r, Nat.sub_diag by lia). rewrite length_app. cbn. lia.
  - apply last_None in E as ->. done.
Qed.

Lemma ready_row_accepted j st n key : verify j = Ok st -> ready j st n -> exists st', verify (j ++ [row_of n key j]) = Ok st'.
Proof.
  intros Hj (Hv & Hf & Hl & Hs). destruct (verify_tracks j st (s_candidate n) Hj) as (h & T). eexists. apply verify_snoc. exists st. split; [done|].
  apply verify_row_ok. exists n. split; [apply decode_fresh; done|]. cbn [row_of r_previous r_payload r_event]. split_and!; try done.
  - by rewrite (expected_next _ _ _ _ T), Hs.
  - by rewrite (tr_previous _ _ _ _ T), (last_row_last _ _ (tr_numbers _ _ _ _ T)).
Qed.

(** *** What the callers append *)

Lemma checkpoint_snapshot_ok k n : checkpoint_snapshot k = Ok n ->
  valid_snapshot n /\ s_state n = CHECKPOINTED /\ s_identity n = None /\ s_sequence n = 1.
Proof.
  unfold checkpoint_snapshot. intros H. apply snapshot_of_ok in H as (Hv & Hs & Hi & _ & _ & _ & _ & _ & _ & Hq & _); [|done].
  split_and!; try done. by injection Hq.
Qed.

(** A planned snapshot is a legal successor of the snapshot it was planned from. *)
Lemma next_snapshot_ok p t n : next_snapshot p t = Ok n -> (forall i, t_identity t = Some i -> valid_identity i) -> valid_snapshot p ->
  valid_snapshot n /\ check_successor (Some p) n = Ok tt /\ s_candidate n = s_candidate p /\ s_sequence n = t_expected t + 1.
Proof.
  intros H Ht [_ Hp]. unfold next_snapshot in H. take_ok H legal El. take_guard H E1. take_guard H E2. take_guard H E3. take_guard H E4.
  apply snapshot_of_ok in H as (Hv & Hs & Hi & Hc & Hw & Hn & Hg & Hm & Ha & Hq & _); [|intros i; destruct (t_identity t) as [x|]; [intros [= <-]; by apply Ht|apply Hp]].
  injection Hc as Hc. injection Hw as Hw. injection Hn as Hn. injection Hg as Hg. injection Hm as Hm. injection Ha as Ha. injection Hq as Hq.
  split_and!; try done. unfold check_successor. rewrite Hs, El. cbn [rbind]. rewrite E1. cbn [require rbind]. unfold bindings. rewrite Hc, Hw, Hn, Hg, Hm, Ha.
  rewrite bool_decide_eq_true_2 by done. cbn [require rbind]. rewrite Hi. by rewrite E2.
Qed.

Lemma map_result_snoc_inv {A B} (f : A -> result B) l x ys : map_result f (l ++ [x]) = Ok ys ->
  exists zs y, ys = zs ++ [y] /\ map_result f l = Ok zs /\ f x = Ok y.
Proof.
  revert ys. induction l as [|a l IH]; intros ys H; cbn [map_result app] in H; take_ok H b E; take_ok H bs Es; injection H as <-.
  - injection Es as <-. by exists [], b.
  - destruct (IH _ Es) as (zs & y & -> & Hl & Hx). exists (b :: zs), y. cbn [map_result]. by rewrite E, Hl.
Qed.

Lemma latest_verified c j p : latest c j = Ok (Some p) -> exists st, verify j = Ok st /\ latest_of st !! c = Some p.
Proof.
  unfold latest. intros H. take_ok H u E. destruct (last (rows_of c j)) as [r|] eqn:Er; [|done]. take_ok H st Hst. take_ok H s Es. injection H as <-.
  exists st. split; [done|]. destruct (verify_tracks j st c Hst) as (h & T). rewrite (tr_latest _ _ _ _ T). apply last_Some in Er as [l El].
  assert (Hd := tr_decoded _ _ _ _ T). rewrite El in Hd. apply map_result_snoc_inv in Hd as (zs & y & -> & _ & Hy). rewrite last_snoc. congruence.
Qed.

Lemma latest_complete j st c p : verify j = Ok st -> latest_of st !! c = Some p -> is_blank c = false -> latest c j = Ok (Some p).
Proof.
  intros Hst Hl Hc. unfold latest. assert (Er : _required (JStr c) "candidate_id" = Ok tt) by (unfold _required; by rewrite Hc).
  rewrite Er. cbn [rbind]. destruct (verify_tracks j st c Hst) as (h & T). rewrite (tr_latest _ _ _ _ T) in Hl.
  assert (Hd := tr_decoded _ _ _ _ T). destruct (last (rows_of c j)) as [r|] eqn:E.
  - apply last_Some in E as [l E]. rewrite E in Hd. apply map_result_snoc_inv in Hd as (zs & y & -> & _ & Hy). rewrite last_snoc in Hl.
    rewrite Hst, Hy. cbn [rbind]. congruence.
  - apply last_None in E. rewrite E in Hd. injection Hd as <-. done.
Qed.

(** The number of the last row of a candidate counts its snapshots. *)
Lemma count_rows j st c h : tracked j st c h -> match last_row c j with Some b => r_sequence b | None => 0 end = Z.of_nat (length h).
Proof. intros T. assert (H := expected_next _ _ _ _ T). rewrite (tr_expected _ _ _ _ T) in H. lia. Qed.
Lemma lifecycle_last c h p : lifecycle c h -> last h = Some p -> valid_snapshot p /\ s_candidate p = c /\ s_sequence p = Z.of_nat (length h).
Proof.
  intros [|h' s _ Hs] E; [done|]. rewrite last_snoc in E. injection E as ->. destruct Hs as [Hv Hc Hq _]. split_and!; try done. rewrite length_app. cbn. lia.
Qed.

(** A snapshot planned as the successor of [p], the latest one of its candidate
    in an earlier state of the journal. *)
Definition planned_on (j : journal) (n p : CandidateSnapshot) : Prop :=
  exists j0 st0, j0 `prefix_of` j /\ verify j0 = Ok st0 /\ latest_of st0 !! s_candidate n = Some p /\ check_successor (Some p) n = Ok tt.
(** The first half of a transition has been done, and its second half will write
    [n] if the sequence of the candidate is then [e]. *)
Definition promised (j : journal) (n : CandidateSnapshot) (e : Z) : Prop :=
  valid_snapshot n /\ s_sequence n = e + 1 /\ exists p, planned_on j n p.

Lemma planned_extends j j' n p : planned_on j n p -> j `prefix_of` j' -> planned_on j' n p.
Proof. intros (j0 & st0 & Hp & ?) Hj. exists j0, st0. split; [by etrans|done]. Qed.
Lemma promised_extends j j' n e : promised j n e -> j `prefix_of` j' -> promised j' n e.
Proof. intros (? & ? & p & Hp) Hj. split_and!; try done. exists p. by eapply planned_extends. Qed.

(** The compare-and-swap on the sequence makes the plan still right, when the
    caller named the sequence that it had read. *)
Lemma planned_ready j st n p : valid_snapshot n -> fits n -> planned_on j n p -> s_sequence n = s_sequence p + 1 -> verify j = Ok st ->
  s_sequence n = match last_row (s_candidate n) j with Some b => r_sequence b | None => 0 end + 1 -> ready j st n.
Proof.
  intros Hv Hf (j0 & st0 & [rest ->] & H0 & Hl & Hc) Hp Hj He. split; [done|]. split; [done|]. split; [|done].
  destruct (verify_tracks _ _ (s_candidate n) H0) as (h0 & T0). destruct (verify_tracks _ _ (s_candidate n) Hj) as (h & T).
  rewrite (tr_latest _ _ _ _ T0) in Hl. destruct (lifecycle_last _ _ _ (tr_lifecycle _ _ _ _ T0) Hl) as (_ & _ & Hn).
  rewrite (count_rows _ _ _ _ T) in He. assert (Hlen : length h = length h0) by lia.
  rewrite (map_result_length _ _ _ (tr_decoded _ _ _ _ T)), (map_result_length _ _ _ (tr_decoded _ _ _ _ T0)), rows_app, length_app in Hlen.
  assert (Hr : rows_of (s_candidate n) rest = []) by (apply length_zero_iff_nil; lia).
  assert (Hd := tr_decoded _ _ _ _ T). rewrite rows_app, Hr, app_nil_r, (tr_decoded _ _ _ _ T0) in Hd. injection Hd as <-.
  by rewrite (tr_latest _ _ _ _ T), Hl.
Qed.

(** What the calls that write are given: identities that were constructed. *)
Definition well_typed (t : transition_call) : Prop := forall i, t_identity t = Some i -> valid_identity i.
Definition typed_step (x : step) : Prop :=
  match x with Call t | Plan _ t => well_typed t | Checkpoint _ | Write _ => True end.
Inductive reachable : system -> Prop :=
| reach_start : reachable nothing_written
| reach_step s x : reachable s -> typed_step x -> reachable (exec s x).

Lemma plan_new t j n : plan_transition t j = Ok (New n) -> well_typed t ->
  exists st p, verify j = Ok st /\ latest (t_candidate t) j = Ok (Some p) /\ latest_of st !! s_candidate n = Some p /\ valid_snapshot n
    /\ check_successor (Some p) n = Ok tt /\ s_sequence n = t_expected t + 1 /\ s_candidate n = t_candidate t.
Proof.
  unfold plan_transition. intros H Ht. destruct (row_by_key (t_key t) j) as [r|].
  { take_ok H x E. take_guard H E'. done. }
  take_ok H current El. destruct current as [p|]; [|done]. take_ok H s Es. injection H as ->. destruct (latest_verified _ _ _ El) as (st & Hst & Hl).
  destruct (verify_tracks j st (t_candidate t) Hst) as (h & T). assert (Hh := Hl). rewrite (tr_latest _ _ _ _ T) in Hh.
  destruct (lifecycle_last _ _ _ (tr_lifecycle _ _ _ _ T) Hh) as (Hv & Hc & _). destruct (next_snapshot_ok _ _ _ Es Ht Hv) as (Hn & Hs & Hcn & Hq).
  exists st, p. split_and!; try done; congruence.
Qed.

(** The two ways a row that no reader accepts gets behind a verified journal: its
    snapshot is longer than a reader takes, or it was planned for a sequence that
    is not the one after the snapshot it was planned on. *)
Definition poisoned (j : journal) (n : CandidateSnapshot) : Prop :=
  ~ fits n \/ exists p, planned_on j n p /\ s_sequence n <> s_sequence p + 1.
(** The journal cannot be opened from the row of such a snapshot on. *)
Definition spoiled (j : journal) : Prop :=
  exists j1 n key j2 st1 e, j = j1 ++ row_of n key j1 :: j2 /\ verify j1 = Ok st1 /\ verify (j1 ++ [row_of n key j1]) = Raise e /\ poisoned j1 n.

(** The journal is verified or spoiled, and every pending snapshot promised. *)
Definition sound (s : system) : Prop :=
  ((exists st, verify (sys_journal s) = Ok st) \/ spoiled (sys_journal s))
  /\ map_Forall (fun _ w => promised (sys_journal s) w.1.1 w.1.2) (sys_pending s).

Lemma spoiled_extends j j' : spoiled j -> j `prefix_of` j' -> spoiled j'.
Proof.
  intros (j1 & n & key & j2 & st1 & e & -> & H) [rest ->]. exists j1, n, key, (j2 ++ rest), st1, e. split; [|done].
  by rewrite <- (assoc_L (++)).
Qed.

Lemma verify_stops j j' e : verify j = Raise e -> verify (j ++ j') = Raise e.
Proof. unfold verify. intros H. rewrite rfold_app, H. done. Qed.

Lemma spoiled_unreadable j : spoiled j -> exists e, verify j = Raise e.
Proof.
  intros (j1 & n & key & j2 & st1 & e & -> & _ & H & _). exists e. rewrite (cons_middle _ j1 j2), (assoc_L (++)). by apply verify_stops.
Qed.

(** A write either is one the journal was ready for or poisons it. *)
Lemma append_kept n e key j r j' : (exists st, verify j = Ok st) \/ spoiled j -> _append n e key j = (r, j') ->
  (forall st, verify j = Ok st -> s_sequence n = match last_row (s_candidate n) j with Some b => r_sequence b | None => 0 end + 1 ->
     ready j st n \/ poisoned j n) ->
  j `prefix_of` j' /\ ((exists st, verify j' = Ok st) \/ spoiled j').
Proof.
  intros Hj Ha Hr. destruct (append_writes _ _ _ _ _ _ Ha) as [->|(-> & _ & _ & E2 & E3)]; [done|]. split; [by eexists|].
  destruct Hj as [[st Hst]|Hs]; [|right; by eapply spoiled_extends; [exact Hs|eexists]].
  destruct (verify (j ++ [row_of n key j])) as [st'|x] eqn:Ev; [left; by exists st'|right].
  destruct (Hr st Hst) as [H|H]; [by rewrite E2|destruct (ready_row_accepted j st n key Hst H) as [st' Hx]; congruence|].
  by exists j, n, key, [], st, x.
Qed.

Lemma sound_grows j pending j' : sound {| sys_journal := j; sys_pending := pending |} ->
  j `prefix_of` j' /\ ((exists st, verify j' = Ok st) \/ spoiled j') -> sound {| sys_journal := j'; sys_pending := pending |}.
Proof. intros [_ Hp] [Hj Hv]. split; [done|]. intros i w Hw. eapply promised_extends; [exact (Hp i w Hw)|exact Hj]. Qed.

(** A snapshot planned on [p] is ready or poisons the journal. *)
Lemma planned_outcome j st n p : valid_snapshot n -> planned_on j n p -> verify j = Ok st ->
  s_sequence n = match last_row (s_candidate n) j with Some b => r_sequence b | None => 0 end + 1 -> ready j st n \/ poisoned j n.
Proof.
  intros Hv Hp Hj He. destruct (decide (fits n)) as [Hf|Hf]; [|right; by left].
  destruct (decide (s_sequence n = s_sequence p + 1)) as [E|E]; [|right; right; by exists p]. left. by eapply planned_ready.
Qed.

Lemma exec_sound s x : sound s -> typed_step x -> sound (exec s x).
Proof.
  destruct s as [j pending]. intros Hs Hx. assert (Hs' := Hs). destruct Hs' as [Hj Hp].
  destruct x as [k|t|p t|p]; cbn [exec typed_step sys_journal sys_pending] in *.
  - eapply sound_grows; [exact Hs|]. unfold checkpoint. rewrite run_lift. destruct (checkpoint_snapshot k) as [n|e] eqn:En; [|done].
    destruct (_append n 0 (k_key k) j) as [r j'] eqn:Ea. cbn [snd]. eapply append_kept; [exact Hj|exact Ea|]. intros st Hst He.
    destruct (checkpoint_snapshot_ok _ _ En) as (Hv & Hs1 & Hi & Hq1). destruct (verify_tracks j st (s_candidate n) Hst) as (h & T).
    destruct (decide (fits n)) as [Hf|Hf]; [left|right; by left]. split; [done|]. split; [done|]. split; [|done].
    rewrite (count_rows _ _ _ _ T) in He. rewrite (tr_latest _ _ _ _ T).
    destruct h; [|cbn in He; lia]. cbn [last check_successor]. by rewrite Hs1, Hi.
  - eapply sound_grows; [exact Hs|]. unfold transition. rewrite run_get, run_lift.
    destruct (plan_transition t j) as [[s|n]|e] eqn:En; [done| |done].
    destruct (_append n (t_expected t) (t_key t) j) as [r j'] eqn:Ea. cbn [snd]. eapply append_kept; [exact Hj|exact Ea|]. intros st Hst He.
    destruct (plan_new _ _ _ En Hx) as (st' & p & Hst' & _ & Hl & Hv & Hc & _ & _). eapply planned_outcome; [done| |done..].
    by exists j, st'.
  - destruct (plan_transition t j) as [[s|n]|e] eqn:En; [done| |done].
    destruct (plan_new _ _ _ En Hx) as (st' & q & Hst' & _ & Hlq & Hv & Hc & Hq & _). split; [done|]. cbn [sys_pending].
    apply map_Forall_insert_2; [|exact Hp]. cbn [fst snd sys_journal]. split; [done|]. split; [done|]. exists q. by exists j, st'.
  - destruct (pending !! p) as [[[n e] k]|] eqn:Ep; [|done]. assert (Hn := Hp _ _ Ep). cbn [fst snd] in Hn. destruct Hn as (Hv & _ & q & Hq).
    apply (sound_grows j); [split; [done|]; by apply map_Forall_delete|]. destruct (_append n e k j) as [r j'] eqn:Ea. cbn [snd].
    eapply append_kept; [exact Hj|exact Ea|]. intros st Hst He. by eapply planned_outcome.
Qed.

Lemma reachable_sound s : reachable s -> sound s.
Proof.
  induction 1 as [|s x _ IH Hx]; [|by apply exec_sound]. split; [left; by eexists|]. apply map_Forall_empty.
Qed.

(** ** The history of a candidate *)

(** The lifecycle of one candidate, in terms of its snapshots: numbered from 1,
    begun at an unsealed checkpoint, moved along the table, with fixed bindings, an
    identity that never changes once it is set, and final states that stay. *)
Record legal_history (c : string) (h : list CandidateSnapshot) : Prop := {
  lh_numbers : forall i s, h !! i = Some s -> s_candidate s = c /\ s_sequence s = Z.of_nat i + 1 /\ valid_snapshot s;
  lh_start : forall s, head h = Some s -> s_state s = CHECKPOINTED /\ s_identity s = None;
  lh_moves : forall i p s, h !! i = Some p -> h !! S i = Some s -> s_state s ∈ _TRANSITIONS (s_state p);
  lh_stable : forall i k p s, (i <= k)%nat -> h !! i = Some p -> h !! k = Some s ->
    bindings s = bindings p /\ (s_identity p <> None -> s_identity s = s_identity p)
    /\ (s_state p ∈ _TERMINAL_STATES -> s_state s = s_state p) }.

Lemma successor_ok p s : check_successor (Some p) s = Ok tt ->
  s_state s ∈ _TRANSITIONS (s_state p) /\ bindings s = bindings p /\ (s_identity p <> None -> s_identity s = s_identity p)
  /\ (s_state p ∈ _TERMINAL_STATES -> s_state s = s_state p).
Proof.
  unfold check_successor. intros H. take_ok H legal El. take_guard H E1. take_guard H E2. apply require_ok in H. subst legal.
  unfold may_move in El. take_guard El E4. injection El as El. apply bool_decide_eq_true in El, E2. split_and!; try done.
  - intros Hn. rewrite (bool_decide_eq_false_2 _ Hn) in H. cbn in H. by apply bool_decide_eq_true in H.
  - unfold _TERMINAL_STATES. destruct (s_state p); cbn in El |- *; set_solver.
Qed.

Lemma lifecycle_legal c h : lifecycle c h -> legal_history c h.
Proof.
  induction 1 as [|h s Hh IH Hs]; [constructor; (intros; by rewrite ?lookup_nil in *) || done|]. destruct Hs as [Hv Hc Hq Hl]. destruct IH as [I1 I2 I3 I4]. constructor.
  - intros i x Hx. apply lookup_snoc_Some in Hx as [[_ Hx]|[-> <-]]; [by apply I1|by split_and!].
  - intros x Hx. destruct h as [|y h]; [|by apply I2]. injection Hx as <-. cbn in Hl. apply require_ok, andb_true_iff in Hl as [H1 H2].
    by apply bool_decide_eq_true in H1, H2.
  - intros i p x Hp Hx. apply lookup_snoc_Some in Hx as [[Hlt Hx]|[Hi <-]]; [rewrite lookup_app_l in Hp by lia; by eapply I3|].
    rewrite lookup_app_l in Hp by lia. assert (E : last h = Some p) by (rewrite last_lookup, <- Hi; exact Hp). rewrite E in Hl. by apply successor_ok.
  - intros i k p x Hik Hp Hx. apply lookup_snoc_Some in Hx as [[Hlt Hx]|[-> <-]]; [rewrite lookup_app_l in Hp by lia; by eapply (I4 i k)|].
    apply lookup_snoc_Some in Hp as [[Hlt Hp]|[_ <-]]; [|by split_and!]. destruct (last h) as [q|] eqn:E; [|apply last_None in E; subst; cbn in Hlt; lia].
    destruct (successor_ok _ _ Hl) as (_ & S1 & S2 & S3). rewrite last_lookup in E. destruct (I4 i (pred (length h)) p q) as (J1 & J2 & J3); [lia|done..|].
    split_and!; [congruence| |].
    + intros Hn. rewrite <- J2 by done. apply S2. by rewrite J2.
    + intros Ht. rewrite <- J3 by done. apply S3. by rewrite J3.
Qed.

Lemma verified_history j st c : verify j = Ok st -> is_blank c = false ->
  exists h, history c j = Ok h /\ legal_history c h /\ latest c j = Ok (last h).
Proof.
  intros Hst Hc. unfold history, latest. rewrite Hst. destruct (verify_tracks _ _ c Hst) as (h & T). exists h.
  assert (Er : _required (JStr c) "candidate_id" = Ok tt) by (unfold _required; by rewrite Hc).
  rewrite Er. cbn [rbind]. rewrite (tr_decoded _ _ _ _ T). split; [done|]. split; [apply lifecycle_legal, T|].
  assert (Hd := tr_decoded _ _ _ _ T). destruct (last (rows_of c j)) as [r|] eqn:E.
  - apply last_Some in E as [l E]. rewrite E in Hd. apply map_result_snoc_inv in Hd as (zs & y & -> & _ & Hy). rewrite Hy, last_snoc. done.
  - apply last_None in E. rewrite E in Hd. by injection Hd as <-.
Qed.

Lemma named_candidate s : valid_snapshot s -> is_blank (s_candidate s) = false.
Proof. intros [H _]. unfold rebuilt_snapshot, snapshot_of in H. take_ok H u E. apply require_ok in E. by apply negb_true_iff in E. Qed.

(** C18: the journal of candidates keeps its contract or is refused as a whole.
    Whatever calls and halves of calls several processes make with constructed
    identities, in whatever order, each finding the journal the others left:
    either the journal opens, and then the history of every candidate is a legal
    one and its latest snapshot the last of it; or the journal no longer opens,
    no history can be read from it any more, and a snapshot is to blame that was
    written behind a journal with legal histories, in one of only two ways: it is
    longer than the size limit of a reader, or its transition was planned on the
    latest snapshot of an earlier journal with an expected sequence other than
    that snapshot's. *)
Theorem candidate_journal_sound s c : reachable s -> is_blank c = false ->
  (open_journal (sys_journal s) = Ok tt
   /\ exists h, history c (sys_journal s) = Ok h /\ legal_history c h /\ latest c (sys_journal s) = Ok (last h))
  \/ exists good n key rest e,
       sys_journal s = good ++ row_of n key good :: rest
       /\ open_journal (sys_journal s) = Raise e /\ history c (sys_journal s) = Raise e
       /\ open_journal good = Ok tt /\ (exists h, history c good = Ok h /\ legal_history c h)
       /\ (DEFAULT_MAXIMUM_JSON_BYTES < Z.of_nat (String.length (payload_of n))
           \/ exists read p, read `prefix_of` good /\ open_journal read = Ok tt /\ latest (s_candidate n) read = Ok (Some p)
                /\ check_successor (Some p) n = Ok tt /\ s_sequence n <> s_sequence p + 1).
Proof.
  intros Hs Hc. destruct (reachable_sound s Hs) as [[[st Hst]|(j1 & n & key & j2 & st1 & e & E & H1 & H2 & H3)] _]; [left|right].
  - destruct (verified_history _ _ c Hst Hc) as (h & Hh). unfold open_journal. rewrite Hst. split; [done|]. by exists h.
  - exists j1, n, key, j2, e. assert (He : verify (sys_journal s) = Raise e).
    { rewrite E, (cons_middle _ j1 j2), (assoc_L (++)). by apply verify_stops. }
    assert (Er : _required (JStr c) "candidate_id" = Ok tt) by (unfold _required; by rewrite Hc).
    split; [done|]. unfold open_journal at 1, history at 1. rewrite He, Er. split; [done|]. split; [done|].
    split; [unfold open_journal; by rewrite H1|]. split; [destruct (verified_history _ _ c H1 Hc) as (h & Hh & Hl & _); by exists h|].
    destruct H3 as [H3|(p & (j0 & st0 & Hp & H0 & Hl & Hk) & Hq)]; [left; unfold fits in H3; lia|right].
    exists j0, p. split; [done|]. split; [unfold open_journal; by rewrite H0|]. split; [|done].
    apply (latest_complete j0 st0); [done|done|]. destruct (verify_tracks j0 st0 (s_candidate n) H0) as (h & T).
    rewrite (tr_latest _ _ _ _ T) in Hl. destruct (lifecycle_last _ _ _ (tr_lifecycle _ _ _ _ T) Hl) as (Hv & <- & _). by apply named_candidate.
Qed.

(** A snapshot beyond the size limit is written, and the journal cannot be opened
    again. *)
Lemma oversized_snapshot_unreadable j n key st : verify j = Ok st -> ~ fits n ->
  open_journal (j ++ [row_of n key j]) = broken "candidate history contains invalid JSON".
Proof.
  intros Hj Hf. unfold open_journal, verify. rewrite rfold_app. unfold verify in Hj. rewrite Hj. cbn [rbind rfold]. unfold verify_row, _decode. cbn [row_of r_payload].
  unfold strict_text, json_limits. cbn [require rbind Z.ltb].
  rewrite (proj2 (Z.leb_gt _ _)) by (by apply Z.nle_gt). by rewrite andb_false_r.
Qed.

(** ** A sample journal *)

Module SampleCandidate.

Definition digest : string := SampleWave.subject.
Definition opening : checkpoint_call :=
  {| k_candidate := "cand-1"; k_wave := "wave-1"; k_node := "build"; k_generation := 1; k_manifest := digest; k_authority := digest;
     k_checkpoint := digest; k_key := "key-1" |}.
Definition move (e : Z) (s : WaveState) (key : string) (i : option CandidateIdentity) (why : option string) : transition_call :=
  {| t_candidate := "cand-1"; t_expected := e; t_state := s; t_key := key; t_identity := i; t_checkpoint := None; t_reason := why |}.
Definition seal : transition_call := move 1 CANDIDATE_SEALED "key-2" (Some (SampleWave.candidate_of "1")) None.
Definition verifying : transition_call := move 2 VERIFYING "key-3" None None.
Definition failing : transition_call := move 2 FAILED "key-4" None (Some "no longer wanted").

Definition opened : system := Eval vm_compute in exec nothing_written (Checkpoint opening).
Definition sealed : system := Eval vm_compute in exec opened (Call seal).
Definition half : system := Eval vm_compute in exec sealed (Plan 1 verifying).
Definition failed : system := Eval vm_compute in exec half (Call failing).
Definition settled : system := Eval vm_compute in exec failed (Write 1).

(** One process plans to verify the candidate, another one fails it first: the
    late write is refused. *)
Lemma candidate_sample_reachable : reachable settled.
Proof.
  assert (H1 : reachable opened) by exact (reach_step _ (Checkpoint opening) reach_start I).
  assert (H2 : reachable sealed).
  { apply (reach_step _ (Call seal) H1). intros i [= <-]. exact SampleWave.valid_sample_identity. }
  assert (H3 : reachable half) by (apply (reach_step _ (Plan 1 verifying) H2); by intros i).
  assert (H4 : reachable failed) by (apply (reach_step _ (Call failing) H3); by intros i).
  exact (reach_step _ (Write 1) H4 I).
Qed.

Definition states (s : system) : option (list WaveState) := match history "cand-1" (sys_journal s) with Ok h => Some (map s_state h) | Raise _ => None end.

End SampleCandidate.

Lemma candidate_journal_sound_witness :
  (exists h, history "cand-1" (sys_journal SampleCandidate.settled) = Ok h /\ legal_history "cand-1" h)
  /\ SampleCandidate.states SampleCandidate.settled = Some [CHECKPOINTED; CANDIDATE_SEALED; FAILED].
Proof.
  split; [|vm_compute; reflexivity].
  destruct (candidate_journal_sound SampleCandidate.settled "cand-1" SampleCandidate.candidate_sample_reachable eq_refl)
    as [(_ & h & Hh & Hl & _)|(good & n & key & rest & e & _ & He & _)].
  - exists h. split; [exact Hh|exact Hl].
  - vm_compute in He. discriminate He.
Defined.

(** A transition planned for a sequence that is not the one it has read is
    written when the journal catches up, and no journal with it can be opened. *)
Example guessed_sequence_breaks_journal :
  let late := SampleCandidate.move 2 CHECKPOINTED "key-5" None None in
  let s := run [Plan 1 late; Call SampleCandidate.seal; Write 1] SampleCandidate.opened in
  length (sys_journal s) = 3%nat /\ open_journal (sys_journal s) = broken "candidate history contains an invalid transition".
Proof. split; vm_compute; reflexivity. Qed.

(** A recoverable candidate can be integrated without having been sealed or
    verified. *)
Example unsealed_candidate_integrated :
  let pause := SampleCandidate.move 1 RECOVERABLE "key-6" None (Some "worker lost") in
  let adopt := SampleCandidate.move 2 INTEGRATED "key-7" (Some (SampleWave.candidate_of "1")) None in
  let s := run [Call pause; Call adopt] SampleCandidate.opened in
  SampleCandidate.states s = Some [CHECKPOINTED; RECOVERABLE; INTEGRATED].
Proof. vm_compute. reflexivity. Qed.

(** An empty checkpoint digest stands for the current one, but not when the call
    is repeated. *)
Example repeated_call_refused :
  let t := {| t_candidate := "cand-1"; t_expected := 1; t_state := CHECKPOINTED; t_key := "key-8"; t_identity := None; t_checkpoint := Some ""; t_reason := None |} in
  let first := transition t (sys_journal SampleCandidate.opened) in
  is_ok first.1 = true /\ (transition t first.2).1 = broken "idempotency key is bound to another candidate transition".
Proof. split; vm_compute; reflexivity. Qed.

End CandidateState.
