(* ===== verification/Decisions.v ===== *)
(** * Decision memory

    The records of [runtime_contracts.py] around decisions: effect classes,
    evidence, requirements, authority, budgets and policies, the draft of a
    decision with its alternatives and scores, [select_decision], and the entry
    that records a decision with its digest.  A constructor that reads a document
    takes the members it has to check as JSON values.  Scores are integers;
    scores with a fraction are not modelled. *)

From S2P Require Import Prelude Sha256 Canonical AsciiJson PyLib Schema Contracts RuntimeContracts.
From Stdlib Require Import Ascii.

Module Decisions.
Export RuntimeContracts.

(** ** Effect classes *)

Inductive EffectClass := NO_EFFECT | LOCAL_REVERSIBLE | EXTERNAL_REVERSIBLE.
#[global] Instance EffectClass_eq_dec : EqDecision EffectClass.
Proof. solve_decision. Defined.
Definition effect_value (e : EffectClass) : string :=
  match e with NO_EFFECT => "none" | LOCAL_REVERSIBLE => "local-reversible" | EXTERNAL_REVERSIBLE => "external-reversible" end.
Definition effect_classes : list EffectClass := [NO_EFFECT; LOCAL_REVERSIBLE; EXTERNAL_REVERSIBLE].
Definition EFFECT_CLASSES_V1 : list string := map effect_value effect_classes.
Definition EXTERNAL_EFFECT_CLASSES_V1 : list EffectClass := [EXTERNAL_REVERSIBLE].
Definition classify_effect (value : json) : result EffectClass :=
  require (bool_decide (is_Some (as_str value))) ContractViolation "effect_class must be a V1 string" ;?
  wrap [ValueError] ContractViolation "effect_class is not in the closed V1 vocabulary" (enum_of "EffectClass" effect_classes effect_value value).
Definition requires_external_authority (value : json) : result bool :=
  let? e := classify_effect value in
  Ok (bool_decide (e ∈ EXTERNAL_EFFECT_CLASSES_V1)).

(** ** Members *)

(** A member after its check, as the value a field holds. *)
Definition an_identifier (v : json) (label : string) : result string := require_identifier v label ;? Ok (default "" (as_str v)).
Definition a_digest (v : json) (label : string) : result string := require_digest v label ;? Ok (default "" (as_str v)).
Definition a_time (v : json) (label : string) : result string := require_time v label ;? Ok (default "" (as_str v)).
Definition a_text (v : json) (message : string) : result string :=
  match v with JStr s => require (negb (String.eqb s "")) ContractViolation message ;? Ok s | _ => violation message end.
Definition a_bool (v : json) (message : string) : result bool := match v with JBool b => Ok b | _ => violation message end.
Definition natural (v : json) (name : string) : result Z := exact_int v (Z.leb 0) (name +:+ " must be a non-negative integer")%stdpp.
(** A member that must be a list of objects. *)
Definition object_list (v : json) (label : string) : result (list contract) :=
  match v with
  | JList l => require (forallb (fun x => bool_decide (is_Some (as_obj x))) l) ContractViolation (label +:+ " must be an object list")%stdpp ;? Ok (omap as_obj l)
  | _ => violation (label +:+ " must be an object list")%stdpp
  end.
Definition member (document : contract) (k : string) : json := get k document.

(** ** Evidence *)

Record EvidenceReference := { evidence_id : string; evidence_digest : string; evidence_source : string; claim_ids : list string; observed_at : string }.
Definition evidence_of (v : string -> json) (claims : list string) : result EvidenceReference :=
  let? i := an_identifier (v "evidence_id") "evidence_id" in
  let? g := a_digest (v "digest") "evidence digest" in
  let? s := a_text (v "source") "evidence source is required" in
  _unique_strings claims "claim_ids" true ;?
  let? o := a_time (v "observed_at") "observed_at" in
  Ok {| evidence_id := i; evidence_digest := g; evidence_source := s; claim_ids := claims; observed_at := o |}.
Definition evidence_to_document (e : EvidenceReference) : contract :=
  [("evidence_id", JStr (evidence_id e)); ("digest", JStr (evidence_digest e)); ("source", JStr (evidence_source e));
   ("claim_ids", strs (claim_ids e)); ("observed_at", JStr (observed_at e))].
Definition evidence_from_document (document : contract) : result EvidenceReference :=
  _closed document ["evidence_id"; "digest"; "source"; "claim_ids"; "observed_at"] "evidence reference" ;?
  let? claims := string_list (get "claim_ids" document) "claim_ids" in
  evidence_of (member document) claims.

(** ** Requirements and policies *)

Record ResourceRequirement := { resource_id : string; resource_kind : string; quantity : Z; resource_unit : string; resource_constraints : list string }.
Definition check_resource (r : ResourceRequirement) : result ResourceRequirement :=
  require_identifier (JStr (resource_id r)) "resource_id" ;?
  require_identifier (JStr (resource_kind r)) "resource kind" ;?
  require (0 <=? quantity r) ContractViolation "resource quantity must be a non-negative integer" ;?
  require_identifier (JStr (resource_unit r)) "resource unit" ;?
  _unique_strings (resource_constraints r) "resource constraints" false ;?
  Ok r.
Definition resource_to_document (r : ResourceRequirement) : contract :=
  [("resource_id", JStr (resource_id r)); ("kind", JStr (resource_kind r)); ("quantity", JInt (quantity r)); ("unit", JStr (resource_unit r));
   ("constraints", strs (resource_constraints r))].

Record CapabilityRequirement := {
  capability_id : string; operation : string; effect_class : string; capability_authority : string; capability_adapter : string }.
Definition check_capability (c : CapabilityRequirement) : result CapabilityRequirement :=
  require_identifier (JStr (capability_id c)) "capability_id" ;?
  require_identifier (JStr (operation c)) "operation" ;?
  require_identifier (JStr (capability_authority c)) "authority_id" ;?
  require_identifier (JStr (capability_adapter c)) "adapter_id" ;?
  classify_effect (JStr (effect_class c)) ;?
  Ok c.
Definition capability_to_document (c : CapabilityRequirement) : contract :=
  [("capability_id", JStr (capability_id c)); ("operation", JStr (operation c)); ("effect_class", JStr (effect_class c));
   ("authority_id", JStr (capability_authority c)); ("adapter_id", JStr (capability_adapter c))].

Record AdapterRequirement := { adapter_id : string; interface : string; version : string; configuration_digest : string }.
Definition check_adapter (a : AdapterRequirement) : result AdapterRequirement :=
  require_identifier (JStr (adapter_id a)) "adapter_id" ;?
  require_identifier (JStr (interface a)) "adapter interface" ;?
  require_identifier (JStr (version a)) "adapter version" ;?
  require_digest (JStr (configuration_digest a)) "configuration_digest" ;?
  Ok a.
Definition adapter_to_document (a : AdapterRequirement) : contract :=
  [("adapter_id", JStr (adapter_id a)); ("interface", JStr (interface a)); ("version", JStr (version a));
   ("configuration_digest", JStr (configuration_digest a))].

Record RecoveryPolicy := { maximum_attempts : Z; checkpoint_required : bool; rollback_required : bool; stop_conditions : list string }.
Definition check_recovery (p : RecoveryPolicy) : result RecoveryPolicy :=
  require (1 <=? maximum_attempts p) ContractViolation "maximum_attempts must be a positive integer" ;?
  _unique_strings (stop_conditions p) "stop_conditions" true ;?
  Ok p.
Definition recovery_to_document (p : RecoveryPolicy) : contract :=
  [("maximum_attempts", JInt (maximum_attempts p)); ("checkpoint_required", JBool (checkpoint_required p));
   ("rollback_required", JBool (rollback_required p)); ("stop_conditions", strs (stop_conditions p))].

Record IntegrationPolicy := { strategy : string; integration_target : string; expected_base : string; compare_and_swap : bool; protected_target : bool }.
Definition check_integration (p : IntegrationPolicy) : result IntegrationPolicy :=
  require_identifier (JStr (strategy p)) "integration strategy" ;?
  a_text (JStr (integration_target p)) "integration target is required" ;?
  require_digest (JStr (expected_base p)) "expected_base" ;?
  Ok p.
Definition integration_to_document (p : IntegrationPolicy) : contract :=
  [("strategy", JStr (strategy p)); ("target", JStr (integration_target p)); ("expected_base", JStr (expected_base p));
   ("compare_and_swap", JBool (compare_and_swap p)); ("protected_target", JBool (protected_target p))].

Record TokenPolicy := { context_tokens : Z; response_tokens : Z; reserve_tokens : Z; accounting : string; token_overflow : string }.
Definition check_token_policy (p : TokenPolicy) : result TokenPolicy :=
  natural (JInt (context_tokens p)) "context_tokens" ;?
  natural (JInt (response_tokens p)) "response_tokens" ;?
  natural (JInt (reserve_tokens p)) "reserve_tokens" ;?
  require_identifier (JStr (accounting p)) "token accounting" ;?
  require_identifier (JStr (token_overflow p)) "token overflow policy" ;?
  Ok p.
Definition token_policy_to_document (p : TokenPolicy) : contract :=
  [("context_tokens", JInt (context_tokens p)); ("response_tokens", JInt (response_tokens p)); ("reserve_tokens", JInt (reserve_tokens p));
   ("accounting", JStr (accounting p)); ("overflow", JStr (token_overflow p))].

(** ** Authority and budget *)

Record AuthorityEnvelope := {
  authority_id : string; principal_id : string; grant_digest : string; allowed_actions : list string; denied_actions : list string;
  expires_at : string; external_effects : bool }.
Definition authority_of (v : string -> json) (allowed denied : list string) : result AuthorityEnvelope :=
  let? i := an_identifier (v "authority_id") "authority_id" in
  let? p := an_identifier (v "principal_id") "principal_id" in
  let? g := a_digest (v "grant_digest") "grant_digest" in
  _unique_strings allowed "allowed_actions" false ;?
  _unique_strings denied "denied_actions" false ;?
  require (forallb (fun a => negb (mem a denied)) allowed) ContractViolation "authority action cannot be both allowed and denied" ;?
  let? x := a_time (v "expires_at") "expires_at" in
  let? e := a_bool (v "external_effects") "external_effects must be boolean" in
  Ok {| authority_id := i; principal_id := p; grant_digest := g; allowed_actions := allowed; denied_actions := denied; expires_at := x;
        external_effects := e |}.
Definition authority_to_document (a : AuthorityEnvelope) : contract :=
  [("authority_id", JStr (authority_id a)); ("principal_id", JStr (principal_id a)); ("grant_digest", JStr (grant_digest a));
   ("allowed_actions", strs (allowed_actions a)); ("denied_actions", strs (denied_actions a)); ("expires_at", JStr (expires_at a));
   ("external_effects", JBool (external_effects a))].
Definition authority_from_document (document : contract) : result AuthorityEnvelope :=
  _closed document ["authority_id"; "principal_id"; "grant_digest"; "allowed_actions"; "denied_actions"; "expires_at"; "external_effects"]
    "authority envelope" ;?
  match get "allowed_actions" document, get "denied_actions" document with
  | JList allowed, JList denied =>
      require (forallb (fun x => bool_decide (is_Some (as_str x))) (allowed ++ denied)) ContractViolation "authority actions must contain strings" ;?
      authority_of (member document) (omap as_str allowed) (omap as_str denied)
  | _, _ => violation "authority actions must be lists"
  end.

Record BudgetPolicy := {
  wall_seconds : Z; model_calls : Z; input_tokens : Z; output_tokens : Z; cost_microunits : Z; tool_calls : Z; concurrent_workers : Z }.
Definition budget_fields : list string :=
  ["wall_seconds"; "model_calls"; "input_tokens"; "output_tokens"; "cost_microunits"; "tool_calls"; "concurrent_workers"].
Definition budget_policy_of (v : string -> json) : result BudgetPolicy :=
  let? a := natural (v "wall_seconds") "wall_seconds" in
  let? b := natural (v "model_calls") "model_calls" in
  let? c := natural (v "input_tokens") "input_tokens" in
  let? d := natural (v "output_tokens") "output_tokens" in
  let? e := natural (v "cost_microunits") "cost_microunits" in
  let? f := natural (v "tool_calls") "tool_calls" in
  let? g := natural (v "concurrent_workers") "concurrent_workers" in
  Ok {| wall_seconds := a; model_calls := b; input_tokens := c; output_tokens := d; cost_microunits := e; tool_calls := f; concurrent_workers := g |}.
Definition budget_policy_to_document (b : BudgetPolicy) : contract :=
  [("wall_seconds", JInt (wall_seconds b)); ("model_calls", JInt (model_calls b)); ("input_tokens", JInt (input_tokens b));
   ("output_tokens", JInt (output_tokens b)); ("cost_microunits", JInt (cost_microunits b)); ("tool_calls", JInt (tool_calls b));
   ("concurrent_workers", JInt (concurrent_workers b))].
Definition budget_policy_from_document (document : contract) : result BudgetPolicy :=
  _closed document budget_fields "budget policy" ;?
  budget_policy_of (member document).

(** ** Alternatives and their scores *)

Record DecisionAlternative := {
  alternative_id : string; description : string; evidence_ids : list string; counterevidence_ids : list string;
  constraint_results : list (string * bool); authority_ids : list string; safe : bool }.
Definition alternative_of (v : string -> json) (evidence counter : list string) (constraints : list (string * bool)) (authorities : list string)
    : result DecisionAlternative :=
  let? i := an_identifier (v "alternative_id") "alternative_id" in
  let? t := a_text (v "description") "alternative description is required" in
  _unique_strings evidence "alternative evidence_ids" false ;?
  _unique_strings counter "alternative counterevidence_ids" false ;?
  _unique_strings authorities "alternative authority_ids" false ;?
  require (distinct constraints.*1) ContractViolation "constraint_results contains duplicates" ;?
  let? s := a_bool (v "safe") "alternative safe flag must be boolean" in
  Ok {| alternative_id := i; description := t; evidence_ids := evidence; counterevidence_ids := counter; constraint_results := constraints;
        authority_ids := authorities; safe := s |}.
Definition constraint_object (l : list (string * bool)) : contract := map (fun nb => (nb.1, JBool nb.2)) l.
Definition constraint_map (v : json) : result (list (string * bool)) :=
  match v with
  | JObj l =>
      require (forallb (fun nb => match nb.2 with JBool _ => true | _ => false end) l) ContractViolation "constraint_results must map strings to booleans" ;?
      Ok (omap (fun nb => match nb.2 with JBool b => Some (nb.1, b) | _ => None end) l)
  | _ => violation "constraint_results must map strings to booleans"
  end.
Definition alternative_to_document (a : DecisionAlternative) : contract :=
  [("alternative_id", JStr (alternative_id a)); ("description", JStr (description a)); ("evidence_ids", strs (evidence_ids a));
   ("counterevidence_ids", strs (counterevidence_ids a)); ("constraint_results", JObj (constraint_object (constraint_results a)));
   ("authority_ids", strs (authority_ids a)); ("safe", JBool (safe a))].
Definition alternative_from_document (document : contract) : result DecisionAlternative :=
  _closed document ["alternative_id"; "description"; "evidence_ids"; "counterevidence_ids"; "constraint_results"; "authority_ids"; "safe"]
    "decision alternative" ;?
  let? evidence := string_list (get "evidence_ids" document) "evidence_ids" in
  let? counter := string_list (get "counterevidence_ids" document) "counterevidence_ids" in
  let? authorities := string_list (get "authority_ids" document) "authority_ids" in
  let? constraints := constraint_map (get "constraint_results" document) in
  alternative_of (member document) evidence counter constraints authorities.

(** [float(z)] for an integer: the nearest double, ties to even, as the integer
    it is; [OverflowError] beyond the largest double. *)
Definition round53 (z : Z) : Z :=
  let a := Z.abs z in
  if a <? 2 ^ 53 then z
  else let p := 2 ^ (Z.log2 a - 52) in
       let q := a / p in let r := a mod p in
       let up := (p <? 2 * r) || ((2 * r =? p) && Z.odd q) in
       Z.sgn z * ((q + if up then 1 else 0) * p).
Definition float_of_int (z : Z) : result Z :=
  let f := round53 z in
  require (Z.abs f <? 2 ^ 1024) OverflowError "int too large to convert to float" ;?
  Ok f.

Record AlternativeScore := { scored_id : string; score : Z }.
(** [math.isfinite] converts an integer to a float. *)
Definition score_of (v : string -> json) : result AlternativeScore :=
  let? i := an_identifier (v "alternative_id") "scored alternative_id" in
  match v "score" with
  | JInt z => float_of_int z ;? Ok {| scored_id := i; score := z |}
  | _ => violation "alternative score must be finite"
  end.
Definition score_to_document (s : AlternativeScore) : contract := [("alternative_id", JStr (scored_id s)); ("score", JInt (score s))].
Definition score_from_document (document : contract) : result AlternativeScore :=
  _closed document ["alternative_id"; "score"] "alternative score" ;?
  score_of (member document).

(** ** Drafts *)

Inductive AppealState := A_NONE | A_OPEN | A_UPHELD | A_OVERTURNED | A_SUPERSEDED.
#[global] Instance AppealState_eq_dec : EqDecision AppealState.
Proof. solve_decision. Defined.
Definition appeal_value (a : AppealState) : string :=
  match a with A_NONE => "NONE" | A_OPEN => "OPEN" | A_UPHELD => "UPHELD" | A_OVERTURNED => "OVERTURNED" | A_SUPERSEDED => "SUPERSEDED" end.
Definition appeal_of (v : json) : result AppealState :=
  wrap [TypeError; ValueError] ContractViolation "unsupported appeal state"
    (enum_of "AppealState" [A_NONE; A_OPEN; A_UPHELD; A_OVERTURNED; A_SUPERSEDED] appeal_value v).

Record DecisionMemoryDraft := {
  memory_id : string;
  question : string;
  snapshot : string;
  alternatives : list DecisionAlternative;
  evidence : list EvidenceReference;
  counterevidence : list EvidenceReference;
  constraints : list string;
  authority : list AuthorityEnvelope;
  budget : BudgetPolicy;
  scoring_model : string;
  scores : list AlternativeScore;
  uncertainty : string;
  owner : string;
  decided_at : string;
  fresh_until : string;
  corrections : list string;
  supersession : option string;
  appeal_state : AppealState }.

(** [a > b] on aware datetimes *)
Definition later (a b : datetime) : result bool := let? le := dt_le a b in Ok (negb le).

(** The parts of a draft that are read from lists and objects of their own. *)
Record draft_parts := {
  p_alternatives : list DecisionAlternative; p_evidence : list EvidenceReference; p_counterevidence : list EvidenceReference; p_constraints : list string;
  p_authority : list AuthorityEnvelope; p_budget : BudgetPolicy; p_scores : list AlternativeScore; p_corrections : list string; p_appeal : AppealState }.
Definition parts_of (d : DecisionMemoryDraft) : draft_parts :=
  {| p_alternatives := alternatives d; p_evidence := evidence d; p_counterevidence := counterevidence d; p_constraints := constraints d;
     p_authority := authority d; p_budget := budget d; p_scores := scores d; p_corrections := corrections d; p_appeal := appeal_state d |}.

(** [DecisionMemoryDraft(...)] *)
Definition draft_of (v : string -> json) (p : draft_parts) : result DecisionMemoryDraft :=
  exact_int (v "schema_version") (Z.eqb 1) "unsupported decision-memory schema version" ;?
  let? i := an_identifier (v "memory_id") "memory_id" in
  let? q := a_text (v "question") "decision question is required" in
  let? s := a_digest (v "snapshot") "decision snapshot" in
  require (negb (bool_decide (map alternative_id (p_alternatives p) = [])) && distinct (map alternative_id (p_alternatives p))) ContractViolation
    "decision alternatives are required and must be unique" ;?
  require (distinct (map evidence_id (p_evidence p))) ContractViolation "decision evidence ids must be unique" ;?
  require (distinct (map evidence_id (p_counterevidence p))) ContractViolation "decision counterevidence ids must be unique" ;?
  _unique_strings (p_constraints p) "decision constraints" true ;?
  require (distinct (map authority_id (p_authority p))) ContractViolation "decision authority ids must be unique" ;?
  let? m := an_identifier (v "scoring_model") "scoring_model" in
  require (distinct (map scored_id (p_scores p))) ContractViolation "decision scores must be unique" ;?
  let? u := a_text (v "uncertainty") "decision uncertainty is required" in
  let? o := an_identifier (v "owner") "decision owner" in
  let? decided := require_time (v "decided_at") "decided_at" in
  let? fresh := require_time (v "fresh_until") "fresh_until" in
  let? stale := later decided fresh in
  require (negb stale) ContractViolation "fresh_until precedes decided_at" ;?
  _unique_strings (p_corrections p) "decision corrections" false ;?
  let? sup := match v "supersession" with JNull => Ok None | x => let? y := an_identifier x "supersession" in Ok (Some y) end in
  Ok {| memory_id := i; question := q; snapshot := s; alternatives := p_alternatives p; evidence := p_evidence p; counterevidence := p_counterevidence p;
        constraints := p_constraints p; authority := p_authority p; budget := p_budget p; scoring_model := m; scores := p_scores p; uncertainty := u;
        owner := o; decided_at := default "" (as_str (v "decided_at")); fresh_until := default "" (as_str (v "fresh_until"));
        corrections := p_corrections p; supersession := sup; appeal_state := p_appeal p |}.
Definition draft_to_document (d : DecisionMemoryDraft) : contract :=
  [("schema_version", JInt 1); ("memory_id", JStr (memory_id d)); ("question", JStr (question d)); ("snapshot", JStr (snapshot d));
   ("alternatives", JList (map (fun a => JObj (alternative_to_document a)) (alternatives d)));
   ("evidence", JList (map (fun e => JObj (evidence_to_document e)) (evidence d)));
   ("counterevidence", JList (map (fun e => JObj (evidence_to_document e)) (counterevidence d))); ("constraints", strs (constraints d));
   ("authority", JList (map (fun a => JObj (authority_to_document a)) (authority d))); ("budget", JObj (budget_policy_to_document (budget d)));
   ("scoring_model", JStr (scoring_model d)); ("scores", JList (map (fun s => JObj (score_to_document s)) (scores d)));
   ("uncertainty", JStr (uncertainty d)); ("owner", JStr (owner d)); ("decided_at", JStr (decided_at d)); ("fresh_until", JStr (fresh_until d));
   ("corrections", strs (corrections d)); ("supersession", opt_str (supersession d)); ("appeal_state", JStr (appeal_value (appeal_state d)))].

(** ** Entries *)

Record DecisionMemoryEntry := { draft : DecisionMemoryDraft; winner : string; losers : list string; entry_digest : string }.
Definition entry_body (d : DecisionMemoryDraft) (w : string) (ls : list string) : contract :=
  draft_to_document d ++ [("winner", JStr w); ("losers", strs ls)].
Definition entry_to_document (e : DecisionMemoryEntry) : contract :=
  entry_body (draft e) (winner e) (losers e) ++ [("entry_digest", JStr (entry_digest e))].
Definition same_set (a b : list string) : bool := forallb (fun x => mem x b) a && forallb (fun x => mem x a) b.

(** [DecisionMemoryEntry(...)]; an unhashable winner cannot be looked up in a
    set. *)
Definition entry_of (d : DecisionMemoryDraft) (w : json) (ls : list string) (digest : json) : result DecisionMemoryEntry :=
  let ids := map alternative_id (alternatives d) in
  let? name := match w with
               | JStr s => Ok s
               | JList _ | JObj _ => raise TypeError "unhashable type"
               | _ => violation "decision winner is not an alternative"
               end in
  require (mem name ids) ContractViolation "decision winner is not an alternative" ;?
  _unique_strings ls "decision losers" false ;?
  require (same_set ls (List.filter (fun i => negb (String.eqb i name)) ids)) ContractViolation "decision losers must retain every non-winning alternative" ;?
  let expected := canonical_digest (JObj (entry_body d name ls)) in
  require (falsy digest || py_eq digest (JStr expected)) ContractViolation "decision-memory entry digest is invalid" ;?
  Ok {| draft := d; winner := name; losers := ls; entry_digest := expected |}.

Definition entry_fields : list string :=
  ["schema_version"; "memory_id"; "question"; "snapshot"; "alternatives"; "evidence"; "counterevidence"; "constraints"; "authority"; "budget";
   "scoring_model"; "scores"; "uncertainty"; "owner"; "decided_at"; "fresh_until"; "corrections"; "supersession"; "appeal_state"; "winner"; "losers";
   "entry_digest"].
Definition entry_from_document (document : contract) : result DecisionMemoryEntry :=
  _closed document entry_fields "decision-memory entry" ;?
  let? alts := object_list (get "alternatives" document) "decision alternatives" in
  let? evs := object_list (get "evidence" document) "decision evidence" in
  let? cevs := object_list (get "counterevidence" document) "decision counterevidence" in
  let? auths := object_list (get "authority" document) "decision authority" in
  let? scs := object_list (get "scores" document) "decision scores" in
  let? cns := string_list (get "constraints" document) "decision constraints" in
  let? ls := string_list (get "losers" document) "decision losers" in
  let? corr := string_list (get "corrections" document) "decision corrections" in
  let? bud := match get "budget" document with JObj b => Ok b | _ => violation "decision budget must be an object" end in
  let? appeal := appeal_of (get "appeal_state" document) in
  let? alternatives := map_result alternative_from_document alts in
  let? evidence := map_result evidence_from_document evs in
  let? counterevidence := map_result evidence_from_document cevs in
  let? authority := map_result authority_from_document auths in
  let? budget := budget_policy_from_document bud in
  let? scores := map_result score_from_document scs in
  let? d := draft_of (member document)
              {| p_alternatives := alternatives; p_evidence := evidence; p_counterevidence := counterevidence; p_constraints := cns;
                 p_authority := authority; p_budget := budget; p_scores := scores; p_corrections := corr; p_appeal := appeal |} in
  entry_of d (get "winner" document) ls (get "entry_digest" document).

(** ** Vision posture *)

Record VisionPosture := { vision_version : Z; a5 : string; reference_conflict : string; forbidden_claims : list string; maximum_claim : string }.
Definition check_posture (p : VisionPosture) : result VisionPosture :=
  require (vision_version p =? 1) ContractViolation "unsupported vision-posture schema version" ;?
  require (mem (a5 p) ["READY"; "NOT_READY"]) ContractViolation "unsupported A5 posture" ;?
  require (mem (reference_conflict p) ["RESOLVED"; "UNRESOLVED"]) ContractViolation "unsupported vision conflict posture" ;?
  _unique_strings (forbidden_claims p) "forbidden vision claims" false ;?
  require_identifier (JStr (maximum_claim p)) "maximum_claim" ;?
  require (negb (String.eqb (reference_conflict p) "UNRESOLVED")
           || String.eqb (a5 p) "NOT_READY" && forallb (fun c => mem c (forbidden_claims p)) ["full_autonomy"; "full_hardened_vision_compliance"])
    ContractViolation "unresolved vision conflict must keep A5 and broad claims not-ready" ;?
  Ok p.
Definition posture_to_document (p : VisionPosture) : contract :=
  [("schema_version", JInt (vision_version p)); ("a5", JStr (a5 p)); ("active_gate_reference_only_conflict", JStr (reference_conflict p));
   ("forbidden_claims", strs (forbidden_claims p)); ("maximum_claim", JStr (maximum_claim p))].

(** ** Selection *)

Inductive SelectionBlockerCode := MISSING_EVIDENCE | AUTHORITY_AMBIGUOUS | UNRESOLVED_TIE | UNSAFE_WINNER | STALE_SNAPSHOT.
#[global] Instance SelectionBlockerCode_eq_dec : EqDecision SelectionBlockerCode.
Proof. solve_decision. Defined.
Record SelectionBlocker := { blocker_code : SelectionBlockerCode; blocker_reasons : list string; blocker_memory : string; blocker_snapshot : string }.
Inductive selection := Selected (e : DecisionMemoryEntry) | Blocked (b : SelectionBlocker).
(** [SelectionBlocker(...)] about a draft *)
Definition blocker_of (c : SelectionBlockerCode) (why : list string) (d : DecisionMemoryDraft) : result selection :=
  _unique_strings why "selection blocker reasons" true ;?
  require_identifier (JStr (memory_id d)) "memory_id" ;?
  require_digest (JStr (snapshot d)) "decision snapshot" ;?
  Ok (Blocked {| blocker_code := c; blocker_reasons := why; blocker_memory := memory_id d; blocker_snapshot := snapshot d |}).

(** What one alternative lacks. *)
Definition gaps (d : DecisionMemoryDraft) (a : DecisionAlternative) : list string :=
  (if bool_decide (evidence_ids a = []) then [(alternative_id a +:+ ":no-evidence")%stdpp] else [])
  ++ map (fun i => (alternative_id a +:+ ":unknown-evidence:" +:+ i)%stdpp)
       (List.filter (fun i => negb (mem i (map evidence_id (evidence d)))) (evidence_ids a))
  ++ map (fun i => (alternative_id a +:+ ":unknown-counterevidence:" +:+ i)%stdpp)
       (List.filter (fun i => negb (mem i (map evidence_id (counterevidence d)))) (counterevidence_ids a))
  ++ (if same_set (constraint_results a).*1 (constraints d) then [] else [(alternative_id a +:+ ":incomplete-constraints")%stdpp]).
Definition missing_evidence (d : DecisionMemoryDraft) : list string :=
  flat_map (gaps d) (alternatives d)
  ++ (if same_set (map scored_id (scores d)) (map alternative_id (alternatives d)) then [] else ["scores:incomplete-or-unknown"]).

(** What is wrong with the authority of one alternative at the moment. *)
Definition authority_gap (d : DecisionMemoryDraft) (moment : datetime) (a : DecisionAlternative) : result (list string) :=
  match authority_ids a with
  | [i] =>
      match lookup_key i (index_by authority_id (authority d)) with
      | None => Ok [(alternative_id a +:+ ":authority-missing-or-expired")%stdpp]
      | Some envelope =>
          let? x := require_time (JStr (expires_at envelope)) "authority expires_at" in
          let? expired := later moment x in
          Ok (if expired then [(alternative_id a +:+ ":authority-missing-or-expired")%stdpp] else [])
      end
  | _ => Ok [(alternative_id a +:+ ":requires-exactly-one-authority")%stdpp]
  end.

(** [max(...)] of the scores as floats, and the alternatives that reach it. *)
Definition maximum (l : list Z) : result Z := match l with [] => raise ValueError "max() iterable argument is empty" | z :: zs => Ok (fold_left Z.max zs z) end.
Definition float_scores (d : DecisionMemoryDraft) : result (list (string * Z)) :=
  map_result (fun s => let? f := float_of_int (score s) in Ok (scored_id s, f)) (scores d).
Definition at_score (high : Z) (floats : list (string * Z)) : list string := sorted_str (map fst (List.filter (fun s => s.2 =? high) floats)).

(** The end of [select_decision], with the one alternative of the highest score. *)
Definition choose (d : DecisionMemoryDraft) (name : string) : result selection :=
  match List.find (fun a => String.eqb (alternative_id a) name) (alternatives d) with
  | None => raise StopIteration ""
  | Some w =>
      if negb (safe w) || negb (forallb snd (constraint_results w)) then
        blocker_of UNSAFE_WINNER [("highest-scoring alternative " +:+ alternative_id w +:+ " is unsafe")%stdpp] d
      else
        let rest := sorted_str (List.filter (fun i => negb (String.eqb i (alternative_id w))) (map alternative_id (alternatives d))) in
        let? e := entry_of d (JStr (alternative_id w)) rest (JStr "") in
        Ok (Selected e)
  end.
Definition select_decision (d : DecisionMemoryDraft) (observed now : json) : result selection :=
  require_digest observed "observed_snapshot" ;?
  let? moment := require_time now "selection time" in
  let? stale := (if negb (py_eq observed (JStr (snapshot d))) then Ok true
                 else let? fresh := require_time (JStr (fresh_until d)) "fresh_until" in later moment fresh) in
  if stale then blocker_of STALE_SNAPSHOT ["decision snapshot is stale or no longer fresh"] d
  else if negb (bool_decide (missing_evidence d = [])) then blocker_of MISSING_EVIDENCE (sorted_str (dedup (missing_evidence d))) d
  else
    let? ambiguous := map_result (authority_gap d moment) (alternatives d) in
    if negb (bool_decide (concat ambiguous = [])) then blocker_of AUTHORITY_AMBIGUOUS (sorted_str (concat ambiguous)) d
    else
      let? floats := float_scores d in
      let? high := maximum floats.*2 in
      match at_score high floats with
      | [name] => choose d name
      | names => blocker_of UNRESOLVED_TIE [("highest score is shared by: " +:+ join "," names)%stdpp] d
      end.

(** ** Constructed values *)

Definition valid_evidence (e : EvidenceReference) : Prop := evidence_of (member (evidence_to_document e)) (claim_ids e) = Ok e.
Definition valid_authority (a : AuthorityEnvelope) : Prop := authority_of (member (authority_to_document a)) (allowed_actions a) (denied_actions a) = Ok a.
Definition valid_budget (b : BudgetPolicy) : Prop := budget_policy_of (member (budget_policy_to_document b)) = Ok b.
Definition valid_alternative (a : DecisionAlternative) : Prop :=
  alternative_of (member (alternative_to_document a)) (evidence_ids a) (counterevidence_ids a) (constraint_results a) (authority_ids a) = Ok a.
Definition valid_score (s : AlternativeScore) : Prop := score_of (member (score_to_document s)) = Ok s.
(** A draft whose constructor, and the constructors of its parts, have accepted
    it. *)
Record valid_draft (d : DecisionMemoryDraft) : Prop := {
  vd_draft : draft_of (member (draft_to_document d)) (parts_of d) = Ok d;
  vd_alternatives : Forall valid_alternative (alternatives d);
  vd_evidence : Forall valid_evidence (evidence d);
  vd_counterevidence : Forall valid_evidence (counterevidence d);
  vd_authority : Forall valid_authority (authority d);
  vd_budget : valid_budget (budget d);
  vd_scores : Forall valid_score (scores d) }.

Lemma an_identifier_ok v label s : an_identifier v label = Ok s -> v = JStr s /\ is_portable s = true.
Proof. unfold an_identifier, require_identifier. intros H. take_guard H E. destruct v; try done. by injection H as <-. Qed.
Lemma a_digest_ok v label s : a_digest v label = Ok s -> v = JStr s /\ is_digest s = true.
Proof. unfold a_digest, require_digest. intros H. take_guard H E. destruct v; try done. by injection H as <-. Qed.
Lemma a_time_ok v label s : a_time v label = Ok s -> v = JStr s /\ exists t, require_time (JStr s) label = Ok t.
Proof.
  unfold a_time. intros H. take_ok H t E. injection H as <-. destruct v; try done. split; [done|]. by exists t.
Qed.

(** Two labels of a time differ in the message only. *)
Lemma time_label v label label' t : require_time v label = Ok t -> require_time v label' = Ok t.
Proof.
  unfold require_time. destruct v; try done. intros H. take_guard H E. rewrite E. cbn [require rbind]. destruct (from_zulu s) as [d|]; [|done].
  take_guard H E'. by rewrite E'.
Qed.
Lemma time_aware v label t : require_time v label = Ok t -> is_aware t = true.
Proof. unfold require_time. destruct v; try done. intros H. take_guard H E. destruct (from_zulu s) as [d|]; [|done]. take_guard H E'. by injection H as <-. Qed.
Lemma later_aware a b : is_aware a = true -> is_aware b = true -> later a b = Ok (negb (instant a <=? instant b)).
Proof. unfold later, dt_le. by intros -> ->. Qed.

Lemma portable_nonempty s : is_portable s = true -> s <> "".
Proof. by destruct s. Qed.

(** What is known of the parts of a constructed draft. *)
Lemma alternative_facts a : valid_alternative a -> is_portable (alternative_id a) = true /\ NoDup (constraint_results a).*1.
Proof.
  unfold valid_alternative, alternative_of. intros H. take_ok H i E1. take_ok H t E2. take_ok H u3 E3. take_ok H u4 E4. take_ok H u5 E5. take_guard H E6. take_ok H s E7.
  apply an_identifier_ok in E1 as [E1 Hp]. injection E1 as E1. rewrite E1. split; [done|]. by apply bool_decide_eq_true in E6.
Qed.
Lemma authority_facts a : valid_authority a -> exists x, require_time (JStr (expires_at a)) "authority expires_at" = Ok x.
Proof.
  unfold valid_authority, authority_of. intros H. take_ok H i E1. take_ok H t E2. take_ok H u3 E3. take_ok H u4 E4. take_ok H u5 E5. take_guard H E6. take_ok H s E7.
  apply a_time_ok in E7 as [E7 [x Hx]]. injection E7 as <-. exists x. by eapply time_label.
Qed.
Lemma score_facts s : valid_score s -> float_of_int (score s) = Ok (round53 (score s)).
Proof.
  unfold valid_score, score_of. intros H. take_ok H i E1. cbn in H. take_ok H f E2. clear H. revert E2. unfold float_of_int. intros H. take_guard H E. by rewrite E.
Qed.

Record draft_facts (d : DecisionMemoryDraft) : Prop := {
  df_memory : is_portable (memory_id d) = true;
  df_snapshot : is_digest (snapshot d) = true;
  df_some : alternatives d <> [];
  df_alternatives : NoDup (map alternative_id (alternatives d));
  df_authority : NoDup (map authority_id (authority d));
  df_scores : NoDup (map scored_id (scores d));
  df_fresh : exists t, require_time (JStr (fresh_until d)) "fresh_until" = Ok t }.
Lemma draft_facts_of d : valid_draft d -> draft_facts d.
Proof.
  intros [H _ _ _ _ _ _]. unfold draft_of in H. take_ok H z E0. take_ok H i E1. take_ok H q E2. take_ok H s E3. take_guard H E4. take_guard H E5. take_guard H E6.
  take_ok H u7 E7. take_guard H E8. take_ok H m E9. take_guard H E10. take_ok H u E11. take_ok H o E12. take_ok H t1 E13. take_ok H t2 E14. clear H.
  apply an_identifier_ok in E1 as [E1 Hi]. injection E1 as E1. apply a_digest_ok in E3 as [E3 Hs]. injection E3 as E3.
  apply andb_true_iff in E4 as [E4 E4']. apply negb_true_iff, bool_decide_eq_false in E4. apply bool_decide_eq_true in E4', E8, E10.
  constructor; try done; [by rewrite E1|by rewrite E3|intros E; apply E4; cbn [p_alternatives parts_of]; by rewrite E|by exists t2].
Qed.

(** ** Each check of the selection *)

Lemma same_set_iff a b : same_set a b = true <-> forall x, x ∈ a <-> x ∈ b.
Proof.
  unfold same_set. rewrite andb_true_iff, !forallb_forall. split.
  - intros [H1 H2] x. rewrite <- !mem_spec. split; intros Hx; [apply H1|apply H2]; by apply list_elem_of_In, mem_spec.
  - intros H. split; intros x Hx%list_elem_of_In; by apply mem_spec, H.
Qed.

Lemma app_nil_iff {A} (l l' : list A) : l ++ l' = [] <-> l = [] /\ l' = [].
Proof. split; [apply app_eq_nil|by intros [-> ->]]. Qed.
Lemma if_nil {A} (b : bool) (x : A) : (if b then [] else [x]) = [] <-> b = true.
Proof. by destruct b. Qed.
Lemma map_filter_nil {A} (g : string -> A) (known l : list string) :
  map g (List.filter (fun i => negb (mem i known)) l) = [] <-> forall i, i ∈ l -> i ∈ known.
Proof.
  induction l as [|x l IH]; [split; [intros _ i Hi; by apply elem_of_nil in Hi|done]|]. cbn [List.filter]. destruct (mem x known) eqn:E; cbn [negb map].
  - apply mem_spec in E. rewrite IH. split; [intros H i [->|Hi]%elem_of_cons; auto|intros H i Hi; apply H; by right].
  - split; [done|]. intros H. assert (Hx : mem x known = true) by (apply mem_spec, H; by left). congruence.
Qed.

Record evidenced (d : DecisionMemoryDraft) (a : DecisionAlternative) : Prop := {
  ev_some : evidence_ids a <> [];
  ev_known : forall i, i ∈ evidence_ids a -> i ∈ map evidence_id (evidence d);
  ev_counter : forall i, i ∈ counterevidence_ids a -> i ∈ map evidence_id (counterevidence d);
  ev_constraints : forall c, c ∈ (constraint_results a).*1 <-> c ∈ constraints d }.
Lemma gaps_nil d a : gaps d a = [] <-> evidenced d a.
Proof.
  unfold gaps. rewrite !app_nil_iff, !map_filter_nil, if_nil, same_set_iff. split.
  - intros (H1 & H2 & H3 & H4). constructor; try done. case_bool_decide; done.
  - intros [H1 H2 H3 H4]. split_and!; try done. by rewrite bool_decide_eq_false_2.
Qed.
Lemma flat_map_nil {A B} (f : A -> list B) l : flat_map f l = [] <-> forall x, x ∈ l -> f x = [].
Proof.
  induction l as [|y l IH]; [split; [intros _ x Hx; by apply elem_of_nil in Hx|done]|]. cbn [flat_map]. rewrite app_nil_iff, IH. split.
  - intros [H1 H2] x [->|Hx]%elem_of_cons; auto.
  - intros H. split; [apply H; by left|intros x Hx; apply H; by right].
Qed.
Lemma missing_evidence_nil d : missing_evidence d = [] <->
  (forall a, a ∈ alternatives d -> evidenced d a) /\ forall i, i ∈ map scored_id (scores d) <-> i ∈ map alternative_id (alternatives d).
Proof.
  unfold missing_evidence. rewrite app_nil_iff, flat_map_nil, if_nil, same_set_iff. split; intros [H1 H2]; (split; [|done]); intros a Ha; by apply gaps_nil, H1.
Qed.

(** The authority of an alternative is clear at the moment. *)
Definition authorized (d : DecisionMemoryDraft) (moment : datetime) (a : DecisionAlternative) : Prop :=
  exists e x, e ∈ authority d /\ authority_ids a = [authority_id e] /\ require_time (JStr (expires_at e)) "authority expires_at" = Ok x
              /\ instant moment <= instant x.
Lemma authority_gap_spec d moment a : valid_draft d -> is_aware moment = true ->
  exists why, authority_gap d moment a = Ok why /\ (why = [] <-> authorized d moment a)
    /\ (why = [] \/ why = [(alternative_id a +:+ ":requires-exactly-one-authority")%stdpp] \/ why = [(alternative_id a +:+ ":authority-missing-or-expired")%stdpp]).
Proof.
  intros Hd Hm. assert (Hf := draft_facts_of d Hd). unfold authority_gap, authorized. destruct (authority_ids a) as [|i [|j l]].
  - eexists. split; [done|]. split; [|by right; left]. split; [done|]. by intros (e & x & _ & E & _).
  - destruct (lookup_key i (index_by authority_id (authority d))) as [e|] eqn:El.
    + apply index_by_some in El as [He Hi]; [|apply Hf]. assert (Ve : valid_authority e) by (assert (H := vd_authority d Hd); rewrite Forall_forall in H; by apply H).
      destruct (authority_facts e Ve) as [x Hx]. rewrite Hx. cbn [rbind]. rewrite later_aware by (done || by eapply time_aware). cbn [rbind]. eexists. split; [done|].
      destruct (instant moment <=? instant x) eqn:El; cbn [negb].
      * split; [|by left]. split; [|done]. intros _. exists e, x. apply Z.leb_le in El. by rewrite Hi.
      * split; [|by right; right]. split; [done|]. intros (e' & x' & He' & [= E] & Hx' & Hle). apply Z.leb_gt in El.
        assert (e' = e) as ->. { apply (same_key authority_id (authority d)); [apply Hf|done|done|congruence]. }
        rewrite Hx in Hx'. injection Hx' as <-. lia.
    + eexists. split; [done|]. split; [|by right; right]. split; [done|]. intros (e & x & He & [= E] & _).
      assert (Hs : lookup_key i (index_by authority_id (authority d)) = Some e) by (apply index_by_some; [apply Hf|done]). congruence.
  - eexists. split; [done|]. split; [|by right; left]. split; [done|]. by intros (e & x & _ & E & _).
Qed.

(** ** Reasons are different strings *)

Fixpoint chars (s : string) : list ascii := match s with String a s' => a :: chars s' | EmptyString => [] end.
Lemma chars_append x y : chars (x +:+ y)%stdpp = chars x ++ chars y.
Proof. induction x as [|a x IH]; [done|]. change (a :: chars (x +:+ y)%stdpp = a :: (chars x ++ chars y)). by rewrite IH. Qed.
Lemma chars_inj x y : chars x = chars y -> x = y.
Proof. revert y. induction x as [|a x IH]; intros [|b y]; try done. intros [= -> E]. f_equal. by apply IH. Qed.
Lemma suffix_inj x y s : (x +:+ s)%stdpp = (y +:+ s)%stdpp -> x = y.
Proof. intros E. apply chars_inj. apply (app_inv_tail (chars s)). by rewrite <- !chars_append, E. Qed.
Lemma suffix_last x y s t a b : (x +:+ s)%stdpp = (y +:+ t)%stdpp -> last (chars s) = Some a -> last (chars t) = Some b -> a = b.
Proof.
  intros E Ha Hb. assert (H : last (chars (x +:+ s)%stdpp) = last (chars (y +:+ t)%stdpp)) by (by rewrite E).
  rewrite !chars_append, !last_app, Ha, Hb in H. by injection H.
Qed.

Lemma sorted_reasons l : l <> [] -> NoDup l -> "" ∉ l -> _unique_strings (sorted_str l) "selection blocker reasons" true = Ok tt.
Proof.
  intros Hl Hn He. unfold _unique_strings, sorted_str. rewrite (proj2 (negb_true_iff _)).
  - cbn [require rbind]. rewrite bool_decide_eq_false_2 by (intros E; apply Hl; assert (Hp := sorted_by_perm id l); rewrite E in Hp; by apply Permutation_nil_l in Hp).
    cbn [negb orb require rbind]. unfold distinct. rewrite bool_decide_eq_true_2; [done|]. by rewrite sorted_by_perm.
  - apply not_true_iff_false. by rewrite mem_spec, elem_of_sorted_by.
Qed.

Lemma blocked_total c why d : valid_draft d -> why <> [] -> NoDup why -> "" ∉ why -> exists b, blocker_of c (sorted_str why) d = Ok (Blocked b).
Proof.
  intros Hd H1 H2 H3. unfold blocker_of. rewrite sorted_reasons by done. cbn [rbind]. destruct (draft_facts_of d Hd) as [Hm Hs _ _ _ _ _].
  unfold require_identifier, require_digest. rewrite Hm, Hs. cbn [require rbind]. by eexists.
Qed.
Lemma blocked_one c why d : valid_draft d -> why <> "" -> exists b, blocker_of c [why] d = Ok (Blocked b).
Proof.
  intros Hd H. change [why] with (sorted_str [why]). apply blocked_total; [done|done|apply NoDup_singleton|by rewrite list_elem_of_singleton].
Qed.

Lemma colon_nonempty x s : (x +:+ String ":" s)%stdpp <> "".
Proof. by destruct x. Qed.
Lemma gaps_nonempty d a : "" ∉ gaps d a.
Proof.
  unfold gaps. rewrite !not_elem_of_app. split_and!.
  - destruct (bool_decide _); [|apply not_elem_of_nil]. rewrite list_elem_of_singleton. intros E. symmetry in E. by apply colon_nonempty in E.
  - intros H%list_elem_of_In%in_map_iff. destruct H as (i & E & _). by apply colon_nonempty in E.
  - intros H%list_elem_of_In%in_map_iff. destruct H as (i & E & _). by apply colon_nonempty in E.
  - destruct (same_set _ _); [apply not_elem_of_nil|]. rewrite list_elem_of_singleton. intros E. symmetry in E. by apply colon_nonempty in E.
Qed.
Lemma missing_nonempty d : "" ∉ missing_evidence d.
Proof.
  unfold missing_evidence. rewrite not_elem_of_app. split.
  - intros H%list_elem_of_In%in_flat_map. destruct H as (a & _ & Ha%list_elem_of_In). by apply gaps_nonempty in Ha.
  - destruct (same_set _ _); [apply not_elem_of_nil|by rewrite list_elem_of_singleton].
Qed.

(** The authority check of a list of alternatives. *)
Lemma authority_gaps_spec d moment (l : list DecisionAlternative) : valid_draft d -> is_aware moment = true -> NoDup (map alternative_id l) ->
  exists whys, map_result (authority_gap d moment) l = Ok whys /\ (concat whys = [] <-> forall a, a ∈ l -> authorized d moment a)
    /\ "" ∉ concat whys /\ NoDup (concat whys)
    /\ forall r, r ∈ concat whys -> exists a, a ∈ l /\ (r = (alternative_id a +:+ ":requires-exactly-one-authority")%stdpp
                                                 \/ r = (alternative_id a +:+ ":authority-missing-or-expired")%stdpp).
Proof.
  intros Hd Hm. induction l as [|a l IH]; intros Hn.
  { exists []. split; [done|]. cbn [concat]. split; [split; [intros _ a Ha; by apply elem_of_nil in Ha|done]|].
    split; [apply not_elem_of_nil|]. split; [constructor|intros r Hr; by apply elem_of_nil in Hr]. }
  cbn [map] in Hn. apply NoDup_cons in Hn as [Hna Hn]. destruct (IH Hn) as (whys & E & Hnil & He & Hd' & Hr). clear IH.
  destruct (authority_gap_spec d moment a Hd Hm) as (why & Ew & Hw & Hshape). exists (why :: whys). cbn [map_result]. rewrite Ew. cbn [rbind]. rewrite E.
  split; [done|]. cbn [concat]. split; [|split; [|split]].
  - rewrite app_nil_iff, Hw, Hnil. split; [intros [H1 H2] x [->|Hx]%elem_of_cons; auto|]. intros H. split; [apply H; by left|intros x Hx; apply H; by right].
  - rewrite not_elem_of_app. split; [|done]. destruct Hshape as [->|[->| ->]]; [apply not_elem_of_nil| |];
      rewrite list_elem_of_singleton; intros E'; symmetry in E'; by apply colon_nonempty in E'.
  - apply NoDup_app. split; [destruct Hshape as [->|[->| ->]]; [constructor|apply NoDup_singleton..]|]. split; [|done].
    intros r Hin Hin'. destruct (Hr r Hin') as (b & Hb & Hrb).
    assert (Hne : alternative_id a <> alternative_id b).
    { intros Eab. apply Hna. rewrite Eab. apply list_elem_of_In, in_map, list_elem_of_In. done. }
    destruct Hshape as [->|[->| ->]]; [by apply elem_of_nil in Hin| |]; apply list_elem_of_singleton in Hin; subst r; destruct Hrb as [Er|Er];
      first [by apply suffix_inj in Er|by apply (suffix_last _ _ _ _ "y"%char "d"%char) in Er|by apply (suffix_last _ _ _ _ "d"%char "y"%char) in Er].
  - intros r [Hin|Hin]%elem_of_app.
    + exists a. split; [by left|]. destruct Hshape as [->|[->| ->]]; [by apply elem_of_nil in Hin| |]; apply list_elem_of_singleton in Hin; auto.
    + destruct (Hr r Hin) as (b & Hb & H). exists b. split; [by right|done].
Qed.

(** ** The highest score *)

Lemma maximum_spec l : l <> [] -> exists m, maximum l = Ok m /\ m ∈ l /\ forall x, x ∈ l -> x <= m.
Proof.
  destruct l as [|z l]; [done|]. intros _. cbn [maximum]. eexists. split; [done|]. revert z. induction l as [|y l IH]; intros z; cbn [fold_left].
  - split; [by left|]. intros x Hx. apply list_elem_of_singleton in Hx as ->. lia.
  - destruct (IH (Z.max z y)) as [H1 H2]. split.
    + apply elem_of_cons in H1 as [H1|H1]; [|by right; right]. rewrite H1. destruct (Z.max_spec z y) as [[_ ->]|[_ ->]]; [by right; left|by left].
    + intros x [->|[->|Hx]%elem_of_cons]%elem_of_cons; [| |by apply H2; right]; (etrans; [|apply H2; by left]); lia.
Qed.

Lemma float_scores_ok d : valid_draft d -> float_scores d = Ok (map (fun s => (scored_id s, round53 (score s))) (scores d)).
Proof.
  intros Hd. assert (H := vd_scores d Hd). unfold float_scores. induction H as [|s l Hs _ IH]; [done|]. cbn [map_result map]. rewrite (score_facts s Hs). cbn [rbind]. by rewrite IH.
Qed.

(** The name of the best score, when it is alone. *)
Definition best (d : DecisionMemoryDraft) (name : string) : Prop :=
  exists s, s ∈ scores d /\ scored_id s = name /\ forall s', s' ∈ scores d -> s' <> s -> round53 (score s') < round53 (score s).

Lemma filter_single {A} (f : A -> bool) l x : NoDup l -> List.filter f l = [x] <-> x ∈ l /\ f x = true /\ forall y, y ∈ l -> f y = true -> y = x.
Proof.
  intros Hn. assert (Hf : NoDup (List.filter f l)) by (eapply sublist_NoDup; [exact Hn|apply filter_sublist]).
  assert (He : forall y, y ∈ List.filter f l <-> y ∈ l /\ f y = true) by (intros y; by rewrite !list_elem_of_In, filter_In). split.
  - intros E. rewrite E in He. destruct (proj1 (He x)) as [H1 H2]; [by left|]. split_and!; try done. intros y Hy Hfy. by apply list_elem_of_singleton, He.
  - intros (H1 & H2 & H3). assert (Hx : x ∈ List.filter f l) by (by apply He). destruct (List.filter f l) as [|y [|z r]]; [by apply elem_of_nil in Hx| |].
    + apply list_elem_of_singleton in Hx. congruence.
    + destruct (proj1 (He y)) as [Hy Hfy]; [by left|]. destruct (proj1 (He z)) as [Hz Hfz]; [by right; left|].
      apply NoDup_cons in Hf as [Hf _]. exfalso. apply Hf. rewrite (H3 y Hy Hfy), (H3 z Hz Hfz). by left.
Qed.

Lemma sorted_single l n : sorted_str l = [n] <-> l = [n].
Proof.
  unfold sorted_str. split; intros H; [|by rewrite H]. assert (Hp := sorted_by_perm id l). rewrite H in Hp. by apply Permutation_singleton_l in Hp.
Qed.

Lemma best_found d high name : NoDup (map scored_id (scores d)) ->
  let floats := map (fun s => (scored_id s, round53 (score s))) (scores d) in
  high ∈ floats.*2 -> (forall x, x ∈ floats.*2 -> x <= high) -> at_score high floats = [name] <-> best d name.
Proof.
  intros Hn floats Hh Hmax. assert (Hnl : NoDup (scores d)) by (by apply (NoDup_fmap_1 scored_id)).
  assert (E : map fst (List.filter (fun s => s.2 =? high) floats) = map scored_id (List.filter (fun s => round53 (score s) =? high) (scores d))).
  { unfold floats. clear. induction (scores d) as [|s l IH]; [done|]. cbn. destruct (round53 (score s) =? high); cbn; by rewrite IH. }
  unfold at_score. rewrite sorted_single, E.
  assert (Hm : forall s, s ∈ scores d -> round53 (score s) <= high).
  { intros s Hs. apply Hmax. unfold floats. change (map ?f ?l) with (f <$> l). rewrite <- list_fmap_compose. apply list_elem_of_fmap. by exists s. }
  assert (Hr : exists s, s ∈ scores d /\ round53 (score s) = high).
  { unfold floats in Hh. change (map ?f ?l) with (f <$> l) in Hh. rewrite <- list_fmap_compose in Hh. apply list_elem_of_fmap in Hh as (s & -> & Hs). by exists s. }
  clear Hh Hmax E. split.
  - intros E. destruct (List.filter _ _) as [|s [|s' r]] eqn:Ef; try done. injection E as E. apply filter_single in Ef as (Hs & Hf & Hu); [|done].
    apply Z.eqb_eq in Hf. exists s. split_and!; try done. intros s' Hs' Hne. specialize (Hm s' Hs').
    assert (round53 (score s') <> high) by (intros E'; apply Hne, Hu; [done|by apply Z.eqb_eq]). lia.
  - intros (s & Hs & <- & Hlt). assert (Es : round53 (score s) = high).
    { destruct Hr as (s' & Hs' & <-). destruct (decide (scored_id s' = scored_id s)) as [Eid|Hne].
      - f_equal. f_equal. symmetry. by apply (same_key scored_id (scores d)).
      - assert (s' <> s) by (by intros ->). specialize (Hlt s' Hs' ltac:(done)). specialize (Hm s Hs). lia. }
    rewrite (proj2 (filter_single _ _ s Hnl)); [done|]. split_and!; [done|by apply Z.eqb_eq|]. intros y Hy Hfy%Z.eqb_eq.
    destruct (decide (scored_id y = scored_id s)) as [Eid|Hne]; [by apply (same_key scored_id (scores d))|].
    assert (y <> s) by (by intros ->). specialize (Hlt y Hy ltac:(done)). lia.
Qed.

(** ** The decision *)

Definition others (d : DecisionMemoryDraft) (i : string) : list string :=
  List.filter (fun k => negb (String.eqb k i)) (map alternative_id (alternatives d)).
Definition entry_with (d : DecisionMemoryDraft) (w : string) : DecisionMemoryEntry :=
  {| draft := d; winner := w; losers := sorted_str (others d w); entry_digest := canonical_digest (JObj (entry_body d w (sorted_str (others d w)))) |}.

Lemma entry_of_winner d w : valid_draft d -> w ∈ map alternative_id (alternatives d) -> entry_of d (JStr w) (sorted_str (others d w)) (JStr "") = Ok (entry_with d w).
Proof.
  intros Hd Hw. unfold entry_of. cbn [rbind]. rewrite (proj2 (mem_spec _ _) Hw). cbn [require rbind].
  assert (Hn : NoDup (others d w)).
  { eapply sublist_NoDup; [exact (df_alternatives d (draft_facts_of d Hd))|]. apply filter_sublist. }
  assert (He : "" ∉ others d w).
  { unfold others. rewrite list_elem_of_In, filter_In, in_map_iff. intros [(a & Ea & Ha%list_elem_of_In) _]. assert (Hv := vd_alternatives d Hd). rewrite Forall_forall in Hv.
    destruct (alternative_facts a (Hv a Ha)) as [Hp _]. rewrite Ea in Hp. done. }
  assert (Hu : _unique_strings (sorted_str (others d w)) "decision losers" false = Ok tt).
  { unfold _unique_strings. rewrite (proj2 (negb_true_iff _)); [|apply not_true_iff_false; unfold sorted_str; by rewrite mem_spec, elem_of_sorted_by].
    cbn [require rbind negb orb]. unfold distinct. rewrite bool_decide_eq_true_2; [done|]. unfold sorted_str. by rewrite sorted_by_perm. }
  rewrite Hu. cbn [rbind]. fold (others d w). rewrite (proj2 (same_set_iff _ _)) by (intros x; unfold sorted_str; apply elem_of_sorted_by). cbn [require rbind falsy orb].
  reflexivity.
Qed.

(** What a draft must be for one of its alternatives to be selected. *)
Record selectable (d : DecisionMemoryDraft) (moment : datetime) (w : DecisionAlternative) : Prop := {
  se_evidence : forall a, a ∈ alternatives d -> evidenced d a;
  se_scored : forall i, i ∈ map scored_id (scores d) <-> i ∈ map alternative_id (alternatives d);
  se_authority : forall a, a ∈ alternatives d -> authorized d moment a;
  se_winner : w ∈ alternatives d;
  se_best : best d (alternative_id w);
  se_safe : safe w = true /\ forall c b, (c, b) ∈ constraint_results w -> b = true }.
Definition current (d : DecisionMemoryDraft) (observed : string) (moment : datetime) : Prop :=
  observed = snapshot d /\ exists fresh, require_time (JStr (fresh_until d)) "fresh_until" = Ok fresh /\ instant moment <= instant fresh.

Lemma choice_spec d name : valid_draft d -> name ∈ map alternative_id (alternatives d) ->
  exists s, choose d name = Ok s /\ forall e, s = Selected e <-> e = entry_with d name
    /\ exists w, w ∈ alternatives d /\ alternative_id w = name /\ safe w = true /\ forall c b, (c, b) ∈ constraint_results w -> b = true.
Proof.
  intros Hd Hn. unfold choose. destruct (find _ _) as [w|] eqn:Ef.
  2: { apply list_elem_of_In, in_map_iff in Hn as (w & Ew & Hw). apply (find_none _ _ Ef) in Hw. rewrite Ew, String.eqb_refl in Hw. done. }
  apply find_some in Ef as [Hw Ew]. apply list_elem_of_In in Hw. apply String.eqb_eq in Ew as <-.
  assert (Hu : forall w', w' ∈ alternatives d -> alternative_id w' = alternative_id w -> w' = w)
    by (intros w' Hw' E; apply (same_key alternative_id (alternatives d)); [apply draft_facts_of, Hd|done..]).
  assert (Hf : forallb snd (constraint_results w) = true <-> forall c b, (c, b) ∈ constraint_results w -> b = true).
  { rewrite forallb_forall. split; [intros H c b Hin; apply (H (c, b)); by apply list_elem_of_In|intros H [c b] Hin; apply (H c b); by apply list_elem_of_In]. }
  destruct (negb (safe w) || negb (forallb snd (constraint_results w))) eqn:Eu.
  - destruct (blocked_one UNSAFE_WINNER ("highest-scoring alternative " +:+ alternative_id w +:+ " is unsafe")%stdpp d Hd ltac:(done)) as [b Hb].
    exists (Blocked b). split; [exact Hb|]. intros e. split; [done|]. intros (_ & w' & Hw' & Ew' & Hs & Hc). rewrite (Hu w' Hw' Ew') in *.
    apply Hf in Hc. by rewrite Hs, Hc in Eu.
  - apply orb_false_iff in Eu as [E1%negb_false_iff E2%negb_false_iff]. assert (He := entry_of_winner d (alternative_id w) Hd Hn). unfold others in He. rewrite He. cbn [rbind].
    exists (Selected (entry_with d (alternative_id w))). split; [done|]. intros e. split; [|by intros [-> _]]. intros [= <-]. split; [done|]. exists w. split_and!; try done. by apply Hf.
Qed.

(** C25: a decision is selected exactly when it is the one safe choice.  On a
    constructed draft [select_decision] always answers; it selects an entry
    exactly when the observed snapshot is that of the draft and the draft still
    fresh, every alternative is evidenced and has one unexpired authority, every
    alternative is scored, one score is, as a float, above all others, and that
    alternative is safe and meets its constraints; the entry then names it, keeps
    every other alternative as a loser and carries its digest.  A lower score is
    never selected in place of an unsafe one. *)
Theorem decision_selected_iff d observed now moment : valid_draft d -> is_digest observed = true -> require_time (JStr now) "selection time" = Ok moment ->
  exists s, select_decision d (JStr observed) (JStr now) = Ok s
    /\ forall e, s = Selected e <-> current d observed moment /\ exists w, selectable d moment w /\ e = entry_with d (alternative_id w).
Proof.
  intros Hd Ho Hm. assert (Hf := draft_facts_of d Hd). assert (Ha := time_aware _ _ _ Hm). destruct Hf as [Fm Fs Fne Fa Fau Fsc [fresh Ffr]].
  assert (blocked : forall r (P : DecisionMemoryEntry -> Prop), (exists b, r = Ok (Blocked b)) -> (forall e, ~ P e) -> exists s, r = Ok s /\ forall e, s = Selected e <-> P e).
  { intros r P [b ->] HP. exists (Blocked b). split; [done|]. intros e. split; [done|]. intros He. by apply HP in He. }
  unfold select_decision. unfold require_digest at 1. rewrite Ho. cbn [require rbind]. rewrite Hm. cbn [rbind].
  assert (Est : exists stale, (if negb (py_eq (JStr observed) (JStr (snapshot d))) then Ok true
                 else let? fresh := require_time (JStr (fresh_until d)) "fresh_until" in later moment fresh) = Ok stale /\ (stale = false <-> current d observed moment)).
  { unfold current. destruct (decide (observed = snapshot d)) as [->|Hne].
    - rewrite (proj2 (py_eq_str _ _) eq_refl). cbn [negb]. rewrite Ffr. cbn [rbind]. rewrite later_aware by (done || by eapply time_aware).
      eexists. split; [done|]. rewrite negb_false_iff, Z.leb_le. split; [intros H; split; [done|]; by exists fresh|]. by intros (_ & f & [= <-] & H).
    - destruct (py_eq (JStr observed) (JStr (snapshot d))) eqn:E; [apply py_eq_str in E; congruence|]. exists true. split; [done|]. split; [done|]. by intros [? _]. }
  destruct Est as (stale & -> & Hst). cbn [rbind]. destruct stale.
  { apply blocked; [by apply blocked_one|]. intros e [Hc _]. by apply Hst in Hc. }
  assert (Hcur : current d observed moment) by (by apply Hst).
  destruct (decide (missing_evidence d = [])) as [Em|Em]; [rewrite bool_decide_eq_true_2 by done|rewrite bool_decide_eq_false_2 by done]; cbn [negb].
  2: { apply blocked.
       - apply blocked_total; [done| |apply NoDup_dedup|rewrite elem_of_dedup; apply missing_nonempty].
         intros E. apply Em. destruct (missing_evidence d) as [|x l]; [done|]. assert (Hx : x ∈ dedup (x :: l)) by (apply elem_of_dedup; by left). rewrite E in Hx. by apply elem_of_nil in Hx.
       - intros e (_ & w & [H1 H2 _ _ _ _] & _). apply Em, missing_evidence_nil. by split. }
  apply missing_evidence_nil in Em as [Hev Hsc]. destruct (authority_gaps_spec d moment (alternatives d) Hd Ha Fa) as (whys & -> & Hnil & Hne & Hnd & _). cbn [rbind].
  destruct (decide (concat whys = [])) as [Ew|Ew]; [rewrite bool_decide_eq_true_2 by done|rewrite bool_decide_eq_false_2 by done]; cbn [negb].
  2: { apply blocked; [by apply blocked_total|]. intros e (_ & w & [_ _ H3 _ _ _] & _). by apply Ew, Hnil. }
  assert (Hau := proj1 Hnil Ew). rewrite (float_scores_ok d Hd). cbn [rbind].
  set (floats := map (fun s => (scored_id s, round53 (score s))) (scores d)).
  assert (Hfl : floats.*2 <> []).
  { unfold floats. destruct (alternatives d) as [|a0 l0] eqn:Eal; [done|]. assert (H0 : alternative_id a0 ∈ map scored_id (scores d)) by (apply Hsc; by left).
    destruct (scores d); [by apply elem_of_nil in H0|done]. }
  destruct (maximum_spec floats.*2 Hfl) as (high & -> & Hin & Hmax). cbn [rbind].
  assert (Hbest := fun name => best_found d high name Fsc Hin Hmax). fold floats in Hbest.
  assert (Hno : (forall name, at_score high floats <> [name]) -> forall e, ~ (current d observed moment /\ exists w, selectable d moment w /\ e = entry_with d (alternative_id w))).
  { intros H e (_ & w & [_ _ _ _ H5 _] & _). by apply (H (alternative_id w)), Hbest. }
  destruct (at_score high floats) as [|name [|name' names]] eqn:Eat; [by apply blocked; [by apply blocked_one|apply Hno]| |by apply blocked; [by apply blocked_one|apply Hno]].
  assert (Hname : best d name) by (by apply Hbest). assert (Hmem : name ∈ map alternative_id (alternatives d)).
  { apply Hsc. destruct Hname as (s & Hs & <- & _). apply list_elem_of_fmap. by exists s. }
  destruct (choice_spec d name Hd Hmem) as (s & Hs & Hsel). exists s. split; [done|]. intros e. rewrite Hsel. split.
  - intros (-> & w & Hw & <- & Hsafe & Hcons). split; [done|]. exists w. split; [|done]. by constructor.
  - intros (_ & w & [_ _ _ H4 H5 [H6 H6']] & ->). assert (En : name = alternative_id w) by (assert (E2 := proj2 (Hbest _) H5); by injection E2).
    subst name. split; [done|]. exists w. by split_and!.
Qed.

(** ** Storage *)

(** The call at the head of [H] is also the call at the head of the goal. *)
Ltac replay H x := let E := fresh "E" in apply rbind_ok in H as (x & E & H); match type of E with ?r = _ => match goal with |- rbind ?r' _ = _ => change r' with r end end; rewrite E; cbn [rbind].

(** What storage changes: the constraint results of an alternative are a JSON
    object, which comes back in the order of its names. *)
Definition stored_alternative (a : DecisionAlternative) : DecisionAlternative :=
  {| alternative_id := alternative_id a; description := description a; evidence_ids := evidence_ids a; counterevidence_ids := counterevidence_ids a;
     constraint_results := sorted_by fst (constraint_results a); authority_ids := authority_ids a; safe := safe a |}.
Definition stored_draft (d : DecisionMemoryDraft) : DecisionMemoryDraft :=
  {| memory_id := memory_id d; question := question d; snapshot := snapshot d; alternatives := map stored_alternative (alternatives d);
     evidence := evidence d; counterevidence := counterevidence d; constraints := constraints d; authority := authority d; budget := budget d;
     scoring_model := scoring_model d; scores := scores d; uncertainty := uncertainty d; owner := owner d; decided_at := decided_at d;
     fresh_until := fresh_until d; corrections := corrections d; supersession := supersession d; appeal_state := appeal_state d |}.
Definition stored_entry (e : DecisionMemoryEntry) : DecisionMemoryEntry :=
  {| draft := stored_draft (draft e); winner := winner e; losers := losers e; entry_digest := entry_digest e |}.

Lemma strings_of l : forallb (fun x => bool_decide (is_Some (as_str x))) (map JStr l) = true /\ omap as_str (map JStr l) = l.
Proof. induction l as [|s l [IH1 IH2]]; [done|]. cbn. rewrite IH2. by split. Qed.
Lemma string_list_strs l label : string_list (strs l) label = Ok l.
Proof. unfold string_list, strs. destruct (strings_of l) as [-> ->]. done. Qed.
Lemma object_list_objects os label : object_list (JList (map JObj os)) label = Ok os.
Proof.
  unfold object_list. rewrite objects_of, (proj2 (forallb_forall _ _)); [done|]. intros x (y & <- & _)%in_map_iff. done.
Qed.

(** A list of records is read back when each of them is. *)
Lemma records_back {A} (to : A -> contract) (from : contract -> result A) (f : A -> A) l :
  (forall x o, x ∈ l -> norm (JObj (to x)) = JObj o -> from o = Ok (f x)) ->
  exists os, norm (JList (map (fun x => JObj (to x)) l)) = JList (map JObj os) /\ map_result from os = Ok (map f l).
Proof.
  cbn [norm]. induction l as [|x l IH]; intros H; [by exists []|]. destruct IH as (os & E & Hos); [intros y o Hy; apply H; by right|].
  destruct (norm_obj_members (to x)) as (o & Eo & _). exists (o :: os). cbn [map map_result]. rewrite Eo. injection E as ->. split; [done|].
  rewrite (H x o) by (done || by left). cbn [rbind]. by rewrite Hos.
Qed.

Lemma evidence_back e o : valid_evidence e -> norm (JObj (evidence_to_document e)) = JObj o -> evidence_from_document o = Ok e.
Proof.
  intros Hv E. stored (evidence_to_document e) Hn E Hg Hk. unfold evidence_from_document. rewrite (closed_stored _ _ _ _ Hk) by done. cbn [rbind].
  rewrite Hg. change (norm (get "claim_ids" (evidence_to_document e))) with (norm (strs (claim_ids e))). rewrite norm_strs, string_list_strs. cbn [rbind].
  unfold evidence_of, member. rewrite !Hg. exact Hv.
Qed.
Lemma authority_back a o : valid_authority a -> norm (JObj (authority_to_document a)) = JObj o -> authority_from_document o = Ok a.
Proof.
  intros Hv E. stored (authority_to_document a) Hn E Hg Hk. unfold authority_from_document. rewrite (closed_stored _ _ _ _ Hk) by done. cbn [rbind]. rewrite !Hg.
  change (norm (get "allowed_actions" (authority_to_document a))) with (norm (strs (allowed_actions a))).
  change (norm (get "denied_actions" (authority_to_document a))) with (norm (strs (denied_actions a))). rewrite !norm_strs. unfold strs.
  rewrite <- map_app. destruct (strings_of (allowed_actions a ++ denied_actions a)) as [-> _]. cbn [require rbind].
  destruct (strings_of (allowed_actions a)) as [_ ->]. destruct (strings_of (denied_actions a)) as [_ ->]. unfold authority_of, member. rewrite !Hg. exact Hv.
Qed.
Lemma budget_back b o : valid_budget b -> norm (JObj (budget_policy_to_document b)) = JObj o -> budget_policy_from_document o = Ok b.
Proof.
  intros Hv E. stored (budget_policy_to_document b) Hn E Hg Hk. unfold budget_policy_from_document. rewrite (closed_stored _ _ _ _ Hk) by done. cbn [rbind].
  unfold budget_policy_of, member. rewrite !Hg. exact Hv.
Qed.
Lemma score_back s o : valid_score s -> norm (JObj (score_to_document s)) = JObj o -> score_from_document o = Ok s.
Proof.
  intros Hv E. stored (score_to_document s) Hn E Hg Hk. unfold score_from_document. rewrite (closed_stored _ _ _ _ Hk) by done. cbn [rbind].
  unfold score_of, member. rewrite !Hg. exact Hv.
Qed.

Lemma sorted_constraints l : sorted_by fst (map (fun kv : string * json => (kv.1, norm kv.2)) (constraint_object l)) = constraint_object (sorted_by fst l).
Proof.
  induction l as [|[k b] l IH]; [done|]. cbn [map sorted_by constraint_object fst snd norm] in *. unfold constraint_object in IH at 1. rewrite IH. generalize (sorted_by fst l). intros r. clear.
  induction r as [|[k' b'] r IH]; [done|]. cbn [constraint_object map insert_by fst snd]. destruct (String.leb k k'); [done|]. cbn [constraint_object map fst snd] in *. by rewrite <- IH.
Qed.
Lemma constraint_map_object l : constraint_map (JObj (constraint_object l)) = Ok l.
Proof.
  unfold constraint_map. rewrite (proj2 (forallb_forall _ _)) by (intros x ([k b] & <- & _)%in_map_iff; done). cbn [require rbind]. f_equal.
  induction l as [|[k b] l IH]; [done|]. cbn. f_equal. exact IH.
Qed.
Lemma alternative_back a o : valid_alternative a -> norm (JObj (alternative_to_document a)) = JObj o -> alternative_from_document o = Ok (stored_alternative a).
Proof.
  intros Hv E. stored (alternative_to_document a) Hn E Hg Hk. unfold alternative_from_document. rewrite (closed_stored _ _ _ _ Hk) by done. cbn [rbind]. rewrite !Hg.
  change (norm (get "evidence_ids" (alternative_to_document a))) with (norm (strs (evidence_ids a))).
  change (norm (get "counterevidence_ids" (alternative_to_document a))) with (norm (strs (counterevidence_ids a))).
  change (norm (get "authority_ids" (alternative_to_document a))) with (norm (strs (authority_ids a))). rewrite !norm_strs, !string_list_strs. cbn [rbind].
  change (norm (get "constraint_results" (alternative_to_document a)))
    with (JObj (sorted_by fst (map (fun kv : string * json => (kv.1, norm kv.2)) (constraint_object (constraint_results a))))).
  rewrite sorted_constraints, constraint_map_object. cbn [rbind]. unfold alternative_of, member. rewrite !Hg. unfold valid_alternative, alternative_of, member in Hv.
  replay Hv i. replay Hv t. replay Hv u3. replay Hv u4. replay Hv u5. take_guard Hv E6. apply bool_decide_eq_true in E6.
  unfold distinct. rewrite bool_decide_eq_true_2 by (by rewrite sorted_by_perm). cbn [require rbind]. replay Hv s.
  injection Hv as Hv. unfold stored_alternative. rewrite <- Hv. reflexivity.
Qed.

Lemma appeal_back a : appeal_of (JStr (appeal_value a)) = Ok a.
Proof. by destruct a. Qed.

Lemma stored_ids l : map alternative_id (map stored_alternative l) = map alternative_id l.
Proof. rewrite map_map. by apply map_ext. Qed.

(** The constructor of a draft looks at the alternatives only by their names. *)
Lemma stored_draft_of d v : (forall k, v k = norm (member (draft_to_document d) k)) -> valid_draft d -> draft_of v (parts_of (stored_draft d)) = Ok (stored_draft d).
Proof.
  intros Hv [H _ _ _ _ _ _]. unfold draft_of in *. rewrite !Hv. cbn [p_alternatives p_evidence p_counterevidence p_constraints p_authority p_budget p_scores
    p_corrections p_appeal parts_of stored_draft alternatives evidence counterevidence constraints authority budget scores corrections appeal_state] in *.
  rewrite stored_ids. change (norm (member (draft_to_document d) "supersession")) with (norm (opt_str (supersession d))). rewrite norm_opt_str.
  replay H z. replay H i. replay H q. replay H s. replay H u1. replay H u2. replay H u3. replay H u4. replay H u5. replay H m. replay H u6. replay H u. replay H o.
  replay H t1. replay H t2. replay H st. replay H u7. replay H u8. replay H sup. injection H as H. unfold stored_draft. rewrite <- H. reflexivity.
Qed.

(** Objects whose members have the same names and canonical values. *)
Lemma norm_members_of (l l' : contract) : Forall2 (fun x y => x.1 = y.1 /\ norm x.2 = norm y.2) l l' -> norm (JObj l) = norm (JObj l').
Proof.
  intros H. cbn [norm]. do 2 f_equal. induction H as [|[k v] [k' v'] l l' [E1 E2] _ IH]; [done|]. cbn [map fst snd] in *. by rewrite E1, E2, IH.
Qed.

Lemma stored_alternative_norm a : valid_alternative a -> norm (JObj (alternative_to_document (stored_alternative a))) = norm (JObj (alternative_to_document a)).
Proof.
  intros Ha. destruct (alternative_facts a Ha) as [_ Hn]. apply norm_members_of. unfold alternative_to_document. cbn [stored_alternative alternative_id description evidence_ids counterevidence_ids
    constraint_results authority_ids safe]. repeat (constructor; [split; [reflexivity|]; try reflexivity|]); try constructor. cbn [snd]. symmetry. apply norm_obj_perm.
  - apply bool_decide_eq_true_2. unfold constraint_object. rewrite map_map. exact Hn.
  - apply Permutation_map. by rewrite sorted_by_perm.
Qed.
Lemma stored_body_norm d w ls : Forall valid_alternative (alternatives d) ->
  Forall2 (fun x y => x.1 = y.1 /\ norm x.2 = norm y.2) (entry_body (stored_draft d) w ls) (entry_body d w ls).
Proof.
  intros Ha. unfold entry_body, draft_to_document, stored_draft. cbn [app memory_id question snapshot alternatives evidence counterevidence constraints authority budget scoring_model scores
    uncertainty owner decided_at fresh_until corrections supersession appeal_state].
  repeat (constructor; [split; [reflexivity|]; try reflexivity|]); try constructor. cbn [snd norm]. f_equal. induction Ha as [|a l Hv _ IH]; [done|].
  cbn [map]. rewrite (stored_alternative_norm a Hv). f_equal. exact IH.
Qed.
Lemma same_norm_digest x y : norm x = norm y -> canonical_digest x = canonical_digest y.
Proof. intros E. unfold canonical_digest, canonical_bytes, dumps. by rewrite E. Qed.

Definition valid_entry (e : DecisionMemoryEntry) : Prop :=
  valid_draft (draft e) /\ entry_of (draft e) (JStr (winner e)) (losers e) (JStr (entry_digest e)) = Ok e.

Lemma entry_back e o : valid_entry e -> norm (JObj (entry_to_document e)) = JObj o -> entry_from_document o = Ok (stored_entry e).
Proof.
  intros [Hd He] E. assert (Hd' := Hd). destruct Hd' as [_ Va Ve Vc Vau Vb Vs]. stored (entry_to_document e) Hn E Hg Hk. unfold entry_from_document.
  rewrite (closed_stored _ _ _ _ Hk) by done. cbn [rbind]. rewrite !Hg.
  destruct (records_back alternative_to_document alternative_from_document stored_alternative (alternatives (draft e))) as (oa & Ea & Fa).
  { intros x ox Hx. rewrite Forall_forall in Va. by apply alternative_back, Va. }
  destruct (records_back evidence_to_document evidence_from_document id (evidence (draft e))) as (oe & Ee & Fe).
  { intros x ox Hx. rewrite Forall_forall in Ve. by apply evidence_back, Ve. }
  destruct (records_back evidence_to_document evidence_from_document id (counterevidence (draft e))) as (oc & Ec & Fc).
  { intros x ox Hx. rewrite Forall_forall in Vc. by apply evidence_back, Vc. }
  destruct (records_back authority_to_document authority_from_document id (authority (draft e))) as (ou & Eu & Fu).
  { intros x ox Hx. rewrite Forall_forall in Vau. by apply authority_back, Vau. }
  destruct (records_back score_to_document score_from_document id (scores (draft e))) as (os & Es & Fs).
  { intros x ox Hx. rewrite Forall_forall in Vs. by apply score_back, Vs. }
  destruct (norm_obj_members (budget_policy_to_document (budget (draft e)))) as (ob & Eb & _).
  change (norm (get "alternatives" (entry_to_document e))) with (norm (JList (map (fun a => JObj (alternative_to_document a)) (alternatives (draft e))))). rewrite Ea.
  change (norm (get "evidence" (entry_to_document e))) with (norm (JList (map (fun a => JObj (evidence_to_document a)) (evidence (draft e))))). rewrite Ee.
  change (norm (get "counterevidence" (entry_to_document e))) with (norm (JList (map (fun a => JObj (evidence_to_document a)) (counterevidence (draft e))))). rewrite Ec.
  change (norm (get "authority" (entry_to_document e))) with (norm (JList (map (fun a => JObj (authority_to_document a)) (authority (draft e))))). rewrite Eu.
  change (norm (get "scores" (entry_to_document e))) with (norm (JList (map (fun a => JObj (score_to_document a)) (scores (draft e))))). rewrite Es.
  rewrite !object_list_objects. cbn [rbind].
  change (norm (get "constraints" (entry_to_document e))) with (norm (strs (constraints (draft e)))).
  change (norm (get "losers" (entry_to_document e))) with (norm (strs (losers e))).
  change (norm (get "corrections" (entry_to_document e))) with (norm (strs (corrections (draft e)))). rewrite !norm_strs, !string_list_strs. cbn [rbind].
  change (norm (get "budget" (entry_to_document e))) with (norm (JObj (budget_policy_to_document (budget (draft e))))). rewrite Eb. cbn [rbind].
  change (norm (get "appeal_state" (entry_to_document e))) with (JStr (appeal_value (appeal_state (draft e)))). rewrite appeal_back. cbn [rbind].
  rewrite Fa, Fe, Fc, Fu, (budget_back _ _ Vb Eb), Fs. cbn [rbind]. rewrite !map_id.
  assert (Hm : forall k, k ∈ ["schema_version"; "memory_id"; "question"; "snapshot"; "scoring_model"; "uncertainty"; "owner"; "decided_at"; "fresh_until"; "supersession"] ->
            member o k = norm (member (draft_to_document (draft e)) k)).
  { intros k Hin. unfold member. rewrite Hg. f_equal. repeat (apply elem_of_cons in Hin as [->|Hin]; [reflexivity|]). by apply elem_of_nil in Hin. }
  assert (Hof : draft_of (member o) (parts_of (stored_draft (draft e))) = Ok (stored_draft (draft e))).
  { rewrite <- (stored_draft_of (draft e) (fun k => norm (member (draft_to_document (draft e)) k)) ltac:(done) Hd). unfold draft_of.
    by rewrite !Hm by set_solver. }
  unfold parts_of in Hof at 1. cbn [stored_draft alternatives evidence counterevidence constraints authority budget scores corrections appeal_state] in Hof. rewrite Hof. cbn [rbind].
  change (norm (get "winner" (entry_to_document e))) with (JStr (winner e)). change (norm (get "entry_digest" (entry_to_document e))) with (JStr (entry_digest e)).
  unfold entry_of in He |- *. cbn [rbind stored_draft alternatives] in He |- *. rewrite stored_ids.
  replay He u1. replay He u2. replay He u3.
  assert (Ed : canonical_digest (JObj (entry_body (stored_draft (draft e)) (winner e) (losers e))) = canonical_digest (JObj (entry_body (draft e) (winner e) (losers e))))
    by (by apply same_norm_digest, norm_members_of, stored_body_norm).
  fold (stored_draft (draft e)). rewrite Ed. replay He u4. injection He as He. unfold stored_entry. rewrite <- He. reflexivity.
Qed.

(** *** The shape of a stored entry *)

(** Distinct names at every level, and bounded depth. *)
Definition shaped (b : Z) (j : json) : Prop := json_wf j = true /\ _json_depth j <= b.

Lemma shaped_weaken b b' j : b <= b' -> shaped b j -> shaped b' j.
Proof. intros Hb [H1 H2]. split; [done|lia]. Qed.
Lemma shaped_object b (d : contract) : 0 <= b -> NoDup d.*1 -> Forall (fun kv => shaped b kv.2) d -> shaped (1 + b) (JObj d).
Proof.
  intros Hb Hn Hd. split.
  - apply object_wf; [done|]. intros k v Hin. rewrite Forall_forall in Hd. by apply (Hd (k, v)).
  - cbn [_json_depth]. clear Hn. induction Hd as [|kv d [_ H] _ IH]; cbn; lia.
Qed.
Lemma shaped_list b (l : list json) : 0 <= b -> Forall (shaped b) l -> shaped (1 + b) (JList l).
Proof.
  intros Hb Hl. split.
  - cbn. apply forallb_forall. intros j Hj%list_elem_of_In. rewrite Forall_forall in Hl. by apply Hl.
  - cbn [_json_depth]. induction Hl as [|j l [_ H] _ IH]; cbn; lia.
Qed.
Lemma shaped_scalar b j : 1 <= b -> match j with JList _ | JObj _ => False | _ => True end -> shaped b j.
Proof. intros Hb Hj. split; by destruct j. Qed.
Lemma shaped_strs b l : 2 <= b -> shaped b (strs l).
Proof.
  intros Hb. apply (shaped_weaken (1 + 1)); [lia|]. apply shaped_list; [lia|]. apply Forall_fmap. induction l as [|s l IH]; constructor; [by apply shaped_scalar|done].
Qed.
Lemma shaped_opt b o : 1 <= b -> shaped b (opt_str o).
Proof. intros Hb. destruct o; by apply shaped_scalar. Qed.
Lemma shaped_records {A} (to : A -> contract) b l : 0 <= b -> (forall x, x ∈ l -> shaped b (JObj (to x))) -> shaped (1 + b) (JList (map (fun x => JObj (to x)) l)).
Proof. intros Hb H. apply shaped_list; [done|]. apply Forall_fmap, Forall_forall. intros x Hx. by apply H. Qed.

(** An object whose names can be compared. *)
Ltac shape_object keys := apply shaped_object; [lia|apply (bool_decide_unpack (NoDup keys)); vm_compute; exact I|];
  repeat (apply Forall_cons; split); try apply Forall_nil_2; cbn [snd]; try (apply shaped_scalar; [lia|exact I]); try (apply shaped_strs; lia).

Lemma evidence_shaped e : shaped 3 (JObj (evidence_to_document e)).
Proof. change 3 with (1 + 2). shape_object ["evidence_id"; "digest"; "source"; "claim_ids"; "observed_at"]. Qed.
Lemma authority_shaped a : shaped 3 (JObj (authority_to_document a)).
Proof. change 3 with (1 + 2). shape_object ["authority_id"; "principal_id"; "grant_digest"; "allowed_actions"; "denied_actions"; "expires_at"; "external_effects"]. Qed.
Lemma budget_shaped b : shaped 2 (JObj (budget_policy_to_document b)).
Proof. change 2 with (1 + 1). shape_object budget_fields. Qed.
Lemma score_shaped s : shaped 2 (JObj (score_to_document s)).
Proof. change 2 with (1 + 1). shape_object ["alternative_id"; "score"]. Qed.
Lemma alternative_shaped a : valid_alternative a -> shaped 3 (JObj (alternative_to_document a)).
Proof.
  intros Ha. change 3 with (1 + 2).
  shape_object ["alternative_id"; "description"; "evidence_ids"; "counterevidence_ids"; "constraint_results"; "authority_ids"; "safe"].
  apply (shaped_object 1); [lia| |].
  - destruct (alternative_facts a Ha) as [_ Hn]. unfold constraint_object. change (map ?f ?l) with (f <$> l). by rewrite <- list_fmap_compose.
  - apply Forall_fmap. induction (constraint_results a) as [|[c b] l IH]; constructor; [by apply shaped_scalar|done].
Qed.
Lemma entry_shaped e : valid_entry e -> shaped 5 (JObj (entry_to_document e)).
Proof.
  intros [[_ Va Ve Vc Vau Vb Vs] _]. unfold entry_to_document, entry_body, draft_to_document. cbn [app]. change 5 with (1 + 4). shape_object entry_fields.
  - apply (shaped_records alternative_to_document 3); [lia|]. intros x Hx. rewrite Forall_forall in Va. by apply alternative_shaped, Va.
  - apply (shaped_records evidence_to_document 3); [lia|]. intros x _. apply evidence_shaped.
  - apply (shaped_records evidence_to_document 3); [lia|]. intros x _. apply evidence_shaped.
  - apply (shaped_records authority_to_document 3); [lia|]. intros x _. apply authority_shaped.
  - apply (shaped_weaken 2); [lia|]. apply budget_shaped.
  - apply (shaped_weaken 3); [lia|]. apply (shaped_records score_to_document 2); [lia|]. intros x _. apply score_shaped.
  - apply shaped_opt. lia.
Qed.

(** C30: a recorded decision survives storage.  The canonical text of a constructed
    entry within the size limit is read back as that entry, up to the order of the
    constraint results, which are an object; the digest still matches, and storing
    the entry again gives the same text. *)
Theorem decision_entry_round_trip e : valid_entry e -> Z.of_nat (String.length (canonical_bytes (JObj (entry_to_document e)))) <= DEFAULT_MAXIMUM_JSON_BYTES ->
  (let? o := strict_text (canonical_bytes (JObj (entry_to_document e))) in entry_from_document o) = Ok (stored_entry e)
  /\ canonical_bytes (JObj (entry_to_document (stored_entry e))) = canonical_bytes (JObj (entry_to_document e)).
Proof.
  intros He Hl. destruct (entry_shaped e He) as [Hw Hd]. split.
  - destruct (strict_text_canonical (entry_to_document e) Hw) as (o & Ho & ->); [unfold DEFAULT_MAXIMUM_JSON_DEPTH; lia|exact Hl|]. cbn [rbind]. by apply entry_back.
  - unfold canonical_bytes, dumps. f_equal. apply norm_members_of. unfold entry_to_document. apply Forall2_app; [|by repeat constructor].
    destruct He as [[_ Va _ _ _ _ _] _]. by apply stored_body_norm.
Qed.

(** ** A sample decision *)

Module SampleDecision.

Definition ok_or {A} (a : A) (r : result A) : A := match r with Ok x => x | Raise _ => a end.
Definition subject : string := Eval vm_compute in canonical_digest (JObj []).
Definition proof (i : string) : EvidenceReference :=
  {| evidence_id := i; evidence_digest := subject; evidence_source := "test run"; claim_ids := ["c1"]; observed_at := "2030-01-01T00:00:00Z" |}.
Definition grant : AuthorityEnvelope :=
  {| authority_id := "auth-1"; principal_id := "owner"; grant_digest := subject; allowed_actions := ["merge"]; denied_actions := ["deploy"];
     expires_at := "2030-02-01T00:00:00Z"; external_effects := false |}.
Definition option_of (i : string) (b : bool) : DecisionAlternative :=
  {| alternative_id := i; description := "do " +:+ i; evidence_ids := ["e1"]; counterevidence_ids := []; constraint_results := [("reversible", b); ("bounded", true)];
     authority_ids := ["auth-1"]; safe := true |}%stdpp.
Definition plan (a b : Z) : DecisionMemoryDraft :=
  {| memory_id := "memory-1"; question := "which one?"; snapshot := subject; alternatives := [option_of "keep" true; option_of "change" true];
     evidence := [proof "e1"]; counterevidence := []; constraints := ["bounded"; "reversible"]; authority := [grant];
     budget := {| wall_seconds := 1; model_calls := 1; input_tokens := 1; output_tokens := 1; cost_microunits := 0; tool_calls := 1; concurrent_workers := 1 |};
     scoring_model := "plain"; scores := [{| scored_id := "keep"; score := a |}; {| scored_id := "change"; score := b |}]; uncertainty := "low"; owner := "owner";
     decided_at := "2030-01-01T00:00:00Z"; fresh_until := "2030-01-10T00:00:00Z"; corrections := []; supersession := None; appeal_state := A_NONE |}.
Definition moment : datetime := ok_or {| local_micros := 0; utcoffset := None |} (require_time (JStr "2030-01-02T00:00:00Z") "selection time").

Lemma sample_draft_valid : valid_draft (plan 3 7).
Proof. constructor; repeat constructor; vm_compute; reflexivity. Qed.
Definition entry : DecisionMemoryEntry := entry_with (plan 3 7) "change".
Lemma sample_entry_valid : valid_entry entry.
Proof. split; [exact sample_draft_valid|vm_compute; reflexivity]. Qed.

End SampleDecision.

Lemma decision_selected_iff_witness :
  exists s, select_decision (SampleDecision.plan 3 7) (JStr SampleDecision.subject) (JStr "2030-01-02T00:00:00Z") = Ok s
    /\ forall e, s = Selected e <-> current (SampleDecision.plan 3 7) SampleDecision.subject SampleDecision.moment
                                   /\ exists w, selectable (SampleDecision.plan 3 7) SampleDecision.moment w /\ e = entry_with (SampleDecision.plan 3 7) (alternative_id w).
Proof.
  apply (decision_selected_iff (SampleDecision.plan 3 7) SampleDecision.subject "2030-01-02T00:00:00Z" SampleDecision.moment SampleDecision.sample_draft_valid);
    vm_compute; reflexivity.
Defined.
Example sample_decision_selected : select_decision (SampleDecision.plan 3 7) (JStr SampleDecision.subject) (JStr "2030-01-02T00:00:00Z") = Ok (Selected SampleDecision.entry).
Proof. vm_compute. reflexivity. Qed.

Lemma decision_entry_round_trip_witness :
  (let? o := strict_text (canonical_bytes (JObj (entry_to_document SampleDecision.entry))) in entry_from_document o) = Ok (stored_entry SampleDecision.entry).
Proof. refine (proj1 (decision_entry_round_trip SampleDecision.entry SampleDecision.sample_entry_valid _)). vm_compute. discriminate. Defined.

(** Scores are compared as floats: two different integers beyond 2 ^ 53 may tie. *)
Example different_scores_tie :
  match select_decision (SampleDecision.plan (2 ^ 53) (2 ^ 53 + 1)) (JStr SampleDecision.subject) (JStr "2030-01-02T00:00:00Z") with
  | Ok (Blocked b) => blocker_code b = UNRESOLVED_TIE
  | _ => False
  end.
Proof. vm_compute. reflexivity. Qed.

(** A score beyond the floats is refused with an error of another class than the
    other malformed members of a document. *)
Example oversized_score_overflows :
  score_from_document [("alternative_id", JStr "keep"); ("score", JInt (2 ^ 1024))] = raise OverflowError "int too large to convert to float"
  /\ score_from_document [("alternative_id", JStr "keep"); ("score", JStr "7")] = violation "alternative score must be finite".
Proof. split; vm_compute; reflexivity. Qed.

End Decisions.
