(* ===== verification/PlanLineage.v ===== *)
(** * Plan lineage

    [plan_lineage.py]: generation records whose identifier is the digest of their
    bindings, the index of generations, receipts that are carried from one plan to
    the next, activation material and traceability.  The index is its two
    dictionaries; a constructor that reads a document takes its members as JSON
    values; bytes are strings. *)

From S2P Require Import Prelude Sha256 Canonical AsciiJson PyLib Graphs Schema Contracts RuntimeContracts.
From Stdlib Require Import Ascii.

Module PlanLineage.
Export RuntimeContracts.

(** ** Generation records *)

Record GenerationRecord := {
  generation_id : string;
  request_id : string;
  objective_digest : string;
  repository_id : option string;
  subject_id : string;
  subject_kind : string;
  target : string;
  parent_generation_id : option string;
  parent_commit : option string;
  parent_tree : option string;
  node_mappings_digest : string;
  source_inventory_digest : string;
  standard_version : Z;
  standard_digest : string;
  compiler_digest : string;
  plan_digest : string }.
#[global] Instance GenerationRecord_eq_dec : EqDecision GenerationRecord.
Proof. solve_decision. Defined.

Definition identity_material (r : GenerationRecord) : contract :=
  [("schema_version", JInt 1); ("request_id", JStr (request_id r)); ("objective_digest", JStr (objective_digest r));
   ("repository_id", opt_str (repository_id r)); ("subject_id", JStr (subject_id r)); ("subject_kind", JStr (subject_kind r)); ("target", JStr (target r));
   ("parent_generation_id", opt_str (parent_generation_id r)); ("parent_commit", opt_str (parent_commit r)); ("parent_tree", opt_str (parent_tree r));
   ("node_mappings_digest", JStr (node_mappings_digest r)); ("source_inventory_digest", JStr (source_inventory_digest r));
   ("standard_version", JInt (standard_version r)); ("standard_digest", JStr (standard_digest r)); ("compiler_digest", JStr (compiler_digest r));
   ("plan_digest", JStr (plan_digest r))].
Definition generation_to_document (r : GenerationRecord) : contract := ("generation_id", JStr (generation_id r)) :: identity_material r.

(** [_GIT_OBJECT.fullmatch(value)] on the value of an optional member *)
Definition git_identity (v : json) : result (option string) :=
  match v with
  | JNull => Ok None
  | JStr s => require (match_items (times 40 is_hex) s) ContractViolation "parent Git identity must be lowercase 40-hex" ;? Ok (Some s)
  | _ => raise TypeError "expected string or bytes-like object"
  end.
Definition given (v : json) : bool := match v with JNull => false | _ => true end.
Definition optional_member (v : json) (label : string) : result (option string) :=
  match v with JNull => Ok None | _ => require_digest v label ;? Ok (as_str v) end.

(** [GenerationRecord(...)] of the members [v] *)
Definition generation_of (v : string -> json) : result GenerationRecord :=
  exact_int (v "schema_version") (Z.eqb 1) "unsupported generation-record schema version" ;?
  each (fun k => require_digest (v k) k)
    ["request_id"; "objective_digest"; "subject_id"; "node_mappings_digest"; "source_inventory_digest"; "standard_digest"; "compiler_digest"; "plan_digest"] ;?
  let? repository := optional_member (v "repository_id") "repository_id" in
  require_identifier (v "subject_kind") "subject_kind" ;?
  require (match v "target" with JStr s => negb (String.eqb s "") | _ => false end) ContractViolation "generation target is required" ;?
  let? parent := optional_member (v "parent_generation_id") "parent_generation_id" in
  require (Bool.eqb (given (v "parent_commit")) (given (v "parent_tree"))) ContractViolation "parent commit and tree must be supplied together" ;?
  (if py_eq (v "subject_kind") (JStr "repository") then
     require (given (v "repository_id") && given (v "parent_commit")) ContractViolation "repository generation requires repository and parent Git identity"
   else require (negb (given (v "repository_id")) && negb (given (v "parent_commit"))) ContractViolation
          "non-repository generation cannot carry repository Git identity") ;?
  let? c := git_identity (v "parent_commit") in
  let? t := git_identity (v "parent_tree") in
  let? standard := exact_int (v "standard_version") (Z.leb 1) "standard_version must be a positive integer" in
  require_digest (v "generation_id") "generation_id" ;?
  let text k := default "" (as_str (v k)) in
  let r := {| generation_id := text "generation_id"; request_id := text "request_id"; objective_digest := text "objective_digest"; repository_id := repository;
              subject_id := text "subject_id"; subject_kind := text "subject_kind"; target := text "target"; parent_generation_id := parent;
              parent_commit := c; parent_tree := t; node_mappings_digest := text "node_mappings_digest";
              source_inventory_digest := text "source_inventory_digest"; standard_version := standard; standard_digest := text "standard_digest";
              compiler_digest := text "compiler_digest"; plan_digest := text "plan_digest" |} in
  require (String.eqb (generation_id r) (canonical_digest (JObj (identity_material r)))) ContractViolation
    "generation_id does not authenticate the complete generation identity" ;?
  Ok r.

Definition material_fields : list string :=
  ["schema_version"; "request_id"; "objective_digest"; "repository_id"; "subject_id"; "subject_kind"; "target"; "parent_generation_id"; "parent_commit";
   "parent_tree"; "node_mappings_digest"; "source_inventory_digest"; "standard_version"; "standard_digest"; "compiler_digest"; "plan_digest"].
(** [GenerationRecord.create]: the identifier is the digest of the members. *)
Definition create (v : string -> json) : result GenerationRecord :=
  let material k := if String.eqb k "schema_version" then JInt 1 else v k in
  generation_of (fun k => if String.eqb k "generation_id" then JStr (canonical_digest (JObj (map (fun k => (k, material k)) material_fields))) else material k).
Definition generation_from_document (document : contract) : result GenerationRecord :=
  require (forallb (fun k => mem k ("generation_id" :: material_fields)) document.*1 && forallb (fun k => mem k document.*1) ("generation_id" :: material_fields))
    ContractViolation "generation record has missing or unsupported fields" ;?
  generation_of (fun k => get k document).

(** ** The index of generations *)

Record GenerationLineage := { _records : list (string * GenerationRecord); _plan_subjects : gmap string string }.
Definition empty_lineage : GenerationLineage := {| _records := []; _plan_subjects := ∅ |}.

(** The bindings a generation shares with its parent. *)
Definition check_parent (p r : GenerationRecord) : result unit :=
  require (String.eqb (subject_id p) (subject_id r) && String.eqb (subject_kind p) (subject_kind r)) ContractViolation
    "cross-subject generation lineage is forbidden" ;?
  require (bool_decide (repository_id p = repository_id r) && String.eqb (target p) (target r)) ContractViolation
    "generation repository or target binding changed" ;?
  require (String.eqb (request_id p) (request_id r) && String.eqb (objective_digest p) (objective_digest r)) ContractViolation
    "stale or substituted request in generation lineage" ;?
  require (negb (standard_version r <? standard_version p)) ContractViolation "generation standard downgrade is forbidden".
Definition register (r : GenerationRecord) : M GenerationLineage (GenerationRecord * bool) :=
  let* st := getM in
  match lookup_key (generation_id r) (_records st) with
  | Some previous =>
      guardM (String.eqb (canonical_bytes (JObj (generation_to_document previous))) (canonical_bytes (JObj (generation_to_document r)))) ContractViolation
        "generation identity collision" ;*
      ret (previous, false)
  | None =>
      liftR (match parent_generation_id r with
             | None => Ok tt
             | Some p => match lookup_key p (_records st) with None => violation "generation parent is missing" | Some parent => check_parent parent r end
             end) ;*
      guardM (match _plan_subjects st !! plan_digest r with Some s => String.eqb s (subject_id r) | None => true end) ContractViolation
        "flat plan fingerprint cannot be reused across subjects" ;*
      putM {| _records := dict_set (generation_id r) r (_records st); _plan_subjects := <[plan_digest r := subject_id r]> (_plan_subjects st) |} ;*
      ret (r, true)
  end.

(** One pass of the constructor over the pending records: what is left over,
    whether something was registered, and the index. *)
Definition ready (st : GenerationLineage) (r : GenerationRecord) : bool :=
  match parent_generation_id r with None => true | Some p => mem p (_records st).*1 end.
Definition pass_turn (s : list GenerationRecord * bool * GenerationLineage) (r : GenerationRecord) : result (list GenerationRecord * bool * GenerationLineage) :=
  let '(rest, progress, st) := s in
  if ready st r then match register r st with (Ok _, st') => Ok (rest, true, st') | (Raise e, _) => Raise e end
  else Ok (rest ++ [r], progress, st).
(** The loop; a pass that registers nothing ends it, so that there are at most as
    many passes as records. *)
Fixpoint load (fuel : nat) (pending : list GenerationRecord) (st : GenerationLineage) : result GenerationLineage :=
  match pending, fuel with
  | [], _ => Ok st
  | _, O => raise RecursionError "out of passes"
  | _, S fuel' =>
      let? s := rfold pass_turn ([], false, st) pending in
      require s.1.2 ContractViolation "generation lineage has a cycle or missing parent" ;?
      load fuel' s.1.1 s.2
  end.
Definition lineage_of (records : list GenerationRecord) : result GenerationLineage := load (length records) records empty_lineage.

Record expectation := {
  x_request : string; x_objective : string; x_subject : string; x_repository : option string; x_target : string; x_commit : option string; x_tree : option string }.
Definition require_expected (i : string) (x : expectation) (st : GenerationLineage) : result GenerationRecord :=
  require_digest (JStr i) "generation_id" ;?
  match lookup_key i (_records st) with
  | None => violation "generation is unknown"
  | Some r =>
      require (bool_decide ((request_id r, objective_digest r, subject_id r) = (x_request x, x_objective x, x_subject x))
               && bool_decide ((repository_id r, target r, parent_commit r, parent_tree r) = (x_repository x, x_target x, x_commit x, x_tree x)))
        ContractViolation "generation does not match the current request, subject, target, or tree" ;?
      Ok r
  end.
Definition records (st : GenerationLineage) : list GenerationRecord := (_records st).*2.

(** ** Receipts *)

Definition raw_sha256 (raw : string) : string := ("sha256:" +:+ sha256_hexdigest raw)%stdpp.

Record QualifiedNodeReceipt := {
  receipt_node : string; contract_digest : string; receipt_subject : string; receipt_bytes : string; receipt_digest : string }.
#[global] Instance QualifiedNodeReceipt_eq_dec : EqDecision QualifiedNodeReceipt.
Proof. solve_decision. Defined.
Definition check_node_receipt (r : QualifiedNodeReceipt) : result QualifiedNodeReceipt :=
  require_identifier (JStr (receipt_node r)) "receipt node_id" ;?
  require_digest (JStr (contract_digest r)) "receipt contract_digest" ;?
  require_digest (JStr (receipt_subject r)) "receipt subject_id" ;?
  require (negb (String.eqb (receipt_bytes r) "")) ContractViolation "qualified receipt bytes are required" ;?
  require_digest (JStr (receipt_digest r)) "receipt_digest" ;?
  require (String.eqb (raw_sha256 (receipt_bytes r)) (receipt_digest r)) ContractViolation "receipt digest does not match exact bytes" ;?
  Ok r.
Definition create_receipt (node contract subject bytes : string) : result QualifiedNodeReceipt :=
  check_node_receipt {| receipt_node := node; contract_digest := contract; receipt_subject := subject; receipt_bytes := bytes; receipt_digest := raw_sha256 bytes |}.

Record CarryForwardResult := {
  carried : list QualifiedNodeReceipt; requalify : list string; historical : list QualifiedNodeReceipt; new_nodes : list string }.

(** The contracts of a plan: a dictionary in its order. *)
Notation inventory := (list (string * string)).
Definition check_inventory (label : string) (l : inventory) : result unit :=
  each (fun nd => require_identifier (JStr nd.1) (label +:+ " node_id")%stdpp ;? require_digest (JStr nd.2) (label +:+ " contract digest")%stdpp) l.
Definition index_receipt (previous : inventory) (subject : string) (by_node : list (string * QualifiedNodeReceipt)) (r : QualifiedNodeReceipt)
    : result (list (string * QualifiedNodeReceipt)) :=
  require (negb (mem (receipt_node r) by_node.*1)) ContractViolation "qualified receipt inventory contains duplicates" ;?
  require (String.eqb (receipt_subject r) subject) ContractViolation "cross-subject receipt carry-forward is forbidden" ;?
  require (bool_decide (lookup_key (receipt_node r) previous = Some (contract_digest r))) ContractViolation "receipt is not qualified for the previous contract" ;?
  Ok (dict_set (receipt_node r) r by_node).

(** What becomes of one node of the previous plan. *)
Definition carry_turn (next : inventory) (by_node : list (string * QualifiedNodeReceipt)) (s : CarryForwardResult) (nd : string * string) : CarryForwardResult :=
  match lookup_key nd.1 next, lookup_key nd.1 by_node with
  | None, Some r => {| carried := carried s; requalify := requalify s; historical := historical s ++ [r]; new_nodes := new_nodes s |}
  | None, None => s
  | Some d, Some r =>
      if String.eqb d nd.2 then {| carried := carried s ++ [r]; requalify := requalify s; historical := historical s; new_nodes := new_nodes s |}
      else {| carried := carried s; requalify := requalify s ++ [nd.1]; historical := historical s; new_nodes := new_nodes s |}
  | Some _, None => {| carried := carried s; requalify := requalify s ++ [nd.1]; historical := historical s; new_nodes := new_nodes s |}
  end.
Definition carry_forward_receipts (previous next : inventory) (receipts : list QualifiedNodeReceipt) (subject : string) : result CarryForwardResult :=
  require_digest (JStr subject) "subject_id" ;?
  check_inventory "previous" previous ;?
  check_inventory "next" next ;?
  let? by_node := rfold (index_receipt previous subject) [] receipts in
  let s := fold_left (carry_turn next by_node) previous {| carried := []; requalify := []; historical := []; new_nodes := [] |} in
  Ok {| carried := sorted_by receipt_node (carried s); requalify := sorted_str (dedup (requalify s)); historical := sorted_by receipt_node (historical s);
        new_nodes := sorted_str (List.filter (fun n => negb (mem n previous.*1)) next.*1) |}.

(** ** Activation material *)

Record ActivationMaterial := {
  activation_generation : string; complete_plan_bytes : string; external_manifest_bytes : string; activation_plan_digest : string; activation_manifest_digest : string }.
Definition authentication_fields : list string := ["host_signature_required"; "distinct_key_required"; "repository_signature_forbidden"].
(** [set(values) != {True}]: an unhashable value raises, an equal one passes. *)
Definition all_true (d : contract) : result bool :=
  require (forallb (fun kv => match kv.2 with JList _ | JObj _ => false | _ => true end) d) TypeError "unhashable type" ;?
  Ok (negb (bool_decide (d.*1 = [])) && forallb (fun kv => py_eq kv.2 (JBool true)) d).
Definition closed_names (d : contract) (fields : list string) : bool := forallb (fun k => mem k fields) d.*1 && forallb (fun k => mem k d.*1) fields.
Definition check_activation (a : ActivationMaterial) : result ActivationMaterial :=
  require_digest (JStr (activation_generation a)) "generation_id" ;?
  require (negb (String.eqb (complete_plan_bytes a) "")) ContractViolation "complete sealed plan bytes are required" ;?
  require (negb (String.eqb (external_manifest_bytes a) "")) ContractViolation "complete external manifest bytes are required" ;?
  require_digest (JStr (activation_plan_digest a)) "plan_digest" ;?
  require_digest (JStr (activation_manifest_digest a)) "manifest_digest" ;?
  require (String.eqb (raw_sha256 (complete_plan_bytes a)) (activation_plan_digest a)) ContractViolation "sealed plan digest does not match complete bytes" ;?
  require (String.eqb (raw_sha256 (external_manifest_bytes a)) (activation_manifest_digest a)) ContractViolation
    "external manifest digest does not match complete bytes" ;?
  let? manifest := strict_object (external_manifest_bytes a) in
  require (closed_names manifest ["schema_version"; "kind"; "generation"; "plan_digest"; "authentication"]) ContractViolation
    "external activation manifest is not closed" ;?
  require (match get "schema_version" manifest with JInt 1 => true | _ => false end
           && py_eq (get "kind" manifest) (JStr "external-plan-activation-manifest")) ContractViolation "unsupported external activation manifest" ;?
  require (py_eq (get "plan_digest" manifest) (JStr (activation_plan_digest a))) ContractViolation "external manifest plan digest mismatch" ;?
  require (match get "generation" manifest with JObj g => py_eq (get "generation_id" g) (JStr (activation_generation a)) | _ => false end) ContractViolation
    "external manifest generation mismatch" ;?
  match get "authentication" manifest with
  | JObj d =>
      require (closed_names d authentication_fields) ContractViolation "external manifest authentication contract is incomplete" ;?
      let? strong := all_true d in
      require strong ContractViolation "external manifest cannot weaken host authentication" ;?
      Ok a
  | _ => violation "external manifest authentication contract is incomplete"
  end.

(** ** Traceability *)

Record TraceabilityDisposition := { row_id : string; disposition : string; target_acceptance_ids : list string }.
Definition check_disposition (t : TraceabilityDisposition) : result TraceabilityDisposition :=
  require_identifier (JStr (row_id t)) "traceability row_id" ;?
  require_identifier (JStr (disposition t)) "traceability disposition" ;?
  require (negb (bool_decide (target_acceptance_ids t = [])) && distinct (target_acceptance_ids t)) ContractViolation
    "traceability target criteria are required and unique" ;?
  each (fun i => require_identifier (JStr i) "target acceptance id") (target_acceptance_ids t) ;?
  Ok t.
Definition observe_row (observed : list (string * TraceabilityDisposition)) (t : TraceabilityDisposition) : result (list (string * TraceabilityDisposition)) :=
  require (negb (mem (row_id t) observed.*1)) ContractViolation "traceability contains duplicate rows" ;?
  Ok (dict_set (row_id t) t observed).
Definition validate_traceability (rows : list TraceabilityDisposition) (expected : list string) (required : string) : result (list TraceabilityDisposition) :=
  require_identifier (JStr required) "required acceptance id" ;?
  let? observed := rfold observe_row [] rows in
  require (forallb (fun i => mem i expected) observed.*1 && forallb (fun i => mem i observed.*1) expected) ContractViolation
    "traceability row coverage is incomplete or substituted" ;?
  require (forallb (fun t => mem required (target_acceptance_ids t)) observed.*2) ContractViolation "traceability row omits the required target criterion" ;?
  Ok (omap (fun i => lookup_key i observed) (sorted_str observed.*1)).

Definition verify_historical_bytes (raw expected : string) : result unit :=
  require_digest (JStr expected) "historical plan digest" ;?
  require (String.eqb (raw_sha256 raw) expected) ContractViolation "historical plan bytes changed".

(** ** Constructed generations *)

Definition valid_generation (r : GenerationRecord) : Prop := generation_of (fun k => get k (generation_to_document r)) = Ok r.

Lemma generation_authenticated r : valid_generation r -> generation_id r = canonical_digest (JObj (identity_material r)).
Proof.
  unfold valid_generation, generation_of. intros H. take_ok H u1 E1. take_ok H u2 E2. take_ok H rep E3. take_ok H u4 E4. take_guard H E5. take_ok H par E6. take_guard H E7.
  take_ok H u8 E8. take_ok H c E9. take_ok H t E10. take_ok H sv E11. take_ok H u12 E12. take_guard H E13. apply String.eqb_eq in E13. injection H as H.
  rewrite <- H. exact E13.
Qed.

Lemma material_wf r : json_wf (JObj (identity_material r)) = true.
Proof.
  apply object_wf; [apply (bool_decide_unpack (NoDup material_fields)); vm_compute; exact I|].
  intros k v Hin. repeat (apply elem_of_cons in Hin as [[= -> ->]|Hin]; [try done; match goal with |- json_wf (opt_str ?o) = true => by destruct o end|]). by apply not_elem_of_nil in Hin.
Qed.
Lemma generation_wf r : json_wf (JObj (generation_to_document r)) = true.
Proof.
  apply object_wf; [apply (bool_decide_unpack (NoDup ("generation_id" :: material_fields))); vm_compute; exact I|].
  intros k v Hin. unfold generation_to_document, identity_material in Hin.
  repeat (apply elem_of_cons in Hin as [[= -> ->]|Hin]; [try done; match goal with |- json_wf (opt_str ?o) = true => by destruct o end|]). by apply not_elem_of_nil in Hin.
Qed.

(** The members determine the record. *)
Lemma members_inj r r' : generation_id r = generation_id r' ->
  (forall k, k ∈ material_fields -> norm (get k (identity_material r)) = norm (get k (identity_material r'))) -> r = r'.
Proof.
  intros Ei K.
  assert (S : forall k v v', mem k material_fields = true -> get k (identity_material r) = v -> get k (identity_material r') = v' -> norm v = norm v')
    by (intros k v v' Hk <- <-; by apply K, mem_spec).
  assert (K0 : request_id r = request_id r') by (assert (E := S "request_id" _ _ eq_refl eq_refl eq_refl); by injection E).
  assert (K1 : objective_digest r = objective_digest r') by (assert (E := S "objective_digest" _ _ eq_refl eq_refl eq_refl); by injection E).
  assert (K2 : subject_id r = subject_id r') by (assert (E := S "subject_id" _ _ eq_refl eq_refl eq_refl); by injection E).
  assert (K3 : subject_kind r = subject_kind r') by (assert (E := S "subject_kind" _ _ eq_refl eq_refl eq_refl); by injection E).
  assert (K4 : target r = target r') by (assert (E := S "target" _ _ eq_refl eq_refl eq_refl); by injection E).
  assert (K5 : node_mappings_digest r = node_mappings_digest r') by (assert (E := S "node_mappings_digest" _ _ eq_refl eq_refl eq_refl); by injection E).
  assert (K6 : source_inventory_digest r = source_inventory_digest r') by (assert (E := S "source_inventory_digest" _ _ eq_refl eq_refl eq_refl); by injection E).
  assert (K7 : standard_digest r = standard_digest r') by (assert (E := S "standard_digest" _ _ eq_refl eq_refl eq_refl); by injection E).
  assert (K8 : compiler_digest r = compiler_digest r') by (assert (E := S "compiler_digest" _ _ eq_refl eq_refl eq_refl); by injection E).
  assert (K9 : plan_digest r = plan_digest r') by (assert (E := S "plan_digest" _ _ eq_refl eq_refl eq_refl); by injection E).
  assert (O0 : repository_id r = repository_id r') by (assert (E := S "repository_id" (opt_str (repository_id r)) (opt_str (repository_id r')) eq_refl eq_refl eq_refl); rewrite !norm_opt_str in E; by apply opt_str_inj).
  assert (O1 : parent_generation_id r = parent_generation_id r') by (assert (E := S "parent_generation_id" (opt_str (parent_generation_id r)) (opt_str (parent_generation_id r')) eq_refl eq_refl eq_refl); rewrite !norm_opt_str in E; by apply opt_str_inj).
  assert (O2 : parent_commit r = parent_commit r') by (assert (E := S "parent_commit" (opt_str (parent_commit r)) (opt_str (parent_commit r')) eq_refl eq_refl eq_refl); rewrite !norm_opt_str in E; by apply opt_str_inj).
  assert (O3 : parent_tree r = parent_tree r') by (assert (E := S "parent_tree" (opt_str (parent_tree r)) (opt_str (parent_tree r')) eq_refl eq_refl eq_refl); rewrite !norm_opt_str in E; by apply opt_str_inj).
  assert (V : standard_version r = standard_version r') by (assert (E := S "standard_version" _ _ eq_refl eq_refl eq_refl); by injection E).
  clear S K. destruct r, r'. cbn [generation_id request_id objective_digest subject_id subject_kind target node_mappings_digest source_inventory_digest standard_digest compiler_digest plan_digest repository_id parent_generation_id parent_commit parent_tree standard_version] in *. by subst.
Qed.
Lemma document_inj r r' : canonical_bytes (JObj (generation_to_document r)) = canonical_bytes (JObj (generation_to_document r')) -> r = r'.
Proof.
  intros Eb. assert (G := same_bytes_members _ _ (generation_wf r) (generation_wf r') Eb). apply members_inj.
  - assert (E := G "generation_id"). by injection E.
  - intros k Hk. assert (E := G k). unfold material_fields in Hk.
    repeat (apply elem_of_cons in Hk as [->|Hk]; [exact E|]). by apply not_elem_of_nil in Hk.
Qed.
(** Two records of one identifier are the same record or a collision. *)
Lemma generation_id_commits r r' : valid_generation r -> valid_generation r' -> generation_id r = generation_id r' ->
  r = r' \/ (canonical_bytes (JObj (identity_material r)) <> canonical_bytes (JObj (identity_material r'))
             /\ sha256_hexdigest (canonical_bytes (JObj (identity_material r))) = sha256_hexdigest (canonical_bytes (JObj (identity_material r')))).
Proof.
  intros Hv Hv' E. assert (Ed := E). rewrite (generation_authenticated r Hv), (generation_authenticated r' Hv') in Ed. apply append_inj_l in Ed.
  destruct (decide (canonical_bytes (JObj (identity_material r)) = canonical_bytes (JObj (identity_material r')))) as [Eb|]; [left|by right].
  apply members_inj; [done|]. intros k _. by apply same_bytes_members; [apply material_wf..|].
Qed.

(** ** The index *)

Record inherits (p r : GenerationRecord) : Prop := {
  in_subject : subject_id p = subject_id r; in_kind : subject_kind p = subject_kind r; in_repository : repository_id p = repository_id r;
  in_target : target p = target r; in_request : request_id p = request_id r; in_objective : objective_digest p = objective_digest r;
  in_standard : standard_version p <= standard_version r }.
Lemma check_parent_iff p r : check_parent p r = Ok tt <-> inherits p r.
Proof.
  unfold check_parent. split.
  - intros H. take_guard H E1. take_guard H E2. take_guard H E3. apply require_ok in H. apply andb_true_iff in E1 as [A1 A2], E2 as [B1 B2], E3 as [C1 C2].
    apply String.eqb_eq in A1, A2, B2, C1, C2. apply bool_decide_eq_true in B1. apply negb_true_iff, Z.ltb_ge in H. by constructor.
  - intros [-> -> -> -> -> -> H]. rewrite !String.eqb_refl, bool_decide_eq_true_2 by done. cbn [andb require rbind]. rewrite (proj2 (Z.ltb_ge _ _)) by done. done.
Qed.

Record consistent (st : GenerationLineage) : Prop := {
  co_keys : Forall (fun kr => kr.1 = generation_id kr.2 /\ valid_generation kr.2) (_records st);
  co_unique : NoDup (_records st).*1;
  co_founded : forall i k r q, _records st !! i = Some (k, r) -> parent_generation_id r = Some q ->
    exists j p, (j < i)%nat /\ _records st !! j = Some (q, p) /\ inherits p r;
  co_subjects : forall d s, _plan_subjects st !! d = Some s <-> exists r, r ∈ records st /\ plan_digest r = d /\ subject_id r = s }.

Lemma empty_consistent : consistent empty_lineage.
Proof.
  constructor; cbn; [constructor|constructor|by intros i k r q Hi|]. intros d s. rewrite lookup_empty. split; [done|]. intros (r & Hr & _). by apply elem_of_nil in Hr.
Qed.

Lemma records_elem st k r : consistent st -> lookup_key k (_records st) = Some r -> r ∈ records st /\ generation_id r = k.
Proof.
  intros [Hk _ _ _] H. apply lookup_key_in in H. rewrite Forall_forall in Hk. destruct (Hk _ H) as [E _]. split; [|done].
  unfold records. apply list_elem_of_fmap. by exists (k, r).
Qed.
Lemma records_found st r : consistent st -> r ∈ records st -> lookup_key (generation_id r) (_records st) = Some r.
Proof.
  intros [Hk Hu _ _] H. apply list_elem_of_fmap in H as ([k r'] & -> & H). rewrite Forall_forall in Hk. destruct (Hk _ H) as [E _]. cbn in *. subst k.
  by apply lookup_key_NoDup.
Qed.
Lemma same_generation st r r' : consistent st -> r ∈ records st -> r' ∈ records st -> generation_id r = generation_id r' -> r = r'.
Proof. intros Hc H H' E. apply (records_found st) in H, H'; [|done..]. rewrite E in H. congruence. Qed.

(** What [register] does. *)
Lemma register_spec st r res st' : consistent st -> valid_generation r -> register r st = (res, st') ->
  match res with
  | Raise _ => st' = st
  | Ok (x, false) => x = r /\ st' = st /\ r ∈ records st
  | Ok (x, true) => x = r /\ consistent st' /\ records st' = records st ++ [r] /\ (forall p, p ∈ records st -> generation_id p <> generation_id r)
  end.
Proof.
  intros Hc Hv. unfold register. rewrite run_get. destruct (lookup_key (generation_id r) (_records st)) as [previous|] eqn:El.
  - rewrite run_guard. destruct (String.eqb _ _) eqn:Eb; [|by intros [= <- <-]]. intros [= <- <-]. apply String.eqb_eq, document_inj in Eb as ->.
    destruct (records_elem st _ _ Hc El) as [Hin _]. done.
  - rewrite run_lift. destruct (match parent_generation_id r with None => Ok tt | Some p => _ end) as [[]|e] eqn:Ep; [|by intros [= <- <-]].
    rewrite run_guard. destruct (match _plan_subjects st !! plan_digest r with Some s => _ | None => _ end) eqn:Es; [|by intros [= <- <-]].
    rewrite run_put. intros [= <- <-]. split; [done|]. apply lookup_key_not_in in El. assert (Hrec : records {| _records := dict_set (generation_id r) r (_records st);
      _plan_subjects := <[plan_digest r := subject_id r]> (_plan_subjects st) |} = records st ++ [r]) by (unfold records; cbn; rewrite dict_set_fresh by done; by rewrite fmap_app).
    split; [|split; [exact Hrec|]].
    + destruct Hc as [C1 C2 C3 C4]. constructor; cbn [_records _plan_subjects].
      * rewrite dict_set_fresh by done. apply Forall_app. split; [done|]. by constructor.
      * rewrite dict_set_fresh, fmap_app by done. apply NoDup_app. split; [done|]. split; [|apply NoDup_singleton]. intros k Hk Hk'. by apply list_elem_of_singleton in Hk' as ->.
      * rewrite dict_set_fresh by done. intros i k x q Hi Hq. apply lookup_snoc_Some in Hi as [[Hlt Hi]|[-> [= <- <-]]].
        -- destruct (C3 i k x q Hi Hq) as (j & p & Hj & Hp & Hin). exists j, p. split; [done|]. split; [|done]. by apply lookup_app_l_Some.
        -- rewrite Hq in Ep. destruct (lookup_key q (_records st)) as [p|] eqn:Eq; [|done]. apply check_parent_iff in Ep. apply lookup_key_in, list_elem_of_lookup in Eq as [j Hj].
           exists j, p. split; [by apply lookup_lt_Some in Hj|]. split; [|done]. by apply lookup_app_l_Some.
      * intros d s. rewrite Hrec. destruct (decide (d = plan_digest r)) as [->|Hne].
        -- rewrite lookup_insert_eq. split; [intros [= <-]; exists r; split; [apply elem_of_app; right; by left|done]|]. intros (x & Hx & Ed & <-). f_equal.
           apply elem_of_app in Hx as [Hx| ->%list_elem_of_singleton]; [|done]. assert (H := proj2 (C4 (plan_digest r) (subject_id x)) (ex_intro _ x (conj Hx (conj Ed eq_refl)))).
           rewrite H in Es. by apply String.eqb_eq in Es.
        -- rewrite lookup_insert_ne by done. rewrite C4. split; intros (x & Hx & Ed & Eq); exists x; (split; [|done]); [apply elem_of_app; by left|].
           apply elem_of_app in Hx as [Hx| ->%list_elem_of_singleton]; [done|congruence].
    + intros p Hp E. apply El. rewrite <- E. apply records_found in Hp; [|done]. apply list_elem_of_fmap. exists (generation_id p, p). split; [done|]. by apply lookup_key_in.
Qed.

(** ** Loading records in any order *)

(** A record whose ancestors are all among [rs], up to one without a parent. *)
Inductive rooted (rs : list GenerationRecord) : GenerationRecord -> Prop :=
| rooted_first r : parent_generation_id r = None -> rooted rs r
| rooted_next r p : p ∈ rs -> parent_generation_id r = Some (generation_id p) -> rooted rs p -> rooted rs r.

(** A set of records that can be a lineage. *)
Record sound_set (rs : list GenerationRecord) : Prop := {
  ss_rooted : forall r, r ∈ rs -> rooted rs r;
  ss_parents : forall p r, p ∈ rs -> r ∈ rs -> parent_generation_id r = Some (generation_id p) -> inherits p r;
  ss_subjects : forall r r', r ∈ rs -> r' ∈ rs -> plan_digest r = plan_digest r' -> subject_id r = subject_id r';
  ss_identity : forall r r', r ∈ rs -> r' ∈ rs -> generation_id r = generation_id r' -> r = r' }.

Lemma ready_grows st st' r : records st ⊆ records st' -> consistent st -> consistent st' -> ready st r = true -> ready st' r = true.
Proof.
  unfold ready. intros Hs Hc Hc'. destruct (parent_generation_id r) as [q|]; [|done]. rewrite !mem_spec. intros H. apply list_elem_of_fmap in H as ([k p] & -> & H).
  assert (Hk := co_keys st Hc). rewrite Forall_forall in Hk. destruct (Hk _ H) as [E _]. cbn in E. subst k. assert (Hp : p ∈ records st) by (apply list_elem_of_fmap; by exists (generation_id p, p)).
  apply Hs, records_found in Hp; [|done]. apply lookup_key_in in Hp. apply list_elem_of_fmap. by exists (generation_id p, p).
Qed.

(** One pass. *)
Record passed (st : GenerationLineage) (pending : list GenerationRecord) (st' : GenerationLineage) (rest : list GenerationRecord) (progress : bool) : Prop := {
  pa_consistent : consistent st';
  pa_kept : records st ⊆ records st';
  pa_new : forall r, r ∈ records st' -> r ∈ records st \/ r ∈ pending;
  pa_all : forall r, r ∈ pending -> r ∈ rest \/ r ∈ records st';
  pa_rest : forall r, r ∈ rest -> r ∈ pending;
  pa_length : (length rest + (if progress then 1 else 0) <= length pending)%nat;
  pa_idle : progress = false -> st' = st /\ forall r, r ∈ pending -> ready st r = false }.

Lemma pass_spec pending st s : consistent st -> Forall valid_generation pending -> rfold pass_turn ([], false, st) pending = Ok s ->
  passed st pending s.2 s.1.1 s.1.2.
Proof.
  intros Hc. revert s. induction pending as [|r pending IH] using rev_ind; intros s Hv H.
  - injection H as <-. constructor; cbn [fst snd length]; try done; try (by left); try lia. split; [done|]. intros r Hr. by apply elem_of_nil in Hr.
  - apply Forall_app in Hv as [Hv [Hr _]%Forall_cons]. rewrite rfold_app in H. take_ok H s1 E1. destruct (IH _ Hv E1) as [P1 P2 P3 P4 P5 P6 P7]. clear IH E1.
    destruct s1 as [[rest progress] st1]. cbn [fst snd] in *. cbn [rfold] in H. unfold pass_turn in H. destruct (ready st1 r) eqn:Er.
    + destruct (register r st1) as [[[x new]|e] st2] eqn:Eg; [|done]. injection H as <-. cbn [fst snd]. assert (S := register_spec st1 r _ _ P1 Hr Eg). cbn in S.
      assert (G : consistent st2 /\ records st1 ⊆ records st2 /\ r ∈ records st2 /\ forall z, z ∈ records st2 -> z ∈ records st1 \/ z = r).
      { destruct new.
        - destruct S as (_ & Hc2 & Er2 & _). rewrite Er2. split; [done|]. split; [set_solver|]. split; [set_solver|]. intros z Hz. apply elem_of_app in Hz as [Hz|Hz%list_elem_of_singleton]; auto.
        - destruct S as (_ & -> & Hin). split_and!; try done. auto. }
      destruct G as (G1 & G2 & G3 & G4). constructor; try done.
      * by etrans.
      * intros z Hz. destruct (G4 z Hz) as [Hz'| ->]; [|right; apply elem_of_app; right; by left]. destruct (P3 z Hz'); [by left|right; apply elem_of_app; by left].
      * intros z [Hz| ->%list_elem_of_singleton]%elem_of_app; [|by right]. destruct (P4 z Hz); [by left|right; by apply G2].
      * intros z Hz. apply elem_of_app. left. by apply P5.
      * rewrite length_app. cbn. destruct progress; lia.
    + injection H as <-. cbn [fst snd]. constructor; try done.
      * intros z Hz. destruct (P3 z Hz); [by left|right; apply elem_of_app; by left].
      * intros z [Hz| ->%list_elem_of_singleton]%elem_of_app; [destruct (P4 z Hz); [left; apply elem_of_app; by left|by right]|left; apply elem_of_app; right; by left].
      * intros z [Hz| ->%list_elem_of_singleton]%elem_of_app; apply elem_of_app; [left; by apply P5|right; by left].
      * rewrite !length_app. cbn. lia.
      * intros ->. destruct (P7 eq_refl) as [-> P8]. split; [done|]. intros z [Hz| ->%list_elem_of_singleton]%elem_of_app; [by apply P8|done].
Qed.

(** What a finished load holds. *)
Lemma load_sound fuel pending st st' : consistent st -> Forall valid_generation pending -> load fuel pending st = Ok st' ->
  consistent st' /\ forall r, r ∈ records st' <-> r ∈ records st \/ r ∈ pending.
Proof.
  revert pending st. induction fuel as [|fuel IH]; intros [|r0 pending] st Hc Hv H; cbn [load] in H; try done.
  - injection H as <-. split; [done|]. intros r. split; [by left|]. by intros [?|?%elem_of_nil].
  - injection H as <-. split; [done|]. intros r. split; [by left|]. by intros [?|?%elem_of_nil].
  - take_ok H s Es. take_guard H Ep. destruct (pass_spec _ _ _ Hc Hv Es) as [P1 P2 P3 P4 P5 _ _].
    destruct (IH _ _ P1 ltac:(apply Forall_forall; intros z Hz; rewrite Forall_forall in Hv; by apply Hv, P5) H) as [Hc' Hr]. split; [done|]. intros r. rewrite Hr. split.
    + intros [Hin|Hin]; [by apply P3|right; by apply P5].
    + intros [Hin|Hin]; [left; by apply P2|]. destruct (P4 r Hin); [by right|by left].
Qed.

(** A consistent index is a sound set. *)
Lemma consistent_rooted st i k r : consistent st -> _records st !! i = Some (k, r) -> rooted (records st) r.
Proof.
  intros Hc. revert k r. induction i as [i IH] using lt_wf_ind; intros k r Hi. destruct (parent_generation_id r) as [q|] eqn:Eq; [|by apply rooted_first].
  destruct (co_founded st Hc i k r q Hi Eq) as (j & p & Hj & Hp & _). assert (Hk := co_keys st Hc). rewrite Forall_forall in Hk.
  destruct (Hk (q, p)) as [E _]; [by eapply list_elem_of_lookup_2|]. cbn in E. apply (rooted_next _ r p); [|congruence|by eapply IH].
  apply list_elem_of_fmap. exists (q, p). split; [done|]. by eapply list_elem_of_lookup_2.
Qed.
Lemma consistent_set st : consistent st -> sound_set (records st).
Proof.
  intros Hc. constructor.
  - intros r H. apply list_elem_of_fmap in H as ([k x] & -> & H). apply list_elem_of_lookup in H as [i Hi]. by eapply consistent_rooted.
  - intros p r Hp Hr Eq. apply (records_found st r Hc) in Hr. apply lookup_key_in, list_elem_of_lookup in Hr as [i Hi].
    destruct (co_founded st Hc _ _ _ _ Hi Eq) as (j & p' & _ & Hj & Hin). replace p with p'; [done|].
    apply (records_found st p Hc) in Hp. apply list_elem_of_lookup_2 in Hj. apply (lookup_key_NoDup _ _ _ (co_unique st Hc)) in Hj. congruence.
  - intros r r' Hr Hr' E. assert (H := proj2 (co_subjects st Hc (plan_digest r) (subject_id r)) (ex_intro _ r (conj Hr (conj eq_refl eq_refl)))).
    assert (H' := proj2 (co_subjects st Hc (plan_digest r) (subject_id r')) (ex_intro _ r' (conj Hr' (conj (eq_sym E) eq_refl)))). congruence.
  - intros r r' Hr Hr' E. by apply (same_generation st).
Qed.

(** *** A sound set loads *)

Lemma rooted_mono rs rs' r : rs ⊆ rs' -> rooted rs r -> rooted rs' r.
Proof. intros Hs H. induction H as [r H|r p Hp E _ IH]; [by apply rooted_first|apply (rooted_next _ r p); auto]. Qed.

Lemma register_accepts rs st r : sound_set rs -> consistent st -> records st ⊆ rs -> r ∈ rs -> ready st r = true -> exists x st', register r st = (Ok x, st').
Proof.
  intros Hs Hc Hsub Hr Hready. unfold register. rewrite run_get. destruct (lookup_key (generation_id r) (_records st)) as [previous|] eqn:El.
  - destruct (records_elem st _ _ Hc El) as [Hp Ep]. assert (previous = r) as -> by (apply (ss_identity rs Hs); auto). rewrite run_guard, String.eqb_refl. by do 2 eexists.
  - rewrite run_lift. assert (Ep : match parent_generation_id r with
             | None => Ok tt
             | Some p => match lookup_key p (_records st) with None => violation "generation parent is missing" | Some parent => check_parent parent r end
             end = Ok tt).
    { unfold ready in Hready. destruct (parent_generation_id r) as [q|] eqn:Eq; [|done]. destruct (lookup_key q (_records st)) as [p|] eqn:Elp.
      - destruct (records_elem st _ _ Hc Elp) as [Hp <-]. apply check_parent_iff, (ss_parents rs Hs); auto.
      - apply lookup_key_not_in in Elp. by apply mem_spec in Hready. }
    rewrite Ep, run_guard. assert (Es : match _plan_subjects st !! plan_digest r with Some s => String.eqb s (subject_id r) | None => true end = true).
    { destruct (_plan_subjects st !! plan_digest r) as [s|] eqn:E; [|done]. apply (co_subjects st Hc) in E as (x & Hx & Ed & <-). apply String.eqb_eq, (ss_subjects rs Hs); auto. }
    rewrite Es, run_put. by do 2 eexists.
Qed.

Lemma pass_total (rs pending : list GenerationRecord) st : sound_set rs -> consistent st -> records st ⊆ rs -> pending ⊆ rs -> Forall valid_generation pending ->
  exists s, rfold pass_turn ([], false, st) pending = Ok s.
Proof.
  intros Hs Hc Hsub. induction pending as [|r pending IH] using rev_ind; intros Hp Hv; [by eexists|]. apply Forall_app in Hv as [Hv [Hr _]%Forall_cons].
  destruct IH as [s1 E1]; [set_solver|done|]. destruct (pass_spec _ _ _ Hc Hv E1) as [P1 P2 P3 _ _ _ _]. rewrite rfold_app, E1. destruct s1 as [[rest progress] st1]. cbn [fst snd] in *.
  cbn [rbind rfold]. unfold pass_turn. destruct (ready st1 r) eqn:Er; [|by eexists]. destruct (register_accepts rs st1 r) as (x & st2 & ->); try done; [|set_solver|by eexists].
  intros z Hz. destruct (P3 z Hz); set_solver.
Qed.

(** While records are pending, one of them has its parent in the index. *)
Lemma some_ready (rs : list GenerationRecord) st (pending : list GenerationRecord) r : sound_set rs -> consistent st -> (forall z, z ∈ rs -> z ∈ records st \/ z ∈ pending) -> rooted rs r -> r ∈ pending ->
  exists z, z ∈ pending /\ ready st z = true.
Proof.
  intros Hs Hc Hall H. induction H as [r H|r p Hp E H IH]; intros Hr.
  - exists r. split; [done|]. unfold ready. by rewrite H.
  - destruct (Hall p Hp) as [Hin|Hin]; [|by apply IH]. exists r. split; [done|]. unfold ready. rewrite E. apply mem_spec.
    apply (records_found st p Hc), lookup_key_in in Hin. apply list_elem_of_fmap. by exists (generation_id p, p).
Qed.

Lemma load_total (rs : list GenerationRecord) fuel (pending : list GenerationRecord) st : sound_set rs -> consistent st -> records st ⊆ rs -> pending ⊆ rs -> Forall valid_generation pending ->
  (forall z, z ∈ rs -> z ∈ records st \/ z ∈ pending) -> (length pending <= fuel)%nat -> exists st', load fuel pending st = Ok st'.
Proof.
  intros Hs. revert pending st. induction fuel as [|fuel IH]; intros [|r0 pending] st Hc Hsub Hp Hv Hall Hl; cbn [load]; try (by eexists); [cbn in Hl; lia|].
  destruct (pass_total rs (r0 :: pending) st Hs Hc Hsub Hp Hv) as [s Es]. destruct (pass_spec _ _ _ Hc Hv Es) as [P1 P2 P3 P4 P5 P6 P7]. rewrite Es. cbn [rbind].
  destruct s.1.2 eqn:Ep; cbn [require rbind].
  - apply IH; try done.
    + intros z Hz. destruct (P3 z Hz); auto.
    + intros z Hz. by apply Hp, P5.
    + apply Forall_forall. intros z Hz. rewrite Forall_forall in Hv. by apply Hv, P5.
    + intros z Hz. destruct (Hall z Hz) as [Hz'|Hz']; [left; by apply P2|]. destruct (P4 z Hz'); [by right|by left].
    + cbn [length] in *. lia.
  - destruct (P7 eq_refl) as [_ Hidle]. destruct (some_ready rs st (r0 :: pending) r0 Hs Hc Hall) as (z & Hz & Ez); [apply (ss_rooted rs Hs), Hp; by left|by left|].
    rewrite (Hidle z Hz) in Ez. done.
Qed.

(** C26: the index of generations accepts exactly the lineages.  The constructor
    answers on every list of constructed records; in whatever order they come it
    accepts them exactly when every record descends, through records of the list,
    from one without a parent, every record keeps the subject, kind, repository,
    target, request and objective of its parent and does not lower the standard, no
    plan is used for two subjects, and no identifier stands for two records; the
    index then holds exactly those records, and each after its parent. *)
Theorem generation_lineage_accepted_iff rs : Forall valid_generation rs ->
  ((exists st, lineage_of rs = Ok st) <-> sound_set rs)
  /\ forall st, lineage_of rs = Ok st -> (forall r, r ∈ records st <-> r ∈ rs)
       /\ forall i k r q, _records st !! i = Some (k, r) -> parent_generation_id r = Some q -> exists j p, (j < i)%nat /\ _records st !! j = Some (q, p) /\ inherits p r.
Proof.
  intros Hv. assert (G : forall st, lineage_of rs = Ok st -> consistent st /\ forall r, r ∈ records st <-> r ∈ rs).
  { intros st H. destruct (load_sound _ _ _ _ empty_consistent Hv H) as [Hc Hr]. split; [done|]. intros r. rewrite Hr. split; [|by right]. by intros [?%elem_of_nil|?]. }
  split; [split|].
  - intros [st H]. destruct (G st H) as [Hc Hr]. destruct (consistent_set st Hc) as [S1 S2 S3 S4]. constructor.
    + intros r Hin. apply (rooted_mono (records st)); [intros z; apply Hr|]. by apply S1, Hr.
    + intros p r Hp Hin. apply S2; by apply Hr.
    + intros r r' Hin Hin'. apply S3; by apply Hr.
    + intros r r' Hin Hin'. apply S4; by apply Hr.
  - intros Hs. apply (load_total rs); try done; [apply empty_consistent|intros z Hz; by apply elem_of_nil in Hz|by right].
  - intros st H. destruct (G st H) as [Hc Hr]. split; [exact Hr|apply (co_founded st Hc)].
Qed.

(** ** Carrying receipts forward *)

(** The receipt a node of the previous plan keeps, the receipt it leaves behind,
    and whether it has to be qualified again. *)
Definition kept (next : inventory) (by_node : list (string * QualifiedNodeReceipt)) (nd : string * string) : option QualifiedNodeReceipt :=
  match lookup_key nd.1 next, lookup_key nd.1 by_node with Some d, Some r => if String.eqb d nd.2 then Some r else None | _, _ => None end.
Definition left_behind (next : inventory) (by_node : list (string * QualifiedNodeReceipt)) (nd : string * string) : option QualifiedNodeReceipt :=
  match lookup_key nd.1 next with None => lookup_key nd.1 by_node | Some _ => None end.
Definition again (next : inventory) (by_node : list (string * QualifiedNodeReceipt)) (nd : string * string) : bool :=
  bool_decide (is_Some (lookup_key nd.1 next)) && negb (bool_decide (is_Some (kept next by_node nd))).

Lemma carry_loop next by_node previous s :
  let t := fold_left (carry_turn next by_node) previous s in
  carried t = carried s ++ omap (kept next by_node) previous /\ requalify t = requalify s ++ map fst (List.filter (again next by_node) previous)
  /\ historical t = historical s ++ omap (left_behind next by_node) previous.
Proof.
  revert s. induction previous as [|nd previous IH]; intros s; cbn [fold_left]; [by rewrite !app_nil_r|].
  destruct (IH (carry_turn next by_node s nd)) as (-> & -> & ->). cbn [omap list_omap List.filter]. unfold carry_turn, again, kept, left_behind.
  destruct (lookup_key nd.1 next) as [d|]; destruct (lookup_key nd.1 by_node) as [r|]; [destruct (String.eqb d nd.2)|..]; cbn; rewrite <- ?(assoc_L (++)); done.
Qed.

Lemma omap_elem {A B} (f : A -> option B) (l : list A) y : y ∈ omap f l <-> exists x, x ∈ l /\ f x = Some y.
Proof. apply list_elem_of_omap. Qed.
Lemma kept_nodes next by_node previous : (forall nd r, kept next by_node nd = Some r -> receipt_node r = nd.1) ->
  map receipt_node (omap (kept next by_node) previous) `sublist_of` previous.*1.
Proof.
  intros H. induction previous as [|nd previous IH]; [done|]. cbn [omap list_omap fmap list_fmap]. specialize (H nd). destruct (kept next by_node nd) as [r|] eqn:E; cbn [map].
  - rewrite (H r eq_refl). by apply sublist_skip.
  - by apply sublist_cons.
Qed.

(** What makes the receipts of a plan acceptable. *)
Record qualified (previous : inventory) (subject : string) (receipts : list QualifiedNodeReceipt) : Prop := {
  qu_nodes : NoDup (map receipt_node receipts);
  qu_each : forall r, r ∈ receipts -> receipt_subject r = subject /\ lookup_key (receipt_node r) previous = Some (contract_digest r) }.
Lemma index_receipts previous subject receipts by_node : rfold (index_receipt previous subject) [] receipts = Ok by_node <->
  qualified previous subject receipts /\ by_node = map (fun r => (receipt_node r, r)) receipts.
Proof.
  revert by_node. induction receipts as [|r receipts IH] using rev_ind; intros by_node.
  - cbn. split; [intros [= <-]; split; [|done]; constructor; [constructor|]; intros r Hr; by apply elem_of_nil in Hr|by intros [_ ->]].
  - rewrite rfold_app, rbind_ok. assert (K : forall l : list QualifiedNodeReceipt, (map (fun r => (receipt_node r, r)) l).*1 = map receipt_node l)
      by (intros l; change (map ?f l) with (f <$> l); by rewrite <- list_fmap_compose). split.
    + intros (b & Hb & H). apply IH in Hb as [[Hn He] ->]. cbn [rfold] in H. apply rbind_ok in H as (b' & H & [= <-]). unfold index_receipt in H.
      take_guard H E1. take_guard H E2. take_guard H E3. injection H as <-. apply negb_true_iff, not_true_iff_false in E1. rewrite mem_spec, K in E1.
      apply String.eqb_eq in E2. apply bool_decide_eq_true in E3. rewrite dict_set_fresh by (by rewrite K). rewrite map_app. split; [|done]. constructor.
      * rewrite map_app. apply NoDup_app. split; [done|]. split; [|apply NoDup_singleton]. intros n Hn' Hn''. apply list_elem_of_singleton in Hn'' as ->. done.
      * intros x [Hx| ->%list_elem_of_singleton]%elem_of_app; [by apply He|done].
    + intros [[Hn He] ->]. rewrite map_app in Hn. apply NoDup_app in Hn as (Hn & Hd & _). exists (map (fun r => (receipt_node r, r)) receipts). split.
      * apply IH. split; [|done]. constructor; [done|]. intros x Hx. apply He, elem_of_app. by left.
      * destruct (He r) as [<- E3]; [apply elem_of_app; right; by left|]. cbn [rfold]. unfold index_receipt.
        assert (Hnot : receipt_node r ∉ map receipt_node receipts) by (intros Hin; apply (Hd _ Hin); by left). rewrite K.
        destruct (mem (receipt_node r) (map receipt_node receipts)) eqn:Em; [by apply mem_spec in Em|]. cbn [negb require rbind]. rewrite String.eqb_refl. cbn [require rbind].
        rewrite bool_decide_eq_true_2 by done. cbn [require rbind]. rewrite dict_set_fresh by (by rewrite K). by rewrite map_app.
Qed.

Lemma indexed_receipt receipts n r : NoDup (map receipt_node receipts) ->
  lookup_key n (map (fun r => (receipt_node r, r)) receipts) = Some r <-> r ∈ receipts /\ receipt_node r = n.
Proof. intros Hn. rewrite <- (index_by_NoDup receipt_node receipts Hn). by apply index_by_some. Qed.
Lemma inventory_elem (l : inventory) n d : NoDup l.*1 -> lookup_key n l = Some d <-> (n, d) ∈ l.
Proof. intros Hn. split; [apply lookup_key_in|by apply lookup_key_NoDup]. Qed.
Lemma key_some (l : inventory) n : is_Some (lookup_key n l) <-> n ∈ l.*1.
Proof.
  split.
  - intros [d Hd]. apply lookup_key_in in Hd. apply list_elem_of_fmap. by exists (n, d).
  - intros H. destruct (lookup_key n l) eqn:E; [done|]. by apply lookup_key_not_in in E.
Qed.

Section carrying.
Context (previous next : inventory) (receipts : list QualifiedNodeReceipt) (subject : string).
Hypothesis previous_dict : NoDup previous.*1.
Hypothesis next_dict : NoDup next.*1.
Hypothesis receipts_qualified : qualified previous subject receipts.
Let by_node := map (fun r => (receipt_node r, r)) receipts.

Lemma by_node_iff n r : lookup_key n by_node = Some r <-> r ∈ receipts /\ receipt_node r = n.
Proof. apply indexed_receipt, receipts_qualified. Qed.
Lemma receipt_entry r : r ∈ receipts -> (receipt_node r, contract_digest r) ∈ previous.
Proof. intros Hr. destruct (qu_each _ _ _ receipts_qualified r Hr) as [_ Q]. by apply inventory_elem. Qed.
Lemma receipt_contract n d r : r ∈ receipts -> receipt_node r = n -> (n, d) ∈ previous -> d = contract_digest r.
Proof. intros Hr <- Hd. destruct (qu_each _ _ _ receipts_qualified r Hr) as [_ Q]. apply (inventory_elem previous) in Hd; [|done]. congruence. Qed.

Lemma kept_iff nd r : nd ∈ previous -> kept next by_node nd = Some r <-> r ∈ receipts /\ receipt_node r = nd.1 /\ nd ∈ next.
Proof.
  destruct nd as [n d]. intros Hnd. unfold kept. cbn [fst snd]. rewrite <- (inventory_elem next n d next_dict). destruct (lookup_key n next) as [d'|]; [|split; [done|by intros (_ & _ & ?)]].
  destruct (lookup_key n by_node) as [r'|] eqn:Er.
  - apply by_node_iff in Er as [Hr' Hr'']. destruct (String.eqb d' d) eqn:Ed; [apply String.eqb_eq in Ed as ->|apply String.eqb_neq in Ed].
    + split; [by intros [= <-]|]. intros (Hr & Hrn & _). f_equal. apply (same_key receipt_node receipts); [apply receipts_qualified|done|done|congruence].
    + split; [done|]. intros (_ & _ & [= ->]). done.
  - split; [done|]. intros (Hr & Hrn & _). rewrite (proj2 (by_node_iff n r)) in Er by done. done.
Qed.
Lemma carried_iff r : r ∈ omap (kept next by_node) previous <-> r ∈ receipts /\ (receipt_node r, contract_digest r) ∈ next.
Proof.
  rewrite omap_elem. split.
  - intros ([n d] & Hnd & Hr). apply kept_iff in Hr as (Hr & Hrn & Hin); [|done]. cbn in Hrn. split; [done|]. by rewrite Hrn, <- (receipt_contract n d r).
  - intros [Hr Hin]. exists (receipt_node r, contract_digest r). split; [by apply receipt_entry|]. apply kept_iff; [by apply receipt_entry|done].
Qed.
Lemma historical_iff r : r ∈ omap (left_behind next by_node) previous <-> r ∈ receipts /\ receipt_node r ∉ next.*1.
Proof.
  rewrite omap_elem. split.
  - intros ([n d] & Hnd & Hr). unfold left_behind in Hr. cbn [fst] in Hr. destruct (lookup_key n next) eqn:En; [done|]. apply by_node_iff in Hr as [Hr <-].
    split; [done|]. by apply lookup_key_not_in.
  - intros [Hr Hno]. exists (receipt_node r, contract_digest r). split; [by apply receipt_entry|]. unfold left_behind. cbn [fst].
    rewrite (proj2 (lookup_key_not_in _ _) Hno). by apply by_node_iff.
Qed.
Lemma kept_node_iff n : n ∈ map receipt_node (omap (kept next by_node) previous) <-> exists r, r ∈ omap (kept next by_node) previous /\ receipt_node r = n.
Proof. rewrite list_elem_of_In, in_map_iff. split; intros (r & H1 & H2); exists r; [by apply list_elem_of_In in H2|by apply list_elem_of_In in H1]. Qed.
Lemma again_iff n : n ∈ map fst (List.filter (again next by_node) previous) <-> exists d, (n, d) ∈ previous /\ again next by_node (n, d) = true.
Proof.
  rewrite list_elem_of_In, in_map_iff. split.
  - intros ([n' d] & <- & [Hin Ha]%filter_In). exists d. by apply list_elem_of_In in Hin.
  - intros (d & Hin & Ha). exists (n, d). split; [done|]. apply filter_In. by apply list_elem_of_In in Hin.
Qed.
Lemma requalify_iff n : n ∈ map fst (List.filter (again next by_node) previous) <->
  n ∈ previous.*1 /\ n ∈ next.*1 /\ n ∉ map receipt_node (omap (kept next by_node) previous).
Proof.
  rewrite again_iff, kept_node_iff. unfold again. cbn [fst]. split.
  - intros (d & Hin & [A1 A2]%andb_true_iff). apply bool_decide_eq_true, key_some in A1. apply negb_true_iff, bool_decide_eq_false in A2.
    split; [apply list_elem_of_fmap; by exists (n, d)|]. split; [done|]. intros (r & [Hr Hnx]%carried_iff & Hrn).
    apply A2. exists r. apply kept_iff; [done|]. split_and!; try done. by rewrite (receipt_contract n d r), <- Hrn.
  - intros (Hpr & Hnx & Hno). apply list_elem_of_fmap in Hpr as ([n' d] & -> & Hnd). cbn [fst] in *. exists d. split; [done|].
    apply andb_true_iff. split; [by apply bool_decide_eq_true, key_some|]. apply negb_true_iff, bool_decide_eq_false. intros [r Hr].
    apply Hno. exists r. assert (Hr' := Hr). apply kept_iff in Hr' as (_ & Hrn & _); [|done]. split; [|done]. apply omap_elem. by exists (n', d).
Qed.

(** Every node of the next plan has one fate. *)
Lemma next_partition : next.*1 ≡ₚ map receipt_node (omap (kept next by_node) previous) ++ dedup (map fst (List.filter (again next by_node) previous))
  ++ List.filter (fun n => negb (mem n previous.*1)) next.*1.
Proof.
  assert (Hcp : forall n, n ∈ map receipt_node (omap (kept next by_node) previous) -> n ∈ previous.*1 /\ n ∈ next.*1).
  { intros n (r & [Hr Hnx]%carried_iff & <-)%kept_node_iff.
    split; apply list_elem_of_fmap; exists (receipt_node r, contract_digest r); (split; [done|]); [by apply receipt_entry|done]. }
  apply NoDup_Permutation; [done| |].
  - apply NoDup_app. split; [|split; [|apply NoDup_app; split; [apply NoDup_dedup|split]]].
    + eapply sublist_NoDup; [exact previous_dict|]. apply kept_nodes. intros [n d] r Hr. unfold kept in Hr. cbn [fst snd] in *.
      destruct (lookup_key n next); [|done]. destruct (lookup_key n by_node) as [r'|] eqn:Er; [|done]. destruct (String.eqb _ _); [|done]. injection Hr as ->. by apply by_node_iff in Er as [_ ->].
    + intros n Hin [Hin'|Hin']%elem_of_app; [by apply elem_of_dedup, requalify_iff in Hin' as (_ & _ & ?)|]. apply elem_of_filter_not in Hin' as [_ Hno]. by apply Hno, Hcp.
    + intros n (Hpr & _)%elem_of_dedup%requalify_iff Hin'. by apply elem_of_filter_not in Hin' as [_ Hno].
    + eapply sublist_NoDup; [exact next_dict|]. apply filter_sublist.
  - intros n. rewrite !elem_of_app, elem_of_dedup, requalify_iff, elem_of_filter_not. split; [|intros [Hin|[(_ & Hin & _)|[Hin _]]]; [by apply Hcp|done..]].
    intros Hin. destruct (decide (n ∈ previous.*1)); [|by right; right]. destruct (decide (n ∈ map receipt_node (omap (kept next by_node) previous))); [by left|by right; left].
Qed.
End carrying.

(** C27: receipts are carried forward exactly.  With two plans as dictionaries,
    [carry_forward_receipts] answers exactly when the digests and names are well
    formed and the receipts are for distinct nodes, of the subject, and qualified
    for the previous contract of their node.  It then carries exactly the receipts
    of unchanged nodes, keeps exactly those of removed nodes as historical, and
    every node of the next plan is either carried, or to be qualified again, or
    new, exactly one of the three. *)
Theorem carry_forward_partitions (previous next : inventory) receipts subject : NoDup previous.*1 -> NoDup next.*1 ->
  ((exists s, carry_forward_receipts previous next receipts subject = Ok s)
     <-> is_digest subject = true /\ check_inventory "previous" previous = Ok tt /\ check_inventory "next" next = Ok tt /\ qualified previous subject receipts)
  /\ forall s, carry_forward_receipts previous next receipts subject = Ok s ->
       (forall r, r ∈ carried s <-> r ∈ receipts /\ (receipt_node r, contract_digest r) ∈ next)
       /\ (forall r, r ∈ historical s <-> r ∈ receipts /\ receipt_node r ∉ next.*1)
       /\ (forall n, n ∈ new_nodes s <-> n ∈ next.*1 /\ n ∉ previous.*1)
       /\ next.*1 ≡ₚ map receipt_node (carried s) ++ requalify s ++ new_nodes s.
Proof.
  intros Hp Hn. unfold carry_forward_receipts. split; [split|].
  - intros [s H]. take_ok H u1 E1. take_ok H u2 E2. take_ok H u3 E3. take_ok H b E4. apply index_receipts in E4 as [Hq _]. apply require_ok in E1. by destruct u2, u3.
  - intros (H1 & H2 & H3 & H4). unfold require_digest. rewrite H1, H2, H3. cbn [require rbind].
    rewrite (proj2 (index_receipts previous subject receipts _) (conj H4 eq_refl)). cbn [rbind]. by eexists.
  - intros s H. take_ok H u1 E1. take_ok H u2 E2. take_ok H u3 E3. take_ok H b E4. apply index_receipts in E4 as [Hq ->]. injection H as <-.
    destruct (carry_loop next (map (fun r => (receipt_node r, r)) receipts) previous {| carried := []; requalify := []; historical := []; new_nodes := [] |}) as (-> & -> & ->).
    cbn [carried requalify historical new_nodes app]. unfold sorted_str. split_and!.
    + intros r. rewrite elem_of_sorted_by. by apply (carried_iff _ _ _ subject).
    + intros r. rewrite elem_of_sorted_by. by apply (historical_iff _ _ _ subject).
    + intros n. rewrite elem_of_sorted_by. apply elem_of_filter_not.
    + rewrite !sorted_by_perm. by apply (next_partition _ _ _ subject).
Qed.

(** ** A sample lineage *)

Module SampleLineage.

Definition subject : string := Eval vm_compute in canonical_digest (JObj []).
Definition other : string := Eval vm_compute in canonical_digest (JInt 1).
Definition blank : GenerationRecord :=
  {| generation_id := ""; request_id := ""; objective_digest := ""; repository_id := None; subject_id := ""; subject_kind := ""; target := "";
     parent_generation_id := None; parent_commit := None; parent_tree := None; node_mappings_digest := ""; source_inventory_digest := "";
     standard_version := 0; standard_digest := ""; compiler_digest := ""; plan_digest := "" |}.
Definition ok_or {A} (a : A) (r : result A) : A := match r with Ok x => x | Raise _ => a end.
Definition members (parent plan : json) (version : Z) : contract :=
  [("request_id", JStr subject); ("objective_digest", JStr subject); ("repository_id", JNull); ("subject_id", JStr subject); ("subject_kind", JStr "document");
   ("target", JStr "report"); ("parent_generation_id", parent); ("parent_commit", JNull); ("parent_tree", JNull); ("node_mappings_digest", JStr subject);
   ("source_inventory_digest", JStr subject); ("standard_version", JInt version); ("standard_digest", JStr subject); ("compiler_digest", JStr subject);
   ("plan_digest", plan)].
Definition generation (parent plan : json) (version : Z) : GenerationRecord := ok_or blank (create (fun k => get k (members parent plan version))).
Definition first : GenerationRecord := Eval vm_compute in generation JNull (JStr subject) 2.
Definition second : GenerationRecord := Eval vm_compute in generation (JStr (generation_id first)) (JStr other) 3.
Definition downgraded : GenerationRecord := Eval vm_compute in generation (JStr (generation_id first)) (JStr other) 1.

Lemma sample_generations_valid : Forall valid_generation [second; first].
Proof. repeat constructor; vm_compute; reflexivity. Qed.

Definition receipt (node digest : string) : QualifiedNodeReceipt :=
  {| receipt_node := node; contract_digest := digest; receipt_subject := subject; receipt_bytes := "{}"; receipt_digest := raw_sha256 "{}" |}.
Definition previous : list (string * string) := [("build", subject); ("check", subject); ("gone", subject); ("other", subject)].
Definition next : list (string * string) := [("new", other); ("other", subject); ("check", other); ("build", subject)].
Definition receipts : list QualifiedNodeReceipt := [receipt "gone" subject; receipt "build" subject; receipt "check" subject].
Definition forwarded : CarryForwardResult := Eval vm_compute in
  ok_or {| carried := []; requalify := []; historical := []; new_nodes := [] |} (carry_forward_receipts previous next receipts subject).

(** An activation manifest whose authentication flags have this value. *)
Definition manifest (flag : json) : string :=
  canonical_bytes (JObj [("schema_version", JInt 1); ("kind", JStr "external-plan-activation-manifest"); ("plan_digest", JStr (raw_sha256 "plan"));
                         ("generation", JObj [("generation_id", JStr subject)]); ("authentication", JObj (map (fun k => (k, flag)) authentication_fields))]).
Definition activation (flag : json) : ActivationMaterial :=
  {| activation_generation := subject; complete_plan_bytes := "plan"; external_manifest_bytes := manifest flag; activation_plan_digest := raw_sha256 "plan";
     activation_manifest_digest := raw_sha256 (manifest flag) |}.

End SampleLineage.

Lemma generation_lineage_accepted_iff_witness :
  (exists st, lineage_of [SampleLineage.second; SampleLineage.first] = Ok st) <-> sound_set [SampleLineage.second; SampleLineage.first].
Proof. exact (proj1 (generation_lineage_accepted_iff _ SampleLineage.sample_generations_valid)). Defined.
(** The records load in any order, each after its parent; a lower standard does not. *)
Example sample_lineage_loads :
  (let? st := lineage_of [SampleLineage.second; SampleLineage.first] in Ok (records st)) = Ok [SampleLineage.first; SampleLineage.second]
  /\ lineage_of [SampleLineage.first; SampleLineage.downgraded] = violation "generation standard downgrade is forbidden"
  /\ lineage_of [SampleLineage.second] = violation "generation lineage has a cycle or missing parent".
Proof. split_and!; vm_compute; reflexivity. Qed.

Lemma carry_forward_partitions_witness :
  SampleLineage.next.*1 ≡ₚ map receipt_node (carried SampleLineage.forwarded) ++ requalify SampleLineage.forwarded ++ new_nodes SampleLineage.forwarded.
Proof.
  refine (proj2 (proj2 (proj2 (proj2 (carry_forward_partitions SampleLineage.previous SampleLineage.next SampleLineage.receipts SampleLineage.subject _ _)
    SampleLineage.forwarded _)))); [apply (bool_decide_unpack _); vm_compute; exact I..|vm_compute; reflexivity].
Defined.
Example sample_carried :
  (let? s := carry_forward_receipts SampleLineage.previous SampleLineage.next SampleLineage.receipts SampleLineage.subject in
   Ok (map receipt_node (carried s), requalify s, map receipt_node (historical s), new_nodes s)) = Ok (["build"], ["check"; "other"], ["gone"], ["new"]).
Proof. vm_compute. reflexivity. Qed.

(** The authentication flags of an activation manifest are compared for equality
    with [True], so that the number one passes for it. *)
Example numeric_authentication_accepted :
  check_activation (SampleLineage.activation (JInt 1)) = Ok (SampleLineage.activation (JInt 1))
  /\ check_activation (SampleLineage.activation (JBool false)) = violation "external manifest cannot weaken host authentication".
Proof. split; vm_compute; reflexivity. Qed.

End PlanLineage.
