(* ===== verification/MissionSchemas.v ===== *)
(** * Mission state and its schemas

    The schema documents of a portable mission ([schemas/mission-state],
    [tool-intent], [tool-receipt], [artifact-manifest], [handoff]), and the checks of
    [contracts.py] that go beyond a schema: [tool_intent_digest] and
    [validate_runtime_state]. *)

From S2P Require Import Prelude Sha256 Canonical PyLib Schema Policy Contracts.

Module MissionSchemas.
Export Contracts Policy.

(** ** Schema documents *)

Definition bounded_digest_schema : json := JObj [("type", JStr "string"); ("maxLength", JInt 71); ("pattern", JStr "^sha256:[0-9a-f]{64}$")].
Definition object_schema : json := JObj [("type", JStr "string"); ("pattern", JStr "^[0-9a-f]{40}$")].
Definition optional_text_schema : json := JObj [("type", strs ["string"; "null"]); ("minLength", JInt 1)].
Definition unique_texts_schema : json := JObj [("type", JStr "array"); ("items", nonempty_schema); ("uniqueItems", JBool true)].
Definition argv_schema : json := JObj [("type", JStr "array"); ("minItems", JInt 1); ("items", nonempty_schema)].
Definition action_kinds_schema : json := JObj [("enum", strs ["reasoning"; "read"; "write"; "command"; "network"; "git"; "message"; "deploy"])].
Definition roles_schema : json := JObj [("enum", strs ["orchestrator"; "explorer"; "architect"; "builder"; "curator"; "integrator"; "steward"; "optimizer"])].
Definition specification_schema : json := JObj [
  ("type", JStr "object");
  ("additionalProperties", JBool false);
  ("required", strs ["id"; "digest"]);
  ("properties", JObj [
   ("id", nonempty_schema);
   ("digest", bounded_digest_schema);
   ("candidate_commit", object_schema);
   ("candidate_tree", object_schema)])].
Definition stream_schema : json := JObj [
  ("type", JStr "object");
  ("additionalProperties", JBool false);
  ("required", strs ["digest"; "bytes"; "truncated"]);
  ("properties", JObj [
   ("digest", bounded_digest_schema);
   ("bytes", JObj [("type", JStr "integer"); ("minimum", JInt 0)]);
   ("truncated", JObj [("type", JStr "boolean")])])].
(** [schemas/tool-intent.schema.json] *)
Definition tool_intent_schema : list (string * json) := [
   ("$schema", JStr "https://json-schema.org/draft/2020-12/schema");
   ("$id", JStr "https://hive-mind-os.invalid/schemas/v1/tool-intent.schema.json");
   ("title", JStr "Hive Mind OS Tool Intent");
   ("type", JStr "object");
   ("additionalProperties", JBool false);
   ("required", strs ["schema_version"; "action_id"; "mission_id"; "state_ref"; "actor_id"; "kind"; "description"; "action_digest"; "policy_decision_ref"; "lease_id"; "idempotency_key"; "status"]);
   ("properties", JObj [
    ("schema_version", JObj [("const", JInt 1)]);
    ("action_id", nonempty_schema);
    ("mission_id", nonempty_schema);
    ("state_ref", nonempty_schema);
    ("actor_id", nonempty_schema);
    ("kind", action_kinds_schema);
    ("description", nonempty_schema);
    ("action_digest", bounded_digest_schema);
    ("policy_decision_ref", nonempty_schema);
    ("lease_id", nonempty_schema);
    ("idempotency_key", nonempty_schema);
    ("rollback_ref", optional_text_schema);
    ("command", JObj [
     ("type", JStr "object");
     ("additionalProperties", JBool false);
     ("required", strs ["argv"; "path_args"]);
     ("properties", JObj [
      ("argv", argv_schema);
      ("path_args", JObj [
       ("type", JStr "array");
       ("items", JObj [("type", JStr "integer"); ("minimum", JInt 1)]);
       ("uniqueItems", JBool true)])])]);
    ("acceptance_specification", specification_schema);
    ("status", JObj [("const", JStr "proposed")])]);
   ("allOf", JList [JObj [
    ("if", JObj [("properties", JObj [("kind", JObj [("const", JStr "command")])])]);
    ("then", JObj [("required", strs ["command"])])]])].
(** [schemas/artifact-manifest.schema.json] *)
Definition artifact_manifest_schema : list (string * json) := [
   ("$schema", JStr "https://json-schema.org/draft/2020-12/schema");
   ("$id", JStr "https://hive-mind-os.invalid/schemas/v1/artifact-manifest.schema.json");
   ("title", JStr "Hive Mind OS Artifact Manifest Entry");
   ("type", JStr "object");
   ("additionalProperties", JBool false);
   ("required", strs ["path"; "digest"]);
   ("properties", JObj [
    ("artifact_id", nonempty_schema);
    ("path", JObj [("type", JStr "string"); ("format", JStr "portable-relative-path")]);
    ("digest", bounded_digest_schema);
    ("media_type", optional_text_schema);
    ("bytes", JObj [("type", strs ["integer"; "null"]); ("minimum", JInt 0)]);
    ("created_by", optional_text_schema);
    ("created_at", JObj [("type", strs ["string"; "null"]); ("format", JStr "date-time")]);
    ("provenance_refs", unique_texts_schema)])].
(** [schemas/tool-receipt.schema.json] *)
Definition tool_receipt_schema : list (string * json) := [
   ("$schema", JStr "https://json-schema.org/draft/2020-12/schema");
   ("$id", JStr "https://hive-mind-os.invalid/schemas/v1/tool-receipt.schema.json");
   ("title", JStr "Hive Mind OS Tool Receipt");
   ("type", JStr "object");
   ("additionalProperties", JBool false);
   ("required", strs ["schema_version"; "receipt_id"; "action_id"; "provider"; "execution_id"; "mission_id"; "state_ref"; "actor_id"; "policy_decision_ref"; "lease_id"; "action_kind"; "action_digest"; "executed"; "result"; "observed_at"; "artifacts"; "verified_by"]);
   ("properties", JObj [
    ("schema_version", JObj [("const", JInt 1)]);
    ("receipt_id", nonempty_schema);
    ("action_id", nonempty_schema);
    ("provider", nonempty_schema);
    ("execution_id", nonempty_schema);
    ("mission_id", nonempty_schema);
    ("state_ref", nonempty_schema);
    ("actor_id", nonempty_schema);
    ("policy_decision_ref", nonempty_schema);
    ("lease_id", nonempty_schema);
    ("action_kind", action_kinds_schema);
    ("action_digest", bounded_digest_schema);
    ("executed", JObj [("const", JBool true)]);
    ("result", JObj [("enum", strs ["succeeded"; "failed"; "unknown"])]);
    ("observed_at", JObj [("type", JStr "string"); ("format", JStr "date-time")]);
    ("artifacts", JObj [("type", JStr "array"); ("items", JObj [("$ref", JStr "artifact-manifest.schema.json")])]);
    ("enforced", JObj [
     ("type", JStr "object");
     ("additionalProperties", JBool false);
     ("required", strs ["filesystem"; "network"; "resources"; "executable_identity"]);
     ("properties", JObj [
      ("filesystem", JObj [("const", JStr "none")]);
      ("network", JObj [("const", JStr "none")]);
      ("resources", JObj [("const", JStr "posix-rlimit-only")]);
      ("executable_identity", JObj [("const", JStr "name-allowlist-only")])])]);
    ("execution", JObj [
     ("type", JStr "object");
     ("additionalProperties", JBool false);
     ("required", strs ["argv"; "exit_code"; "duration_ms"; "outcome"; "stdout"; "stderr"; "sandbox_spec_digest"; "runner_identity"]);
     ("properties", JObj [
      ("argv", argv_schema);
      ("requested_argv", argv_schema);
      ("acceptance_specification", specification_schema);
      ("exit_code", JObj [("type", strs ["integer"; "null"])]);
      ("duration_ms", JObj [("type", JStr "number"); ("minimum", JInt 0)]);
      ("outcome", JObj [("enum", strs ["succeeded"; "failed"; "timeout"])]);
      ("stdout", stream_schema);
      ("stderr", stream_schema);
      ("sandbox_spec_digest", bounded_digest_schema);
      ("runner_identity", nonempty_schema)])]);
    ("verified_by", nonempty_schema)]);
   ("allOf", JList [JObj [
    ("if", JObj [("properties", JObj [("provider", JObj [("const", JStr "hive-mind-process-sandbox")])])]);
    ("then", JObj [("required", strs ["enforced"])])]])].
(** [schemas/handoff.schema.json] *)
Definition handoff_schema : list (string * json) := [
   ("$schema", JStr "https://json-schema.org/draft/2020-12/schema");
   ("$id", JStr "https://hive-mind-os.invalid/schemas/v1/handoff.schema.json");
   ("title", JStr "Hive Mind OS Handoff");
   ("type", JStr "object");
   ("additionalProperties", JBool false);
   ("required", strs ["schema_version"; "handoff_id"; "mission_id"; "state_ref"; "from_actor_id"; "to_role"; "unresolved_items"; "verified_artifacts"; "next_action"; "resume_instruction"; "created_at"]);
   ("properties", JObj [
    ("schema_version", JObj [("const", JInt 1)]);
    ("handoff_id", nonempty_schema);
    ("mission_id", nonempty_schema);
    ("state_ref", nonempty_schema);
    ("from_actor_id", nonempty_schema);
    ("to_role", roles_schema);
    ("unresolved_items", JObj [("type", JStr "array"); ("items", nonempty_schema)]);
    ("verified_artifacts", unique_texts_schema);
    ("next_action", nonempty_schema);
    ("resume_instruction", nonempty_schema);
    ("created_at", JObj [("type", JStr "string"); ("format", JStr "date-time")])])].
(** [schemas/mission-state.schema.json] *)
Definition mission_state_schema : list (string * json) := [
   ("$schema", JStr "https://json-schema.org/draft/2020-12/schema");
   ("$id", JStr "https://hive-mind-os.invalid/schemas/v1/mission-state.schema.json");
   ("title", JStr "Hive Mind OS Portable Mission State");
   ("type", JStr "object");
   ("additionalProperties", JBool false);
   ("required", strs ["schema_version"; "mission"; "role_runs"; "court_cases"; "evidence"; "proposed_actions"; "tool_receipts"; "blockers"; "independent_verification"; "next_action"; "handoff"]);
   ("properties", JObj [
    ("schema_version", JObj [("const", JInt 3)]);
    ("mission", JObj [
     ("type", JStr "object");
     ("additionalProperties", JBool false);
     ("required", strs ["id"; "state_version"; "objective"; "active_phase"; "active_role"; "status"; "source_pack_fingerprint"]);
     ("properties", JObj [
      ("id", nonempty_schema);
      ("state_version", JObj [("type", JStr "integer"); ("minimum", JInt 1)]);
      ("objective", nonempty_schema);
      ("active_phase", JObj [
       ("enum", strs ["intake"; "discover"; "design"; "build"; "validate"; "integrate"; "maintain"; "optimize"; "complete"; "blocked"; "quarantined"])]);
      ("active_role", roles_schema);
      ("status", JObj [("enum", strs ["active"; "complete"; "blocked"; "quarantined"])]);
      ("source_pack_fingerprint", bounded_digest_schema)])]);
    ("role_runs", JObj [
     ("type", JStr "array");
     ("items", JObj [
      ("type", JStr "object");
      ("additionalProperties", JBool false);
      ("required", strs ["role"; "actor_id"; "status"; "evidence_refs"]);
      ("properties", JObj [
       ("role", roles_schema);
       ("actor_id", nonempty_schema);
       ("status", JObj [("enum", strs ["pending"; "running"; "succeeded"; "failed"; "blocked"])]);
       ("evidence_refs", unique_texts_schema)])])]);
    ("court_cases", JObj [("type", JStr "array"); ("items", JObj [("type", JStr "object")])]);
    ("evidence", JObj [("type", JStr "array"); ("items", JObj [("type", JStr "object")])]);
    ("proposed_actions", JObj [("type", JStr "array"); ("items", JObj [("$ref", JStr "tool-intent.schema.json")])]);
    ("tool_receipts", JObj [("type", JStr "array"); ("items", JObj [("$ref", JStr "tool-receipt.schema.json")])]);
    ("blockers", unique_texts_schema);
    ("independent_verification", JObj [
     ("type", JStr "array");
     ("items", JObj [
      ("type", JStr "object");
      ("additionalProperties", JBool false);
      ("required", strs ["actor_id"; "evidence_refs"]);
      ("properties", JObj [
       ("actor_id", nonempty_schema);
       ("evidence_refs", JObj [("type", JStr "array"); ("minItems", JInt 1); ("items", nonempty_schema); ("uniqueItems", JBool true)])])])]);
    ("next_action", JObj [
     ("type", JStr "object");
     ("additionalProperties", JBool false);
     ("required", strs ["owner_role"; "description"; "success_condition"]);
     ("properties", JObj [("owner_role", roles_schema); ("description", nonempty_schema); ("success_condition", nonempty_schema)])]);
    ("handoff", JObj [("$ref", JStr "handoff.schema.json")])]);
   ("allOf", JList [JObj [
    ("if", JObj [
     ("properties", JObj [("mission", JObj [("properties", JObj [("status", JObj [("const", JStr "complete")])])])])]);
    ("then", JObj [
     ("properties", JObj [("blockers", JObj [("maxItems", JInt 0)]); ("independent_verification", JObj [("minItems", JInt 1)])])])]])].

(** [load_schema] on the documents above and the kernel's. *)
Definition mission_schemas : resources := fun name =>
  if String.eqb name "tool-intent" then Ok tool_intent_schema
  else if String.eqb name "artifact-manifest" then Ok artifact_manifest_schema
  else if String.eqb name "tool-receipt" then Ok tool_receipt_schema
  else if String.eqb name "handoff" then Ok handoff_schema
  else if String.eqb name "mission-state" then Ok mission_state_schema
  else kernel_schemas name.

(** [validate_contract]; nine levels are enough for these schemas. *)
Definition validate_document (name : string) (document : json) : result ContractValidation :=
  match validate_contract 9 mission_schemas name document with
  | Some v => Ok v
  | None => raise RecursionError "maximum recursion depth exceeded"
  end.

(** ** Tool intents *)

(** Every member but the digest itself. *)
Definition tool_intent_digest (document : contract) : string := canonical_digest (JObj (pop_key "action_digest" document)).

(** ** The state of a mission *)

Definition SIDE_EFFECTING_ACTIONS : list string := ["write"; "command"; "network"; "git"; "message"; "deploy"].

(** [f"{value}"] of the values that are not containers. *)
Definition text_of (v : json) : option string :=
  match v with
  | JStr s => Some s
  | JInt z => Some (str_of_Z z)
  | JBool b => Some (if b then "True" else "False")
  | JNull => Some "None"
  | _ => None
  end.
Definition text (v : json) : string := default "" (text_of v).

(** The mappings of a sequence. *)
Definition mappings (v : json) : list contract := omap as_obj (default [] (as_list v)).

Definition action_turn (mission_id : json) (state_ref : string) (role_actors : list string) (s : list string * list (string * contract)) (action : contract)
    : result (list string * list (string * contract)) :=
  match as_str (get "action_id" action) with
  | None => Ok s
  | Some i =>
      let known := match lookup_key i s.2 with Some _ => true | None => false end in
      let? acting := in_names (get "actor_id" action) role_actors in
      Ok (s.1 ++ when known ("duplicate action id: " +:+ i)%stdpp
              ++ when (negb (py_eq (get "mission_id" action) mission_id)) ("action " +:+ i +:+ " belongs to another mission")%stdpp
              ++ when (negb (py_eq (get "state_ref" action) (JStr state_ref))) ("action " +:+ i +:+ " references another mission state")%stdpp
              ++ when (negb acting) ("action " +:+ i +:+ " actor lacks a role run")%stdpp
              ++ when (negb (py_eq (get "action_digest" action) (JStr (tool_intent_digest action)))) ("action " +:+ i +:+ " digest does not bind its intent")%stdpp,
          if known then s.2 else s.2 ++ [(i, action)])
  end.

Record receipt_scan := { rs_issues : list string; rs_receipts : list string; rs_executions : list string; rs_map : list (string * contract) }.
(** The members a receipt shares with its action. *)
Definition foreign_fields (mission_id : json) (state_ref : string) (action receipt : contract) : list string :=
  let id := text (get "receipt_id" receipt) in
  concat (map (fun fe => when (negb (py_eq (get fe.1 receipt) fe.2)) ("receipt " +:+ id +:+ " has foreign " +:+ fe.1)%stdpp)
    [("mission_id", mission_id); ("state_ref", JStr state_ref); ("actor_id", get "actor_id" action); ("action_kind", get "kind" action);
     ("action_digest", get "action_digest" action); ("policy_decision_ref", get "policy_decision_ref" action); ("lease_id", get "lease_id" action)]).
Definition receipt_turn (mission_id : json) (state_ref : string) (actions : list (string * contract)) (s : receipt_scan) (receipt : contract) : receipt_scan :=
  let add (seen : list string) (v : json) := match as_str v with Some i => if mem i seen then seen else seen ++ [i] | None => seen end in
  let again (seen : list string) (v : json) m := match as_str v with Some i => when (mem i seen) (m +:+ i)%stdpp | None => [] end in
  let ids := again (rs_receipts s) (get "receipt_id" receipt) "duplicate receipt id: "
             ++ again (rs_executions s) (get "execution_id" receipt) "duplicate execution id: " in
  let s' := {| rs_issues := rs_issues s ++ ids; rs_receipts := add (rs_receipts s) (get "receipt_id" receipt);
               rs_executions := add (rs_executions s) (get "execution_id" receipt); rs_map := rs_map s |} in
  let more found map := {| rs_issues := rs_issues s' ++ found; rs_receipts := rs_receipts s'; rs_executions := rs_executions s'; rs_map := map |} in
  match as_str (get "action_id" receipt) with
  | None => more [("receipt references unknown action: " +:+ text (get "action_id" receipt))%stdpp] (rs_map s)
  | Some i =>
      match lookup_key i actions with
      | None => more [("receipt references unknown action: " +:+ i)%stdpp] (rs_map s)
      | Some action =>
          let found := foreign_fields mission_id state_ref action receipt
            ++ when (py_eq (get "verified_by" receipt) (get "actor_id" receipt)) ("receipt " +:+ text (get "receipt_id" receipt) +:+ " was self-verified")%stdpp in
          match lookup_key i (rs_map s) with
          | Some _ => more (found ++ [("action has multiple receipts: " +:+ i)%stdpp]) (rs_map s)
          | None => more found (rs_map s ++ [(i, receipt)])
          end
      end
  end.

(** [{run.get("role") for run in role_runs or () if ...}] *)
Definition succeeded_roles (role_runs : json) : result (list json) :=
  let? runs := (if truthy role_runs then
                  match role_runs with JList _ | JStr _ | JObj _ => Ok (mappings role_runs) | _ => raise TypeError "object is not iterable" end
                else Ok []) in
  let roles := map (get "role") (List.filter (fun run => py_eq (get "status" run) (JStr "succeeded")) runs) in
  require (forallb hashable roles) TypeError "unhashable type" ;?
  Ok roles.

(** What a completed mission lacks. *)
Definition receipt_missing (receipts : list (string * contract)) (ia : string * contract) : result (list string) :=
  let? effect := in_names (get "kind" ia.2) SIDE_EFFECTING_ACTIONS in
  Ok (when (effect && negb match lookup_key ia.1 receipts with Some r => py_eq (get "result" r) (JStr "succeeded") | None => false end)
        ("completion lacks successful receipt for side-effecting action " +:+ ia.1)%stdpp).
Definition completion_issues (document : contract) (verifiers : list string) (actions receipts : list (string * contract)) : result (list string) :=
  let? succeeded := succeeded_roles (get "role_runs" document) in
  let missing := List.filter (fun r => negb (existsb (py_eq (JStr r)) succeeded)) (map role_value IMPLEMENTED_REPOSITORY_ROLES) in
  let? unreceipted := map_result (receipt_missing receipts) actions in
  Ok (when (negb (bool_decide (missing = []))) ("completion is missing successful role runs: " +:+ join ", " (sorted_str missing))%stdpp
      ++ when (truthy (get "blockers" document)) "completion declared while blockers remain"
      ++ when (bool_decide (verifiers = [])) "completion lacks independent verification"
      ++ concat unreceipted).

Definition state_issues (document mission : contract) (expected : option string) : result (list string) :=
  let mission_id := get "id" mission in
  let state_ref := ("MISSION_STATE:" +:+ text mission_id +:+ ":" +:+ text (get "state_version" mission))%stdpp in
  let role_names := omap (fun run => as_str (get "role" run)) (mappings (get "role_runs" document)) in
  let role_actors := omap (fun run => as_str (get "actor_id" run)) (mappings (get "role_runs" document)) in
  let? actions := rfold (action_turn mission_id state_ref role_actors) ([], []) (mappings (get "proposed_actions" document)) in
  let receipts := fold_left (receipt_turn mission_id state_ref actions.2) (mappings (get "tool_receipts" document))
                    {| rs_issues := []; rs_receipts := []; rs_executions := []; rs_map := [] |} in
  let verifiers := omap (fun item => as_str (get "actor_id" item)) (mappings (get "independent_verification" document)) in
  let? completion := (if py_eq (get "status" mission) (JStr "complete") then completion_issues document verifiers actions.2 (rs_map receipts) else Ok []) in
  Ok (match expected with Some f => when (negb (py_eq (get "source_pack_fingerprint" mission) (JStr f))) "mission source-pack fingerprint does not match validated bytes" | None => [] end
      ++ when (negb (distinct role_names)) "role_runs contain duplicate roles"
      ++ actions.1 ++ rs_issues receipts
      ++ when (existsb (fun a => mem a verifiers) role_actors) "acting role identity attempted to verify mission completion"
      ++ match get "handoff" document with
         | JObj h => when (negb (py_eq (get "mission_id" h) mission_id)) "handoff belongs to another mission"
                     ++ when (negb (py_eq (get "state_ref" h) (JStr state_ref))) "handoff references another mission state"
         | _ => []
         end
      ++ completion).

(** The values whose text appears in an issue or a reference. *)
Definition printed_values (document mission : contract) : list json :=
  get "id" mission :: get "state_version" mission
    :: flat_map (fun r => [get "receipt_id" r; get "action_id" r]) (mappings (get "tool_receipts" document)).
(** [validate_runtime_state]; [None]: the text of a container would be printed. *)
Definition validate_runtime_state (document : json) (expected : option string) : option (result ContractValidation) :=
  let structural := validate_document "mission-state" document in
  let stop := Some (let? s := structural in Ok {| valid := false; issues := issues s |}) in
  match document with
  | JObj d =>
      match get "mission" d with
      | JObj mission =>
          if forallb (fun v => match text_of v with Some _ => true | None => false end) (printed_values d mission) then
            Some (let? s := structural in
                  let? found := state_issues d mission expected in
                  let all := issues s ++ found in
                  Ok {| valid := bool_decide (all = []); issues := dedup all |})
          else None
      | _ => stop
      end
  | _ => stop
  end.

(** ** Totality *)

Lemma mission_schemas_supported name schema : mission_schemas name = Ok schema -> supported 9 mission_schemas schema = true.
Proof.
  unfold mission_schemas, kernel_schemas. intros H.
  repeat (destruct (String.eqb _ _); [injection H as <-; vm_compute; reflexivity|]). discriminate H.
Qed.
(** Validation against these schemas never runs out of levels. *)
Lemma validate_document_total name document : exists v, validate_document name document = Ok v.
Proof.
  unfold validate_document, validate_contract. destruct (mission_schemas name) as [schema|e] eqn:E; [|by eexists].
  destruct (validate_node_total 9 9 mission_schemas document schema "$") as [l ->]; [by eapply mission_schemas_supported|done|by eexists].
Qed.

End MissionSchemas.
