(* ===== verification/MissionStore.v ===== *)
(** * Mission checkpoints

    [MissionStore] of [mission_store.py]: the three tables with their keys, the
    files next to them, and its methods.  A method is the sequence of its commits;
    one that writes twice is given in its parts, so that a process may die between
    them.  The store has one writer.  A file is its bytes under the path relative to
    the state directory; the working copies and their snapshots are arguments. *)

From S2P Require Import Prelude Sha256 Canonical JsonLines PyLib Schema Policy Contracts MissionSchemas.
From Stdlib Require Import Ascii.

Module MissionStore.
Export MissionSchemas.

(** ** Tables and files *)

Record mission_row := {
  m_id : string; m_status : string; config_json : string; state_json : string; roles_json : string; workspaces_json : string; budget_json : string;
  report_json : option string; m_blocker : option string }.
Inductive checkpoint_state := INTENT | COMPLETED.
#[global] Instance checkpoint_state_eq_dec : EqDecision checkpoint_state.
Proof. solve_decision. Defined.
Record checkpoint_row := {
  c_mission : string; c_step : Z; c_digest : string; c_state : checkpoint_state; c_intent_json : string; c_outcome_json : option string;
  c_reference_json : option string; c_count : Z }.
Record idempotency_row := { i_digest : string; i_mission : string; i_step : Z; i_reference_json : string }.
Record MissionStore := {
  store_version : option string; missions : list mission_row; checkpoints_table : list checkpoint_row; idempotency : list idempotency_row;
  files : gmap string string }.

Definition with_missions (st : MissionStore) (l : list mission_row) : MissionStore :=
  {| store_version := store_version st; missions := l; checkpoints_table := checkpoints_table st; idempotency := idempotency st; files := files st |}.
Definition with_checkpoints (st : MissionStore) (l : list checkpoint_row) : MissionStore :=
  {| store_version := store_version st; missions := missions st; checkpoints_table := l; idempotency := idempotency st; files := files st |}.
Definition with_idempotency (st : MissionStore) (l : list idempotency_row) : MissionStore :=
  {| store_version := store_version st; missions := missions st; checkpoints_table := checkpoints_table st; idempotency := l; files := files st |}.
Definition with_file (st : MissionStore) (path content : string) : MissionStore :=
  {| store_version := store_version st; missions := missions st; checkpoints_table := checkpoints_table st; idempotency := idempotency st;
     files := <[path := content]> (files st) |}.

Definition STORE_SCHEMA_VERSION : string := "1".
(** [MissionStore(state_dir)] on an existing directory. *)
Definition open_store : M MissionStore unit :=
  let* st := getM in
  match store_version st with
  | None => putM {| store_version := Some STORE_SCHEMA_VERSION; missions := missions st; checkpoints_table := checkpoints_table st;
                    idempotency := idempotency st; files := files st |}
  | Some v => guardM (String.eqb v STORE_SCHEMA_VERSION) StoreVersionError
                ("unsupported mission-store schema version " +:+ v +:+ "; expected " +:+ STORE_SCHEMA_VERSION)%stdpp
  end.

Definition find_mission (st : MissionStore) (i : string) : option mission_row := List.find (fun r => String.eqb (m_id r) i) (missions st).
Definition find_step (st : MissionStore) (i : string) (n : Z) : option checkpoint_row :=
  List.find (fun r => String.eqb (c_mission r) i && (c_step r =? n)) (checkpoints_table st).
Definition find_digest (st : MissionStore) (i d : string) : option checkpoint_row :=
  List.find (fun r => String.eqb (c_mission r) i && String.eqb (c_digest r) d) (checkpoints_table st).
Definition find_idempotency (st : MissionStore) (d : string) : option idempotency_row := List.find (fun r => String.eqb (i_digest r) d) (idempotency st).

(** [UPDATE missions SET ... WHERE mission_id=?] *)
Definition update_mission (i : string) (f : mission_row -> mission_row) : M MissionStore unit :=
  let* st := getM in putM (with_missions st (map (fun r => if String.eqb (m_id r) i then f r else r) (missions st))).
Definition insert_checkpoint (r : checkpoint_row) : M MissionStore unit :=
  let* st := getM in
  guardM (negb (bool_decide (is_Some (find_step st (c_mission r) (c_step r))))) IntegrityError
    "UNIQUE constraint failed: checkpoints.mission_id, checkpoints.step_index" ;*
  guardM (negb (bool_decide (is_Some (find_digest st (c_mission r) (c_digest r))))) IntegrityError
    "UNIQUE constraint failed: checkpoints.mission_id, checkpoints.intent_digest" ;*
  guardM (bool_decide (is_Some (find_mission st (c_mission r)))) IntegrityError "FOREIGN KEY constraint failed" ;*
  putM (with_checkpoints st (checkpoints_table st ++ [r])).

(** ** Reading JSON *)

Definition parse_json (text : string) : result json := match loads text with Some j => Ok j | None => raise ValueError "Expecting value" end.
Definition as_mapping (v : json) : result contract := match v with JObj d => Ok d | _ => raise AttributeError "object has no attribute 'get'" end.
(** [document[key]] *)
Definition member (k : string) (d : contract) : result json := match lookup_key k d with Some v => Ok v | None => raise KeyError k end.
(** [dict(value)] of a JSON object *)
Definition dict_of (v : json) : result contract := match v with JObj d => Ok d | _ => raise TypeError "object is not a mapping" end.
Definition parse_optional (o : option string) : result (option json) :=
  match o with None => Ok None | Some text => if String.eqb text "" then Ok None else let? j := parse_json text in Ok (Some j) end.
Definition bytes_digest (content : string) : string := ("sha256:" +:+ sha256_hexdigest content)%stdpp.

(** ** Mission rows *)

Record AutonomyBudget := {
  max_episodes : Z; max_tool_calls : Z; max_compute_units : Z; max_tool_calls_per_episode : Z; max_compute_units_per_episode : Z; episodes_used : Z;
  tool_calls_used : Z; compute_units_used : Z }.
(** Compute units are whole numbers here. *)
Definition _budget_payload (b : AutonomyBudget) : contract :=
  [("max_episodes", JInt (max_episodes b)); ("max_tool_calls", JInt (max_tool_calls b)); ("max_compute_units", JInt (max_compute_units b));
   ("max_tool_calls_per_episode", JInt (max_tool_calls_per_episode b)); ("max_compute_units_per_episode", JInt (max_compute_units_per_episode b));
   ("episodes_used", JInt (episodes_used b)); ("tool_calls_used", JInt (tool_calls_used b)); ("compute_units_used", JInt (compute_units_used b))].

Record mission_view := {
  v_status : string; v_config : json; v_state : json; v_roles : json; v_workspaces : json; v_budget : json; v_report : option json; v_blocker : option string }.
Definition has_mission (i : string) (st : MissionStore) : bool := bool_decide (is_Some (find_mission st i)).
Definition mission (i : string) (st : MissionStore) : result mission_view :=
  match find_mission st i with
  | None => raise KeyError ("unknown mission: " +:+ i)%stdpp
  | Some r =>
      let? config := parse_json (config_json r) in
      let? state := parse_json (state_json r) in
      let? roles := parse_json (roles_json r) in
      let? workspaces := parse_json (workspaces_json r) in
      let? budget := parse_json (budget_json r) in
      let? report := parse_optional (report_json r) in
      Ok {| v_status := m_status r; v_config := config; v_state := state; v_roles := roles; v_workspaces := workspaces; v_budget := budget;
            v_report := report; v_blocker := m_blocker r |}
  end.
Definition list_missions (st : MissionStore) : result (list contract) :=
  map_result (fun r =>
    let? config := parse_json (config_json r) in
    let? config := dict_of config in
    let? objective := member "objective" config in
    let? repository := member "repository" config in
    Ok [("mission_id", JStr (m_id r)); ("status", JStr (m_status r)); ("objective", objective); ("repository", repository); ("blocker", opt_str (m_blocker r))])
    (sorted_by m_id (missions st)).

(** ** The portable state *)

Definition phase_by_role (r : Role) : string :=
  match r with
  | ORCHESTRATOR => "intake" | EXPLORER => "discover" | ARCHITECT => "design" | BUILDER => "build" | CURATOR => "validate" | INTEGRATOR => "integrate"
  | STEWARD => "maintain" | OPTIMIZER => "optimize"
  end.
(** [Role(name)] *)
Definition role_of_name (name : string) : result Role :=
  match List.find (fun r => String.eqb (role_value r) name) all_roles with
  | Some r => Ok r
  | None => raise ValueError ("'" +:+ name +:+ "' is not a valid Role")%stdpp
  end.
(** The first role, in the order of the dictionary, that has not succeeded. *)
Definition pending_role (roles : contract) : result Role :=
  match List.find (fun kv => negb (py_eq kv.2 (JStr "succeeded"))) roles with Some kv => role_of_name kv.1 | None => Ok OPTIMIZER end.
Definition role_run (roles : contract) (role : Role) (complete : bool) (item : Role) : json :=
  let status := get (role_value item) roles in
  JObj [("role", JStr (role_value item)); ("actor_id", JStr ("agent-" +:+ role_value item)%stdpp);
        ("status", JStr (if py_eq status (JStr "succeeded") then "succeeded"
                         else if py_eq status (JStr "failed") then "failed"
                         else if bool_decide (item = role) && negb complete then "running" else "pending"));
        ("evidence_refs", JList [])].
Definition _state_document (i status : string) (config roles : contract) (intents receipts : list json) (active : option Role) (blocker : option string)
    (paths : list json) (now : string) : result contract :=
  let complete := String.eqb status "succeeded" in
  let blocked := mem status ["failed"; "blocked"] in
  let? role := match active with Some r => Ok r | None => pending_role roles end in
  let? objective := member "objective" config in
  let? fingerprint := member "source_pack_fingerprint" config in
  let? receipts := map_result dict_of receipts in
  let reason := match blocker with Some b => if String.eqb b "" then None else Some b | None => None end in
  let choose (a b c : string) := JStr (if complete then a else if blocked then b else c) in
  Ok [("schema_version", JInt 3);
      ("mission", JObj [("id", JStr i); ("state_version", JInt 1); ("objective", objective); ("active_phase", choose "complete" "blocked" (phase_by_role role));
                        ("active_role", JStr (role_value role)); ("status", choose "complete" "blocked" "active"); ("source_pack_fingerprint", fingerprint)]);
      ("role_runs", JList (map (role_run roles role complete) all_roles));
      ("court_cases", JList []);
      ("evidence", JList (map (fun p => JObj [("kind", JStr "checkpoint-receipt"); ("path", p)]) paths));
      ("proposed_actions", JList intents);
      ("tool_receipts", JList (map JObj receipts));
      ("blockers", JList (if blocked then [JStr (default "mission failed" reason)] else []));
      ("independent_verification",
         JList (if complete then
                  [JObj [("actor_id", JStr "p06-store-verifier"); ("evidence_refs", JList (if bool_decide (paths = []) then [JStr "mission-report"] else paths))]]
                else []));
      ("next_action", JObj [("owner_role", JStr (role_value role));
                            ("description", choose "mission complete" "resolve blocker" "resume from first incomplete checkpoint");
                            ("success_condition", JStr (if complete then "verified delivery remains reproducible" else "checkpoint evidence and workspace reconcile"))]);
      ("handoff", JObj [("schema_version", JInt 1); ("handoff_id", JStr ("HANDOFF-" +:+ i)%stdpp); ("mission_id", JStr i);
                        ("state_ref", JStr ("MISSION_STATE:" +:+ i +:+ ":1")%stdpp); ("from_actor_id", JStr "agent-orchestrator");
                        ("to_role", JStr (role_value role)); ("unresolved_items", JList (match reason with Some b => [JStr b] | None => [] end));
                        ("verified_artifacts", JList paths); ("next_action", JStr (if complete then "retain verified result" else "resume durable mission"));
                        ("resume_instruction", JStr ("hive-mind resume " +:+ i)%stdpp); ("created_at", JStr now)])].
(** The state is stored only when it validates.  Where [validate_runtime_state]
    has no answer a receipt identifier is a container, which the schema refuses;
    the text of the message is left out. *)
Definition check_state (label : string) (state : contract) : result unit :=
  match validate_runtime_state (JObj state) None with
  | Some v => let? v := v in require (valid v) StoreIntegrityError (label +:+ " mission state violates schema: " +:+ join "; " (issues v))%stdpp
  | None => raise StoreIntegrityError (label +:+ " mission state violates schema: ")%stdpp
  end.

Definition register_mission (i : string) (config : contract) (b : AutonomyBudget) (now : string) : M MissionStore unit :=
  let roles := map (fun r => (role_value r, JStr "pending")) all_roles in
  let* state := liftR (_state_document i "active" config roles [] [] None None [] now) in
  liftR (check_state "initial" state) ;*
  let* st := getM in
  guardM (negb (has_mission i st)) IntegrityError "UNIQUE constraint failed: missions.mission_id" ;*
  putM (with_missions st (missions st ++
    [{| m_id := i; m_status := "active"; config_json := canonical_bytes (JObj config); state_json := canonical_bytes (JObj state);
        roles_json := canonical_bytes (JObj roles); workspaces_json := "{}"; budget_json := canonical_bytes (JObj (_budget_payload b));
        report_json := None; m_blocker := None |}])).

(** ** Checkpoints *)

Record StepCheckpoint := {
  k_mission : string; k_step : Z; k_digest : string; k_state : checkpoint_state; k_intent : contract; k_outcome : option json; k_reference : option json;
  k_count : Z }.

(** The two checks of an intent that is to be recorded. *)
Definition check_intent (intent : contract) : result string :=
  let d := tool_intent_digest intent in
  require (py_eq (get "action_digest" intent) (JStr d)) StoreIntegrityError "intent action_digest is not canonical" ;?
  let? v := validate_document "tool-intent" (JObj intent) in
  require (valid v) StoreIntegrityError ("checkpoint intent violates schema: " +:+ join "; " (issues v))%stdpp ;?
  Ok d.
Definition new_checkpoint (i : string) (n : Z) (d : string) (intent : contract) : checkpoint_row :=
  {| c_mission := i; c_step := n; c_digest := d; c_state := INTENT; c_intent_json := canonical_bytes (JObj intent); c_outcome_json := None;
     c_reference_json := None; c_count := 0 |}.

(** What a row says, when its digest still binds it. *)
Definition read_checkpoint (r : checkpoint_row) : result StepCheckpoint :=
  let? intent := parse_json (c_intent_json r) in
  let? intent := as_mapping intent in
  let observed := tool_intent_digest intent in
  require (String.eqb (c_digest r) observed && py_eq (get "action_digest" intent) (JStr observed)) StoreIntegrityError
    ("checkpoint " +:+ str_of_Z (c_step r) +:+ " digest no longer binds its intent")%stdpp ;?
  let? outcome := parse_optional (c_outcome_json r) in
  let? reference := parse_optional (c_reference_json r) in
  Ok {| k_mission := c_mission r; k_step := c_step r; k_digest := c_digest r; k_state := c_state r; k_intent := intent; k_outcome := outcome;
        k_reference := reference; k_count := c_count r |}.
Definition checkpoint (i : string) (n : Z) (st : MissionStore) : result StepCheckpoint :=
  bind_integer n ;?
  match find_step st i n with
  | None => raise KeyError ("('" +:+ i +:+ "', " +:+ str_of_Z n +:+ ")")%stdpp
  | Some r => read_checkpoint r
  end.
(** [ORDER BY step_index] *)
Fixpoint insert_step (r : checkpoint_row) (l : list checkpoint_row) : list checkpoint_row :=
  match l with [] => [r] | x :: l' => if c_step r <=? c_step x then r :: l else x :: insert_step r l' end.
Definition checkpoints (i : string) (st : MissionStore) : result (list StepCheckpoint) :=
  map_result read_checkpoint (fold_right insert_step [] (List.filter (fun r => String.eqb (c_mission r) i) (checkpoints_table st))).

Definition record_intent (i : string) (n : Z) (intent : contract) : M MissionStore StepCheckpoint :=
  let* d := liftR (check_intent intent) in
  atomic (liftR (bind_integer n) ;*
          let* st := getM in
          match find_step st i n with None => insert_checkpoint (new_checkpoint i n d intent) | Some _ => ret tt end) ;*
  let* st := getM in liftR (checkpoint i n st).

Definition checkpoint_for_intent (i : string) (intent : contract) (minimum : Z) : M MissionStore StepCheckpoint :=
  guardM (negb (minimum <? 0)) ValueError "minimum checkpoint index cannot be negative" ;*
  let* d := liftR (check_intent intent) in
  let* n := atomic (let* st := getM in
                    match find_digest st i d with
                    | Some r => ret (c_step r)
                    | None =>
                        let next := foldr Z.max (-1) (map c_step (List.filter (fun r => String.eqb (c_mission r) i) (checkpoints_table st))) + 1 in
                        let n := Z.max minimum next in
                        liftR (bind_integer n) ;*
                        insert_checkpoint (new_checkpoint i n d intent) ;*
                        ret n
                    end) in
  let* st := getM in
  let* c := liftR (checkpoint i n st) in
  guardM (py_eq (JObj (k_intent c)) (JObj intent)) StoreIntegrityError "idempotency digest maps to a different canonical intent" ;*
  ret c.

(** ** Effects *)

(** [digest.removeprefix("sha256:")] *)
Definition hex_of (d : string) : string := if startswith "sha256:" d then drop_bytes 7 d else d.
Definition mission_root (i : string) : string := ("missions/" +:+ i)%stdpp.
Definition effect_intent_path (i d : string) : string := (mission_root i +:+ "/effect-intents/" +:+ hex_of d +:+ ".json")%stdpp.
Definition receipt_path (i d : string) : string := (mission_root i +:+ "/checkpoint-receipts/" +:+ hex_of d +:+ ".json")%stdpp.

(** The write-ahead record of a claimed effect. *)
Definition effect_record (c : StepCheckpoint) (now : string) : result contract :=
  let? key := member "idempotency_key" (k_intent c) in
  let? action := member "action_id" (k_intent c) in
  let? kind := member "kind" (k_intent c) in
  let? state_ref := member "state_ref" (k_intent c) in
  Ok [("schema_version", JInt 1); ("mission_id", JStr (k_mission c)); ("step_index", JInt (k_step c)); ("intent_digest", JStr (k_digest c));
      ("idempotency_key", key); ("action_id", action); ("action_kind", kind); ("state_ref", state_ref); ("recorded_at", JStr now)].
Definition _write_ahead_effect (c : StepCheckpoint) (now : string) : M MissionStore contract :=
  let path := effect_intent_path (k_mission c) (k_digest c) in
  let* r := liftR (effect_record c now) in
  let* st := getM in
  match files st !! path with
  | Some content =>
      liftR (let? stored := parse_json content in
             let? stored := as_mapping stored in
             require (py_eq (get "intent_digest" stored) (get "intent_digest" r) && py_eq (get "idempotency_key" stored) (get "idempotency_key" r))
               StoreIntegrityError "write-ahead effect record binds a different intent" ;?
             Ok stored)
  | None => putM (with_file st path (canonical_bytes (JObj r) +:+ newline)%stdpp) ;* ret r
  end.
Definition find_effect_intent (c : StepCheckpoint) (st : MissionStore) : result (option contract) :=
  match files st !! effect_intent_path (k_mission c) (k_digest c) with
  | None => Ok None
  | Some content =>
      let? r := parse_json content in
      let? r := as_mapping r in
      require (py_eq (get "intent_digest" r) (JStr (k_digest c))) StoreIntegrityError "write-ahead effect record belongs to another intent" ;?
      Ok (Some r)
  end.

(** [begin_effect]: the record first, then the claim. *)
Definition begin_record (i : string) (n : Z) (now : string) : M MissionStore contract :=
  let* st := getM in
  let* c := liftR (wrap [KeyError] StoreIntegrityError "effect began outside an intent checkpoint" (checkpoint i n st)) in
  guardM (bool_decide (k_state c = INTENT)) StoreIntegrityError "effect began outside an intent checkpoint" ;*
  _write_ahead_effect c now.
Definition update_step (i : string) (n : Z) (f : checkpoint_row -> checkpoint_row) (st : MissionStore) : MissionStore :=
  with_checkpoints st (map (fun r => if String.eqb (c_mission r) i && (c_step r =? n) then f r else r) (checkpoints_table st)).
Definition counted (r : checkpoint_row) : checkpoint_row :=
  {| c_mission := c_mission r; c_step := c_step r; c_digest := c_digest r; c_state := c_state r; c_intent_json := c_intent_json r;
     c_outcome_json := c_outcome_json r; c_reference_json := c_reference_json r; c_count := c_count r + 1 |}.
Definition begin_claim (i : string) (n : Z) (r : contract) : M MissionStore contract :=
  atomic (let* st := getM in
          match find_step st i n with
          | None => fail StoreIntegrityError "effect began outside an intent checkpoint"
          | Some row =>
              guardM (bool_decide (c_state row = INTENT)) StoreIntegrityError "effect began outside an intent checkpoint" ;*
              if 0 <? c_count row then ret r
              else guardM (c_count row =? 0) StoreIntegrityError "effect began outside an intent checkpoint" ;*
                   putM (update_step i n counted st) ;* ret r
          end).
Definition begin_effect (i : string) (n : Z) (now : string) : M MissionStore contract :=
  let* r := begin_record i n now in begin_claim i n r.

(** The receipt of an effect: the synthetic tool receipt and what was observed. *)
Definition synthetic_receipt (c : StepCheckpoint) (now : string) : result contract :=
  let suffix := (k_mission c +:+ "-" +:+ str_of_Z (k_step c))%stdpp in
  let? action := member "action_id" (k_intent c) in
  let? state_ref := member "state_ref" (k_intent c) in
  let? actor := member "actor_id" (k_intent c) in
  let? decision := member "policy_decision_ref" (k_intent c) in
  let? lease := member "lease_id" (k_intent c) in
  let? kind := member "kind" (k_intent c) in
  Ok [("schema_version", JInt 1); ("receipt_id", JStr ("REC-P06-" +:+ suffix)%stdpp); ("action_id", action); ("provider", JStr "p06-mission-store-v1");
      ("execution_id", JStr ("EXEC-P06-" +:+ suffix)%stdpp); ("mission_id", JStr (k_mission c)); ("state_ref", state_ref); ("actor_id", actor);
      ("policy_decision_ref", decision); ("lease_id", lease); ("action_kind", kind); ("action_digest", JStr (k_digest c)); ("executed", JBool true);
      ("result", JStr "succeeded"); ("observed_at", JStr now); ("artifacts", JList []); ("verified_by", JStr "p06-checkpoint-store-v1")].
Definition wrapper_of (c : StepCheckpoint) (outcome : contract) (records : list contract) (receipt : contract) : contract :=
  [("intent_digest", JStr (k_digest c)); ("outcome", JObj outcome); ("records", JList (map JObj records)); ("receipt", JObj receipt)].
Definition reference_of (path content : string) : contract := [("path", JStr path); ("digest", JStr (bytes_digest content))].
Definition write_effect_receipt (c : StepCheckpoint) (outcome : contract) (records : list contract) (now : string) : M MissionStore contract :=
  let* receipt := liftR (synthetic_receipt c now) in
  let* v := liftR (validate_document "tool-receipt" (JObj receipt)) in
  guardM (valid v) StoreIntegrityError ("checkpoint receipt violates schema: " +:+ join "; " (issues v))%stdpp ;*
  let path := receipt_path (k_mission c) (k_digest c) in
  let* st := getM in
  match files st !! path with
  | Some existing =>
      liftR (let? w := parse_json existing in
             let? w := as_mapping w in
             require (py_eq (get "intent_digest" w) (JStr (k_digest c))) StoreIntegrityError "checkpoint receipt path was reused") ;*
      ret (reference_of path existing)
  | None =>
      let content := (canonical_bytes (JObj (wrapper_of c outcome records receipt)) +:+ newline)%stdpp in
      putM (with_file st path content) ;* ret (reference_of path content)
  end.
Definition find_effect_receipt (c : StepCheckpoint) (st : MissionStore) : result (option (contract * contract)) :=
  let path := receipt_path (k_mission c) (k_digest c) in
  match files st !! path with
  | None => Ok None
  | Some content =>
      let? w := parse_json content in
      let? w := as_mapping w in
      require (py_eq (get "intent_digest" w) (JStr (k_digest c))) StoreIntegrityError "effect receipt belongs to another intent" ;?
      Ok (Some (reference_of path content, w))
  end.

(** Claimed effects whose outcome nobody has seen. *)
Definition unreconciled_of (st : MissionStore) (c : StepCheckpoint) : result (list contract) :=
  if bool_decide (k_state c = COMPLETED) || (k_count c =? 0) then Ok []
  else
    let? r := find_effect_intent c st in
    match r with
    | None => Ok []
    | Some r => let? found := find_effect_receipt c st in match found with Some _ => Ok [] | None => Ok [r] end
    end.
Definition unreconciled_effects (i : string) (st : MissionStore) : result (list contract) :=
  let? l := checkpoints i st in
  let? pending := map_result (unreconciled_of st) l in
  Ok (concat pending).

(** ** Refreshing the portable state *)

Definition read_wrapper (st : MissionStore) (reference : json) : result (json * contract) :=
  let? reference := dict_of reference in
  let? path := member "path" reference in
  match path with
  | JStr p =>
      match files st !! p with
      | None => raise FileNotFoundError p
      | Some content => let? w := parse_json content in let? w := dict_of w in Ok (path, w)
      end
  | _ => raise AttributeError "object has no attribute 'split'"
  end.
Definition refresh_state (i : string) (active : option Role) (now : string) : M MissionStore contract :=
  let* st := getM in
  let* state := liftR (
    let? m := mission i st in
    let? l := checkpoints i st in
    let? wrappers := map_result (read_wrapper st) (omap k_reference l) in
    let? receipts := map_result (fun pw => member "receipt" pw.2) wrappers in
    let? roles := as_mapping (v_roles m) in
    let? config := dict_of (v_config m) in
    let? state := _state_document i (v_status m) config roles (map (fun c => JObj (k_intent c)) l) receipts active (v_blocker m) wrappers.*1 now in
    check_state "persisted" state ;?
    Ok state) in
  atomic (update_mission i (fun r =>
    {| m_id := m_id r; m_status := m_status r; config_json := config_json r; state_json := canonical_bytes (JObj state); roles_json := roles_json r;
       workspaces_json := workspaces_json r; budget_json := budget_json r; report_json := report_json r; m_blocker := m_blocker r |})) ;*
  ret state.

Definition set_budget (b : AutonomyBudget) (r : mission_row) : mission_row :=
  {| m_id := m_id r; m_status := m_status r; config_json := config_json r; state_json := state_json r; roles_json := roles_json r;
     workspaces_json := workspaces_json r; budget_json := canonical_bytes (JObj (_budget_payload b)); report_json := report_json r; m_blocker := m_blocker r |}.
Definition completed (reference outcome : string) (r : checkpoint_row) : checkpoint_row :=
  {| c_mission := c_mission r; c_step := c_step r; c_digest := c_digest r; c_state := COMPLETED; c_intent_json := c_intent_json r;
     c_outcome_json := Some outcome; c_reference_json := Some reference; c_count := c_count r |}.
(** The first half of the transaction of [complete_step]: one effect per digest. *)
Definition adopt_digest (c : StepCheckpoint) (encoded : string) : M MissionStore unit :=
  let* st := getM in
  match find_idempotency st (k_digest c) with
  | None =>
      guardM (bool_decide (is_Some (find_step st (k_mission c) (k_step c)))) IntegrityError "FOREIGN KEY constraint failed" ;*
      putM (with_idempotency st (idempotency st ++
        [{| i_digest := k_digest c; i_mission := k_mission c; i_step := k_step c; i_reference_json := encoded |}]))
  | Some row =>
      guardM (String.eqb (i_mission row) (k_mission c) && (i_step row =? k_step c) && String.eqb (i_reference_json row) encoded) StoreIntegrityError
        "idempotency digest maps to another effect"
  end.
(** The transaction, and the method. *)
Definition complete_commit (c : StepCheckpoint) (reference outcome : contract) (budget : option AutonomyBudget) : M MissionStore unit :=
  let encoded := canonical_bytes (JObj reference) in
  atomic (adopt_digest c encoded ;*
          let* st := getM in
          putM (with_checkpoints st (map (fun r => if String.eqb (c_mission r) (k_mission c) && (c_step r =? k_step c) && String.eqb (c_digest r) (k_digest c)
                                                   then completed encoded (canonical_bytes (JObj outcome)) r else r) (checkpoints_table st))) ;*
          (match budget with Some b => update_mission (k_mission c) (set_budget b) | None => ret tt end)).
Definition complete_step (c : StepCheckpoint) (reference outcome : contract) (budget : option AutonomyBudget) (now : string) : M MissionStore unit :=
  complete_commit c reference outcome budget ;* refresh_state (k_mission c) None now ;* ret tt.

(** What [reconcile_effect] checks before it adopts an outcome. *)
Definition reconcilable (c : StepCheckpoint) (st : MissionStore) : result unit :=
  let? r := find_effect_intent c st in
  match r with
  | None => raise ReconciliationError "effect has no write-ahead record to reconcile against"
  | Some r =>
      let? key := member "idempotency_key" (k_intent c) in
      require (py_eq (get "idempotency_key" r) key) StoreIntegrityError "write-ahead idempotency key does not bind this intent" ;?
      require (negb (k_count c =? 0)) StoreIntegrityError "effect was never claimed for execution"
  end.
Definition reconcile_effect (c : StepCheckpoint) (outcome : contract) (records : list contract) (budget : option AutonomyBudget) (t1 t2 : string)
    : M MissionStore contract :=
  let* st := getM in
  liftR (reconcilable c st) ;*
  let* reference := write_effect_receipt c outcome records t1 in
  complete_step c reference outcome budget t2 ;*
  ret reference.
Definition idempotency_count (i : string) (st : MissionStore) : Z :=
  Z.of_nat (length (List.filter (fun r => String.eqb (i_mission r) i) (idempotency st))).

(** ** The other facts of a mission *)

Definition set_status (status : string) (blocker : option string) (report : option contract) (r : mission_row) : mission_row :=
  {| m_id := m_id r; m_status := status; config_json := config_json r; state_json := state_json r; roles_json := roles_json r;
     workspaces_json := workspaces_json r; budget_json := budget_json r;
     report_json := match report with Some d => Some (canonical_bytes (JObj d)) | None => report_json r end; m_blocker := blocker |}.
Definition mark_status (i status : string) (blocker : option string) (report : option contract) (now : string) : M MissionStore unit :=
  atomic (update_mission i (set_status status blocker report)) ;* refresh_state i None now ;* ret tt.
Definition set_roles (roles : contract) (r : mission_row) : mission_row :=
  {| m_id := m_id r; m_status := m_status r; config_json := config_json r; state_json := state_json r; roles_json := canonical_bytes (JObj roles);
     workspaces_json := workspaces_json r; budget_json := budget_json r; report_json := report_json r; m_blocker := m_blocker r |}.
Definition mark_role (i : string) (role : Role) (status now : string) : M MissionStore unit :=
  let* st := getM in
  let* roles := liftR (let? m := mission i st in dict_of (v_roles m)) in
  atomic (update_mission i (set_roles (set_key (role_value role) (JStr status) roles))) ;*
  refresh_state i (Some role) now ;* ret tt.
Definition update_budget (i : string) (b : AutonomyBudget) : M MissionStore unit := atomic (update_mission i (set_budget b)).

Section workspaces.
(** The snapshot of a working copy, and whether it has its repository. *)
Context (workspace_snapshot : string -> result json) (has_repository : string -> bool).

Definition set_workspaces (workspaces : contract) (r : mission_row) : mission_row :=
  {| m_id := m_id r; m_status := m_status r; config_json := config_json r; state_json := state_json r; roles_json := roles_json r;
     workspaces_json := canonical_bytes (JObj workspaces); budget_json := budget_json r; report_json := report_json r; m_blocker := m_blocker r |}.
Definition update_workspace (i key container : string) : M MissionStore unit :=
  let* st := getM in
  let* workspaces := liftR (let? m := mission i st in
                            let? s := workspace_snapshot container in
                            let? w := dict_of (v_workspaces m) in
                            Ok (set_key key (JObj [("container", JStr container); ("snapshot", s)]) w)) in
  atomic (update_mission i (set_workspaces workspaces)).
(** One workspace: whether it is missing. *)
Definition reconcile_workspace (i now : string) (kv : string * json) : M MissionStore (option string) :=
  let* container := liftR (let? d := dict_of kv.2 in
                           let? c := member "container" d in
                           match c with JStr s => Ok s | _ => raise TypeError "argument should be a str or an os.PathLike object" end) in
  if negb (has_repository container) then ret (Some kv.1)
  else
    let* observed := liftR (workspace_snapshot container) in
    let* expected := liftR (let? d := dict_of kv.2 in member "snapshot" d) in
    if py_eq observed expected then ret None
    else mark_status i "blocked" (Some "workspace digest mismatch") None now ;*
         fail ReconciliationError ("workspace " +:+ kv.1 +:+ " digest mismatch")%stdpp.
Definition reconcile_workspaces (i now : string) : M MissionStore (list string) :=
  let* st := getM in
  let* workspaces := liftR (let? m := mission i st in as_mapping (v_workspaces m)) in
  let* found := loopM (reconcile_workspace i now) workspaces in
  ret (omap id found).
End workspaces.


(** ** How the store grows *)

Definition texts_ok (r : checkpoint_row) : Prop := is_ok (parse_optional (c_outcome_json r)) && is_ok (parse_optional (c_reference_json r)) = true.
(** A checkpoint keeps its intent, is claimed once and completed for good. *)
Record row_grows (r r' : checkpoint_row) : Prop := {
  rg_mission : c_mission r' = c_mission r; rg_step : c_step r' = c_step r; rg_digest : c_digest r' = c_digest r; rg_intent : c_intent_json r' = c_intent_json r;
  rg_count : c_count r <= c_count r'; rg_state : c_state r = COMPLETED -> c_state r' = COMPLETED; rg_texts : texts_ok r -> texts_ok r' }.
(** Checkpoints stay and files are never replaced. *)
Record store_grows (st st' : MissionStore) : Prop := {
  sg_rows : forall r, r ∈ checkpoints_table st -> exists r', r' ∈ checkpoints_table st' /\ row_grows r r';
  sg_files : files st ⊆ files st' }.
(** Both keys of the table determine the row. *)
Record store_ok (st : MissionStore) : Prop := {
  so_step : forall r, r ∈ checkpoints_table st -> find_step st (c_mission r) (c_step r) = Some r;
  so_digest : forall r, r ∈ checkpoints_table st -> find_digest st (c_mission r) (c_digest r) = Some r;
  so_count : forall r, r ∈ checkpoints_table st -> 0 <= c_count r }.

#[global] Instance row_grows_preorder : PreOrder row_grows.
Proof. split; [by intros r; split|]. intros a b c [] []. constructor; try congruence; try lia; auto. Qed.
#[global] Instance store_grows_preorder : PreOrder store_grows.
Proof.
  split; [intros st; split; [|done]; intros r Hr; by exists r|]. intros a b c [H1 F1] [H2 F2]. split; [|by etrans].
  intros r Hr. destruct (H1 r Hr) as (r1 & Hr1 & G1). destruct (H2 r1 Hr1) as (r2 & Hr2 & G2). exists r2. split; [done|]. by etrans.
Qed.

Lemma find_step_some st i n r : find_step st i n = Some r -> r ∈ checkpoints_table st /\ c_mission r = i /\ c_step r = n.
Proof. intros H. apply List.find_some in H as [Hin [H1%String.eqb_eq H2%Z.eqb_eq]%andb_true_iff]. by apply list_elem_of_In in Hin. Qed.
Lemma find_digest_some st i d r : find_digest st i d = Some r -> r ∈ checkpoints_table st /\ c_mission r = i /\ c_digest r = d.
Proof. intros H. apply List.find_some in H as [Hin [H1%String.eqb_eq H2%String.eqb_eq]%andb_true_iff]. by apply list_elem_of_In in Hin. Qed.

(** A row is found again in a store that has grown. *)
Lemma grown_row st st' i d r : store_ok st' -> store_grows st st' -> find_digest st i d = Some r ->
  exists r', find_digest st' i d = Some r' /\ find_step st' i (c_step r) = Some r' /\ row_grows r r'.
Proof.
  intros Hok [Hr _] H. apply find_digest_some in H as (Hin & <- & <-). destruct (Hr r Hin) as (r' & Hin' & G). exists r'.
  destruct G as [E1 E2 E3 E4 G5 G6 G7]. rewrite <- E1, <- E2, <- E3. split; [by apply so_digest|]. split; [by apply so_step|]. by constructor.
Qed.
Lemma step_is_digest st i n r : store_ok st -> find_step st i n = Some r -> find_digest st i (c_digest r) = Some r.
Proof. intros Hok H. apply find_step_some in H as (Hin & <- & _). by apply so_digest. Qed.

(** *** Changes of the table *)

Lemma find_map_same {A} (p : A -> bool) (f : A -> A) l : (forall x, p (f x) = p x) -> List.find p (map f l) = f <$> List.find p l.
Proof. intros Hf. induction l as [|x l IH]; [done|]. cbn. rewrite Hf. by destruct (p x). Qed.
Lemma find_app {A} (p : A -> bool) (l l' : list A) : List.find p (l ++ l') = match List.find p l with Some x => Some x | None => List.find p l' end.
Proof. induction l as [|x l IH]; [done|]. cbn. by destruct (p x). Qed.

Lemma update_rows st (f : checkpoint_row -> checkpoint_row) : store_ok st -> (forall r, r ∈ checkpoints_table st -> row_grows r (f r)) ->
  (forall r, c_mission (f r) = c_mission r /\ c_step (f r) = c_step r /\ c_digest (f r) = c_digest r) ->
  store_ok (with_checkpoints st (map f (checkpoints_table st))) /\ store_grows st (with_checkpoints st (map f (checkpoints_table st))).
Proof.
  intros [O1 O2 O3] Hg Hk. split; [constructor; cbn [checkpoints_table with_checkpoints]|split; [|done]].
  - intros r' H. apply list_elem_of_In, in_map_iff in H as (r & <- & Hr%list_elem_of_In). destruct (Hk r) as (E1 & E2 & _). rewrite E1, E2. unfold find_step. cbn [checkpoints_table with_checkpoints].
    rewrite find_map_same by (intros x; destruct (Hk x) as (-> & -> & _); done). specialize (O1 r Hr). unfold find_step in O1. by rewrite O1.
  - intros r' H. apply list_elem_of_In, in_map_iff in H as (r & <- & Hr%list_elem_of_In). destruct (Hk r) as (E1 & _ & E3). rewrite E1, E3. unfold find_digest. cbn [checkpoints_table with_checkpoints].
    rewrite find_map_same by (intros x; destruct (Hk x) as (-> & _ & ->); done). specialize (O2 r Hr). unfold find_digest in O2. by rewrite O2.
  - intros r' H. apply list_elem_of_In, in_map_iff in H as (r & <- & Hr%list_elem_of_In). destruct (Hg r Hr) as [_ _ _ _ G _ _]. specialize (O3 r Hr). lia.
  - intros r Hr. exists (f r). split; [|by apply Hg]. cbn. apply list_elem_of_In, in_map_iff. exists r. by apply list_elem_of_In in Hr.
Qed.
Lemma append_checkpoint st r : store_ok st -> find_step st (c_mission r) (c_step r) = None -> find_digest st (c_mission r) (c_digest r) = None -> 0 <= c_count r ->
  store_ok (with_checkpoints st (checkpoints_table st ++ [r])) /\ store_grows st (with_checkpoints st (checkpoints_table st ++ [r])).
Proof.
  intros [O1 O2 O3] H1 H2 Hc. unfold find_step, find_digest in *. split; [constructor; cbn [checkpoints_table with_checkpoints]; intros x [Hx| ->%list_elem_of_singleton]%elem_of_app|split; [|done]].
  - unfold find_step. cbn [checkpoints_table with_checkpoints]. by rewrite find_app, O1.
  - unfold find_step. cbn [checkpoints_table with_checkpoints]. rewrite find_app, H1. cbn. by rewrite String.eqb_refl, Z.eqb_refl.
  - unfold find_digest. cbn [checkpoints_table with_checkpoints]. by rewrite find_app, O2.
  - unfold find_digest. cbn [checkpoints_table with_checkpoints]. rewrite find_app, H2. cbn. by rewrite !String.eqb_refl.
  - by apply O3.
  - done.
  - intros x Hx. exists x. split; [apply elem_of_app; by left|done].
Qed.
Lemma add_file st path content : store_ok st -> files st !! path = None -> store_ok (with_file st path content) /\ store_grows st (with_file st path content).
Proof.
  intros [O1 O2 O3] H. split; [by constructor|]. split; [intros r Hr; by exists r|]. cbn. by apply insert_subseteq.
Qed.
Lemma same_table st st' : store_ok st -> checkpoints_table st' = checkpoints_table st -> files st' = files st -> store_ok st' /\ store_grows st st'.
Proof.
  intros [O1 O2 O3] Et Ef. unfold find_step, find_digest in *. split; [constructor; unfold find_step, find_digest; by rewrite Et|].
  split; [|by rewrite Ef]. rewrite Et. intros r Hr. by exists r.
Qed.

(** *** What every method does to the store *)

Definition advances {A} (m : M MissionStore A) (st : MissionStore) : Prop := store_ok st -> store_ok (snd (m st)) /\ store_grows st (snd (m st)).

Section advances.
Context {A B : Type}.
Lemma adv_same (m : M MissionStore A) st : snd (m st) = st -> advances m st.
Proof. intros E Hok. by rewrite E. Qed.
Lemma adv_bind (m : M MissionStore A) (f : A -> M MissionStore B) st :
  advances m st -> (forall a st', m st = (Ok a, st') -> store_ok st' -> advances (f a) st') -> advances (bindM m f) st.
Proof.
  intros Hm Hf Hok. destruct (Hm Hok) as [H1 H2]. unfold bindM. destruct (m st) as [[a|e] st'] eqn:E; [|done]. cbn [snd] in *.
  destruct (Hf a st' eq_refl H1 H1) as [H3 H4]. split; [done|]. by etrans.
Qed.
Lemma adv_lift (r : result A) (f : A -> M MissionStore B) st : (forall a, r = Ok a -> advances (f a) st) -> advances (bindM (liftR r) f) st.
Proof. intros H. apply adv_bind; [by apply adv_same|]. intros a st' [= -> <-] _. by apply H. Qed.
Lemma adv_get (f : MissionStore -> M MissionStore B) st : advances (f st) st -> advances (bindM getM f) st.
Proof. done. Qed.
Lemma adv_atomic (m : M MissionStore A) st : advances m st -> advances (atomic m) st.
Proof. intros H Hok. destruct (H Hok) as [H1 H2]. unfold atomic. by destruct (m st) as [[a|e] st']. Qed.
Lemma adv_put st st' : (store_ok st -> store_ok st' /\ store_grows st st') -> advances (putM st') st.
Proof. done. Qed.
Lemma adv_then_ret (m : M MissionStore A) (b : A -> M MissionStore B) st : (forall a st', snd (b a st') = st') -> advances m st -> advances (bindM m b) st.
Proof. intros Hb Hm. apply adv_bind; [done|]. intros a st' _ _ Hok. by rewrite Hb. Qed.
End advances.
Lemma adv_guard {B} b c m (f : unit -> M MissionStore B) st : (b = true -> advances (f tt) st) -> advances (bindM (guardM b c m) f) st.
Proof. intros H. unfold guardM. apply adv_lift. intros [] E%require_ok. by apply H. Qed.
Ltac adv :=
  repeat first [apply adv_get | apply adv_guard; intros ? | apply adv_lift; intros ? ? | apply adv_atomic | apply adv_same; reflexivity].

Lemma adv_update_mission i f st : advances (update_mission i f) st.
Proof. apply adv_get, adv_put. intros Hok. by apply same_table. Qed.
Lemma adv_register i config b now st : advances (register_mission i config b now) st.
Proof. unfold register_mission. adv. apply adv_put. intros Hok. by apply same_table. Qed.
Lemma adv_refresh i active now st : advances (refresh_state i active now) st.
Proof.
  unfold refresh_state. adv. apply adv_then_ret; [done|]. apply adv_atomic, adv_update_mission.
Qed.

Lemma insert_checkpoint_spec r st : store_ok st -> 0 <= c_count r ->
  store_ok (snd (insert_checkpoint r st)) /\ store_grows st (snd (insert_checkpoint r st))
  /\ forall u, fst (insert_checkpoint r st) = Ok u -> r ∈ checkpoints_table (snd (insert_checkpoint r st)).
Proof.
  intros Hok Hc. unfold insert_checkpoint. rewrite run_get, run_guard. destruct (bool_decide (is_Some (find_step st _ _))) eqn:E1; [done|]. cbn [negb].
  rewrite run_guard. destruct (bool_decide (is_Some (find_digest st _ _))) eqn:E2; [done|]. cbn [negb]. rewrite run_guard.
  destruct (bool_decide (is_Some (find_mission st _))); [|done]. apply bool_decide_eq_false, eq_None_not_Some in E1, E2.
  destruct (append_checkpoint st r Hok E1 E2 Hc) as [H1 H2]. split_and!; try done. intros _ _. cbn. apply elem_of_app. right. by left.
Qed.

(** What a checkpoint that was asked for with an intent is. *)
Definition bound_to (st : MissionStore) (i : string) (intent : contract) (c : StepCheckpoint) : Prop :=
  exists d r, check_intent intent = Ok d /\ find_digest st i d = Some r /\ find_step st i (c_step r) = Some r /\ bind_integer (c_step r) = Ok tt
    /\ read_checkpoint r = Ok c /\ py_eq (JObj (k_intent c)) (JObj intent) = true.

Lemma read_checkpoint_fields r c : read_checkpoint r = Ok c ->
  k_mission c = c_mission r /\ k_step c = c_step r /\ k_digest c = c_digest r /\ k_state c = c_state r /\ k_count c = c_count r /\ texts_ok r
  /\ json_wf (JObj (k_intent c)) = true.
Proof.
  unfold read_checkpoint, texts_ok. intros H. take_ok H j E1. take_ok H d E2. take_guard H E3. take_ok H o E4. take_ok H x E5. rewrite E4, E5. injection H as <-. split_and!; try done.
  cbn [k_intent]. unfold parse_json in E1. destruct (loads _) as [j'|] eqn:El; [|done]. injection E1 as ->. apply loads_wf in El. unfold as_mapping in E2.
  destruct j; try done. by injection E2 as ->.
Qed.

Lemma checkpoint_for_intent_spec i intent n st : store_ok st ->
  let res := checkpoint_for_intent i intent n st in
  store_ok (snd res) /\ store_grows st (snd res) /\ forall c, fst res = Ok c -> bound_to (snd res) i intent c.
Proof.
  intros Hok. unfold checkpoint_for_intent. rewrite run_guard. destruct (negb (n <? 0)); [|done]. rewrite run_lift. destruct (check_intent intent) as [d|e] eqn:Ec; [|done].
  set (m := atomic _). assert (S : store_ok (snd (m st)) /\ store_grows st (snd (m st)) /\ forall k, fst (m st) = Ok k ->
    exists r, r ∈ checkpoints_table (snd (m st)) /\ c_mission r = i /\ c_step r = k /\ c_digest r = d).
  { subst m. unfold atomic. rewrite run_get. destruct (find_digest st i d) as [r|] eqn:Ed.
    - split_and!; try done. intros k [= <-]. apply find_digest_some in Ed as (Hin & <- & <-). by exists r.
    - set (k := Z.max n _). rewrite run_lift. destruct (bind_integer k) as [[]|e]; [|done]. set (row := new_checkpoint i k d intent). rewrite run_bind.
      destruct (insert_checkpoint_spec row st Hok) as (S1 & S2 & S3); [done|]. destruct (insert_checkpoint row st) as [[[]|e] st1]; [|done]. cbn [fst snd] in *.
      split_and!; try done. intros k' [= <-]. exists row. split; [by apply (S3 tt)|done]. }
  rewrite run_bind. destruct (m st) as [[k|e] st1]; destruct S as (S1 & S2 & S3); [|done]. cbn [fst snd] in *. destruct (S3 k eq_refl) as (r & Hin & <- & <- & <-).
  rewrite run_get, run_lift. unfold checkpoint. destruct (bind_integer (c_step r)) as [[]|e] eqn:Eb; [|done]. cbn [rbind]. assert (Es := so_step st1 S1 r Hin). rewrite Es.
  destruct (read_checkpoint r) as [c|e] eqn:Er; [|done]. rewrite run_guard. destruct (py_eq _ _) eqn:Ep; [|done]. cbn [fst snd ret]. split_and!; try done.
  intros c' [= <-]. exists (c_digest r), r. split_and!; try done. by apply so_digest.
Qed.

(** *** The write-ahead record and the claim *)

Lemma adv_write_ahead c now st : advances (_write_ahead_effect c now) st.
Proof.
  unfold _write_ahead_effect. adv. destruct (files st !! _) eqn:E; [by apply adv_same|]. apply adv_then_ret; [done|]. apply adv_put. intros Hok. by apply add_file.
Qed.
Lemma adv_begin_record i n now st : advances (begin_record i n now) st.
Proof. unfold begin_record. apply adv_get, adv_lift. intros c _. apply adv_guard. intros _. apply adv_write_ahead. Qed.
(** It writes one file only. *)
Lemma begin_record_spec i n now st c : checkpoint i n st = Ok c -> k_mission c = i ->
  let st' := snd (begin_record i n now st) in
  checkpoints_table st' = checkpoints_table st /\ forall p, p <> effect_intent_path i (k_digest c) -> files st' !! p = files st !! p.
Proof.
  intros Hc Hm. unfold begin_record. rewrite run_get, Hc, run_lift. cbn [wrap]. rewrite run_guard. destruct (bool_decide _); [|done]. unfold _write_ahead_effect. rewrite run_lift.
  destruct (effect_record c now) as [r|]; [|done]. rewrite run_get, Hm. destruct (files st !! _) as [content|]; [done|]. rewrite run_put. cbn. split; [done|].
  intros p Hp. by rewrite lookup_insert_ne.
Qed.

Lemma begin_claim_spec i n r st row : store_ok st -> find_step st i n = Some row ->
  let res := begin_claim i n r st in
  store_ok (snd res) /\ store_grows st (snd res) /\ files (snd res) = files st
  /\ forall x, fst res = Ok x -> exists row', find_step (snd res) i n = Some row' /\ 0 < c_count row' /\ row_grows row row'.
Proof.
  intros Hok Hrow. unfold begin_claim, atomic. rewrite run_get, Hrow, run_guard. destruct (bool_decide _); [|done]. destruct (0 <? c_count row) eqn:E0.
  - apply Z.ltb_lt in E0. cbn. split_and!; try done. intros _ _. by exists row.
  - rewrite run_guard. destruct (c_count row =? 0) eqn:E1; [|done]. rewrite run_put. cbn [fst snd ret]. unfold update_step.
    set (f := fun r0 : checkpoint_row => if _ && _ then counted r0 else r0).
    assert (Hg : forall x, row_grows x (f x)) by (intros x; subst f; cbv beta; destruct (_ && _); [|done]; constructor; cbn; try done; lia).
    destruct (update_rows st f Hok) as [H1 H2]; [by intros x _|intros x; destruct (Hg x); done|]. split_and!; try done. intros _ _. exists (f row). split; [|split; [|apply Hg]].
    + unfold find_step. cbn [checkpoints_table with_checkpoints]. rewrite find_map_same by (intros x; destruct (Hg x) as [-> -> _ _ _ _ _]; done).
      unfold find_step in Hrow. by rewrite Hrow.
    + apply find_step_some in Hrow as (_ & <- & <-). subst f. cbv beta. rewrite String.eqb_refl, Z.eqb_refl. cbn. apply Z.eqb_eq in E1. lia.
Qed.

(** *** Receipts *)

Lemma effect_paths_differ i d : receipt_path i d <> effect_intent_path i d.
Proof. unfold receipt_path, effect_intent_path. intros E. apply append_inj_l in E. cbn in E. discriminate E. Qed.

Lemma synthetic_receipt_wf c now r : json_wf (JObj (k_intent c)) = true -> synthetic_receipt c now = Ok r -> json_wf (JObj r) = true.
Proof.
  intros Hw H. unfold synthetic_receipt in H. assert (W : forall k v, member k (k_intent c) = Ok v -> json_wf v = true).
  { intros k v Hv. unfold member in Hv. destruct (lookup_key k (k_intent c)) as [v'|] eqn:E; [|done]. injection Hv as ->. apply lookup_key_in in E.
    cbn in Hw. apply andb_true_iff in Hw as [_ Hw]. rewrite forallb_forall in Hw. apply (Hw (k, v)). by apply list_elem_of_In. }
  take_ok H a1 E1. take_ok H a2 E2. take_ok H a3 E3. take_ok H a4 E4. take_ok H a5 E5. take_ok H a6 E6. injection H as <-.
  apply W in E1, E2, E3, E4, E5, E6. cbn [json_wf map forallb fst snd distinct]. rewrite E1, E2, E3, E4, E5, E6. reflexivity.
Qed.

(** The receipt of an intent is the file at its path, and its value. *)
Definition receipt_value (st : MissionStore) (i d : string) (v : json) : Prop :=
  exists content w o, files st !! receipt_path i d = Some content /\ parse_json content = Ok (JObj w) /\ py_eq (get "intent_digest" w) (JStr d) = true
    /\ member "outcome" w = Ok (JObj o) /\ member "value" o = Ok v.
Lemma receipt_value_grows st st' i d v : store_grows st st' -> receipt_value st i d v -> receipt_value st' i d v.
Proof. intros [_ G] (content & w & o & H & Hw). exists content, w, o. split; [|done]. by eapply lookup_weaken. Qed.
Lemma receipt_found st c v : receipt_value st (k_mission c) (k_digest c) v -> exists reference w o,
  find_effect_receipt c st = Ok (Some (reference, w)) /\ member "outcome" w = Ok (JObj o) /\ member "value" o = Ok v.
Proof.
  intros (content & w & o & H & Hp & Hd & Ho & Hv). unfold find_effect_receipt. rewrite H, Hp. cbn [rbind as_mapping]. rewrite Hd. cbn [require rbind]. by eexists _, w, o.
Qed.

Lemma write_effect_receipt_spec c outcome records now st : store_ok st -> json_wf (JObj (k_intent c)) = true ->
  json_wf (JObj outcome) = true -> forallb json_wf (map JObj records) = true -> files st !! receipt_path (k_mission c) (k_digest c) = None ->
  let res := write_effect_receipt c outcome records now st in
  store_ok (snd res) /\ store_grows st (snd res)
  /\ forall reference, fst res = Ok reference -> json_wf (JObj reference) = true
       /\ forall v, lookup_key "value" outcome = Some v -> receipt_value (snd res) (k_mission c) (k_digest c) (norm v).
Proof.
  intros Hok Hi Ho Hr Hf. unfold write_effect_receipt. rewrite run_lift. destruct (synthetic_receipt c now) as [r|e] eqn:Er; [|done]. rewrite run_lift.
  destruct (validate_document _ _) as [v|e]; [|done]. rewrite run_guard. destruct (valid v); [|done]. rewrite run_get, Hf, run_put. cbn [fst snd ret].
  set (w := wrapper_of c outcome records r). destruct (add_file st (receipt_path (k_mission c) (k_digest c)) (canonical_bytes (JObj w) +:+ newline)%stdpp Hok Hf) as [H1 H2].
  split_and!; try done. intros reference [= <-]. split; [reflexivity|]. intros x Hx.
  assert (Hw : json_wf (JObj w) = true) by (apply (synthetic_receipt_wf _ _ _ Hi) in Er; cbn [json_wf map forallb fst snd distinct w wrapper_of]; rewrite Hr; cbn [json_wf] in Ho, Er; rewrite Ho, Er; reflexivity).
  destruct (norm_obj_members w) as (nw & En & Pw). destruct (norm_obj_members outcome) as (no & Eo & Po).
  assert (K : forall k l nl, NoDup l.*1 -> nl ≡ₚ map (fun kv => (kv.1, norm kv.2)) l -> lookup_key k nl = norm <$> lookup_key k l).
  { intros k l nl Hn Hp. rewrite (lookup_key_perm k nl (map (fun kv => (kv.1, norm kv.2)) l)), lookup_key_map; [done| |done]. rewrite Hp. by rewrite <- list_fmap_compose. }
  assert (Nw : NoDup w.*1) by (apply (bool_decide_unpack (NoDup w.*1)); vm_compute; exact I).
  assert (No : NoDup outcome.*1) by (cbn in Ho; apply andb_true_iff in Ho as [Ho _]; by apply bool_decide_eq_true in Ho).
  exists (canonical_bytes (JObj w) +:+ newline)%stdpp, nw, no. split; [cbn; by rewrite lookup_insert_eq|]. split; [unfold parse_json; rewrite loads_line by done; by rewrite En|].
  unfold member, get. rewrite (K "intent_digest" w nw Nw Pw), (K "outcome" w nw Nw Pw), (K "value" outcome no No Po), Hx. cbn. rewrite String.eqb_refl.
  split_and!; try done. change (JObj (sorted_by fst (map (fun kv => (kv.1, norm kv.2)) outcome))) with (norm (JObj outcome)). by rewrite Eo.
Qed.

(** *** Completion *)

Lemma is_ok_canonical d : json_wf (JObj d) = true -> is_ok (parse_optional (Some (canonical_bytes (JObj d)))) = true.
Proof. intros H. unfold parse_optional. destruct (String.eqb _ ""); [done|]. unfold parse_json. by rewrite loads_dumps_norm. Qed.

Lemma adopt_digest_spec c encoded st : checkpoints_table (snd (adopt_digest c encoded st)) = checkpoints_table st /\ files (snd (adopt_digest c encoded st)) = files st.
Proof.
  unfold adopt_digest. rewrite run_get. destruct (find_idempotency st (k_digest c)) as [row|]; [done|]. rewrite run_guard. by destruct (bool_decide _).
Qed.
Lemma set_optional_budget i (budget : option AutonomyBudget) st :
  exists st', (match budget with Some b => update_mission i (set_budget b) | None => ret tt end) st = (Ok tt, st') /\ checkpoints_table st' = checkpoints_table st /\ files st' = files st.
Proof. destruct budget; by eexists. Qed.

Lemma complete_commit_spec c reference outcome budget st : store_ok st -> json_wf (JObj reference) = true -> json_wf (JObj outcome) = true ->
  let res := complete_commit c reference outcome budget st in
  store_ok (snd res) /\ store_grows st (snd res)
  /\ forall u row, fst res = Ok u -> find_digest st (k_mission c) (k_digest c) = Some row -> c_step row = k_step c ->
       exists row', find_digest (snd res) (k_mission c) (k_digest c) = Some row' /\ c_state row' = COMPLETED.
Proof.
  intros Hok Hr Ho. unfold complete_commit, atomic. rewrite run_bind. destruct (adopt_digest_spec c (canonical_bytes (JObj reference)) st) as [Et Ef].
  destruct (adopt_digest _ _ st) as [[[]|e] st1]; [|done]. cbn [snd] in Et, Ef. rewrite run_get, run_put.
  set (f := fun r => if _ && _ && _ then completed _ _ r else r).
  assert (Hg : forall x, row_grows x (f x)).
  { intros x. subst f. cbv beta. destruct (_ && _ && _); [|done]. constructor; try done. intros _. unfold texts_ok. cbn [c_outcome_json c_reference_json completed].
    by rewrite !is_ok_canonical. }
  destruct (same_table st st1 Hok Et Ef) as [Hok1 Hg1].
  destruct (update_rows st1 f Hok1) as [Hok2 Hg2]; [by intros x _|intros x; destruct (Hg x); done|]. set (st2 := with_checkpoints st1 _) in *.
  destruct (set_optional_budget (k_mission c) budget st2) as (st3 & -> & Et3 & Ef3). cbn [fst snd].
  destruct (same_table st2 st3 Hok2 Et3 Ef3) as [Hok3 Hg3]. split; [done|]. split; [by etrans; [|etrans]|]. intros _ row _ Hrow Hstep. exists (f row).
  assert (Hm := find_digest_some _ _ _ _ Hrow). destruct Hm as (_ & Em & Ed). split.
  - unfold find_digest. rewrite Et3. subst st2. cbn [checkpoints_table with_checkpoints]. rewrite Et, find_map_same by (intros x; destruct (Hg x) as [-> _ -> _ _ _ _]; done).
    unfold find_digest in Hrow. by rewrite Hrow.
  - subst f. cbv beta. rewrite Em, Hstep, Ed, !String.eqb_refl, Z.eqb_refl. done.
Qed.

(** *** A settled effect *)

(** The checkpoint of the intent is completed and its receipt holds this value. *)
Definition settled (st : MissionStore) (i : string) (intent v : contract) : Prop :=
  exists c v', bound_to st i intent c /\ k_state c = COMPLETED /\ receipt_value st (k_mission c) (k_digest c) (JObj v') /\ norm (JObj v') = norm (JObj v).

Lemma read_grown r r' c : row_grows r r' -> read_checkpoint r = Ok c -> exists c', read_checkpoint r' = Ok c' /\ k_mission c' = k_mission c /\ k_step c' = k_step c
  /\ k_digest c' = k_digest c /\ k_intent c' = k_intent c /\ k_state c' = c_state r'.
Proof.
  intros [E1 E2 E3 E4 _ _ Ht] H. assert (T := read_checkpoint_fields _ _ H). destruct T as (_ & _ & _ & _ & _ & T & _). apply Ht in T. unfold texts_ok in T. apply andb_true_iff in T as [T1 T2].
  unfold read_checkpoint in *. rewrite E1, E2, E3, E4. take_ok H j P1. take_ok H d P2. take_guard H P3. take_ok H o P4. take_ok H x P5. rewrite P1. cbn [rbind]. rewrite P2. cbn [rbind].
  rewrite P3. cbn [require rbind]. destruct (parse_optional (c_outcome_json r')) as [o'|]; [|done]. destruct (parse_optional (c_reference_json r')) as [x'|]; [|done]. cbn [rbind].
  injection H as <-. by eexists.
Qed.
(** What a call was bound to stays, with the state of the row. *)
Lemma bound_grows st st' i intent c : store_ok st' -> store_grows st st' -> bound_to st i intent c ->
  exists c' row, bound_to st' i intent c' /\ find_digest st' i (k_digest c) = Some row /\ k_state c' = c_state row /\ k_mission c' = k_mission c /\ k_digest c' = k_digest c
    /\ (k_state c = COMPLETED -> k_state c' = COMPLETED).
Proof.
  intros Hok Hg (d & r & H1 & H2 & H3 & H4 & H5 & H6). destruct (grown_row st st' i d r Hok Hg H2) as (r' & F1 & F2 & G). destruct (read_grown r r' c G H5) as (c' & R1 & R2 & R3 & R4 & R5 & R6).
  destruct (read_checkpoint_fields _ _ H5) as (_ & _ & Ed & Es & _). assert (D := find_digest_some _ _ _ _ H2). destruct D as (_ & _ & Dd).
  exists c', r'. split; [exists d, r'; rewrite R5; destruct G as [G1 G2 G3 _ _ _ _]; rewrite G2; by split_and!|]. split; [by rewrite Ed, Dd|]. split_and!; try done.
  intros Hc. rewrite R6. destruct G as [_ _ _ _ _ G6 _]. apply G6. by rewrite <- Es.
Qed.
Lemma settled_grows st st' i intent v : store_ok st' -> store_grows st st' -> settled st i intent v -> settled st' i intent v.
Proof.
  intros Hok Hg (c & v' & Hb & Hs & Hr & Hv). destruct (bound_grows st st' i intent c Hok Hg Hb) as (c' & row & Hb' & _ & _ & Em & Ed & Hs'). exists c', v'.
  split; [done|]. split; [by apply Hs'|]. rewrite Em, Ed. split; [by eapply receipt_value_grows|done].
Qed.

End MissionStore.
