(* ===== verification/Delivery.v ===== *)
(** * Effects that are adopted once

    [_idempotent_effect] of [github_adapter.py], which performs an external effect
    at most once over the checkpoints of a mission, and what happens to it when the
    process dies.  A call is a program of atomic steps on the store and the outside
    world; the world remembers for which intents the operation was performed.  The
    operation, the observation of an interrupted effect and the clock are arguments
    of each call.  The other methods of the store that write are programs too, each
    equal to its method when it runs alone, so that histories are of all of them. *)

From S2P Require Import Prelude Programs Sha256 Canonical JsonLines PyLib Schema Policy Contracts MissionSchemas MissionStore.

Module Delivery.
Export MissionStore Programs.

Record world := { store : MissionStore; performed : list (string * string) }.
Definition on_store {A} (m : M MissionStore A) : M world A :=
  fun w => let '(r, st) := m (store w) in (r, {| store := st; performed := performed w |}).
Definition reading {A} (f : MissionStore -> result A) : prog world A := doP (fun w => (f (store w), w)).
Definition storing {A} (m : M MissionStore A) : prog world A := doP (on_store m).

(** What one call meets: the result of the operation if it is performed, what an
    observation of the effect shows, and the readings of the clock. *)
Definition delivered : Type := contract * list contract.
Record surroundings := {
  operation : result delivered; observe : option (result (option delivered)); t_record : string; t_receipt : string; t_state : string }.

(** [GitHubClient._intent] for a client with this mission *)
Definition _intent (mission_id : option string) (kind description : string) (details : contract) : contract :=
  let suffix := drop_bytes 7 (bytes_digest (canonical_bytes (JObj details))) in
  let short := take_bytes 24 suffix in
  let mission := match mission_id with Some m => if String.eqb m "" then "github-delivery" else m | None => "github-delivery" end in
  let intent := [("schema_version", JInt 1); ("action_id", JStr ("ACT-P07-" +:+ short)%stdpp); ("mission_id", JStr mission);
                 ("state_ref", JStr ("MISSION_STATE:" +:+ mission +:+ ":1")%stdpp); ("actor_id", JStr "agent-builder"); ("kind", JStr kind);
                 ("description", JStr description); ("action_digest", JStr ("sha256:" +:+ String.concat "" (replicate 64 "0"))%stdpp);
                 ("policy_decision_ref", JStr ("POLICY-P07-" +:+ short)%stdpp); ("lease_id", JStr ("LEASE-P07-" +:+ short)%stdpp);
                 ("idempotency_key", JStr ("IDEMPOTENCY-P07-" +:+ suffix)%stdpp); ("rollback_ref", JNull); ("status", JStr "proposed")] in
  set_key "action_digest" (JStr (tool_intent_digest intent)) intent.

Definition _checkpoint (mission_id : option string) (intent : contract) : prog world StepCheckpoint :=
  match mission_id with
  | None => liftP (raise GitHubDeliveryError "external side effects require a P06 MissionStore and mission_id")
  | Some m => storing (checkpoint_for_intent m intent 1000000)
  end.

(** The two commits of [complete_step]. *)
Definition complete_stepP (c : StepCheckpoint) (reference outcome : contract) (budget : option AutonomyBudget) (now : string) : prog world unit :=
  storing (complete_commit c reference outcome budget) ;%
  storing (refresh_state (k_mission c) None now) ;%
  liftP (Ok tt).
Definition outcome_of (d : delivered) : contract := [("value", JObj d.1); ("records", JList (map JObj d.2))].

Definition _reconcile_interrupted_effect (c : StepCheckpoint) (e : surroundings) : prog world contract :=
  let at_step := (k_mission c +:+ " step " +:+ str_of_Z (k_step c))%stdpp in
  let% found := reading (find_effect_intent c) in
  match found with
  | None => liftP (raise GitHubEffectReconciliationRequired ("GitHub effect was claimed with no write-ahead record at " +:+ at_step)%stdpp)
  | Some r =>
      let% observed := liftP (match observe e with None => Ok None | Some o => o end) in
      match observed with
      | None =>
          let% key := liftP (member "idempotency_key" r) in
          liftP (raise GitHubEffectReconciliationRequired
            ("interrupted GitHub effect " +:+ text key +:+ " has no witnessed outcome; reconcile " +:+ at_step +:+ " before it can proceed")%stdpp)
      | Some d =>
          reading (reconcilable c) ;%
          let% reference := storing (write_effect_receipt c (outcome_of d) d.2 (t_receipt e)) in
          complete_stepP c reference (outcome_of d) None (t_state e) ;%
          liftP (Ok d.1)
      end
  end.

(** [operation()]: the effect happens, whatever it answers. *)
Definition perform (c : StepCheckpoint) (r : result delivered) : prog world delivered :=
  doP (fun w => (r, {| store := store w; performed := performed w ++ [(k_mission c, k_digest c)] |})).

Definition _idempotent_effect (mission_id : option string) (intent : contract) (e : surroundings) : prog world contract :=
  let% c := _checkpoint mission_id intent in
  let% found := reading (find_effect_receipt c) in
  match found with
  | Some (reference, wrapper) =>
      let% outcome := liftP (let? o := member "outcome" wrapper in dict_of o) in
      (if bool_decide (k_state c = COMPLETED) then liftP (Ok tt) else complete_stepP c reference outcome None (t_state e)) ;%
      liftP (let? v := member "value" outcome in dict_of v)
  | None =>
      if 0 <? k_count c then _reconcile_interrupted_effect c e
      else
        let% record := storing (begin_record (k_mission c) (k_step c) (t_record e)) in
        storing (begin_claim (k_mission c) (k_step c) record) ;%
        let% d := perform c (operation e) in
        let% reference := storing (write_effect_receipt c (outcome_of d) d.2 (t_receipt e)) in
        complete_stepP c reference (outcome_of d) None (t_state e) ;%
        liftP (Ok d.1)
  end.

(** ** Histories *)

(** The methods of the store that write, in the steps in which they commit:
    [MissionStore(...)] on an existing directory, and every other public method
    that changes a table or a file.  [snapshot] and [present] are the working
    copies a call finds. *)
Inductive mission_call :=
| C_open
| C_register (i : string) (config : contract) (b : AutonomyBudget) (now : string)
| C_intent (i : string) (n : Z) (intent : contract)
| C_checkpoint (i : string) (intent : contract) (minimum : Z)
| C_begin (i : string) (n : Z) (now : string)
| C_receipt (c : StepCheckpoint) (outcome : contract) (records : list contract) (now : string)
| C_complete (c : StepCheckpoint) (reference outcome : contract) (b : option AutonomyBudget) (now : string)
| C_reconcile (c : StepCheckpoint) (outcome : contract) (records : list contract) (b : option AutonomyBudget) (t1 t2 : string)
| C_workspace (snapshot : string -> result json) (i key container : string)
| C_workspaces (snapshot : string -> result json) (present : string -> bool) (i now : string)
| C_status (i status : string) (blocker : option string) (report : option contract) (now : string)
| C_role (i : string) (role : Role) (status now : string)
| C_budget (i : string) (b : AutonomyBudget)
| C_refresh (i : string) (active : option Role) (now : string).

Definition ignoring {A} (p : prog world A) : prog world unit := p ;% liftP (Ok tt).

Definition mark_statusP (i status : string) (blocker : option string) (report : option contract) (now : string) : prog world unit :=
  storing (atomic (update_mission i (set_status status blocker report))) ;% storing (refresh_state i None now) ;% liftP (Ok tt).
(** The loop of [reconcile_workspaces] over the workspaces it has read. *)
Fixpoint workspacesP (snapshot : string -> result json) (present : string -> bool) (i now : string) (l : list (string * json)) : prog world unit :=
  match l with
  | [] => liftP (Ok tt)
  | kv :: l =>
      let% container := liftP (let? d := dict_of kv.2 in
                               let? c := member "container" d in
                               match c with JStr s => Ok s | _ => raise TypeError "argument should be a str or an os.PathLike object" end) in
      (if negb (present container) then liftP (Ok tt)
       else
         let% observed := liftP (snapshot container) in
         let% expected := liftP (let? d := dict_of kv.2 in member "snapshot" d) in
         if py_eq observed expected then liftP (Ok tt)
         else mark_statusP i "blocked" (Some "workspace digest mismatch") None now ;%
              liftP (raise ReconciliationError ("workspace " +:+ kv.1 +:+ " digest mismatch")%stdpp)) ;%
      workspacesP snapshot present i now l
  end.

Definition mission_callP (c : mission_call) : prog world unit :=
  match c with
  | C_open => storing open_store
  | C_register i config b now => storing (register_mission i config b now)
  | C_intent i n intent => ignoring (storing (record_intent i n intent))
  | C_checkpoint i intent minimum => ignoring (storing (checkpoint_for_intent i intent minimum))
  | C_begin i n now => let% record := storing (begin_record i n now) in ignoring (storing (begin_claim i n record))
  | C_receipt c outcome records now => ignoring (storing (write_effect_receipt c outcome records now))
  | C_complete c reference outcome b now => complete_stepP c reference outcome b now
  | C_reconcile c outcome records b t1 t2 =>
      reading (reconcilable c) ;%
      let% reference := storing (write_effect_receipt c outcome records t1) in
      complete_stepP c reference outcome b t2
  | C_workspace snapshot i key container =>
      let% workspaces := reading (fun st => let? m := mission i st in
                                            let? s := snapshot container in
                                            let? w := dict_of (v_workspaces m) in
                                            Ok (set_key key (JObj [("container", JStr container); ("snapshot", s)]) w)) in
      storing (atomic (update_mission i (set_workspaces workspaces)))
  | C_workspaces snapshot present i now =>
      let% workspaces := reading (fun st => let? m := mission i st in as_mapping (v_workspaces m)) in
      workspacesP snapshot present i now workspaces
  | C_status i status blocker report now => mark_statusP i status blocker report now
  | C_role i role status now =>
      let% roles := reading (fun st => let? m := mission i st in dict_of (v_roles m)) in
      storing (atomic (update_mission i (set_roles (set_key (role_value role) (JStr status) roles)))) ;%
      storing (refresh_state i (Some role) now) ;% liftP (Ok tt)
  | C_budget i b => storing (update_budget i b)
  | C_refresh i active now => ignoring (storing (refresh_state i active now))
  end.

(** The same calls as the methods of [MissionStore]. *)
Definition method (c : mission_call) : M MissionStore unit :=
  match c with
  | C_open => open_store
  | C_register i config b now => register_mission i config b now
  | C_intent i n intent => record_intent i n intent ;* ret tt
  | C_checkpoint i intent minimum => checkpoint_for_intent i intent minimum ;* ret tt
  | C_begin i n now => begin_effect i n now ;* ret tt
  | C_receipt c outcome records now => write_effect_receipt c outcome records now ;* ret tt
  | C_complete c reference outcome b now => complete_step c reference outcome b now
  | C_reconcile c outcome records b t1 t2 => reconcile_effect c outcome records b t1 t2 ;* ret tt
  | C_workspace snapshot i key container => update_workspace snapshot i key container
  | C_workspaces snapshot present i now => reconcile_workspaces snapshot present i now ;* ret tt
  | C_status i status blocker report now => mark_status i status blocker report now
  | C_role i role status now => mark_role i role status now
  | C_budget i b => update_budget i b
  | C_refresh i active now => refresh_state i active now ;* ret tt
  end.

(** What a call stores in a checkpoint is a dictionary: its keys are distinct. *)
Definition call_wf (c : mission_call) : Prop :=
  match c with
  | C_complete _ reference outcome _ _ => json_wf (JObj reference) = true /\ json_wf (JObj outcome) = true
  | C_reconcile _ outcome _ _ _ _ => json_wf (JObj outcome) = true
  | _ => True
  end.

Definition delivered_wf (d : delivered) : Prop := json_wf (JObj (outcome_of d)) = true.
Definition surroundings_wf (e : surroundings) : Prop :=
  (forall d, operation e = Ok d -> delivered_wf d) /\ (forall d, observe e = Some (Ok (Some d)) -> delivered_wf d).

Definition empty_store : MissionStore :=
  {| store_version := Some STORE_SCHEMA_VERSION; missions := []; checkpoints_table := []; idempotency := []; files := ∅ |}.

(** Calls one after the other, effects and methods of the store, any of which may
    die between two of its steps; the log holds the effects that returned, with
    their values. *)
Inductive history : list (string * contract * contract) -> world -> Prop :=
| h_start : history [] {| store := empty_store; performed := [] |}
| h_effect log w m intent e : history log w -> surroundings_wf e ->
    history (log ++ match fst (run (_idempotent_effect (Some m) intent e) w) with Ok v => [(m, intent, v)] | Raise _ => [] end)
            (snd (run (_idempotent_effect (Some m) intent e) w))
| h_effect_died log w m intent e n : history log w -> surroundings_wf e -> history log (stopped n (_idempotent_effect (Some m) intent e) w)
| h_mission log w c : history log w -> call_wf c -> history log (snd (run (mission_callP c) w))
| h_mission_died log w c n : history log w -> call_wf c -> history log (stopped n (mission_callP c) w).


(** ** One call, wherever it stops *)

(** No effect was performed twice, and what was performed has been claimed. *)
Record world_ok (w : world) : Prop := {
  wo_store : store_ok (store w);
  wo_once : NoDup (performed w);
  wo_claimed : forall i d, (i, d) ∈ performed w -> exists r, find_digest (store w) i d = Some r /\ 0 < c_count r }.
Definition since (w0 w : world) : Prop := world_ok w /\ store_grows (store w0) (store w).

Lemma world_advances w st : world_ok w -> store_ok st -> store_grows (store w) st -> world_ok {| store := st; performed := performed w |}.
Proof.
  intros [H1 H2 H3] Hok Hg. constructor; [done..|]. intros i d Hin. destruct (H3 i d Hin) as (r & Hr & Hc). destruct (grown_row _ _ _ _ _ Hok Hg Hr) as (r' & F & _ & G).
  exists r'. split; [done|]. destruct G. cbn. lia.
Qed.
Lemma since_advances w0 w st : since w0 w -> store_ok st -> store_grows (store w) st -> since w0 {| store := st; performed := performed w |}.
Proof. intros [H1 H2] Hok Hg. split; [by apply world_advances|]. by etrans. Qed.

Section safety.
Context (w0 : world).
Notation safe := (safe (since w0)).

Lemma safe_storing {A} (m : M MissionStore A) post w : since w0 w -> advances m (store w) ->
  (forall r st, m (store w) = (r, st) -> since w0 {| store := st; performed := performed w |} -> store_grows (store w) st -> post r {| store := st; performed := performed w |}) ->
  safe (storing m) post w.
Proof.
  intros Hw Hm Hp. destruct (Hm (wo_store w (proj1 Hw))) as [H1 H2]. unfold storing, on_store.
  apply safe_do; [done|destruct (m (store w)) as [r st]; by apply since_advances|]. destruct (m (store w)) as [r st]. cbn. apply Hp; [done|by apply since_advances|done].
Qed.
Lemma safe_reading {A} (f : MissionStore -> result A) (post : result A -> world -> Prop) w : since w0 w -> post (f (store w)) w -> safe (reading f) post w.
Proof. intros Hw Hp. by apply safe_do. Qed.

(** A store call, then the rest where it returned. *)
Lemma safe_then {A B} (m : M MissionStore A) (f : A -> prog world B) post w : since w0 w -> advances m (store w) ->
  (forall e st, post (Raise e) st) ->
  (forall a st, m (store w) = (Ok a, st) -> since w0 {| store := st; performed := performed w |} -> store_grows (store w) st ->
     safe (f a) post {| store := st; performed := performed w |}) ->
  safe (bindP (storing m) f) post w.
Proof. intros Hw Hm He Hf. apply safe_bindP, safe_storing; [done..|]. intros [a|e] st E Hs Hg; [by apply Hf|apply He]. Qed.
Lemma safe_read {A B} (g : MissionStore -> result A) (f : A -> prog world B) post w : since w0 w -> (forall e st, post (Raise e) st) ->
  (forall a, g (store w) = Ok a -> safe (f a) post w) -> safe (bindP (reading g) f) post w.
Proof. intros Hw He Hf. apply safe_bindP, safe_reading; [done|]. destruct (g (store w)) as [a|e]; [by apply Hf|apply He]. Qed.
Lemma safe_check {A B} (r : result A) (f : A -> prog world B) post w : since w0 w -> (forall e st, post (Raise e) st) ->
  (forall a, r = Ok a -> safe (f a) post w) -> safe (bindP (liftP r) f) post w.
Proof. intros Hw He Hf. apply safe_bindP, safe_lift; [done|]. destruct r as [a|e]; [by apply Hf|apply He]. Qed.

(** The post-condition of a call: where it returned a value, that value is settled. *)
Definition settles (i : string) (intent : contract) (r : result contract) (w : world) : Prop := forall v, r = Ok v -> settled (store w) i intent v.
Lemma settles_raise i intent e w : settles i intent (Raise e) w.
Proof. by intros v. Qed.
#[local] Hint Resolve settles_raise : core.

Lemma bound_row st i intent c : bound_to st i intent c -> i = k_mission c /\ json_wf (JObj (k_intent c)) = true
  /\ exists r, find_digest st i (k_digest c) = Some r /\ find_step st i (k_step c) = Some r /\ c_step r = k_step c /\ c_count r = k_count c /\ read_checkpoint r = Ok c.
Proof.
  intros (d & r & _ & H2 & H3 & _ & H5 & _). destruct (read_checkpoint_fields _ _ H5) as (E1 & E2 & E3 & E4 & E5 & _ & E7). destruct (find_digest_some _ _ _ _ H2) as (_ & F1 & F2).
  split; [congruence|]. split; [done|]. exists r. rewrite E2, E3, F2. split_and!; congruence.
Qed.
Lemma settle st st' i intent c row v v' : bound_to st i intent c -> store_ok st' -> store_grows st st' -> find_digest st' (k_mission c) (k_digest c) = Some row ->
  c_state row = COMPLETED -> receipt_value st' (k_mission c) (k_digest c) (JObj v') -> norm (JObj v') = norm (JObj v) -> settled st' i intent v.
Proof.
  intros Hb Hok Hg Hrow Hs Hr Hv. destruct (bound_row _ _ _ _ Hb) as (Ei & _). destruct (bound_grows st st' i intent c Hok Hg Hb) as (c' & row' & Hb' & Hrow' & Es & Em & Ed & _).
  rewrite <- Ei in *. assert (row' = row) as -> by congruence. exists c', v'. rewrite Em, Ed. split_and!; try done. by rewrite Es.
Qed.

(** *** The end of a call: completing, then returning the value *)

Lemma complete_step_safe st i intent c reference outcome budget now w : since w0 w -> bound_to st i intent c -> store_grows st (store w) ->
  json_wf (JObj reference) = true -> json_wf (JObj outcome) = true ->
  safe (complete_stepP c reference outcome budget now) (fun r w' => since w0 w' /\ store_grows (store w) (store w')
    /\ (r = Ok tt -> exists row, find_digest (store w') (k_mission c) (k_digest c) = Some row /\ c_state row = COMPLETED)) w.
Proof.
  intros Hw Hb Hg Hr Ho. assert (Hok := wo_store w (proj1 Hw)). destruct (bound_row _ _ _ _ Hb) as (Ei & _ & r & Hrow & _ & Est & _).
  destruct (grown_row _ _ _ _ _ Hok Hg Hrow) as (r' & F & _ & [_ G2 _ _ _ _ _]). rewrite Ei in F.
  destruct (complete_commit_spec c reference outcome budget (store w) Hok Hr Ho) as (S1 & S2 & S3).
  unfold complete_stepP. apply safe_bindP, safe_storing; [done..|]. intros [u|e] st1 E1 Hw1 Hg1; [|by split_and!]. rewrite E1 in *. cbn [fst snd] in *.
  destruct (S3 u r' eq_refl F ltac:(congruence)) as (row & Hrow1 & Hs1).
  apply safe_bindP, safe_storing; [done|apply adv_refresh|]. intros [u2|e] st2 _ Hw2 Hg2; cbn [store] in *; [|split; [done|]; split; [by etrans|done]].
  apply safe_lift; [done|]. split; [done|]. split; [by etrans|]. intros _.
  destruct (grown_row _ _ _ _ _ (wo_store _ (proj1 Hw2)) Hg2 Hrow1) as (row2 & F2 & _ & [_ _ _ _ _ G _]). exists row2. split; [done|by apply G].
Qed.
Lemma complete_safe st i intent c reference outcome budget now (v : result contract) w : since w0 w -> bound_to st i intent c -> store_grows st (store w) ->
  json_wf (JObj reference) = true -> json_wf (JObj outcome) = true ->
  (forall x, v = Ok x -> exists v', receipt_value (store w) (k_mission c) (k_digest c) (JObj v') /\ norm (JObj v') = norm (JObj x)) ->
  safe (complete_stepP c reference outcome budget now ;% liftP v) (settles i intent) w.
Proof.
  intros Hw Hb Hg Hr Ho Hv. apply safe_bindP. eapply safe_mono; [|by apply (complete_step_safe st i intent)]. intros [[]|e] w' _ (Hw' & Hg' & Hc); [|done].
  destruct (Hc eq_refl) as (row & Hrow & Hs). apply safe_lift; [done|]. intros x Ex. destruct (Hv x Ex) as (v' & Hx & Hn).
  apply (settle st (store w') i intent c row x v'); try done; [by apply wo_store, Hw'|by etrans|by apply (receipt_value_grows (store w))].
Qed.

(** Storing a fresh receipt for a delivered outcome. *)
Lemma adopt_safe st i intent c d t1 t2 w : since w0 w -> bound_to st i intent c -> store_grows st (store w) -> delivered_wf d ->
  files (store w) !! receipt_path (k_mission c) (k_digest c) = None ->
  safe (bindP (storing (write_effect_receipt c (outcome_of d) d.2 t1)) (fun reference => complete_stepP c reference (outcome_of d) None t2 ;% liftP (Ok d.1))) (settles i intent) w.
Proof.
  intros Hw Hb Hg Hd Hf. destruct (bound_row _ _ _ _ Hb) as (_ & Hi & _). assert (Hrec : forallb json_wf (map JObj d.2) = true).
  { unfold delivered_wf, outcome_of in Hd. cbn [json_wf map forallb fst snd] in Hd. apply andb_true_iff in Hd as [_ Hd]. apply andb_true_iff in Hd as [_ Hd]. by apply andb_true_iff in Hd as [Hd _]. }
  destruct (write_effect_receipt_spec c (outcome_of d) d.2 t1 (store w) (wo_store w (proj1 Hw)) Hi Hd Hrec Hf) as (S1 & S2 & S3).
  apply safe_then; [done|done|done|]. intros reference st1 E1 Hw1 Hg1. rewrite E1 in *. cbn [fst snd] in *. destruct (S3 reference eq_refl) as [Hr Hv].
  specialize (Hv (JObj d.1) eq_refl). destruct (norm_obj_members d.1) as (v' & En & _). rewrite En in Hv.
  apply (complete_safe st i intent); try done; [by etrans|]. intros x [= <-]. exists v'. split; [done|]. by rewrite <- En, norm_idem.
Qed.

(** *** The two ways to an outcome *)

Lemma find_receipt_none c st : find_effect_receipt c st = Ok None -> files st !! receipt_path (k_mission c) (k_digest c) = None.
Proof.
  unfold find_effect_receipt. destruct (files st !! _); [|done]. intros H. take_ok H a E1. take_ok H b E2. take_guard H E3. done.
Qed.
Lemma reconcile_safe i intent c e w : since w0 w -> bound_to (store w) i intent c -> surroundings_wf e -> find_effect_receipt c (store w) = Ok None ->
  safe (_reconcile_interrupted_effect c e) (settles i intent) w.
Proof.
  intros Hw Hb [_ He] Hf. apply find_receipt_none in Hf. unfold _reconcile_interrupted_effect. apply safe_read; [done|done|]. intros [r|] _; [|by apply safe_lift].
  apply safe_check; [done|done|]. intros [d|] Ed; [|apply safe_check; [done|done|]; intros k _; by apply safe_lift].
  apply safe_read; [done|done|]. intros u _. apply (adopt_safe (store w)); try done. apply He. destruct (observe e) as [o|]; [by rewrite Ed|done].
Qed.

Lemma first_safe i intent c e w : since w0 w -> bound_to (store w) i intent c -> surroundings_wf e -> find_effect_receipt c (store w) = Ok None -> k_count c = 0 ->
  safe (let% record := storing (begin_record (k_mission c) (k_step c) (t_record e)) in
        storing (begin_claim (k_mission c) (k_step c) record) ;%
        let% d := perform c (operation e) in
        let% reference := storing (write_effect_receipt c (outcome_of d) d.2 (t_receipt e)) in
        complete_stepP c reference (outcome_of d) None (t_state e) ;%
        liftP (Ok d.1)) (settles i intent) w.
Proof.
  intros Hw Hb [He _] Hf Hz. apply find_receipt_none in Hf. destruct (bound_row _ _ _ _ Hb) as (Ei & _ & r & Hrow & Hstep & _ & Hcount & Hread). rewrite Ei in Hrow, Hstep.
  assert (Hc : checkpoint (k_mission c) (k_step c) (store w) = Ok c).
  { destruct Hb as (d0 & r0 & _ & H2 & H3 & H4 & H5 & _). rewrite Ei in H3. assert (E0 : r0 = r).
    { destruct (read_checkpoint_fields _ _ H5) as (_ & E2 & _). rewrite <- E2, Hstep in H3. congruence. }
    subst r0. destruct (read_checkpoint_fields _ _ H5) as (_ & E2 & _). unfold checkpoint. rewrite E2, H4. cbn [rbind]. by rewrite <- E2, Hstep. }
  destruct (begin_record_spec _ _ (t_record e) (store w) c Hc eq_refl) as [T1 T2]. apply safe_then; [done|apply adv_begin_record|done|]. intros record st1 E1 Hw1 Hg1. rewrite E1 in *. cbn [snd] in *.
  assert (Hf1 : files st1 !! receipt_path (k_mission c) (k_digest c) = None) by (rewrite T2; [done|apply effect_paths_differ]).
  assert (Hstep1 : find_step st1 (k_mission c) (k_step c) = Some r) by (unfold find_step in *; by rewrite T1).
  destruct (begin_claim_spec (k_mission c) (k_step c) record st1 r (wo_store _ (proj1 Hw1)) Hstep1) as (S1 & S2 & S3 & S4).
  apply safe_then; [done|by intros _|done|]. intros x st2 E2 Hw2 Hg2. cbn [store] in *. rewrite E2 in *. cbn [fst snd] in *. destruct (S4 x eq_refl) as (r2 & F2 & C2 & G2).
  assert (D2 : find_digest st2 (k_mission c) (k_digest c) = Some r2).
  { apply (step_is_digest _ _ _ _ (wo_store _ (proj1 Hw2))) in F2. destruct G2 as [_ _ G2 _ _ _ _]. rewrite G2 in F2. destruct (find_digest_some _ _ _ _ Hrow) as (_ & _ & Ed). rewrite Ed in F2. exact F2. }
  assert (Hfresh : (k_mission c, k_digest c) ∉ performed w).
  { intros Hin. destruct (wo_claimed w (proj1 Hw) _ _ Hin) as (r0 & F0 & C0). rewrite Hrow in F0. injection F0 as <-. lia. }
  set (w3 := {| store := st2; performed := performed w ++ [(k_mission c, k_digest c)] |}). assert (Hw3 : since w0 w3).
  { destruct Hw2 as [[W1 W2 W3] Hs]. split; [|exact Hs]. constructor; cbn [store performed w3] in *; [done| |].
    - apply NoDup_app. split; [done|]. split; [|apply NoDup_singleton]. intros y Hy Hy'. apply list_elem_of_singleton in Hy' as ->. done.
    - intros i' d' [Hin|Hin%list_elem_of_singleton]%elem_of_app; [by apply W3|]. injection Hin as -> ->. by exists r2. }
  apply safe_bindP. unfold perform. apply safe_do; [done|exact Hw3|]. cbn [fst snd store performed].
  destruct (operation e) as [d|x'] eqn:Ed; [|done]. apply (adopt_safe (store w)); try done; [by etrans|by apply He|]. cbn [store w3]. by rewrite S3.
Qed.
End safety.

(** *** A call of [_idempotent_effect] *)

Lemma found_receipt c st reference w o v : find_effect_receipt c st = Ok (Some (reference, w)) -> member "outcome" w = Ok (JObj o) -> member "value" o = Ok v ->
  receipt_value st (k_mission c) (k_digest c) v.
Proof.
  unfold find_effect_receipt. destruct (files st !! _) as [content|] eqn:Ef; [|done]. intros H Ho Hv. take_ok H j E1. take_ok H w' E2. take_guard H E3. injection H as <- <-.
  destruct j as [| | | | |d]; try done. injection E2 as ->. by exists content, w', o.
Qed.
Lemma found_receipt_wf c st reference w o : find_effect_receipt c st = Ok (Some (reference, w)) -> member "outcome" w = Ok (JObj o) ->
  json_wf (JObj reference) = true /\ json_wf (JObj o) = true.
Proof.
  unfold find_effect_receipt. destruct (files st !! _) as [content|] eqn:Ef; [|done]. intros H Ho. take_ok H j E1. take_ok H w' E2. take_guard H E3. injection H as <- <-.
  destruct j as [| | | | |d]; try done. injection E2 as ->. split; [done|]. unfold parse_json in E1. destruct (loads content) as [j|] eqn:El; [|done]. injection E1 as ->.
  apply loads_wf in El. cbn in El. apply andb_true_iff in El as [_ El]. rewrite forallb_forall in El. unfold member in Ho. destruct (lookup_key "outcome" w') as [x|] eqn:Ex; [|done].
  injection Ho as ->. apply lookup_key_in in Ex. apply (El ("outcome", JObj o)). by apply list_elem_of_In.
Qed.

Lemma effect_safe w0 i intent e : world_ok w0 -> surroundings_wf e -> Programs.safe (since w0) (_idempotent_effect (Some i) intent e) (settles i intent) w0.
Proof.
  intros Hw He. assert (Hs0 : since w0 w0) by (by split). assert (Hok := wo_store w0 Hw). destruct (checkpoint_for_intent_spec i intent 1000000 (store w0) Hok) as (S1 & S2 & S3).
  unfold _idempotent_effect, _checkpoint. apply safe_then; [done|by intros _|by intros ? ? ?|]. intros c st1 E1 Hw1 Hg1. rewrite E1 in *. cbn [fst snd] in *. specialize (S3 c eq_refl).
  apply safe_read; [done|by intros ? ? ?|]. intros [[reference wrapper]|] Ef; cbn [store] in Ef.
  - apply safe_check; [done|by intros ? ? ?|]. intros o Eo. take_ok Eo j Ej. destruct j as [| | | | |o']; try done. injection Eo as ->.
    assert (V : forall v, (let? v := member "value" o in dict_of v) = Ok v -> receipt_value st1 (k_mission c) (k_digest c) (JObj v)).
    { intros v Hv. take_ok Hv x Ex. destruct x as [| | | | |v']; try done. injection Hv as ->. by apply (found_receipt c st1 reference wrapper o). }
    destruct (bool_decide (k_state c = COMPLETED)) eqn:Es.
    + apply bool_decide_eq_true in Es. apply safe_bindP, safe_lift; [done|]. apply safe_lift; [done|]. intros v Hv. exists c, v. split_and!; try done. by apply V.
    + destruct (found_receipt_wf c st1 reference wrapper o Ef Ej) as [R1 R2]. apply (complete_safe w0 st1 i intent); try done. intros v Hv. exists v. split; [by apply V|done].
  - destruct (0 <? k_count c) eqn:E0; [by apply reconcile_safe|]. apply (first_safe w0 i intent c e _ Hw1 S3 He Ef).
    destruct (bound_row _ _ _ _ S3) as (_ & _ & r & Hr & _ & _ & Hc & _). apply find_digest_some in Hr as (Hr & _). apply (so_count st1 S1) in Hr. apply Z.ltb_ge in E0. lia.
Qed.

(** *** Later calls and other calls *)

Lemma run_storing {A} (m : M MissionStore A) w : run (storing m) w = let '(r, st) := m (store w) in (r, {| store := st; performed := performed w |}).
Proof. unfold storing. by rewrite run_do. Qed.
Lemma run_reading {A} (f : MissionStore -> result A) w : run (reading f) w = (f (store w), w).
Proof. unfold reading. by rewrite run_do. Qed.

Lemma bound_again st i intent c : bound_to st i intent c -> checkpoint_for_intent i intent 1000000 st = (Ok c, st).
Proof.
  intros (d & r & H1 & H2 & H3 & H4 & H5 & H6). unfold checkpoint_for_intent. rewrite run_guard. change (negb (1000000 <? 0)) with true. cbn match. rewrite run_lift, H1, run_bind.
  unfold atomic. rewrite run_get, H2. cbn [ret]. rewrite run_get, run_lift. unfold checkpoint. rewrite H4. cbn [rbind]. rewrite H3, H5, run_guard, H6. done.
Qed.
(** Once an effect is settled every call returns its value and changes nothing. *)
Lemma settled_repeats w i intent v e : settled (store w) i intent v ->
  exists v', run (_idempotent_effect (Some i) intent e) w = (Ok v', w) /\ norm (JObj v') = norm (JObj v).
Proof.
  intros (c & v' & Hb & Hs & Hr & Hn). exists v'. split; [|done]. unfold _idempotent_effect, _checkpoint. rewrite run_bindP, run_storing, (bound_again _ _ _ _ Hb).
  destruct (receipt_found _ _ _ Hr) as (reference & wrapper & o & F & Ho & Hv). rewrite run_bindP, run_reading. cbn [store]. rewrite F, Ho, run_bindP. cbn [rbind dict_of liftP run liftR].
  rewrite bool_decide_eq_true_2 by done. rewrite Hv. destruct w; done.
Qed.

Lemma adv_mission_update i f st : advances (atomic (update_mission i f)) st.
Proof. apply adv_atomic, adv_update_mission. Qed.
Lemma adv_open st : advances open_store st.
Proof. apply adv_get. destruct (store_version st); [by unfold guardM; apply adv_same|]. apply adv_put. intros Hok. by apply same_table. Qed.
Lemma adv_begin_claim i n x st : advances (begin_claim i n x) st.
Proof.
  intros Hok. destruct (find_step st i n) as [row|] eqn:E; [by destruct (begin_claim_spec i n x st row Hok E) as (H1 & H2 & _)|].
  unfold begin_claim, atomic. by rewrite run_get, E.
Qed.
Lemma adv_record_intent i n intent st : advances (record_intent i n intent) st.
Proof.
  unfold record_intent. apply adv_lift. intros d _. apply adv_then_ret; [intros _ st'; rewrite run_get; by destruct (checkpoint i n st')|].
  apply adv_atomic, adv_lift. intros _ _. apply adv_get. destruct (find_step st i n); [by apply adv_same|]. intros Hok.
  by destruct (insert_checkpoint_spec (new_checkpoint i n d intent) st Hok) as (H1 & H2 & _).
Qed.
Lemma adv_write_receipt c outcome records now st : advances (write_effect_receipt c outcome records now) st.
Proof.
  unfold write_effect_receipt. apply adv_lift. intros x _. apply adv_lift. intros v _. apply adv_guard. intros _. apply adv_get.
  destruct (files st !! _) eqn:E; [apply adv_lift; intros _ _; by apply adv_same|]. apply adv_then_ret; [done|]. apply adv_put. intros Hok. by apply add_file.
Qed.
(** The reference that a receipt is stored under. *)
Lemma receipt_reference c outcome records now st reference st' : write_effect_receipt c outcome records now st = (Ok reference, st') ->
  json_wf (JObj reference) = true.
Proof.
  unfold write_effect_receipt. rewrite run_lift. destruct (synthetic_receipt c now); [|done]. rewrite run_lift.
  destruct (validate_document _ _); [|done]. rewrite run_guard. destruct (valid _); [|done]. rewrite run_get. destruct (files st !! _).
  - rewrite run_lift. destruct (rbind _ _); [|done]. by intros [= <- _].
  - rewrite run_put. by intros [= <- _].
Qed.

Section mission_calls.
Context (w0 : world).
Notation safe := (Programs.safe (since w0)).

Lemma safe_ignoring {A} (m : M MissionStore A) w : since w0 w -> advances m (store w) -> safe (ignoring (storing m)) (fun _ _ => True) w.
Proof. intros Hw Hm. apply safe_then; [done..|]. intros a st _ H1 _. by apply safe_lift. Qed.
Lemma safe_complete c reference outcome b now w : since w0 w -> json_wf (JObj reference) = true -> json_wf (JObj outcome) = true ->
  safe (complete_stepP c reference outcome b now) (fun _ _ => True) w.
Proof.
  intros Hw Hr Ho. unfold complete_stepP. apply safe_then; [done| |done|].
  { intros Hok. by destruct (complete_commit_spec c reference outcome b (store w) Hok Hr Ho) as (H1 & H2 & _). }
  intros u st _ H1 _. apply safe_then; [done|apply adv_refresh|done|]. intros s st2 _ H2 _. by apply safe_lift.
Qed.
Lemma safe_status i status blocker report now w (post : result unit -> world -> Prop) : since w0 w -> (forall r t, since w0 t -> post r t) ->
  safe (mark_statusP i status blocker report now) post w.
Proof.
  intros Hw Hp. unfold mark_statusP. apply safe_bindP. apply safe_storing; [done|apply adv_mission_update|]. intros [u|e] st _ H1 _; [|by apply Hp].
  apply safe_bindP. apply safe_storing; [done|apply adv_refresh|]. intros [u2|e] st2 _ H2 _; [|by apply Hp]. apply safe_lift; [done|]. by apply Hp.
Qed.
Lemma safe_workspaces snapshot present i now l w : since w0 w -> safe (workspacesP snapshot present i now l) (fun _ _ => True) w.
Proof.
  revert w. induction l as [|kv l IH]; intros w Hw; cbn [workspacesP]; [by apply safe_lift|].
  apply safe_check; [done|done|]. intros container _. apply safe_bindP.
  assert (Hk : forall w', since w0 w' -> safe (liftP (Ok tt)) (fun r t => match r with Ok _ => safe (workspacesP snapshot present i now l) (fun _ _ => True) t | Raise e => True end) w').
  { intros w' Hw'. apply safe_lift; [done|]. by apply IH. }
  destruct (negb (present container)); [by apply Hk|]. apply safe_check; [done|done|]. intros observed _. apply safe_check; [done|done|]. intros expected _.
  destruct (py_eq observed expected); [by apply Hk|]. apply safe_bindP. apply safe_status; [done|]. intros [u|e] t Ht; [by apply safe_lift|done].
Qed.
End mission_calls.

Lemma mission_call_safe w c : world_ok w -> call_wf c -> Programs.safe (since w) (mission_callP c) (fun _ _ => True) w.
Proof.
  intros Hw Hc. assert (Hs : since w w) by (by split). destruct c; cbn [mission_callP call_wf] in *.
  - apply safe_storing; [done|apply adv_open|done].
  - apply safe_storing; [done|apply adv_register|done].
  - apply safe_ignoring; [done|apply adv_record_intent].
  - apply safe_ignoring; [done|]. intros Hok. by destruct (checkpoint_for_intent_spec i intent minimum (store w) Hok) as (H1 & H2 & _).
  - apply safe_then; [done|apply adv_begin_record|done|]. intros record st _ H1 _. apply safe_ignoring; [done|apply adv_begin_claim].
  - apply safe_ignoring; [done|apply adv_write_receipt].
  - destruct Hc as [H1 H2]. by apply safe_complete.
  - apply safe_read; [done|done|]. intros u _. apply safe_then; [done|apply adv_write_receipt|done|]. intros reference st E H1 _.
    apply safe_complete; [done| |done]. by apply receipt_reference in E.
  - apply safe_read; [done|done|]. intros workspaces _. apply safe_storing; [done|apply adv_mission_update|done].
  - apply safe_read; [done|done|]. intros workspaces _. by apply safe_workspaces.
  - by apply safe_status.
  - apply safe_read; [done|done|]. intros roles _. apply safe_then; [done|apply adv_mission_update|done|]. intros u st _ H1 _.
    apply safe_then; [done|apply adv_refresh|done|]. intros s st2 _ H2 _. by apply safe_lift.
  - apply safe_storing; [done|apply adv_mission_update|done].
  - apply safe_ignoring; [done|apply adv_refresh].
Qed.

(** *** A method alone *)

Lemma run_ignoring {A} (p : prog world A) w : run (ignoring p) w = match run p w with (Ok _, w') => (Ok tt, w') | (Raise e, w') => (Raise e, w') end.
Proof. unfold ignoring. rewrite run_bindP. by destruct (run p w) as [[a|e] w']. Qed.
Lemma run_then {A B} (m : M MissionStore A) (f : A -> prog world B) w :
  run (bindP (storing m) f) w = match m (store w) with
                                | (Ok a, st) => run (f a) {| store := st; performed := performed w |}
                                | (Raise e, st) => (Raise e, {| store := st; performed := performed w |})
                                end.
Proof. rewrite run_bindP, run_storing. by destruct (m (store w)) as [[a|e] st]. Qed.

Lemma run_complete c reference outcome b now w : run (complete_stepP c reference outcome b now) w = on_store (complete_step c reference outcome b now) w.
Proof.
  unfold complete_stepP, complete_step, on_store. rewrite run_then, run_bind. destruct (complete_commit _ _ _ _ _) as [[u|e] st]; [|done].
  rewrite run_then, run_bind. cbn [store]. by destruct (refresh_state _ _ _ _) as [[s|e] st2].
Qed.
Lemma run_mark_status i status blocker report now w :
  run (mark_statusP i status blocker report now) w = on_store (mark_status i status blocker report now) w.
Proof.
  unfold mark_statusP, mark_status, on_store. rewrite run_then, run_bind. destruct (atomic _ _) as [[u|e] st]; [|done].
  rewrite run_then, run_bind. cbn [store]. by destruct (refresh_state _ _ _ _) as [[s|e] st2].
Qed.
Lemma run_workspaces snapshot present i now l w : run (workspacesP snapshot present i now l) w
  = on_store (loopM (reconcile_workspace snapshot present i now) l ;* ret tt) w.
Proof.
  destruct w as [st p]. induction l as [|kv l IH]; [done|]. cbn [workspacesP loopM]. unfold on_store in *. cbn [store performed] in *.
  rewrite run_bindP, !run_bind. unfold reconcile_workspace at 1. rewrite run_lift. cbn [liftP run].
  set (container := rbind _ _). destruct container as [d|e]; [|done]. cbn [liftR]. rewrite run_bindP.
  destruct (negb (present d)).
  - cbn [liftP run liftR ret]. rewrite IH, !run_bind. by destruct (loopM _ _ _) as [[x|e] st'].
  - rewrite run_bindP, run_lift. cbn [liftP run liftR]. destruct (snapshot d) as [observed|e]; [|done].
    rewrite run_bindP, run_lift. cbn [liftP run liftR]. set (expected := rbind _ _). destruct expected as [x|e]; [|done].
    destruct (py_eq observed x).
    + cbn [liftP run liftR ret]. rewrite IH, !run_bind. by destruct (loopM _ _ _) as [[y|e] st'].
    + rewrite run_bindP, run_mark_status, run_bind. unfold on_store. cbn [store]. by destruct (mark_status _ _ _ _ _ _) as [[u|e] st'].
Qed.

(** A call that is neither interrupted nor interleaved is the method. *)
Theorem mission_call_alone c w : run (mission_callP c) w = on_store (method c) w.
Proof.
  destruct c; cbn [mission_callP method].
  - apply run_storing.
  - apply run_storing.
  - rewrite run_ignoring, run_storing. unfold on_store. rewrite run_bind. by destruct (record_intent _ _ _ _) as [[x|e] st].
  - rewrite run_ignoring, run_storing. unfold on_store. rewrite run_bind. by destruct (checkpoint_for_intent _ _ _ _) as [[x|e] st].
  - rewrite run_then. unfold on_store, begin_effect. rewrite !run_bind. destruct (begin_record _ _ _ _) as [[x|e] st]; [|done].
    rewrite run_ignoring, run_storing. cbn [store]. by destruct (begin_claim _ _ _ _) as [[y|e] st2].
  - rewrite run_ignoring, run_storing. unfold on_store. rewrite run_bind. by destruct (write_effect_receipt _ _ _ _ _) as [[x|e] st].
  - apply run_complete.
  - rewrite run_bindP, run_reading. unfold on_store, reconcile_effect. rewrite run_bind, run_get, run_lift.
    destruct (reconcilable c (store w)) as [u|e]; [|by destruct w]. rewrite run_then, run_bind. destruct (write_effect_receipt _ _ _ _ _) as [[x|e] st]; [|done].
    rewrite run_complete, run_bind. unfold on_store. cbn [store]. by destruct (complete_step _ _ _ _ _ _) as [[[]|e] st2].
  - rewrite run_bindP, run_reading. unfold on_store, update_workspace. rewrite run_get, run_lift. destruct (rbind _ _) as [x|e]; [|by destruct w]. apply run_storing.
  - rewrite run_bindP, run_reading. unfold on_store, reconcile_workspaces. rewrite run_bind, run_get, run_lift.
    destruct (rbind _ _) as [x|e]; [|by destruct w]. rewrite run_workspaces, run_bind. unfold on_store. rewrite run_bind. by destruct (loopM _ _ _) as [[y|e] st].
  - apply run_mark_status.
  - rewrite run_bindP, run_reading. unfold on_store, mark_role. rewrite run_get, run_lift. destruct (rbind _ _) as [x|e]; [|by destruct w].
    rewrite run_then, run_bind. destruct (atomic _ _) as [[u|e] st]; [|done]. rewrite run_then, run_bind. cbn [store]. by destruct (refresh_state _ _ _ _) as [[s|e] st2].
  - apply run_storing.
  - rewrite run_ignoring, run_storing. unfold on_store. rewrite run_bind. by destruct (refresh_state _ _ _ _) as [[x|e] st].
Qed.

Lemma empty_world_ok : world_ok {| store := empty_store; performed := [] |}.
Proof. constructor; [constructor; intros r Hr; by apply elem_of_nil in Hr|constructor|]. intros i d H. by apply elem_of_nil in H. Qed.

Lemma history_sound log w : history log w -> world_ok w /\ forall i intent v, (i, intent, v) ∈ log -> settled (store w) i intent v.
Proof.
  assert (K : forall (log : list (string * contract * contract)) w w', world_ok w' /\ store_grows (store w) (store w') -> (forall i intent v, (i, intent, v) ∈ log -> settled (store w) i intent v) ->
    world_ok w' /\ forall i intent v, (i, intent, v) ∈ log -> settled (store w') i intent v).
  { intros l x x' [H1 H2] H. split; [done|]. intros i intent v Hin. apply (settled_grows (store x)); [apply H1|done|by apply H]. }
  induction 1 as [|log w m intent e _ [IH1 IH2] He|log w m intent e n _ [IH1 IH2] He|log w c _ [IH1 IH2] Hc|log w c n _ [IH1 IH2] Hc].
  - split; [apply empty_world_ok|]. intros i intent v H. by apply elem_of_nil in H.
  - assert (S := effect_safe w m intent e IH1 He). assert (S0 := safe_run _ _ _ _ S). assert (S1 : since w (snd (run (_idempotent_effect (Some m) intent e) w))).
    { apply (safe_mono _ _ _ (fun _ t => since w t)) in S; [by apply safe_run in S|done]. }
    destruct (K log w _ S1 IH2) as [K1 K2]. split; [done|]. intros i intent' v [Hin|Hin]%elem_of_app; [by apply K2|].
    destruct (fst (run _ w)) as [x|x] eqn:Er; [|by apply elem_of_nil in Hin]. apply list_elem_of_singleton in Hin as [= -> -> ->]. by apply S0.
  - apply (K log w); [|done]. by eapply safe_stopped, effect_safe.
  - apply (K log w); [|done]. assert (S := mission_call_safe w c IH1 Hc). apply (safe_mono _ _ _ (fun _ t => since w t)) in S; [by apply safe_run in S|done].
  - apply (K log w); [|done]. by eapply safe_stopped, mission_call_safe.
Qed.

(** C3: an external effect is performed at most once and adopted for good.  However
    calls follow one another, effects and every other public method of the store
    that writes, with whatever arguments, and wherever they die between two steps
    (before the write-ahead record, after the claim, after the effect, after the
    receipt, after the commit), for every mission and intent the operation is
    performed at most once; and once an effect has returned, every later call with
    that intent performs nothing, changes nothing and returns the same value. *)
Theorem delivered_effects_adopted_once log w : history log w ->
  NoDup (performed w)
  /\ forall i intent v, (i, intent, v) ∈ log -> forall e,
       exists v', run (_idempotent_effect (Some i) intent e) w = (Ok v', w) /\ norm (JObj v') = norm (JObj v).
Proof.
  intros H. destruct (history_sound log w H) as [[_ Hn _] Hl]. split; [done|]. intros i intent v Hin e. by apply settled_repeats, Hl.
Qed.

(** ** A sample delivery *)

Module SampleDelivery.

Definition now : string := "2030-01-01T00:00:00+00:00".
Definition config : contract := [("objective", JStr "ship"); ("repository", JStr "repo"); ("source_pack_fingerprint", JStr (bytes_digest ""))].
Definition budget : AutonomyBudget :=
  {| max_episodes := 1; max_tool_calls := 1; max_compute_units := 1; max_tool_calls_per_episode := 1; max_compute_units_per_episode := 1; episodes_used := 0;
     tool_calls_used := 0; compute_units_used := 0 |}.
Definition start : world := {| store := empty_store; performed := [] |}.
Definition registered : world := Eval vm_compute in snd (run (mission_callP (C_register "mission-1" config budget now)) start).
Definition push : contract := Eval vm_compute in _intent (Some "mission-1") "git" "push the branch" [("branch", JStr "topic")].
Definition pushed : contract := [("head_sha", JStr "abc"); ("branch", JStr "topic")].
Definition meets (seen : option (result (option delivered))) : surroundings :=
  {| operation := Ok (pushed, []); observe := seen; t_record := now; t_receipt := now; t_state := now |}.
Definition call (seen : option (result (option delivered))) (w : world) : result contract * world := run (_idempotent_effect (Some "mission-1") push (meets seen)) w.
(** The process dies right after the claim, and right after the effect. *)
Definition claimed : world := Eval vm_compute in stopped 4 (_idempotent_effect (Some "mission-1") push (meets None)) registered.
Definition performed_only : world := Eval vm_compute in stopped 5 (_idempotent_effect (Some "mission-1") push (meets None)) registered.
Definition observed : option (result (option delivered)) := Some (Ok (Some (pushed, []))).
Definition reconciled : world := Eval vm_compute in snd (call observed performed_only).

Lemma meets_wf seen : (forall d, seen = Some (Ok (Some d)) -> delivered_wf d) -> surroundings_wf (meets seen).
Proof. intros H. split; [|exact H]. intros d [= <-]. vm_compute. reflexivity. Qed.
Lemma sample_deliveries : history [("mission-1", push, pushed)] reconciled.
Proof.
  assert (H1 : history [] registered) by (apply (h_mission [] start (C_register "mission-1" config budget now)); [apply h_start|exact I]).
  assert (H2 : history [] performed_only) by (apply (h_effect_died [] registered "mission-1" push (meets None) 5); [exact H1|by apply meets_wf]).
  apply (h_effect [] performed_only "mission-1" push (meets observed)); [exact H2|]. apply meets_wf. intros d [= <-]. vm_compute. reflexivity.
Qed.
End SampleDelivery.

Lemma delivered_effects_adopted_once_witness :
  NoDup (performed SampleDelivery.reconciled)
  /\ exists v', SampleDelivery.call None SampleDelivery.reconciled = (Ok v', SampleDelivery.reconciled) /\ norm (JObj v') = norm (JObj SampleDelivery.pushed).
Proof.
  destruct (delivered_effects_adopted_once _ _ SampleDelivery.sample_deliveries) as [H1 H2]. split; [exact H1|].
  apply (H2 "mission-1" SampleDelivery.push SampleDelivery.pushed); by left.
Defined.

(** An interrupted effect is not repeated: without a witness of its outcome the
    call is refused, with one the outcome is adopted. *)
Example interrupted_push :
  match fst (SampleDelivery.call None SampleDelivery.claimed) with Raise e => exc_cls e | Ok _ => KeyError end = GitHubEffectReconciliationRequired
  /\ fst (SampleDelivery.call SampleDelivery.observed SampleDelivery.performed_only) = Ok SampleDelivery.pushed
  /\ length (performed SampleDelivery.reconciled) = 1%nat.
Proof. split_and!; vm_compute; reflexivity. Qed.

(** The roles of a mission are stored with sorted keys, and the next role is the
    first that has not succeeded in the order of the stored text: a mission that has
    just begun is in the phase of the architect once its state is refreshed. *)
Example refreshed_mission_skips_intake :
  let phase st := match find_mission st "mission-1" with
                  | Some r => match loads (state_json r) with Some (JObj d) => match get "mission" d with JObj m => get "active_phase" m | _ => JNull end | _ => JNull end
                  | None => JNull
                  end in
  phase (store SampleDelivery.registered) = JStr "intake"
  /\ phase (snd (refresh_state "mission-1" None SampleDelivery.now (store SampleDelivery.registered))) = JStr "design".
Proof. split; vm_compute; reflexivity. Qed.

(** [reconcile_effect] does not ask whether the step is completed: a second
    reconciliation leaves the stored receipt as it is and replaces the outcome of the
    checkpoint, so that the two disagree. *)
Example conflicting_outcomes_stored :
  let other := outcome_of ([("head_sha", JStr "other")], []) in
  let before := store SampleDelivery.reconciled in
  let after := match checkpoint "mission-1" 1000000 before with
               | Ok c => snd (reconcile_effect c other [] None SampleDelivery.now SampleDelivery.now before)
               | Raise _ => before
               end in
  map c_outcome_json (checkpoints_table before) = [Some (canonical_bytes (JObj (outcome_of (SampleDelivery.pushed, []))))]
  /\ map c_outcome_json (checkpoints_table after) = [Some (canonical_bytes (JObj other))]
  /\ map_to_list (files after) = map_to_list (files before).
Proof. split_and!; vm_compute; reflexivity. Qed.

End Delivery.
