(* ===== verification/TokenLedger.v ===== *)
(** * Token accounting

    [token_ledger.py]: token measurements, token records and their digests, the
    calibration per purpose, and the ledger of token records over the evidence
    ledger ([Ledger]).  Counts are Python integers; the tests that refuse a
    value of another type are part of the types here. *)

From S2P Require Import Prelude Sha256 Canonical AsciiJson PyLib Ledger Contracts.
From stdpp Require Import sorting.
#[local] Open Scope Z_scope.

Module TokenLedger.

(** [TokenSource] *)
Inductive TokenSource := MEASURED | ESTIMATED | UNAVAILABLE.

#[global] Instance source_eq_dec : EqDecision TokenSource.
Proof. solve_decision. Defined.

Definition source_value (s : TokenSource) : string :=
  match s with MEASURED => "measured" | ESTIMATED => "estimated" | UNAVAILABLE => "unavailable" end.

Definition _canonical_digest (value : json) : string := ("sha256:" +:+ sha256_hexdigest (dumps value))%stdpp.

Definition non_negative (value : option Z) : bool := match value with Some n => 0 <=? n | None => true end.
Definition _count (value : option Z) (source : TokenSource) (label : string) : result unit :=
  require (non_negative value) TokenAccountingError (label +:+ " must be a non-negative integer or None")%stdpp ;?
  require (negb (bool_decide (source = UNAVAILABLE) && bool_decide (is_Some value))) TokenAccountingError
    ("unavailable " +:+ label +:+ " must be None")%stdpp ;?
  require (bool_decide (source = UNAVAILABLE) || bool_decide (is_Some value)) TokenAccountingError
    (source_value source +:+ " " +:+ label +:+ " requires a value")%stdpp.

(** ** Measurements *)

Record TokenMeasurement := {
  input_tokens : option Z;
  output_tokens : option Z;
  input_source : TokenSource;
  output_source : TokenSource;
  estimator : option string;
  cache_read_tokens : option Z;
  cache_write_tokens : option Z;
  cache_source : TokenSource }.

(** [TokenMeasurement.__post_init__] *)
Definition check_measurement (m : TokenMeasurement) : result unit :=
  _count (input_tokens m) (input_source m) "input_tokens" ;?
  _count (output_tokens m) (output_source m) "output_tokens" ;?
  (if bool_decide (cache_source m = UNAVAILABLE) then
     require (bool_decide (cache_read_tokens m = None) && bool_decide (cache_write_tokens m = None)) TokenAccountingError
       "unavailable cache token counts must be None"
   else
     require (negb (bool_decide (cache_read_tokens m = None) && bool_decide (cache_write_tokens m = None))) TokenAccountingError
       "measured or estimated cache usage requires a count" ;?
     require (non_negative (cache_read_tokens m)) TokenAccountingError "cache_read_tokens must be non-negative or None" ;?
     require (non_negative (cache_write_tokens m)) TokenAccountingError "cache_write_tokens must be non-negative or None") ;?
  let estimated := bool_decide (ESTIMATED ∈ [input_source m; output_source m; cache_source m]) in
  require (negb estimated || match estimator m with Some e => negb (is_blank e) | None => false end) TokenAccountingError
    "estimated counts require an estimator name" ;?
  require (estimated || bool_decide (estimator m = None)) TokenAccountingError
    "estimator must be absent when no count is estimated".

Definition opt_int (o : option Z) : json := match o with Some z => JInt z | None => JNull end.
Definition opt_text (o : option string) : json := match o with Some s => JStr s | None => JNull end.

Definition measurement_document (m : TokenMeasurement) : json :=
  JObj [("input_tokens", opt_int (input_tokens m)); ("output_tokens", opt_int (output_tokens m));
        ("input_source", JStr (source_value (input_source m))); ("output_source", JStr (source_value (output_source m)));
        ("cache_read_tokens", opt_int (cache_read_tokens m)); ("cache_write_tokens", opt_int (cache_write_tokens m));
        ("cache_source", JStr (source_value (cache_source m))); ("estimator", opt_text (estimator m))].

Definition measure_call (request_bytes prompt_tokens completion_tokens : option Z) (max_output_tokens : Z) (estimator : string)
    (cache_read cache_write : option Z) : result TokenMeasurement :=
  require (non_negative request_bytes) TokenAccountingError "request_bytes must be non-negative or None" ;?
  require (1 <=? max_output_tokens) TokenAccountingError "max_output_tokens must be positive" ;?
  require (non_negative prompt_tokens) TokenAccountingError "prompt_tokens must be non-negative or None" ;?
  require (non_negative completion_tokens) TokenAccountingError "completion_tokens must be non-negative or None" ;?
  require (non_negative cache_read) TokenAccountingError "cache_read_tokens must be non-negative or None" ;?
  require (non_negative cache_write) TokenAccountingError "cache_write_tokens must be non-negative or None" ;?
  let '(input_value, source) :=
    match prompt_tokens, request_bytes with
    | Some n, _ => (Some n, MEASURED)
    | None, Some b => (Some (Z.max 1 (b / 4)), ESTIMATED)
    | None, None => (None, UNAVAILABLE)
    end in
  let has_cache := bool_decide (is_Some cache_read) || bool_decide (is_Some cache_write) in
  let m := {| input_tokens := input_value; output_tokens := completion_tokens; input_source := source;
              output_source := if bool_decide (is_Some completion_tokens) then MEASURED else UNAVAILABLE;
              estimator := if bool_decide (source = ESTIMATED) then Some estimator else None;
              cache_read_tokens := cache_read; cache_write_tokens := cache_write;
              cache_source := if has_cache then MEASURED else UNAVAILABLE |} in
  check_measurement m ;?
  Ok m.

(** ** Records *)

Record TokenRecord := {
  run_id : string;
  role : string;
  work_item_id : string;
  outcome : string;
  retry_index : Z;
  measurement : TokenMeasurement;
  context_manifest_digest : option string;
  omitted_role_count : Z;
  purpose : string;
  call_count : Z;
  fallback_count : Z;
  avoided_input_tokens : option Z;
  coordination_tokens : Z }.

(** [TokenRecord.__post_init__] *)
Definition check_record (r : TokenRecord) : result unit :=
  rfold (fun _ (x : string * string) => require (negb (is_blank x.1)) TokenAccountingError (x.2 +:+ " is required")%stdpp) tt
    [(run_id r, "run_id"); (role r, "role"); (work_item_id r, "work_item_id"); (outcome r, "outcome"); (purpose r, "purpose")] ;?
  rfold (fun _ (x : Z * string) => require (0 <=? x.1) TokenAccountingError (x.2 +:+ " must be a non-negative integer")%stdpp) tt
    [(retry_index r, "retry_index"); (omitted_role_count r, "omitted_role_count"); (call_count r, "call_count");
     (fallback_count r, "fallback_count"); (coordination_tokens r, "coordination_tokens")] ;?
  require (1 <=? call_count r) TokenAccountingError "call_count must be at least one" ;?
  require (non_negative (avoided_input_tokens r)) TokenAccountingError "avoided_input_tokens must be non-negative or None" ;?
  require (match context_manifest_digest r with
           | Some d => (str_len d =? 71) && startswith "sha256:" d && all_chars is_hex (drop_bytes 7 d)
           | None => true
           end) TokenAccountingError "context_manifest_digest must be absent or a lowercase sha256 digest".

(** [to_document] *)
Definition token_document (r : TokenRecord) : list (string * json) :=
  [("run_id", JStr (run_id r)); ("role", JStr (role r)); ("work_item_id", JStr (work_item_id r)); ("outcome", JStr (outcome r));
   ("retry_index", JInt (retry_index r)); ("measurement", measurement_document (measurement r));
   ("context_manifest_digest", opt_text (context_manifest_digest r)); ("omitted_role_count", JInt (omitted_role_count r));
   ("purpose", JStr (purpose r)); ("call_count", JInt (call_count r)); ("fallback_count", JInt (fallback_count r));
   ("avoided_input_tokens", opt_int (avoided_input_tokens r)); ("coordination_tokens", JInt (coordination_tokens r))].
Definition record_digest (r : TokenRecord) : string := _canonical_digest (JObj (token_document r)).

(** ** Calibration *)

Record PurposeCalibration := {
  c_purpose : string;
  sample_count : Z;
  median_input_tokens : Z;
  median_output_tokens : Z;
  observed_net_savings_tokens : Z;
  confidence : string }.

(** [PurposeCalibration.__post_init__] *)
Definition check_calibration (c : PurposeCalibration) : result unit :=
  require (negb (is_blank (c_purpose c))) TokenAccountingError "calibration purpose is required" ;?
  rfold (fun _ (x : Z * string) => require (0 <=? x.1) TokenAccountingError (x.2 +:+ " must be a non-negative integer")%stdpp) tt
    [(sample_count c, "sample_count"); (median_input_tokens c, "median_input_tokens");
     (median_output_tokens c, "median_output_tokens"); (observed_net_savings_tokens c, "observed_net_savings_tokens")] ;?
  require (mem (confidence c) ["insufficient"; "provisional"; "calibrated"]) TokenAccountingError "calibration confidence is unknown".

Definition calibration_to_document (c : PurposeCalibration) : json :=
  JObj [("purpose", JStr (c_purpose c)); ("sample_count", JInt (sample_count c)); ("median_input_tokens", JInt (median_input_tokens c));
        ("median_output_tokens", JInt (median_output_tokens c));
        ("observed_net_savings_tokens", JInt (observed_net_savings_tokens c)); ("confidence", JStr (confidence c))].

(** [statistics.median_low] of a list that is not empty; the callers give 0
    for an empty one. *)
Definition median_low (l : list Z) : Z :=
  let s := merge_sort Z.le l in
  let n := length l in
  default 0 (s !! (if Nat.even n then (Nat.div2 n - 1)%nat else Nat.div2 n)).

(** The samples of one purpose with both counts known. *)
Definition usable (records : list TokenRecord) : list (TokenRecord * Z * Z) :=
  omap (fun r => match input_tokens (measurement r), output_tokens (measurement r) with Some i, Some o => Some (r, i, o) | _, _ => None end)
    records.
Definition observed (samples : list (TokenRecord * Z * Z)) : list Z :=
  omap (fun x => let '(r, i, o) := x in
                 match avoided_input_tokens r with Some a => Some (Z.max 0 (a - i - o - coordination_tokens r)) | None => None end) samples.

(** One turn of the loop over the purposes. *)
Definition calibrate_purpose (minimum_samples : Z) (name : string) (records : list TokenRecord) : result PurposeCalibration :=
  let samples := usable records in
  let count := Z.of_nat (length samples) in
  let '(level, savings) :=
    if count <? minimum_samples then ("insufficient", 0)
    else (if minimum_samples * 2 <=? count then "calibrated" else "provisional", median_low (observed samples)) in
  let c := {| c_purpose := name; sample_count := count; median_input_tokens := median_low (map (fun x => x.1.2) samples);
              median_output_tokens := median_low (map (fun x => x.2) samples);
              observed_net_savings_tokens := savings; confidence := level |} in
  check_calibration c ;?
  Ok c.

(** [grouped]: the succeeded records by purpose, and its keys in order *)
Definition succeeded (records : list TokenRecord) : list TokenRecord := List.filter (fun r => String.eqb (outcome r) "succeeded") records.
Definition grouped (records : list TokenRecord) (name : string) : list TokenRecord :=
  List.filter (fun r => String.eqb (purpose r) name) (succeeded records).
Definition purposes (records : list TokenRecord) : list string := sorted_str (dedup (map purpose (succeeded records))).

Fixpoint collect {A B} (f : A -> result B) (l : list A) : result (list B) :=
  match l with [] => Ok [] | x :: xs => let? y := f x in let? ys := collect f xs in Ok (y :: ys) end.

Definition calibrate (records : list TokenRecord) (minimum_samples : Z) : result (list PurposeCalibration) :=
  require (1 <=? minimum_samples) TokenAccountingError "minimum_samples must be positive" ;?
  collect (fun name => calibrate_purpose minimum_samples name (grouped records name)) (purposes records).

Definition calibration_document (calibrations : list PurposeCalibration) : result json :=
  let ordered := sorted_by c_purpose calibrations in
  require (Nat.eqb (length (dedup (map c_purpose ordered))) (length ordered)) TokenAccountingError "calibration purposes must be unique" ;?
  Ok (JObj [("schema_version", JInt 1); ("kind", JStr "hive-mind-token-calibration");
            ("calibrations", JList (map calibration_to_document ordered))]).

(** ** The ledger of token records *)

(** [TokenLedger]: the evidence ledger and the digests recorded. *)
Record tracker := { evidence : Ledger.ledger; recorded : gset string }.

(** The digest of an event the constructor takes into [_recorded]. *)
Definition recorded_digest (event : Ledger.event_row * json) : option string :=
  if String.eqb (Ledger.event_type event.1) "token.accounting" then
    match event.2 with JObj d => as_str (get "record_digest" d) | _ => None end
  else None.

(** [TokenLedger(ledger)] *)
Definition new_tracker (ledger : Ledger.ledger) : result tracker :=
  let? all := (Ledger.events None ledger).1 in
  Ok {| evidence := ledger; recorded := list_to_set (omap recorded_digest all) |}.

(** [record] at the moment [now] *)
Definition record_payload (r : TokenRecord) : json := JObj (("record_digest", JStr (record_digest r)) :: token_document r).
Definition record (r : TokenRecord) (now : string) : M tracker Z := fun t =>
  let digest := record_digest r in
  if bool_decide (digest ∈ recorded t) then (raise TokenAccountingError "token record is already appended", t)
  else match Ledger.append_event (run_id r) "token.accounting" (role r) (record_payload r) now (evidence t) with
       | (Ok sequence, ledger) => (Ok sequence, {| evidence := ledger; recorded := recorded t ∪ {[digest]} |})
       | (Raise e, ledger) => (Raise e, {| evidence := ledger; recorded := recorded t |})
       end.

(** ** Measurements are honest *)

Lemma non_negative_spec o : non_negative o = true <-> forall n, o = Some n -> 0 <= n.
Proof.
  destruct o as [n|]; cbn; [|done]. rewrite Z.leb_le. split; [by intros H m [= <-]|auto].
Qed.

Lemma counts_spec rb pt ct cr cw : (forall n, n ∈ omap id [rb; pt; ct; cr; cw] -> 0 <= n) <->
  non_negative rb = true /\ non_negative pt = true /\ non_negative ct = true /\ non_negative cr = true /\ non_negative cw = true.
Proof.
  rewrite !non_negative_spec. split.
  - intros H. split_and!; intros n ->; apply H; apply list_elem_of_omap; eexists; (split; [|reflexivity]); set_solver.
  - intros (H1 & H2 & H3 & H4 & H5) n Hn. apply list_elem_of_omap in Hn as (o & Ho & E). unfold id in E. subst o.
    set_unfold in Ho. destruct Ho as [E|[E|[E|[E|[E|[]]]]]]; eauto.
Qed.

Lemma require_pass {A} b c m (k : result A) : b = true -> (require b c m ;? k) = k.
Proof. by intros ->. Qed.

(** A measured call never misstates what was measured.  [measure_call]
    succeeds exactly when no count is negative, the output limit is positive
    and an estimate, if one is needed, has a named estimator; then a count the
    provider gave is reported as measured and unchanged, an input the provider
    did not count is a quarter of the known request bytes, at least one and
    marked as an estimate, or unavailable, and a missing completion count is
    never replaced, neither by the limit nor by zero. *)
Theorem measure_call_honest rb pt ct limit est cr cw :
  (is_ok (measure_call rb pt ct limit est cr cw) = true <->
     (forall n, n ∈ omap id [rb; pt; ct; cr; cw] -> 0 <= n) /\ 1 <= limit /\ (pt = None -> is_Some rb -> is_blank est = false))
  /\ forall m, measure_call rb pt ct limit est cr cw = Ok m ->
       output_tokens m = ct /\ (is_Some ct <-> output_source m = MEASURED) /\ output_source m <> ESTIMATED
       /\ cache_read_tokens m = cr /\ cache_write_tokens m = cw
       /\ match pt, rb with
          | Some n, _ => input_tokens m = Some n /\ input_source m = MEASURED /\ estimator m = None
          | None, Some b => input_tokens m = Some (Z.max 1 (b / 4)) /\ input_source m = ESTIMATED /\ estimator m = Some est
          | None, None => input_tokens m = None /\ input_source m = UNAVAILABLE /\ estimator m = None
          end.
Proof.
  split.
  - unfold is_ok. destruct (measure_call _ _ _ _ _ _ _) as [m|e] eqn:E.
    + split; [intros _|done]. unfold measure_call in E. take_guard E G1. take_guard E G2. take_guard E G3. take_guard E G4. take_guard E G5.
      take_guard E G6. split; [by apply counts_spec|]. split; [by apply Z.leb_le|]. intros -> [b ->]. take_ok E u Ec. clear E.
      unfold check_measurement in Ec. take_ok Ec u1 C1. take_ok Ec u2 C2. take_ok Ec u3 C3. take_guard Ec C4. cbn in C4. by apply negb_true_iff in C4.
    + split; [done|]. intros (H1%counts_spec & H2 & H3). destruct H1 as (G1 & G3 & G4 & G5 & G6). exfalso. revert E. unfold measure_call.
      rewrite !require_pass by (done || by apply Z.leb_le). assert (H4 : pt = None -> forall b, rb = Some b -> is_blank est = false) by (intros Hp b ->; by apply H3).
      assert (H5 : forall b, 0 <=? Z.max 1 (b / 4) = true) by (intros b; apply Z.leb_le; lia). clear H3.
      destruct pt as [p|], rb as [b|], ct as [c|], cr as [x|], cw as [y|]; cbn in G1, G3, G4, G5, G6; unfold check_measurement, _count; cbn;
        rewrite ?G1, ?G3, ?G4, ?G5, ?G6, ?H5; first [assert (Hb := H4 eq_refl _ eq_refl); revert Hb; clear; change (bool_decide (ESTIMATED = ESTIMATED)) with true; cbv iota beta; generalize (is_blank est); intros ? ->; vm_compute; discriminate|vm_compute; discriminate].
  - intros m E. unfold measure_call in E. do 6 (take_ok E u G; clear G u). destruct pt as [p|], rb as [b|], ct as [c|]; take_ok E u G; injection E as <-; cbn;
      repeat split; try done; by intros [].
Qed.

(** ** Calibration *)

#[local] Instance Zle_total : Total Z.le.
Proof. intros x y. lia. Qed.

Lemma median_low_perm l l' : l ≡ₚ l' -> median_low l = median_low l'.
Proof.
  intros H. unfold median_low. rewrite (Permutation_length H). assert (E : merge_sort Z.le l = merge_sort Z.le l'); [|by rewrite E].
  apply (StronglySorted_unique Z.le); [apply StronglySorted_merge_sort; apply _..|]. by rewrite !merge_sort_Permutation.
Qed.

Lemma usable_perm l l' : l ≡ₚ l' -> usable l ≡ₚ usable l'.
Proof. intros H. unfold usable. by rewrite H. Qed.

Lemma calibrate_purpose_perm n name l l' : l ≡ₚ l' -> calibrate_purpose n name l = calibrate_purpose n name l'.
Proof.
  intros H%usable_perm. unfold calibrate_purpose. rewrite (Permutation_length H).
  rewrite (median_low_perm _ _ (Permutation_map (fun x => x.1.2) H)), (median_low_perm _ _ (Permutation_map (fun x => x.2) H)).
  assert (Ho : observed (usable l) ≡ₚ observed (usable l')) by (unfold observed; by rewrite H). by rewrite (median_low_perm _ _ Ho).
Qed.

Lemma collect_ext {A B} (f f' : A -> result B) l : (forall x, f x = f' x) -> collect f l = collect f' l.
Proof. intros H. induction l as [|x l IH]; [done|]. cbn. by rewrite H, IH. Qed.

(** A calibration depends on what was recorded only: records in any order,
    with any number of records that did not succeed between them, give the same
    calibrations, or the same refusal. *)
Theorem calibrate_order_independent records records' n :
  succeeded records ≡ₚ succeeded records' -> calibrate records n = calibrate records' n.
Proof.
  intros H. unfold calibrate. assert (Ep : purposes records = purposes records').
  { unfold purposes. apply sorted_str_perm, dedup_perm. by apply Permutation_map. }
  rewrite Ep. f_equal. assert (Ee : forall name, calibrate_purpose n name (grouped records name) = calibrate_purpose n name (grouped records' name)).
  { intros name. apply calibrate_purpose_perm. unfold grouped. by apply filter_perm. }
  by rewrite (collect_ext _ _ _ Ee).
Qed.

(** The median of a list: an element no larger and no smaller than half of
    them. *)
Definition count_if (p : Z -> bool) (l : list Z) : nat := length (List.filter p l).
Definition middle (m : Z) (l : list Z) : Prop :=
  m ∈ l /\ (length l <= 2 * count_if (fun x => Z.leb x m) l)%nat /\ (length l <= 2 * count_if (fun x => Z.leb m x) l)%nat.

Lemma count_if_perm p l l' : l ≡ₚ l' -> count_if p l = count_if p l'.
Proof. intros H. unfold count_if. by rewrite (filter_perm p l l' H). Qed.

Lemma count_if_all p l k : (k <= length l)%nat -> (forall x, x ∈ take k l -> p x = true) -> (k <= count_if p l)%nat.
Proof.
  revert k. induction l as [|y l IH]; intros k Hk Hp; [cbn in *; lia|]. destruct k as [|k]; [lia|]. unfold count_if in *. cbn [take] in Hp. cbn [List.filter].
  rewrite Hp by (by left). cbn. apply le_n_S, IH; [cbn in Hk; lia|]. intros x Hx. apply Hp. by right.
Qed.

Lemma sorted_le s i j x y : StronglySorted Z.le s -> s !! i = Some x -> s !! j = Some y -> (i <= j)%nat -> x <= y.
Proof.
  intros Hs. revert i j. induction Hs as [|z s Hs IH Hz]; intros i j Hx Hy Hij; [done|].
  destruct i as [|i], j as [|j]; cbn in *; [simplify_eq; lia| |lia|by apply (IH i j); [..|lia]].
  simplify_eq. rewrite Forall_forall in Hz. apply Hz. by eapply list_elem_of_lookup_2.
Qed.

Lemma median_low_middle l : l <> [] -> middle (median_low l) l.
Proof.
  intros Hl. unfold median_low. set (s := merge_sort Z.le l). assert (Hp : s ≡ₚ l) by apply merge_sort_Permutation.
  assert (Hs : StronglySorted Z.le s) by (apply StronglySorted_merge_sort; apply _).
  assert (Hlen := Permutation_length Hp). set (n := length l) in *. assert (Hn : (0 < n)%nat) by (destruct l; [done|cbn; lia]).
  set (i := if Nat.even n then (Nat.div2 n - 1)%nat else Nat.div2 n).
  assert (Hi : (n <= 2 * (i + 1) /\ 2 * i + 1 <= n)%nat).
  { unfold i. assert (H := Nat.div2_odd n). rewrite <- Nat.negb_even in H. destruct (Nat.even n); cbn in H; lia. }
  destruct (s !! i) as [m|] eqn:Em; [|apply lookup_ge_None_1 in Em; lia]. cbn [default from_option]. unfold id. split; [rewrite <- Hp; by eapply list_elem_of_lookup_2|].
  rewrite <- !(count_if_perm _ _ _ Hp). split.
  - enough (i + 1 <= count_if (fun x => Z.leb x m) s)%nat by lia. apply count_if_all; [lia|]. intros x Hx. apply Z.leb_le.
    apply list_elem_of_lookup in Hx as [j Hj]. apply lookup_take_Some in Hj as [Hj Hlt]. apply (sorted_le s j i); [done..|lia].
  - enough (length s - i <= count_if (fun x => Z.leb m x) s)%nat by lia. rewrite <- (count_if_perm _ _ _ (reverse_Permutation s)).
    apply count_if_all; [rewrite length_reverse; lia|]. intros x Hx. apply Z.leb_le.
    apply list_elem_of_lookup in Hx as [j Hj]. apply lookup_take_Some in Hj as [Hj Hlt]. apply reverse_lookup_Some in Hj as [Hj Hjl].
    apply (sorted_le s i (length s - S j)); [done..|lia].
Qed.

(** A record its constructors accepted. *)
Definition constructed (r : TokenRecord) : Prop := check_measurement (measurement r) = Ok tt /\ check_record r = Ok tt.

Definition calibration_of (n : Z) (records : list TokenRecord) (name : string) (c : PurposeCalibration) : Prop :=
  let samples := usable (grouped records name) in
  let count := Z.of_nat (length samples) in
  c_purpose c = name /\ sample_count c = count
  /\ (if decide (samples = []) then median_input_tokens c = 0 /\ median_output_tokens c = 0
      else middle (median_input_tokens c) (map (fun x => x.1.2) samples) /\ middle (median_output_tokens c) (map (fun x => x.2) samples))
  /\ confidence c = (if count <? n then "insufficient" else if count <? 2 * n then "provisional" else "calibrated")
  /\ 0 <= observed_net_savings_tokens c /\ (count < n -> observed_net_savings_tokens c = 0).

Lemma collect_Forall2 {A B} (f : A -> result B) (P : A -> B -> Prop) l : (forall x, x ∈ l -> exists y, f x = Ok y /\ P x y) ->
  exists ys, collect f l = Ok ys /\ Forall2 P l ys.
Proof.
  induction l as [|x l IH]; intros H; [by exists []|]. destruct (H x) as (y & Ey & Hy); [by left|].
  destruct IH as (ys & Eys & Hys); [intros z Hz; apply H; by right|]. exists (y :: ys). cbn. rewrite Ey, Eys. split; [done|by constructor].
Qed.

Lemma median_bound l : (forall x, x ∈ l -> 0 <= x) -> 0 <= median_low l.
Proof. intros H. destruct l as [|x l]; [done|]. apply H. by apply (median_low_middle (x :: l)). Qed.

Lemma usable_sample records x : x ∈ usable records ->
  x.1.1 ∈ records /\ input_tokens (measurement x.1.1) = Some x.1.2 /\ output_tokens (measurement x.1.1) = Some x.2.
Proof.
  intros (r & Hr & E)%list_elem_of_omap. destruct (input_tokens (measurement r)) as [i|] eqn:Ei; [|done].
  destruct (output_tokens (measurement r)) as [o|] eqn:Eo; [|done]. by injection E as <-.
Qed.

Lemma constructed_counts r : constructed r -> is_blank (purpose r) = false
  /\ (forall i, input_tokens (measurement r) = Some i -> 0 <= i) /\ (forall o, output_tokens (measurement r) = Some o -> 0 <= o).
Proof.
  intros [Hm Hr]. unfold check_measurement in Hm. take_ok Hm u1 C1. take_ok Hm u2 C2. unfold _count in C1, C2. take_guard C1 D1. take_guard C2 D2.
  split; [|by rewrite <- !non_negative_spec]. unfold check_record in Hr. take_ok Hr u3 C3. cbn [rfold] in C3.
  take_ok C3 u4 F1. take_ok C3 u5 F2. take_ok C3 u6 F3. take_ok C3 u7 F4. take_guard C3 F5. by apply negb_true_iff in F5.
Qed.

Lemma check_calibration_ok c : is_blank (c_purpose c) = false ->
  (forall z, z ∈ [sample_count c; median_input_tokens c; median_output_tokens c; observed_net_savings_tokens c] -> 0 <= z) ->
  mem (confidence c) ["insufficient"; "provisional"; "calibrated"] = true -> check_calibration c = Ok tt.
Proof.
  intros Hb Hz Hc. unfold check_calibration. rewrite Hb, Hc. cbn [negb]. rewrite require_pass by done.
  match goal with |- rbind ?a _ = _ => enough (E : a = Ok tt) by by rewrite E end.
  apply rfold_unit. intros [z s] Hin. apply require_ok, Z.leb_le, Hz. by apply (list_elem_of_fmap_2 fst) in Hin.
Qed.

Lemma calibrate_purpose_ok n name records : is_blank name = false ->
  (forall x, x ∈ usable (grouped records name) -> 0 <= x.1.2 /\ 0 <= x.2) ->
  exists c, calibrate_purpose n name (grouped records name) = Ok c /\ calibration_of n records name c.
Proof.
  intros Hb Hs. unfold calibrate_purpose, calibration_of. set (samples := usable (grouped records name)) in *. set (count := Z.of_nat (length samples)).
  assert (Hi : 0 <= median_low (map (fun x => x.1.2) samples)).
  { apply median_bound. intros i Hin. apply list_elem_of_fmap in Hin as (x & -> & Hx). by apply Hs. }
  assert (Ho : 0 <= median_low (map (fun x => x.2) samples)).
  { apply median_bound. intros i Hin. apply list_elem_of_fmap in Hin as (x & -> & Hx). by apply Hs. }
  assert (Hv : 0 <= median_low (observed samples)).
  { apply median_bound. intros i Hin. apply list_elem_of_omap in Hin as ([[r a] o] & _ & E). destruct (avoided_input_tokens r); [|done].
    injection E as <-. lia. }
  assert (Hmid : if decide (samples = []) then median_low (map (fun x => x.1.2) samples) = 0 /\ median_low (map (fun x => x.2) samples) = 0
      else middle (median_low (map (fun x => x.1.2) samples)) (map (fun x => x.1.2) samples) /\ middle (median_low (map (fun x => x.2) samples)) (map (fun x => x.2) samples)).
  { case_decide as E; [by rewrite E|]. split; apply median_low_middle; by destruct samples. }
  destruct (count <? n) eqn:E1; [|destruct (n * 2 <=? count) eqn:E2]; (eexists; split;
    [rewrite check_calibration_ok; [reflexivity|done| |reflexivity]; intros z Hz; cbn in Hz; set_unfold in Hz;
     destruct Hz as [->|[->|[->|[->|[]]]]]; unfold count; lia|]);
    (split; [done|split; [done|split; [done|split; [|split; [cbn [observed_net_savings_tokens]; lia|cbn [observed_net_savings_tokens]; intros; bool_hyps; lia]]]]]); cbn [confidence]; [done|..].
  - rewrite (proj2 (Z.ltb_ge _ _)); [done|bool_hyps; lia].
  - rewrite (proj2 (Z.ltb_lt _ _)); [done|bool_hyps; lia].
Qed.

(** Calibration never fails on constructed records and reports exactly what
    they hold.  There is one calibration per purpose with a succeeded record,
    in the order of their names; it counts the succeeded records with both
    counts known, its medians are medians of those (or 0 without any), fewer
    samples than the minimum make it insufficient and claim no savings, and
    twice the minimum makes it calibrated. *)
Theorem calibrate_reports records n : 1 <= n -> (forall r, r ∈ records -> constructed r) ->
  exists cs, calibrate records n = Ok cs /\ Forall2 (calibration_of n records) (purposes records) cs
    /\ NoDup (purposes records) /\ forall name, name ∈ purposes records <-> exists r, r ∈ records /\ outcome r = "succeeded" /\ purpose r = name.
Proof.
  intros Hn Hr. assert (Hin : forall name, name ∈ purposes records <-> exists r, r ∈ records /\ outcome r = "succeeded" /\ purpose r = name).
  { intros name. unfold purposes, sorted_str. rewrite elem_of_sorted_by, elem_of_dedup. split.
    - intros (r & -> & H)%list_elem_of_fmap. apply list_elem_of_In, List.filter_In in H as [H E]. exists r. rewrite list_elem_of_In. by apply String.eqb_eq in E.
    - intros (r & H & E & <-). apply list_elem_of_fmap_2, list_elem_of_In, List.filter_In. rewrite <- list_elem_of_In. split; [done|by apply String.eqb_eq]. }
  unfold calibrate. rewrite require_pass by (by apply Z.leb_le).
  destruct (collect_Forall2 (fun name => calibrate_purpose n name (grouped records name)) (calibration_of n records) (purposes records)) as (cs & E & Hf).
  - intros name Hname. apply calibrate_purpose_ok.
    + apply Hin in Hname as (r & H & _ & <-). by apply constructed_counts, Hr.
    + intros x Hx. apply usable_sample in Hx as (Hx & Ei & Eo).
      assert (Hc : x.1.1 ∈ records).
      { unfold grouped, succeeded in Hx. apply list_elem_of_In, List.filter_In in Hx as [Hx _]. apply List.filter_In in Hx as [Hx _]. by apply list_elem_of_In. }
      apply Hr, constructed_counts in Hc as (_ & H1 & H2). auto.
  - exists cs. split; [done|]. split; [done|]. split; [|done]. unfold purposes, sorted_str. rewrite sorted_by_perm. apply NoDup_dedup.
Qed.

(** ** Each record is appended once *)

(** A process that records tokens, shares the evidence ledger with others that
    append events of their own types, and is restarted now and then. *)
Inductive token_op :=
| Append (r : TokenRecord) (now : string)
| Other (x : Ledger.appended)
| Restart.

(** The tracker, and the records whose call returned. *)
Definition world : Type := tracker * list (TokenRecord * string).
Definition token_step (w : world) (o : token_op) : world :=
  match o with
  | Append r now =>
      match (check_measurement (measurement r) ;? check_record r), record r now w.1 with
      | Ok _, (Ok _, t) => (t, w.2 ++ [(r, now)])
      | Ok _, (Raise _, t) => (t, w.2)
      | Raise _, _ => w
      end
  | Other x => ({| evidence := Ledger.append_one (evidence w.1) x; recorded := recorded w.1 |}, w.2)
  | Restart => match new_tracker (evidence w.1) with Ok t => (t, w.2) | Raise _ => w end
  end.
Definition token_run (ops : list token_op) : world :=
  fold_left token_step ops ({| evidence := Ledger.empty_ledger; recorded := ∅ |}, []).

Definition op_ok (o : token_op) : Prop :=
  match o with
  | Append r _ => AsciiJson.utf8_json (JObj (token_document r))
  | Other x => Ledger.payload_ok x /\ Ledger.ap_type x <> "token.accounting"
  | Restart => True
  end.

Definition entry (x : TokenRecord * string) : Ledger.appended :=
  Ledger.Appended (run_id x.1) "token.accounting" (role x.1) (record_payload x.1) x.2.
Definition is_token (x : Ledger.appended) : bool := String.eqb (Ledger.ap_type x) "token.accounting".
Definition digests (acc : list (TokenRecord * string)) : list string := map (fun x => record_digest x.1) acc.

Lemma ascii_is_text s : all_chars (fun c => code c <? 128)%N s = true -> AsciiJson.utf8_text s.
Proof. intros H. rewrite <- (append_empty_r s). apply AsciiJson.ascii_text; [done|constructor]. Qed.

Lemma hex_is_ascii s : all_chars is_hex s = true -> all_chars (fun c => code c <? 128)%N s = true.
Proof.
  induction s as [|a s IH]; [done|]. cbn. intros [Ha Hs]%andb_true_iff. rewrite (IH Hs), andb_true_r.
  destruct a as [[] [] [] [] [] [] [] []]; first [discriminate Ha|reflexivity].
Qed.

Lemma digest_text r : AsciiJson.utf8_text (record_digest r).
Proof.
  unfold record_digest, _canonical_digest. apply (AsciiJson.ascii_text "sha256:"); [reflexivity|].
  apply ascii_is_text, hex_is_ascii, sha256_hexdigest_shape.
Qed.

Lemma measurement_wf m : json_wf (measurement_document m) = true.
Proof. unfold measurement_document, opt_int, opt_text. repeat case_match; vm_compute; reflexivity. Qed.

Definition payload_names : list string := "record_digest" :: (token_document
  {| run_id := ""; role := ""; work_item_id := ""; outcome := ""; retry_index := 0;
     measurement := {| input_tokens := None; output_tokens := None; input_source := UNAVAILABLE; output_source := UNAVAILABLE; estimator := None;
                       cache_read_tokens := None; cache_write_tokens := None; cache_source := UNAVAILABLE |};
     context_manifest_digest := None; omitted_role_count := 0; purpose := ""; call_count := 0; fallback_count := 0;
     avoided_input_tokens := None; coordination_tokens := 0 |}).*1.
Lemma payload_names_NoDup : NoDup payload_names.
Proof. apply (bool_decide_unpack (NoDup payload_names)). vm_compute. exact I. Qed.

Lemma record_payload_ok r now : AsciiJson.utf8_json (JObj (token_document r)) -> Ledger.payload_ok (entry (r, now)).
Proof.
  intros H. split; cbn [Ledger.ap_payload entry fst].
  - unfold record_payload. apply Contracts.object_wf; [exact payload_names_NoDup|]. intros k v Hin.
    repeat (apply elem_of_cons in Hin as [[= _ ->]|Hin];
      [first [reflexivity|apply measurement_wf|by destruct (context_manifest_digest r)|by destruct (avoided_input_tokens r)]|]).
    by apply elem_of_nil in Hin.
  - unfold record_payload. apply AsciiJson.utf8_obj. apply Forall_cons. split; [|by apply AsciiJson.utf8_obj]. split; [|apply digest_text].
    apply ascii_is_text. reflexivity.
Qed.

(** What the constructor reads back of an entry. *)
Lemma stored_digest row x d : Ledger.event_type row = "token.accounting" -> norm (record_payload x) = JObj d ->
  recorded_digest (row, norm (record_payload x)) = Some (record_digest x).
Proof.
  intros Ht E. unfold recorded_digest. cbn [fst snd]. rewrite Ht, E. cbn [String.eqb].
  destruct (Contracts.stored_members (("record_digest", JStr (record_digest x)) :: token_document x) d payload_names_NoDup E) as [Hg _]. change (if String.eqb "token.accounting" "token.accounting" then as_str (get "record_digest" d) else None) with (as_str (get "record_digest" d)).
  rewrite Hg. reflexivity.
Qed.

Lemma omap_pair (p : Ledger.event_row * json) l :
  omap recorded_digest (p :: l) = match recorded_digest p with Some x => x :: omap recorded_digest l | None => omap recorded_digest l end.
Proof. reflexivity. Qed.

Lemma rows_digests rows xs acc : Forall2 Ledger.row_of rows xs -> List.filter is_token xs = map entry acc ->
  omap recorded_digest (zip rows (map (fun x => norm (Ledger.ap_payload x)) xs)) = digests acc
  /\ map Ledger.seen (List.filter (fun p => String.eqb (Ledger.event_type p.1) "token.accounting") (zip rows (map (fun x => norm (Ledger.ap_payload x)) xs)))
     = map (fun x => Ledger.given (entry x)) acc.
Proof.
  intros Hf. revert acc. induction Hf as [|r x rows xs (E1 & E2 & E3 & E4 & E5) Hf IH]; intros acc H; [by destruct acc|].
  cbn [List.filter] in H. cbn [map zip_with]. rewrite omap_pair. cbn [List.filter fst]. unfold is_token in H at 1. rewrite <- E2 in H.
  destruct (String.eqb (Ledger.event_type r) "token.accounting") eqn:Et.
  - destruct acc as [|[rec now] acc]; [done|]. cbn [map] in H. injection H as -> H. destruct (IH acc H) as [IH1 IH2].
    apply String.eqb_eq in Et. cbn [entry Ledger.ap_payload fst] in *. destruct (Contracts.norm_obj_members (("record_digest", JStr (record_digest rec)) :: token_document rec)) as (d & Ed & _).
    rewrite (stored_digest r rec d Et Ed). cbn [map digests]. split; [by rewrite IH1|]. rewrite IH2. f_equal.
    unfold Ledger.seen, Ledger.given. cbn in *. congruence.
  - destruct (IH acc H) as [IH1 IH2]. assert (En : recorded_digest (r, norm (Ledger.ap_payload x)) = None) by (unfold recorded_digest; cbn [fst]; by rewrite Et).
    by rewrite En.
Qed.

Record tokens_ok (w : world) (xs : list Ledger.appended) : Prop := {
  to_ledger : Ledger.ledger_ok (evidence w.1);
  to_rows : Forall2 Ledger.row_of (Ledger.l_events (evidence w.1)) xs;
  to_payloads : Forall Ledger.payload_ok xs;
  to_entries : List.filter is_token xs = map entry w.2;
  to_once : NoDup (digests w.2);
  to_recorded : recorded w.1 = list_to_set (digests w.2) }.

Lemma all_rows (rows : list Ledger.event_row) : List.filter (fun r => Ledger.of_run None (Ledger.run_id r)) rows = rows.
Proof. induction rows as [|r rows IH]; [done|]. cbn [List.filter Ledger.of_run] in *. by rewrite IH. Qed.

Lemma tokens_events w xs : tokens_ok w xs ->
  Ledger.events None (evidence w.1) = (Ok (zip (Ledger.l_events (evidence w.1)) (map (fun x => norm (Ledger.ap_payload x)) xs)), evidence w.1).
Proof.
  intros [Hl Hr Hp _ _ _]. assert (E := Ledger.events_ok None (evidence w.1) (map (fun x => norm (Ledger.ap_payload x)) xs) Hl). rewrite all_rows in E.
  apply E. clear E.
  induction Hr as [|r x rows ys (_ & _ & _ & E & _) Hr IH]; [constructor|]. apply Forall_cons in Hp as [[Hw Hu] Hp]. cbn [map].
  constructor; [|by apply IH]. rewrite E. by apply AsciiJson.loads_ascii.
Qed.

Lemma restart_same w xs : tokens_ok w xs -> new_tracker (evidence w.1) = Ok w.1.
Proof.
  intros H. unfold new_tracker. rewrite (tokens_events w xs H). cbn [fst rbind]. destruct H as [_ Hr _ He _ Hd].
  destruct (rows_digests _ _ _ Hr He) as [-> _]. rewrite <- Hd. by destruct w as [[]].
Qed.

Lemma record_accepts r now w xs : tokens_ok w xs ->
  record r now w.1 =
    if bool_decide (record_digest r ∈ digests w.2) then (raise TokenAccountingError "token record is already appended", w.1)
    else (Ok (Z.of_nat (length xs) + 1),
          {| evidence := Ledger.append_one (evidence w.1) (entry (r, now)); recorded := recorded w.1 ∪ {[record_digest r]} |}).
Proof.
  intros [Hl Hr _ _ _ Hd]. unfold record. rewrite Hd. rewrite (bool_decide_ext _ (record_digest r ∈ digests w.2)) by apply elem_of_list_to_set.
  destruct (bool_decide _); [done|]. rewrite Ledger.append_event_spec by done. rewrite <- (Forall2_length _ _ _ Hr).
  unfold Ledger.append_one. cbn [Ledger.ap_run Ledger.ap_type Ledger.ap_actor Ledger.ap_payload Ledger.ap_now entry fst snd].
  by rewrite Ledger.append_event_spec.
Qed.

Lemma append_row st x : Ledger.ledger_ok st -> exists row, Ledger.l_events (Ledger.append_one st x) = Ledger.l_events st ++ [row] /\ Ledger.row_of row x.
Proof. intros H. unfold Ledger.append_one. rewrite Ledger.append_event_spec by done. cbn. by eexists. Qed.

Lemma tokens_ok_append w xs x acc seen_digests : tokens_ok w xs -> Ledger.payload_ok x ->
  List.filter is_token [x] = map entry acc -> NoDup (digests (w.2 ++ acc)) -> seen_digests = list_to_set (digests (w.2 ++ acc)) ->
  tokens_ok ({| evidence := Ledger.append_one (evidence w.1) x; recorded := seen_digests |}, w.2 ++ acc) (xs ++ [x]).
Proof.
  intros [Hl Hr Hp He Hn Hd] Hx Hf Hnd ->. destruct (append_row _ x Hl) as (row & Er & Hrow). split; cbn [fst snd evidence recorded]; try done.
  - by apply Ledger.ledger_ok_append.
  - rewrite Er. by apply Forall2_app; [|constructor].
  - apply Forall_app. by split; [|constructor].
  - rewrite List.filter_app, map_app, He. by f_equal.
Qed.

Lemma token_step_ok w xs o : tokens_ok w xs -> op_ok o -> exists xs', tokens_ok (token_step w o) xs'.
Proof.
  intros H Ho. destruct o as [r now|x|]; cbn [token_step].
  - destruct (check_measurement (measurement r) ;? check_record r) as [u|e]; [|by exists xs]. rewrite (record_accepts r now w xs H).
    destruct (decide (record_digest r ∈ digests w.2)) as [Hin|Hin].
    + rewrite bool_decide_eq_true_2 by done. exists xs. by destruct w.
    + rewrite bool_decide_eq_false_2 by done. exists (xs ++ [entry (r, now)]). apply tokens_ok_append; [done|by apply record_payload_ok|done| |].
      * unfold digests. rewrite map_app. apply NoDup_app. split; [apply H|]. split; [|apply NoDup_singleton].
        intros y Hy E. apply list_elem_of_singleton in E as ->. done.
      * unfold digests. rewrite map_app, list_to_set_app_L, (to_recorded _ _ H). cbn [map list_to_set fst]. by rewrite (right_id_L ∅ (∪)).
  - destruct Ho as [Hx Ht]. exists (xs ++ [x]). rewrite <- (app_nil_r w.2). apply tokens_ok_append; [done|done| | |].
    + cbn. unfold is_token. apply String.eqb_neq in Ht. by rewrite Ht.
    + rewrite app_nil_r. apply H.
    + rewrite app_nil_r. apply H.
  - rewrite (restart_same w xs H). exists xs. by destruct w.
Qed.

Lemma token_run_ok ops : Forall op_ok ops -> exists xs, tokens_ok (token_run ops) xs.
Proof.
  unfold token_run. induction ops as [|o ops IH] using rev_ind; intros H.
  - exists []. split; try done. constructor.
  - apply Forall_app in H as [H Ho]. destruct (IH H) as [xs Hw]. rewrite fold_left_app. cbn. apply (token_step_ok _ xs); [done|]. by apply Forall_cons in Ho as [Ho _].
Qed.

(** C22: every token record is appended once.  Whatever records are made, refused
    and repeated, whatever other events are appended to the same ledger, and
    however often the token ledger is restarted over it: the token events of
    the evidence ledger are exactly the records whose call returned, in order
    and with their documents; no two have the same digest; a restart restores
    exactly the state that was there; and a record is accepted precisely when
    its digest was not recorded before. *)
Theorem token_records_append_once ops : Forall op_ok ops ->
  let t := (token_run ops).1 in
  let accepted := (token_run ops).2 in
  NoDup (digests accepted) /\ recorded t = list_to_set (digests accepted) /\ new_tracker (evidence t) = Ok t
  /\ (exists rows, Ledger.events None (evidence t) = (Ok rows, evidence t)
        /\ map Ledger.seen (List.filter (fun p => String.eqb (Ledger.event_type p.1) "token.accounting") rows)
           = map (fun x => Ledger.given (entry x)) accepted)
  /\ forall r now, is_ok (record r now t).1 = negb (bool_decide (record_digest r ∈ digests accepted)).
Proof.
  intros Ho t accepted. destruct (token_run_ok ops Ho) as [xs H]. fold t in H. assert (Hs := restart_same _ _ H). assert (He := tokens_events _ _ H).
  destruct (H) as [_ Hr _ Hf Hn Hd]. split; [done|]. split; [done|]. split; [done|]. split.
  - eexists. split; [exact He|]. by apply (rows_digests _ _ _ Hr Hf).
  - intros r now. unfold t. rewrite (record_accepts r now _ _ H). unfold accepted. by destruct (bool_decide _).
Qed.

(** ** A sample run *)

Module SampleTokens.
Definition measured (i o : Z) : TokenMeasurement :=
  {| input_tokens := Some i; output_tokens := Some o; input_source := MEASURED; output_source := MEASURED; estimator := None;
     cache_read_tokens := None; cache_write_tokens := None; cache_source := UNAVAILABLE |}.
Definition call (result : string) (retry i o : Z) : TokenRecord :=
  {| run_id := "run"; role := "builder"; work_item_id := "w"; outcome := result; retry_index := retry; measurement := measured i o;
     context_manifest_digest := None; omitted_role_count := 0; purpose := "model_call"; call_count := 1; fallback_count := 0;
     avoided_input_tokens := Some 100; coordination_tokens := 5 |}.
Definition calls : list TokenRecord := [call "succeeded" 0 30 10; call "failed" 0 1 1; call "succeeded" 1 20 40; call "succeeded" 2 10 20].

Example median_calibration : calibrate calls 2 = Ok [{| c_purpose := "model_call"; sample_count := 3; median_input_tokens := 20;
  median_output_tokens := 20; observed_net_savings_tokens := 55; confidence := "provisional" |}].
Proof. vm_compute. reflexivity. Qed.

Lemma calibrate_order_independent_witness : calibrate calls 2 = calibrate (rev calls) 2.
Proof. apply (calibrate_order_independent calls (rev calls) 2). apply Permutation_rev. Defined.

Lemma calibrate_reports_witness : exists cs, calibrate calls 2 = Ok cs /\ Forall2 (calibration_of 2 calls) (purposes calls) cs
  /\ NoDup (purposes calls) /\ forall name, name ∈ purposes calls <-> exists r, r ∈ calls /\ outcome r = "succeeded" /\ purpose r = name.
Proof.
  apply (calibrate_reports calls 2); [lia|]. intros r H.
  repeat (apply elem_of_cons in H as [->|H]; [split; vm_compute; reflexivity|]). by apply elem_of_nil in H.
Defined.

(** A repeated record is refused, also after a restart. *)
Definition history : list token_op :=
  [Append (call "succeeded" 0 30 10) "t1"; Other (Ledger.Appended "run" "note" "builder" JNull "t2"); Restart;
   Append (call "succeeded" 0 30 10) "t3"; Append (call "succeeded" 1 20 40) "t4"].
Lemma history_ok : Forall op_ok history.
Proof.
  assert (Hc : forall result retry i o, all_chars (fun c => code c <? 128)%N result = true ->
    AsciiJson.utf8_json (JObj (token_document (call result retry i o)))).
  { intros result retry i o Hr. apply ascii_is_text in Hr. cbn.
    repeat split; first [exact Hr|apply ascii_is_text; reflexivity]. }
  repeat constructor; cbn [op_ok]; try (by apply Hc); try done.
Qed.
Lemma token_records_append_once_witness :
  let t := (token_run history).1 in
  let accepted := (token_run history).2 in
  NoDup (digests accepted) /\ recorded t = list_to_set (digests accepted) /\ new_tracker (evidence t) = Ok t
  /\ (exists rows, Ledger.events None (evidence t) = (Ok rows, evidence t)
        /\ map Ledger.seen (List.filter (fun p => String.eqb (Ledger.event_type p.1) "token.accounting") rows)
           = map (fun x => Ledger.given (entry x)) accepted)
  /\ forall r now, is_ok (record r now t).1 = negb (bool_decide (record_digest r ∈ digests accepted)).
Proof. exact (token_records_append_once history history_ok). Defined.
Example accepted_twice : map snd (token_run history).2 = ["t1"; "t4"].
Proof. vm_compute. reflexivity. Qed.
End SampleTokens.

End TokenLedger.
