(* ===== verification/Cohort.v ===== *)
(** * Cohort execution policy

    [cohort_policy.py]: which checkpoints let work continue, which defer
    assurance to the end of a cohort and which block, and the policy document.
    An argument whose type the code tests is an [option]: [None] stands for a
    value of another type. *)

From S2P Require Import Prelude Canonical PyLib Policy Contracts.

Module Cohort.

Inductive CohortExecutionMode := STRICT | COHORT.
Inductive CohortPhase := IMPLEMENTATION | CONVERGENCE | CLOSEOUT.
Inductive EffectClass :=
| ROUTINE_REVERSIBLE | SECRET_ACCESS | DESTRUCTIVE | IRREVERSIBLE | MISSING_AUTHORITY | SPENDING | DEPLOYMENT | PROTECTED_MERGE.
Inductive DeferredObligation := ROUTINE_REVIEW | EVIDENCE_AGGREGATION | INDEPENDENT_VERIFICATION.
Inductive CheckpointDisposition := PROCEED | DEFER_TO_COHORT_END | REQUIRE_NOW | BLOCKED.

#[global] Instance mode_eq_dec : EqDecision CohortExecutionMode.
Proof. solve_decision. Defined.
#[global] Instance phase_eq_dec : EqDecision CohortPhase.
Proof. solve_decision. Defined.
#[global] Instance effect_eq_dec : EqDecision EffectClass.
Proof. solve_decision. Defined.
#[global] Instance checkpoint_disposition_eq_dec : EqDecision CheckpointDisposition.
Proof. solve_decision. Defined.

Definition mode_value (m : CohortExecutionMode) : string := match m with STRICT => "strict" | COHORT => "cohort" end.
Definition effect_value (e : EffectClass) : string :=
  match e with
  | ROUTINE_REVERSIBLE => "routine_reversible" | SECRET_ACCESS => "secret_access" | DESTRUCTIVE => "destructive"
  | IRREVERSIBLE => "irreversible" | MISSING_AUTHORITY => "missing_authority" | SPENDING => "spending"
  | DEPLOYMENT => "deployment" | PROTECTED_MERGE => "protected_merge"
  end.

Record CheckpointDecision := {
  d_disposition : CheckpointDisposition;
  d_effect : EffectClass;
  d_phase : CohortPhase;
  d_reason : string;
  obligations : list DeferredObligation }.

Definition may_continue (d : CheckpointDecision) : bool := bool_decide (d_disposition d ∈ [PROCEED; DEFER_TO_COHORT_END]).

(** ** The policy *)

Record CohortExecutionPolicy := { mode : CohortExecutionMode; max_parallel_packages : Z }.

Definition CONVERGENCE_GATE : string := "all_runnable_packages_terminal".
Definition HARD_GATE_EFFECTS : list EffectClass :=
  [SECRET_ACCESS; DESTRUCTIVE; IRREVERSIBLE; MISSING_AUTHORITY; SPENDING; DEPLOYMENT; PROTECTED_MERGE].
Definition END_LOADED_OBLIGATIONS : list DeferredObligation := [ROUTINE_REVIEW; EVIDENCE_AGGREGATION; INDEPENDENT_VERIFICATION].

(** [CohortExecutionPolicy.__post_init__] *)
Definition check_policy (p : CohortExecutionPolicy) : result unit :=
  require (1 <=? max_parallel_packages p) CohortPolicyError "max_parallel_packages must be a positive integer".

Definition policy_to_document (p : CohortExecutionPolicy) : json :=
  JObj [("schema_version", JInt 1); ("execution_mode", JStr (mode_value (mode p)));
        ("max_parallel_packages", JInt (max_parallel_packages p)); ("convergence_gate", JStr CONVERGENCE_GATE)].
Definition cohort_policy_digest (p : CohortExecutionPolicy) : string := canonical_digest (policy_to_document p).

Definition policy_fields : list string := ["schema_version"; "execution_mode"; "max_parallel_packages"; "convergence_gate"].

Definition policy_from_document (d : Contracts.contract) : result CohortExecutionPolicy :=
  require (Contracts.subset d.*1 policy_fields && Contracts.subset policy_fields d.*1 && py_eq (get "schema_version" d) (JInt 1)) CohortPolicyError
    "cohort execution policy has an unknown shape or schema" ;?
  require (py_eq (get "convergence_gate" d) (JStr CONVERGENCE_GATE)) CohortPolicyError "the cohort convergence gate cannot be weakened" ;?
  match get "max_parallel_packages" d with
  | JInt n =>
      match Contracts.enum_of "CohortExecutionMode" [STRICT; COHORT] mode_value (get "execution_mode" d) with
      | Ok m => let p := {| mode := m; max_parallel_packages := n |} in check_policy p ;? Ok p
      | Raise _ => raise CohortPolicyError "unknown cohort execution mode"
      end
  | _ => raise CohortPolicyError "max_parallel_packages must be an integer"
  end.

(** ** Checkpoints *)

Definition checkpoint (p : CohortExecutionPolicy) (effect : option EffectClass) (phase : option CohortPhase) (authority_present : bool)
    : CheckpointDecision :=
  match effect, phase with
  | Some given, Some ph =>
      let e := if authority_present then given else MISSING_AUTHORITY in
      if bool_decide (e ∈ HARD_GATE_EFFECTS) then
        {| d_disposition := BLOCKED; d_effect := e; d_phase := ph;
           d_reason := (effect_value e +:+ " requires an immediate fail-closed gate")%stdpp; obligations := [] |}
      else if bool_decide (mode p = COHORT) && bool_decide (ph = IMPLEMENTATION) then
        {| d_disposition := DEFER_TO_COHORT_END; d_effect := e; d_phase := ph;
           d_reason := "routine reversible assurance is batched at cohort convergence"; obligations := END_LOADED_OBLIGATIONS |}
      else
        {| d_disposition := REQUIRE_NOW; d_effect := e; d_phase := ph; d_reason := "routine assurance is required at this checkpoint";
           obligations := END_LOADED_OBLIGATIONS |}
  | _, _ =>
      {| d_disposition := BLOCKED; d_effect := MISSING_AUTHORITY; d_phase := IMPLEMENTATION; d_reason := "untyped checkpoint input is denied";
         obligations := [] |}
  end.

Definition classify_action (action : option Policy.Action) (authority_present protected_target destructive irreversible : bool) : EffectClass :=
  match action with
  | Some a =>
      if negb authority_present then MISSING_AUTHORITY
      else if bool_decide (a = Policy.MANAGE_SECRETS) then SECRET_ACCESS
      else if bool_decide (a = Policy.SPEND_MONEY) then SPENDING
      else if bool_decide (a = Policy.DEPLOY) then DEPLOYMENT
      else if bool_decide (a = Policy.MERGE_PULL_REQUEST) && protected_target then PROTECTED_MERGE
      else if destructive then DESTRUCTIVE
      else if irreversible then IRREVERSIBLE
      else ROUTINE_REVERSIBLE
  | None => MISSING_AUTHORITY
  end.

Definition checkpoint_action (p : CohortExecutionPolicy) (action : option Policy.Action) (phase : option CohortPhase)
    (authority_present protected_target destructive irreversible : bool) : CheckpointDecision :=
  checkpoint p (Some (classify_action action authority_present protected_target destructive irreversible)) phase authority_present.

(** ** The gates *)

Lemma continue_iff p effect phase authority : may_continue (checkpoint p effect phase authority) = true <->
  mode p = COHORT /\ effect = Some ROUTINE_REVERSIBLE /\ phase = Some IMPLEMENTATION /\ authority = true.
Proof.
  destruct p as [[] n], effect as [[]|], phase as [[]|], authority; vm_compute; split; first [discriminate|intros (? & ? & ? & ?); discriminate|auto].
Qed.

Lemma routine_bool a protected destructive irreversible :
  bool_decide (classify_action (Some a) true protected destructive irreversible = ROUTINE_REVERSIBLE)
  = negb destructive && negb irreversible && bool_decide (a ∉ [Policy.MANAGE_SECRETS; Policy.SPEND_MONEY; Policy.DEPLOY])
    && (negb (bool_decide (a = Policy.MERGE_PULL_REQUEST)) || negb protected).
Proof. destruct a, protected, destructive, irreversible; vm_compute; reflexivity. Qed.

Lemma routine_iff a protected destructive irreversible :
  classify_action (Some a) true protected destructive irreversible = ROUTINE_REVERSIBLE <->
  destructive = false /\ irreversible = false /\ a ∉ [Policy.MANAGE_SECRETS; Policy.SPEND_MONEY; Policy.DEPLOY]
  /\ (a = Policy.MERGE_PULL_REQUEST -> protected = false).
Proof.
  rewrite <- (bool_decide_eq_true (_ = ROUTINE_REVERSIBLE)), routine_bool, !andb_true_iff, !negb_true_iff, bool_decide_eq_true, orb_true_iff, !negb_true_iff, bool_decide_eq_false.
  split; [intros [[[H1 H2] H3] H4]; do 3 (split; [done|]); intros E; by destruct H4|].
  intros (H1 & H2 & H3 & H4). split; [done|]. destruct protected; [left; intros E; by discriminate (H4 E)|by right].
Qed.

(** The cohort policy never lets a gated effect through.  Whatever the mode
    and the number of parallel packages, work continues past a checkpoint for
    an action only when the mode is the cohort mode, the phase implementation,
    the authority present and the action typed, reversible, not destructive,
    no access to secrets, no spending, no deployment and no merge into a
    protected target; and then all three end-loaded obligations are owed.  With
    authority, a routine effect anywhere else requires its assurance now, with
    the same obligations, and everything else is blocked. *)
Theorem checkpoints_fail_closed p action phase authority protected destructive irreversible :
  let d := checkpoint_action p action phase authority protected destructive irreversible in
  (may_continue d = true <->
     mode p = COHORT /\ phase = Some IMPLEMENTATION /\ authority = true /\ destructive = false /\ irreversible = false
     /\ exists a, action = Some a /\ a ∉ [Policy.MANAGE_SECRETS; Policy.SPEND_MONEY; Policy.DEPLOY]
                  /\ (a = Policy.MERGE_PULL_REQUEST -> protected = false))
  /\ (d_disposition d = BLOCKED \/ obligations d = END_LOADED_OBLIGATIONS)
  /\ (d_disposition d = BLOCKED <-> phase = None \/ d_effect d ∈ HARD_GATE_EFFECTS).
Proof.
  intros d. split; [|split].
  - unfold d, checkpoint_action. rewrite continue_iff. destruct action as [a|].
    + destruct authority; [|split; [by intros (_ & [=] & _)|by intros (_ & _ & [=] & _)]]. split.
      * intros (K1 & K2 & K3 & _). assert (K : classify_action (Some a) true protected destructive irreversible = ROUTINE_REVERSIBLE) by congruence.
        apply routine_iff in K as (K4 & K5 & K6 & K7). do 5 (split; [done|]). by exists a.
      * intros (K1 & K2 & _ & K4 & K5 & b & [= <-] & K6 & K7). split; [done|]. split; [|done]. f_equal. by apply routine_iff.
    + split; [by intros (_ & [=] & _)|by intros (_ & _ & _ & _ & _ & a & [=] & _)].
  - unfold d, checkpoint_action, checkpoint. destruct phase as [ph|]; [|by left]. generalize (classify_action action authority protected destructive irreversible).
    intros e. repeat case_match; auto.
  - unfold d, checkpoint_action, checkpoint. generalize (classify_action action authority protected destructive irreversible). intros e.
    destruct phase as [ph|]; [|cbn; split; [by left|done]]. generalize (if authority then e else MISSING_AUTHORITY). clear e. intros e.
    destruct (decide (e ∈ HARD_GATE_EFFECTS)) as [He|He]; [rewrite bool_decide_eq_true_2 by done; cbn [d_disposition d_effect]; split; [by right|done]|].
    rewrite bool_decide_eq_false_2 by done. destruct (_ && _); cbn [d_disposition d_effect]; (split; [done|by intros [?|?]]).
Qed.
End Cohort.
