(* ===== verification/CohortJournal.v ===== *)
(** * The cohort journal

    [cohort_journal.py]: one file per event, each linked to the digest of its
    predecessor, published with a hard link that fails when the name is taken,
    and verified in full on every read.  A disk is the directories of the runs,
    a directory its files; a process is a [FileCohortJournalStore], of which
    several may work on one disk.  Payloads carry no floating-point numbers
    and files hold UTF-8 text; the lock of a store and the temporary files, which
    the reader does not list, show only as the steps a process takes. *)

From S2P Require Import Prelude Sha256 Canonical PyLib Contracts JsonLines.
From Stdlib Require Import Ascii.

Module CohortJournal.

(** [CohortJournalEventKind] *)
Inductive kind := KICKOFF | DISPATCH | PACKAGE_RESULT | CONVERGENCE | VERIFICATION | REPAIR_ATTEMPT | REPAIR_RESULT | TERMINAL_EVIDENCE | RUN_COMPLETED.

#[global] Instance kind_eq_dec : EqDecision kind.
Proof. solve_decision. Defined.

Definition kind_value (k : kind) : string :=
  match k with
  | KICKOFF => "kickoff" | DISPATCH => "dispatch" | PACKAGE_RESULT => "package_result" | CONVERGENCE => "convergence"
  | VERIFICATION => "verification" | REPAIR_ATTEMPT => "repair_attempt" | REPAIR_RESULT => "repair_result"
  | TERMINAL_EVIDENCE => "terminal_evidence" | RUN_COMPLETED => "run_completed"
  end.
Definition kinds : list kind :=
  [KICKOFF; DISPATCH; PACKAGE_RESULT; CONVERGENCE; VERIFICATION; REPAIR_ATTEMPT; REPAIR_RESULT; TERMINAL_EVIDENCE; RUN_COMPLETED].

Record journal_event := {
  j_sequence : Z;
  j_run : string;
  j_kind : kind;
  j_payload : Contracts.contract;
  j_recorded : string;
  j_previous : option string;
  j_digest : string }.

Definition denied {A} (message : string) : result A := raise CohortJournalError message.
Definition _validate_run_id (run : string) : result unit := require (negb (is_blank run)) CohortJournalError "cohort run id must be nonempty".

(** [_canonical_mapping] *)
Definition _canonical_mapping (payload : Contracts.contract) : result Contracts.contract :=
  match loads (canonical_bytes (JObj payload)) with
  | Some (JObj d) => Ok d
  | Some _ => denied "journal payload must be an object"
  | None => denied "journal payload must be canonical JSON"
  end.

(** ** Files *)

Notation disk := (gmap string (gmap string string)).
Definition run_root (run : string) : string := drop_bytes 7 (canonical_digest (JObj [("run_id", JStr run)])).

(** Decimal digits of a number below [10 ^ w], and the format [:08d]. *)
Fixpoint digits (w : nat) (n : Z) : string :=
  match w with
  | O => EmptyString
  | S w' => String (ascii_of_N (Z.to_N (48 + n / 10 ^ Z.of_nat w'))) (digits w' (n mod 10 ^ Z.of_nat w'))
  end.
Definition eight_digits (n : Z) : string := if n <? 10 ^ 8 then digits 8 n else str_of_Z n.
Definition event_name (n : Z) : string := ("event-" +:+ eight_digits n +:+ ".json")%stdpp.

(** [sorted(run_root.glob("event-*.json"))] *)
Definition is_event_file (name : string) : bool :=
  (11 <=? String.length name)%nat && startswith "event-" name && String.eqb (drop_bytes (String.length name - 5) name) ".json".
Definition event_files (files : gmap string string) : list (string * string) :=
  sorted_by fst (List.filter (fun f => is_event_file f.1) (map_to_list files)).

Definition journal_fields : list string :=
  ["schema_version"; "sequence"; "run_id"; "kind"; "payload"; "recorded_at"; "previous_digest"; "event_digest"].
Definition _body (document : Contracts.contract) : Contracts.contract := pop_key "event_digest" document.

(** [_validate_transition] *)
Definition has_kind (k : kind) (records : list journal_event) : bool := existsb (fun r => bool_decide (j_kind r = k)) records.
Definition _validate_transition (records : list journal_event) (k : kind) (payload : Contracts.contract) : result unit :=
  match last records with
  | None => require (bool_decide (k = KICKOFF)) CohortJournalError "cohort journal must begin with kickoff"
  | Some final =>
      require (negb (bool_decide (k = KICKOFF))) CohortJournalError "cohort kickoff is immutable" ;?
      require (negb (bool_decide (j_kind final = RUN_COMPLETED))) CohortJournalError "completed cohort journal is terminal" ;?
      require (negb (bool_decide (k = RUN_COMPLETED) && has_kind RUN_COMPLETED records)) CohortJournalError
        "cohort completion may be recorded only once" ;?
      require (negb (bool_decide (k = REPAIR_ATTEMPT) && has_kind REPAIR_ATTEMPT records)) CohortJournalError
        "cohort repair may be attempted only once" ;?
      (if bool_decide (k = REPAIR_RESULT) then
         require (has_kind REPAIR_ATTEMPT records) CohortJournalError "repair result requires a repair attempt" ;?
         require (negb (has_kind REPAIR_RESULT records)) CohortJournalError "cohort repair result may be recorded only once"
       else Ok tt) ;?
      (if bool_decide (k = PACKAGE_RESULT) then
         match get "package_id" payload with
         | JStr id =>
             require (negb (String.eqb id "")) CohortJournalError "package result requires a package id" ;?
             require (negb (existsb (fun r => bool_decide (j_kind r = PACKAGE_RESULT) && py_eq (get "package_id" (j_payload r)) (JStr id)) records))
               CohortJournalError ("package " +:+ id +:+ " completion may be recorded only once")%stdpp
         | _ => denied "package result requires a package id"
         end
       else Ok tt)
  end.

(** ** Reading *)

Definition last_event_digest (records : list journal_event) : option string :=
  match last records with Some r => Some (j_digest r) | None => None end.

(** One turn of the loop over the files. *)
Definition read_event (run : string) (records : list journal_event) (file : string * string) : result (list journal_event) :=
  let sequence := Z.of_nat (length records) + 1 in
  match loads file.2 with
  | Some (JObj d) =>
      require (Contracts.subset d.*1 journal_fields && forallb (fun k => has k d) journal_fields) CohortJournalError "invalid cohort journal event fields" ;?
      match get "payload" d, get "recorded_at" d with
      | JObj payload, JStr recorded =>
          require (String.eqb file.1 (event_name sequence) && py_eq (get "schema_version" d) (JInt 1)
                   && match get "sequence" d with JInt n => n =? sequence | _ => false end
                   && py_eq (get "run_id" d) (JStr run) && py_eq (get "previous_digest" d) (Contracts.opt_str (last_event_digest records))
                   && negb (String.eqb recorded "") && py_eq (get "event_digest" d) (JStr (canonical_digest (JObj (_body d))))
                   && String.eqb file.2 (canonical_bytes (JObj d) +:+ newline)%stdpp) CohortJournalError "cohort journal digest chain mismatch" ;?
          match Contracts.enum_of "CohortJournalEventKind" kinds kind_value (get "kind" d) with
          | Ok k =>
              _validate_transition records k payload ;?
              Ok (records ++ [{| j_sequence := sequence; j_run := run; j_kind := k; j_payload := payload; j_recorded := recorded;
                                 j_previous := last_event_digest records; j_digest := canonical_digest (JObj (_body d)) |}])
          | Raise _ => denied "cohort journal cannot be safely replayed"
          end
      | _, _ => denied "cohort journal digest chain mismatch"
      end
  | Some _ => denied "invalid cohort journal event fields"
  | None => denied "cohort journal cannot be safely replayed"
  end.
Definition read_files (run : string) (files : list (string * string)) : result (list journal_event) := rfold (read_event run) [] files.

(** [_seen]: how many events of a run were observed, and the digest of the last. *)
Notation observations := (gmap string (nat * string)).

Definition _read (d : disk) (seen : observations) (run : string) : result (list journal_event * observations) :=
  _validate_run_id run ;?
  match d !! run_root run with
  | None => Ok ([], seen)
  | Some files =>
      let? records := read_files run (event_files files) in
      require (match seen !! run with
               | Some (count, digest) => match records !! (count - 1)%nat with Some r => String.eqb (j_digest r) digest | None => false end
               | None => true
               end) CohortJournalError "previously observed cohort history changed" ;?
      Ok (records, match last records with Some r => <[run := (length records, j_digest r)]> seen | None => seen end)
  end.

(** [events] *)
Definition events (d : disk) (seen : observations) (run : string) : result (list journal_event * observations) := _read d seen run.

(** ** Appending *)

Definition body_of (run : string) (records : list journal_event) (k : kind) (payload : Contracts.contract) (now : string) : Contracts.contract :=
  [("schema_version", JInt 1); ("sequence", JInt (Z.of_nat (length records) + 1)); ("run_id", JStr run); ("kind", JStr (kind_value k));
   ("payload", JObj payload); ("recorded_at", JStr now); ("previous_digest", Contracts.opt_str (last_event_digest records))].
Definition document_of (body : Contracts.contract) : Contracts.contract := body ++ [("event_digest", JStr (canonical_digest (JObj body)))].
Definition file_bytes (body : Contracts.contract) : string := (canonical_bytes (JObj (document_of body)) +:+ newline)%stdpp.

(** What is ready to be linked: the name, the bytes and the event returned. *)
Record prepared := { pr_run : string; pr_name : string; pr_bytes : string; pr_event : journal_event }.

(** What a store works on: the disk and what it has seen. *)
Definition journal_store : Type := disk * observations.
Definition make_root (d : disk) (run : string) : disk :=
  match d !! run_root run with Some _ => d | None => <[run_root run := ∅]> d end.

(** [append] up to the hard link, at the moment [now] *)
Definition prepare_event (run : string) (k : kind) (payload : Contracts.contract) (now : string) : M journal_store prepared := fun s =>
  match (_validate_run_id run ;? _canonical_mapping payload) with
  | Raise e => (Raise e, s)
  | Ok body_payload =>
      match _read s.1 s.2 run with
      | Raise e => (Raise e, s)
      | Ok (records, seen) =>
          match _validate_transition records k body_payload with
          | Raise e => (Raise e, (s.1, seen))
          | Ok _ =>
              let body := body_of run records k body_payload now in
              let n := Z.of_nat (length records) + 1 in
              (Ok {| pr_run := run; pr_name := event_name n; pr_bytes := file_bytes body;
                     pr_event := {| j_sequence := n; j_run := run; j_kind := k; j_payload := body_payload; j_recorded := now;
                                    j_previous := last_event_digest records; j_digest := canonical_digest (JObj body) |} |},
               (make_root s.1 run, seen))
          end
      end
  end.

(** The link fails when the name is taken. *)
Definition publish (p : prepared) : M journal_store journal_event := fun s =>
  match s.1 !! run_root (pr_run p) with
  | None => (denied "cohort journal append failed", s)
  | Some files =>
      match files !! pr_name p with
      | Some _ => (denied "cohort journal append failed", s)
      | None => (Ok (pr_event p),
                 (<[run_root (pr_run p) := <[pr_name p := pr_bytes p]> files]> s.1,
                  <[pr_run p := (Z.to_nat (j_sequence (pr_event p)), j_digest (pr_event p))]> s.2))
      end
  end.

(** [append] without another process in between *)
Definition append (run : string) (k : kind) (payload : Contracts.contract) (now : string) : M journal_store journal_event :=
  let* p := prepare_event run k payload now in
  publish p.

Import Contracts.

(** ** Names and their order *)

Lemma length_digits w n : String.length (digits w n) = w.
Proof. revert n. induction w as [|w IH]; intros n; [done|]. cbn [digits String.length]. by rewrite IH. Qed.

Lemma compare_append x y s t : String.length x = String.length y -> String.compare x y = Lt ->
  String.compare (x +:+ s)%stdpp (y +:+ t)%stdpp = Lt.
Proof.
  revert y. induction x as [|a x IH]; intros [|b y] Hl H; try done. rewrite !append_cons. cbn in *.
  destruct (Ascii.compare a b); [|done..]. apply IH; [lia|done].
Qed.

Lemma digits_increase w a b : 0 <= a < b -> b < 10 ^ Z.of_nat w -> String.compare (digits w a) (digits w b) = Lt.
Proof.
  revert a b. induction w as [|w IH]; intros a b Hab Hb; [change (10 ^ Z.of_nat 0) with 1 in Hb; lia|].
  rewrite Nat2Z.inj_succ, Z.pow_succ_r in Hb by lia. assert (Hp : 0 < 10 ^ Z.of_nat w) by (apply Z.pow_pos_nonneg; lia).
  set (p := 10 ^ Z.of_nat w) in *. cbn [digits String.compare]. fold p. unfold Ascii.compare.
  assert (Hq : 0 <= a / p <= b / p /\ b / p < 10).
  { split; [split; [by apply Z.div_pos; lia|by apply Z.div_le_mono; lia]|by apply Z.div_lt_upper_bound; lia]. }
  rewrite !N_ascii_embedding by lia. destruct (Z.eq_dec (a / p) (b / p)) as [E|E].
  - rewrite E, N.compare_refl. apply IH; [|by apply Z.mod_pos_bound]. split; [by apply Z.mod_pos_bound|].
    rewrite !Z.mod_eq, E by lia. lia.
  - replace (Z.to_N (48 + a / p) ?= Z.to_N (48 + b / p))%N with Lt; [done|]. symmetry. apply N.compare_lt_iff. lia.
Qed.

Definition in_eight (n : Z) : Prop := 0 <= n < 10 ^ 8.

Lemma event_names_increase a b : in_eight a -> in_eight b -> a < b -> String.compare (event_name a) (event_name b) = Lt.
Proof.
  unfold in_eight. intros Ha Hb H. unfold event_name, eight_digits. rewrite !(proj2 (Z.ltb_lt _ _)) by lia.
  change (String.compare (digits 8 a +:+ ".json") (digits 8 b +:+ ".json") = Lt)%stdpp.
  apply compare_append; [by rewrite !length_digits|]. apply digits_increase; [lia|]. change (10 ^ Z.of_nat 8) with (10 ^ 8). lia.
Qed.

Lemma drop_append x y : drop_bytes (String.length x) (x +:+ y)%stdpp = y.
Proof.
  unfold drop_bytes. rewrite length_append. replace (String.length x + String.length y - String.length x)%nat with (String.length y) by lia.
  induction x as [|a x IH]; [apply substring_all|exact IH].
Qed.

Lemma event_name_found n : in_eight n -> is_event_file (event_name n) = true.
Proof.
  intros Hn. unfold is_event_file. assert (El : String.length (event_name n) = 19%nat).
  { unfold event_name, eight_digits. rewrite (proj2 (Z.ltb_lt _ _)) by apply Hn. rewrite !length_append, length_digits. reflexivity. }
  rewrite El. change (19 - 5)%nat with 14%nat. change (11 <=? 19)%nat with true. cbn [andb].
  assert (E : event_name n = (("event-" +:+ digits 8 n) +:+ ".json")%stdpp).
  { unfold event_name, eight_digits. rewrite (proj2 (Z.ltb_lt _ _)) by apply Hn. by rewrite append_assoc. }
  replace 14%nat with (String.length ("event-" +:+ digits 8 n)%stdpp) by (rewrite length_append, length_digits; reflexivity).
  rewrite E, drop_append. by rewrite andb_true_r.
Qed.

(** A file added behind the last one is listed last. *)
Lemma sorted_listing (l l' : list (string * string)) : NoDup l.*1 -> l ≡ₚ l' -> StronglySorted (key_le fst) l' -> sorted_by fst l = l'.
Proof.
  intros Hn Hp Hs. apply (StronglySorted_unique_strong (key_le fst)); [|apply sorted_by_sorted|done|by rewrite sorted_by_perm].
  intros [k1 v1] [k2 v2] H1 H2 H12 H21. unfold key_le in *; cbn in *. assert (k1 = k2) as <- by (by apply (anti_symm String.le)).
  f_equal. rewrite sorted_by_perm in H1. rewrite <- Hp in H2. apply (lookup_key_NoDup _ _ _ Hn) in H1, H2. congruence.
Qed.

Lemma listed_names (files : gmap string string) : NoDup (List.filter (fun f => is_event_file f.1) (map_to_list files)).*1.
Proof. eapply sublist_NoDup; [|apply fmap_sublist, filter_sublist]. apply NoDup_fst_map_to_list. Qed.

Lemma elem_event_files (files : gmap string string) f : f ∈ event_files files <-> files !! f.1 = Some f.2 /\ is_event_file f.1 = true.
Proof.
  unfold event_files. rewrite elem_of_sorted_by, !list_elem_of_In, filter_In, <- list_elem_of_In. destruct f as [k v]. cbn [fst snd].
  by rewrite elem_of_map_to_list.
Qed.

Lemma listed_last (files : gmap string string) name bytes : files !! name = None -> is_event_file name = true ->
  Forall (fun f => String.le f.1 name) (event_files files) ->
  event_files (<[name := bytes]> files) = event_files files ++ [(name, bytes)].
Proof.
  intros Hf Hn Hl. unfold event_files at 1. apply sorted_listing; [apply listed_names| |].
  - rewrite (filter_perm _ _ _ (map_to_list_insert files name bytes Hf)). cbn [List.filter fst]. rewrite Hn.
    unfold event_files. rewrite sorted_by_perm. apply Permutation_cons_append.
  - apply StronglySorted_app_2; [|apply sorted_by_sorted|repeat constructor].
    intros f g Hin Hg. apply list_elem_of_singleton in Hg as ->. rewrite Forall_forall in Hl. by apply Hl.
Qed.

(** ** What a reader accepts *)

Lemma event_fields_NoDup : NoDup journal_fields.
Proof. apply (bool_decide_unpack (NoDup journal_fields)). vm_compute. exact I. Qed.

Record link (run : string) (records : list journal_event) (f : string * string) (d : Contracts.contract) (e : journal_event) : Prop := {
  ln_loads : loads f.2 = Some (JObj d);
  ln_bytes : f.2 = (canonical_bytes (JObj d) +:+ newline)%stdpp;
  ln_name : f.1 = event_name (j_sequence e);
  ln_sequence : get "sequence" d = JInt (j_sequence e);
  ln_count : j_sequence e = Z.of_nat (length records) + 1;
  ln_run : j_run e = run;
  ln_kind : get "kind" d = JStr (kind_value (j_kind e));
  ln_payload : get "payload" d = JObj (j_payload e);
  ln_recorded : get "recorded_at" d = JStr (j_recorded e);
  ln_previous : get "previous_digest" d = Contracts.opt_str (last_event_digest records);
  ln_last : j_previous e = last_event_digest records;
  ln_digest : j_digest e = canonical_digest (JObj (_body d));
  ln_legal : _validate_transition records (j_kind e) (j_payload e) = Ok tt }.

Lemma py_eq_opt_str v o : py_eq v (Contracts.opt_str o) = true -> v = Contracts.opt_str o.
Proof. destruct o as [s|]; [apply py_eq_str|]. by destruct v. Qed.

Lemma kind_read v k : Contracts.enum_of "CohortJournalEventKind" kinds kind_value v = Ok k -> v = JStr (kind_value k).
Proof.
  unfold Contracts.enum_of. destruct v as [| | |s| |]; try done. destruct (find _ _) as [k'|] eqn:E; [|done]. intros [= ->].
  apply find_some in E as [_ E]. apply String.eqb_eq in E. by subst.
Qed.

Lemma read_event_link run records f records' : read_event run records f = Ok records' -> exists d e, link run records f d e /\ records' = records ++ [e].
Proof.
  unfold read_event. destruct (loads f.2) as [[| | | | |d]|] eqn:El; try done. intros H. take_guard H E1.
  destruct (get "payload" d) as [| | | | |payload] eqn:Ep; try done. destruct (get "recorded_at" d) as [| | |recorded| |] eqn:Er; try done.
  take_guard H E2. rewrite !andb_true_iff in E2. destruct E2 as [[[[[[[En _] Es] _] Eq] _] _] Eb].
  destruct (Contracts.enum_of _ _ _ _) as [k|] eqn:Ek; [|done]. take_ok H u Et. destruct u. injection H as <-. apply kind_read in Ek.
  apply String.eqb_eq in En, Eb. apply py_eq_opt_str in Eq. destruct (get "sequence" d) as [| |n| | |] eqn:Esq; try done. apply Z.eqb_eq in Es.
  eexists d, _. split; [|reflexivity]. constructor; cbn; done || congruence.
Qed.

Lemma read_files_snoc run l f records : read_files run (l ++ [f]) = Ok records <->
  exists r, read_files run l = Ok r /\ read_event run r f = Ok records.
Proof.
  unfold read_files. rewrite rfold_app, rbind_ok. split; intros (r & H1 & H2); exists r; (split; [exact H1|]).
  - cbn in H2. destruct (read_event run r f); [exact H2|done].
  - cbn. by rewrite H2.
Qed.

(** Every event read is the link of its file. *)
Lemma read_files_links run l records : read_files run l = Ok records ->
  length records = length l /\ forall i e, records !! i = Some e -> exists f d, l !! i = Some f /\ link run (take i records) f d e.
Proof.
  revert records. induction l as [|f l IH] using rev_ind; intros records H; [by injection H as <-|].
  apply read_files_snoc in H as (r & Hr & H). apply read_event_link in H as (d & e & Hd & ->). destruct (IH _ Hr) as [Hl Hi].
  rewrite !length_app, Hl. split; [done|]. intros i x Hx. apply lookup_snoc_Some in Hx as [[Hlt Hx]|[-> <-]].
  - destruct (Hi _ _ Hx) as (g & d' & Hg & Hk). exists g, d'. rewrite take_app_le by lia. split; [|done]. by apply lookup_app_l_Some.
  - exists f, d. rewrite take_app_length. split; [|done]. rewrite Hl. by rewrite lookup_app_r, Nat.sub_diag by lia.
Qed.

(** ** Tamper evidence *)

(** The bytes a file's digest is the digest of. *)
Definition digested (f : string * string) : string :=
  match loads f.2 with Some (JObj d) => canonical_bytes (JObj (_body d)) | _ => "" end.
Definition collide (x y : string) : Prop := x <> y /\ sha256_hexdigest x = sha256_hexdigest y.

(** A document read from its canonical line is normal. *)
Lemma link_normal run records f d e : link run records f d e -> NoDup d.*1 /\ forall k, norm (get k d) = get k d.
Proof.
  intros H. assert (Hw := loads_wf _ _ (ln_loads _ _ _ _ _ H)). assert (Hn : NoDup d.*1).
  { cbn in Hw. apply andb_true_iff in Hw as [Hw _]. by apply bool_decide_eq_true in Hw. }
  split; [done|]. intros k. assert (E := ln_loads _ _ _ _ _ H). rewrite (ln_bytes _ _ _ _ _ H), loads_line in E by done.
  destruct (stored_members d d Hn ltac:(congruence)) as [Hg _]. by rewrite <- Hg.
Qed.

Lemma body_wf d : json_wf (JObj d) = true -> json_wf (JObj (_body d)) = true.
Proof.
  cbn [json_wf]. intros [Hn Hv]%andb_true_iff. apply bool_decide_eq_true in Hn. rewrite forallb_forall in Hv. apply object_wf.
  - by apply pop_key_NoDup.
  - intros k v Hin. apply (Hv (k, v)). apply list_elem_of_In, filter_In in Hin. by destruct Hin.
Qed.

Lemma same_link run run' r1 r2 f1 f2 d1 d2 e1 e2 : link run r1 f1 d1 e1 -> link run' r2 f2 d2 e2 -> run = run' -> j_digest e1 = j_digest e2 ->
  (e1 = e2 /\ length r1 = length r2 /\ last_event_digest r1 = last_event_digest r2) \/ collide (digested f1) (digested f2).
Proof.
  intros H1 H2 <- E. unfold digested. rewrite (ln_loads _ _ _ _ _ H1), (ln_loads _ _ _ _ _ H2).
  rewrite (ln_digest _ _ _ _ _ H1), (ln_digest _ _ _ _ _ H2) in E. apply append_inj_l in E.
  destruct (decide (canonical_bytes (JObj (_body d1)) = canonical_bytes (JObj (_body d2)))) as [Eb|Hne]; [left|by right].
  assert (M := same_bytes_members _ _ (body_wf _ (loads_wf _ _ (ln_loads _ _ _ _ _ H1))) (body_wf _ (loads_wf _ _ (ln_loads _ _ _ _ _ H2))) Eb).
  destruct (link_normal _ _ _ _ _ H1) as [_ N1]. destruct (link_normal _ _ _ _ _ H2) as [_ N2].
  assert (G : forall k, k <> "event_digest" -> get k d1 = get k d2).
  { intros k Hk. specialize (M k). unfold _body in M; rewrite !get_pop_key in M by done. by rewrite N1, N2 in M. }
  clear M N1 N2. assert (G1 := G "sequence" ltac:(done)). assert (G2 := G "kind" ltac:(done)). assert (G3 := G "payload" ltac:(done)).
  assert (G4 := G "recorded_at" ltac:(done)). assert (G5 := G "previous_digest" ltac:(done)). clear G.
  assert (Ed : j_digest e1 = j_digest e2) by (rewrite (ln_digest _ _ _ _ _ H1), (ln_digest _ _ _ _ _ H2); unfold canonical_digest; by rewrite Eb).
  destruct H1, H2. rewrite ln_sequence0, ln_sequence1 in G1. rewrite ln_kind0, ln_kind1 in G2. rewrite ln_payload0, ln_payload1 in G3.
  rewrite ln_recorded0, ln_recorded1 in G4. rewrite ln_previous0, ln_previous1 in G5.
  assert (El : last_event_digest r1 = last_event_digest r2) by (destruct (last_event_digest r1), (last_event_digest r2); cbn in G5; congruence).
  assert (Ek : j_kind e1 = j_kind e2) by (injection G2; by destruct (j_kind e1), (j_kind e2)).
  injection G1 as G1. split; [|split; [lia|done]]. clear G2. destruct e1, e2; cbn in *. congruence.
Qed.

Lemma last_take {A} (l : list A) i x : l !! i = Some x -> last (take (S i) l) = Some x.
Proof. intros H. rewrite (take_S_r _ _ _ H). apply last_snoc. Qed.

(** Two chains that share a digest share the history up to it. *)
Lemma chains_agree run l l' records records' n n' e e' :
  read_files run l = Ok records -> read_files run l' = Ok records' ->
  records !! n = Some e -> records' !! n' = Some e' -> j_digest e = j_digest e' ->
  (n = n' /\ take (S n) records = take (S n) records') \/ exists f f', f ∈ l /\ f' ∈ l' /\ collide (digested f) (digested f').
Proof.
  intros Hr Hr'. apply read_files_links in Hr as [_ Hr], Hr' as [_ Hr']. revert n' e e'.
  induction n as [|n IH]; intros n' e e' He He' E;
    destruct (Hr _ _ He) as (f & d & Hf & Hk); destruct (Hr' _ _ He') as (f' & d' & Hf' & Hk');
    (destruct (same_link _ _ _ _ _ _ _ _ _ _ Hk Hk' eq_refl E) as [(<- & Hn & Hd)|Hc];
      [|right; exists f, f'; split_and!; [by eapply list_elem_of_lookup_2..|done]]);
    assert (n' < length records')%nat by (by eapply lookup_lt_Some); rewrite !length_take in Hn;
    assert (length records > 0)%nat by (apply lookup_lt_Some in He; lia).
  - assert (n' = 0%nat) as -> by lia. left. split; [done|]. by rewrite (take_S_r _ _ _ He), (take_S_r _ _ _ He').
  - assert (n' = S n) as -> by (apply lookup_lt_Some in He; lia).
    destruct (records !! n) as [x|] eqn:Hx; [|apply lookup_ge_None in Hx; apply lookup_lt_Some in He; lia].
    destruct (records' !! n) as [y|] eqn:Hy; [|apply lookup_ge_None in Hy; lia].
    unfold last_event_digest in Hd. rewrite (last_take _ _ _ Hx), (last_take _ _ _ Hy) in Hd. injection Hd as Hd.
    destruct (IH _ _ _ eq_refl Hy Hd) as [[_ Ht]|Hc]; [left|by right]. split; [done|].
    by rewrite (take_S_r _ _ _ He), (take_S_r _ _ _ He'), Ht.
Qed.

(** What a successful read remembers. *)
Lemma read_ok d seen run records seen' files : _read d seen run = Ok (records, seen') -> d !! run_root run = Some files ->
  read_files run (event_files files) = Ok records
  /\ (forall n digest, seen !! run = Some (n, digest) -> exists e, records !! (n - 1)%nat = Some e /\ j_digest e = digest)
  /\ seen' = match last records with Some e => <[run := (length records, j_digest e)]> seen | None => seen end.
Proof.
  unfold _read. intros H Hf. take_ok H u E. rewrite Hf in H. take_ok H rs Er. take_guard H Es. injection H as <- <-.
  split; [done|]. split; [|done]. intros n digest En. rewrite En in Es. destruct (rs !! (n - 1)%nat) as [e|]; [|done].
  exists e. split; [done|]. by apply String.eqb_eq.
Qed.

Lemma read_missing d seen run : d !! run_root run = None -> is_blank run = false -> _read d seen run = Ok ([], seen).
Proof. unfold _read, _validate_run_id. intros -> ->. reflexivity. Qed.

(** C21: a store that has read a run's history accepts, from then on and whatever
    happens to the disk, only a continuation of it: a later read that succeeds
    returns a journal that starts with the events read before, or two of the
    files read hash to the same SHA-256 digest, or the whole directory of the
    run is gone: then, whatever the store has seen, the run reads as one that
    never began. *)
Theorem journal_tamper_evident d d' seen seen1 seen2 seen3 run records records' :
  events d seen run = Ok (records, seen1) -> seen2 !! run = seen1 !! run -> events d' seen2 run = Ok (records', seen3) ->
  (records `prefix_of` records'
   \/ (d' !! run_root run = None /\ records' = [])
   \/ exists files files' f f', d !! run_root run = Some files /\ d' !! run_root run = Some files'
        /\ f ∈ event_files files /\ f' ∈ event_files files' /\ collide (digested f) (digested f'))
  /\ forall seen' d0, d0 !! run_root run = None -> events d0 seen' run = Ok ([], seen').
Proof.
  unfold events. intros H Hs H'. split.
  2:{ intros seen' d0 E. unfold _read in *. take_ok H u Eu. by rewrite Eu, E. }
  destruct (d !! run_root run) as [files|] eqn:Ef.
  2:{ left. unfold _read in H. take_ok H u E. rewrite Ef in H. injection H as <- <-. apply prefix_nil. }
  destruct (d' !! run_root run) as [files'|] eqn:Ef'.
  2:{ right. left. split; [done|]. unfold _read in H'. take_ok H' u E. rewrite Ef' in H'. by injection H' as <- <-. }
  destruct (read_ok _ _ _ _ _ _ H Ef) as (Hr & _ & ->). destruct (read_ok _ _ _ _ _ _ H' Ef') as (Hr' & Hseen & _).
  destruct records as [|e records _] using rev_ind; [left; apply prefix_nil|].
  rewrite last_snoc in Hs. rewrite lookup_insert_eq, length_app in Hs. cbn [length] in Hs. apply Hseen in Hs as (e' & He' & Ee).
  replace (length records + 1 - 1)%nat with (length records) in He' by lia.
  assert (He : (records ++ [e]) !! length records = Some e) by (by rewrite lookup_app_r, Nat.sub_diag by lia).
  destruct (chains_agree _ _ _ _ _ _ _ _ _ Hr Hr' He He' (eq_sym Ee)) as [[_ Ht]|(f & f' & Hf & Hf' & Hc)].
  - left. rewrite take_ge in Ht by (rewrite length_app; cbn; lia). rewrite Ht. apply prefix_take.
  - right. right. by exists files, files', f, f'.
Qed.

(** ** An event that is prepared reads back *)

Lemma find_kind k : enum_of "CohortJournalEventKind" kinds kind_value (JStr (kind_value k)) = Ok k.
Proof. by destruct k. Qed.

Lemma py_eq_opt_str_refl o : py_eq (opt_str o) (opt_str o) = true.
Proof. destruct o; [apply String.eqb_refl|done]. Qed.

Lemma read_prepared run records k payload now : _validate_transition records k payload = Ok tt ->
  json_wf (JObj payload) = true -> norm (JObj payload) = JObj payload -> now <> "" ->
  let body := body_of run records k payload now in let n := Z.of_nat (length records) + 1 in
  read_event run records (event_name n, file_bytes body) =
  Ok (records ++ [{| j_sequence := n; j_run := run; j_kind := k; j_payload := payload; j_recorded := now;
                     j_previous := last_event_digest records; j_digest := canonical_digest (JObj body) |}]).
Proof.
  intros Ht Hw Hnorm Hnow body n.
  assert (Hn : NoDup (document_of body).*1) by (apply (bool_decide_unpack (NoDup journal_fields)); vm_compute; exact I).
  assert (Hwd : json_wf (JObj (document_of body)) = true).
  { apply object_wf; [done|]. intros k' w Hin. unfold document_of, body, body_of in Hin. cbn [app] in Hin.
    repeat (apply elem_of_cons in Hin as [[= -> ->]|Hin]; [first [reflexivity|exact Hw|by destruct (last_event_digest records)]|]). by apply elem_of_nil in Hin. }
  destruct (norm_obj_members (document_of body)) as (d & Ed & _). destruct (stored_members _ _ Hn Ed) as [Hg Hk].
  unfold read_event. cbn [fst snd]. unfold file_bytes. rewrite loads_line, Ed by done.
  assert (Hp : d ≡ₚ document_of body).
  { apply same_members_perm; [done..|]. intros x. rewrite Hg. unfold get. destruct (lookup_key x (document_of body)) as [w|] eqn:El; [|done].
    apply lookup_key_in in El. cbn [default]. unfold document_of, body, body_of in El. cbn [app] in El.
    repeat (apply elem_of_cons in El as [[= -> ->]|El]; [first [reflexivity|exact Hnorm|by destruct (last_event_digest records)]|]). by apply elem_of_nil in El. }
  assert (Hd : NoDup d.*1) by (by rewrite Hk).
  assert (Eg : forall x, get x d = get x (document_of body)) by (intros x; unfold get; by rewrite (lookup_key_perm x d _ Hd Hp)).
  assert (Eb : canonical_digest (JObj (_body d)) = canonical_digest (JObj body)).
  { unfold canonical_digest. do 2 f_equal. apply (canonical_perm (_body d) body).
    - by apply pop_key_NoDup.
    - unfold _body. rewrite (pop_key_perm _ _ _ Hp). reflexivity. }
  assert (Ef : subset d.*1 journal_fields && forallb (fun x => has x d) journal_fields = true).
  { apply andb_true_iff. split; [apply subset_spec; by rewrite Hk|]. apply forallb_forall. intros x Hx%list_elem_of_In.
    apply has_elem. by rewrite Hk. }
  rewrite Ef, !Eg, Eb. rewrite (canonical_perm d (document_of body) Hd Hp). change (get "payload" (document_of body)) with (JObj payload).
  change (get "recorded_at" (document_of body)) with (JStr now). change (get "schema_version" (document_of body)) with (JInt 1).
  change (get "sequence" (document_of body)) with (JInt n). change (get "run_id" (document_of body)) with (JStr run).
  change (get "previous_digest" (document_of body)) with (opt_str (last_event_digest records)).
  change (get "event_digest" (document_of body)) with (JStr (canonical_digest (JObj body))).
  change (get "kind" (document_of body)) with (JStr (kind_value k)).
  rewrite find_kind, py_eq_opt_str_refl, Ht. cbn [require rbind].
  rewrite (proj2 (py_eq_str _ _) eq_refl), (proj2 (py_eq_str (JStr (canonical_digest _)) _) eq_refl), !String.eqb_refl, (proj2 (String.eqb_neq _ _) Hnow).
  fold n. change (py_eq (JInt 1) (JInt 1)) with true. rewrite Z.eqb_refl. reflexivity.
Qed.

(** ** The lifecycle *)

(** What holds of the events of a journal, by position. *)
Record lifecycle (run : string) (l : list journal_event) : Prop := {
  lc_run : forall i e, l !! i = Some e -> j_run e = run;
  lc_kickoff : forall i e, l !! i = Some e -> j_kind e = KICKOFF <-> i = 0%nat;
  lc_completed : forall i e, l !! i = Some e -> j_kind e = RUN_COMPLETED -> length l = S i;
  lc_repair : forall i j e e', l !! i = Some e -> l !! j = Some e' -> j_kind e = j_kind e' ->
    j_kind e = REPAIR_ATTEMPT \/ j_kind e = REPAIR_RESULT -> i = j;
  lc_repaired : forall j e, l !! j = Some e -> j_kind e = REPAIR_RESULT -> exists i a, (i < j)%nat /\ l !! i = Some a /\ j_kind a = REPAIR_ATTEMPT;
  lc_package : forall i e, l !! i = Some e -> j_kind e = PACKAGE_RESULT -> exists id, id <> "" /\ get "package_id" (j_payload e) = JStr id;
  lc_once : forall i j e e', l !! i = Some e -> l !! j = Some e' -> j_kind e = PACKAGE_RESULT -> j_kind e' = PACKAGE_RESULT ->
    get "package_id" (j_payload e) = get "package_id" (j_payload e') -> i = j;
  lc_linked : forall i e, l !! i = Some e -> j_sequence e = Z.of_nat i + 1 /\ j_previous e = last_event_digest (take i l) }.

Lemma has_kind_spec k l : has_kind k l = true <-> exists i e, l !! i = Some e /\ j_kind e = k.
Proof.
  unfold has_kind. rewrite existsb_exists. split.
  - intros (e & [i Hi]%list_elem_of_In%list_elem_of_lookup & He%bool_decide_eq_true). by exists i, e.
  - intros (i & e & Hi & He). exists e. split; [by apply list_elem_of_lookup_2, list_elem_of_In in Hi|by apply bool_decide_eq_true].
Qed.

(** The transitions a journal allows. *)
Record legal (l : list journal_event) (k : kind) (payload : contract) : Prop := {
  lg_kickoff : k = KICKOFF <-> l = [];
  lg_open : forall i e, l !! i = Some e -> length l = S i -> j_kind e <> RUN_COMPLETED;
  lg_attempt : k = REPAIR_ATTEMPT -> has_kind REPAIR_ATTEMPT l = false;
  lg_result : k = REPAIR_RESULT -> has_kind REPAIR_ATTEMPT l = true /\ has_kind REPAIR_RESULT l = false;
  lg_package : k = PACKAGE_RESULT -> exists id, id <> "" /\ get "package_id" payload = JStr id
    /\ forall i e, l !! i = Some e -> j_kind e = PACKAGE_RESULT -> get "package_id" (j_payload e) <> JStr id }.

Lemma journal_transition_legal l k payload : _validate_transition l k payload = Ok tt -> legal l k payload.
Proof.
  unfold _validate_transition. destruct l as [|final l _] using rev_ind.
  { intros ->%require_ok%bool_decide_eq_true. by constructor. }
  rewrite last_snoc. intros H. take_guard H E1. take_guard H E2. take_guard H E3. take_guard H E4. take_ok H u E5. destruct u.
  apply negb_true_iff, bool_decide_eq_false in E1, E2. constructor.
  - split; [done|]. by destruct l.
  - intros i e He Hl. rewrite length_app in Hl. cbn in Hl. apply lookup_snoc_Some in He as [[Hi _]|[_ <-]]; [lia|done].
  - intros ->. by rewrite bool_decide_eq_true_2 in E4 by done; apply negb_true_iff in E4.
  - intros ->. rewrite bool_decide_eq_true_2 in E5 by done. take_guard E5 E6. apply require_ok, negb_true_iff in E5. done.
  - intros ->. rewrite bool_decide_eq_true_2 in H by done. destruct (get "package_id" payload) as [| | |id| |] eqn:Eid; try done.
    take_guard H E6. apply negb_true_iff, String.eqb_neq in E6. apply require_ok, negb_true_iff in H. exists id. split_and!; [done..|].
    intros i e He Hk Hg. apply not_true_iff_false in H. apply H, existsb_exists. exists e.
    split; [by apply list_elem_of_lookup_2, list_elem_of_In in He|]. rewrite Hg, bool_decide_eq_true_2 by done. apply String.eqb_refl.
Qed.

Lemma lifecycle_snoc run l e : lifecycle run l -> legal l (j_kind e) (j_payload e) -> j_run e = run ->
  j_sequence e = Z.of_nat (length l) + 1 -> j_previous e = last_event_digest l -> lifecycle run (l ++ [e]).
Proof.
  intros H G Hr Hs Hp. constructor.
  - intros i x [[_ Hx]|[_ <-]]%lookup_snoc_Some; [by eapply lc_run|done].
  - intros i x [[Hi Hx]|[-> <-]]%lookup_snoc_Some; [by eapply lc_kickoff|]. rewrite (lg_kickoff _ _ _ G). by destruct l.
  - intros i x [[Hi Hx]|[-> <-]]%lookup_snoc_Some Hk; [|rewrite length_app; cbn; lia].
    destruct (lg_open _ _ _ G _ _ Hx (lc_completed _ _ H _ _ Hx Hk) Hk).
  - intros i j x y [[Hi Hx]|[-> <-]]%lookup_snoc_Some [[Hj Hy]|[-> <-]]%lookup_snoc_Some Hk Ho; [by eapply lc_repair| | |done].
    + exfalso. assert (Hh : has_kind (j_kind e) l = true) by (apply has_kind_spec; by exists i, x).
      rewrite Hk in Ho. destruct Ho as [Ho|Ho]; rewrite Ho in Hh; [apply (lg_attempt _ _ _ G) in Ho|apply (lg_result _ _ _ G) in Ho as [_ Ho]]; congruence.
    + exfalso. assert (Hh : has_kind (j_kind e) l = true) by (apply has_kind_spec; by exists j, y).
      destruct Ho as [Ho|Ho]; rewrite Ho in Hh; [apply (lg_attempt _ _ _ G) in Ho|apply (lg_result _ _ _ G) in Ho as [_ Ho]]; congruence.
  - intros j x Hx Hk. apply lookup_snoc_Some in Hx as [[Hj Hx]|[-> <-]].
    + destruct (lc_repaired _ _ H _ _ Hx Hk) as (i & a & Hi & Ha & Hka). exists i, a. split_and!; [done| |done]. by apply lookup_app_l_Some.
    + apply (lg_result _ _ _ G) in Hk as [(i & a & Ha & Hka)%has_kind_spec _]. exists i, a.
      split_and!; [by eapply lookup_lt_Some|by apply lookup_app_l_Some|done].
  - intros i x [[Hi Hx]|[-> <-]]%lookup_snoc_Some Hk; [by eapply lc_package|]. apply (lg_package _ _ _ G) in Hk as (id & H1 & H2 & _). by exists id.
  - intros i j x y [[Hi Hx]|[-> <-]]%lookup_snoc_Some [[Hj Hy]|[-> <-]]%lookup_snoc_Some Hk Hk' Hg; [by eapply lc_once| | |done]; exfalso.
    + apply (lg_package _ _ _ G) in Hk' as (id & _ & H2 & H3). apply (H3 _ _ Hx Hk). congruence.
    + apply (lg_package _ _ _ G) in Hk as (id & _ & H2 & H3). apply (H3 _ _ Hy Hk'). congruence.
  - intros i x [[Hi Hx]|[-> <-]]%lookup_snoc_Some.
    + rewrite take_app_le by lia. by eapply lc_linked.
    + by rewrite take_app_length.
Qed.

Lemma read_lifecycle run l records : read_files run l = Ok records -> lifecycle run records.
Proof.
  revert records. induction l as [|f l IH] using rev_ind; intros records H; [injection H as <-; by constructor|].
  apply read_files_snoc in H as (r & Hr & H). apply read_event_link in H as (d & e & Hd & ->). destruct Hd.
  apply lifecycle_snoc; [by apply IH|by apply journal_transition_legal|done..].
Qed.

(** ** Processes that share a journal *)

(** What a process does: read, prepare an append, publish it, or crash and
    start again.  A process that has prepared an append holds its lock: it does
    nothing else before it publishes or crashes. *)
Inductive step :=
| Observe (process : nat) (run : string)
| Begin (process : nat) (run : string) (k : kind) (payload : contract) (now : string)
| Publish (process : nat)
| Crash (process : nat).

Record world := {
  w_disk : disk;
  w_seen : nat -> observations;
  w_pending : nat -> option prepared;
  (** The events whose link succeeded, in the order of the links. *)
  w_published : list journal_event }.
Definition initial : world := {| w_disk := ∅; w_seen := fun _ => ∅; w_pending := fun _ => None; w_published := [] |}.

Definition update {A} (f : nat -> A) (p : nat) (x : A) : nat -> A := fun q => if decide (q = p) then x else f q.
Definition world_step (w : world) (s : step) : world :=
  match s with
  | Observe p run =>
      match w_pending w p, events (w_disk w) (w_seen w p) run with
      | None, Ok (_, seen) => {| w_disk := w_disk w; w_seen := update (w_seen w) p seen; w_pending := w_pending w; w_published := w_published w |}
      | _, _ => w
      end
  | Begin p run k payload now =>
      match w_pending w p with
      | Some _ => w
      | None =>
          let '(r, (d, seen)) := prepare_event run k payload now (w_disk w, w_seen w p) in
          {| w_disk := d; w_seen := update (w_seen w) p seen;
             w_pending := match r with Ok x => update (w_pending w) p (Some x) | Raise _ => w_pending w end; w_published := w_published w |}
      end
  | Publish p =>
      match w_pending w p with
      | None => w
      | Some x =>
          let '(r, (d, seen)) := publish x (w_disk w, w_seen w p) in
          {| w_disk := d; w_seen := update (w_seen w) p seen; w_pending := update (w_pending w) p None;
             w_published := match r with Ok e => w_published w ++ [e] | Raise _ => w_published w end |}
      end
  | Crash p => {| w_disk := w_disk w; w_seen := update (w_seen w) p ∅; w_pending := update (w_pending w) p None; w_published := w_published w |}
  end.
Definition world_after (trace : list step) : world := fold_left world_step trace initial.
Definition history (run : string) (w : world) : list journal_event := List.filter (fun e => String.eqb (j_run e) run) (w_published w).

(** The clock returns a text, a payload is a dictionary, and other runs have
    directories of their own. *)
Definition proper (run : string) (s : step) : Prop :=
  match s with
  | Begin _ run' _ payload now => json_wf (JObj payload) = true /\ now <> "" /\ (run' = run \/ run_root run' <> run_root run)
  | _ => True
  end.

(** A prepared event of the run, and the history it was prepared on. *)
Definition prepared_on (run : string) (l : list journal_event) (x : prepared) : Prop :=
  exists k payload now, let n := Z.of_nat (length l) + 1 in let body := body_of run l k payload now in
    _validate_transition l k payload = Ok tt /\ json_wf (JObj payload) = true /\ norm (JObj payload) = JObj payload /\ now <> ""
    /\ x = {| pr_run := run; pr_name := event_name n; pr_bytes := file_bytes body;
              pr_event := {| j_sequence := n; j_run := run; j_kind := k; j_payload := payload; j_recorded := now;
                             j_previous := last_event_digest l; j_digest := canonical_digest (JObj body) |} |}.

Record steady (run : string) (w : world) : Prop := {
  st_files : match w_disk w !! run_root run with
             | Some files => read_files run (event_files files) = Ok (history run w)
             | None => history run w = []
             end;
  st_seen : forall p n digest, w_seen w p !! run = Some (n, digest) -> exists e, history run w !! (n - 1)%nat = Some e /\ j_digest e = digest;
  st_pending : forall p x, w_pending w p = Some x ->
    pr_run x = j_run (pr_event x)
    /\ (pr_run x = run -> is_Some (w_disk w !! run_root run) /\ exists l, l `prefix_of` history run w /\ prepared_on run l x)
    /\ (pr_run x <> run -> run_root (pr_run x) <> run_root run) }.

Section Steady.
Context (run : string) (Hrun : is_blank run = false).

Lemma steady_initial : steady run initial.
Proof. constructor; done. Qed.

(** Every process reads the history. *)
Lemma steady_read w p : steady run w -> exists seen, _read (w_disk w) (w_seen w p) run = Ok (history run w, seen)
  /\ forall n digest, seen !! run = Some (n, digest) -> exists e, history run w !! (n - 1)%nat = Some e /\ j_digest e = digest.
Proof.
  intros H. assert (Hf := st_files _ _ H). unfold _read, _validate_run_id. rewrite Hrun. cbn [negb require rbind].
  destruct (w_disk w !! run_root run) as [files|].
  - rewrite Hf. cbn [rbind]. assert (Hs := st_seen _ _ H p). eexists. split.
    + destruct (w_seen w p !! run) as [[n digest]|]; [|reflexivity]. destruct (Hs _ _ eq_refl) as (e & -> & <-). by rewrite String.eqb_refl.
    + destruct (last (history run w)) as [e|] eqn:El; [|exact Hs]. intros n digest.
      rewrite last_lookup in El. rewrite lookup_insert_eq. intros [= <- <-]. exists e. by rewrite Nat.sub_1_r.
  - rewrite Hf. eexists. split; [done|]. rewrite <- Hf. apply (st_seen _ _ H).
Qed.

Definition remembers (l : list journal_event) (seen : observations) : Prop :=
  forall n digest, seen !! run = Some (n, digest) -> exists e, l !! (n - 1)%nat = Some e /\ j_digest e = digest.

Lemma remembers_frame l seen seen' : seen' !! run = seen !! run -> remembers l seen -> remembers l seen'.
Proof. unfold remembers. by intros ->. Qed.

Lemma remembers_longer l l' seen : l `prefix_of` l' -> remembers l seen -> remembers l' seen.
Proof. intros [k ->] H n digest Hn. destruct (H _ _ Hn) as (e & He & Hd). exists e. split; [by apply lookup_app_l_Some|done]. Qed.

Lemma remembers_update l (seen : nat -> observations) p s : (forall q, remembers l (seen q)) -> remembers l s -> forall q, remembers l (update seen p s q).
Proof. intros H Hs q. unfold update. destruct (decide (q = p)); [done|apply H]. Qed.

Lemma read_other d seen run' records seen' : run' <> run -> _read d seen run' = Ok (records, seen') -> seen' !! run = seen !! run.
Proof.
  intros Hne H. unfold _read in H. take_ok H u E. destruct (d !! run_root run') as [files|]; [|by injection H as <- <-].
  take_ok H rs Er. take_guard H Es. injection H as <- <-. destruct (last rs); [|done].
  by rewrite lookup_insert_ne.
Qed.

(** What preparing an append does to the disk and to what the process has seen. *)
Lemma prepare_cases run' k payload now d seen r d' seen' : prepare_event run' k payload now (d, seen) = (r, (d', seen')) ->
  (exists e, r = Raise e /\ d' = d /\ (seen' = seen \/ exists records, _read d seen run' = Ok (records, seen')))
  \/ exists p records x, r = Ok x /\ d' = make_root d run' /\ _canonical_mapping payload = Ok p
     /\ _read d seen run' = Ok (records, seen') /\ _validate_transition records k p = Ok tt /\ pr_run x = run'
     /\ let n := Z.of_nat (length records) + 1 in let body := body_of run' records k p now in
       x = {| pr_run := run'; pr_name := event_name n; pr_bytes := file_bytes body;
              pr_event := {| j_sequence := n; j_run := run'; j_kind := k; j_payload := p; j_recorded := now;
                             j_previous := last_event_digest records; j_digest := canonical_digest (JObj body) |} |}.
Proof.
  unfold prepare_event. destruct (_validate_run_id run') as [u|e]; [|intros [= <- <- <-]; left; by exists e; auto]. cbn [rbind fst snd].
  destruct (_canonical_mapping payload) as [p|e] eqn:Ep; [|intros [= <- <- <-]; left; by exists e; auto].
  destruct (_read d seen run') as [[records s]|e] eqn:Er; [|intros [= <- <- <-]; left; by exists e; auto].
  destruct (_validate_transition records k p) as [[]|e] eqn:Et; intros [= <- <- <-].
  - right. eexists p, records, _. split_and!; reflexivity || done.
  - left. exists e. split_and!; [done..|]. right. by exists records.
Qed.

Lemma canonical_mapping_ok payload p : json_wf (JObj payload) = true -> _canonical_mapping payload = Ok p ->
  norm (JObj payload) = JObj p /\ json_wf (JObj p) = true /\ norm (JObj p) = JObj p.
Proof.
  intros Hw. unfold _canonical_mapping, canonical_bytes. rewrite loads_dumps_norm by done.
  destruct (norm (JObj payload)) as [| | | | |q] eqn:E; try done. intros [= ->]. split; [done|].
  split; [rewrite <- E; by apply norm_wf|rewrite <- E; by apply norm_idem].
Qed.

Lemma read_made d : match d !! run_root run with Some files => read_files run (event_files files) | None => Ok [] end
  = match make_root d run !! run_root run with Some files => read_files run (event_files files) | None => Ok [] end.
Proof.
  unfold make_root. destruct (d !! run_root run) eqn:E; [by rewrite E|].
  by rewrite lookup_insert_eq.
Qed.

Lemma make_root_other d run' : run_root run' <> run_root run -> make_root d run' !! run_root run = d !! run_root run.
Proof. intros H. unfold make_root. destruct (d !! run_root run'); [done|]. by rewrite lookup_insert_ne. Qed.

Lemma st_files_made w run' : run' = run \/ run_root run' <> run_root run -> steady run w ->
  match make_root (w_disk w) run' !! run_root run with
  | Some files => read_files run (event_files files) = Ok (history run w)
  | None => history run w = []
  end.
Proof.
  intros Hr H. assert (Hf := st_files _ _ H). destruct Hr as [->|Hr]; [|by rewrite make_root_other].
  unfold make_root. destruct (w_disk w !! run_root run) eqn:E; [by rewrite E|]. rewrite lookup_insert_eq, Hf. reflexivity.
Qed.

Definition pending_ok (d : disk) (l : list journal_event) (x : prepared) : Prop :=
  pr_run x = j_run (pr_event x)
  /\ (pr_run x = run -> is_Some (d !! run_root run) /\ exists l', l' `prefix_of` l /\ prepared_on run l' x)
  /\ (pr_run x <> run -> run_root (pr_run x) <> run_root run).

Lemma pending_frame d d' l l' x : (is_Some (d !! run_root run) -> is_Some (d' !! run_root run)) -> l `prefix_of` l' ->
  pending_ok d l x -> pending_ok d' l' x.
Proof.
  intros Hd Hl (H1 & H2 & H3). split; [done|]. split; [|done]. intros E. destruct (H2 E) as (Hs & l0 & Hp & Ho).
  split; [by apply Hd|]. exists l0. split; [by etrans|done].
Qed.

Lemma steady_begin w p run' k payload now : proper run (Begin p run' k payload now) -> steady run w ->
  steady run (world_step w (Begin p run' k payload now)).
Proof.
  intros (Hw & Hnow & Hr) H. cbn [world_step]. destruct (w_pending w p); [done|].
  destruct (prepare_event run' k payload now (w_disk w, w_seen w p)) as [r [d' seen']] eqn:E.
  assert (Hdec : run' = run \/ run' <> run /\ run_root run' <> run_root run).
  { destruct (decide (run' = run)); [by left|right]. destruct Hr; done. }
  destruct (steady_read _ p H) as (s & Hread & Hs).
  assert (Hseen' : forall records, _read (w_disk w) (w_seen w p) run' = Ok (records, seen') -> remembers (history run w) seen').
  { intros records Hrec. destruct Hdec as [->|[Hne _]]; [assert (seen' = s) as -> by congruence; exact Hs|].
    eapply remembers_frame; [by eapply read_other|exact (st_seen _ _ H p)]. }
  apply prepare_cases in E as [(e & -> & -> & Hd)|(q & records & x & -> & -> & Hq & Hrec & Ht & Hrun' & Hx)].
  - constructor; [exact (st_files _ _ H)| |exact (st_pending _ _ H)].
    apply remembers_update; [exact (st_seen _ _ H)|]. destruct Hd as [->|(records & Hrec)]; [exact (st_seen _ _ H p)|by eapply Hseen'].
  - constructor.
    + exact (st_files_made w run' Hr H).
    + apply remembers_update; [exact (st_seen _ _ H)|by eapply Hseen'].
    + assert (Hmade : forall y, pending_ok (w_disk w) (history run w) y -> pending_ok (make_root (w_disk w) run') (history run w) y).
      { intros y. apply pending_frame; [|done]. destruct Hdec as [->|[_ Hne]]; [|by rewrite make_root_other].
        unfold make_root. destruct (w_disk w !! run_root run) eqn:Ed; [by rewrite Ed|]. intros _. rewrite lookup_insert_eq. by eexists. }
      intros p' y. cbn [w_pending]. unfold update. destruct (decide (p' = p)) as [->|]; [|intros Hy; exact (Hmade _ (st_pending _ _ H _ _ Hy))].
      intros [= <-]. split; [by rewrite Hx|]. rewrite Hrun'. split.
      * intros ->. split; [unfold make_root; cbn; destruct (w_disk w !! run_root run) eqn:Ed; [by rewrite Ed|rewrite lookup_insert_eq; by eexists]|].
        exists records. assert (records = history run w) as -> by congruence. split; [done|].
        destruct (canonical_mapping_ok _ _ Hw Hq) as (_ & Hw' & Hn'). by exists k, q, now.
      * intros Hne. destruct Hdec as [|[_ ?]]; done.
Qed.

Lemma steady_observe w p run' : steady run w -> steady run (world_step w (Observe p run')).
Proof.
  intros H. cbn [world_step]. destruct (w_pending w p); [done|]. unfold events.
  destruct (_read (w_disk w) (w_seen w p) run') as [[records seen']|] eqn:E; [|done].
  constructor; [exact (st_files _ _ H)| |exact (st_pending _ _ H)]. apply remembers_update; [exact (st_seen _ _ H)|].
  destruct (steady_read _ p H) as (s & Hread & Hs). destruct (decide (run' = run)) as [->|Hne]; [assert (seen' = s) as -> by congruence; exact Hs|].
  eapply remembers_frame; [by eapply read_other|exact (st_seen _ _ H p)].
Qed.

Lemma update_pending (f : nat -> option prepared) p q x : update f p None q = Some x -> f q = Some x.
Proof. unfold update. by destruct (decide (q = p)). Qed.

Lemma steady_crash w p : steady run w -> steady run (world_step w (Crash p)).
Proof.
  intros H. constructor; [exact (st_files _ _ H)| |].
  - apply remembers_update; [exact (st_seen _ _ H)|]. intros n digest Hn. by rewrite lookup_empty in Hn.
  - intros q x Hq%update_pending. by apply (st_pending _ _ H) in Hq.
Qed.

(** The names of the files of a journal that reads. *)
Lemma listed_name files l i : read_files run (event_files files) = Ok l -> (i < length l)%nat -> is_Some (files !! event_name (Z.of_nat i + 1)).
Proof.
  intros [Hl Hr]%read_files_links Hi. destruct (lookup_lt_is_Some_2 l i Hi) as [e He]. destruct (Hr _ _ He) as (f & d & Hf & Hk).
  apply list_elem_of_lookup_2, elem_event_files in Hf as [Hf _]. rewrite (ln_name _ _ _ _ _ Hk), (ln_count _ _ _ _ _ Hk), length_take in Hf.
  rewrite Nat.min_l in Hf by lia. by eexists.
Qed.

Lemma listed_before files l n : read_files run (event_files files) = Ok l -> n = Z.of_nat (length l) + 1 -> in_eight n ->
  files !! event_name n = None /\ Forall (fun f => String.le f.1 (event_name n)) (event_files files).
Proof.
  intros [Hl Hr]%read_files_links -> Hn.
  assert (Hb : forall f, f ∈ event_files files -> String.compare f.1 (event_name (Z.of_nat (length l) + 1)) = Lt).
  { intros f [i Hf]%list_elem_of_lookup. assert (Hi : (i < length l)%nat) by (rewrite Hl; by eapply lookup_lt_Some).
    destruct (lookup_lt_is_Some_2 l i Hi) as [e He]. destruct (Hr _ _ He) as (g & d & Hg & Hk). assert (f = g) as -> by congruence.
    rewrite (ln_name _ _ _ _ _ Hk), (ln_count _ _ _ _ _ Hk), length_take, Nat.min_l by lia.
    unfold in_eight in Hn. apply event_names_increase; unfold in_eight; lia. }
  split.
  - destruct (files !! event_name _) as [b|] eqn:E; [|done]. assert (Hx := Hb (event_name (Z.of_nat (length l) + 1), b)).
    rewrite elem_event_files in Hx. specialize (Hx (conj E (event_name_found _ Hn))). cbn in Hx.
    assert (Ha := string_ltb_irrefl (event_name (Z.of_nat (length l) + 1))). unfold String.ltb in Ha. by rewrite Hx in Ha.
  - apply Forall_forall. intros f Hf. unfold String.le, String.leb. by rewrite (Hb f Hf).
Qed.

(** A link succeeds exactly when nothing was published since the event was
    prepared. *)
Lemma publish_current w p x l : steady run w -> pr_run x = run -> prepared_on run l x -> l `prefix_of` history run w ->
  is_Some (w_disk w !! run_root run) -> in_eight (Z.of_nat (length (history run w)) + 1) ->
  (length l < length (history run w) /\ publish x (w_disk w, w_seen w p) = (denied "cohort journal append failed", (w_disk w, w_seen w p)))%nat
  \/ (l = history run w /\ exists files, w_disk w !! run_root run = Some files
      /\ publish x (w_disk w, w_seen w p) =
          (Ok (pr_event x), (<[run_root run := <[pr_name x := pr_bytes x]> files]> (w_disk w),
                             <[run := (S (length l), j_digest (pr_event x))]> (w_seen w p)))
      /\ read_files run (event_files (<[pr_name x := pr_bytes x]> files)) = Ok (history run w ++ [pr_event x])).
Proof.
  intros H Ex (k & q & now & Ht & Hw & Hn & Hnow & ->) [l' Hl] [files Ef] Hin. assert (Hf := st_files _ _ H). rewrite Ef in Hf.
  unfold publish. cbn [fst snd pr_run pr_name pr_bytes pr_event j_sequence j_digest]. rewrite Ef. destruct l' as [|e l'].
  - right. rewrite app_nil_r in Hl. rewrite Hl in *. split; [done|]. exists files. split; [done|].
    destruct (listed_before _ _ _ Hf eq_refl Hin) as [Hfree Hb]. rewrite Hfree. split; [by rewrite Z2Nat.inj_add, Nat2Z.id, Nat.add_comm by lia|].
    rewrite listed_last by (done || by apply event_name_found). apply read_files_snoc. exists l. split; [done|]. by apply read_prepared.
  - left. assert (Hi : (length l < length (history run w))%nat) by (rewrite Hl, length_app; cbn; lia). split; [done|].
    by destruct (listed_name _ _ _ Hf Hi) as [b ->].
Qed.

Lemma history_published w d seen pending e : history run {| w_disk := d; w_seen := seen; w_pending := pending; w_published := w_published w ++ [e] |}
  = if String.eqb (j_run e) run then history run w ++ [e] else history run w.
Proof. unfold history. cbn. rewrite List.filter_app. cbn. destruct (String.eqb (j_run e) run); [done|by rewrite app_nil_r]. Qed.

Lemma publish_other w p x : pr_run x <> run -> run_root (pr_run x) <> run_root run -> forall r d' s', publish x (w_disk w, w_seen w p) = (r, (d', s')) ->
  d' !! run_root run = w_disk w !! run_root run /\ s' !! run = w_seen w p !! run /\ (forall e, r = Ok e -> e = pr_event x).
Proof.
  intros Hx Hne r d' s' E. unfold publish in E. cbn [fst snd] in E. destruct (w_disk w !! run_root (pr_run x)) as [files|]; [|by injection E as <- <- <-].
  destruct (files !! pr_name x); [by injection E as <- <- <-|]. injection E as <- <- <-. rewrite !lookup_insert_ne by done.
  split_and!; [done..|]. congruence.
Qed.

Lemma steady_publish w p : in_eight (Z.of_nat (length (history run w)) + 1) -> steady run w -> steady run (world_step w (Publish p)).
Proof.
  intros Hin H. cbn [world_step]. destruct (w_pending w p) as [x|] eqn:Ex; [|done].
  destruct (st_pending _ _ H _ _ Ex) as (Hr & Hown & Hoth). destruct (decide (pr_run x = run)) as [E|Hne].
  - destruct (Hown E) as (Hd & l & Hl & Ho).
    destruct (publish_current w p x l H E Ho Hl Hd Hin) as [[_ ->]|(-> & files & Ef & -> & Hread)].
    + constructor; [exact (st_files _ _ H)| |intros q y Hq%update_pending; exact (st_pending _ _ H _ _ Hq)].
      apply remembers_update; [exact (st_seen _ _ H)|exact (st_seen _ _ H p)].
    + assert (Ej : String.eqb (j_run (pr_event x)) run = true) by (rewrite <- Hr, E; apply String.eqb_refl).
      assert (Hp : history run w `prefix_of` history run w ++ [pr_event x]) by (by eexists).
      constructor; rewrite history_published, Ej.
      * cbn [w_disk]. by rewrite lookup_insert_eq.
      * apply remembers_update; [intros q; exact (remembers_longer _ _ _ Hp (st_seen _ _ H q))|]. intros n digest. rewrite lookup_insert_eq.
        intros [= <- <-]. exists (pr_event x). by rewrite lookup_app_r, Nat.sub_1_r, Nat.sub_diag by lia.
      * intros q y Hq%update_pending. apply (pending_frame (w_disk w) _ (history run w)); [|done|exact (st_pending _ _ H _ _ Hq)].
        intros _. cbn [w_disk]. rewrite lookup_insert_eq. by eexists.
  - destruct (publish x (w_disk w, w_seen w p)) as [r [d' s']] eqn:E. destruct (publish_other w p x Hne (Hoth Hne) _ _ _ E) as (Hd & Hs & He).
    assert (Eh : history run {| w_disk := d'; w_seen := update (w_seen w) p s'; w_pending := update (w_pending w) p None;
                   w_published := match r with Ok e => w_published w ++ [e] | Raise _ => w_published w end |} = history run w).
    { destruct r as [e|]; [|done]. rewrite history_published, (He e eq_refl), <- Hr. by rewrite (proj2 (String.eqb_neq _ _) Hne). }
    constructor; rewrite Eh.
    + cbn [w_disk]. rewrite Hd. exact (st_files _ _ H).
    + apply remembers_update; [exact (st_seen _ _ H)|]. exact (remembers_frame _ _ _ Hs (st_seen _ _ H p)).
    + intros q y Hq%update_pending. apply (pending_frame (w_disk w) _ (history run w)); [|done|exact (st_pending _ _ H _ _ Hq)].
      cbn [w_disk]. by rewrite Hd.
Qed.

(** One step publishes at most one event, behind the others. *)
Lemma step_published w s : exists l, w_published (world_step w s) = w_published w ++ l /\ (length l <= 1)%nat.
Proof.
  assert (Hnone : forall w', w_published w' = w_published w -> exists l, w_published w' = w_published w ++ l /\ (length l <= 1)%nat).
  { intros w' E. exists []. rewrite app_nil_r. split; [done|cbn; lia]. }
  destruct s as [p r|p r k q now|p|p]; cbn [world_step].
  - apply Hnone. destruct (w_pending w p); [done|]. by destruct (events _ _ _) as [[]|].
  - apply Hnone. destruct (w_pending w p); [done|]. by destruct (prepare_event _ _ _ _ _) as [? []].
  - destruct (w_pending w p); [|by apply Hnone]. destruct (publish _ _) as [[e|] [? ?]]; [|by apply Hnone]. by exists [e].
  - by apply Hnone.
Qed.

Lemma step_history w s : history run w `prefix_of` history run (world_step w s)
  /\ (length (history run (world_step w s)) <= S (length (history run w)))%nat.
Proof.
  destruct (step_published w s) as (l & E & Hl). unfold history. rewrite E, List.filter_app. split; [by eexists|].
  rewrite length_app. assert (Hf := filter_length_le (fun e => String.eqb (j_run e) run) l). lia.
Qed.

Lemma steady_after trace w : Forall (proper run) trace -> Z.of_nat (length (history run w) + length trace) < 10 ^ 8 - 1 -> steady run w ->
  steady run (fold_left world_step trace w)
  /\ history run w `prefix_of` history run (fold_left world_step trace w)
  /\ (length (history run (fold_left world_step trace w)) <= length (history run w) + length trace)%nat.
Proof.
  revert w. induction trace as [|s trace IH]; intros w Hp Hb H; cbn [fold_left]; [split_and!; [done..|lia]|].
  apply Forall_cons in Hp as [Hs Hp]. cbn [length] in Hb. destruct (step_history w s) as [H1 H2].
  assert (Hw : steady run (world_step w s)).
  { destruct s as [p r|p r k q now|p|p]; [by apply steady_observe|by apply steady_begin| |by apply steady_crash].
    apply steady_publish; [unfold in_eight; lia|done]. }
  destruct (IH (world_step w s) Hp ltac:(lia) Hw) as (Ha & Hpre & Hlen). split_and!; [done|by etrans|cbn; lia].
Qed.
End Steady.

(** C20: processes that share a journal keep one history.  Whatever they do, in
    whatever order, crashes included, the events whose files were published form
    a legal lifecycle, in which only a kickoff comes first and nothing follows a
    completion, a repair is attempted once and answered once and after its
    attempt, and every package reports one result; it only grows; every process
    reads exactly it; and an event that a process prepared is published exactly
    when no other was published in the meantime: otherwise the append fails and
    changes nothing.  The bound is the width of the file names: they are ordered
    like their numbers below [10 ^ 8]. *)
Theorem journal_shared run before after : is_blank run = false ->
  Forall (proper run) (before ++ after) -> Z.of_nat (length (before ++ after)) < 10 ^ 8 - 1 ->
  let w := world_after (before ++ after) in let l := history run w in
  lifecycle run l
  /\ history run (world_after before) `prefix_of` l
  /\ (forall p, exists seen, events (w_disk w) (w_seen w p) run = Ok (l, seen))
  /\ forall p x, w_pending w p = Some x -> pr_run x = run ->
       (j_sequence (pr_event x) <= Z.of_nat (length l)
        /\ publish x (w_disk w, w_seen w p) = (denied "cohort journal append failed", (w_disk w, w_seen w p)))
       \/ (j_sequence (pr_event x) = Z.of_nat (length l) + 1
           /\ exists d seen seen', publish x (w_disk w, w_seen w p) = (Ok (pr_event x), (d, seen)) /\ events d seen run = Ok (l ++ [pr_event x], seen')).
Proof.
  intros Hrun Hp Hb w l. rewrite length_app in Hb. apply Forall_app in Hp as [Hp1 Hp2].
  destruct (steady_after run Hrun before initial Hp1 ltac:(cbn; lia) (steady_initial run)) as (H1 & _ & L1). cbn [history initial w_published List.filter length] in L1.
  destruct (steady_after run Hrun after (world_after before) Hp2 ltac:(unfold world_after; lia) H1) as (H & Hpre & L2).
  assert (Ew : fold_left world_step after (world_after before) = w) by (unfold w, world_after; by rewrite fold_left_app).
  rewrite Ew in H, Hpre, L2. fold l in Hpre, L2. assert (Hlen : in_eight (Z.of_nat (length l) + 1)).
  { unfold in_eight. unfold world_after in L2. change (history run initial) with (@nil journal_event) in L1. cbn in L1. lia. }
  split; [|split; [done|split]].
  - assert (Hf := st_files _ _ H). destruct (w_disk w !! run_root run); [by eapply read_lifecycle|]. fold l in Hf. rewrite Hf. by constructor.
  - intros p. destruct (steady_read run Hrun w p H) as (seen & Hr & _). by exists seen.
  - intros p x Hx Ex. destruct (st_pending _ _ H _ _ Hx) as (_ & Hown & _). destruct (Hown Ex) as (Hd & l0 & Hl0 & Ho).
    assert (Hq : j_sequence (pr_event x) = Z.of_nat (length l0) + 1) by (destruct Ho as (? & ? & ? & _ & _ & _ & _ & ->); done).
    destruct (publish_current run w p x l0 H Ex Ho Hl0 Hd Hlen) as [[Hlt E]|(-> & files & Ef & E & Hread)].
    + left. split; [|done]. fold l in Hlt. lia.
    + right. split; [done|]. eexists _, _, _. split; [exact E|]. unfold events, _read, _validate_run_id. rewrite Hrun. cbn [negb require rbind].
      rewrite !lookup_insert_eq, Hread. cbn [rbind]. rewrite lookup_app_r, Nat.sub_1_r, Nat.sub_diag by (cbn; lia). cbn. by rewrite String.eqb_refl.
Qed.

(** ** A sample *)

Module SampleJournal.
Definition run : string := "cohort-7".
Definition now : string := "2026-02-03T04:05:06+00:00".
Definition result_of (id : string) : contract := [("package_id", JStr id)].
(** Two processes race for the kickoff; the one that loses goes on after a
    restart, and the run completes. *)
Definition race : list step :=
  [Begin 0 run KICKOFF [("goal", JStr "ship")] now; Begin 1 run KICKOFF [] now; Publish 1; Publish 0; Crash 0;
   Begin 0 run PACKAGE_RESULT (result_of "a") now; Publish 0; Observe 1 run].
Definition later : list step :=
  [Begin 1 run PACKAGE_RESULT (result_of "a") now; Begin 0 run RUN_COMPLETED [] now; Begin 1 run DISPATCH [] now; Publish 0].

(** What the race leaves: one kickoff, and a prepared event that comes too late. *)
Example race_outcome :
  let w := world_after (race ++ later) in
  (map j_kind (history run w), match w_pending w 1 with Some x => Some (j_kind (pr_event x), (publish x (w_disk w, ∅)).1) | None => None end)
  = ([KICKOFF; PACKAGE_RESULT; RUN_COMPLETED], Some (DISPATCH, denied "cohort journal append failed")).
Proof. vm_compute. reflexivity. Qed.

Lemma race_proper : Forall (proper run) (race ++ later).
Proof. repeat (apply Forall_cons; split; [first [exact I|cbn [proper]; split_and!; [vm_compute; reflexivity|done|by left]]|]). by apply Forall_nil. Qed.

Lemma journal_shared_witness :
  lifecycle run (history run (world_after (race ++ later)))
  /\ history run (world_after race) `prefix_of` history run (world_after (race ++ later)).
Proof.
  destruct (journal_shared run race later) as (H1 & H2 & _);
    [vm_compute; reflexivity|apply race_proper|vm_compute; reflexivity|]. split; assumption.
Defined.

(** A store that has read a journal reads a longer one. *)
Definition begun : journal_store := (append run KICKOFF [] now (∅, ∅)).2.
Definition continued : journal_store := (append run DISPATCH [] now begun).2.
Definition read_of (r : result (list journal_event * observations)) : list journal_event * observations := match r with Ok x => x | Raise _ => ([], ∅) end.
Definition read_begun := read_of (events begun.1 ∅ run).
Definition read_continued := read_of (events continued.1 read_begun.2 run).

Lemma read_of_ok r : is_ok r = true -> r = Ok (read_of r).
Proof. by destruct r. Qed.

Lemma journal_tamper_evident_witness :
  (read_begun.1 `prefix_of` read_continued.1
   \/ (continued.1 !! run_root run = None /\ read_continued.1 = [])
   \/ exists files files' f f', begun.1 !! run_root run = Some files /\ continued.1 !! run_root run = Some files'
        /\ f ∈ event_files files /\ f' ∈ event_files files' /\ collide (digested f) (digested f'))
  /\ events ∅ read_begun.2 run = Ok ([], read_begun.2).
Proof.
  destruct (journal_tamper_evident begun.1 continued.1 ∅ read_begun.2 read_begun.2 read_continued.2 run read_begun.1 read_continued.1) as [H1 H2].
  - rewrite (read_of_ok (events begun.1 ∅ run)) by (vm_compute; reflexivity). apply f_equal, surjective_pairing.
  - reflexivity.
  - rewrite (read_of_ok (events continued.1 read_begun.2 run)) by (vm_compute; reflexivity). apply f_equal, surjective_pairing.
  - split; [exact H1|]. by apply H2.
Defined.

(** But it does not see that the directory is gone, and starts the run again. *)
Example deleted_run_restarts : let seen := read_begun.2 in
  (events ∅ seen run, match append run KICKOFF [] now (∅, seen) with (Ok e, _) => Some (j_sequence e, j_kind e) | _ => None end)
  = (Ok ([], seen), Some (1, KICKOFF)).
Proof. vm_compute. reflexivity. Qed.
End SampleJournal.

End CohortJournal.
