(* ===== verification/Consultation.v ===== *)
(** * Consultation

    [brain_kernel/consultation.py]: a typed question goes to at least two roles
    that may answer it, their testimony is adjudicated by a fixed table, and
    the result is a document that is read back only through its constructor.
    Texts, flags and enumerations of requests and assessments are typed here,
    so their type tests hold by typing; the result's constructor is modelled on
    the values it is called with, because [from_document] calls it on members
    of any type.  Messages the interpreter itself writes are abbreviated. *)

From S2P Require Import Prelude Canonical PyLib Schema Contracts.

Module Consultation.
Export Contracts.

Definition MAX_CONSULTATION_ROUNDS : Z := 3.
Definition MIN_CONSULTED_ROLES : nat := 2.

Definition AUTHORITY_CLASSES : list string :=
  ["credential_or_secret"; "legal_or_regulatory"; "financial_spend"; "production_access"; "protected_branch_merge";
   "owner_value_choice"; "personal_consent"; "external_contractual_commitment"].

(** ** Enumerations *)

Inductive ConsultationReason :=
| AMBIGUOUS_DESIGN | MISSING_EVIDENCE | MISSING_EXTERNAL_AUTHORITY | UNSAFE_EFFECT | INDEPENDENCE_CONCERN
| SUSPECTED_CHEATING | NO_PROGRESS.
Inductive ConsultationDecision :=
| RESOLVED | REMAND | REPLAN | BLOCKED_EVIDENCE | TRUE_AUTHORITY_REQUIRED | QUARANTINE.
Inductive CheatingDisposition := NOT_APPLICABLE | CONFIRMED | DISPROVED | UNRESOLVED.

#[global] Instance reason_eq_dec : EqDecision ConsultationReason.
Proof. solve_decision. Defined.
#[global] Instance decision_eq_dec : EqDecision ConsultationDecision.
Proof. solve_decision. Defined.
#[global] Instance cheating_eq_dec : EqDecision CheatingDisposition.
Proof. solve_decision. Defined.

Definition reason_value (r : ConsultationReason) : string :=
  match r with
  | AMBIGUOUS_DESIGN => "AMBIGUOUS_DESIGN" | MISSING_EVIDENCE => "MISSING_EVIDENCE"
  | MISSING_EXTERNAL_AUTHORITY => "MISSING_EXTERNAL_AUTHORITY" | UNSAFE_EFFECT => "UNSAFE_EFFECT"
  | INDEPENDENCE_CONCERN => "INDEPENDENCE_CONCERN" | SUSPECTED_CHEATING => "SUSPECTED_CHEATING"
  | NO_PROGRESS => "NO_PROGRESS"
  end.
Definition reasons : list ConsultationReason :=
  [AMBIGUOUS_DESIGN; MISSING_EVIDENCE; MISSING_EXTERNAL_AUTHORITY; UNSAFE_EFFECT; INDEPENDENCE_CONCERN; SUSPECTED_CHEATING; NO_PROGRESS].
Definition decision_value (d : ConsultationDecision) : string :=
  match d with
  | RESOLVED => "RESOLVED" | REMAND => "REMAND" | REPLAN => "REPLAN" | BLOCKED_EVIDENCE => "BLOCKED_EVIDENCE"
  | TRUE_AUTHORITY_REQUIRED => "TRUE_AUTHORITY_REQUIRED" | QUARANTINE => "QUARANTINE"
  end.
Definition decisions : list ConsultationDecision := [RESOLVED; REMAND; REPLAN; BLOCKED_EVIDENCE; TRUE_AUTHORITY_REQUIRED; QUARANTINE].
Definition cheating_value (c : CheatingDisposition) : string :=
  match c with
  | NOT_APPLICABLE => "NOT_APPLICABLE" | CONFIRMED => "CONFIRMED" | DISPROVED => "DISPROVED" | UNRESOLVED => "UNRESOLVED"
  end.
Definition cheating_dispositions : list CheatingDisposition := [NOT_APPLICABLE; CONFIRMED; DISPROVED; UNRESOLVED].

Definition reason_of : json -> result ConsultationReason := enum_of "ConsultationReason" reasons reason_value.
Definition decision_of : json -> result ConsultationDecision := enum_of "ConsultationDecision" decisions decision_value.
Definition cheating_of : json -> result CheatingDisposition := enum_of "CheatingDisposition" cheating_dispositions cheating_value.

(** ** Validators *)

Definition _text (value : json) (label : string) : result string :=
  match value with
  | JStr s => require (negb (is_blank s)) ValueError (label +:+ " is required")%stdpp ;? Ok s
  | _ => raise ValueError (label +:+ " is required")%stdpp
  end.
Definition _role (value : json) (label : string) : result string :=
  let? s := _text value label in
  require (mem s ROLE_NAMES) ValueError (label +:+ " is not a registered role")%stdpp ;?
  Ok s.
Definition _strings (values : json) (label : string) : result (list string) :=
  let? items := tuple_of values in
  map_result (fun v => match v with
                       | JStr s => require (negb (is_blank s)) ValueError (label +:+ " must contain non-empty strings")%stdpp ;? Ok s
                       | _ => raise ValueError (label +:+ " must contain non-empty strings")%stdpp
                       end) items.
Definition _flag (value : json) (message : string) : result bool :=
  match value with JBool b => Ok b | _ => raise ValueError message end.
Definition _optional_text (value : json) (label : string) : result (option string) :=
  match value with JNull => Ok None | _ => let? s := _text value label in Ok (Some s) end.

(** ** Requests and testimony *)

Record ConsultationRequest := {
  q_request_id : string;
  q_mission_id : string;
  q_question : string;
  q_reason : ConsultationReason;
  q_requesting_role : string;
  applicable_roles : list string;
  q_round : Z;
  q_suspected : bool;
  q_evidence : list string;
  q_authority_class : option string }.

(** [ConsultationRequest.__post_init__] *)
Definition check_consultation_request (q : ConsultationRequest) : result unit :=
  let? _ := _text (JStr (q_request_id q)) "request_id" in
  let? _ := _text (JStr (q_mission_id q)) "mission_id" in
  let? _ := _text (JStr (q_question q)) "question" in
  let? _ := _role (JStr (q_requesting_role q)) "requesting_role" in
  let? roles := map_result (fun r => _role (JStr r) "applicable role") (applicable_roles q) in
  require (distinct roles) ValueError "applicable_roles must be unique" ;?
  require (Nat.leb MIN_CONSULTED_ROLES (length roles)) ValueError "at least two applicable roles are required" ;?
  require (negb (mem (q_requesting_role q) roles)) ValueError "requesting role cannot approve its own consultation" ;?
  require ((1 <=? q_round q) && (q_round q <=? MAX_CONSULTATION_ROUNDS)) ValueError "round must be between 1 and 3" ;?
  let? _ := _strings (strs (q_evidence q)) "evidence_refs" in
  match q_authority_class q with
  | None => Ok tt
  | Some a =>
      let? _ := _text (JStr a) "authority_class" in
      require (mem a AUTHORITY_CLASSES) ValueError "authority_class is not a genuine human authority class"
  end.

Definition IDENTITY_KINDS : list string := ["model_role"; "procedural_role"].

Record RoleAssessment := {
  a_role : string;
  a_identity : string;
  a_answer : option string;
  a_evidence : list string;
  proposed_decision : ConsultationDecision;
  a_dissent : option string;
  a_cheating : CheatingDisposition;
  authority_required : bool;
  a_identity_kind : string }.

(** [RoleAssessment.__post_init__] *)
Definition check_assessment (a : RoleAssessment) : result unit :=
  let? _ := _role (JStr (a_role a)) "role" in
  let? _ := _text (JStr (a_identity a)) "identity" in
  require (mem (a_identity_kind a) IDENTITY_KINDS) ValueError "role identities cannot claim to be independent humans" ;?
  let? _ := _optional_text (opt_str (a_answer a)) "answer" in
  let? _ := _strings (strs (a_evidence a)) "evidence_refs" in
  let? _ := _optional_text (opt_str (a_dissent a)) "dissent" in
  Ok tt.

(** ** Results *)

Record IdentityRecord := { i_identity : string; i_kind : string; i_role : string }.

Record ConsultationResult := {
  r_request_id : string;
  r_mission_id : string;
  r_question : string;
  r_reason : ConsultationReason;
  r_requesting_role : string;
  consulted_roles : list string;
  r_round : Z;
  r_suspected : bool;
  r_evidence : list string;
  r_decision : ConsultationDecision;
  r_answer : option string;
  r_dissent : list string;
  human_escalation : bool;
  r_authority_class : option string;
  role_first_exhausted : bool;
  r_cheating : CheatingDisposition;
  identity_records : list IdentityRecord }.

Definition result_fields : list string :=
  ["request_id"; "mission_id"; "question"; "reason_code"; "requesting_role"; "consulted_roles"; "round"; "suspected_cheating";
   "evidence_refs"; "decision"; "answer"; "dissent"; "human_escalation"; "authority_class"; "role_first_exhausted";
   "cheating_disposition"; "identity_records"].

(** [dict(value)] of a document's member: a list of pairs makes a dictionary too. *)
Definition dict_of (v : json) : result contract :=
  match v with
  | JObj d => Ok d
  | JList l =>
      let? pairs := map_result (fun x => match x with
                                         | JList [JStr k; y] => Ok (k, y)
                                         | JList _ | JStr _ | JObj _ => raise ValueError "cannot convert dictionary update sequence"
                                         | _ => raise TypeError "cannot convert dictionary update sequence"
                                         end) l in
      Ok (dict_of_pairs pairs)
  | JStr s => if String.eqb s "" then Ok [] else raise ValueError "cannot convert dictionary update sequence"
  | _ => raise TypeError "object is not iterable"
  end.

Definition identity_fields : list string := ["identity"; "identity_kind"; "role"].
Definition identity_document (i : IdentityRecord) : json :=
  JObj [("identity", JStr (i_identity i)); ("identity_kind", JStr (i_kind i)); ("role", JStr (i_role i))].

(** The loop over [identity_records]. *)
Definition identity_record (record : contract) : result IdentityRecord :=
  require (subset record.*1 identity_fields && forallb (fun k => has k record) identity_fields) ValueError
    "identity records have an invalid shape" ;?
  let? identity := _text (get "identity" record) "identity" in
  let? role := _role (get "role" record) "identity role" in
  let? known := in_names (get "identity_kind" record) IDENTITY_KINDS in
  require known ValueError "identity records cannot claim independent human status" ;?
  match get "identity_kind" record with
  | JStr kind => Ok {| i_identity := identity; i_kind := kind; i_role := role |}
  | _ => raise ValueError "identity records cannot claim independent human status"
  end.

Definition QUARANTINE_REASONS : list ConsultationReason := [SUSPECTED_CHEATING; NO_PROGRESS; UNSAFE_EFFECT].

(** [authority_class] is [None] or a genuine class *)
Definition _authority (value : json) : result (option string) :=
  match value with
  | JNull => Ok None
  | _ => let? known := in_names value AUTHORITY_CLASSES in
         require known ValueError "authority_class is not a genuine human authority class" ;?
         Ok (as_str value)
  end.

(** [ConsultationResult] on the keyword arguments [v] *)
Definition result_of (v : contract) : result ConsultationResult :=
  let? request_id := _text (get "request_id" v) "request_id" in
  let? mission_id := _text (get "mission_id" v) "mission_id" in
  let? question := _text (get "question" v) "question" in
  let? reason := reason_of (get "reason_code" v) in
  let? requesting := _role (get "requesting_role" v) "requesting_role" in
  let? consulted := tuple_of (get "consulted_roles" v) in
  let? roles := map_result (fun r => _role r "consulted role") consulted in
  require (Nat.leb MIN_CONSULTED_ROLES (length (dedup roles))) ValueError "at least two distinct roles must be consulted" ;?
  let? round := match get "round" v with
                | JInt n => require ((1 <=? n) && (n <=? MAX_CONSULTATION_ROUNDS)) ValueError "round is outside the bounded consultation range" ;? Ok n
                | _ => raise ValueError "round is outside the bounded consultation range"
                end in
  let? suspected := _flag (get "suspected_cheating" v) "suspected_cheating must be boolean" in
  let? evidence := _strings (get "evidence_refs" v) "evidence_refs" in
  let? decision := decision_of (get "decision" v) in
  let? answer := _optional_text (get "answer" v) "answer" in
  let? dissent := _strings (get "dissent" v) "dissent" in
  let? escalation := _flag (get "human_escalation" v) "human_escalation must be boolean" in
  let? authority := _authority (get "authority_class" v) in
  require (Bool.eqb escalation (bool_decide (decision = TRUE_AUTHORITY_REQUIRED))) ValueError
    "human escalation is reserved for genuine authority need" ;?
  require (match get "role_first_exhausted" v with JBool b => b | _ => false end) ValueError
    "role-first consultation must be exhausted before a result" ;?
  let? cheating := cheating_of (get "cheating_disposition" v) in
  let? listed := tuple_of (get "identity_records" v) in
  let? dicts := map_result dict_of listed in
  require (Nat.leb MIN_CONSULTED_ROLES (length dicts)) ValueError "identity records are required for every consulted role" ;?
  let? records := map_result identity_record dicts in
  require (negb (bool_decide (decision = QUARANTINE)) || (suspected || bool_decide (reason ∈ QUARANTINE_REASONS))) ValueError
    "quarantine requires a typed safety or progress concern" ;?
  require (negb (bool_decide (cheating = CONFIRMED)) || bool_decide (decision = QUARANTINE)) ValueError "confirmed cheating must quarantine" ;?
  require (negb (bool_decide (cheating = UNRESOLVED)) || bool_decide (decision = QUARANTINE)) ValueError
    "unresolved cheating cannot become ordinary success" ;?
  (if bool_decide (decision = TRUE_AUTHORITY_REQUIRED) then
     require (bool_decide (is_Some authority)) ValueError "genuine authority class is required for escalation" ;?
     require (negb (bool_decide (evidence = []))) ValueError "authority escalation requires retained evidence"
   else require (negb (bool_decide (is_Some authority))) ValueError "authority class is only valid for genuine authority escalation") ;?
  Ok {| r_request_id := request_id; r_mission_id := mission_id; r_question := question; r_reason := reason;
        r_requesting_role := requesting; consulted_roles := roles; r_round := round; r_suspected := suspected;
        r_evidence := evidence; r_decision := decision; r_answer := answer; r_dissent := dissent; human_escalation := escalation;
        r_authority_class := authority; role_first_exhausted := true; r_cheating := cheating; identity_records := records |}.

(** [to_document]; also the keyword arguments that give the result. *)
Definition result_to_document (r : ConsultationResult) : contract :=
  [("request_id", JStr (r_request_id r)); ("mission_id", JStr (r_mission_id r)); ("question", JStr (r_question r));
   ("reason_code", JStr (reason_value (r_reason r))); ("requesting_role", JStr (r_requesting_role r));
   ("consulted_roles", strs (consulted_roles r)); ("round", JInt (r_round r)); ("suspected_cheating", JBool (r_suspected r));
   ("evidence_refs", strs (r_evidence r)); ("decision", JStr (decision_value (r_decision r))); ("answer", opt_str (r_answer r));
   ("dissent", strs (r_dissent r)); ("human_escalation", JBool (human_escalation r));
   ("authority_class", opt_str (r_authority_class r)); ("role_first_exhausted", JBool (role_first_exhausted r));
   ("cheating_disposition", JStr (cheating_value (r_cheating r)));
   ("identity_records", JList (map identity_document (identity_records r)))].

(** ** Reading a document *)

(** [len(set(l))] *)
Fixpoint set_size (seen l : list json) : nat :=
  match l with
  | [] => length seen
  | x :: xs => if existsb (py_eq x) seen then set_size seen xs else set_size (x :: seen) xs
  end.

Definition issue (b : bool) (message : string) : list string := if b then [message] else [].

(** [_result_issues]: a member that cannot be looked up in a set raises. *)
Definition _result_issues (d : contract) : result (list string) :=
  let missing := sorted_str (List.filter (fun k => negb (has k d)) result_fields) in
  let unknown := sorted_str (List.filter (fun k => negb (mem k result_fields)) d.*1) in
  let? reason := in_names (get "reason_code" d) (map reason_value reasons) in
  let? role := in_names (get "requesting_role" d) ROLE_NAMES in
  let? decision := in_names (get "decision" d) (map decision_value decisions) in
  let? cheating := in_names (get "cheating_disposition" d) (map cheating_value cheating_dispositions) in
  let? consulted := match get "consulted_roles" d with
                    | JList l => require (forallb hashable l) TypeError "unhashable type" ;? Ok (Nat.leb 2 (set_size [] l))
                    | _ => Ok false
                    end in
  Ok (issue (negb (bool_decide (missing = []))) ("missing properties: " +:+ join ", " missing)%stdpp
      ++ issue (negb (bool_decide (unknown = []))) ("unknown properties: " +:+ join ", " unknown)%stdpp
      ++ issue (negb reason) "reason_code has an invalid value"
      ++ issue (negb role) "requesting_role has an invalid value"
      ++ issue (negb decision) "decision has an invalid value"
      ++ issue (negb cheating) "cheating_disposition has an invalid value"
      ++ issue (negb consulted) "consulted_roles must contain at least two unique roles"
      ++ issue (negb match get "round" d with JInt n => (1 <=? n) && (n <=? MAX_CONSULTATION_ROUNDS) | _ => false end)
           "round is outside the bounded consultation range"
      ++ concat (map (fun k => issue (negb match get k d with JBool _ => true | _ => false end) (k +:+ " must be boolean")%stdpp)
           ["suspected_cheating"; "human_escalation"; "role_first_exhausted"])
      ++ issue (negb match get "role_first_exhausted" d with JBool b => b | _ => false end) "role_first_exhausted must be true"
      ++ issue (negb match get "identity_records" d with JList _ => true | _ => false end) "identity_records must be a list").

(** The conversions before the constructor is called. *)
Definition converted (d : contract) : result contract :=
  let? _ := reason_of (get "reason_code" d) in
  let? _ := decision_of (get "decision" d) in
  let? _ := cheating_of (get "cheating_disposition" d) in
  let? roles := tuple_of (get "consulted_roles" d) in
  let? evidence := tuple_of (get "evidence_refs" d) in
  let? dissent := tuple_of (get "dissent" d) in
  let? listed := tuple_of (get "identity_records" d) in
  let? records := map_result dict_of listed in
  Ok (set_key "consulted_roles" (JList roles) (set_key "evidence_refs" (JList evidence) (set_key "dissent" (JList dissent)
       (set_key "identity_records" (JList (map JObj records)) d)))).
Definition construct_result (d : contract) : result ConsultationResult :=
  let? v := converted d in
  let? v := construct result_fields v in
  result_of v.

(** [dict.fromkeys(issues)] *)
Definition validate_consultation_document (document : json) : result ContractValidation :=
  match document with
  | JObj d =>
      let? found := _result_issues d in
      if negb (bool_decide (found = [])) then Ok {| valid := false; issues := dedup found |}
      else match construct_result d with
           | Ok _ => Ok {| valid := true; issues := [] |}
           | Raise e =>
               if bool_decide (exc_cls e ∈ [TypeError; ValueError; KeyError])
               then Ok {| valid := false; issues := [exc_msg e] |} else Raise e
           end
  | _ => Ok {| valid := false; issues := ["consultation must be an object"] |}
  end.

(** [ConsultationResult.from_document] *)
Definition result_from_document (document : json) : result ConsultationResult :=
  let? validation := validate_consultation_document document in
  require (valid validation) ValueError ("invalid consultation: " +:+ join "; " (issues validation))%stdpp ;?
  match document with
  | JObj d => construct_result d
  | _ => raise ValueError "consultation must be an object"
  end.

(** ** Adjudication *)

(** [dict.fromkeys(...)] without empty items *)
Definition _dissent_for (received : list RoleAssessment) : list string :=
  let stated := List.filter (fun s => negb (String.eqb s "")) (omap a_dissent received) in
  let diverging := dedup (map proposed_decision received) in
  dedup (stated ++ (if Nat.ltb 1 (length diverging)
                    then [("Role recommendations diverged: " +:+ join ", " (sorted_str (map decision_value diverging)))%stdpp]
                    else [])).

Definition suspicion (q : ConsultationRequest) : bool := q_suspected q || bool_decide (q_reason q = SUSPECTED_CHEATING).
Definition cheating_votes (received : list RoleAssessment) : list CheatingDisposition :=
  dedup (List.filter (fun c => negb (bool_decide (c = NOT_APPLICABLE))) (map a_cheating received)).

(** The table: cheating disposition and decision; the answer survives the
    decisions of the last column only. *)
Definition adjudicate (q : ConsultationRequest) (received : list RoleAssessment) (evidence : list string)
    : CheatingDisposition * ConsultationDecision * bool :=
  let votes := cheating_votes received in
  if suspicion q then
    if bool_decide (CONFIRMED ∈ votes) then (CONFIRMED, QUARANTINE, false)
    else if bool_decide (UNRESOLVED ∈ votes) || bool_decide (votes = []) then (UNRESOLVED, QUARANTINE, false)
    else if bool_decide (votes = [DISPROVED]) && negb (bool_decide (evidence = [])) then (DISPROVED, RESOLVED, true)
    else (UNRESOLVED, QUARANTINE, false)
  else if existsb authority_required received || bool_decide (is_Some (q_authority_class q))
          || bool_decide (q_reason q = MISSING_EXTERNAL_AUTHORITY) then
    if negb match q_authority_class q with Some a => mem a AUTHORITY_CLASSES | None => false end || bool_decide (evidence = [])
    then (NOT_APPLICABLE, BLOCKED_EVIDENCE, false)
    else (NOT_APPLICABLE, TRUE_AUTHORITY_REQUIRED, false)
  else if bool_decide (q_reason q = NO_PROGRESS) && (MAX_CONSULTATION_ROUNDS <=? q_round q) then (NOT_APPLICABLE, QUARANTINE, false)
  else if bool_decide (q_reason q = MISSING_EVIDENCE) && bool_decide (evidence = []) then (NOT_APPLICABLE, BLOCKED_EVIDENCE, false)
  else if existsb (fun a => bool_decide (proposed_decision a = REPLAN)) received then (NOT_APPLICABLE, REPLAN, true)
  else if existsb (fun a => bool_decide (proposed_decision a = REMAND)) received then (NOT_APPLICABLE, REMAND, true)
  else (NOT_APPLICABLE, RESOLVED, true).

(** The first answer that is not empty. *)
Definition first_answer (received : list RoleAssessment) : option string :=
  head (List.filter (fun s => negb (String.eqb s "")) (omap a_answer received)).
Definition all_evidence (q : ConsultationRequest) (received : list RoleAssessment) : list string :=
  dedup (q_evidence q ++ concat (map a_evidence received)).

(** The result [evaluate_consultation] constructs. *)
Definition adjudicated (q : ConsultationRequest) (received : list RoleAssessment) : ConsultationResult :=
  let evidence := all_evidence q received in
  let '(cheating, decision, keeps) := adjudicate q received evidence in
  {| r_request_id := q_request_id q; r_mission_id := q_mission_id q; r_question := q_question q; r_reason := q_reason q;
     r_requesting_role := q_requesting_role q; consulted_roles := map a_role received; r_round := q_round q;
     r_suspected := q_suspected q; r_evidence := evidence; r_decision := decision;
     r_answer := if keeps : bool then first_answer received else None; r_dissent := _dissent_for received;
     human_escalation := bool_decide (decision = TRUE_AUTHORITY_REQUIRED);
     r_authority_class := if bool_decide (decision = TRUE_AUTHORITY_REQUIRED) then q_authority_class q else None;
     role_first_exhausted := true; r_cheating := cheating;
     identity_records := map (fun a => {| i_identity := a_identity a; i_kind := a_identity_kind a; i_role := a_role a |}) received |}.

Definition evaluate_consultation (q : ConsultationRequest) (received : list RoleAssessment) : result ConsultationResult :=
  let roles := map a_role received in
  require (Nat.leb MIN_CONSULTED_ROLES (length received)) ValueError
    "human escalation is forbidden before two roles evaluate the question" ;?
  require (distinct roles) ValueError "each applicable role may testify only once per round" ;?
  require (subset roles (applicable_roles q)) ValueError "assessment came from a role outside the applicable route" ;?
  require (Nat.leb MIN_CONSULTED_ROLES (length (dedup roles))) ValueError
    "at least two distinct applicable roles must evaluate the question" ;?
  let r := adjudicated q received in
  require (negb (bool_decide (r_decision r = QUARANTINE)) || (q_suspected q || bool_decide (q_reason q ∈ [SUSPECTED_CHEATING; NO_PROGRESS])))
    ValueError "quarantine requires a typed safety concern" ;?
  require (negb (bool_decide (r_cheating r = NOT_APPLICABLE) && q_suspected q)) AssertionError "suspected cheating must receive an adjudication" ;?
  result_of (result_to_document r).

(** ** The bounded loop *)

Record ConsultationLoop := { loop_history : list ConsultationResult; max_rounds : Z }.

(** [ConsultationLoop.__post_init__] *)
Definition check_loop (l : ConsultationLoop) : result ConsultationLoop :=
  require ((1 <=? max_rounds l) && (max_rounds l <=? MAX_CONSULTATION_ROUNDS)) ValueError "max_rounds must be between 1 and 3" ;?
  require (Z.of_nat (length (loop_history l)) <=? max_rounds l) ValueError "consultation history exceeds the bounded loop" ;?
  Ok l.

Definition loop_append (l : ConsultationLoop) (q : ConsultationRequest) (received : list RoleAssessment)
    : result (ConsultationLoop * ConsultationResult) :=
  require (negb (max_rounds l <=? Z.of_nat (length (loop_history l)))) ValueError
    "consultation loop is exhausted; preserve history and stop" ;?
  require (q_round q =? Z.of_nat (length (loop_history l)) + 1) ValueError
    "consultation rounds must be contiguous and append-only" ;?
  let? r := evaluate_consultation q received in
  let? l' := check_loop {| loop_history := loop_history l ++ [r]; max_rounds := max_rounds l |} in
  Ok (l', r).
Definition exhausted (l : ConsultationLoop) : bool := max_rounds l <=? Z.of_nat (length (loop_history l)).

(** ** Constructing a result *)

Lemma text_reads s label : is_blank s = false -> _text (JStr s) label = Ok s.
Proof. intros H. unfold _text. by rewrite H. Qed.

Lemma text_returns v label s : _text v label = Ok s -> v = JStr s /\ is_blank s = false.
Proof.
  unfold _text. destruct v; try done. intros H. take_guard H E. injection H as ->. bool_hyps. done.
Qed.

Lemma registered_nonblank s : s ∈ ROLE_NAMES -> is_blank s = false.
Proof.
  intros H. unfold ROLE_NAMES in H. repeat (apply elem_of_cons in H as [->|H]; [reflexivity|]). by apply elem_of_nil in H.
Qed.

Lemma role_reads s label : s ∈ ROLE_NAMES -> _role (JStr s) label = Ok s.
Proof. intros H. unfold _role. rewrite text_reads by by apply registered_nonblank. cbn. by rewrite (proj2 (mem_spec _ _) H). Qed.

Lemma role_returns v label s : _role v label = Ok s -> v = JStr s /\ s ∈ ROLE_NAMES.
Proof.
  unfold _role. intros H. take_ok H x E. take_guard H Em. injection H as ->. apply text_returns in E as [-> _].
  by apply mem_spec in Em.
Qed.

Definition nonblank_all (l : list string) : Prop := forall s, s ∈ l -> is_blank s = false.

Lemma strings_read l label : nonblank_all l -> _strings (strs l) label = Ok l.
Proof.
  intros H. unfold _strings. cbn [tuple_of strs rbind]. rewrite <- (map_id l) at 2. apply map_result_map. intros s Hs. by rewrite H.
Qed.

Lemma strings_return l label l' : _strings (strs l) label = Ok l' -> l' = l /\ nonblank_all l.
Proof.
  unfold _strings. cbn [tuple_of strs rbind]. revert l'. induction l as [|s l IH]; intros l' H.
  - injection H as <-. split; [done|]. intros s Hs. by apply elem_of_nil in Hs.
  - cbn [map map_result] in H. take_ok H x E. take_guard E Eb. injection E as ->. take_ok H xs Exs. injection H as <-.
    destruct (IH xs Exs) as [-> Hl]. split; [done|]. intros y [->|Hy]%elem_of_cons; [by bool_hyps|by apply Hl].
Qed.

Lemma optional_reads o label : (forall s, o = Some s -> is_blank s = false) -> _optional_text (opt_str o) label = Ok o.
Proof. intros H. destruct o as [s|]; [|done]. cbn -[_text]. by rewrite text_reads by auto. Qed.

Lemma optional_returns o label o' : _optional_text (opt_str o) label = Ok o' -> o' = o /\ forall s, o = Some s -> is_blank s = false.
Proof.
  destruct o as [s|]; cbn -[_text]; intros H; [|by injection H as <-].
  take_ok H x E. injection H as <-. apply text_returns in E as [[= ->] E]. split; [done|]. by intros ? [= <-].
Qed.

Lemma reason_reads r : reason_of (JStr (reason_value r)) = Ok r.
Proof. by destruct r. Qed.
Lemma decision_reads d : decision_of (JStr (decision_value d)) = Ok d.
Proof. by destruct d. Qed.
Lemma cheating_reads c : cheating_of (JStr (cheating_value c)) = Ok c.
Proof. by destruct c. Qed.

(** What the constructor demands of a result. *)
Record result_ok (r : ConsultationResult) : Prop := {
  ro_request : is_blank (r_request_id r) = false;
  ro_mission : is_blank (r_mission_id r) = false;
  ro_question : is_blank (r_question r) = false;
  ro_requesting : r_requesting_role r ∈ ROLE_NAMES;
  ro_roles : forall x, x ∈ consulted_roles r -> x ∈ ROLE_NAMES;
  ro_two : (2 <= length (dedup (consulted_roles r)))%nat;
  ro_round : 1 <= r_round r <= MAX_CONSULTATION_ROUNDS;
  ro_evidence : nonblank_all (r_evidence r);
  ro_answer : forall s, r_answer r = Some s -> is_blank s = false;
  ro_dissent : nonblank_all (r_dissent r);
  ro_authority : forall a, r_authority_class r = Some a -> a ∈ AUTHORITY_CLASSES;
  ro_escalation : human_escalation r = bool_decide (r_decision r = TRUE_AUTHORITY_REQUIRED);
  ro_exhausted : role_first_exhausted r = true;
  ro_records : (2 <= length (identity_records r))%nat;
  ro_identities : forall i, i ∈ identity_records r -> is_blank (i_identity i) = false /\ i_role i ∈ ROLE_NAMES /\ i_kind i ∈ IDENTITY_KINDS;
  ro_quarantine : r_decision r = QUARANTINE -> r_suspected r = true \/ r_reason r ∈ QUARANTINE_REASONS;
  ro_confirmed : r_cheating r = CONFIRMED -> r_decision r = QUARANTINE;
  ro_unresolved : r_cheating r = UNRESOLVED -> r_decision r = QUARANTINE;
  ro_true_authority : r_decision r = TRUE_AUTHORITY_REQUIRED <-> is_Some (r_authority_class r);
  ro_supported : r_decision r = TRUE_AUTHORITY_REQUIRED -> r_evidence r <> [] }.

Definition identity_members (i : IdentityRecord) : contract :=
  [("identity", JStr (i_identity i)); ("identity_kind", JStr (i_kind i)); ("role", JStr (i_role i))].

Lemma identity_reads i : is_blank (i_identity i) = false -> i_role i ∈ ROLE_NAMES -> i_kind i ∈ IDENTITY_KINDS ->
  identity_record (identity_members i) = Ok i.
Proof.
  intros H1 H2 H3. unfold identity_record. change (subset _ _ && _) with true. cbn [require rbind].
  change (get "identity" _) with (JStr (i_identity i)). change (get "role" _) with (JStr (i_role i)).
  change (get "identity_kind" _) with (JStr (i_kind i)). rewrite text_reads, role_reads by done. cbn [rbind in_names].
  rewrite (proj2 (mem_spec _ _) H3). by destruct i.
Qed.

Lemma as_strs_roles l label : (forall x, x ∈ l -> x ∈ ROLE_NAMES) ->
  map_result (fun r => _role r label) (map JStr l) = Ok l.
Proof. intros H. rewrite <- (map_id l) at 2. apply map_result_map. intros x Hx. apply role_reads. by apply H. Qed.

Lemma identities_read l : (forall i, i ∈ l -> is_blank (i_identity i) = false /\ i_role i ∈ ROLE_NAMES /\ i_kind i ∈ IDENTITY_KINDS) ->
  exists ds, map_result dict_of (map identity_document l) = Ok ds /\ length ds = length l /\ map_result identity_record ds = Ok l.
Proof.
  intros H. exists (map identity_members l).
  split; [by apply map_result_map|]. split; [by rewrite length_map|]. rewrite <- (map_id l) at 2. apply map_result_map.
  intros i Hi. destruct (H i Hi) as (H1 & H2 & H3). apply (identity_reads i H1 H2 H3).
Qed.

Lemma implication_holds (P Q : Prop) `{Decision P, Decision Q} : (P -> Q) -> negb (bool_decide P) || bool_decide Q = true.
Proof. intros H1. repeat case_bool_decide; tauto. Qed.

Lemma authority_reads o : (forall a, o = Some a -> a ∈ AUTHORITY_CLASSES) -> _authority (opt_str o) = Ok o.
Proof.
  intros H. destruct o as [a|]; [|done]. cbn. by rewrite (proj2 (mem_spec _ _) (H a eq_refl)).
Qed.

(** Compute the members of a document with literal keys. *)
Ltac read_members d :=
  repeat match goal with
  | |- context [get ?k d] =>
      let v := eval lazy beta iota zeta delta
        [get lookup_key List.find option_map fst snd result_to_document default from_option id String.eqb Ascii.eqb Bool.eqb] in (get k d) in
      change (get k d) with v
  end.

(** The constructor returns the result itself when its demands are met. *)
Lemma result_constructs r : result_ok r -> result_of (result_to_document r) = Ok r.
Proof.
  intros []. unfold result_of.
  read_members (result_to_document r).
  rewrite !text_reads by done. cbn [rbind]. rewrite reason_reads, role_reads by done. cbn [rbind tuple_of strs].
  rewrite as_strs_roles by done. cbn [rbind]. rewrite (proj2 (Nat.leb_le _ _)) by done. cbn [require rbind].
  assert (Er : (1 <=? r_round r) && (r_round r <=? MAX_CONSULTATION_ROUNDS) = true) by (apply andb_true_iff; split; apply Z.leb_le; apply ro_round0).
  rewrite Er. cbn [require rbind _flag].
  rewrite strings_read by done. cbn [rbind]. rewrite decision_reads. cbn [rbind]. rewrite optional_reads by done. cbn [rbind].
  rewrite strings_read by done. cbn [rbind]. rewrite authority_reads by done. cbn [rbind].
  rewrite ro_escalation0, Bool.eqb_reflx, ro_exhausted0. cbn [require rbind]. rewrite cheating_reads. cbn [rbind tuple_of].
  destruct (identities_read (identity_records r) ro_identities0) as (ds & -> & Hl & Hds). cbn [rbind].
  rewrite (proj2 (Nat.leb_le _ _)) by (unfold MIN_CONSULTED_ROLES; lia). cbn [require rbind]. rewrite Hds. cbn [rbind].
  assert (Eq : negb (bool_decide (r_decision r = QUARANTINE)) || (r_suspected r || bool_decide (r_reason r ∈ QUARANTINE_REASONS)) = true).
  { destruct (decide (r_decision r = QUARANTINE)) as [E|E]; [|by rewrite bool_decide_eq_false_2].
    rewrite !orb_true_iff, bool_decide_eq_true. right. by apply ro_quarantine0. }
  rewrite Eq. cbn [require rbind].
  rewrite (implication_holds _ _ ro_confirmed0), (implication_holds _ _ ro_unresolved0). cbn [require rbind].
  destruct (decide (r_decision r = TRUE_AUTHORITY_REQUIRED)) as [Et|Et].
  - rewrite (bool_decide_eq_true_2 _ Et). rewrite (bool_decide_eq_true_2 _ (proj1 ro_true_authority0 Et)), (bool_decide_eq_false_2 _ (ro_supported0 Et)). cbn.
    destruct r. cbn in *. by subst.
  - rewrite (bool_decide_eq_false_2 _ Et). rewrite bool_decide_eq_false_2 by (intros H; by apply Et, ro_true_authority0). cbn. destruct r. cbn in *. subst. by rewrite bool_decide_eq_false_2.
Qed.

(** ** Adjudication is total *)

Record request_ok (q : ConsultationRequest) : Prop := {
  qo_request : is_blank (q_request_id q) = false;
  qo_mission : is_blank (q_mission_id q) = false;
  qo_question : is_blank (q_question q) = false;
  qo_requesting : q_requesting_role q ∈ ROLE_NAMES;
  qo_registered : forall x, x ∈ applicable_roles q -> x ∈ ROLE_NAMES;
  qo_distinct : NoDup (applicable_roles q);
  qo_two : (2 <= length (applicable_roles q))%nat;
  qo_not_own : q_requesting_role q ∉ applicable_roles q;
  qo_round : 1 <= q_round q <= MAX_CONSULTATION_ROUNDS;
  qo_evidence : nonblank_all (q_evidence q);
  qo_authority : forall a, q_authority_class q = Some a -> a ∈ AUTHORITY_CLASSES }.

Record assessment_ok (a : RoleAssessment) : Prop := {
  ao_role : a_role a ∈ ROLE_NAMES;
  ao_identity : is_blank (a_identity a) = false;
  ao_kind : a_identity_kind a ∈ IDENTITY_KINDS;
  ao_answer : forall s, a_answer a = Some s -> is_blank s = false;
  ao_evidence : nonblank_all (a_evidence a);
  ao_dissent : forall s, a_dissent a = Some s -> is_blank s = false }.

Lemma roles_returned l label l' : map_result (fun r => _role (JStr r) label) l = Ok l' ->
  l' = l /\ forall x, x ∈ l -> x ∈ ROLE_NAMES.
Proof.
  revert l'. induction l as [|s l IH]; intros l' H; cbn [map_result] in H.
  - injection H as <-. split; [done|]. intros x Hx. by apply elem_of_nil in Hx.
  - take_ok H x E. apply role_returns in E as [[= <-] E]. take_ok H xs Exs. injection H as <-. destruct (IH xs Exs) as [-> Hl].
    split; [done|]. intros y [->|Hy]%elem_of_cons; [done|by apply Hl].
Qed.

Lemma check_request_ok q : check_consultation_request q = Ok tt -> request_ok q.
Proof.
  intros H. unfold check_consultation_request in H. take_ok H u1 E1. take_ok H u2 E2. take_ok H u3 E3. take_ok H u4 E4.
  take_ok H roles E5. take_guard H E6. take_guard H E7. take_guard H E8. take_guard H E9. take_ok H u5 E10.
  apply text_returns in E1 as [[= <-] E1], E2 as [[= <-] E2], E3 as [[= <-] E3]. apply role_returns in E4 as [[= <-] E4].
  apply roles_returned in E5 as [-> E5]. apply strings_return in E10 as [_ E10]. bool_hyps.
  split; try done.
  - by eapply bool_decide_eq_true.
  - by apply Nat.leb_le.
  - intros Hin. apply mem_spec in Hin. congruence.
  - intros a E. rewrite E in H. take_ok H s Es. apply require_ok in H. by apply mem_spec.
Qed.

Lemma check_assessment_ok a : check_assessment a = Ok tt -> assessment_ok a.
Proof.
  intros H. unfold check_assessment in H. take_ok H u1 E1. take_ok H u2 E2. take_guard H E3. take_ok H u4 E4. take_ok H u5 E5. take_ok H u6 E6.
  apply role_returns in E1 as [[= <-] E1]. apply text_returns in E2 as [[= <-] E2]. apply mem_spec in E3.
  apply optional_returns in E4 as [_ E4], E6 as [_ E6]. apply strings_return in E5 as [_ E5]. by split.
Qed.

Lemma in_first_answer received s : first_answer received = Some s -> exists a, a ∈ received /\ a_answer a = Some s.
Proof.
  unfold first_answer. intros H. assert (Hin : s ∈ List.filter (fun s => negb (String.eqb s "")) (omap a_answer received)).
  { destruct (List.filter _ _); [done|]. injection H as ->. by left. }
  apply list_elem_of_In, List.filter_In in Hin as [Hin _]. apply list_elem_of_In, list_elem_of_omap in Hin as (a & Ha & E). by exists a.
Qed.

Lemma in_all_evidence q received s : s ∈ all_evidence q received <-> s ∈ q_evidence q \/ exists a, a ∈ received /\ s ∈ a_evidence a.
Proof.
  unfold all_evidence. rewrite elem_of_dedup, elem_of_app. assert (H : s ∈ concat (map a_evidence received) <-> exists a, a ∈ received /\ s ∈ a_evidence a).
  { rewrite list_elem_of_In, in_concat. split.
    - intros (l & Hl & Hs). apply in_map_iff in Hl as (a & <- & Ha). exists a. by rewrite !list_elem_of_In.
    - intros (a & Ha & Hs). exists (a_evidence a). rewrite <- !list_elem_of_In. split; [|done]. apply list_elem_of_fmap. by exists a. }
  by rewrite H.
Qed.

Lemma in_dissent received s : s ∈ _dissent_for received -> (exists a, a ∈ received /\ a_dissent a = Some s)
  \/ exists t, s = ("Role recommendations diverged: " +:+ t)%stdpp.
Proof.
  unfold _dissent_for. rewrite elem_of_dedup, elem_of_app. intros [H|H].
  - left. apply list_elem_of_In, List.filter_In in H as [H _]. apply list_elem_of_In, list_elem_of_omap in H as (a & Ha & E). by exists a.
  - right. destruct (Nat.ltb _ _); [|by apply elem_of_nil in H]. apply list_elem_of_singleton in H as ->. by eexists.
Qed.

(** The rows of the table that matter to the constructor. *)
Lemma adjudicate_cases q received evidence cheating decision keeps : adjudicate q received evidence = (cheating, decision, keeps) ->
  (decision = QUARANTINE -> suspicion q = true \/ q_reason q = NO_PROGRESS)
  /\ (cheating = CONFIRMED \/ cheating = UNRESOLVED -> decision = QUARANTINE)
  /\ (cheating = NOT_APPLICABLE -> suspicion q = false)
  /\ (decision = TRUE_AUTHORITY_REQUIRED -> keeps = false /\ suspicion q = false /\ evidence <> []
       /\ exists a, q_authority_class q = Some a /\ a ∈ AUTHORITY_CLASSES).
Proof.
  unfold adjudicate. cbv zeta. destruct (suspicion q).
  - repeat match goal with |- context [if ?b then _ else _] => destruct b end; intros [= <- <- <-]; naive_solver.
  - destruct (existsb authority_required received || _ || _).
    + destruct (_ || bool_decide (evidence = [])) eqn:E; intros [= <- <- <-]; [naive_solver|].
      bool_hyps. destruct (q_authority_class q) as [a|]; [|done]. apply mem_spec in H. naive_solver.
    + destruct (bool_decide (q_reason q = NO_PROGRESS) && _) eqn:E; [bool_hyps; intros [= <- <- <-]; naive_solver|].
      repeat match goal with |- context [if ?b then _ else _] => destruct b end; intros [= <- <- <-]; naive_solver.
Qed.

Definition may_testify (q : ConsultationRequest) (received : list RoleAssessment) : Prop :=
  (2 <= length received)%nat /\ NoDup (map a_role received) /\ forall a, a ∈ received -> a_role a ∈ applicable_roles q.

Lemma adjudicated_ok q received : request_ok q -> (forall a, a ∈ received -> assessment_ok a) ->
  (2 <= length received)%nat -> NoDup (map a_role received) -> result_ok (adjudicated q received).
Proof.
  intros Hq Ha Hl Hn. unfold adjudicated. set (evidence := all_evidence q received). cbv zeta.
  destruct (adjudicate q received evidence) as [[cheating decision] keeps] eqn:E.
  destruct (adjudicate_cases _ _ _ _ _ _ E) as (Hquar & Hcheat & Hnot & Htrue).
  assert (Hev : nonblank_all evidence).
  { intros s [Hs|(a & Hin & Hs)]%in_all_evidence; [by apply (qo_evidence q Hq)|by apply (ao_evidence a (Ha a Hin))]. }
  split; cbn; try (by apply Hq); try done.
  - intros x (a & -> & Hin)%list_elem_of_fmap. by apply (ao_role a (Ha a Hin)).
  - change (2 <= length (dedup (map a_role received)))%nat. by rewrite dedup_id, length_map.
  - intros s Hs. destruct keeps; [|done]. apply in_first_answer in Hs as (a & Hin & Es). by apply (ao_answer a (Ha a Hin)).
  - intros s [(a & Hin & Es)|[t ->]]%in_dissent; [by apply (ao_dissent a (Ha a Hin))|reflexivity].
  - intros a Es. case_bool_decide; [|done]. by apply (qo_authority q Hq).
  - by rewrite length_map.
  - intros i (a & -> & Hin)%list_elem_of_fmap. cbn. destruct (Ha a Hin). done.
  - intros Ed. destruct (Hquar Ed) as [Hs|Hs].
    + unfold suspicion in Hs. apply orb_true_iff in Hs as [Hs|Hs]; [by left|]. right. bool_hyps. rewrite Hs. by left.
    + right. rewrite Hs. right. by left.
  - auto.
  - auto.
  - split; [intros Ed; rewrite bool_decide_eq_true_2 by done|].
    + destruct (Htrue Ed) as (_ & _ & _ & a & -> & _). by eexists.
    + case_bool_decide; [done|]. by intros [].
  - intros Ed. by destruct (Htrue Ed) as (_ & _ & Hne & _).
Qed.

(** The two guards before the result is constructed never fail. *)
Lemma evaluate_guards q received evidence cheating decision keeps : adjudicate q received evidence = (cheating, decision, keeps) ->
  negb (bool_decide (decision = QUARANTINE)) || (q_suspected q || bool_decide (q_reason q ∈ [SUSPECTED_CHEATING; NO_PROGRESS])) = true
  /\ negb (bool_decide (cheating = NOT_APPLICABLE) && q_suspected q) = true.
Proof.
  intros E. destruct (adjudicate_cases _ _ _ _ _ _ E) as (Hquar & _ & Hnot & _). split.
  - destruct (decide (decision = QUARANTINE)) as [Ed|Ed]; [|by rewrite bool_decide_eq_false_2].
    rewrite !orb_true_iff, bool_decide_eq_true. right. destruct (Hquar Ed) as [Hs|Hs].
    + unfold suspicion in Hs. apply orb_true_iff in Hs as [Hs|Hs]; [by left|]. right. bool_hyps. rewrite Hs. by left.
    + right. rewrite Hs. right. by left.
  - destruct (decide (cheating = NOT_APPLICABLE)) as [Ec|Ec]; [|by rewrite bool_decide_eq_false_2].
    assert (Hs := Hnot Ec). unfold suspicion in Hs. apply orb_false_iff in Hs as [Hs _]. by rewrite Hs, andb_false_r.
Qed.

Lemma evaluate_accepts q received : request_ok q -> (forall a, a ∈ received -> assessment_ok a) -> may_testify q received ->
  evaluate_consultation q received = Ok (adjudicated q received).
Proof.
  intros Hq Ha (Hl & Hn & Hr). unfold evaluate_consultation. cbv zeta. rewrite (proj2 (Nat.leb_le _ _)) by done. cbn [require rbind].
  unfold distinct. rewrite bool_decide_eq_true_2 by done. cbn [require rbind].
  assert (Hs : subset (map a_role received) (applicable_roles q) = true).
  { apply forallb_forall. intros x Hx. apply mem_spec. apply list_elem_of_In, list_elem_of_fmap in Hx as (a & -> & Hin). by apply Hr. }
  rewrite Hs. cbn [require rbind].
  assert (Hd : length (dedup (map a_role received)) = length received) by (by rewrite dedup_id, length_map).
  rewrite Hd, (proj2 (Nat.leb_le _ _)) by done. cbn [require rbind].
  assert (Hok := adjudicated_ok q received Hq Ha Hl Hn).
  assert (Hg : negb (bool_decide (r_decision (adjudicated q received) = QUARANTINE))
      || (q_suspected q || bool_decide (q_reason q ∈ [SUSPECTED_CHEATING; NO_PROGRESS])) = true
    /\ negb (bool_decide (r_cheating (adjudicated q received) = NOT_APPLICABLE) && q_suspected q) = true).
  { unfold adjudicated. cbv zeta. destruct (adjudicate q received (all_evidence q received)) as [[c d] k] eqn:E.
    by apply (evaluate_guards q received (all_evidence q received) c d k). }
  destruct Hg as [-> ->]. cbn [require rbind]. by apply result_constructs.
Qed.

(** What a result that was returned is. *)
Lemma evaluate_returns q received r : check_consultation_request q = Ok tt -> (forall a, a ∈ received -> check_assessment a = Ok tt) ->
  evaluate_consultation q received = Ok r -> may_testify q received /\ r = adjudicated q received.
Proof.
  intros Hq Ha H. assert (Hm : may_testify q received).
  { unfold evaluate_consultation in H. take_guard H H1. take_guard H H2. take_guard H H3. split; [by apply Nat.leb_le|].
    split; [by eapply bool_decide_eq_true|]. intros a Hin. unfold subset in H3. rewrite forallb_forall in H3.
    apply mem_spec, H3, list_elem_of_In, list_elem_of_fmap. by exists a. }
  split; [done|]. rewrite evaluate_accepts in H; [by injection H|by apply check_request_ok|intros a Hin; by apply check_assessment_ok, Ha|done].
Qed.

(** Adjudication is total.  For a constructed request and constructed
    assessments, [evaluate_consultation] returns the adjudicated result
    exactly when at least two assessments came from pairwise different roles
    the question was routed to; every other call raises [ValueError].  Neither
    the guards after the table nor the checks of the result's constructor can
    refuse what the table decided. *)
Theorem consultation_total q received : check_consultation_request q = Ok tt ->
  (forall a, a ∈ received -> check_assessment a = Ok tt) ->
  (may_testify q received -> evaluate_consultation q received = Ok (adjudicated q received))
  /\ (~ may_testify q received -> exists m, evaluate_consultation q received = raise ValueError m).
Proof.
  intros Hq Ha. split.
  - apply evaluate_accepts; [by apply check_request_ok|]. intros a Hin. by apply check_assessment_ok, Ha.
  - intros Hm. unfold evaluate_consultation. cbv zeta. destruct (Nat.leb _ (length received)) eqn:E1; [|by eexists]. cbn [require rbind].
    destruct (distinct _) eqn:E2; [|by eexists]. cbn [require rbind]. destruct (subset _ _) eqn:E3; [|by eexists]. exfalso. apply Hm.
    split; [by apply Nat.leb_le|]. split; [by eapply bool_decide_eq_true|]. intros a Hin. unfold subset in E3. rewrite forallb_forall in E3.
    apply mem_spec, E3, list_elem_of_In, list_elem_of_fmap. by exists a.
Qed.

(** ** What an adjudication guarantees *)

Lemma in_cheating_votes received c : c ∈ cheating_votes received <-> c <> NOT_APPLICABLE /\ exists a, a ∈ received /\ a_cheating a = c.
Proof.
  unfold cheating_votes. rewrite elem_of_dedup, list_elem_of_In, List.filter_In, <- list_elem_of_In, list_elem_of_fmap, negb_true_iff, bool_decide_eq_false. split.
  - intros [(a & -> & Hin) Hn]. split; [done|]. by exists a.
  - intros [Hn (a & Hin & <-)]. split; [|done]. by exists a.
Qed.

(** The fields of an adjudicated result that the table decides. *)
Lemma adjudicated_by q received cheating decision keeps : adjudicate q received (all_evidence q received) = (cheating, decision, keeps) ->
  r_cheating (adjudicated q received) = cheating /\ r_decision (adjudicated q received) = decision
  /\ r_answer (adjudicated q received) = (if keeps then first_answer received else None)
  /\ r_authority_class (adjudicated q received) = (if bool_decide (decision = TRUE_AUTHORITY_REQUIRED) then q_authority_class q else None)
  /\ human_escalation (adjudicated q received) = bool_decide (decision = TRUE_AUTHORITY_REQUIRED).
Proof. intros E. unfold adjudicated. cbv zeta. by rewrite E. Qed.

Lemma suspected_cheating_cases q received r : check_consultation_request q = Ok tt ->
  (forall a, a ∈ received -> check_assessment a = Ok tt) -> evaluate_consultation q received = Ok r -> suspicion q = true ->
  (r_decision r = QUARANTINE /\ r_answer r = None /\ (r_cheating r = CONFIRMED \/ r_cheating r = UNRESOLVED))
  \/ (r_decision r = RESOLVED /\ r_cheating r = DISPROVED /\ r_evidence r <> []
      /\ (exists a, a ∈ received /\ a_cheating a = DISPROVED)
      /\ forall a, a ∈ received -> a_cheating a = NOT_APPLICABLE \/ a_cheating a = DISPROVED).
Proof.
  intros Hq Ha H Hs. apply evaluate_returns in H as [_ ->]; [|done..].
  destruct (adjudicate q received (all_evidence q received)) as [[c d] k] eqn:E.
  destruct (adjudicated_by _ _ _ _ _ E) as (-> & -> & -> & _).
  assert (Hev : r_evidence (adjudicated q received) = all_evidence q received) by (unfold adjudicated; cbv zeta; by rewrite E).
  rewrite Hev. unfold adjudicate in E. cbv zeta in E. rewrite Hs in E.
  case_bool_decide as H1; [injection E as <- <- <-; left; auto|].
  destruct (_ || _) eqn:H2; [injection E as <- <- <-; left; auto|].
  destruct (_ && _) eqn:H3; [|injection E as <- <- <-; left; auto]. injection E as <- <- <-. bool_hyps. right.
  split; [done|]. split; [done|]. split; [done|].
  assert (Hd : DISPROVED ∈ cheating_votes received) by (rewrite H; by left). split; [by apply in_cheating_votes in Hd as [_ Hd]|].
  intros a Hin. destruct (decide (a_cheating a = NOT_APPLICABLE)) as [Hn|Hn]; [by left|]. right.
  assert (Hv : a_cheating a ∈ cheating_votes received) by (apply in_cheating_votes; split; [done|by exists a]).
  rewrite H in Hv. by apply list_elem_of_singleton in Hv.
Qed.

(** Suspected cheating never becomes an ordinary success by default.  When
    the request is about cheating, or flags it, the result is a quarantine
    without an answer unless at least one role disproved the suspicion, no
    role confirmed it or left it open, and some evidence is retained; only
    then is it disproved and resolved. *)
Theorem suspected_cheating_is_adjudicated q received r : check_consultation_request q = Ok tt ->
  (forall a, a ∈ received -> check_assessment a = Ok tt) -> evaluate_consultation q received = Ok r -> suspicion q = true ->
  (r_decision r = QUARANTINE /\ r_answer r = None /\ (r_cheating r = CONFIRMED \/ r_cheating r = UNRESOLVED))
  \/ (r_decision r = RESOLVED /\ r_cheating r = DISPROVED /\ r_evidence r <> []
      /\ (exists a, a ∈ received /\ a_cheating a = DISPROVED)
      /\ forall a, a ∈ received -> a_cheating a = NOT_APPLICABLE \/ a_cheating a = DISPROVED).
Proof. apply suspected_cheating_cases. Qed.

(** C23: a human is asked only for genuine authority.  A result that escalates
    names one of the listed authority classes, retains evidence, carries no
    answer, does not concern suspected cheating, and came after at least two
    different roles, none of them the one that asked, had testified. *)
Theorem escalation_is_earned q received r : check_consultation_request q = Ok tt ->
  (forall a, a ∈ received -> check_assessment a = Ok tt) -> evaluate_consultation q received = Ok r -> human_escalation r = true ->
  (exists a, r_authority_class r = Some a /\ q_authority_class q = Some a /\ a ∈ AUTHORITY_CLASSES)
  /\ r_evidence r <> [] /\ r_answer r = None /\ suspicion q = false
  /\ (2 <= length (consulted_roles r))%nat /\ NoDup (consulted_roles r) /\ q_requesting_role q ∉ consulted_roles r.
Proof.
  intros Hq Ha H He. apply evaluate_returns in H as [(Hl & Hn & Hr) ->]; [|done..].
  destruct (adjudicate q received (all_evidence q received)) as [[c d] k] eqn:E.
  destruct (adjudicated_by _ _ _ _ _ E) as (_ & _ & -> & -> & He'). rewrite He' in He.
  assert (Hev : r_evidence (adjudicated q received) = all_evidence q received) by (unfold adjudicated; cbv zeta; by rewrite E).
  assert (Hro : consulted_roles (adjudicated q received) = map a_role received) by (unfold adjudicated; cbv zeta; by rewrite E).
  rewrite Hev, Hro, He. apply bool_decide_eq_true in He. destruct (adjudicate_cases _ _ _ _ _ _ E) as (_ & _ & _ & Ht).
  destruct (Ht He) as (-> & Hs & Hne & a & Hqa & Hcl). split; [by exists a|]. split; [done|]. split; [done|]. split; [done|].
  rewrite length_map. split; [done|]. split; [done|]. intros (x & Ex & Hx)%list_elem_of_fmap.
  apply (qo_not_own q (check_request_ok q Hq)). rewrite Ex. by apply Hr.
Qed.

(** *** The order of testimony *)

Lemma existsb_perm {A} (f : A -> bool) l l' : l ≡ₚ l' -> existsb f l = existsb f l'.
Proof. induction 1; cbn; [done|by f_equal|by rewrite !orb_assoc, (orb_comm (f y))|congruence]. Qed.

Lemma adjudicate_perm q received received' evidence evidence' : received ≡ₚ received' -> (evidence = [] <-> evidence' = []) ->
  adjudicate q received evidence = adjudicate q received' evidence'.
Proof.
  intros Hp He. assert (Hv : cheating_votes received ≡ₚ cheating_votes received').
  { apply dedup_perm, filter_perm. by rewrite Hp. }
  assert (Hin : forall c, bool_decide (c ∈ cheating_votes received) = bool_decide (c ∈ cheating_votes received')).
  { intros c. apply bool_decide_ext. by rewrite Hv. }
  assert (Hnil : bool_decide (cheating_votes received = []) = bool_decide (cheating_votes received' = [])).
  { apply bool_decide_ext. split; intros E; rewrite E in Hv; [by apply Permutation_nil in Hv|by apply Permutation_nil_r in Hv]. }
  assert (Hone : bool_decide (cheating_votes received = [DISPROVED]) = bool_decide (cheating_votes received' = [DISPROVED])).
  { apply bool_decide_ext. split; intros E; rewrite E in Hv; [by apply Permutation_length_1_inv in Hv|by apply Permutation_singleton_r in Hv]. }
  assert (Hee : bool_decide (evidence = []) = bool_decide (evidence' = [])) by (by apply bool_decide_ext).
  unfold adjudicate. cbv zeta. rewrite !Hin, Hnil, Hone, Hee. by rewrite !(existsb_perm _ _ _ Hp).
Qed.

(** The order of the testimony decides nothing.  Two calls with the same
    assessments in different orders both return or both raise, and the results
    agree in decision, cheating disposition, escalation and authority class
    and retain the same evidence; only the answer quoted (the first one given)
    and the order of the lists may differ. *)
Theorem adjudication_order_independent q received received' r : check_consultation_request q = Ok tt ->
  (forall a, a ∈ received -> check_assessment a = Ok tt) -> received ≡ₚ received' -> evaluate_consultation q received = Ok r ->
  exists r', evaluate_consultation q received' = Ok r' /\ r_decision r' = r_decision r /\ r_cheating r' = r_cheating r
    /\ human_escalation r' = human_escalation r /\ r_authority_class r' = r_authority_class r
    /\ (is_Some (r_answer r') <-> is_Some (r_answer r)) /\ forall e, e ∈ r_evidence r' <-> e ∈ r_evidence r.
Proof.
  intros Hq Ha Hp H. apply evaluate_returns in H as [(Hl & Hn & Hr) ->]; [|done..].
  exists (adjudicated q received'). split.
  { apply evaluate_accepts; [by apply check_request_ok|intros a Hin; apply check_assessment_ok, Ha; by rewrite Hp|].
    split; [by rewrite <- Hp|]. split; [by rewrite <- Hp|]. intros a Hin. apply Hr. by rewrite Hp. }
  assert (Hev : forall e, e ∈ all_evidence q received' <-> e ∈ all_evidence q received).
  { intros e. rewrite !in_all_evidence. by setoid_rewrite Hp. }
  assert (Hnil : all_evidence q received' = [] <-> all_evidence q received = []).
  { split; intros E; rewrite E in Hev; [destruct (all_evidence q received) as [|e l]|destruct (all_evidence q received') as [|e l]]; try done;
      assert (Hx : e ∈ []) by (apply Hev; by left); by apply elem_of_nil in Hx. }
  assert (Eadj := adjudicate_perm q received' received _ _ (symmetry Hp) Hnil).
  destruct (adjudicate q received (all_evidence q received)) as [[c d] k] eqn:E.
  destruct (adjudicated_by _ _ _ _ _ E) as (-> & -> & -> & -> & ->). destruct (adjudicated_by _ _ _ _ _ Eadj) as (-> & -> & -> & -> & ->).
  do 4 (split; [done|]). split.
  - destruct k; [|done]. unfold first_answer. assert (Hf : List.filter (fun s => negb (String.eqb s "")) (omap a_answer received')
      ≡ₚ List.filter (fun s => negb (String.eqb s "")) (omap a_answer received)) by (apply filter_perm; by rewrite Hp).
    revert Hf. generalize (List.filter (fun s => negb (String.eqb s "")) (omap a_answer received')) as l1.
    generalize (List.filter (fun s => negb (String.eqb s "")) (omap a_answer received)) as l2. intros l2 l1 Hf.
    destruct l1 as [|x l1], l2 as [|y l2]; [done|by apply Permutation_nil in Hf|by apply Permutation_nil_r in Hf|].
    split; intros _; by eexists.
  - unfold adjudicated. cbv zeta. rewrite E, Eadj. exact Hev.
Qed.

(** *** Testimony the table does not read *)

Definition with_cheating (c : CheatingDisposition) (a : RoleAssessment) : RoleAssessment :=
  {| a_role := a_role a; a_identity := a_identity a; a_answer := a_answer a; a_evidence := a_evidence a;
     proposed_decision := proposed_decision a; a_dissent := a_dissent a; a_cheating := c;
     authority_required := authority_required a; a_identity_kind := a_identity_kind a |}.

Lemma map_with_cheating {A} (f : RoleAssessment -> A) c l : (forall a, f (with_cheating c a) = f a) -> map f (map (with_cheating c) l) = map f l.
Proof. intros H. rewrite map_map. by apply map_ext. Qed.

Lemma omap_with_cheating {A} (f : RoleAssessment -> option A) c l : (forall a, f (with_cheating c a) = f a) ->
  omap f (map (with_cheating c) l) = omap f l.
Proof. intros H. induction l as [|a l IH]; [done|]. cbn. by rewrite H, IH. Qed.

Lemma existsb_with_cheating (f : RoleAssessment -> bool) c l : (forall a, f (with_cheating c a) = f a) ->
  existsb f (map (with_cheating c) l) = existsb f l.
Proof. intros H. induction l as [|a l IH]; [done|]. cbn. by rewrite H, IH. Qed.

(** What roles say about cheating is heard only when the question was about
    it.  For a request that neither flags nor names suspected cheating, the
    cheating disposition of every assessment can be replaced by any other, by
    a confirmation of every role too, and the result is the same. *)
Theorem unasked_cheating_reports_are_ignored q received c : suspicion q = false ->
  evaluate_consultation q (map (with_cheating c) received) = evaluate_consultation q received.
Proof.
  intros Hs. assert (E : adjudicated q (map (with_cheating c) received) = adjudicated q received).
  { unfold adjudicated, all_evidence, _dissent_for, first_answer, adjudicate. cbv zeta. rewrite Hs.
    rewrite !omap_with_cheating, !existsb_with_cheating, !map_with_cheating by done. done. }
  unfold evaluate_consultation. cbv zeta. rewrite E, length_map, !map_with_cheating by done. done.
Qed.

(** A recommendation to quarantine decides nothing.  When every role that
    testifies proposes [QUARANTINE] and no role asks for authority, a question
    about a design, an unsafe effect or independence without an authority
    class is resolved, with the first answer given. *)
Theorem recommended_quarantine_resolves q received r : check_consultation_request q = Ok tt ->
  (forall a, a ∈ received -> check_assessment a = Ok tt) -> evaluate_consultation q received = Ok r ->
  suspicion q = false -> q_authority_class q = None -> q_reason q ∈ [AMBIGUOUS_DESIGN; UNSAFE_EFFECT; INDEPENDENCE_CONCERN] ->
  (forall a, a ∈ received -> proposed_decision a = QUARANTINE /\ authority_required a = false) ->
  r_decision r = RESOLVED /\ r_answer r = first_answer received.
Proof.
  intros Hq Ha H Hs Hau Hre Hall. apply evaluate_returns in H as [_ ->]; [|done..].
  assert (Hno : forall f, (forall a, a ∈ received -> f a = false) -> existsb f received = false).
  { intros f Hf. apply not_true_iff_false. rewrite existsb_exists. intros (a & Hin & Et). rewrite Hf in Et; [done|]. by apply list_elem_of_In. }
  assert (E : adjudicate q received (all_evidence q received) = (NOT_APPLICABLE, RESOLVED, true)).
  { unfold adjudicate. cbv zeta. rewrite Hs, Hau. rewrite (Hno authority_required) by (intros a Hin; by apply Hall).
    rewrite !Hno by (intros a Hin; destruct (Hall a Hin) as [-> _]; reflexivity).
    repeat (apply elem_of_cons in Hre as [->|Hre]; [reflexivity|]). by apply elem_of_nil in Hre. }
  by destruct (adjudicated_by _ _ _ _ _ E) as (_ & -> & -> & _).
Qed.

(** ** The loop *)

(** The loop after a sequence of attempted rounds; a refused one leaves it. *)
Definition attempt (l : ConsultationLoop) (x : ConsultationRequest * list RoleAssessment) : ConsultationLoop :=
  match check_consultation_request x.1 ;? each check_assessment x.2 ;? loop_append l x.1 x.2 with
  | Ok (l', _) => l'
  | Raise _ => l
  end.
Definition attempts (n : Z) (xs : list (ConsultationRequest * list RoleAssessment)) : ConsultationLoop :=
  fold_left attempt xs {| loop_history := []; max_rounds := n |}.

(** What one attempt does. *)
Lemma attempt_spec l x : attempt l x = l \/
  exists r, evaluate_consultation x.1 x.2 = Ok r /\ r = adjudicated x.1 x.2 /\ q_round x.1 = Z.of_nat (length (loop_history l)) + 1
    /\ Z.of_nat (length (loop_history l)) < max_rounds l /\ 1 <= q_round x.1 <= MAX_CONSULTATION_ROUNDS
    /\ attempt l x = {| loop_history := loop_history l ++ [r]; max_rounds := max_rounds l |}.
Proof.
  unfold attempt. destruct (_ ;? _) as [[l' r]|e] eqn:E; [|by left]. right. exists r.
  take_ok E u1 E1. take_ok E u2 E2. destruct u1, u2. unfold loop_append in E. take_guard E E3. take_guard E E4. take_ok E r' E5.
  take_ok E l'' E6. injection E as -> ->. unfold check_loop in E6. take_guard E6 E7. take_guard E6 E8. injection E6 as <-.
  assert (Hr := E5). apply evaluate_returns in Hr as [_ Hr]; [|done|by eapply each_ok]. bool_hyps. cbn in *.
  split; [done|]. split; [done|]. split; [done|]. split; [done|]. split; [|done]. apply (qo_round _ (check_request_ok _ E1)).
Qed.

(** The rounds [1], [2], ... *)
Definition rounds (n : nat) : list Z := map Z.of_nat (seq 1 n).

Lemma attempts_inv n xs : 1 <= n <= MAX_CONSULTATION_ROUNDS ->
  let l := attempts n xs in max_rounds l = n /\ Z.of_nat (length (loop_history l)) <= n
    /\ map r_round (loop_history l) = rounds (length (loop_history l)).
Proof.
  intros Hn. cbv zeta. unfold attempts. apply (fold_left_inv (fun l => max_rounds l = n /\ Z.of_nat (length (loop_history l)) <= n
    /\ map r_round (loop_history l) = rounds (length (loop_history l)))).
  { cbn. split; [done|]. split; [lia|done]. }
  { intros l x (H1 & H2 & H3). destruct (attempt_spec l x) as [->|(r & _ & -> & Hq & Hlt & _ & ->)]; [done|]. cbn.
    split; [done|]. rewrite length_app. cbn. split; [lia|]. rewrite map_app, H3. unfold rounds. rewrite seq_app, map_app. cbn. f_equal.
    unfold adjudicated. cbv zeta. destruct (adjudicate _ _ _) as [[c d] k]. cbn. f_equal. rewrite Hq. lia. }
Qed.

(** A consultation loop is bounded and append-only.  Whatever rounds are
    attempted, a loop for [n] rounds (at most three) holds at most [n]
    results, numbered one, two, three in order; further attempts keep every
    earlier result in place, and once the loop is exhausted they change
    nothing. *)
Theorem consultation_loop_bounded n xs ys : 1 <= n <= MAX_CONSULTATION_ROUNDS ->
  let l := attempts n xs in let l' := attempts n (xs ++ ys) in
  (length (loop_history l) <= 3)%nat /\ Z.of_nat (length (loop_history l)) <= n
  /\ map r_round (loop_history l) = rounds (length (loop_history l))
  /\ loop_history l `prefix_of` loop_history l'
  /\ (exhausted l = true -> l' = l).
Proof.
  intros Hn. cbv zeta. destruct (attempts_inv n xs Hn) as (H1 & H2 & H3). unfold MAX_CONSULTATION_ROUNDS in *.
  split; [lia|]. split; [done|]. split; [done|]. unfold attempts at 2 4. rewrite fold_left_app. fold (attempts n xs).
  generalize dependent (attempts n xs). intros l _ _ _. split.
  - revert l. induction ys as [|x ys IH]; intros l; [done|]. cbn. etrans; [|apply IH].
    destruct (attempt_spec l x) as [->|(r & _ & _ & _ & _ & _ & ->)]; [done|]. by apply prefix_app_r.
  - intros He. induction ys as [|x ys IH]; [done|]. cbn.
    destruct (attempt_spec l x) as [->|(r & _ & _ & _ & Hlt & _ & _)]; [done|]. unfold exhausted in He. bool_hyps. lia.
Qed.

(** A question on which no progress is made ends.  In the third round of a
    [NO_PROGRESS] consultation the result is a quarantine without an answer,
    unless external authority is at stake or cheating is suspected. *)
Theorem no_progress_ends q received r : check_consultation_request q = Ok tt ->
  (forall a, a ∈ received -> check_assessment a = Ok tt) -> evaluate_consultation q received = Ok r ->
  q_reason q = NO_PROGRESS -> q_round q = MAX_CONSULTATION_ROUNDS ->
  r_decision r = QUARANTINE \/ (q_suspected q = true /\ r_decision r = RESOLVED /\ r_cheating r = DISPROVED)
  \/ ((exists a, a ∈ received /\ authority_required a = true) \/ is_Some (q_authority_class q))
     /\ (r_decision r = TRUE_AUTHORITY_REQUIRED \/ r_decision r = BLOCKED_EVIDENCE).
Proof.
  intros Hq Ha H Hre Hro. assert (Hs := H). destruct (suspicion q) eqn:Esu.
  - apply suspected_cheating_cases in Hs as [(Hd & _)|(Hd & Hc & _)]; [by left| |done..]. right. left.
    unfold suspicion in Esu. rewrite Hre in Esu. cbn in Esu. by rewrite orb_false_r in Esu.
  - apply evaluate_returns in H as [_ ->]; [|done..]. destruct (adjudicate q received (all_evidence q received)) as [[c d] k] eqn:E.
    destruct (adjudicated_by _ _ _ _ _ E) as (_ & -> & _). unfold adjudicate in E. cbv zeta in E. rewrite Esu, Hre, Hro in E.
    destruct (_ || bool_decide (NO_PROGRESS = MISSING_EXTERNAL_AUTHORITY)) eqn:Eb in E.
    + right. right. split; [|destruct (_ || _) in E; injection E as <- <- <-; auto].
      apply orb_true_iff in Eb as [Eb|Eb]; [|by apply bool_decide_eq_true in Eb].
      apply orb_true_iff in Eb as [Eb|Eb]; [|right; by apply bool_decide_eq_true in Eb].
      apply existsb_exists in Eb as (a & Hin & Et). left. exists a. by rewrite list_elem_of_In.
    + cbn in E. injection E as <- <- <-. by left.
Qed.

(** ** Stored results *)

Lemma dict_set_same {A} k (v : A) l : lookup_key k l = Some v -> dict_set k v l = l.
Proof.
  unfold lookup_key. induction l as [|[k' v'] l IH]; cbn; [done|]. destruct (String.eqb k' k) eqn:E; cbn.
  - intros [= ->]. apply String.eqb_eq in E as ->. by rewrite ?String.eqb_refl, ?bool_decide_eq_true_2.
  - intros H. assert (E' := E). apply String.eqb_neq in E'. rewrite ?(String.eqb_sym k k'), ?E, ?bool_decide_eq_false_2 by done. by rewrite IH.
Qed.

Lemma set_key_same k v d : get k d = v -> v <> JNull -> set_key k v d = d.
Proof.
  unfold get. intros H Hn. apply dict_set_same. by destruct (lookup_key k d) as [w|]; cbn in H; [f_equal|congruence].
Qed.

Lemma set_size_strs seen l : set_size (map JStr seen) (map JStr l) = (length seen + length (dedup_acc seen l))%nat.
Proof.
  revert seen. induction l as [|x l IH]; intros seen; cbn [map set_size dedup_acc]; [rewrite length_map; cbn; lia|].
  assert (E : existsb (py_eq (JStr x)) (map JStr seen) = bool_decide (x ∈ seen)).
  { apply eq_true_iff_eq. rewrite bool_decide_eq_true, existsb_exists. split.
    - intros (v & Hv & Ev). apply in_map_iff in Hv as (s & <- & Hs). apply list_elem_of_In in Hs. cbn in Ev. by apply String.eqb_eq in Ev as ->.
    - intros Hx. exists (JStr x). split; [apply in_map; by apply list_elem_of_In|]. cbn. apply String.eqb_refl. }
  rewrite E. destruct (bool_decide (x ∈ seen)); [apply IH|]. change (JStr x :: map JStr seen) with (map JStr (x :: seen)).
  rewrite IH. cbn. lia.
Qed.

Lemma result_fields_NoDup : NoDup result_fields.
Proof. apply (bool_decide_unpack (NoDup result_fields)). vm_compute. exact I. Qed.

Lemma in_names_reads s names : s ∈ names -> in_names (JStr s) names = Ok true.
Proof. intros H. cbn. by rewrite (proj2 (mem_spec _ _) H). Qed.

Lemma filter_none {A} (f : A -> bool) l : (forall x, x ∈ l -> f x = false) -> List.filter f l = [].
Proof. induction l as [|x l IH]; intros H; [done|]. cbn. rewrite (H x) by (by left). apply IH. intros y Hy. apply H. by right. Qed.

Section Stored.
Context (r : ConsultationResult) (d : contract).
Hypothesis (Hr : result_ok r) (Hg : forall k, get k d = get k (result_to_document r)) (Hk : forall k, k ∈ d.*1 <-> k ∈ result_fields).

Lemma stored_no_issues : _result_issues d = Ok [].
Proof.
  unfold _result_issues. rewrite !Hg. read_members (result_to_document r).
  rewrite filter_none by (intros k H; apply negb_false_iff, has_elem; by apply Hk).
  rewrite filter_none by (intros k H; apply negb_false_iff, mem_spec; by apply Hk).
  rewrite (in_names_reads (reason_value (r_reason r))) by (destruct (r_reason r); vm_compute; set_solver).
  rewrite (in_names_reads (r_requesting_role r)) by apply Hr.
  rewrite (in_names_reads (decision_value (r_decision r))) by (destruct (r_decision r); vm_compute; set_solver).
  rewrite (in_names_reads (cheating_value (r_cheating r))) by (destruct (r_cheating r); vm_compute; set_solver).
  cbn [rbind strs]. assert (Hh : forallb hashable (map JStr (consulted_roles r)) = true).
  { apply forallb_forall. intros x Hx. apply in_map_iff in Hx as (s & <- & _). done. }
  rewrite Hh. cbn [require rbind]. change (set_size [] (map JStr (consulted_roles r))) with (set_size (map JStr []) (map JStr (consulted_roles r))).
  rewrite set_size_strs. change (dedup_acc [] (consulted_roles r)) with (dedup (consulted_roles r)).
  rewrite (proj2 (Nat.leb_le _ _)) by apply (ro_two r Hr).
  assert (Er : (1 <=? r_round r) && (r_round r <=? MAX_CONSULTATION_ROUNDS) = true) by (apply andb_true_iff; split; apply Z.leb_le; apply (ro_round r Hr)).
  rewrite Er. cbn [map]. rewrite !Hg. read_members (result_to_document r). rewrite (ro_exhausted r Hr). reflexivity.
Qed.

Lemma stored_constructs : construct_result d = Ok r.
Proof.
  assert (Hc : converted d = Ok d).
  { unfold converted. rewrite !Hg. read_members (result_to_document r). rewrite reason_reads, decision_reads, cheating_reads.
    cbn [rbind tuple_of strs]. assert (Hi : map_result dict_of (map identity_document (identity_records r)) = Ok (map identity_members (identity_records r))).
    { by apply map_result_map. }
    rewrite Hi. cbn [rbind]. rewrite map_map. rewrite (set_key_same "identity_records") by (rewrite ?Hg; done).
    rewrite (set_key_same "dissent") by (rewrite ?Hg; done). rewrite (set_key_same "evidence_refs") by (rewrite ?Hg; done).
    by rewrite (set_key_same "consulted_roles") by (rewrite ?Hg; done). }
  unfold construct_result. rewrite Hc. cbn [rbind]. unfold construct.
  assert (E1 : forallb (fun kv => mem kv.1 result_fields) d = true).
  { apply forallb_forall. intros [k v] H. apply mem_spec, Hk, list_elem_of_fmap. exists (k, v). by rewrite list_elem_of_In. }
  assert (E2 : forallb (fun k => has k d) result_fields = true).
  { apply forallb_forall. intros k H. apply has_elem, Hk. by apply list_elem_of_In. }
  rewrite E1, E2. cbn [andb require rbind].
  assert (E3 : map (fun k => (k, get k d)) result_fields = result_to_document r).
  { transitivity (map (fun k => (k, get k (result_to_document r))) result_fields); [by apply map_ext; intros k; rewrite Hg|reflexivity]. }
  rewrite E3. by apply result_constructs.
Qed.

Lemma stored_reads_back : result_from_document (JObj d) = Ok r.
Proof.
  unfold result_from_document, validate_consultation_document. rewrite stored_no_issues. cbn [rbind].
  rewrite bool_decide_eq_true_2 by done. cbn [negb]. by rewrite stored_constructs.
Qed.
End Stored.

Lemma result_document_plain r k : norm (get k (result_to_document r)) = get k (result_to_document r).
Proof.
  assert (H : forall v, v ∈ (result_to_document r).*2 -> norm v = v).
  { intros v Hv. cbn in Hv. repeat (apply elem_of_cons in Hv as [->|Hv];
      [first [reflexivity|apply norm_strs|by destruct (r_answer r)|by destruct (r_authority_class r)
             |cbn; f_equal; rewrite map_map; apply map_ext; intros i; reflexivity]|]).
    by apply elem_of_nil in Hv. }
  unfold get. destruct (lookup_key k _) as [v|] eqn:E; [|done]. apply H.
  apply lookup_key_in in E. by apply (list_elem_of_fmap_2 snd) in E.
Qed.

Lemma result_document_wf r : json_wf (JObj (result_to_document r)) = true.
Proof.
  apply object_wf; [exact result_fields_NoDup|]. intros k v Hin. cbn in Hin.
  repeat (apply elem_of_cons in Hin as [[= -> ->]|Hin];
    [first [reflexivity|apply strs_wf|by destruct (r_answer r)|by destruct (r_authority_class r)
           |apply forallb_forall; intros x Hx; apply in_map_iff in Hx as (i & <- & _); reflexivity]|]).
  by apply elem_of_nil in Hin.
Qed.

(** An adjudicated result survives storage: its document, written in
    canonical form, is a valid consultation document and reads back as exactly
    that result. *)
Theorem consultation_round_trip q received r d : check_consultation_request q = Ok tt ->
  (forall a, a ∈ received -> check_assessment a = Ok tt) -> evaluate_consultation q received = Ok r ->
  loads (canonical_bytes (JObj (result_to_document r))) = Some (JObj d) -> result_from_document (JObj d) = Ok r.
Proof.
  intros Hq Ha He H. apply evaluate_returns in He as [(Hl & Hn & _) ->]; [|done..].
  unfold canonical_bytes in H. rewrite loads_dumps_norm in H by apply result_document_wf. apply (inj Some) in H.
  destruct (stored_members (result_to_document (adjudicated q received)) d result_fields_NoDup H) as [Hg Hk].
  apply stored_reads_back.
  - apply adjudicated_ok; [by apply check_request_ok|intros a Hin; by apply check_assessment_ok, Ha|done|done].
  - intros k. rewrite Hg. apply result_document_plain.
  - intros k. by rewrite Hk.
Qed.

(** ** A sample consultation *)

Module SampleConsultation.

Definition question (reason : ConsultationReason) (round : Z) (suspected : bool) (authority : option string) : ConsultationRequest :=
  {| q_request_id := "CONSULT-1"; q_mission_id := "MISSION-1"; q_question := "What is the smallest safe next step?";
     q_reason := reason; q_requesting_role := "builder"; applicable_roles := ["architect"; "curator"; "steward"];
     q_round := round; q_suspected := suspected; q_evidence := ["evidence:question"]; q_authority_class := authority |}.
Definition testimony (role : string) (answer : option string) (proposed : ConsultationDecision) (c : CheatingDisposition) : RoleAssessment :=
  {| a_role := role; a_identity := ("role:" +:+ role)%stdpp; a_answer := answer; a_evidence := ["evidence:role"];
     proposed_decision := proposed; a_dissent := None; a_cheating := c; authority_required := false; a_identity_kind := "model_role" |}.
Definition two (proposed : ConsultationDecision) (c : CheatingDisposition) : list RoleAssessment :=
  [testimony "architect" (Some "Use the reversible option.") proposed c; testimony "curator" None proposed c].

Ltac checked := vm_compute; reflexivity.
Lemma two_checked p c a : a ∈ two p c -> check_assessment a = Ok tt.
Proof. intros H. repeat (apply elem_of_cons in H as [->|H]; [checked|]). by apply elem_of_nil in H. Qed.

Definition outcome (q : ConsultationRequest) (received : list RoleAssessment) : ConsultationResult := adjudicated q received.

Lemma consultation_total_witness :
  evaluate_consultation (question AMBIGUOUS_DESIGN 1 false None) (two RESOLVED NOT_APPLICABLE)
  = Ok (adjudicated (question AMBIGUOUS_DESIGN 1 false None) (two RESOLVED NOT_APPLICABLE)).
Proof.
  apply (consultation_total (question AMBIGUOUS_DESIGN 1 false None) (two RESOLVED NOT_APPLICABLE)); [checked|apply two_checked|].
  split; [cbn; lia|]. split; [apply (bool_decide_unpack (NoDup ["architect"; "curator"])); vm_compute; exact I|].
  intros a H. cbn. repeat (apply elem_of_cons in H as [->|H]; [cbn; set_solver|]). by apply elem_of_nil in H.
Defined.

Lemma suspected_cheating_is_adjudicated_witness :
  r_decision (outcome (question SUSPECTED_CHEATING 1 true None) (two RESOLVED CONFIRMED)) = QUARANTINE.
Proof.
  destruct (suspected_cheating_is_adjudicated (question SUSPECTED_CHEATING 1 true None) (two RESOLVED CONFIRMED)
    (outcome (question SUSPECTED_CHEATING 1 true None) (two RESOLVED CONFIRMED))) as [(H & _)|(_ & H & _)].
  - checked.
  - apply two_checked.
  - checked.
  - checked.
  - exact H.
  - vm_compute in H. discriminate.
Defined.

Lemma escalation_is_earned_witness : exists a,
  r_authority_class (outcome (question MISSING_EXTERNAL_AUTHORITY 1 false (Some "credential_or_secret")) (two RESOLVED NOT_APPLICABLE)) = Some a
  /\ a ∈ AUTHORITY_CLASSES.
Proof.
  destruct (escalation_is_earned (question MISSING_EXTERNAL_AUTHORITY 1 false (Some "credential_or_secret")) (two RESOLVED NOT_APPLICABLE)
    (outcome (question MISSING_EXTERNAL_AUTHORITY 1 false (Some "credential_or_secret")) (two RESOLVED NOT_APPLICABLE)))
    as ((a & H1 & _ & H2) & _).
  - checked.
  - apply two_checked.
  - checked.
  - checked.
  - by exists a.
Defined.

Lemma adjudication_order_independent_witness : exists r,
  evaluate_consultation (question AMBIGUOUS_DESIGN 1 false None) (rev (two REMAND NOT_APPLICABLE)) = Ok r /\ r_decision r = REMAND.
Proof.
  destruct (adjudication_order_independent (question AMBIGUOUS_DESIGN 1 false None) (two REMAND NOT_APPLICABLE) (rev (two REMAND NOT_APPLICABLE))
    (outcome (question AMBIGUOUS_DESIGN 1 false None) (two REMAND NOT_APPLICABLE))) as (r & H & Hd & _).
  - checked.
  - apply two_checked.
  - apply Permutation_swap.
  - checked.
  - exists r. split; [exact H|]. rewrite Hd. checked.
Defined.

Lemma unasked_cheating_reports_are_ignored_witness : forall r,
  evaluate_consultation (question UNSAFE_EFFECT 1 false None) (two RESOLVED NOT_APPLICABLE) = Ok r ->
  evaluate_consultation (question UNSAFE_EFFECT 1 false None) (two RESOLVED CONFIRMED) = Ok r.
Proof.
  intros r H. rewrite <- H.
  exact (unasked_cheating_reports_are_ignored (question UNSAFE_EFFECT 1 false None) (two RESOLVED NOT_APPLICABLE) CONFIRMED eq_refl).
Defined.

Lemma recommended_quarantine_resolves_witness :
  r_decision (outcome (question UNSAFE_EFFECT 1 false None) (two QUARANTINE CONFIRMED)) = RESOLVED.
Proof.
  apply (recommended_quarantine_resolves (question UNSAFE_EFFECT 1 false None) (two QUARANTINE CONFIRMED)
    (outcome (question UNSAFE_EFFECT 1 false None) (two QUARANTINE CONFIRMED))).
  - checked.
  - apply two_checked.
  - checked.
  - checked.
  - reflexivity.
  - cbn. set_solver.
  - intros a H. repeat (apply elem_of_cons in H as [->|H]; [by split|]). by apply elem_of_nil in H.
Defined.

Lemma consultation_loop_bounded_witness :
  let xs := [(question AMBIGUOUS_DESIGN 1 false None, two RESOLVED NOT_APPLICABLE); (question NO_PROGRESS 2 false None, two REMAND NOT_APPLICABLE)] in
  length (loop_history (attempts 2 xs)) = 2%nat /\ (length (loop_history (attempts 2 xs)) <= 3)%nat.
Proof.
  cbv zeta. split; [checked|].
  apply (consultation_loop_bounded 2 [(question AMBIGUOUS_DESIGN 1 false None, two RESOLVED NOT_APPLICABLE);
    (question NO_PROGRESS 2 false None, two REMAND NOT_APPLICABLE)] []). unfold MAX_CONSULTATION_ROUNDS. lia.
Defined.

Lemma no_progress_ends_witness :
  r_decision (outcome (question NO_PROGRESS 3 false None) (two RESOLVED NOT_APPLICABLE)) = QUARANTINE.
Proof.
  destruct (no_progress_ends (question NO_PROGRESS 3 false None) (two RESOLVED NOT_APPLICABLE)
    (outcome (question NO_PROGRESS 3 false None) (two RESOLVED NOT_APPLICABLE))) as [H|[(H & _)|(_ & [H|H])]].
  - checked.
  - apply two_checked.
  - checked.
  - reflexivity.
  - reflexivity.
  - exact H.
  - discriminate H.
  - vm_compute in H. discriminate H.
  - vm_compute in H. discriminate H.
Defined.

Definition stored (r : ConsultationResult) : contract :=
  match loads (canonical_bytes (JObj (result_to_document r))) with Some (JObj d) => d | _ => [] end.
Lemma consultation_round_trip_witness : let r := outcome (question AMBIGUOUS_DESIGN 1 false None) (two RESOLVED NOT_APPLICABLE) in
  result_from_document (JObj (stored r)) = Ok r.
Proof.
  apply (consultation_round_trip (question AMBIGUOUS_DESIGN 1 false None) (two RESOLVED NOT_APPLICABLE)); [checked|apply two_checked|checked|checked].
Defined.

End SampleConsultation.

End Consultation.
