(* ===== verification/PromotionAuth.v ===== *)
(** * Promotion attestations

    [brain_kernel/promotion_auth.py]: trusted principals, signed attestations of
    the four promotion stages, their verification, and signed rejection
    receipts.  The signature provider and the receipt signer are host-supplied
    code: they are parameters, a function on bytes that may raise.  The
    [Ed25519] adapters only call an optional library and are not modelled.
    [PromotionAuthenticationError] carries a code; here the code is the first
    word of the message. *)

From S2P Require Import Prelude Sha256 Canonical PyLib Schema Contracts.
From Stdlib Require Import Ascii.

Module PromotionAuth.
Export Contracts.

Definition _STAGES : list string := ["builder"; "verifier"; "judge"; "promoter"].

(** [_fail] *)
Definition _fail {A} (code message : string) : result A := raise PromotionAuthenticationError (code +:+ " " +:+ message)%stdpp.
Definition guard (b : bool) (code message : string) : result unit := if b then Ok tt else _fail code message.

Definition _text (value : json) (label : string) : result string :=
  match value with
  | JStr s => guard (negb (String.eqb s "") && String.eqb (strip s) s) "authentication-malformed"
                (label +:+ " must be an exact identifier")%stdpp ;? Ok s
  | _ => _fail "authentication-malformed" (label +:+ " must be an exact identifier")%stdpp
  end.
Definition _digest (value : json) (label : string) : result string :=
  let? s := _text value label in
  guard (startswith "sha256:" s && (str_len s =? 71) && all_chars is_hex (drop_bytes 7 s)) "authentication-malformed"
    (label +:+ " must be a full SHA-256 digest")%stdpp ;?
  Ok s.
Definition _object (value : json) (fields : list string) (label : string) : result contract :=
  match value with
  | JObj d => guard (subset d.*1 fields && forallb (fun k => has k d) fields) "authentication-malformed"
                (label +:+ " has an invalid field set")%stdpp ;? Ok d
  | _ => _fail "authentication-malformed" (label +:+ " has an invalid field set")%stdpp
  end.

(** [_time]: the moment in microseconds. *)
Definition _time (value : json) : result Z :=
  let? s := _text value "timestamp" in
  guard (ends_with (fun a => bool_decide (a = "Z"%char)) s) "authentication-malformed" "timestamp must use explicit UTC Z" ;?
  match fromisoformat (take_bytes (String.length s - 1) s +:+ "+00:00")%stdpp with
  | None => _fail "authentication-malformed" "invalid UTC timestamp"
  | Some d => guard (bool_decide (utcoffset d = Some 0)) "authentication-malformed" "timestamp must be UTC" ;? Ok (instant d)
  end.

(** ** Base64

    [base64.b64encode] and [b64decode(validate=True)]: a byte is the eight
    bits of an [ascii]. *)

Inductive sextet := Six (b5 b4 b3 b2 b1 b0 : bool).

Definition alphabet : string := "ABCDEFGHIJKLMNOPQRSTUVWXYZabcdefghijklmnopqrstuvwxyz0123456789+/".
Definition sextet_value (x : sextet) : nat :=
  match x with Six b5 b4 b3 b2 b1 b0 =>
    (32 * Nat.b2n b5 + 16 * Nat.b2n b4 + 8 * Nat.b2n b3 + 4 * Nat.b2n b2 + 2 * Nat.b2n b1 + Nat.b2n b0)%nat end.
Definition b64_char (x : sextet) : ascii := default "A"%char (String.get (sextet_value x) alphabet).
Definition b64_number (a : ascii) : option N :=
  let n := code a in
  (if (65 <=? n) && (n <=? 90) then Some (n - 65)
   else if (97 <=? n) && (n <=? 122) then Some (n - 71)
   else if (48 <=? n) && (n <=? 57) then Some (n + 4)
   else if n =? 43 then Some 62
   else if n =? 47 then Some 63 else None)%N.
Definition b64_value (a : ascii) : option sextet :=
  match b64_number a with
  | Some n => Some (Six (N.testbit n 5) (N.testbit n 4) (N.testbit n 3) (N.testbit n 2) (N.testbit n 1) (N.testbit n 0))
  | None => None
  end.

(** An [Ascii] lists its bits from the lowest. *)
Definition first_sextet (a : ascii) : sextet := match a with Ascii _ _ a2 a3 a4 a5 a6 a7 => Six a7 a6 a5 a4 a3 a2 end.
Definition second_sextet (a b : ascii) : sextet :=
  match a, b with Ascii a0 a1 _ _ _ _ _ _, Ascii _ _ _ _ b4 b5 b6 b7 => Six a1 a0 b7 b6 b5 b4 end.
Definition third_sextet (b c : ascii) : sextet :=
  match b, c with Ascii b0 b1 b2 b3 _ _ _ _, Ascii _ _ _ _ _ _ c6 c7 => Six b3 b2 b1 b0 c7 c6 end.
Definition fourth_sextet (c : ascii) : sextet := match c with Ascii c0 c1 c2 c3 c4 c5 _ _ => Six c5 c4 c3 c2 c1 c0 end.
Definition pad_char : ascii := "="%char.

Fixpoint b64encode (s : string) : string :=
  match s with
  | String a (String b (String c r)) =>
      String (b64_char (first_sextet a)) (String (b64_char (second_sextet a b))
        (String (b64_char (third_sextet b c)) (String (b64_char (fourth_sextet c)) (b64encode r))))
  | String a (String b EmptyString) =>
      String (b64_char (first_sextet a)) (String (b64_char (second_sextet a b))
        (String (b64_char (third_sextet b zero)) (String pad_char EmptyString)))
  | String a EmptyString =>
      String (b64_char (first_sextet a)) (String (b64_char (second_sextet a zero)) (String pad_char (String pad_char EmptyString)))
  | EmptyString => EmptyString
  end.

Definition byte_one (w x : sextet) : ascii :=
  match w, x with Six w5 w4 w3 w2 w1 w0, Six x5 x4 _ _ _ _ => Ascii x4 x5 w0 w1 w2 w3 w4 w5 end.
Definition byte_two (x y : sextet) : ascii :=
  match x, y with Six _ _ x3 x2 x1 x0, Six y5 y4 y3 y2 _ _ => Ascii y2 y3 y4 y5 x0 x1 x2 x3 end.
Definition byte_three (y z : sextet) : ascii :=
  match y, z with Six _ _ _ _ y1 y0, Six z5 z4 z3 z2 z1 z0 => Ascii z0 z1 z2 z3 z4 z5 y0 y1 end.

(** Strict decoding: whole groups of four, padding at the end only; the unused
    bits before the padding are not looked at. *)
Fixpoint b64decode (s : string) : option string :=
  match s with
  | EmptyString => Some EmptyString
  | String cw (String cx (String cy (String cz r))) =>
      match b64_value cw, b64_value cx with
      | Some w, Some x =>
          match b64_value cy, b64_value cz with
          | Some y, Some z =>
              match b64decode r with
              | Some t => Some (String (byte_one w x) (String (byte_two x y) (String (byte_three y z) t)))
              | None => None
              end
          | Some y, None =>
              if bool_decide (cz = pad_char) && String.eqb r "" then Some (String (byte_one w x) (String (byte_two x y) EmptyString)) else None
          | None, None =>
              if bool_decide (cy = pad_char) && bool_decide (cz = pad_char) && String.eqb r "" then Some (String (byte_one w x) EmptyString) else None
          | None, Some _ => None
          end
      | _, _ => None
      end
  | _ => None
  end.

Definition _signature (value : json) : result string :=
  let? s := _text value "signature" in
  guard (str_len s <=? 8192) "authentication-malformed" "signature exceeds the supported size" ;?
  match b64decode s with
  | None => _fail "authentication-malformed" "invalid signature encoding"
  | Some raw =>
      guard (negb (String.eqb raw "") && String.eqb (b64encode raw) s) "authentication-malformed" "signature must be canonical base64" ;?
      Ok raw
  end.

(** ** Principals *)

Record PrincipalBinding := {
  principal_id : string;
  p_stage : string;
  administration_id : string;
  p_key_id : string;
  public_key_digest : string }.

(** [PrincipalBinding.__post_init__] *)
Definition check_principal (p : PrincipalBinding) : result unit :=
  let? _ := _text (JStr (principal_id p)) "principal_id" in
  let? _ := _text (JStr (administration_id p)) "administration_id" in
  let? _ := _text (JStr (p_key_id p)) "key_id" in
  guard (mem (p_stage p) (_STAGES ++ ["receipt"])) "authentication-policy-invalid" "unknown principal stage" ;?
  let? _ := _digest (JStr (public_key_digest p)) "public key digest" in
  Ok tt.
Definition principal_document (p : PrincipalBinding) : json :=
  JObj [("principal_id", JStr (principal_id p)); ("stage", JStr (p_stage p)); ("administration_id", JStr (administration_id p));
        ("key_id", JStr (p_key_id p)); ("public_key_digest", JStr (public_key_digest p))].

(** ** Attestations *)

Record SignedAttestation := {
  t_stage : string;
  t_principal : string;
  t_key : string;
  t_policy : string;
  t_subject : string;
  t_record : option string;
  t_decision : option string;
  t_nonce : string;
  t_issued : string;
  t_expires : string;
  t_signature : string }.

#[global] Instance attestation_eq_dec : EqDecision SignedAttestation.
Proof. solve_decision. Defined.

Definition attestation_fields : list string :=
  ["stage"; "principal_id"; "key_id"; "policy_digest"; "subject_digest"; "record_digest"; "decision_digest"; "nonce"; "issued_at";
   "expires_at"; "signature"].

Definition _optional_digest (value : json) (label : string) : result (option string) :=
  match value with JNull => Ok None | _ => let? s := _digest value label in Ok (Some s) end.

(** [SignedAttestation(...)] on the values of its fields *)
Definition attestation_of (v : contract) : result SignedAttestation :=
  match get "stage" v with
  | JStr stage =>
      guard (mem stage _STAGES) "authentication-malformed" "unknown attestation stage" ;?
      let? principal := _text (get "principal_id" v) "principal_id" in
      let? key := _text (get "key_id" v) "key_id" in
      let? nonce := _text (get "nonce" v) "nonce" in
      let? policy := _digest (get "policy_digest" v) "policy_digest" in
      let? subject := _digest (get "subject_digest" v) "subject_digest" in
      let? record := _optional_digest (get "record_digest" v) "record_digest" in
      let? decision := _optional_digest (get "decision_digest" v) "decision_digest" in
      (if String.eqb stage "builder" then
         guard (bool_decide (record = None) && bool_decide (decision = None)) "authentication-malformed" "builder signs the subject before evaluation"
       else guard (bool_decide (is_Some record)) "authentication-malformed" "evaluation evidence binding is missing") ;?
      guard (negb (String.eqb stage "verifier" && bool_decide (is_Some decision))) "authentication-malformed"
        "verifier must not pre-authorize a judgment" ;?
      guard (negb (mem stage ["judge"; "promoter"] && bool_decide (decision = None))) "authentication-malformed" "decision binding is missing" ;?
      let? issued := _time (get "issued_at" v) in
      let? expires := _time (get "expires_at" v) in
      guard (negb (expires <=? issued)) "authentication-malformed" "attestation validity interval is empty" ;?
      let? _ := _signature (get "signature" v) in
      match get "issued_at" v, get "expires_at" v, get "signature" v with
      | JStr i, JStr e, JStr s =>
          Ok {| t_stage := stage; t_principal := principal; t_key := key; t_policy := policy; t_subject := subject; t_record := record;
                t_decision := decision; t_nonce := nonce; t_issued := i; t_expires := e; t_signature := s |}
      | _, _, _ => _fail "authentication-malformed" "timestamp must be an exact identifier"
      end
  | _ => _fail "authentication-malformed" "unknown attestation stage"
  end.

(** [payload]: what the principal signs. *)
Definition payload (t : SignedAttestation) : contract :=
  [("schema_version", JInt 1); ("kind", JStr "promotion-attestation"); ("stage", JStr (t_stage t)); ("principal_id", JStr (t_principal t));
   ("key_id", JStr (t_key t)); ("policy_digest", JStr (t_policy t)); ("subject_digest", JStr (t_subject t));
   ("record_digest", opt_str (t_record t)); ("decision_digest", opt_str (t_decision t)); ("nonce", JStr (t_nonce t));
   ("issued_at", JStr (t_issued t)); ("expires_at", JStr (t_expires t))].
Definition attestation_document (t : SignedAttestation) : contract := payload t ++ [("signature", JStr (t_signature t))].

(** [type(value) is int and value == 1] *)
Definition is_one (value : json) : bool := match value with JInt n => n =? 1 | _ => false end.

Definition attestation_from_document (value : json) : result SignedAttestation :=
  let? data := _object value (attestation_fields ++ ["schema_version"; "kind"]) "attestation" in
  guard (is_one (get "schema_version" data) && py_eq (get "kind" data) (JStr "promotion-attestation")) "authentication-malformed"
    "unsupported attestation schema" ;?
  attestation_of data.

(** ** Authorizations: the attestations in stage order *)

Definition authorization : Type := list SignedAttestation.

(** [PromotionAuthorization.__post_init__] *)
Definition check_authorization (a : authorization) : result authorization :=
  guard (Nat.eqb (length a) 4) "authentication-malformed" "exactly four stage attestations are required" ;?
  guard (bool_decide (map t_stage a = _STAGES)) "authentication-malformed" "attestations must cover each stage in order" ;?
  guard (Nat.eqb (length (dedup (map t_nonce a))) 4) "authentication-replayed" "attestation nonces must be distinct" ;?
  Ok a.
Definition authorization_document (a : authorization) : json :=
  JObj [("schema_version", JInt 1); ("attestations", JList (map (fun t => JObj (attestation_document t)) a))].
Definition authorization_from_document (value : json) : result authorization :=
  let? data := _object value ["schema_version"; "attestations"] "authorization" in
  match is_one (get "schema_version" data), get "attestations" data with
  | true, JList items =>
      let? ts := map_result attestation_from_document items in
      check_authorization ts
  | _, _ => _fail "authentication-malformed" "unsupported authorization schema"
  end.

(** ** Verification *)

Definition second : Z := 1000000.
(** [timedelta(seconds=n)] in microseconds; a duration has at most 999999999 days. *)
Definition timedelta_seconds (n : Z) : result Z :=
  let days := n / 86400 in
  require (Z.abs days <=? 999999999) OverflowError ("days=" +:+ str_of_Z days +:+ "; must have magnitude <= 999999999")%stdpp ;?
  Ok (n * second).

(** [PromotionPrincipalVerifier]: the trusted bindings, the one of the receipt
    signer, the age limit in seconds and the bytes of the policy. *)
Record verifier := {
  principals : list PrincipalBinding;
  receipt_principal : PrincipalBinding;
  maximum_age : Z;
  policy_bytes : string }.

Definition policy_document (bound : list PrincipalBinding) (age : Z) : json :=
  JObj [("schema_version", JInt 1); ("kind", JStr "promotion-principal-policy"); ("maximum_age_seconds", JInt age);
        ("principals", JList (map principal_document (sorted_by principal_id bound)))].

(** [PromotionPrincipalVerifier(...)] with a signer of the given principal and key *)
Definition new_verifier (bound : list PrincipalBinding) (signer_principal signer_key : string) (age : Z) : result verifier :=
  guard (negb (bool_decide (bound = []))) "authentication-policy-invalid" "trusted principal bindings are required" ;?
  guard (distinct (map principal_id bound) && distinct (map p_key_id bound)) "authentication-policy-invalid"
    "principal and key identifiers must be unique" ;?
  guard (1 <=? age) "authentication-policy-invalid" "maximum age must be a positive integer" ;?
  match List.find (fun p => String.eqb (principal_id p) signer_principal) bound with
  | Some receipt =>
      guard (String.eqb (p_stage receipt) "receipt" && String.eqb (p_key_id receipt) signer_key) "authentication-policy-invalid"
        "receipt signer is not in the trusted policy" ;?
      Ok {| principals := bound; receipt_principal := receipt; maximum_age := age;
            policy_bytes := canonical_bytes (policy_document bound age) |}
  | None => _fail "authentication-policy-invalid" "receipt signer is not in the trusted policy"
  end.

Definition policy_digest (v : verifier) : string := ("sha256:" +:+ sha256_hexdigest (policy_bytes v))%stdpp.
Definition trusted (v : verifier) (id : string) : option PrincipalBinding :=
  List.find (fun p => String.eqb (principal_id p) id) (principals v).

Record VerifiedAuthorization := {
  authorization_digest : string;
  va_policy_digest : string;
  va_principals : list string;
  nonce_ids : list string }.

(** What an authorization is checked against. *)
Record expectation := {
  x_subject : string;
  x_record : string;
  x_decision : string;
  x_builder : string;
  x_evaluator : string;
  x_judge : string;
  x_promoter : string }.
Definition identities (x : expectation) : list string := [x_builder x; x_evaluator x; x_judge x; x_promoter x].

Section Provider.
(** The host's signature verifier: it answers, or raises. *)
Context (verify : PrincipalBinding -> string -> string -> result bool).

(** [_verify] *)
Definition _verify (p : PrincipalBinding) (message : contract) (signature : json) : result unit :=
  let? raw := _signature signature in
  match verify p (canonical_bytes (JObj message)) raw with
  | Ok accepted => guard accepted "authentication-signature-invalid" "signature does not match its trusted principal"
  | Raise e => if bool_decide (exc_cls e = PromotionAuthenticationError) then Raise e
               else _fail "authentication-unavailable" "signature provider failed"
  end.

(** The local variables of the loop. *)
Record progress := { administrations : list string; keys : list string; issued_before : option Z; nonces : list string }.
Definition no_progress : progress := {| administrations := []; keys := []; issued_before := None; nonces := [] |}.

Definition nonce_id (v : verifier) (id nonce : string) : string :=
  canonical_digest (JObj [("policy", JStr (policy_digest v)); ("principal", JStr id); ("nonce", JStr nonce)]).

(** One turn of the loop over the stages. *)
Definition verify_stage (v : verifier) (x : expectation) (current : Z) (s : progress) (turn : string * string * SignedAttestation)
    : result progress :=
  let '(stage, expected, t) := turn in
  match trusted v expected with
  | None => _fail "authentication-principal-unknown" "expected principal is not trusted for this stage"
  | Some p =>
      guard (String.eqb (p_stage p) stage) "authentication-principal-unknown" "expected principal is not trusted for this stage" ;?
      guard (negb (mem (administration_id p) (administrations s)) && negb (mem (public_key_digest p) (keys s))) "authentication-independence"
        "stage principals require distinct trusted administrations and keys" ;?
      guard (String.eqb (t_principal t) expected && String.eqb (t_key t) (p_key_id p)) "authentication-principal-mismatch"
        "attestation substituted a principal or key" ;?
      guard (String.eqb (t_policy t) (policy_digest v)) "authentication-policy-mismatch" "attestation uses another trust policy" ;?
      guard (String.eqb (t_subject t) (x_subject x)) "authentication-subject-mismatch" "attestation uses another immutable subject" ;?
      guard (String.eqb stage "builder" || bool_decide (t_record t = Some (x_record x))) "authentication-record-mismatch"
        "attestation uses another evaluation record" ;?
      guard (negb (mem stage ["judge"; "promoter"]) || bool_decide (t_decision t = Some (x_decision x))) "authentication-decision-mismatch"
        "attestation uses another decision" ;?
      let? issued := _time (JStr (t_issued t)) in
      let? expires := _time (JStr (t_expires t)) in
      guard ((issued <=? current) && (current <? expires)) "authentication-stale" "attestation is future-dated, expired or too old" ;?
      let? limit := timedelta_seconds (maximum_age v) in
      guard (current - issued <=? limit) "authentication-stale" "attestation is future-dated, expired or too old" ;?
      guard (expires - issued <=? limit) "authentication-stale" "attestation validity exceeds trusted policy" ;?
      guard (match issued_before s with Some before => before <=? issued | None => true end) "authentication-ordering"
        "stage timestamps contradict builder/verifier/judge/promoter ordering" ;?
      _verify p (payload t) (JStr (t_signature t)) ;?
      Ok {| administrations := administrations s ++ [administration_id p]; keys := keys s ++ [public_key_digest p];
            issued_before := Some issued; nonces := nonces s ++ [nonce_id v expected (t_nonce t)] |}
  end.

(** [verify_authorization] of a constructed authorization at a UTC moment *)
Definition verify_authorization (v : verifier) (a : authorization) (x : expectation) (now : datetime) : result VerifiedAuthorization :=
  each (fun d => let? _ := _digest (JStr d) "expected binding" in Ok tt) [x_subject x; x_record x; x_decision x] ;?
  guard (distinct (identities x)) "authentication-independence" "builder, verifier, judge and promoter must be different principals" ;?
  guard (bool_decide (utcoffset now = Some 0)) "authentication-malformed" "verification time must be an aware UTC datetime" ;?
  let? s := rfold (verify_stage v x (instant now)) no_progress (zip (zip _STAGES (identities x)) a) in
  Ok {| authorization_digest := canonical_digest (authorization_document a); va_policy_digest := policy_digest v;
        va_principals := identities x; nonce_ids := nonces s |}.
(** The same on a document. *)
Definition verify_document (v : verifier) (document : json) (x : expectation) (now : datetime) : result VerifiedAuthorization :=
  let? a := authorization_from_document document in
  verify_authorization v a x now.

(** ** Rejection receipts *)

Context (sign : string -> result string).

Definition unsigned_receipt (v : verifier) (frozen : json) : contract :=
  [("schema_version", JInt 1); ("kind", JStr "promotion-rejection"); ("policy_digest", JStr (policy_digest v));
   ("principal_id", JStr (principal_id (receipt_principal v))); ("key_id", JStr (p_key_id (receipt_principal v))); ("payload", frozen)].

(** [sign_rejection]: freezing a payload puts it in canonical form. *)
Definition sign_rejection (v : verifier) (rejected : json) : result contract :=
  match rejected with
  | JObj _ =>
      let unsigned := unsigned_receipt v (norm rejected) in
      match sign (canonical_bytes (JObj unsigned)) with
      | Raise _ => _fail "rejection-signing-unavailable" "rejection signer failed"
      | Ok raw =>
          guard (negb (String.eqb raw "")) "rejection-signing-unavailable" "rejection signer returned no signature" ;?
          _verify (receipt_principal v) unsigned (JStr (b64encode raw)) ;?
          Ok (unsigned ++ [("signature", JStr (b64encode raw))])
      end
  | _ => _fail "authentication-malformed" "rejection payload must be an object"
  end.

Definition receipt_fields : list string := ["schema_version"; "kind"; "policy_digest"; "principal_id"; "key_id"; "payload"; "signature"].

(** [verify_rejection_receipt] *)
Definition verify_rejection_receipt (v : verifier) (receipt : json) : result json :=
  let? data := _object receipt receipt_fields "rejection receipt" in
  guard (is_one (get "schema_version" data) && py_eq (get "kind" data) (JStr "promotion-rejection")) "authentication-malformed"
    "unsupported rejection receipt schema" ;?
  guard (py_eq (get "policy_digest" data) (JStr (policy_digest v)) && py_eq (get "principal_id" data) (JStr (principal_id (receipt_principal v)))
         && py_eq (get "key_id" data) (JStr (p_key_id (receipt_principal v)))) "authentication-policy-mismatch"
    "rejection receipt does not match trusted custody" ;?
  match get "payload" data with
  | JObj p =>
      _verify (receipt_principal v) (pop_key "signature" data) (get "signature" data) ;?
      Ok (norm (JObj p))
  | _ => _fail "authentication-malformed" "rejection payload must be an object"
  end.
End Provider.

(** ** Base64 is canonical *)

Lemma b64_value_char x : b64_value (b64_char x) = Some x.
Proof. destruct x as [[] [] [] [] [] []]; vm_compute; reflexivity. Qed.

Lemma b64decode_encode s : b64decode (b64encode s) = Some s.
Proof.
  assert (H : forall n s, (String.length s <= n)%nat -> b64decode (b64encode s) = Some s); [|by eapply H]. clear s.
  induction n as [|n IH]; intros s Hl; [destruct s as [|a s]; [reflexivity|cbn in Hl; exfalso; lia]|].
  destruct s as [|a [|b [|c s]]]; [done| | |].
  - cbn [b64encode b64decode]. rewrite !b64_value_char. change (b64_value pad_char) with (@None sextet). cbn.
    by destruct a.
  - cbn [b64encode b64decode]. rewrite !b64_value_char. change (b64_value pad_char) with (@None sextet). cbn.
    by destruct a, b.
  - cbn [b64encode b64decode]. rewrite !b64_value_char, IH by (cbn in Hl; lia). by destruct a, b, c.
Qed.

(** Characters that are never stripped. *)
Definition visible_char (a : ascii) : bool := (33 <=? code a)%N && (code a <=? 126)%N.

Lemma visible_no_space a s : visible_char a = true -> space_prefix (String a s) = None.
Proof. intros H. destruct a as [[] [] [] [] [] [] [] []]; first [discriminate H|by destruct s as [|b [|c s]]]. Qed.

Lemma visible_lstrip a s : visible_char a = true -> lstrip (String a s) = String a s.
Proof. intros H. unfold lstrip. cbn [String.length lstrip_fuel]. by rewrite visible_no_space. Qed.

Lemma visible_strip s : all_chars visible_char s = true -> strip s = s.
Proof.
  intros H. unfold strip. assert (E : lstrip s = s).
  { destruct s as [|a s]; [done|]. apply visible_lstrip. cbn in H. by apply andb_true_iff in H as [H _]. }
  rewrite E. clear E. induction s as [|a s IH]; [done|]. cbn [all_chars] in H. apply andb_true_iff in H as [Ha H].
  cbn [rstrip]. unfold is_blank. rewrite visible_lstrip by done. cbn [String.eqb]. by rewrite IH.
Qed.

Lemma b64_char_visible x : visible_char (b64_char x) = true.
Proof. destruct x as [[] [] [] [] [] []]; vm_compute; reflexivity. Qed.

Lemma b64encode_visible s : all_chars visible_char (b64encode s) = true.
Proof.
  assert (H : forall n s, (String.length s <= n)%nat -> all_chars visible_char (b64encode s) = true); [|by eapply H]. clear s.
  induction n as [|n IH]; intros s Hl; [destruct s as [|a s]; [reflexivity|cbn in Hl; exfalso; lia]|].
  destruct s as [|a [|b [|c s]]]; [done| | |]; cbn [b64encode all_chars]; rewrite !b64_char_visible; [done|done|].
  cbn [andb]. apply IH. cbn in Hl. lia.
Qed.

Lemma b64encode_empty s : b64encode s = "" -> s = "".
Proof. by destruct s as [|a [|b [|c s]]]. Qed.

Lemma guard_ok b c m u : guard b c m = Ok u <-> b = true.
Proof. unfold guard. destruct b, u; split; done. Qed.

(** The check at the head of the program in [H] passed. *)
Ltac take_check H E := apply rbind_ok in H as ([] & E & H); apply guard_ok in E.

Lemma sealed_text_returns v label s : _text v label = Ok s -> v = JStr s /\ s <> "" /\ strip s = s.
Proof. unfold _text. destruct v; try done. intros H. take_check H E. injection H as ->. by bool_hyps. Qed.

Lemma sealed_text_reads s label : s <> "" -> strip s = s -> _text (JStr s) label = Ok s.
Proof. intros H1 H2. unfold _text. apply String.eqb_neq in H1. by rewrite H1, H2, String.eqb_refl. Qed.

Lemma signature_returns s raw : _signature (JStr s) = Ok raw -> s = b64encode raw /\ raw <> "".
Proof.
  unfold _signature. intros H. take_ok H s' E. apply sealed_text_returns in E as [[= <-] _]. take_check H El.
  destruct (b64decode s) as [r|]; [|done]. take_check H Ec. injection H as ->. bool_hyps. done.
Qed.

Lemma signature_reads raw : raw <> "" -> str_len (b64encode raw) <= 8192 -> _signature (JStr (b64encode raw)) = Ok raw.
Proof.
  intros Hn Hl. unfold _signature. rewrite sealed_text_reads; [|intros E; by apply b64encode_empty in E|by apply visible_strip, b64encode_visible].
  cbn [rbind]. unfold guard at 1. rewrite (proj2 (Z.leb_le _ _)) by done. cbn [rbind]. rewrite b64decode_encode.
  unfold guard. apply String.eqb_neq in Hn. by rewrite Hn, String.eqb_refl.
Qed.

(** A signature has one spelling.  Every non-empty byte string whose
    encoding is at most 8192 characters long is accepted in its base64
    encoding, as itself; and a text is accepted for a byte string only if it
    is that encoding, so that two accepted texts for the same signature are
    equal (no stray bits, blanks or padding). *)
Theorem signature_encoding_canonical :
  (forall raw, raw <> "" -> str_len (b64encode raw) <= 8192 -> _signature (JStr (b64encode raw)) = Ok raw)
  /\ (forall s raw, _signature (JStr s) = Ok raw -> s = b64encode raw)
  /\ forall raw, b64decode (b64encode raw) = Some raw.
Proof.
  split; [exact signature_reads|]. split; [|exact b64decode_encode]. intros s raw H. by apply signature_returns in H as [H _].
Qed.

(** ** A verified authorization *)

(** What one turn of the loop demands of its attestation, the principal [p]
    trusted for it and the moment it was issued. *)
Record vouched (verify : PrincipalBinding -> string -> string -> result bool) (v : verifier) (x : expectation) (current : Z)
    (turn : string * string * SignedAttestation) (p : PrincipalBinding) (issued : Z) : Prop := {
  vo_trusted : trusted v turn.1.2 = Some p;
  vo_stage : p_stage p = turn.1.1;
  vo_principal : t_principal turn.2 = turn.1.2;
  vo_key : t_key turn.2 = p_key_id p;
  vo_policy : t_policy turn.2 = policy_digest v;
  vo_subject : t_subject turn.2 = x_subject x;
  vo_record : turn.1.1 = "builder" \/ t_record turn.2 = Some (x_record x);
  vo_decision : turn.1.1 ∈ ["judge"; "promoter"] -> t_decision turn.2 = Some (x_decision x);
  vo_issued : _time (JStr (t_issued turn.2)) = Ok issued;
  vo_limit : Z.abs (maximum_age v / 86400) <= 999999999;
  vo_window : exists expires, _time (JStr (t_expires turn.2)) = Ok expires /\ issued <= current < expires
    /\ current - issued <= maximum_age v * second /\ expires - issued <= maximum_age v * second;
  vo_signed : exists raw, _signature (JStr (t_signature turn.2)) = Ok raw
    /\ verify p (canonical_bytes (JObj (payload turn.2))) raw = Ok true }.

(** The moments come in order, none before [from]. *)
Fixpoint in_order (from : option Z) (moments : list Z) : Prop :=
  match moments with
  | [] => True
  | m :: rest => (match from with Some b => b <= m | None => True end) /\ in_order (Some m) rest
  end.

Definition after (v : verifier) (s : progress) (turn : string * string * SignedAttestation) (p : PrincipalBinding) (issued : Z) : progress :=
  {| administrations := administrations s ++ [administration_id p]; keys := keys s ++ [public_key_digest p];
     issued_before := Some issued; nonces := nonces s ++ [nonce_id v turn.1.2 (t_nonce turn.2)] |}.

Section Verified.
Context (verify : PrincipalBinding -> string -> string -> result bool).

Lemma expected_digest d label : (let? _ := _digest (JStr d) label in Ok tt) = Ok tt -> _digest (JStr d) label = Ok d.
Proof. intros H. take_ok H s E. rewrite E. unfold _digest in E. take_ok E s' Et. apply sealed_text_returns in Et as [[= <-] _]. take_check E Eh. by injection E as ->. Qed.

Lemma signed_ok p m s u : _verify verify p m s = Ok u <->
  exists raw, _signature s = Ok raw /\ verify p (canonical_bytes (JObj m)) raw = Ok true.
Proof.
  unfold _verify. rewrite rbind_ok. split.
  - intros (raw & E & H). exists raw. split; [done|].
    destruct (verify p _ raw) as [b|e]; [by apply guard_ok in H as ->|]. by case_bool_decide.
  - intros (raw & E & H). exists raw. split; [done|]. rewrite H. by apply guard_ok.
Qed.

Lemma mem_false (x : string) l : mem x l = false <-> x ∉ l.
Proof. rewrite <- not_true_iff_false. by rewrite mem_spec. Qed.

Lemma guard_pass {A} b c m (k : result A) : b = true -> (guard b c m ;? k) = k.
Proof. by intros ->. Qed.

Lemma issue_order before issued :
  match before with Some b => b <=? issued | None => true end = true <-> in_order before [issued].
Proof. destruct before as [b|]; cbn; [rewrite Z.leb_le|]; tauto. Qed.

Lemma timedelta_ok n d : timedelta_seconds n = Ok d <-> Z.abs (n / 86400) <= 999999999 /\ d = n * second.
Proof.
  unfold timedelta_seconds. rewrite rbind_ok. split.
  - intros (u & E%require_ok & [= <-]). by apply Z.leb_le in E.
  - intros [E ->]. exists tt. split; [|done]. by apply require_ok, Z.leb_le.
Qed.

Lemma verify_stage_ok v x current s turn s' : verify_stage verify v x current s turn = Ok s' <->
  exists p issued, vouched verify v x current turn p issued
    /\ administration_id p ∉ administrations s /\ public_key_digest p ∉ keys s
    /\ in_order (issued_before s) [issued] /\ s' = after v s turn p issued.
Proof.
  destruct turn as [[stage expected] t]. cbn [verify_stage]. split.
  - intros H. destruct (trusted v expected) as [p|] eqn:Et; [|done].
    take_check H E1. take_check H E2. take_check H E3. take_check H E4. take_check H E5. take_check H E6. take_check H E7.
    take_ok H issued Ei. take_ok H expires Ee. take_check H E8. take_ok H limit El. apply timedelta_ok in El as [Hl ->].
    take_check H E8'. take_check H E9. take_check H E10.
    take_ok H u Ev. apply signed_ok in Ev. injection H as <-. apply issue_order in E10. bool_hyps.
    exists p, issued. split; [|split; [by apply mem_false|split; [by apply mem_false|done]]].
    constructor; cbn [fst snd]; try done.
    + apply orb_true_iff in E6 as [E|E]; bool_hyps; [by left|by right].
    + intros Hin. apply orb_true_iff in E7 as [E|E]; bool_hyps; [|done]. by apply mem_false in E.
    + exists expires. repeat split; lia || done.
  - intros (p & issued & [H1 H2 H3 H4 H5 H6 H7 H8 H9 Hd (expires & Ee & Hw & Ha & Hl) H11] & Hadm & Hkey & Hord & ->). cbn [fst snd] in *.
    apply mem_false in Hadm, Hkey. rewrite H1, Hadm, Hkey. apply issue_order in Hord.
    rewrite !guard_pass; [rewrite H9; cbn [rbind]; rewrite Ee; cbn [rbind]; rewrite guard_pass;
      [rewrite (proj2 (timedelta_ok _ _) (conj Hd eq_refl)); cbn [rbind]; rewrite !guard_pass|]|..];
      repeat (rewrite ?andb_true_iff, ?orb_true_iff, ?String.eqb_eq, ?Z.leb_le, ?Z.ltb_lt, ?bool_decide_eq_true); try done; try lia.
    + apply signed_ok with (u := tt) in H11. rewrite H11. reflexivity.
    + destruct (mem stage _) eqn:E; [right; apply H8; by apply mem_spec|by left].
Qed.

Definition last_issued (from : option Z) (moments : list Z) : option Z :=
  match last moments with Some m => Some m | None => from end.
Definition finished (v : verifier) (s : progress) (turns : list (string * string * SignedAttestation)) (ps : list (PrincipalBinding * Z)) : progress :=
  {| administrations := administrations s ++ map (fun q => administration_id q.1) ps;
     keys := keys s ++ map (fun q => public_key_digest q.1) ps;
     issued_before := last_issued (issued_before s) ps.*2;
     nonces := nonces s ++ map (fun turn => nonce_id v turn.1.2 (t_nonce turn.2)) turns |}.

Lemma last_issued_cons from m l : last_issued (Some m) l = last_issued from (m :: l).
Proof.
  unfold last_issued. destruct l as [|z l]; [done|]. change (last (m :: z :: l)) with (last (z :: l)).
  destruct (last (z :: l)) eqn:E; [done|]. by apply last_None in E.
Qed.

Lemma NoDup_snoc_app (l l' : list string) x : NoDup l -> NoDup (l ++ x :: l') <-> x ∉ l /\ NoDup (l ++ [x]) /\ NoDup ((l ++ [x]) ++ l').
Proof.
  intros Hl. rewrite <- app_assoc. split.
  - intros H. assert (H' := H). apply NoDup_app in H' as (_ & Hd & Hr). split; [intros Hx; by apply (Hd x Hx); left|].
    split; [|done]. apply NoDup_app. split; [done|]. split; [|by apply NoDup_singleton].
    intros y Hy ->%list_elem_of_singleton. apply (Hd x Hy). by left.
  - by intros (_ & _ & H).
Qed.

Lemma stages_ok v x current turns s s' : NoDup (administrations s) -> NoDup (keys s) ->
  rfold (verify_stage verify v x current) s turns = Ok s' <->
  exists ps, Forall2 (fun turn q => vouched verify v x current turn q.1 q.2) turns ps
    /\ NoDup (administrations s ++ map (fun q => administration_id q.1) ps)
    /\ NoDup (keys s ++ map (fun q => public_key_digest q.1) ps)
    /\ in_order (issued_before s) ps.*2
    /\ s' = finished v s turns ps.
Proof.
  revert s. induction turns as [|turn turns IH]; intros s Ha Hk; cbn [rfold].
  - split.
    + intros [= <-]. exists []. unfold finished. cbn. rewrite !app_nil_r. by destruct s.
    + intros (ps & H & _ & _ & _ & ->). apply Forall2_nil_inv_l in H as ->. unfold finished. cbn. rewrite !app_nil_r. by destruct s.
  - rewrite rbind_ok. split.
    + intros (s1 & (p & issued & Hv & Hna & Hnk & Ho & ->)%verify_stage_ok & H).
      apply IH in H as (ps & Hf & Hda & Hdk & Hio & ->); [|cbn; apply NoDup_app; set_solver by eauto using NoDup_singleton..].
      exists ((p, issued) :: ps). split; [by constructor|]. cbn in *. rewrite <- !app_assoc in Hda, Hdk.
      split; [done|]. split; [done|]. split; [tauto|]. unfold finished. cbn. rewrite <- !app_assoc. f_equal.
      apply last_issued_cons.
    + intros (ps & Hf & Hda & Hdk & Hio & ->). apply Forall2_cons_inv_l in Hf as ([p issued] & ps' & Hv & Hf & ->). cbn in *.
      apply NoDup_snoc_app in Hda as (Hna & Ha' & Hda); [|done]. apply NoDup_snoc_app in Hdk as (Hnk & Hk' & Hdk); [|done].
      exists (after v s turn p issued). split; [apply verify_stage_ok; exists p, issued; cbn; tauto|].
      apply IH; [done..|]. exists ps'. split; [done|]. cbn. split; [done|]. split; [done|]. split; [tauto|].
      unfold finished. cbn. rewrite <- !app_assoc. f_equal. symmetry. apply last_issued_cons.
Qed.

(** C10: verification accepts exactly the authorizations a trusted and independent
    chain vouched for, and then reports them.  It succeeds precisely when the
    three expected digests are well formed, the four expected identities are
    different, the moment is UTC, and there are four bound principals, of the
    stage each acts in, with pairwise different administrations and public
    keys, who each signed (under the host's verifier) exactly the payload of
    their own attestation, which names the expected subject, the expected
    record after the builder, the expected decision at the judge and the
    promoter, and this policy, at moments that do not run backwards and lie
    within the age and validity limits, the age limit being one that a duration can
    express. *)
Theorem authorization_verified_iff v a x now out :
  verify_authorization verify v a x now = Ok out <->
  (forall d, d ∈ [x_subject x; x_record x; x_decision x] -> _digest (JStr d) "expected binding" = Ok d)
  /\ NoDup (identities x) /\ utcoffset now = Some 0
  /\ exists ps, Forall2 (fun turn q => vouched verify v x (instant now) turn q.1 q.2) (zip (zip _STAGES (identities x)) a) ps
       /\ NoDup (map (fun q => administration_id q.1) ps) /\ NoDup (map (fun q => public_key_digest q.1) ps)
       /\ in_order None ps.*2
       /\ out = {| authorization_digest := canonical_digest (authorization_document a); va_policy_digest := policy_digest v;
                   va_principals := identities x;
                   nonce_ids := map (fun turn => nonce_id v turn.1.2 (t_nonce turn.2)) (zip (zip _STAGES (identities x)) a) |}.
Proof.
  unfold verify_authorization. rewrite rbind_ok. split.
  - intros ([] & Hd & H). take_check H E1. take_check H E2. take_ok H s E. injection H as <-. unfold distinct in E1. bool_hyps.
    apply stages_ok in E as (ps & Hf & Ha & Hk & Ho & ->); [|by apply NoDup_nil_2..].
    split; [intros d Hin; by apply expected_digest, (proj1 (each_ok _ _ _) Hd)|]. split; [done|]. split; [done|]. by exists ps.
  - intros (Hd & Hi & Hu & ps & Hf & Ha & Hk & Ho & ->). exists tt. split.
    + apply each_ok. intros d Hin. by rewrite (Hd d Hin).
    + rewrite !guard_pass by (by apply bool_decide_eq_true). rewrite (proj2 (stages_ok v x (instant now) _ no_progress _ ltac:(by apply NoDup_nil_2) ltac:(by apply NoDup_nil_2))
        (ex_intro _ ps (conj Hf (conj Ha (conj Hk (conj Ho eq_refl)))))). reflexivity.
Qed.
End Verified.

(** ** What a signature covers *)

Lemma payload_wf t : json_wf (JObj (payload t)) = true.
Proof. unfold attestation_document, payload. destruct (t_record t), (t_decision t); vm_compute; reflexivity. Qed.

Lemma attestation_wf t : json_wf (JObj (attestation_document t)) = true.
Proof. unfold attestation_document, payload. destruct (t_record t), (t_decision t); vm_compute; reflexivity. Qed.

Definition receipt_names : list string := ["schema_version"; "kind"; "policy_digest"; "principal_id"; "key_id"; "payload"].
Lemma receipt_names_NoDup : NoDup receipt_names.
Proof. apply (bool_decide_unpack (NoDup receipt_names)). vm_compute. exact I. Qed.

Lemma receipt_wf v p : json_wf p = true -> json_wf (JObj (unsigned_receipt v p)) = true.
Proof.
  intros H. apply object_wf; [apply receipt_names_NoDup|]. intros k w Hin. unfold unsigned_receipt in Hin.
  repeat (apply elem_of_cons in Hin as [[= -> ->]|Hin]; [reflexivity || exact H|]). by apply elem_of_nil in Hin.
Qed.

Lemma opt_str_norm_inj o o' : norm (opt_str o) = norm (opt_str o') -> opt_str o = opt_str o'.
Proof. by destruct o, o'. Qed.

Lemma payload_committed t t' : canonical_bytes (JObj (payload t)) = canonical_bytes (JObj (payload t')) -> payload t = payload t'.
Proof.
  intros H. assert (M := same_bytes_members _ _ (payload_wf t) (payload_wf t') H). unfold payload.
  assert (M1 := M "stage"). assert (M2 := M "principal_id"). assert (M3 := M "key_id"). assert (M4 := M "policy_digest").
  assert (M5 := M "subject_digest"). assert (M6 := M "record_digest"). assert (M7 := M "decision_digest").
  assert (M8 := M "nonce"). assert (M9 := M "issued_at"). assert (M10 := M "expires_at"). clear M H.
  cbn in M1, M2, M3, M4, M5, M6, M7, M8, M9, M10. apply opt_str_norm_inj in M6, M7. congruence.
Qed.

(** A signature cannot be moved to another statement.  Two attestations whose
    signed bytes are equal agree on everything but the signature: stage,
    principal, key, policy, subject, record, decision, nonce and both moments;
    two rejection receipts of equal signed bytes carry the same policy,
    principal, key and payload; and no attestation is ever signed with the
    bytes of a rejection receipt. *)
Theorem signed_bytes_commit :
  (forall t t', canonical_bytes (JObj (payload t)) = canonical_bytes (JObj (payload t')) -> payload t = payload t')
  /\ (forall v v' p p', json_wf p = true -> json_wf p' = true ->
      canonical_bytes (JObj (unsigned_receipt v (norm p))) = canonical_bytes (JObj (unsigned_receipt v' (norm p'))) ->
      unsigned_receipt v (norm p) = unsigned_receipt v' (norm p'))
  /\ forall t v p, json_wf p = true -> canonical_bytes (JObj (payload t)) <> canonical_bytes (JObj (unsigned_receipt v p)).
Proof.
  split; [exact payload_committed|]. split.
  - intros v v' p p' Hp Hp' H. apply norm_wf in Hp, Hp'.
    assert (M := same_bytes_members _ _ (receipt_wf v _ Hp) (receipt_wf v' _ Hp') H). unfold unsigned_receipt.
    assert (M1 := M "policy_digest"). assert (M2 := M "principal_id"). assert (M3 := M "key_id"). assert (M4 := M "payload").
    change (JStr (policy_digest v) = JStr (policy_digest v')) in M1.
    change (JStr (principal_id (receipt_principal v)) = JStr (principal_id (receipt_principal v'))) in M2.
    change (JStr (p_key_id (receipt_principal v)) = JStr (p_key_id (receipt_principal v'))) in M3.
    change (norm (norm p) = norm (norm p')) in M4. rewrite !norm_idem in M4. congruence.
  - intros t v p Hp H. assert (M := same_bytes_members _ _ (payload_wf t) (receipt_wf v _ Hp) H "kind"). discriminate M.
Qed.

Definition nonce_document (v : verifier) (id nonce : string) : contract :=
  [("policy", JStr (policy_digest v)); ("principal", JStr id); ("nonce", JStr nonce)].

Lemma nonce_bytes v id n id' n' :
  canonical_bytes (JObj (nonce_document v id n)) = canonical_bytes (JObj (nonce_document v id' n')) -> id = id' /\ n = n'.
Proof.
  intros H. assert (M := same_bytes_members (nonce_document v id n) (nonce_document v id' n') eq_refl eq_refl H).
  assert (M1 := M "principal"). assert (M2 := M "nonce"). cbn in M1, M2. split; congruence.
Qed.

(** The nonce ids a verification reports, which a store uses to refuse a
    replay, identify the nonces.  Two nonces of the same policy have the same
    id only if they are the same nonce of the same principal, or the documents
    hashed for them are a SHA-256 collision. *)
Theorem nonce_ids_identify v id n id' n' : nonce_id v id n = nonce_id v id' n' ->
  (id = id' /\ n = n') \/ exists m m', m <> m' /\ sha256_hexdigest m = sha256_hexdigest m'.
Proof.
  intros H. unfold nonce_id, canonical_digest in H. apply append_inj_l in H.
  destruct (decide (canonical_bytes (JObj (nonce_document v id n)) = canonical_bytes (JObj (nonce_document v id' n')))) as [E|E].
  - left. by apply nonce_bytes in E.
  - right. exists (canonical_bytes (JObj (nonce_document v id n))), (canonical_bytes (JObj (nonce_document v id' n'))).
    split; [exact E|exact H].
Qed.

(** ** Rejection receipts *)

Lemma object_returns j fields label d : _object j fields label = Ok d -> j = JObj d /\ subset d.*1 fields = true /\ fields ⊆ d.*1.
Proof.
  unfold _object. destruct j as [| | | | |l]; try done. intros H. take_check H E. injection H as ->. bool_hyps. split; [done|]. split; [done|].
  intros k Hk. apply has_elem. rewrite forallb_forall in H0. by apply H0, list_elem_of_In.
Qed.

Lemma object_reads (d : contract) fields label : d.*1 ≡ₚ fields -> _object (JObj d) fields label = Ok d.
Proof.
  intros E. unfold _object. rewrite (proj2 (subset_spec _ _)) by (intros x; by rewrite E). cbn [andb].
  rewrite (proj2 (forallb_forall _ _)); [done|]. intros k Hk. apply has_elem. rewrite E. by apply list_elem_of_In.
Qed.

Lemma is_one_spec j : is_one j = true <-> j = JInt 1.
Proof. unfold is_one. destruct j; try done. rewrite Z.eqb_eq. split; congruence. Qed.

Lemma receipt_fields_NoDup : NoDup receipt_fields.
Proof. apply (bool_decide_unpack (NoDup receipt_fields)). vm_compute. exact I. Qed.

Definition signed_receipt (v : verifier) (frozen signature : json) : contract := unsigned_receipt v frozen ++ [("signature", signature)].

Lemma canonical_unsigned v frozen : canonical_bytes (JObj (unsigned_receipt v (norm frozen))) = canonical_bytes (JObj (unsigned_receipt v frozen)).
Proof.
  unfold canonical_bytes, dumps. cbn [norm unsigned_receipt map fst snd]. by rewrite norm_idem.
Qed.

Section Receipts.
Context (verify : PrincipalBinding -> string -> string -> result bool).

Lemma receipt_verified v d p : NoDup d.*1 -> verify_rejection_receipt verify v (JObj d) = Ok p <->
  exists l signature raw, d ≡ₚ signed_receipt v (JObj l) signature /\ p = norm (JObj l) /\ _signature signature = Ok raw
    /\ verify (receipt_principal v) (canonical_bytes (JObj (unsigned_receipt v p))) raw = Ok true.
Proof.
  intros Hn.
  assert (Hpop : forall l s, d ≡ₚ signed_receipt v l s -> canonical_bytes (JObj (pop_key "signature" d)) = canonical_bytes (JObj (unsigned_receipt v (norm l)))).
  { intros l s H. rewrite canonical_unsigned. unfold pop_key. apply canonical_perm.
    - by apply pop_key_NoDup.
    - exact (pop_key_perm _ _ _ H). }
  split.
  - unfold verify_rejection_receipt. intros H. take_ok H d' Eo. apply object_returns in Eo as ([= <-] & E1 & E2).
    take_check H E3. take_check H E4. destruct (get "payload" d) as [| | | | |l] eqn:Ep; try done. take_ok H u Ev. injection H as <-.
    apply signed_ok in Ev as (raw & Er & Ev). apply andb_true_iff in E3 as [E3%is_one_spec E3'%py_eq_str].
    apply andb_true_iff in E4 as [[E4%py_eq_str E5%py_eq_str]%andb_true_iff E6%py_eq_str].
    assert (Hd : d ≡ₚ signed_receipt v (JObj l) (get "signature" d)).
    { apply same_members_perm; [exact receipt_fields_NoDup|exact (NoDup_fields _ _ Hn receipt_fields_NoDup E1 E2)|]. intros k.
      destruct (decide (k ∈ receipt_fields)) as [Hk|Hk].
      - unfold receipt_fields in Hk. set_unfold. destruct Hk as [->|[->|[->|[->|[->|[->|[->|[]]]]]]]]; assumption || reflexivity.
      - unfold get. rewrite (proj2 (lookup_key_not_in k d)) by (intros Hi; by apply Hk, subset_spec with (1 := E1)).
        by rewrite (proj2 (lookup_key_not_in k (signed_receipt v (JObj l) _))) by exact Hk. }
    exists l, (get "signature" d), raw. rewrite (Hpop _ _ Hd) in Ev. done.
  - intros (l & s & raw & Hd & -> & Er & Ev). unfold verify_rejection_receipt.
    rewrite object_reads by (rewrite Hd; reflexivity). cbn [rbind].
    assert (Hg : forall k, get k d = get k (signed_receipt v (JObj l) s)).
    { intros k. unfold get. by rewrite (lookup_key_perm k d _ Hn Hd). }
    rewrite !Hg. rewrite !guard_pass; [|change (String.eqb (policy_digest v) (policy_digest v) && String.eqb (principal_id (receipt_principal v)) (principal_id (receipt_principal v)) && String.eqb (p_key_id (receipt_principal v)) (p_key_id (receipt_principal v)) = true); by rewrite !String.eqb_refl|reflexivity].
    change (get "payload" (signed_receipt v (JObj l) s)) with (JObj l). cbv iota.
    rewrite (proj2 (signed_ok verify _ _ _ tt)); [done|]. exists raw. rewrite (Hpop _ _ Hd). done.
Qed.
End Receipts.

Section Signing.
Context (verify : PrincipalBinding -> string -> string -> result bool) (sign : string -> result string).

Lemma sign_returns v rejected r : sign_rejection verify sign v rejected = Ok r ->
  exists l raw, rejected = JObj l /\ r = signed_receipt v (norm rejected) (JStr (b64encode raw)) /\ _signature (JStr (b64encode raw)) = Ok raw
    /\ verify (receipt_principal v) (canonical_bytes (JObj (unsigned_receipt v (norm rejected)))) raw = Ok true.
Proof.
  unfold sign_rejection. destruct rejected as [| | | | |l]; try done.
  destruct (sign _) as [raw|e]; [|done]. intros H. take_check H E. take_ok H u Ev. injection H as <-.
  apply signed_ok in Ev as (raw' & Er & Ev). exists l, raw. assert (raw' = raw) as ->.
  { apply signature_returns in Er as [Er _]. apply (f_equal b64decode) in Er. rewrite !b64decode_encode in Er. congruence. }
  done.
Qed.

(** Rejection receipts.  A receipt the program signs verifies, in any order of
    its members and also when read back from its canonical bytes, and yields the
    rejected payload; and a document that verifies, whoever made it, carries a
    signature the receipt principal gave to exactly the payload it yields, under
    this policy and key. *)
Theorem rejection_receipts_verify v :
  (forall rejected r d, json_wf rejected = true -> sign_rejection verify sign v rejected = Ok r ->
    d ≡ₚ r \/ loads (canonical_bytes (JObj r)) = Some (JObj d) ->
    verify_rejection_receipt verify v (JObj d) = Ok (norm rejected))
  /\ forall d p, json_wf (JObj d) = true -> verify_rejection_receipt verify v (JObj d) = Ok p ->
       exists raw, get "signature" d = JStr (b64encode raw)
         /\ verify (receipt_principal v) (canonical_bytes (JObj (unsigned_receipt v p))) raw = Ok true.
Proof.
  split.
  - intros rejected r d Hw H Hd. apply sign_returns in H as (l & raw & -> & Er & Es & Ev).
    destruct (norm_obj_members l) as (l' & El & _). rewrite El in *.
    assert (Hr : NoDup r.*1) by (rewrite Er; exact receipt_fields_NoDup).
    assert (Hp : d ≡ₚ r).
    { destruct Hd as [Hd|Hd]; [done|]. apply norm_wf in Hw. rewrite El in Hw. subst r.
      apply (stored_plain _ _ Hr) in Hd; [done|]. intros k w E. unfold signed_receipt, unsigned_receipt in E. cbn [app] in E.
      repeat (apply elem_of_cons in E as [[= _ ->]|E]; [(split; reflexivity) || (split; [exact Hw|rewrite <- El; apply norm_idem])|]).
      by apply elem_of_nil in E. }
    apply receipt_verified; [by rewrite Hp|]. exists l', (JStr (b64encode raw)), raw.
    assert (En : norm (JObj l') = JObj l') by (rewrite <- El; apply norm_idem). rewrite En. split; [by rewrite Hp, Er|]. done.
  - intros d p Hw H. cbn in Hw. apply andb_true_iff in Hw as [Hn _]. unfold distinct in Hn. bool_hyps.
    assert (H' := H). apply receipt_verified in H' as (l & s & raw & Hd & -> & Es & Ev); [|done]. exists raw. split; [|done].
    unfold get. rewrite (lookup_key_perm "signature" d _ Hn Hd). cbn.
    destruct s as [| | |s| |]; try discriminate Es. by apply signature_returns in Es as [-> _].
Qed.
End Signing.

(** ** Documents of authorizations *)

Lemma digest_returns v label s : _digest v label = Ok s -> v = JStr s.
Proof. unfold _digest. intros H. take_ok H s' E. apply sealed_text_returns in E as [-> _]. take_check H Eg. by injection H as ->. Qed.

Lemma optional_digest_returns v label o : _optional_digest v label = Ok o -> v = opt_str o.
Proof.
  unfold _optional_digest. intros H. destruct v; [by injection H as <-|..]; take_ok H d E; injection H as <-; by apply digest_returns in E.
Qed.

(** An attestation keeps the values it was built from. *)
Lemma attestation_members m t k : attestation_of m = Ok t -> k ∈ attestation_fields -> get k m = get k (attestation_document t).
Proof.
  unfold attestation_of. intros H Hk. destruct (get "stage" m) as [| | |stage| |] eqn:E1; try done.
  take_check H G1. take_ok H principal E2. take_ok H key E3. take_ok H nonce E4. take_ok H policy E5. take_ok H subject E6.
  take_ok H record E7. take_ok H decision E8. take_ok H u G2. take_check H G3. take_check H G4. take_ok H issued E9. take_ok H expires E10.
  take_check H G5. take_ok H raw E11. destruct (get "issued_at" m) as [| | |i| |] eqn:F1; try done.
  destruct (get "expires_at" m) as [| | |e| |] eqn:F2; try done. destruct (get "signature" m) as [| | |s| |] eqn:F3; try done.
  injection H as <-. apply sealed_text_returns in E2 as [E2 _], E3 as [E3 _], E4 as [E4 _]. apply digest_returns in E5, E6.
  apply optional_digest_returns in E7, E8. unfold attestation_fields in Hk. set_unfold.
  repeat (destruct Hk as [->|Hk]; [first [rewrite E1|rewrite E2|rewrite E3|rewrite E4|rewrite E5|rewrite E6|rewrite E7|rewrite E8|rewrite F1|rewrite F2|rewrite F3]; reflexivity|]).
  destruct Hk.
Qed.

(** The constructor looks at its values only. *)
Lemma attestation_of_ext m m' : (forall k, k ∈ attestation_fields -> get k m' = get k m) -> attestation_of m' = attestation_of m.
Proof.
  intros H. unfold attestation_of.
  rewrite !(H "stage"), !(H "principal_id"), !(H "key_id"), !(H "nonce"), !(H "policy_digest"), !(H "subject_digest"), !(H "record_digest"),
    !(H "decision_digest"), !(H "issued_at"), !(H "expires_at"), !(H "signature") by (unfold attestation_fields; set_solver). reflexivity.
Qed.

Definition document_fields : list string := attestation_fields ++ ["schema_version"; "kind"].

Lemma document_keys t : (attestation_document t).*1 ≡ₚ document_fields.
Proof.
  change ((attestation_document t).*1) with (["schema_version"; "kind"; "stage"; "principal_id"; "key_id"; "policy_digest"; "subject_digest";
    "record_digest"; "decision_digest"; "nonce"; "issued_at"; "expires_at"; "signature"]).
  apply (bool_decide_unpack _). vm_compute. exact I.
Qed.

Lemma attestation_document_plain t k : norm (get k (attestation_document t)) = get k (attestation_document t).
Proof.
  unfold get. destruct (lookup_key k _) as [w|] eqn:E; [|done]. cbn. apply lookup_key_in in E. unfold attestation_document, payload in E.
  repeat (apply elem_of_cons in E as [[= _ ->]|E]; [reflexivity || (by destruct (t_record t)) || by destruct (t_decision t)|]).
  by apply elem_of_nil in E.
Qed.

Lemma stored_attestation m t : attestation_of m = Ok t -> attestation_from_document (norm (JObj (attestation_document t))) = Ok t.
Proof.
  intros H. assert (Hn : NoDup (attestation_document t).*1).
  { rewrite document_keys. apply (bool_decide_unpack _). vm_compute. exact I. }
  destruct (norm_obj_members (attestation_document t)) as (d & Ed & _). rewrite Ed. destruct (stored_members _ d Hn Ed) as [Hg Hk].
  unfold attestation_from_document. fold document_fields. rewrite object_reads by (by rewrite Hk, document_keys). cbn [rbind].
  rewrite guard_pass by (rewrite !Hg; reflexivity). rewrite <- H. apply attestation_of_ext. intros k Hin.
  by rewrite Hg, attestation_document_plain, (attestation_members m t).
Qed.

(** An authorization survives storage: the document of a constructed
    authorization, written in canonical form and parsed back, is read as exactly
    that authorization. *)
Theorem authorization_round_trip a d : check_authorization a = Ok a -> (forall t, t ∈ a -> exists m, attestation_of m = Ok t) ->
  loads (canonical_bytes (authorization_document a)) = Some d -> authorization_from_document d = Ok a.
Proof.
  intros Hc Ha Hl. unfold canonical_bytes in Hl. rewrite loads_dumps_norm in Hl.
  - injection Hl as <-. change (norm (authorization_document a)) with
      (JObj [("attestations", JList (map norm (map (fun t => JObj (attestation_document t)) a))); ("schema_version", JInt 1)]).
    unfold authorization_from_document. rewrite object_reads by apply Permutation_swap. cbn [rbind].
    change (get "schema_version" _) with (JInt 1). cbv iota. change (is_one (JInt 1)) with true. cbv iota.
    match goal with |- match ?g with _ => _ end = _ => change g with (JList (map norm (map (fun t => JObj (attestation_document t)) a))) end. cbv iota.
    rewrite map_map. erewrite map_result_map with (h := id); [by rewrite map_id|]. intros t Ht. destruct (Ha t Ht) as [m Hm]. exact (stored_attestation m t Hm).
  - unfold authorization_document. apply object_wf; [apply (bool_decide_unpack _); vm_compute; exact I|]. intros k w E.
    apply elem_of_cons in E as [[= _ ->]|E]; [done|]. apply elem_of_cons in E as [[= _ ->]|E]; [|by apply elem_of_nil in E].
    cbn. apply forallb_forall. intros j Hj. apply in_map_iff in Hj as (t & <- & _). apply attestation_wf.
Qed.

(** ** A sample policy *)

Module SampleAttestations.
Definition digest_of (s : string) : string := ("sha256:" +:+ sha256_hexdigest s)%stdpp.
Definition bound (stage : string) : PrincipalBinding :=
  {| principal_id := ("p-" +:+ stage)%stdpp; p_stage := stage; administration_id := ("team-" +:+ stage)%stdpp;
     p_key_id := ("k-" +:+ stage)%stdpp; public_key_digest := digest_of stage |}.
Definition policy : result verifier := new_verifier (map bound (_STAGES ++ ["receipt"])) "p-receipt" "k-receipt" 600.
Definition host : verifier :=
  match policy with Ok v => v | Raise _ => {| principals := []; receipt_principal := bound "receipt"; maximum_age := 0; policy_bytes := "" |} end.

(** A toy signature: the key's name and the hash of the bytes. *)
Definition sign_with (key bytes : string) : string := (key +:+ sha256_hexdigest bytes)%stdpp.
Definition accepts (p : PrincipalBinding) (bytes raw : string) : result bool := Ok (String.eqb raw (sign_with (p_key_id p) bytes)).

Definition unsigned (stage : string) (record decision : option string) (issued : string) : SignedAttestation :=
  {| t_stage := stage; t_principal := ("p-" +:+ stage)%stdpp; t_key := ("k-" +:+ stage)%stdpp; t_policy := policy_digest host;
     t_subject := digest_of "subject"; t_record := record; t_decision := decision; t_nonce := ("n-" +:+ stage)%stdpp;
     t_issued := issued; t_expires := "2026-01-01T00:05:00Z"; t_signature := "" |}.
Definition signed (t : SignedAttestation) : contract :=
  payload t ++ [("signature", JStr (b64encode (sign_with (t_key t) (canonical_bytes (JObj (payload t))))))].
Definition given : list contract :=
  [signed (unsigned "builder" None None "2026-01-01T00:00:01Z");
   signed (unsigned "verifier" (Some (digest_of "record")) None "2026-01-01T00:00:02Z");
   signed (unsigned "judge" (Some (digest_of "record")) (Some (digest_of "decision")) "2026-01-01T00:00:03Z");
   signed (unsigned "promoter" (Some (digest_of "record")) (Some (digest_of "decision")) "2026-01-01T00:00:03Z")].
Definition chain : authorization := Eval vm_compute in match map_result attestation_of given with Ok ts => ts | Raise _ => [] end.
Definition expected : expectation :=
  {| x_subject := digest_of "subject"; x_record := digest_of "record"; x_decision := digest_of "decision"; x_builder := "p-builder";
     x_evaluator := "p-verifier"; x_judge := "p-judge"; x_promoter := "p-promoter" |}.
Definition verified_at (now : string) : option (list string) :=
  match fromisoformat now with
  | Some d => match verify_authorization accepts host chain expected d with Ok out => Some (va_principals out) | Raise _ => None end
  | None => None
  end.

Example chain_verifies : verified_at "2026-01-01T00:01:00+00:00" = Some ["p-builder"; "p-verifier"; "p-judge"; "p-promoter"].
Proof. vm_compute. reflexivity. Qed.
Example chain_expires : verified_at "2026-01-01T00:05:00+00:00" = None.
Proof. vm_compute. reflexivity. Qed.
Example rejection_is_signed :
  (let? r := sign_rejection accepts (fun bytes => Ok (sign_with "k-receipt" bytes)) host (JObj [("reason", JStr "late"); ("attempt", JInt 2)]) in
   verify_rejection_receipt accepts host (JObj (rev r))) = Ok (JObj [("attempt", JInt 2); ("reason", JStr "late")]).
Proof. vm_compute. reflexivity. Qed.

(** The constructor accepts an age limit that no duration expresses; no
    authorization verifies under it. *)
Example oversized_age_accepted :
  is_ok (new_verifier (map bound (_STAGES ++ ["receipt"])) "p-receipt" "k-receipt" 86400000000000) = true
  /\ timedelta_seconds 86400000000000 = raise OverflowError "days=1000000000; must have magnitude <= 999999999"
  /\ timedelta_seconds 86399999999999 = Ok 86399999999999000000.
Proof. split_and!; vm_compute; reflexivity. Qed.

Lemma chain_built t : t ∈ chain -> exists m, attestation_of m = Ok t.
Proof.
  intros H. assert (E : map_result attestation_of given = Ok chain) by (vm_compute; reflexivity).
  destruct (map_result_elem _ _ _ _ E H) as (m & _ & Em). by exists m.
Qed.

Definition stored_chain : json := Eval vm_compute in default JNull (loads (canonical_bytes (authorization_document chain))).
Lemma authorization_round_trip_witness : authorization_from_document stored_chain = Ok chain.
Proof.
  apply (authorization_round_trip chain stored_chain); [vm_compute; reflexivity|exact chain_built|vm_compute; reflexivity].
Defined.

Lemma nonce_ids_identify_witness :
  ("p-judge" = "p-judge" /\ "n" = "n") \/ exists m m', m <> m' /\ sha256_hexdigest m = sha256_hexdigest m'.
Proof. exact (nonce_ids_identify host "p-judge" "n" "p-judge" "n" eq_refl). Defined.
End SampleAttestations.

End PromotionAuth.
