(* ===== verification/Projection.v ===== *)
(** * Kernel events and their reducer

    [brain_kernel/events.py] and [brain_kernel/projection.py]: kernel events
    with their hash binding, the mission and work state machines, and
    [reduce_event], the pure reducer that folds the event history into the
    projection state. *)

From S2P Require Import Prelude Sha256 Canonical PyLib Schema Contracts.

Module Projection.
Export Contracts.

(** ** Events *)

(** [payload] is a Python dictionary: an association list with distinct keys. *)
Record KernelEvent := {
  event_id : string;
  mission_id : string;
  event_type : string;
  actor_id : string;
  occurred_at : string;
  payload : contract;
  work_id : option string;
  attempt_id : option string;
  event_actor_role : option string;
  event_version : Z;
  previous_digest : option string }.

(** [KernelEvent.__post_init__]; [payload] is any value at this point. *)
Definition check_event (e : contract -> KernelEvent) (p : json) : result KernelEvent :=
  let ev := e [] in
  each (fun vl => require (negb (String.eqb vl.1 "")) ValueError (vl.2 +:+ " is required")%stdpp)
    [(event_id ev, "event_id"); (mission_id ev, "mission_id"); (event_type ev, "event_type");
     (actor_id ev, "actor_id"); (occurred_at ev, "occurred_at")] ;?
  require (1 <=? event_version ev) ValueError "event_version must be a positive integer" ;?
  match p with
  | JObj fields => Ok (e fields)
  | _ => raise ValueError "payload must be a mapping"
  end.

Definition event_preimage (e : KernelEvent) (previous : option string) : json :=
  JObj [("event_id", JStr (event_id e)); ("mission_id", JStr (mission_id e)); ("work_id", opt_str (work_id e));
        ("attempt_id", opt_str (attempt_id e)); ("event_type", JStr (event_type e));
        ("event_version", JInt (event_version e)); ("actor_id", JStr (actor_id e));
        ("actor_role", opt_str (event_actor_role e)); ("occurred_at", JStr (occurred_at e));
        ("payload", JObj (payload e)); ("previous_digest", opt_str previous)].
Definition digest_for (e : KernelEvent) (previous : option string) : string :=
  canonical_digest (event_preimage e previous).

(** ** State machines *)

Definition _MISSION_NEXT (s : MissionState) : list MissionState :=
  match s with
  | M_CREATED => [M_PLANNING; M_WAITING_HUMAN; M_PAUSED; M_CANCELLED; M_FAILED]
  | M_PLANNING => [M_READY; M_FAILED; M_WAITING_HUMAN]
  | M_READY => [M_RUNNING; M_CANCELLED]
  | M_RUNNING => [M_VERIFYING; M_PAUSED; M_FAILED]
  | M_VERIFYING => [M_INTEGRATING; M_FAILED]
  | M_INTEGRATING => [M_COMPLETED; M_ROLLING_BACK; M_FAILED]
  | _ => []
  end.

Definition _WORK_NEXT (s : WorkState) : list WorkState :=
  match s with
  | W_PROPOSED => [W_READY; W_BLOCKED_DEPENDENCY; W_CANCELLED; W_SUPERSEDED]
  | W_READY => [W_LEASED; W_CANCELLED]
  | W_LEASED => [W_RUNNING; W_RETRYABLE_FAILED; W_CANCELLED]
  | W_RUNNING => [W_AWAITING_VERIFICATION; W_RETRYABLE_FAILED; W_TERMINAL_FAILED; W_CANCELLED]
  | W_AWAITING_VERIFICATION => [W_ACCEPTED; W_RETRYABLE_FAILED; W_TERMINAL_FAILED]
  | W_ACCEPTED => [W_INTEGRATED]
  | _ => []
  end.

(** ** State

    The two dictionaries of the projection state, in insertion order.  A work
    dictionary always has a mission and a status; the other keys may be
    absent. *)

Record work_entry := {
  w_mission_id : string;
  w_status : WorkState;
  evaluation_plan_digest : option string;
  passed_evaluation_digest : option string;
  evaluation_bundle_digest : option string }.
#[global] Instance work_entry_eq_dec : EqDecision work_entry.
Proof. solve_decision. Defined.

Record State := { missions : list (string * MissionState); work : list (string * work_entry) }.
#[global] Instance State_eq_dec : EqDecision State.
Proof. solve_decision. Defined.

Definition empty_state : State := {| missions := []; work := [] |}.

Definition opt_field (k : string) (o : option string) : contract :=
  match o with Some s => [(k, JStr s)] | None => [] end.
Definition work_document (w : work_entry) : json :=
  JObj ([("mission_id", JStr (w_mission_id w)); ("status", JStr (work_value (w_status w)))]
        ++ opt_field "evaluation_plan_digest" (evaluation_plan_digest w)
        ++ opt_field "passed_evaluation_digest" (passed_evaluation_digest w)
        ++ opt_field "evaluation_bundle_digest" (evaluation_bundle_digest w)).
Definition state_document (s : State) : json :=
  JObj [("missions", JObj (map (fun kv => (kv.1, JStr (mission_value kv.2))) (missions s)));
        ("work", JObj (map (fun kv => (kv.1, work_document kv.2)) (work s)))].
Definition state_digest (s : State) : string := canonical_digest (state_document s).

Definition set_status (w : work_entry) (s : WorkState) : work_entry :=
  {| w_mission_id := w_mission_id w; w_status := s; evaluation_plan_digest := evaluation_plan_digest w;
     passed_evaluation_digest := passed_evaluation_digest w; evaluation_bundle_digest := evaluation_bundle_digest w |}.
Definition set_plan (w : work_entry) (d : string) : work_entry :=
  {| w_mission_id := w_mission_id w; w_status := w_status w; evaluation_plan_digest := Some d;
     passed_evaluation_digest := passed_evaluation_digest w; evaluation_bundle_digest := evaluation_bundle_digest w |}.
Definition set_passed (w : work_entry) (d : string) : work_entry :=
  {| w_mission_id := w_mission_id w; w_status := w_status w; evaluation_plan_digest := evaluation_plan_digest w;
     passed_evaluation_digest := Some d; evaluation_bundle_digest := evaluation_bundle_digest w |}.
Definition set_bundle (w : work_entry) (d : string) : work_entry :=
  {| w_mission_id := w_mission_id w; w_status := w_status w; evaluation_plan_digest := evaluation_plan_digest w;
     passed_evaluation_digest := passed_evaluation_digest w; evaluation_bundle_digest := Some d |}.

Definition put_mission (s : State) (m : string) (st : MissionState) : State :=
  {| missions := dict_set m st (missions s); work := work s |}.
Definition put_work (s : State) (k : string) (w : work_entry) : State :=
  {| missions := missions s; work := dict_set k w (work s) |}.

(** ** The reducer *)

(** [payload[key]] *)
Definition item (k : string) (p : contract) : result json :=
  match lookup_key k p with Some v => Ok v | None => raise KeyError k end.

(** The work item an event names: [not work_id or work_id not in work]. *)
Definition named_work (s : State) (e : KernelEvent) (m : string) : result (string * work_entry) :=
  match work_id e with
  | Some k =>
      match lookup_key k (work s) with
      | Some w => require (negb (String.eqb k "")) ValueError m ;? Ok (k, w)
      | None => raise ValueError m
      end
  | None => raise ValueError m
  end.

Definition illegal (kind old new : string) : string :=
  ("illegal " +:+ kind +:+ " transition: " +:+ old +:+ " -> " +:+ new)%stdpp.

Definition reduce_mission_created (s : State) (e : KernelEvent) : result State :=
  require (negb (bool_decide (is_Some (lookup_key (mission_id e) (missions s))))) ValueError "mission already exists" ;?
  Ok (put_mission s (mission_id e) M_CREATED).

Definition reduce_mission_transition (s : State) (e : KernelEvent) : result State :=
  match lookup_key (mission_id e) (missions s) with
  | None => raise ValueError "mission transition belongs to an unknown mission"
  | Some old =>
      let? status := item "status" (payload e) in
      let? new := mission_state_of status in
      require (bool_decide (new ∈ _MISSION_NEXT old)) ValueError (illegal "mission" (mission_value old) (mission_value new)) ;?
      Ok (put_mission s (mission_id e) new)
  end.

Definition reduce_work_created (s : State) (e : KernelEvent) : result State :=
  match work_id e with
  | None => raise ValueError "work id is missing or already exists"
  | Some k =>
      require (negb (String.eqb k "") && negb (bool_decide (is_Some (lookup_key k (work s)))))
        ValueError "work id is missing or already exists" ;?
      require (bool_decide (is_Some (lookup_key (mission_id e) (missions s)))) ValueError "work belongs to unknown mission" ;?
      Ok (put_work s k {| w_mission_id := mission_id e; w_status := W_PROPOSED; evaluation_plan_digest := None;
                          passed_evaluation_digest := None; evaluation_bundle_digest := None |})
  end.

Definition reduce_work_transition (s : State) (e : KernelEvent) : result State :=
  let? (k, w) := named_work s e "work transition belongs to an unknown work item" in
  require (String.eqb (w_mission_id w) (mission_id e)) ValueError "work transition mission does not match work item" ;?
  let? status := item "status" (payload e) in
  let? new := work_state_of status in
  require (bool_decide (new ∈ _WORK_NEXT (w_status w)))
    ValueError (illegal "work" (work_value (w_status w)) (work_value new)) ;?
  require (negb (bool_decide (new = W_ACCEPTED))
           || match passed_evaluation_digest w with
              | Some d => py_eq (get "evaluation_result_digest" (payload e)) (JStr d)
              | None => false
              end) ValueError "accepted work requires its recorded passed evaluation" ;?
  Ok (put_work s k (set_status w new)).

Definition reduce_plan_sealed (s : State) (e : KernelEvent) : result State :=
  let? (k, w) := named_work s e "evaluation plan belongs to an unknown work item" in
  require (String.eqb (w_mission_id w) (mission_id e) && bool_decide (w_status w = W_RUNNING))
    ValueError "evaluation plan belongs to work that is not running" ;?
  require (bool_decide (event_actor_role e = Some "architect") && bool_decide (evaluation_plan_digest w = None))
    ValueError "evaluation plan authority or multiplicity is invalid" ;?
  match get "plan" (payload e), get "base" (payload e) with
  | JObj document, JObj base =>
      let? plan := wrap [TypeError; ValueError] ValueError "evaluation plan contract is invalid"
                     (evaluation_plan_from_document document) in
      require (py_eq (get "state" plan) (JStr "SEALED")
               && py_eq (get "plan_digest" plan) (JStr (canonical_digest (JObj (pop_key "plan_digest" plan)))))
        ValueError "evaluation plan digest binding is invalid" ;?
      match get "files" base with
      | JObj files =>
          require (py_eq (get "root_digest" base) (get "base_tree_digest" plan))
            ValueError "evaluation plan base manifest is invalid" ;?
          require (py_eq (get "base_tree_digest" plan) (JStr (canonical_digest (JObj [("files", JObj files)]))))
            ValueError "evaluation plan base manifest digest is invalid" ;?
          Ok (put_work s k (set_plan w (str_field "plan_digest" plan)))
      | _ => raise ValueError "evaluation plan base manifest is invalid"
      end
  | _, _ => raise ValueError "evaluation plan payload is malformed"
  end.

(** [values[name] = tuple(values.get(name, ()))] *)
Definition tuple_field (values : contract) (name : string) : result contract :=
  let? l := tuple_of (default (JList []) (lookup_key name values)) in
  Ok (set_key name (JList l) values).

Definition reduce_evaluation_result (s : State) (e : KernelEvent) : result State :=
  let? (k, w) := named_work s e "evaluation result belongs to an unknown work item" in
  require (String.eqb (w_mission_id w) (mission_id e) && bool_decide (w_status w = W_AWAITING_VERIFICATION)
           && bool_decide (event_actor_role e = Some "curator"))
    ValueError "evaluation result is not a curator verdict for awaiting work" ;?
  match get "result" (payload e) with
  | JObj document =>
      let? values := rfold tuple_field document ["check_results"; "evidence_refs"] in
      let? evaluation := wrap [KeyError; TypeError; ValueError] ValueError "evaluation result contract is invalid"
        (let? v := item "state" values in
         let? state := evaluation_state_of v in
         evaluation_result_of (set_key "state" (JStr (evaluation_value state)) values)) in
      require (py_eq (get "result_digest" evaluation) (JStr (canonical_digest (JObj (pop_key "result_digest" evaluation))))
               && py_eq (get "plan_digest" evaluation) (opt_str (evaluation_plan_digest w))
               && py_eq (get "evaluator_id" evaluation) (JStr (actor_id e)))
        ValueError "evaluation result binding is invalid" ;?
      Ok (put_work s k (if py_eq (get "state" evaluation) (JStr "PASSED")
                        then set_passed w (str_field "result_digest" evaluation) else w))
  | _ => raise ValueError "evaluation result payload is malformed"
  end.

Definition reduce_bundle_recorded (s : State) (e : KernelEvent) : result State :=
  let? (k, w) := named_work s e "evaluation bundle belongs to an unknown work item" in
  match get "bundle_ref" (payload e) with
  | JStr bundle_ref =>
      require (String.eqb (w_mission_id w) (mission_id e) && bool_decide (w_status w = W_AWAITING_VERIFICATION)
               && bool_decide (event_actor_role e = Some "curator")
               && py_eq (opt_str (passed_evaluation_digest w)) (get "result_digest" (payload e))
               && bool_decide (evaluation_bundle_digest w = None))
        ValueError "evaluation bundle binding is invalid" ;?
      match get "bundle_digest" (payload e) with
      | JStr digest =>
          wrap [ValueError] ValueError "evaluation bundle payload is invalid"
            (historical_evidence_of
               [("receipt_ref", JStr ("bundle:" +:+ bundle_ref)%stdpp); ("receipt_digest", JStr digest);
                ("provenance_label", JStr "phase-8-local"); ("retention_note", JStr "retain")]) ;?
          Ok (put_work s k (set_bundle w digest))
      | _ => raise ValueError "evaluation bundle digest is invalid"
      end
  | _ => raise ValueError "evaluation bundle binding is invalid"
  end.

(** [len(set(l)) == len(l)]: an unhashable element raises. *)
Fixpoint py_distinct (l : list json) : bool :=
  match l with [] => true | x :: xs => negb (existsb (py_eq x) xs) && py_distinct xs end.
Definition unique_elements (l : list json) : result bool :=
  require (forallb hashable l) TypeError "unhashable type" ;? Ok (py_distinct l).

Definition reduce_obligations_declared (s : State) (e : KernelEvent) : result State :=
  require (bool_decide (is_Some (lookup_key (mission_id e) (missions s)))
           && bool_decide (event_actor_role e = Some "orchestrator"))
    ValueError "closeout obligation authority is invalid" ;?
  match get "required_roles" (payload e) with
  | JList ((r0 :: rs) as roles) =>
      let? unique := unique_elements roles in
      match unique, get "historical_evidence" (payload e) with
      | true, JList historical =>
          wrap [TypeError; ValueError] ValueError "closeout historical evidence is invalid"
            (each _role roles ;?
             let? references := map_result historical_evidence_from_document historical in
             require (distinct (map (str_field "receipt_ref") references))
               ValueError "duplicate historical evidence reference") ;?
          Ok s
      | _, _ => raise ValueError "closeout obligation payload is invalid"
      end
  | _ => raise ValueError "closeout obligation payload is invalid"
  end.

(** [if name in values: values[name] = tuple(values[name])] *)
Definition tuple_field_if_present (values : contract) (name : string) : result contract :=
  match lookup_key name values with
  | Some v => let? l := tuple_of v in Ok (set_key name (JList l) values)
  | None => Ok values
  end.

Definition reduce_role_result (s : State) (e : KernelEvent) : result State :=
  let? (k, w) := named_work s e "role result belongs to an unknown work item" in
  require (String.eqb (w_mission_id w) (mission_id e) && bool_decide (w_status w = W_RUNNING))
    ValueError "role result belongs to work that is not running" ;?
  match get "result" (payload e) with
  | JObj document =>
      let? values := rfold tuple_field_if_present document
        ["base_artifact_refs"; "candidate_artifact_refs"; "output_artifact_refs"; "claims";
         "effect_receipt_refs"; "unresolved_risks"] in
      let? r := wrap [TypeError; ValueError] ValueError "role result contract is invalid" (role_result_of values) in
      require (py_eq (get "result_digest" r) (JStr (canonical_digest (JObj (pop_key "result_digest" r))))
               && py_eq (get "mission_id" r) (JStr (mission_id e))
               && py_eq (get "work_id" r) (JStr k)
               && py_eq (get "attempt_id" r) (opt_str (attempt_id e))
               && py_eq (get "executor_id" r) (JStr (actor_id e))
               && py_eq (get "role" r) (opt_str (event_actor_role e)))
        ValueError "role result event binding is invalid" ;?
      Ok s
  | _ => raise ValueError "role result payload is malformed"
  end.

(** The reducers by event type, in the order of the chain of tests. *)
Definition reducers : list (string * (State -> KernelEvent -> result State)) :=
  [("mission.created", reduce_mission_created);
   ("mission.transition", reduce_mission_transition);
   ("work.created", reduce_work_created);
   ("work.transition", reduce_work_transition);
   ("evaluation.plan.sealed", reduce_plan_sealed);
   ("evaluation.result", reduce_evaluation_result);
   ("evaluation.bundle.recorded", reduce_bundle_recorded);
   ("closeout.obligations.declared", reduce_obligations_declared);
   ("role.result", reduce_role_result)].

Definition reduce_event (s : State) (e : KernelEvent) : result State :=
  match lookup_key (event_type e) reducers with
  | Some reduce => reduce s e
  | None => raise ValueError ("unknown kernel event type: " +:+ event_type e)%stdpp
  end.

(** ** What one event may change *)

(** [e] seals the evaluation plan [d] for work item [k]. *)
Definition seals_plan (e : KernelEvent) (k d : string) : Prop :=
  event_type e = "evaluation.plan.sealed" /\ event_actor_role e = Some "architect" /\ work_id e = Some k
  /\ exists doc, get "plan" (payload e) = JObj doc /\ get "plan_digest" doc = JStr d /\ get "state" doc = JStr "SEALED".

(** [e] is the curator's verdict [d] that work item [k] passed the plan [p]. *)
Definition passes (e : KernelEvent) (k p d : string) : Prop :=
  event_type e = "evaluation.result" /\ event_actor_role e = Some "curator" /\ work_id e = Some k
  /\ exists doc, get "result" (payload e) = JObj doc /\ get "state" doc = JStr "PASSED"
       /\ get "plan_digest" doc = JStr p /\ get "result_digest" doc = JStr d
       /\ get "evaluator_id" doc = JStr (actor_id e).

(** The changes the reducer is allowed to make. *)
Inductive reduction (s : State) (e : KernelEvent) : State -> Prop :=
| R_mission_created :
    lookup_key (mission_id e) (missions s) = None ->
    reduction s e (put_mission s (mission_id e) M_CREATED)
| R_mission_moved old new :
    lookup_key (mission_id e) (missions s) = Some old -> new ∈ _MISSION_NEXT old ->
    reduction s e (put_mission s (mission_id e) new)
| R_work_created k :
    k <> "" -> lookup_key k (work s) = None -> is_Some (lookup_key (mission_id e) (missions s)) ->
    reduction s e (put_work s k {| w_mission_id := mission_id e; w_status := W_PROPOSED; evaluation_plan_digest := None;
                                   passed_evaluation_digest := None; evaluation_bundle_digest := None |})
| R_work_moved k w new :
    lookup_key k (work s) = Some w -> w_mission_id w = mission_id e -> new ∈ _WORK_NEXT (w_status w) ->
    (new = W_ACCEPTED -> exists d, passed_evaluation_digest w = Some d
                                   /\ get "evaluation_result_digest" (payload e) = JStr d) ->
    reduction s e (put_work s k (set_status w new))
| R_plan_sealed k w d :
    lookup_key k (work s) = Some w -> w_mission_id w = mission_id e -> w_status w = W_RUNNING ->
    evaluation_plan_digest w = None -> seals_plan e k d ->
    reduction s e (put_work s k (set_plan w d))
| R_passed k w p d :
    lookup_key k (work s) = Some w -> w_mission_id w = mission_id e -> w_status w = W_AWAITING_VERIFICATION ->
    evaluation_plan_digest w = Some p -> passes e k p d ->
    reduction s e (put_work s k (set_passed w d))
| R_not_passed k w :
    lookup_key k (work s) = Some w -> w_status w = W_AWAITING_VERIFICATION ->
    reduction s e (put_work s k w)
| R_bundle k w d :
    lookup_key k (work s) = Some w -> w_mission_id w = mission_id e -> w_status w = W_AWAITING_VERIFICATION ->
    evaluation_bundle_digest w = None ->
    reduction s e (put_work s k (set_bundle w d))
| R_recorded : reduction s e s.

Lemma named_work_ok s e m k w :
  named_work s e m = Ok (k, w) -> work_id e = Some k /\ lookup_key k (work s) = Some w.
Proof.
  unfold named_work. destruct (work_id e) as [k'|]; [|discriminate].
  destruct (lookup_key k' (work s)) as [w'|] eqn:E; [|discriminate].
  intros H. take_guard H Hk. injection H as <- <-. done.
Qed.

Lemma get_construct fields values r k :
  construct fields values = Ok r -> k ∈ fields -> get k r = get k values.
Proof.
  unfold construct. intros H Hk. take_guard H E. injection H as <-. clear E.
  unfold get at 1. induction fields as [|f fs IH]; [by apply elem_of_nil in Hk|].
  cbn [map]. rewrite lookup_key_cons. destruct (String.eqb_spec f k) as [->|]; [done|].
  apply IH. by apply elem_of_cons in Hk as [->|].
Qed.

Lemma enum_of_ok {E} name (members : list E) value_of v e :
  enum_of name members value_of v = Ok e -> v = JStr (value_of e).
Proof.
  unfold enum_of. destruct (List.find _ _) as [x|] eqn:F; [|discriminate]. intros [= ->].
  apply List.find_some in F as [_ F]. by apply py_eq_str in F.
Qed.

Lemma plan_from_document_field document plan k :
  evaluation_plan_from_document document = Ok plan -> k ∈ ["plan_digest"; "state"] -> get k plan = get k document.
Proof.
  unfold evaluation_plan_from_document. intros H Hk. take_ok H u0 E0. take_ok H b Eb. take_ok H st Est. take_ok H p Ep.
  pose proof (enum_of_ok _ _ _ _ _ Est) as Hst. rewrite get_set_key in Hst. cbn in Hst.
  unfold check_evaluation_plan in H.
  take_ok H u1 E1. take_ok H u2 E2. take_ok H u3 E3. take_ok H u4 E4. take_ok H paths E5. take_ok H normal E6.
  take_ok H tests E7. take_ok H u5 E8. take_ok H u6 E9. injection H as <-.
  assert (get k p = get k document) as Hp.
  { rewrite (get_construct _ _ _ _ Ep) by (unfold evaluation_plan_fields; set_solver).
    rewrite !get_set_key. apply elem_of_cons in Hk as [->|Hk]; [done|]. apply elem_of_cons in Hk as [->|Hk];
      [by rewrite Hst|by apply elem_of_nil in Hk]. }
  rewrite get_set_key, Hp. rewrite !elem_of_cons, elem_of_nil in Hk.
  destruct Hk as [->|[->|[]]]; done.
Qed.

Lemma reduce_plan_sealed_sound s e s' :
  event_type e = "evaluation.plan.sealed" -> reduce_plan_sealed s e = Ok s' -> reduction s e s'.
Proof.
  intros Ht H. unfold reduce_plan_sealed in H. take_ok H kw E. destruct kw as [k w]. apply named_work_ok in E as [Hk Hw].
  take_guard H E1. take_guard H E2. bool_hyps.
  destruct (get "plan" (payload e)) as [| | | | |document] eqn:Ed; try discriminate H.
  destruct (get "base" (payload e)) as [| | | | |base] eqn:Eb; try discriminate H.
  take_ok H plan Ep. apply wrap_ok in Ep. take_guard H E3. apply andb_true_iff in E3 as [Hst Hd].
  apply py_eq_str in Hst, Hd.
  destruct (get "files" base); try discriminate H. take_guard H E4. take_guard H E5. injection H as <-.
  unfold str_field. rewrite Hd. cbn [as_str default from_option]. apply R_plan_sealed; try done.
  rewrite (plan_from_document_field _ _ _ Ep) in Hst by set_solver.
  rewrite (plan_from_document_field _ _ _ Ep) in Hd by set_solver.
  split; [done|]. split; [done|]. split; [done|]. by exists document.
Qed.

Lemma tuple_field_get values name values' k :
  tuple_field values name = Ok values' -> k <> name -> get k values' = get k values.
Proof.
  unfold tuple_field. intros H Hk. take_ok H l El. injection H as <-. rewrite get_set_key.
  destruct (String.eqb_spec name k); [congruence|done].
Qed.

Lemma reduce_evaluation_result_sound s e s' :
  event_type e = "evaluation.result" -> reduce_evaluation_result s e = Ok s' -> reduction s e s'.
Proof.
  intros Ht H. unfold reduce_evaluation_result in H. take_ok H kw E. destruct kw as [k w]. apply named_work_ok in E as [Hk Hw].
  take_guard H E1. bool_hyps.
  destruct (get "result" (payload e)) as [| | | | |document] eqn:Ed; try discriminate H.
  take_ok H values Ev. take_ok H evaluation Ee. apply wrap_ok in Ee. take_guard H E2.
  apply andb_true_iff in E2 as [E2 Hid]. apply andb_true_iff in E2 as [Hd Hp]. apply py_eq_str in Hd, Hid.
  injection H as <-. destruct (py_eq (get "state" evaluation) (JStr "PASSED")) eqn:Hs; [|by apply R_not_passed].
  apply py_eq_str in Hs. destruct (evaluation_plan_digest w) as [p|] eqn:Hplan; cbn [opt_str] in Hp.
  2: { take_ok Ee v Ev1. take_ok Ee st Est. unfold evaluation_result_of in Ee. take_ok Ee r Er. take_ok Ee u Eu. take_ok Ee u' Eu'.
       injection Ee as ->. take_ok Eu u1 E3. unfold _digest in E3. apply require_ok in E3.
       destruct (get "plan_digest" evaluation); discriminate. }
  apply py_eq_str in Hp.
  assert (Hget : forall f, f ∈ ["plan_digest"; "result_digest"; "evaluator_id"; "state"] -> get f evaluation = get f document).
  { intros f Hf. take_ok Ee v Ev1. take_ok Ee st Est. apply enum_of_ok in Est. unfold evaluation_result_of in Ee.
    take_ok Ee r Er. take_ok Ee u Eu. take_ok Ee u' Eu'. injection Ee as ->.
    rewrite (get_construct _ _ _ _ Er) by (unfold evaluation_result_fields; set_solver).
    cbn [rfold] in Ev. take_ok Ev v1 T1. take_ok Ev v2 T2. injection Ev as ->.
    assert (get f values = get f document) as Hfv.
    { rewrite (tuple_field_get _ _ _ f T2), (tuple_field_get _ _ _ f T1); [done|set_solver|set_solver]. }
    rewrite get_set_key. destruct (String.eqb_spec "state" f) as [<-|]; [|done].
    rewrite <- Hfv. unfold item in Ev1. unfold get. destruct (lookup_key "state" values); [|discriminate Ev1].
    injection Ev1 as ->. by rewrite Est. }
  unfold str_field. rewrite Hd. cbn [as_str default from_option].
  rewrite Hget in Hd, Hp, Hid, Hs by set_solver.
  eapply R_passed; try done. split; [done|]. split; [done|]. split; [done|]. by exists document.
Qed.

Lemma reduce_event_sound s e s' : reduce_event s e = Ok s' -> reduction s e s'.
Proof.
  unfold reduce_event. destruct (lookup_key (event_type e) reducers) as [reduce|] eqn:E; [|discriminate].
  apply lookup_key_in in E. unfold reducers in E. rewrite !elem_of_cons, elem_of_nil in E.
  destruct E as [E|[E|[E|[E|[E|[E|[E|[E|[E|[]]]]]]]]]]; injection E as Et ->; intros H.
  - unfold reduce_mission_created in H. take_guard H E. injection H as <-. bool_hyps. apply R_mission_created. by apply eq_None_not_Some.
  - unfold reduce_mission_transition in H. destruct (lookup_key _ _) eqn:E; [|discriminate H].
    take_ok H st E1. take_ok H new E2. take_guard H E3. injection H as <-. bool_hyps. by eapply R_mission_moved.
  - unfold reduce_work_created in H. destruct (work_id e); [|discriminate H]. take_guard H E. take_guard H E'. injection H as <-.
    bool_hyps. apply R_work_created; [done|by apply eq_None_not_Some|done].
  - unfold reduce_work_transition in H. take_ok H kw E. destruct kw as [k w]. apply named_work_ok in E as [Hk Hw].
    take_guard H E1. take_ok H st E2. take_ok H new E3. take_guard H E4. take_guard H E5. injection H as <-. bool_hyps.
    apply R_work_moved; try done. intros ->. cbn in E5. destruct (passed_evaluation_digest w) as [d|]; [|done].
    exists d. by apply py_eq_str in E5.
  - by apply reduce_plan_sealed_sound.
  - by apply reduce_evaluation_result_sound.
  - unfold reduce_bundle_recorded in H. take_ok H kw E. destruct kw as [k w]. apply named_work_ok in E as [Hk Hw].
    destruct (get "bundle_ref" _); try discriminate H. take_guard H E1.
    destruct (get "bundle_digest" _); try discriminate H. take_ok H u E2. injection H as <-. bool_hyps. by apply R_bundle.
  - unfold reduce_obligations_declared in H. take_guard H E. destruct (get "required_roles" _) as [| | | |[|r0 rs]|]; try discriminate H.
    take_ok H b Eb. destruct b; [|discriminate H]. destruct (get "historical_evidence" _); try discriminate H.
    take_ok H u Eu. injection H as <-. apply R_recorded.
  - unfold reduce_role_result in H. take_ok H kw E. destruct kw as [k w]. take_guard H E1.
    destruct (get "result" _); try discriminate H. take_ok H v Ev. take_ok H r Er. take_guard H E2. injection H as <-. apply R_recorded.
Qed.

(** ** The lifecycle of missions and work items *)

(** How the entry of a mission may change in one event. *)
Definition mission_moves (before after : option MissionState) : Prop :=
  match before, after with
  | None, None => True
  | None, Some m => m = M_CREATED
  | Some m, Some m' => m' = m \/ m' ∈ _MISSION_NEXT m
  | Some _, None => False
  end.

(** How the entry of a work item may change in one event: either its status
    takes a step of the work machine or its evaluation record grows, never
    both, and a sealed plan and a recorded bundle are final. *)
Definition work_moves (before after : option work_entry) : Prop :=
  match before, after with
  | None, None => True
  | None, Some w => w_status w = W_PROPOSED /\ evaluation_plan_digest w = None
                    /\ passed_evaluation_digest w = None /\ evaluation_bundle_digest w = None
  | Some w, Some w' =>
      w_mission_id w' = w_mission_id w
      /\ (w_status w' = w_status w \/ (w_status w' ∈ _WORK_NEXT (w_status w) /\ w' = set_status w (w_status w')))
      /\ (forall d, evaluation_plan_digest w = Some d -> evaluation_plan_digest w' = Some d)
      /\ (forall d, evaluation_bundle_digest w = Some d -> evaluation_bundle_digest w' = Some d)
  | Some _, None => False
  end.

Lemma mission_moves_refl o : mission_moves o o.
Proof. destruct o; simpl; auto. Qed.
Lemma work_moves_refl o : work_moves o o.
Proof. destruct o; simpl; auto 10. Qed.

Lemma lookup_put_mission s m st k :
  lookup_key k (missions (put_mission s m st)) = if String.eqb m k then Some st else lookup_key k (missions s).
Proof. apply lookup_key_set. Qed.
Lemma lookup_put_work s k0 w k :
  lookup_key k (work (put_work s k0 w)) = if String.eqb k0 k then Some w else lookup_key k (work s).
Proof. apply lookup_key_set. Qed.

Lemma reduction_moves s e s' :
  reduction s e s' ->
  forall k, mission_moves (lookup_key k (missions s)) (lookup_key k (missions s'))
            /\ work_moves (lookup_key k (work s)) (lookup_key k (work s')).
Proof.
  intros H k.
  destruct H; rewrite ?lookup_put_mission, ?lookup_put_work; simpl;
    (split; [try apply mission_moves_refl|try apply work_moves_refl]);
    match goal with |- context [String.eqb ?a k] => destruct (String.eqb_spec a k) as [<-|] end;
    try apply mission_moves_refl; try apply work_moves_refl;
    match goal with H : lookup_key _ _ = _ |- _ => rewrite H end; simpl; eauto 10; naive_solver.
Qed.

(** Both dictionaries keep distinct keys. *)
Definition state_keys (s : State) : Prop := NoDup (missions s).*1 /\ NoDup (work s).*1.
Lemma reduction_keys s e s' : reduction s e s' -> state_keys s -> state_keys s'.
Proof. intros Hr [Hm Hw]. destruct Hr; split; simpl; try done; by apply dict_set_keys. Qed.

(** C37: the reducer refines the mission and work state machines: one event moves
    every mission along [_MISSION_NEXT] and every work item along [_WORK_NEXT]
    or not at all, creates them only in their initial state, never forgets
    one, and never changes a sealed plan, a recorded bundle or the mission a
    work item belongs to. *)
Theorem reducer_refines_lifecycle s e s' :
  reduce_event s e = Ok s' ->
  forall k, mission_moves (lookup_key k (missions s)) (lookup_key k (missions s'))
            /\ work_moves (lookup_key k (work s)) (lookup_key k (work s')).
Proof.
  intros H. by apply (reduction_moves s e), reduce_event_sound.
Qed.

(** ** Acceptance *)

(** The state after a history of events. *)
Definition replay (evs : list KernelEvent) : result State := rfold reduce_event empty_state evs.

(** Every evaluation record of a work item is backed by events of the history. *)
Definition backed (evs : list KernelEvent) (k : string) (w : work_entry) : Prop :=
  (forall p, evaluation_plan_digest w = Some p -> exists e, e ∈ evs /\ seals_plan e k p)
  /\ (forall d, passed_evaluation_digest w = Some d ->
       exists p e, evaluation_plan_digest w = Some p /\ e ∈ evs /\ passes e k p d)
  /\ (w_status w = W_ACCEPTED \/ w_status w = W_INTEGRATED -> is_Some (passed_evaluation_digest w)).

Lemma backed_more evs evs' k w : evs ⊆ evs' -> backed evs k w -> backed evs' k w.
Proof.
  intros Hs (Hp & Hd & Ha). split; [|split; [|done]].
  - intros p Hw. destruct (Hp p Hw) as (e & He & Hse). eauto.
  - intros d Hw. destruct (Hd d Hw) as (p & e & H1 & H2 & H3). eauto 10.
Qed.

Lemma integrated_from_accepted s : W_INTEGRATED ∈ _WORK_NEXT s -> s = W_ACCEPTED.
Proof. destruct s; unfold _WORK_NEXT; rewrite ?elem_of_cons, ?elem_of_nil; intros H; destruct_or? H; done. Qed.

Lemma reduction_backed s e s' evs :
  reduction s e s' -> (forall k w, lookup_key k (work s) = Some w -> backed evs k w) ->
  forall k w, lookup_key k (work s') = Some w -> backed (evs ++ [e]) k w.
Proof.
  intros Hr IH k w. assert (Hsub : evs ⊆ evs ++ [e]) by set_solver.
  assert (Hin : e ∈ evs ++ [e]) by set_solver.
  destruct Hr as [| |k0 Hk0 Hnew Hm|k0 w0 new Hw0 Hm0 Hnext Hacc|k0 w0 d Hw0 Hm0 Hst Hpl Hseal
                 |k0 w0 p d Hw0 Hm0 Hst Hpl Hpass|k0 w0 Hw0 Hst|k0 w0 d Hw0 Hm0 Hst Hb|];
    rewrite ?lookup_put_mission, ?lookup_put_work; simpl;
    try (intros Hw; eapply backed_more; [exact Hsub|by apply IH]);
    destruct (String.eqb_spec k0 k) as [<-|]; try (intros Hw; eapply backed_more; [exact Hsub|by apply IH]);
    intros [= <-].
  - split; [|split]; simpl; [done|done|]. intros [?|?]; done.
  - destruct (backed_more _ _ _ _ Hsub (IH _ _ Hw0)) as (Hp & Hd & Ha). split; [exact Hp|split; [exact Hd|]].
    simpl. intros [-> | ->]; [destruct Hacc as (d & -> & _); done|]. apply Ha. left. by apply integrated_from_accepted.
  - destruct (backed_more _ _ _ _ Hsub (IH _ _ Hw0)) as (Hp & Hd & Ha). split; [|split; [|exact Ha]]; simpl.
    + intros p [= <-]. eauto.
    + intros d' Hd'. destruct (Hd d' Hd') as (p & ? & Hpl' & _). by rewrite Hpl in Hpl'.
  - destruct (backed_more _ _ _ _ Hsub (IH _ _ Hw0)) as (Hp & Hd & Ha). split; [exact Hp|split]; simpl.
    + intros d' [= <-]. eauto 10.
    + done.
  - by eapply backed_more; [exact Hsub|apply IH].
  - by destruct (backed_more _ _ _ _ Hsub (IH _ _ Hw0)).
Qed.

Lemma replay_backed evs s :
  replay evs = Ok s -> forall k w, lookup_key k (work s) = Some w -> backed evs k w.
Proof.
  unfold replay. revert s. induction evs as [|e evs IH] using rev_ind; intros s H.
  - injection H as <-. done.
  - rewrite rfold_app in H. take_ok H s1 E. cbn [rfold] in H. take_ok H s2 E2. injection H as <-.
    eapply reduction_backed; [by apply reduce_event_sound|by apply IH].
Qed.

(** C4: no work item is accepted or integrated on its builder's word: whatever
    the history, an accepted work item has a curator's verdict in that history
    that it passed, issued by the evaluator the verdict names, against an
    evaluation plan an architect sealed for the same work item. *)
Theorem accepted_work_was_evaluated evs s k w :
  replay evs = Ok s -> lookup_key k (work s) = Some w ->
  w_status w = W_ACCEPTED \/ w_status w = W_INTEGRATED ->
  exists p d plan_event verdict,
    plan_event ∈ evs /\ verdict ∈ evs /\ seals_plan plan_event k p /\ passes verdict k p d
    /\ evaluation_plan_digest w = Some p /\ passed_evaluation_digest w = Some d.
Proof.
  intros H Hw Hst. destruct (replay_backed _ _ H _ _ Hw) as (Hp & Hd & Ha).
  destruct (Ha Hst) as [d Hpd]. destruct (Hd d Hpd) as (p & v & Hpl & Hv & Hpass).
  destruct (Hp p Hpl) as (pe & Hpe & Hseal). by exists p, d, pe, v.
Qed.

(** ** A sample history *)

Module Sample.

Definition zeros : string := String.concat "" (replicate 64 "0").
Definition event (n : nat) (kind actor role : string) (p : contract) : KernelEvent :=
  {| event_id := ("EVENT-" +:+ str_of_Z (Z.of_nat n))%stdpp; mission_id := "MISSION-1"; event_type := kind;
     actor_id := actor; occurred_at := "2026-01-01T00:00:00Z"; payload := p; work_id := Some "WORK-1";
     attempt_id := None; event_actor_role := Some role; event_version := 1; previous_digest := None |}.
Definition move (n : nat) (status : string) : KernelEvent :=
  event n "work.transition" "orchestrator-1" "orchestrator" [("status", JStr status)].

Definition files : json := JObj [("README.md", JStr "sha256:readme")].
Definition tree_digest : string := Eval vm_compute in canonical_digest (JObj [("files", files)]).
Definition plan_body : contract :=
  [("plan_id", JStr "PLAN-1"); ("base_commit", JStr (String.concat "" (replicate 40 "a")));
   ("base_tree_digest", JStr tree_digest); ("acceptance_commands", strs ["pytest"]);
   ("environment_requirements", strs []); ("allowed_test_paths", strs ["tests/test_core.py"]);
   ("test_digests", strs []); ("security_checks", strs []); ("contamination_checks", strs []);
   ("evaluator_requirements", strs []); ("evidence_bundle_format", JStr "json");
   ("pass_fail_abstain_rules", strs []);
   ("regression_budget", JObj (map (fun k => (k, JInt 0)) budget_fields)); ("state", JStr "SEALED")].
Definition plan_digest : string := Eval vm_compute in canonical_digest (JObj plan_body).
Definition result_body : contract :=
  [("plan_digest", JStr plan_digest); ("candidate_digest", JStr ("sha256:" +:+ zeros)%stdpp);
   ("evaluator_id", JStr "curator-1"); ("state", JStr "PASSED"); ("check_results", strs ["pytest: pass"]);
   ("evidence_refs", strs [])].
Definition result_digest : string := Eval vm_compute in canonical_digest (JObj result_body).

Definition started : list KernelEvent :=
  [event 1 "mission.created" "owner" "orchestrator" []; event 2 "work.created" "orchestrator-1" "orchestrator" [];
   move 3 "READY"; move 4 "LEASED"; move 5 "RUNNING"].
Definition planned : list KernelEvent :=
  started ++
  [event 6 "evaluation.plan.sealed" "architect-1" "architect"
     [("plan", JObj (plan_body ++ [("plan_digest", JStr plan_digest)]));
      ("base", JObj [("files", files); ("root_digest", JStr tree_digest)])]].
Definition history : list KernelEvent :=
  planned ++
  [move 7 "AWAITING_VERIFICATION";
   event 8 "evaluation.result" "curator-1" "curator"
     [("result", JObj (result_body ++ [("result_digest", JStr result_digest)]))];
   event 9 "work.transition" "orchestrator-1" "orchestrator"
     [("status", JStr "ACCEPTED"); ("evaluation_result_digest", JStr result_digest)]].
Definition final : State := Eval vm_compute in match replay history with Ok s => s | Raise _ => empty_state end.
Definition final_work : work_entry :=
  {| w_mission_id := "MISSION-1"; w_status := W_ACCEPTED; evaluation_plan_digest := Some plan_digest;
     passed_evaluation_digest := Some result_digest; evaluation_bundle_digest := None |}.

End Sample.

Lemma accepted_work_was_evaluated_witness :
  exists p d plan_event verdict,
    plan_event ∈ Sample.history /\ verdict ∈ Sample.history
    /\ seals_plan plan_event "WORK-1" p /\ passes verdict "WORK-1" p d.
Proof.
  destruct (accepted_work_was_evaluated Sample.history Sample.final "WORK-1" Sample.final_work)
    as (p & d & pe & v & H1 & H2 & H3 & H4 & _);
    [vm_compute; reflexivity|vm_compute; reflexivity|left; reflexivity|].
  exists p, d, pe, v. done.
Defined.

Lemma reducer_refines_lifecycle_witness :
  exists s', reduce_event empty_state (Sample.event 1 "mission.created" "owner" "orchestrator" []) = Ok s'
    /\ mission_moves None (lookup_key "MISSION-1" (missions s')).
Proof.
  exists (put_mission empty_state "MISSION-1" M_CREATED). split; [reflexivity|].
  apply (reducer_refines_lifecycle empty_state (Sample.event 1 "mission.created" "owner" "orchestrator" [])
           (put_mission empty_state "MISSION-1" M_CREATED) eq_refl "MISSION-1").
Defined.

(** ** Bundles without a verdict *)

Lemma bundle_reference_ok ref d :
  is_digest d = true ->
  let r := [("receipt_ref", JStr ("bundle:" +:+ ref)%stdpp); ("receipt_digest", JStr d);
            ("provenance_label", JStr "phase-8-local"); ("retention_note", JStr "retain")] in
  historical_evidence_of r = Ok r.
Proof.
  intros Hd r. unfold historical_evidence_of.
  assert (construct historical_evidence_fields r = Ok r) as -> by reflexivity.
  cbn [rbind]. unfold r, get. rewrite !lookup_key_cons. cbn [String.eqb Ascii.eqb Bool.eqb].
  cbn [default from_option id]. unfold _require, _digest. rewrite Hd.
  assert (is_blank ("bundle:" +:+ ref)%stdpp = false) as -> by reflexivity. reflexivity.
Qed.

(** The binding of an evidence bundle to the passed evaluation compares two
    lookups, and both are [None] when nothing was evaluated: for a work item
    that awaits verification and has no passed evaluation, a curator's bundle
    event without a [result_digest] is recorded, and being final it keeps the
    bundle of the later verdict out. *)
Theorem bundle_without_evaluation s e k w ref d :
  event_type e = "evaluation.bundle.recorded" -> event_actor_role e = Some "curator" ->
  work_id e = Some k -> k <> "" -> lookup_key k (work s) = Some w -> w_mission_id w = mission_id e ->
  w_status w = W_AWAITING_VERIFICATION -> passed_evaluation_digest w = None -> evaluation_bundle_digest w = None ->
  payload e = [("bundle_ref", JStr ref); ("bundle_digest", JStr d)] -> is_digest d = true ->
  reduce_event s e = Ok (put_work s k (set_bundle w d))
  /\ forall e', event_type e' = "evaluation.bundle.recorded" -> work_id e' = Some k ->
       is_ok (reduce_event (put_work s k (set_bundle w d)) e') = false.
Proof.
  intros Ht Hr Hk Hk0 Hw Hm Hst Hpd Hb Hp Hd. split.
  - unfold reduce_event. rewrite Ht. cbn [reducers lookup_key]. unfold reducers. rewrite !lookup_key_cons. cbn [String.eqb Ascii.eqb Bool.eqb].
    unfold reduce_bundle_recorded, named_work. rewrite Hk, Hw. apply String.eqb_neq in Hk0. rewrite Hk0. cbn [negb require rbind].
    rewrite Hp. unfold get. rewrite !lookup_key_cons. cbn [String.eqb Ascii.eqb Bool.eqb default from_option].
    rewrite Hm, Hst, Hr, Hpd, Hb, String.eqb_refl. cbn [opt_str]. rewrite !bool_decide_eq_true_2 by done.
    cbn [lookup_key List.find option_map default from_option id py_eq andb require rbind].
    by rewrite bundle_reference_ok by done.
  - intros e' Ht' Hk'. unfold reduce_event. rewrite Ht'. unfold reducers. rewrite !lookup_key_cons. cbn [String.eqb Ascii.eqb Bool.eqb].
    unfold reduce_bundle_recorded, named_work. rewrite Hk', lookup_put_work, String.eqb_refl.
    apply String.eqb_neq in Hk0. rewrite Hk0. cbn [negb require rbind].
    destruct (get "bundle_ref" (payload e')); try reflexivity. cbn [set_bundle evaluation_bundle_digest].
    rewrite (bool_decide_eq_false_2 (Some d = None)) by done. rewrite andb_false_r. reflexivity.
Qed.

Lemma bundle_without_evaluation_witness :
  let w := {| w_mission_id := "MISSION-1"; w_status := W_AWAITING_VERIFICATION; evaluation_plan_digest := None;
              passed_evaluation_digest := None; evaluation_bundle_digest := None |} in
  let s := {| missions := [("MISSION-1", M_RUNNING)]; work := [("WORK-1", w)] |} in
  let d := ("sha256:" +:+ Sample.zeros)%stdpp in
  reduce_event s (Sample.event 7 "evaluation.bundle.recorded" "curator-1" "curator"
                    [("bundle_ref", JStr "bundles/1"); ("bundle_digest", JStr d)])
  = Ok (put_work s "WORK-1" (set_bundle w d)).
Proof.
  intros w s d.
  apply (bundle_without_evaluation s _ "WORK-1" w "bundles/1" d); try reflexivity; done.
Defined.

End Projection.
