(* ===== verification/KernelStore.v ===== *)
(** * The kernel event store

    [brain_kernel/store.py], the event spine: the events, the projection
    tables, the snapshots and the idempotency keys.  Every public method is one
    transaction of the state monad over [store]; the effect tables of the same
    database are modelled with the outbox, since no method touches both. *)

From S2P Require Import Prelude Sha256 Canonical PyLib Schema Contracts Projection.

Module KernelStore.
Export Projection.

(** ** Tables *)

Record event_row := {
  sequence : Z;
  row_event_id : string;
  row_mission_id : string;
  row_work_id : option string;
  row_attempt_id : option string;
  row_event_type : string;
  row_event_version : Z;
  row_actor_id : string;
  row_actor_role : option string;
  row_occurred_at : string;
  recorded_at : string;
  payload_json : string;
  row_previous : option string;
  digest : string }.

(** The columns of a projection row next to its key. *)
Record mission_view := { mv_status : MissionState; mv_last_sequence : Z; mv_state_digest : string }.
Record work_view := { wv_mission_id : string; wv_status : WorkState; wv_last_sequence : Z; wv_state_digest : string }.
Record snapshot_row := { sn_sequence : Z; state_json : string; sn_state_digest : string }.

Record store := {
  read_only : bool;
  events_table : list event_row;
  mission_projection : list (string * mission_view);
  work_projection : list (string * work_view);
  snapshots : list snapshot_row;
  idempotency : list (string * string) }.

Definition fresh_store : store :=
  {| read_only := false; events_table := []; mission_projection := []; work_projection := [];
     snapshots := []; idempotency := [] |}.

Definition with_events (s : store) (rows : list event_row) (keys : list (string * string)) : store :=
  {| read_only := read_only s; events_table := rows; mission_projection := mission_projection s;
     work_projection := work_projection s; snapshots := snapshots s; idempotency := keys |}.
Definition with_views (s : store) (ms : list (string * mission_view)) (ws : list (string * work_view)) : store :=
  {| read_only := read_only s; events_table := events_table s; mission_projection := ms; work_projection := ws;
     snapshots := snapshots s; idempotency := idempotency s |}.
Definition with_snapshots (s : store) (sn : list snapshot_row) : store :=
  {| read_only := read_only s; events_table := events_table s; mission_projection := mission_projection s;
     work_projection := work_projection s; snapshots := sn; idempotency := idempotency s |}.

(** ** Reading events *)

(** The event a row holds, with its payload parsed. *)
Definition row_event (r : event_row) : result KernelEvent :=
  match loads (payload_json r) with
  | None => raise ValueError "Expecting value"
  | Some p =>
      check_event (fun fields =>
        {| event_id := row_event_id r; mission_id := row_mission_id r; event_type := row_event_type r;
           actor_id := row_actor_id r; occurred_at := row_occurred_at r; payload := fields;
           work_id := row_work_id r; attempt_id := row_attempt_id r; event_actor_role := row_actor_role r;
           event_version := row_event_version r; previous_digest := row_previous r |}) p
  end.

(** One turn of [_events_locked]: parse the row and check its chain link. *)
Definition verify_row (previous : option string) (r : event_row) : result KernelEvent :=
  let? e := wrap [TypeError; ValueError] KernelIntegrityError "event payload is corrupt" (row_event r) in
  require (bool_decide (row_previous r = previous) && String.eqb (digest r) (digest_for e previous))
    KernelIntegrityError "event chain is corrupt" ;?
  Ok e.

(** [_events_locked] run to its end: the verified events with their rows. *)
Fixpoint verify_rows (previous : option string) (rows : list event_row) : result (list (event_row * KernelEvent)) :=
  match rows with
  | [] => Ok []
  | r :: rs =>
      let? e := verify_row previous r in
      let? rest := verify_rows (Some (digest r)) rs in
      Ok ((r, e) :: rest)
  end.
(** [events] *)
Definition list_events (s : store) : result (list (event_row * KernelEvent)) := verify_rows None (events_table s).

Definition reduce_row (st : State) (e : KernelEvent) : result State :=
  wrap [KeyError; TypeError; ValueError] KernelIntegrityError "event sequence cannot be reduced" (reduce_event st e).

(** [_replay_locked]: it stops at the first event past [through]. *)
Fixpoint replay_rows (through : option Z) (previous : option string) (st : State) (rows : list event_row) : result State :=
  match rows with
  | [] => Ok st
  | r :: rs =>
      let? e := verify_row previous r in
      if match through with Some n => n <? sequence r | None => false end then Ok st
      else let? st' := reduce_row st e in replay_rows through (Some (digest r)) st' rs
  end.
Definition _replay_locked (s : store) (through : option Z) : result State :=
  replay_rows through None empty_state (events_table s).

(** ** Projections *)

Definition mission_views (st : State) (n : Z) (ms : list (string * mission_view)) : list (string * mission_view) :=
  fold_left (fun t m => dict_set m.1 {| mv_status := m.2; mv_last_sequence := n; mv_state_digest := state_digest st |} t)
    (missions st) ms.
Definition work_views (st : State) (n : Z) (ws : list (string * work_view)) : list (string * work_view) :=
  fold_left (fun t w => dict_set w.1 {| wv_mission_id := w_mission_id w.2; wv_status := w_status w.2;
                                        wv_last_sequence := n; wv_state_digest := state_digest st |} t)
    (work st) ws.

Definition views : Type := list (string * mission_view) * list (string * work_view).

Fixpoint rebuild_rows (previous : option string) (st : State) (vs : views) (rows : list event_row)
    : result (State * views) :=
  match rows with
  | [] => Ok (st, vs)
  | r :: rs =>
      let? e := verify_row previous r in
      let? st' := reduce_row st e in
      rebuild_rows (Some (digest r)) st' (mission_views st' (sequence r) vs.1, work_views st' (sequence r) vs.2) rs
  end.

(** [_rebuild_locked]: empty both views and replay into them. *)
Definition _rebuild_locked : M store State :=
  let* s := getM in
  let* (st, vs) := liftR (rebuild_rows None empty_state ([], []) (events_table s)) in
  putM (with_views s vs.1 vs.2) ;*
  ret st.

Definition _require_writable : M store unit :=
  let* s := getM in
  guardM (negb (read_only s)) KernelIntegrityError "read-only kernel store cannot be mutated".

Definition rebuild_projections : M store State :=
  _require_writable ;* atomic _rebuild_locked.

(** ** Appending *)

(** [SELECT sequence, digest FROM events ORDER BY sequence DESC LIMIT 1]: rows
    are stored in sequence order. *)
Definition head_of (s : store) : Z * option string :=
  match last (events_table s) with Some r => (sequence r, Some (digest r)) | None => (0, None) end.

Definition find_event (s : store) (id : string) : option event_row :=
  List.find (fun r => String.eqb (row_event_id r) id) (events_table s).

Definition _stored_event_matches_locked (r : event_row) (e : KernelEvent) : bool :=
  match loads (payload_json r) with
  | None => false
  | Some p =>
      String.eqb (row_event_id r) (event_id e) && String.eqb (row_mission_id r) (mission_id e)
      && bool_decide (row_work_id r = work_id e) && bool_decide (row_attempt_id r = attempt_id e)
      && String.eqb (row_event_type r) (event_type e) && Z.eqb (row_event_version r) (event_version e)
      && String.eqb (row_actor_id r) (actor_id e) && bool_decide (row_actor_role r = event_actor_role e)
      && String.eqb (row_occurred_at r) (occurred_at e)
      && String.eqb (canonical_bytes p) (canonical_bytes (JObj (payload e)))
      && String.eqb (digest r) (digest_for e (row_previous r))
  end.

(** What is already stored of one entry: its sequence, or nothing. *)
Definition existing_sequence (s : store) (entry : KernelEvent * option string) : result (option Z) :=
  let '(e, key) := entry in
  let bound := match key with Some k => lookup_key k (idempotency s) | None => None end in
  require (match bound with Some id => String.eqb id (event_id e) | None => true end)
    KernelIntegrityError "idempotency key is already bound" ;?
  match find_event s (event_id e) with
  | None =>
      require (bool_decide (bound = None)) KernelIntegrityError "idempotency record has no event" ;?
      Ok None
  | Some r =>
      require (bool_decide (is_Some key) && bool_decide (is_Some bound)) KernelIntegrityError "event id is already bound" ;?
      require (_stored_event_matches_locked r e) KernelIntegrityError "idempotency key is bound to a different event" ;?
      Ok (Some (sequence r))
  end.

(** [tuple(range(n, n + k))] *)
Definition range_from (n : Z) (k : nat) : list Z := map (fun i => n + Z.of_nat i) (seq 0 k).

Definition event_to_row (e : KernelEvent) (n : Z) (recorded : string) (previous : option string) : event_row :=
  {| sequence := n; row_event_id := event_id e; row_mission_id := mission_id e; row_work_id := work_id e;
     row_attempt_id := attempt_id e; row_event_type := event_type e; row_event_version := event_version e;
     row_actor_id := actor_id e; row_actor_role := event_actor_role e; row_occurred_at := occurred_at e;
     recorded_at := recorded; payload_json := canonical_bytes (JObj (payload e));
     row_previous := previous; digest := digest_for e previous |}.

(** [INSERT INTO events]: the integers are bound first, then the primary key and the
    two unique columns are checked. *)
Definition insert_event (r : event_row) (rows : list event_row) : result (list event_row) :=
  bind_integer (sequence r) ;?
  bind_integer (row_event_version r) ;?
  require (forallb (fun x => negb (Z.eqb (sequence x) (sequence r)) && negb (String.eqb (row_event_id x) (row_event_id r))
                             && negb (String.eqb (digest x) (digest r))) rows)
    IntegrityError "UNIQUE constraint failed: events" ;?
  Ok (rows ++ [r]).
Definition insert_key (k id : string) (keys : list (string * string)) : result (list (string * string)) :=
  require (forallb (fun x => negb (String.eqb x.1 k) && negb (String.eqb x.2 id)) keys)
    IntegrityError "UNIQUE constraint failed: idempotency" ;?
  Ok (keys ++ [(k, id)]).

(** The insertion loop: the sequences given out and the grown tables. *)
Fixpoint insert_batch (recorded : string) (n : Z) (previous : option string)
    (batch : list (KernelEvent * option string)) (rows : list event_row) (keys : list (string * string))
    : result (list Z * list event_row * list (string * string)) :=
  match batch with
  | [] => Ok ([], rows, keys)
  | (e, key) :: rest =>
      require (bool_decide (previous_digest e = previous))
        KernelIntegrityError "event previous digest does not match batch chain head" ;?
      let r := event_to_row e (n + 1) recorded previous in
      let? rows' := insert_event r rows in
      let? keys' := match key with Some k => insert_key k (event_id e) keys | None => Ok keys end in
      let? (seqs, rows'', keys'') := insert_batch recorded (n + 1) (Some (digest r)) rest rows' keys' in
      Ok (n + 1 :: seqs, rows'', keys'')
  end.

Definition append_batch (batch : list (KernelEvent * option string)) (expected_sequence : option Z)
    (recorded : string) : M store (list Z) :=
  _require_writable ;*
  if bool_decide (length batch = 0%nat) then ret []
  else
  guardM (distinct (map (fun b => event_id b.1) batch)) KernelIntegrityError "batch event ids must be unique" ;*
  guardM (distinct (omap snd batch)) KernelIntegrityError "batch idempotency keys must be unique" ;*
  atomic (
    let* s := getM in
    let '(current, head) := head_of s in
    guardM (match expected_sequence with Some n => Z.eqb n current | None => true end)
      KernelIntegrityError "optimistic sequence check failed" ;*
    let* existing := liftR (map_result (existing_sequence s) batch) in
    match omap id existing with
    | [] =>
        let* (seqs, rows, keys) := liftR (insert_batch recorded current head batch (events_table s) (idempotency s)) in
        putM (with_events s rows keys) ;*
        _rebuild_locked ;*
        ret seqs
    | (n :: _) as sequences =>
        guardM (Nat.eqb (length sequences) (length batch)) KernelIntegrityError "partial batch retry is not permitted" ;*
        guardM (bool_decide (sequences = range_from n (length sequences)))
          KernelIntegrityError "idempotent batch events are not contiguous" ;*
        ret sequences
    end).

Definition append (e : KernelEvent) (expected_sequence : option Z) (recorded : string) (key : option string) : M store Z :=
  let* seqs := append_batch [(e, key)] expected_sequence recorded in
  match seqs with n :: _ => ret n | [] => fail ValueError "tuple index out of range" end.

(** [UPDATE] and [DELETE] on the events table: the triggers abort. *)
Definition update_kernel_events : M store unit :=
  let* s := getM in
  match events_table s with [] => ret tt | _ :: _ => fail IntegrityError "events are append-only" end.
Definition delete_kernel_events : M store unit := update_kernel_events.

(** ** Read models *)

(** [projection]: the views in key order, or a replay of a read-only store. *)
Definition view_work (v : work_view) : work_entry :=
  {| w_mission_id := wv_mission_id v; w_status := wv_status v; evaluation_plan_digest := None;
     passed_evaluation_digest := None; evaluation_bundle_digest := None |}.
Definition projection (s : store) : result State :=
  if read_only s then _replay_locked s None
  else Ok {| missions := map (fun kv => (kv.1, mv_status kv.2)) (sorted_by fst (mission_projection s));
             work := map (fun kv => (kv.1, view_work kv.2)) (sorted_by fst (work_projection s)) |}.

(** [SELECT COALESCE(MAX(sequence), 0) FROM events] *)
Definition max_sequence (s : store) : Z := foldr Z.max 0 (map sequence (events_table s)).

Record mission_status := {
  ms_mission_id : string; ms_status : MissionState; ms_work : list (string * WorkState);
  ms_last_sequence : Z; ms_state_digest : string }.

Definition status (s : store) (mission : string) : result mission_status :=
  let? st := projection s in
  match lookup_key mission (missions st) with
  | None => raise KeyError ("unknown kernel mission: " +:+ mission)%stdpp
  | Some m =>
      Ok {| ms_mission_id := mission; ms_status := m;
            ms_work := map (fun kw => (kw.1, w_status kw.2))
                         (List.filter (fun kw => String.eqb (w_mission_id kw.2) mission) (work st));
            ms_last_sequence := max_sequence s; ms_state_digest := state_digest st |}
  end.

(** ** Snapshots *)

(** [INSERT OR REPLACE INTO snapshots] *)
Definition put_snapshot (sn : snapshot_row) (l : list snapshot_row) : list snapshot_row :=
  List.filter (fun x => negb (Z.eqb (sn_sequence x) (sn_sequence sn))) l ++ [sn].
Definition snapshot_of (st : State) (n : Z) : snapshot_row :=
  {| sn_sequence := n; state_json := canonical_bytes (state_document st); sn_state_digest := state_digest st |}.

Definition write_snapshot : M store Z :=
  _require_writable ;*
  let* s := getM in
  let* st := liftR (projection s) in
  atomic (putM (with_snapshots s (put_snapshot (snapshot_of st (max_sequence s)) (snapshots s))) ;*
          ret (max_sequence s)).

(** [ORDER BY sequence DESC LIMIT 1] *)
Definition latest_snapshot (l : list snapshot_row) : option snapshot_row :=
  fold_left (fun best x => match best with
                           | Some b => if sn_sequence b <? sn_sequence x then Some x else best
                           | None => Some x end) l None.

(** The snapshot row that may be used: its digest matches and it equals the
    replay through its sequence. *)
Definition verified_snapshot (s : store) : option json :=
  match latest_snapshot (snapshots s) with
  | None => None
  | Some row =>
      match loads (state_json row), _replay_locked s (Some (sn_sequence row)) with
      | Some snapshot, Ok replayed =>
          if String.eqb (canonical_digest snapshot) (sn_state_digest row) && py_eq snapshot (state_document replayed)
          then Some snapshot else None
      | _, _ => None
      end
  end.

Definition load_snapshot : M store json :=
  atomic (
    let* s := getM in
    match verified_snapshot s with
    | Some snapshot => ret snapshot
    | None =>
        let* st := liftR (_replay_locked s None) in
        if read_only s then ret (state_document st)
        else _rebuild_locked ;* write_snapshot ;* ret (state_document st)
    end).

(** [KernelStore(path)]: opening a writable store rebuilds the views. *)
Definition open_store : M store unit :=
  let* s := getM in
  if read_only s then ret tt else atomic (_rebuild_locked ;* ret tt).

(** ** The store invariant *)

Lemma run_writable {A} (f : unit -> M store A) s :
  bindM _require_writable f s =
  if read_only s then (raise KernelIntegrityError "read-only kernel store cannot be mutated", s) else f tt s.
Proof. unfold bindM, _require_writable, guardM, liftR. by cbn; destruct (read_only s). Qed.

Record store_ok (s : store) : Prop := {
  ok_sequence : map sequence (events_table s) = range_from 1 (length (events_table s));
  ok_ids : NoDup (map row_event_id (events_table s));
  ok_keys : NoDup (idempotency s).*1;
  ok_bound : forall k id, (k, id) ∈ idempotency s -> id ∈ map row_event_id (events_table s);
  ok_views : exists st, rebuild_rows None empty_state ([], []) (events_table s)
                        = Ok (st, (mission_projection s, work_projection s)) }.

(** The rows a batch adds behind the head [(n, previous)]. *)
Fixpoint batch_rows (recorded : string) (n : Z) (previous : option string)
    (batch : list (KernelEvent * option string)) : list event_row :=
  match batch with
  | [] => []
  | (e, _) :: rest =>
      let r := event_to_row e (n + 1) recorded previous in
      r :: batch_rows recorded (n + 1) (Some (digest r)) rest
  end.
Definition batch_keys (batch : list (KernelEvent * option string)) : list (string * string) :=
  omap (fun b => match b.2 with Some k => Some (k, event_id b.1) | None => None end) batch.

Lemma range_from_S n k : range_from n (S k) = n :: range_from (n + 1) k.
Proof.
  unfold range_from. cbn [seq map]. rewrite Z.add_0_r, <- seq_shift, map_map. f_equal.
  apply map_ext. intros i. lia.
Qed.

Lemma range_from_app n j k : range_from n (j + k) = range_from n j ++ range_from (n + Z.of_nat j) k.
Proof.
  revert n. induction j as [|j IH]; intros n; [by rewrite Z.add_0_r|].
  cbn [Nat.add]. rewrite !range_from_S, IH. cbn [app]. do 3 f_equal. lia.
Qed.

Lemma range_from_length n k : length (range_from n k) = k.
Proof. unfold range_from. by rewrite length_map, length_seq. Qed.

Lemma insert_event_ok r rows rows' :
  insert_event r rows = Ok rows' -> rows' = rows ++ [r] /\ row_event_id r ∉ map row_event_id rows.
Proof.
  unfold insert_event. intros H. take_ok H u1 B1. take_ok H u2 B2. take_guard H E. injection H as <-. split; [done|].
  rewrite forallb_forall in E. intros Hin. apply list_elem_of_In, in_map_iff in Hin as (x & Hx & Hin).
  specialize (E x Hin). bool_hyps. congruence.
Qed.

Lemma insert_key_ok k id keys keys' :
  insert_key k id keys = Ok keys' -> keys' = keys ++ [(k, id)] /\ k ∉ keys.*1.
Proof.
  unfold insert_key. intros H. take_guard H E. injection H as <-. split; [done|].
  rewrite forallb_forall in E. intros Hin. apply list_elem_of_fmap in Hin as (x & -> & Hin).
  apply list_elem_of_In in Hin. specialize (E x Hin). bool_hyps. congruence.
Qed.

Lemma insert_batch_ok recorded n previous batch rows keys seqs rows' keys' :
  insert_batch recorded n previous batch rows keys = Ok (seqs, rows', keys') ->
  seqs = range_from (n + 1) (length batch)
  /\ rows' = rows ++ batch_rows recorded n previous batch
  /\ keys' = keys ++ batch_keys batch
  /\ (NoDup (map row_event_id rows) -> NoDup (map row_event_id rows'))
  /\ (NoDup keys.*1 -> NoDup keys'.*1).
Proof.
  revert n previous rows keys seqs rows' keys'.
  induction batch as [|[e key] batch IH]; intros n previous rows keys seqs rows' keys' H; cbn [insert_batch] in H.
  - injection H as <- <- <-. cbn. by rewrite !app_nil_r.
  - take_guard H E0. take_ok H rows1 E1. take_ok H keys1 E2. take_ok H t E3. destruct t as [[seqs1 rows2] keys2].
    injection H as <- <- <-. apply IH in E3 as (-> & -> & -> & Hids & Hkeys).
    apply insert_event_ok in E1 as [-> Hfresh].
    cbn [length batch_rows batch_keys omap list_omap fst snd]. rewrite range_from_S, <- app_assoc.
    split; [done|]. split; [done|].
    assert (keys1 ++ batch_keys batch = keys ++ (match key with Some k => [(k, event_id e)] | None => [] end) ++ batch_keys batch
            /\ (NoDup keys.*1 -> NoDup keys1.*1)) as [Hk Hn].
    { destruct key as [k|]; [|by injection E2 as <-].
      apply insert_key_ok in E2 as [-> Hk]. rewrite <- app_assoc. split; [done|].
      intros Hnd. rewrite fmap_app. apply NoDup_app. split; [done|]. split; [|apply NoDup_singleton].
      intros x Hx Hx'. apply list_elem_of_singleton in Hx' as ->. done. }
    split; [rewrite Hk; by destruct key|]. split.
    + intros Hnd. rewrite <- app_assoc in Hids. apply Hids. rewrite map_app. apply NoDup_app. split; [done|]. split; [|apply NoDup_singleton].
      intros x Hx Hx'. apply list_elem_of_singleton in Hx' as ->. done.
    + auto.
Qed.

Lemma batch_rows_sequence recorded n previous batch :
  map sequence (batch_rows recorded n previous batch) = range_from (n + 1) (length batch).
Proof.
  revert n previous. induction batch as [|[e key] batch IH]; intros n previous; [done|].
  cbn [batch_rows length map]. by rewrite range_from_S, IH.
Qed.

Lemma batch_rows_length recorded n previous batch : length (batch_rows recorded n previous batch) = length batch.
Proof. revert n previous. induction batch as [|[e key] batch IH]; intros; [done|]. cbn. by rewrite IH. Qed.

Lemma batch_rows_ids recorded n previous batch :
  map row_event_id (batch_rows recorded n previous batch) = map (fun b => event_id b.1) batch.
Proof. revert n previous. induction batch as [|[e key] batch IH]; intros; [done|]. cbn. by rewrite IH. Qed.

Lemma head_of_ok s :
  store_ok s -> (head_of s).1 = Z.of_nat (length (events_table s)).
Proof.
  intros H. pose proof (ok_sequence s H) as Hs. unfold head_of.
  destruct (last (events_table s)) as [r|] eqn:E.
  - apply last_Some in E as [l El]. rewrite El in Hs |- *. rewrite map_app, length_app in Hs.
    rewrite range_from_app in Hs. apply app_inj_2 in Hs as [_ Hs]; [|by rewrite range_from_length].
    cbn in Hs. injection Hs as Hs. rewrite length_app. cbn [fst length]. rewrite Hs. lia.
  - by apply last_None in E as ->.
Qed.

Lemma rebuild_locked_ok s st s' :
  _rebuild_locked s = (Ok st, s') ->
  exists vs, rebuild_rows None empty_state ([], []) (events_table s) = Ok (st, vs) /\ s' = with_views s vs.1 vs.2.
Proof.
  unfold _rebuild_locked, bindM, getM, liftR, putM, ret.
  destruct (rebuild_rows _ _ _ _) as [[st' vs]|e]; [|discriminate]. intros [= <- <-]. eauto.
Qed.

(** How [append_batch] ends: it raises and changes nothing; it finds the whole
    batch stored and changes nothing; or it adds the batch behind the head. *)
Inductive append_outcome (batch : list (KernelEvent * option string)) (recorded : string) (s : store)
    : result (list Z) -> store -> Prop :=
| A_raised e : append_outcome batch recorded s (Raise e) s
| A_empty : batch = [] -> append_outcome batch recorded s (Ok []) s
| A_retry n k :
    batch <> [] -> NoDup (map (fun b => event_id b.1) batch) ->
    map_result (existing_sequence s) batch = Ok (map Some (range_from n k)) -> k = length batch ->
    append_outcome batch recorded s (Ok (range_from n k)) s
| A_appended keys ms ws st :
    batch <> [] -> NoDup (map (fun b => event_id b.1) batch) -> NoDup (omap snd batch) ->
    read_only s = false ->
    insert_batch recorded (head_of s).1 (head_of s).2 batch (events_table s) (idempotency s)
      = Ok (range_from ((head_of s).1 + 1) (length batch),
            events_table s ++ batch_rows recorded (head_of s).1 (head_of s).2 batch, keys) ->
    rebuild_rows None empty_state ([], []) (events_table s ++ batch_rows recorded (head_of s).1 (head_of s).2 batch)
      = Ok (st, (ms, ws)) ->
    append_outcome batch recorded s (Ok (range_from ((head_of s).1 + 1) (length batch)))
      (with_views (with_events s (events_table s ++ batch_rows recorded (head_of s).1 (head_of s).2 batch) keys) ms ws).

Lemma all_some_omap (l : list (option Z)) : length (omap id l) = length l -> l = map Some (omap id l).
Proof.
  induction l as [|[x|] l IH]; cbn; intros H; [done| |].
  - injection H as H. by rewrite <- IH.
  - assert (length (omap id l) <= length l)%nat; [|cbn in *; unfold id in *; lia].
    clear. induction l as [|[x|] l IH]; cbn in *; lia.
Qed.

Lemma append_batch_outcome batch expected recorded s r s' :
  append_batch batch expected recorded s = (r, s') -> append_outcome batch recorded s r s'.
Proof.
  unfold append_batch. rewrite run_writable. destruct (read_only s) eqn:Hro; [intros [= <- <-]; constructor|].
  case_bool_decide as Hb; [intros [= <- <-]; apply A_empty; by apply nil_length_inv|].
  rewrite run_guard. destruct (distinct _) eqn:Hd; [|intros [= <- <-]; constructor].
  rewrite run_guard. destruct (distinct (omap snd batch)) eqn:Hk; [|intros [= <- <-]; constructor].
  unfold distinct in *. bool_hyps. unfold atomic. rewrite run_get.
  destruct (head_of s) as [current head] eqn:Hh. rewrite run_guard.
  destruct (match expected with Some n => Z.eqb n current | None => true end); [|intros [= <- <-]; constructor].
  rewrite run_lift. destruct (map_result (existing_sequence s) batch) as [existing|e] eqn:Hex;
    [|intros [= <- <-]; constructor].
  assert (Hne : batch <> []) by (intros ->; done).
  destruct (omap id existing) as [|n ns] eqn:Ho.
  - rewrite run_lift. destruct (insert_batch _ _ _ _ _ _) as [[[seqs rows] keys]|e] eqn:Hi;
      [|intros [= <- <-]; constructor].
    rewrite run_put, run_bind. destruct (_rebuild_locked _) as [[st|e] s1] eqn:Hr; [|intros [= <- <-]; constructor].
    cbn. intros [= <- <-]. apply rebuild_locked_ok in Hr as ([ms ws] & Hr & ->).
    pose proof Hi as Hi'. apply insert_batch_ok in Hi' as (-> & -> & _).
    replace current with (head_of s).1 in * by (by rewrite Hh). replace head with (head_of s).2 in * by (by rewrite Hh).
    by eapply A_appended.
  - rewrite run_guard. destruct (Nat.eqb _ _) eqn:Hlen; [|intros [= <- <-]; constructor].
    rewrite run_guard. case_bool_decide as Hc; cbn; intros [= <- <-]; [|constructor].
    apply Nat.eqb_eq in Hlen.
    assert (length existing = length batch) as Hl by (by eapply map_result_length).
    rewrite <- Ho in Hlen, Hc |- *. rewrite Hc. apply A_retry; [done|done| |done].
    rewrite Hex. f_equal. rewrite <- Hc. apply all_some_omap. congruence.
Qed.

(** The invariant reads only the events, the keys and the views. *)
Lemma store_ok_ext s s' :
  events_table s' = events_table s -> idempotency s' = idempotency s ->
  mission_projection s' = mission_projection s -> work_projection s' = work_projection s ->
  store_ok s -> store_ok s'.
Proof. intros E1 E2 E3 E4 [H1 H2 H3 H4 H5]. split; rewrite ?E1, ?E2, ?E3, ?E4; done. Qed.

Lemma rebuild_locked_keeps s r s' : store_ok s -> _rebuild_locked s = (r, s') ->
  s' = s /\ exists st, r = Ok st /\ rebuild_rows None empty_state ([], []) (events_table s)
                                   = Ok (st, (mission_projection s, work_projection s)).
Proof.
  intros Hok. destruct (ok_views s Hok) as [st Hst].
  unfold _rebuild_locked. rewrite run_get, run_lift, Hst, run_put. cbn. intros [= <- <-].
  split; [by destruct s|]. by exists st.
Qed.

Lemma batch_keys_ids batch k id : (k, id) ∈ batch_keys batch -> id ∈ map (fun b => event_id b.1) batch.
Proof.
  unfold batch_keys. rewrite list_elem_of_omap. intros ([e key] & Hin & H). cbn in H.
  destruct key; [|discriminate H]. injection H as <- <-. apply list_elem_of_In, in_map_iff.
  exists (e, Some s). split; [done|by apply list_elem_of_In].
Qed.

Lemma append_batch_ok batch expected recorded s r s' :
  store_ok s -> append_batch batch expected recorded s = (r, s') -> store_ok s'.
Proof.
  intros Hok H. apply append_batch_outcome in H as [| | |keys ms ws st Hne Hids Hkd Hro Hi Hr]; try done.
  pose proof (head_of_ok s Hok) as Hhead.
  apply insert_batch_ok in Hi as (_ & _ & -> & Hnd & Hnk).
  split; cbn [with_views with_events events_table idempotency mission_projection work_projection].
  - rewrite map_app, batch_rows_sequence, length_app, batch_rows_length, range_from_app, (ok_sequence s Hok), Hhead.
    do 2 f_equal. lia.
  - by apply Hnd, ok_ids.
  - by apply Hnk, ok_keys.
  - intros k id. rewrite elem_of_app, map_app, elem_of_app, batch_rows_ids. intros [Hin|Hin].
    + left. by eapply ok_bound.
    + right. by eapply batch_keys_ids.
  - by exists st.
Qed.

Lemma write_snapshot_keeps s r s' :
  write_snapshot s = (r, s') ->
  s' = s \/ exists l, s' = with_snapshots s l.
Proof.
  unfold write_snapshot. rewrite run_writable. destruct (read_only s) eqn:Hro; [intros [= <- <-]; by left|].
  rewrite run_get, run_lift. unfold projection. rewrite Hro. unfold atomic. rewrite run_put. cbn.
  intros [= <- <-]. right. by eexists.
Qed.

Lemma load_snapshot_keeps s r s' :
  store_ok s -> load_snapshot s = (r, s') -> s' = s \/ exists l, s' = with_snapshots s l.
Proof.
  intros Hok. unfold load_snapshot, atomic. rewrite run_get.
  destruct (verified_snapshot s); [cbn; intros [= <- <-]; by left|].
  rewrite run_lift. destruct (_replay_locked s None); [|intros [= <- <-]; by left].
  destruct (read_only s); [cbn; intros [= <- <-]; by left|].
  rewrite run_bind. destruct (_rebuild_locked s) as [r1 s1] eqn:Hr.
  apply rebuild_locked_keeps in Hr as (-> & st & -> & _); [|done].
  rewrite run_bind. destruct (write_snapshot s) as [[n|e] s2] eqn:Hw; cbn; intros [= <- <-]; [|by left].
  by eapply write_snapshot_keeps.
Qed.

(** The operations of a store, a restart in either mode, and an adversary that
    rewrites the snapshot table, which carries no authority. *)
Inductive op :=
| Append (batch : list (KernelEvent * option string)) (expected : option Z) (recorded : string)
| Rebuild
| WriteSnapshot
| LoadSnapshot
| UpdateEvents
| DeleteEvents
| Reopen (ro : bool)
| ForgeSnapshots (l : list snapshot_row).

Definition set_read_only (s : store) (ro : bool) : store :=
  {| read_only := ro; events_table := events_table s; mission_projection := mission_projection s;
     work_projection := work_projection s; snapshots := snapshots s; idempotency := idempotency s |}.

Definition run_op (o : op) (s : store) : store :=
  match o with
  | Append batch expected recorded => (append_batch batch expected recorded s).2
  | Rebuild => (rebuild_projections s).2
  | WriteSnapshot => (write_snapshot s).2
  | LoadSnapshot => (load_snapshot s).2
  | UpdateEvents => (update_kernel_events s).2
  | DeleteEvents => (delete_kernel_events s).2
  | Reopen ro => (open_store (set_read_only s ro)).2
  | ForgeSnapshots l => with_snapshots s l
  end.
Definition run_ops (ops : list op) (s : store) : store := fold_left (fun s o => run_op o s) ops s.

Lemma fresh_store_ok : store_ok fresh_store.
Proof.
  split; cbn; [done|constructor|constructor|intros k id H; by apply elem_of_nil in H|].
  by exists empty_state.
Qed.

Lemma update_keeps s : (update_kernel_events s).2 = s.
Proof. unfold update_kernel_events. rewrite run_get. by destruct (events_table s). Qed.

Lemma run_op_ok o s : store_ok s -> store_ok (run_op o s).
Proof.
  intros Hok. destruct o; cbn [run_op].
  - destruct (append_batch batch expected recorded s) as [r s'] eqn:E. by eapply append_batch_ok.
  - destruct (rebuild_projections s) as [r s'] eqn:E. revert E. unfold rebuild_projections.
    rewrite run_writable. destruct (read_only s); [intros [= <- <-]; done|].
    unfold atomic. destruct (_rebuild_locked s) as [r1 s1] eqn:Hr. apply rebuild_locked_keeps in Hr as (-> & st & -> & _); [|done].
    intros [= <- <-]. done.
  - destruct (write_snapshot s) as [r s'] eqn:E. apply write_snapshot_keeps in E as [->|[l ->]]; [done|].
    by eapply store_ok_ext; [..|exact Hok].
  - destruct (load_snapshot s) as [r s'] eqn:E. apply load_snapshot_keeps in E as [->|[l ->]]; [done| |done].
    by eapply store_ok_ext; [..|exact Hok].
  - by rewrite update_keeps.
  - unfold delete_kernel_events. by rewrite update_keeps.
  - assert (Hok' : store_ok (set_read_only s ro)) by (by eapply store_ok_ext; [..|exact Hok]).
    unfold open_store. rewrite run_get. destruct (read_only _); [done|]. unfold atomic. rewrite run_bind.
    destruct (_rebuild_locked _) as [r1 s1] eqn:Hr. apply rebuild_locked_keeps in Hr as (-> & st & -> & _); done.
  - by eapply store_ok_ext; [..|exact Hok].
Qed.

Lemma reachable_store_ok ops : store_ok (run_ops ops fresh_store).
Proof.
  unfold run_ops. assert (forall s, store_ok s -> store_ok (fold_left (fun s o => run_op o s) ops s)) as H;
    [|apply H, fresh_store_ok].
  induction ops as [|o ops IH]; intros s Hs; [done|]. cbn. apply IH. by apply run_op_ok.
Qed.

(** Rebuilding the views is a replay. *)
Lemma rebuild_replay previous st vs rows st' vs' :
  rebuild_rows previous st vs rows = Ok (st', vs') -> replay_rows None previous st rows = Ok st'.
Proof.
  revert previous st vs. induction rows as [|r rows IH]; intros previous st vs H; cbn in *; [by injection H as <-|].
  take_ok H e E. rewrite E. cbn. take_ok H st1 E1. rewrite E1. cbn. by eapply IH.
Qed.

Lemma replay_rows_verify through previous st rows st' :
  replay_rows None previous st rows = Ok st' ->
  exists pairs, verify_rows previous rows = Ok pairs /\ map fst pairs = rows
    /\ rfold reduce_row st (map snd pairs) = Ok st'
    /\ is_ok (replay_rows through previous st rows) = true.
Proof.
  revert previous st. induction rows as [|r rows IH]; intros previous st H; cbn in *; [exists []; by simplify_eq|].
  take_ok H e E. rewrite E. cbn. take_ok H st1 E1. apply IH in H as (pairs & -> & Hp & Hf & Hi).
  exists ((r, e) :: pairs). cbn. rewrite Hp, E1. cbn. repeat split; try done.
  destruct (match through with Some n => n <? sequence r | None => false end); done.
Qed.

(** C8: every store reachable through appends, rebuilds, snapshots, restarts in
    either mode, attempted updates and deletes, and forged snapshot rows has a
    verifying hash chain, gap-free sequence numbers, one row per event
    identifier, one event per idempotency key, and its history replays: the
    event listing and the replay both return. *)
Theorem reachable_store_sound ops :
  let s := run_ops ops fresh_store in
  map sequence (events_table s) = range_from 1 (length (events_table s))
  /\ NoDup (map row_event_id (events_table s)) /\ NoDup (idempotency s).*1
  /\ exists pairs st, list_events s = Ok pairs /\ map fst pairs = events_table s
       /\ _replay_locked s None = Ok st /\ rfold reduce_row empty_state (map snd pairs) = Ok st.
Proof.
  intros s. assert (Hok : store_ok s) by apply reachable_store_ok.
  destruct (ok_views s Hok) as [st Hst]. apply rebuild_replay in Hst.
  destruct (replay_rows_verify None _ _ _ _ Hst) as (pairs & Hv & Hp & Hf & _).
  split; [apply Hok|]. split; [apply Hok|]. split; [apply Hok|]. by exists pairs, st.
Qed.

(** ** What an append stores *)

(** The event as it is read back: its payload with sorted keys. *)
Definition norm_payload (p : contract) : contract := match norm (JObj p) with JObj l => l | _ => [] end.
Definition norm_event (e : KernelEvent) : KernelEvent :=
  {| event_id := event_id e; mission_id := mission_id e; event_type := event_type e; actor_id := actor_id e;
     occurred_at := occurred_at e; payload := norm_payload (payload e); work_id := work_id e;
     attempt_id := attempt_id e; event_actor_role := event_actor_role e; event_version := event_version e;
     previous_digest := previous_digest e |}.

(** A constructed event: its fields passed [__post_init__] and its payload is a
    dictionary. *)
Definition event_wf (e : KernelEvent) : bool :=
  negb (String.eqb (event_id e) "") && negb (String.eqb (mission_id e) "") && negb (String.eqb (event_type e) "")
  && negb (String.eqb (actor_id e) "") && negb (String.eqb (occurred_at e) "") && (1 <=? event_version e)
  && json_wf (JObj (payload e)).

Lemma norm_payload_obj p : JObj (norm_payload p) = norm (JObj p).
Proof. reflexivity. Qed.

Lemma digest_for_norm e previous : digest_for (norm_event e) previous = digest_for e previous.
Proof.
  unfold digest_for, canonical_digest, canonical_bytes, dumps, event_preimage.
  assert (H : norm (JObj (norm_payload (payload e))) = norm (JObj (payload e)))
    by (rewrite norm_payload_obj; apply norm_idem).
  do 3 f_equal.
  assert (Hn : forall l, norm (JObj l) = JObj (sorted_by fst (map (fun kv => (kv.1, norm kv.2)) l))) by done.
  rewrite (Hn (("event_id", _) :: _)), (Hn (("event_id", JStr (event_id e)) :: _)). do 2 f_equal.
  cbn [map fst snd norm_event event_id mission_id work_id attempt_id event_type event_version
       actor_id event_actor_role occurred_at payload]. by rewrite H.
Qed.

Lemma payload_reads_back e :
  json_wf (JObj (payload e)) = true ->
  loads (canonical_bytes (JObj (payload e))) = Some (JObj (norm_payload (payload e))).
Proof. intros H. rewrite norm_payload_obj. by apply loads_dumps_norm. Qed.

Lemma verify_appended e n recorded previous :
  event_wf e = true -> previous_digest e = previous ->
  verify_row previous (event_to_row e n recorded previous) = Ok (norm_event e).
Proof.
  intros Hwf <-. unfold event_wf in Hwf. bool_hyps. unfold verify_row, row_event.
  cbn [event_to_row payload_json row_event_id row_mission_id row_event_type row_actor_id row_occurred_at
       row_work_id row_attempt_id row_actor_role row_event_version row_previous digest].
  rewrite payload_reads_back by done. unfold check_event.
  cbn [each fst snd event_id mission_id event_type actor_id occurred_at event_version].
  repeat match goal with H : _ <> "" |- _ => apply String.eqb_neq in H; rewrite H; clear H end.
  assert ((1 <=? event_version e) = true) as -> by (by apply Z.leb_le). cbn [negb require rbind wrap].
  fold (norm_event e). rewrite bool_decide_eq_true_2 by done. by rewrite digest_for_norm, String.eqb_refl.
Qed.

Lemma rebuild_rows_app previous st vs rows1 rows2 :
  rebuild_rows previous st vs (rows1 ++ rows2) =
  (let? (st1, vs1) := rebuild_rows previous st vs rows1 in
   rebuild_rows (match last rows1 with Some r => Some (digest r) | None => previous end) st1 vs1 rows2).
Proof.
  revert previous st vs. induction rows1 as [|r rows1 IH]; intros previous st vs; [done|].
  cbn [app rebuild_rows]. destruct (verify_row previous r); [|done]. cbn [rbind].
  destruct (reduce_row st _); [|done]. cbn [rbind]. rewrite IH.
  destruct (rebuild_rows _ _ _ rows1) as [[st1 vs1]|]; [|done]. cbn [rbind].
  rewrite last_cons. by destruct (last rows1).
Qed.

Lemma reduce_row_ok st e st' : reduce_row st e = Ok st' <-> reduce_event st e = Ok st'.
Proof.
  unfold reduce_row. split; [apply wrap_ok|]. by intros ->.
Qed.

Lemma find_event_none s id : id ∉ map row_event_id (events_table s) -> find_event s id = None.
Proof.
  intros H. unfold find_event. destruct (List.find _ _) as [r|] eqn:E; [|done].
  apply List.find_some in E as [Hin E]. bool_hyps. exfalso. apply H. subst. apply list_elem_of_In. by apply in_map.
Qed.

Lemma find_event_some s r :
  NoDup (map row_event_id (events_table s)) -> r ∈ events_table s -> find_event s (row_event_id r) = Some r.
Proof.
  unfold find_event. induction (events_table s) as [|x l IH]; intros Hnd Hin; [by apply elem_of_nil in Hin|].
  cbn in *. apply NoDup_cons in Hnd as [Hx Hnd].
  destruct (String.eqb_spec (row_event_id x) (row_event_id r)) as [E|].
  - apply elem_of_cons in Hin as [->|Hin]; [done|]. exfalso. apply Hx. rewrite E. apply list_elem_of_In, in_map.
    by apply list_elem_of_In.
  - apply elem_of_cons in Hin as [->|Hin]; [done|auto].
Qed.

(** When a row is inserted. *)
Lemma insert_event_iff r rows rows' : insert_event r rows = Ok rows' <->
  rows' = rows ++ [r] /\ - 2 ^ 63 <= sequence r < 2 ^ 63 /\ - 2 ^ 63 <= row_event_version r < 2 ^ 63
  /\ Forall (fun x => sequence x <> sequence r /\ row_event_id x <> row_event_id r /\ digest x <> digest r) rows.
Proof.
  unfold insert_event. rewrite Forall_forall. split.
  - intros H. take_ok H u1 B1. take_ok H u2 B2. take_guard H E. injection H as <-. apply bind_integer_ok in B1, B2. split_and!; try done; try lia.
    intros x Hx%list_elem_of_In. rewrite forallb_forall in E. specialize (E x Hx). by bool_hyps.
  - intros (-> & B1 & B2 & E). rewrite (proj2 (bind_integer_ok _ tt) B1), (proj2 (bind_integer_ok _ tt) B2). cbn [rbind].
    apply rbind_ok. exists tt. split; [|done]. apply require_ok, forallb_forall. intros x Hx%list_elem_of_In.
    rewrite !andb_true_iff, !negb_true_iff, Z.eqb_neq, !String.eqb_neq. destruct (E x Hx) as (? & ? & ?). done.
Qed.

Lemma sequence_below s x : store_ok s -> x ∈ events_table s -> 1 <= sequence x <= Z.of_nat (length (events_table s)).
Proof.
  intros Hok Hx. assert (Hs : sequence x ∈ map sequence (events_table s)) by (apply list_elem_of_In, in_map; by apply list_elem_of_In).
  rewrite (ok_sequence s Hok) in Hs. apply list_elem_of_In, in_map_iff in Hs as (i & <- & Hi). apply in_seq in Hi. lia.
Qed.

Lemma insert_key_fresh s key id :
  store_ok s -> id ∉ map row_event_id (events_table s) -> (forall k, key = Some k -> k ∉ (idempotency s).*1) ->
  exists keys, match key with Some k => insert_key k id (idempotency s) | None => Ok (idempotency s) end = Ok keys.
Proof.
  intros Hok Hid Hkey. destruct key as [k|]; [|by eexists]. exists (idempotency s ++ [(k, id)]).
  apply rbind_ok. exists tt. split; [|done]. apply require_ok, forallb_forall. intros [k' id'] Hx.
  apply list_elem_of_In in Hx. rewrite andb_true_iff, !negb_true_iff, !String.eqb_neq. cbn. split.
  - intros ->. apply (Hkey k eq_refl). by apply (list_elem_of_fmap_2 fst) in Hx.
  - intros ->. apply Hid. by eapply ok_bound.
Qed.

Lemma rebuild_appended s st st' vs e n recorded :
  rebuild_rows None empty_state ([], []) (events_table s) = Ok (st, vs) ->
  event_wf e = true -> previous_digest e = (head_of s).2 -> reduce_event st (norm_event e) = Ok st' ->
  exists vs', rebuild_rows None empty_state ([], []) (events_table s ++ [event_to_row e n recorded (previous_digest e)])
              = Ok (st', vs').
Proof.
  intros Hviews Hwf Hprev Hred. rewrite rebuild_rows_app, Hviews. cbn [rbind].
  replace (match last (events_table s) with Some r => Some (digest r) | None => None end) with (previous_digest e)
    by (rewrite Hprev; unfold head_of; by destruct (last _)).
  cbn [rebuild_rows]. rewrite verify_appended by done. cbn [rbind].
  apply reduce_row_ok in Hred. rewrite Hred. cbn [rbind]. by eexists.
Qed.

(** An event with a new identifier that is returned a number was appended. *)
Lemma append_made s st e expected key recorded m s' : _replay_locked s None = Ok st -> store_ok s ->
  event_wf e = true -> event_id e ∉ map row_event_id (events_table s) -> append e expected recorded key s = (Ok m, s') ->
  let n := Z.of_nat (length (events_table s)) + 1 in
  let row := event_to_row e n recorded (previous_digest e) in
  (m = n /\ events_table s' = events_table s ++ [row] /\ exists st', reduce_event st (norm_event e) = Ok st' /\ _replay_locked s' None = Ok st')
  /\ read_only s = false /\ (forall k, key = Some k -> k ∉ (idempotency s).*1) /\ previous_digest e = (head_of s).2
  /\ insert_event row (events_table s) = Ok (events_table s ++ [row]).
Proof.
  intros Hst Hok Hwf Hid H. unfold append in H. rewrite run_bind in H. destruct (append_batch _ _ _ s) as [[seqs|x] s1] eqn:E; [|done].
  apply append_batch_outcome in E. inversion E as [|E0|k0 n0 _ _ Hex Hlen|keys ms ws st1 _ _ _ Hro Hi Hr]; subst; [done| |].
  { cbn [length map_result] in Hex. take_ok Hex o Eo. unfold existing_sequence in Eo. take_guard Eo G1. rewrite find_event_none in Eo by done.
    take_guard Eo G2. injection Eo as <-. rewrite range_from_S in Hex. discriminate Hex. }
  rewrite (head_of_ok s Hok) in *. set (n := Z.of_nat (length (events_table s))) in *. cbn [length] in H. rewrite range_from_S in H. injection H as <- <-.
  cbn [insert_batch batch_rows] in *. take_guard Hi Gp. apply bool_decide_eq_true in Gp. rewrite <- Gp in *.
  set (row := event_to_row e (n + 1) recorded (previous_digest e)) in *. take_ok Hi rows1 Ei. assert (Ei' := Ei). apply insert_event_iff in Ei' as (-> & _).
  take_ok Hi keys1 Ek. destruct (ok_views s Hok) as [st0 Hviews]. assert (Hst0 := rebuild_replay _ _ _ _ _ _ Hviews). unfold _replay_locked in Hst. rewrite Hst0 in Hst. injection Hst as ->.
  assert (Hr' := Hr). rewrite rebuild_rows_app, Hviews in Hr'. cbn [rbind] in Hr'.
  replace (match last (events_table s) with Some r => Some (digest r) | None => None end) with (previous_digest e) in Hr'
    by (rewrite Gp; unfold head_of; by destruct (last _)).
  cbn [rebuild_rows] in Hr'. unfold row in Hr'. rewrite verify_appended in Hr' by done. cbn [rbind] in Hr'. take_ok Hr' st2 E2. apply reduce_row_ok in E2. injection Hr' as <- _.
  split_and!; try done.
  - exists st2. split; [done|]. by eapply rebuild_replay.
  - intros k ->. by apply insert_key_ok in Ek as [_ Ek].
Qed.

(** An event that meets the conditions is appended. *)
Lemma append_goes s st st' e expected key recorded :
  store_ok s -> read_only s = false -> _replay_locked s None = Ok st ->
  event_wf e = true -> event_id e ∉ map row_event_id (events_table s) ->
  (forall m, expected = Some m -> m = Z.of_nat (length (events_table s))) ->
  (forall k, key = Some k -> k ∉ (idempotency s).*1) ->
  previous_digest e = (head_of s).2 ->
  (let row := event_to_row e (Z.of_nat (length (events_table s)) + 1) recorded (previous_digest e) in
   insert_event row (events_table s) = Ok (events_table s ++ [row])) ->
  reduce_event st (norm_event e) = Ok st' ->
  exists s', append e expected recorded key s = (Ok (Z.of_nat (length (events_table s)) + 1), s').
Proof.
  intros Hok Hro Hst Hwf Hid Hexp Hkey Hprev Hins Hred. destruct (ok_views s Hok) as [st0 Hviews].
  pose proof (rebuild_replay _ _ _ _ _ _ Hviews) as Hst0. unfold _replay_locked in Hst. rewrite Hst0 in Hst.
  injection Hst as ->. pose proof (head_of_ok s Hok) as Hh. set (n := Z.of_nat (length (events_table s))) in *.
  cbv zeta in Hins. set (row := event_to_row e (n + 1) recorded (previous_digest e)) in *.
  destruct (insert_key_fresh s key (event_id e) Hok Hid Hkey) as [keys Hkeys].
  destruct (rebuild_appended s st st' _ e (n + 1) recorded Hviews Hwf Hprev Hred) as [vs Hreb]. fold row in Hreb.
  exists (with_views (with_events s (events_table s ++ [row]) keys) vs.1 vs.2).
  unfold append, append_batch. rewrite run_bind, run_writable, Hro. cbn [length]. rewrite bool_decide_eq_false_2 by done.
  rewrite !run_guard. unfold distinct. rewrite bool_decide_eq_true_2 by apply NoDup_singleton.
  rewrite bool_decide_eq_true_2 by (destruct key; [apply NoDup_singleton|constructor]).
  unfold atomic. rewrite run_get. destruct (head_of s) as [current head] eqn:Ehead. cbn in Hh, Hprev. subst current head.
  rewrite run_guard. replace (match expected with Some m => m =? n | None => true end) with true
    by (destruct expected as [m|]; [by rewrite (Hexp m eq_refl), Z.eqb_refl|done]).
  rewrite run_lift. cbn [map_result]. unfold existing_sequence.
  assert (match key with Some k => lookup_key k (idempotency s) | None => None end = None) as ->
    by (destruct key as [k|]; [apply lookup_key_not_in; by apply Hkey|done]).
  rewrite find_event_none by done. cbn [require rbind]. rewrite bool_decide_eq_true_2 by done.
  cbn [require rbind map_result omap list_omap id length]. rewrite run_lift. cbn [insert_batch]. rewrite bool_decide_eq_true_2 by done. cbn [require rbind].
  fold row. rewrite Hins. cbn [rbind]. rewrite Hkeys. cbn [rbind]. rewrite run_put, run_bind.
  unfold _rebuild_locked. rewrite run_get, run_lift. cbn [with_events events_table]. rewrite Hreb, run_put. reflexivity.
Qed.

Lemma append_expected s e key expected recorded m s' m0 :
  append e expected recorded key s = (Ok m, s') -> expected = Some m0 -> m0 = (head_of s).1.
Proof.
  intros H ->. unfold append, append_batch in H. rewrite run_bind, run_writable in H. destruct (read_only s); [done|]. cbn [length] in H.
  rewrite bool_decide_eq_false_2 in H by done. rewrite !run_guard in H. destruct (distinct _) in H; [|done]. destruct (distinct _) in H; [|done].
  unfold atomic in H. rewrite run_get in H. destruct (head_of s) as [current head]. rewrite run_guard in H. cbn [fst].
  destruct (m0 =? current) eqn:E; [by apply Z.eqb_eq in E|done].
Qed.

(** C33: an append is accepted exactly when it is legal.  On a store whose history
    replays to [st], a constructed event with a new identifier is appended exactly
    when the store is writable, the expected sequence, if one is given, is the
    current one, the idempotency key is unbound, the event names the digest of the
    head, the next sequence number and the version fit the 64 bits of an SQLite
    integer, its own digest is not in the table, and the reducer takes it; it is
    then stored at the next sequence number, no other row is touched, and the
    history replays to the reduced state. *)
Theorem append_accepts s st e expected key recorded :
  store_ok s -> _replay_locked s None = Ok st -> event_wf e = true -> event_id e ∉ map row_event_id (events_table s) ->
  let n := Z.of_nat (length (events_table s)) + 1 in
  (is_ok (append e expected recorded key s).1 = true <->
     read_only s = false /\ (forall m, expected = Some m -> m = n - 1) /\ (forall k, key = Some k -> k ∉ (idempotency s).*1)
     /\ previous_digest e = (head_of s).2 /\ n < 2 ^ 63 /\ event_version e < 2 ^ 63
     /\ Forall (fun r => digest r <> digest_for e (previous_digest e)) (events_table s)
     /\ is_ok (reduce_event st (norm_event e)) = true)
  /\ forall m s', append e expected recorded key s = (Ok m, s') ->
       m = n /\ events_table s' = events_table s ++ [event_to_row e n recorded (previous_digest e)]
       /\ exists st', reduce_event st (norm_event e) = Ok st' /\ _replay_locked s' None = Ok st'.
Proof.
  intros Hok Hst Hwf Hid n. split; [split|].
  - intros H. destruct (append e expected recorded key s) as [[m|x] s'] eqn:E; [|done]. assert (E' := E).
    apply (append_made s st) in E as [(-> & _ & st' & Hred & _) (Hro & Hkey & Hprev & Hins)]; try done.
    apply insert_event_iff in Hins as (_ & B1 & B2 & Hu). cbn [event_to_row sequence row_event_version digest row_event_id] in *. split_and!; try done; try lia.
    + intros m Hm. rewrite (append_expected _ _ _ _ _ _ _ _ E' Hm), head_of_ok by done. lia.
    + eapply Forall_impl; [exact Hu|]. by intros r (_ & _ & ?).
    + by rewrite Hred.
  - intros (Hro & Hexp & Hkey & Hprev & Hn & Hv & Hdig & Hred). destruct (reduce_event st (norm_event e)) as [st'|] eqn:Er; [|done].
    edestruct (append_goes s st st' e expected key recorded) as (s' & ->); try done.
    + intros m Hm. rewrite (Hexp m Hm). lia.
    + apply insert_event_iff. cbn [event_to_row sequence row_event_version digest row_event_id]. fold n. unfold event_wf in Hwf. bool_hyps.
      split_and!; try done; try lia. rewrite Forall_forall in *. intros r Hr. split_and!; [|intros Ei|by apply Hdig].
      * apply sequence_below in Hr; [lia|done].
      * apply Hid. rewrite <- Ei. apply list_elem_of_In, in_map. by apply list_elem_of_In.
  - intros m s' H. by apply (append_made s st) in H as [H _].
Qed.

(** ** Retries *)

Lemma stored_event_matches e n recorded previous :
  event_wf e = true -> _stored_event_matches_locked (event_to_row e n recorded previous) e = true.
Proof.
  intros Hwf. unfold event_wf in Hwf. bool_hyps. unfold _stored_event_matches_locked.
  cbn [event_to_row payload_json row_event_id row_mission_id row_event_type row_actor_id row_occurred_at
       row_work_id row_attempt_id row_actor_role row_event_version row_previous digest].
  rewrite payload_reads_back by done.
  assert (canonical_bytes (JObj (norm_payload (payload e))) = canonical_bytes (JObj (payload e))) as ->
    by (unfold canonical_bytes, dumps; by rewrite norm_payload_obj, norm_idem).
  rewrite !String.eqb_refl, Z.eqb_refl, !bool_decide_eq_true_2 by done. reflexivity.
Qed.

(** Every entry of a stored batch is found again at its sequence number. *)
Lemma stored_batch_exists s recorded batch n previous :
  store_ok s -> Forall (fun b => event_wf b.1 = true /\ is_Some b.2) batch ->
  batch_rows recorded n previous batch ⊆ events_table s -> batch_keys batch ⊆ idempotency s ->
  map_result (existing_sequence s) batch = Ok (map Some (range_from (n + 1) (length batch))).
Proof.
  intros Hok. revert n previous. induction batch as [|[e key] batch IH]; intros n previous Hb Hrows Hkeys; [done|].
  apply Forall_cons in Hb as [[Hwf [k Hk]] Hb]. cbn [fst snd] in Hwf, Hk. subst key.
  cbn [map_result length]. rewrite range_from_S. cbn [batch_rows] in Hrows. cbn in Hkeys.
  set (r := event_to_row e (n + 1) recorded previous) in *.
  assert (Hr : find_event s (event_id e) = Some r)
    by (apply (find_event_some s r); [apply Hok|apply Hrows; by left]).
  assert (Hlk : lookup_key k (idempotency s) = Some (event_id e))
    by (apply lookup_key_NoDup; [apply Hok|apply Hkeys; by left]).
  unfold existing_sequence at 1. rewrite Hlk, Hr, String.eqb_refl. cbn [require rbind].
  rewrite !bool_decide_eq_true_2 by done. unfold r. rewrite stored_event_matches by done. cbn [andb require rbind].
  rewrite (IH (n + 1) (Some (digest r))); [done|done| |].
  - intros x Hx. apply Hrows. by right.
  - intros x Hx. apply Hkeys. by right.
Qed.

Lemma omap_id_Some (l : list Z) : omap id (map Some l) = l.
Proof. induction l as [|x l IH]; [done|]. cbn. f_equal. exact IH. Qed.

Lemma append_batch_stored s batch recorded n :
  read_only s = false -> batch <> [] -> NoDup (map (fun b => event_id b.1) batch) -> NoDup (omap snd batch) ->
  map_result (existing_sequence s) batch = Ok (map Some (range_from n (length batch))) ->
  append_batch batch None recorded s = (Ok (range_from n (length batch)), s).
Proof.
  intros Hro Hne Hids Hkeys Hex. unfold append_batch. rewrite run_writable, Hro.
  rewrite bool_decide_eq_false_2 by (by intros H%nil_length_inv). rewrite !run_guard. unfold distinct.
  rewrite !bool_decide_eq_true_2 by done. unfold atomic. rewrite run_get. destruct (head_of s).
  rewrite run_guard, run_lift, Hex, omap_id_Some. destruct batch as [|b batch]; [done|].
  assert (Hc : forall l, l = range_from n (length (b :: batch)) -> length l = length (b :: batch))
    by (intros l ->; apply range_from_length).
  destruct (range_from n (length (b :: batch))) as [|m l] eqn:Er; [discriminate Er|].
  specialize (Hc _ eq_refl). rewrite !run_guard, Hc, Nat.eqb_refl.
  assert (m = n) as -> by (cbn [length] in Er; rewrite range_from_S in Er; by injection Er).
  by rewrite bool_decide_eq_true_2.
Qed.

(** A retry is read-only: once a batch whose entries all carry an
    idempotency key has been appended, appending it again returns the same
    sequence numbers and changes nothing, whatever the recorded time. *)
Theorem append_retry_idempotent s batch expected recorded recorded' seqs s' :
  store_ok s -> Forall (fun b => event_wf b.1 = true /\ is_Some b.2) batch ->
  append_batch batch expected recorded s = (Ok seqs, s') ->
  append_batch batch None recorded' s' = (Ok seqs, s').
Proof.
  intros Hok Hb H. pose proof (append_batch_ok _ _ _ _ _ _ Hok H) as Hok'.
  assert (Hro : read_only s = false).
  { unfold append_batch in H. rewrite run_writable in H. destruct (read_only s); [discriminate H|done]. }
  assert (Hkd : batch <> [] -> NoDup (omap snd batch)).
  { intros Hne. unfold append_batch in H. rewrite run_writable, Hro in H.
    rewrite bool_decide_eq_false_2 in H by (by intros E%nil_length_inv). rewrite !run_guard in H.
    destruct (distinct _) in H; [|discriminate H]. destruct (distinct (omap snd batch)) eqn:E in H; [|discriminate H].
    unfold distinct in E. by bool_hyps. }
  apply append_batch_outcome in H.
  inversion H as [|Hnil|n k Hne Hids Hex Hlen|keys ms ws st Hne Hids Hkeys Hro' Hi Hr]; subst.
  - unfold append_batch. by rewrite run_writable, Hro.
  - by apply append_batch_stored; auto.
  - apply append_batch_stored; [done|done|done|done|].
    apply (stored_batch_exists _ recorded batch (head_of s).1 (head_of s).2); [done|done| |].
    + intros x Hx. cbn. apply elem_of_app. by right.
    + apply insert_batch_ok in Hi as (_ & _ & -> & _). intros x Hx. cbn. apply elem_of_app. by right.
Qed.

(** An append is atomic: it raises and leaves the store untouched; or it
    finds every event of the batch stored with the same content and leaves the
    store untouched; or it adds exactly the rows of the batch, chained behind
    the head, at the next sequence numbers.  No stored event is lost or
    changed. *)
Theorem append_batch_atomic s batch expected recorded r s' :
  store_ok s -> append_batch batch expected recorded s = (r, s') ->
  match r with
  | Raise _ => s' = s
  | Ok seqs =>
      length seqs = length batch
      /\ ((s' = s /\ Forall2 (fun b n => exists row, row ∈ events_table s /\ sequence row = n
                                /\ _stored_event_matches_locked row b.1 = true) batch seqs)
          \/ (events_table s' = events_table s ++ batch_rows recorded (head_of s).1 (head_of s).2 batch
              /\ seqs = range_from (Z.of_nat (length (events_table s)) + 1) (length batch)
              /\ snapshots s' = snapshots s))
  end.
Proof.
  intros Hok H. apply append_batch_outcome in H as [e| ->|n k Hne Hids Hex ->|keys ms ws st Hne Hids Hkeys Hro Hi Hr].
  - done.
  - split; [done|]. left. split; [done|constructor].
  - split; [by rewrite range_from_length|]. left. split; [done|]. clear Hne Hids. revert n Hex.
    induction batch as [|[e key] batch IH]; intros n Hex; cbn [length]; [constructor|].
    cbn [length] in Hex. rewrite range_from_S in Hex |- *. cbn [map_result map] in Hex.
    take_ok Hex o Eo. take_ok Hex os Eos. injection Hex as -> ->. constructor; [|by apply IH].
    unfold existing_sequence in Eo. take_guard Eo E1. destruct (find_event s (event_id e)) as [row|] eqn:Ef.
    + take_guard Eo E2. take_guard Eo E3. injection Eo as <-. exists row. split; [|done].
      apply List.find_some in Ef as [Hin _]. by apply list_elem_of_In.
    + take_guard Eo E2. discriminate Eo.
  - split; [by rewrite range_from_length|]. right. cbn. by rewrite (head_of_ok s Hok).
Qed.

(** ** The views *)

(** The views show the state: same missions and work items, same statuses. *)
Record views_match (st : State) (vs : views) : Prop := {
  vm_keys : state_keys st;
  vm_missions_nodup : NoDup vs.1.*1;
  vm_work_nodup : NoDup vs.2.*1;
  vm_missions : forall k, mv_status <$> lookup_key k vs.1 = lookup_key k (missions st);
  vm_work : forall k, view_work <$> lookup_key k vs.2
                      = (fun w => {| w_mission_id := w_mission_id w; w_status := w_status w; evaluation_plan_digest := None;
                                     passed_evaluation_digest := None; evaluation_bundle_digest := None |})
                        <$> lookup_key k (work st) }.

Lemma views_match_step st e st' n vs :
  reduce_row st e = Ok st' -> views_match st vs -> views_match st' (mission_views st' n vs.1, work_views st' n vs.2).
Proof.
  intros H [Hk Hm Hw Hvm Hvw]. apply reduce_row_ok, reduce_event_sound in H.
  pose proof (reduction_keys _ _ _ H Hk) as [Hk1 Hk2]. pose proof (reduction_moves _ _ _ H) as Hmv.
  split; cbn [fst snd].
  - done.
  - by apply (NoDup_upsert (fun m => {| mv_status := m; mv_last_sequence := n; mv_state_digest := state_digest st' |})).
  - by apply (NoDup_upsert (fun w => {| wv_mission_id := w_mission_id w; wv_status := w_status w; wv_last_sequence := n;
                                        wv_state_digest := state_digest st' |})).
  - intros k. unfold mission_views.
    rewrite (lookup_key_upsert (fun m => {| mv_status := m; mv_last_sequence := n; mv_state_digest := state_digest st' |})) by done.
    destruct (Hmv k) as [Hmk _]. specialize (Hvm k).
    destruct (lookup_key k (missions st')) as [m'|]; [done|].
    destruct (lookup_key k (missions st)); [done|exact Hvm].
  - intros k. unfold work_views.
    rewrite (lookup_key_upsert (fun w => {| wv_mission_id := w_mission_id w; wv_status := w_status w; wv_last_sequence := n;
                                            wv_state_digest := state_digest st' |})) by done.
    destruct (Hmv k) as [_ Hwk]. specialize (Hvw k).
    destruct (lookup_key k (work st')) as [w'|]; [done|].
    destruct (lookup_key k (work st)); [done|exact Hvw].
Qed.

Lemma rebuild_views_match previous st vs rows st' vs' :
  rebuild_rows previous st vs rows = Ok (st', vs') -> views_match st vs -> views_match st' vs'.
Proof.
  revert previous st vs. induction rows as [|r rows IH]; intros previous st vs H Hm; cbn in H; [by injection H as <- <-|].
  take_ok H e E. take_ok H st1 E1. eapply IH; [exact H|]. by eapply views_match_step.
Qed.

Lemma views_match_empty : views_match empty_state ([], []).
Proof. split; cbn; try constructor; constructor. Qed.

Lemma store_views s :
  store_ok s -> exists st, _replay_locked s None = Ok st /\ views_match st (mission_projection s, work_projection s).
Proof.
  intros Hok. destruct (ok_views s Hok) as [st Hst]. exists st. split; [by eapply rebuild_replay|].
  eapply rebuild_views_match; [exact Hst|apply views_match_empty].
Qed.

Lemma lookup_sorted_map {A B} (f : A -> B) k (l : list (string * A)) :
  NoDup l.*1 -> lookup_key k (map (fun kv => (kv.1, f kv.2)) (sorted_by fst l)) = f <$> lookup_key k l.
Proof.
  intros Hnd. rewrite lookup_key_map. f_equal. apply lookup_key_perm; [|apply sorted_by_perm].
  by rewrite sorted_by_perm.
Qed.

(** The read model has the missions, and the mission and status of every work
    item, that a replay gives. *)
Lemma projection_agrees s : store_ok s ->
  exists st view, _replay_locked s None = Ok st /\ projection s = Ok view
    /\ (forall k, lookup_key k (missions view) = lookup_key k (missions st))
    /\ forall k, (fun w => (w_mission_id w, w_status w)) <$> lookup_key k (work view)
        = (fun w => (w_mission_id w, w_status w)) <$> lookup_key k (work st).
Proof.
  intros Hok. destruct (store_views s Hok) as (st & Hst & [_ Hm Hw Hvm Hvw]). cbn [fst snd] in *. exists st. unfold projection.
  destruct (read_only s); [by exists st|]. eexists. split; [done|]. split; [reflexivity|]. cbn [missions work].
  split; intros k; rewrite lookup_sorted_map by done; [apply Hvm|]. rewrite (Hvw k), <- option_fmap_compose.
  by destruct (lookup_key k (work st)).
Qed.

(** The read model tells what the events say: on every reachable store,
    writable or read-only, [projection] returns, and a mission or work item
    has in it exactly the status and the mission that a replay of the event
    history gives it. *)
Theorem projection_is_replay ops k :
  let s := run_ops ops fresh_store in
  exists st view, _replay_locked s None = Ok st /\ projection s = Ok view
    /\ lookup_key k (missions view) = lookup_key k (missions st)
    /\ (fun w => (w_mission_id w, w_status w)) <$> lookup_key k (work view)
       = (fun w => (w_mission_id w, w_status w)) <$> lookup_key k (work st).
Proof.
  intros s. destruct (projection_agrees s (reachable_store_ok ops)) as (st & view & H1 & H2 & H3 & H4). by exists st, view.
Qed.

(** ** Snapshots *)

Lemma state_document_wf st : state_keys st -> json_wf (state_document st) = true.
Proof.
  intros [Hm Hw]. unfold state_document. cbn [json_wf map fst forallb snd andb].
  assert (distinct ["missions"; "work"] = true) as -> by reflexivity. unfold distinct. cbn [andb].
  rewrite !andb_true_iff. repeat split; try done.
  - apply bool_decide_eq_true. rewrite map_map. cbn. exact Hm.
  - apply forallb_forall. intros [k v] Hin. apply in_map_iff in Hin as (x & [= <- <-] & _). done.
  - apply bool_decide_eq_true. rewrite map_map. cbn. exact Hw.
  - apply forallb_forall. intros [k v] Hin. apply in_map_iff in Hin as ([k' w] & [= <- <-] & _).
    destruct w as [m st0 [p|] [q|] [b|]]; reflexivity.
Qed.

Lemma replay_rows_keys through previous st rows st' :
  replay_rows through previous st rows = Ok st' -> state_keys st -> state_keys st'.
Proof.
  revert previous st. induction rows as [|r rows IH]; intros previous st H Hk; cbn in H; [by injection H as <-|].
  take_ok H e E. destruct (match through with Some n => n <? sequence r | None => false end); [by injection H as <-|].
  take_ok H st1 E1. eapply IH; [exact H|]. eapply reduction_keys; [|exact Hk]. by apply reduce_event_sound, reduce_row_ok.
Qed.

Lemma empty_state_keys : state_keys empty_state.
Proof. split; constructor. Qed.

(** A snapshot is never believed: whatever rows the snapshot table holds,
    on a reachable store [load_snapshot] returns, what it returns equals the
    replay of a prefix of the event history, and the events are untouched. *)
Theorem snapshots_carry_no_authority ops forged :
  let s := with_snapshots (run_ops ops fresh_store) forged in
  exists snapshot s' through st,
    load_snapshot s = (Ok snapshot, s') /\ events_table s' = events_table s
    /\ _replay_locked s through = Ok st /\ py_eq snapshot (state_document st) = true.
Proof.
  intros s. assert (Hok : store_ok s) by (eapply store_ok_ext; [..|apply (reachable_store_ok ops)]; done).
  destruct (store_views s Hok) as (st & Hst & Hm).
  assert (Hself : py_eq (state_document st) (state_document st) = true)
    by (apply py_eq_refl, state_document_wf, Hm).
  unfold load_snapshot, atomic. rewrite run_get. destruct (verified_snapshot s) as [snapshot|] eqn:Hv.
  - unfold verified_snapshot in Hv. destruct (latest_snapshot (snapshots s)) as [row|]; [|discriminate Hv].
    destruct (loads (state_json row)) as [j|]; [|discriminate Hv].
    destruct (_replay_locked s (Some (sn_sequence row))) as [st1|] eqn:Hr; [|discriminate Hv].
    destruct (String.eqb _ _ && _) eqn:E; [|discriminate Hv]. injection Hv as <-. apply andb_true_iff in E as [_ E].
    by exists j, s, (Some (sn_sequence row)), st1.
  - rewrite run_lift, Hst. destruct (read_only s) eqn:Hro; [by exists (state_document st), s, None, st|].
    rewrite run_bind. destruct (_rebuild_locked s) as [r1 s1] eqn:Hr.
    apply rebuild_locked_keeps in Hr as (-> & st1 & -> & _); [|done].
    rewrite run_bind. destruct (write_snapshot s) as [r2 s2] eqn:Hw.
    assert (exists n, r2 = Ok n) as [n ->].
    { revert Hw. unfold write_snapshot. rewrite run_writable, Hro, run_get, run_lift. unfold projection. rewrite Hro.
      unfold atomic. rewrite run_put. cbn. intros [= <- <-]. by eexists. }
    exists (state_document st), s2, None, st. split; [reflexivity|].
    apply write_snapshot_keeps in Hw as [->|[l ->]]; done.
Qed.

(** Comparing dictionaries compares the entries of every key. *)
Lemma py_eq_obj_lookup l l' k v :
  py_eq (JObj l) (JObj l') = true -> (k, v) ∈ l -> exists v', lookup_key k l' = Some v' /\ py_eq v v' = true.
Proof.
  cbn [py_eq]. intros H Hin. apply andb_true_iff in H as [_ H].
  by apply (proj2 (eq_members_true _ _ _) H) in Hin.
Qed.

Lemma py_eq_obj_length l l' : py_eq (JObj l) (JObj l') = true -> length l = length l'.
Proof. cbn [py_eq]. intros H. apply andb_true_iff in H as [H _]. by apply Nat.eqb_eq. Qed.

Lemma norm_member l k v : (k, v) ∈ l -> exists l', norm (JObj l) = JObj l' /\ (k, norm v) ∈ l'.
Proof.
  intros Hin. eexists. split; [reflexivity|]. apply elem_of_sorted_by.
  apply (list_elem_of_fmap_2 (fun kv : string * json => (kv.1, norm kv.2)) _ _ Hin).
Qed.

(** A stored view of a work item with a sealed plan differs from the state. *)
Lemma view_loses_plan st view k w w' :
  lookup_key k (work st) = Some w -> is_Some (evaluation_plan_digest w) ->
  state_keys st -> (k, view_work w') ∈ work view ->
  py_eq (norm (state_document view)) (state_document st) = false.
Proof.
  intros Hw [p Hp] Hkeys Hin. apply not_true_is_false. intros Heq. unfold state_document in Heq.
  destruct (norm_member [("missions", JObj (map (fun kv => (kv.1, JStr (mission_value kv.2))) (missions view)));
                         ("work", JObj (map (fun kv => (kv.1, work_document kv.2)) (work view)))]
              "work" (JObj (map (fun kv => (kv.1, work_document kv.2)) (work view)))) as (l & El & Hl); [by right; left|].
  rewrite El in Heq. destruct (py_eq_obj_lookup _ _ _ _ Heq Hl) as (v' & Hv' & Heq'). cbn in Hv'. injection Hv' as <-.
  destruct (norm_member (map (fun kv => (kv.1, work_document kv.2)) (work view)) k (work_document (view_work w')))
    as (l2 & El2 & Hl2).
  { apply (list_elem_of_fmap_2 (fun kv => (kv.1, work_document kv.2)) _ _ Hin). }
  rewrite El2 in Heq'. destruct (py_eq_obj_lookup _ _ _ _ Heq' Hl2) as (v2 & Hv2 & Heq2).
  rewrite (lookup_key_map work_document), Hw in Hv2. injection Hv2 as <-.
  unfold work_document in Heq2. rewrite Hp in Heq2.
  cbn [norm] in Heq2. apply py_eq_obj_length in Heq2. rewrite sorted_by_perm in Heq2. cbn in Heq2.
  rewrite length_app in Heq2. lia.
Qed.

Lemma latest_snapshot_app l sn :
  Forall (fun x => sn_sequence x < sn_sequence sn) l -> latest_snapshot (l ++ [sn]) = Some sn.
Proof.
  unfold latest_snapshot. rewrite fold_left_app. cbn. intros H.
  assert (G : forall acc, (forall b, acc = Some b -> sn_sequence b < sn_sequence sn) ->
    forall b, fold_left (fun best x => match best with
                           | Some b => if sn_sequence b <? sn_sequence x then Some x else best
                           | None => Some x end) l acc = Some b -> sn_sequence b < sn_sequence sn).
  { induction H as [|x l Hx _ IH]; intros acc Hacc b Hb; [by apply Hacc|]. cbn in Hb. eapply IH; [|exact Hb].
    intros b' Hb'. destruct acc as [a|]; [|by injection Hb' as <-].
    destruct (_ <? _); [by injection Hb' as <-|by apply Hacc]. }
  destruct (fold_left _ l None) as [b|] eqn:E; [|done].
  assert (sn_sequence b < sn_sequence sn) as Hlt by (eapply (G None); [done|exact E]).
  apply Z.ltb_lt in Hlt. by rewrite Hlt.
Qed.

Lemma max_sequence_bound s r : r ∈ events_table s -> sequence r <= max_sequence s.
Proof.
  unfold max_sequence. induction (events_table s) as [|x l IH]; intros Hin; [by apply elem_of_nil in Hin|].
  cbn. apply elem_of_cons in Hin as [->|Hin]; [lia|]. specialize (IH Hin). lia.
Qed.

Lemma replay_rows_through n previous st rows :
  Forall (fun r => sequence r <= n) rows -> replay_rows (Some n) previous st rows = replay_rows None previous st rows.
Proof.
  intros H. revert previous st. induction H as [|r rows Hr _ IH]; intros previous st; [done|]. cbn.
  destruct (verify_row previous r); [|done]. cbn. assert (n <? sequence r = false) as -> by (by apply Z.ltb_ge).
  destruct (reduce_row st _); [|done]. cbn. apply IH.
Qed.

Lemma projection_keys s st :
  store_ok s -> projection s = Ok st -> state_keys st.
Proof.
  intros Hok. destruct (store_views s Hok) as (st0 & Hst & [Hk Hm Hw _ _]). unfold projection.
  destruct (read_only s); [intros H; eapply replay_rows_keys; [exact H|apply empty_state_keys]|].
  intros [= <-]. cbn [fst snd] in *. split; cbn [missions work].
  - change (map ?f ?l) with (f <$> l). rewrite <- list_fmap_compose.
    change (NoDup (fst <$> sorted_by fst (mission_projection s))). by rewrite sorted_by_perm.
  - change (map ?f ?l) with (f <$> l). rewrite <- list_fmap_compose.
    change (NoDup (fst <$> sorted_by fst (work_projection s))). by rewrite sorted_by_perm.
Qed.

(** The snapshot [write_snapshot] stores holds the read model, which leaves
    out the evaluation record of every work item, while [load_snapshot]
    demands equality with the full replayed state: once a work item has a
    sealed evaluation plan, the newest snapshot is rejected and the whole
    history is replayed, on every load. *)
Theorem snapshot_unusable_after_plan ops st k w :
  let s := run_ops ops fresh_store in
  read_only s = false -> _replay_locked s None = Ok st ->
  lookup_key k (work st) = Some w -> is_Some (evaluation_plan_digest w) ->
  Forall (fun x => sn_sequence x <= max_sequence s) (snapshots s) ->
  exists n s', write_snapshot s = (Ok n, s') /\ verified_snapshot s' = None.
Proof.
  intros s Hro Hst Hw Hp Hsn. assert (Hok : store_ok s) by apply reachable_store_ok.
  destruct (store_views s Hok) as (st0 & Hst0 & Hvm). rewrite Hst in Hst0. injection Hst0 as <-.
  destruct (projection s) as [view|e] eqn:Hpr; [|unfold projection in Hpr; by rewrite Hro in Hpr].
  pose proof (projection_keys s view Hok Hpr) as Hkv.
  unfold write_snapshot. rewrite run_writable, Hro, run_get, run_lift, Hpr. unfold atomic. rewrite run_put.
  eexists _, _. split; [reflexivity|]. unfold verified_snapshot. cbn [with_snapshots snapshots].
  unfold put_snapshot. rewrite latest_snapshot_app.
  2: { apply Forall_forall. intros x Hx. apply list_elem_of_In, filter_In in Hx as [Hx Hne].
       apply list_elem_of_In in Hx. rewrite Forall_forall in Hsn. specialize (Hsn x Hx). bool_hyps. cbn in *. lia. }
  cbn [snapshot_of state_json sn_sequence sn_state_digest].
  unfold canonical_bytes at 1. rewrite loads_dumps_norm by (by apply state_document_wf).
  assert (_replay_locked (with_snapshots s (List.filter (fun x => negb (Z.eqb (sn_sequence x) (max_sequence s))) (snapshots s)
            ++ [snapshot_of view (max_sequence s)])) (Some (max_sequence s)) = Ok st) as Hr.
  { rewrite <- Hst. apply replay_rows_through, Forall_forall. intros r Hin. by apply max_sequence_bound. }
  rewrite Hr. destruct Hvm as [Hk _ Hwn _ Hvw]. cbn [fst snd] in *. specialize (Hvw k). rewrite Hw in Hvw.
  destruct (lookup_key k (work_projection s)) as [v|] eqn:Hv; [|discriminate Hvw].
  rewrite (view_loses_plan st view k w v); [by rewrite andb_false_r|done|done|done|].
  unfold projection in Hpr. rewrite Hro in Hpr. injection Hpr as <-. cbn [work].
  apply lookup_key_in in Hv. rewrite <- (elem_of_sorted_by fst) in Hv.
  apply (list_elem_of_fmap_2 (fun kv => (kv.1, view_work kv.2)) _ _ Hv).
Qed.

(** ** Sample stores *)

Module Sample.

(** Chain a list of events behind a head. *)
Fixpoint link (previous : option string) (evs : list KernelEvent) : list KernelEvent :=
  match evs with
  | [] => []
  | e :: rest =>
      let e' := {| event_id := event_id e; mission_id := mission_id e; event_type := event_type e;
                   actor_id := actor_id e; occurred_at := occurred_at e; payload := payload e; work_id := work_id e;
                   attempt_id := attempt_id e; event_actor_role := event_actor_role e;
                   event_version := event_version e; previous_digest := previous |} in
      e' :: link (Some (digest_for e' previous)) rest
  end.
Definition stamp : string := "1970-01-01T00:00:00Z".
Definition keyed (evs : list KernelEvent) : list (KernelEvent * option string) :=
  map (fun e => (e, Some (event_id e))) evs.

Definition first : KernelEvent := Projection.Sample.event 1 "mission.created" "owner" "orchestrator" [].
Definition planned_batch : list (KernelEvent * option string) := Eval vm_compute in
  keyed (link None Projection.Sample.planned).
Definition planned_ops : list op := [Append planned_batch (Some 0) stamp].
Definition planned_store : store := run_ops planned_ops fresh_store.
Definition planned_state : State := Eval vm_compute in
  match _replay_locked planned_store None with Ok st => st | Raise _ => empty_state end.
Definition planned_work : work_entry :=
  {| w_mission_id := "MISSION-1"; w_status := W_RUNNING;
     evaluation_plan_digest := Some Projection.Sample.plan_digest;
     passed_evaluation_digest := None; evaluation_bundle_digest := None |}.

End Sample.

Lemma append_accepts_witness :
  exists s', append Sample.first (Some 0) Sample.stamp (Some "K1") fresh_store = (Ok 1, s')
    /\ _replay_locked s' None = Ok (put_mission empty_state "MISSION-1" M_CREATED).
Proof.
  destruct (append_accepts fresh_store empty_state Sample.first (Some 0) (Some "K1") Sample.stamp) as [H1 H2];
    [apply fresh_store_ok|reflexivity|vm_compute; reflexivity|apply not_elem_of_nil|].
  assert (H : is_ok (append Sample.first (Some 0) Sample.stamp (Some "K1") fresh_store).1 = true).
  { apply H1. split_and!; try reflexivity; [by intros m [= <-]|intros k _; apply not_elem_of_nil|constructor]. }
  destruct (append _ _ _ _ _) as [[m|x] s'] eqn:E; [|done]. destruct (H2 m s' eq_refl) as (-> & _ & st' & Hr & H3).
  exists s'. split; [reflexivity|]. rewrite H3. rewrite <- Hr. reflexivity.
Defined.

Lemma append_retry_idempotent_witness :
  let batch := Sample.keyed [Sample.first] in
  exists seqs s', append_batch batch (Some 0) Sample.stamp fresh_store = (Ok seqs, s')
    /\ append_batch batch None "2030-01-01T00:00:00Z" s' = (Ok seqs, s').
Proof.
  intros batch.
  exists (default [] (match (append_batch batch (Some 0) Sample.stamp fresh_store).1 with Ok l => Some l | _ => None end)),
         (append_batch batch (Some 0) Sample.stamp fresh_store).2.
  split; [vm_compute; reflexivity|].
  apply (append_retry_idempotent fresh_store batch (Some 0) Sample.stamp).
  - apply fresh_store_ok.
  - repeat constructor. by eexists.
  - vm_compute. reflexivity.
Defined.

Lemma append_batch_atomic_witness :
  (append_batch (Sample.keyed [Sample.first]) (Some 7) Sample.stamp fresh_store).2 = fresh_store.
Proof.
  apply (append_batch_atomic fresh_store (Sample.keyed [Sample.first]) (Some 7) Sample.stamp
           (raise KernelIntegrityError "optimistic sequence check failed")).
  - apply fresh_store_ok.
  - vm_compute. reflexivity.
Defined.

Lemma snapshot_unusable_after_plan_witness :
  exists n s', write_snapshot Sample.planned_store = (Ok n, s') /\ verified_snapshot s' = None.
Proof.
  apply (snapshot_unusable_after_plan Sample.planned_ops Sample.planned_state "WORK-1" Sample.planned_work);
    [vm_compute; reflexivity|vm_compute; reflexivity|vm_compute; reflexivity|by eexists|].
  assert (snapshots (run_ops Sample.planned_ops fresh_store) = []) as -> by (vm_compute; reflexivity). constructor.
Defined.

End KernelStore.
