(* ===== verification/Verification.v ===== *)
(** * Exact-candidate verification

    [brain_kernel/verification.py]: snapshots of directory trees, the sealed
    evaluation plan, the verification of one candidate with its evidence bundle,
    and acceptance.  A directory is what the sorted walk of it yields; the bundles
    of a machine are a map from their directories to the text of
    [verification.json].  The check runner is host code, a parameter: it may
    raise, and it may change the candidate.  The log is one the reducer has
    admitted, so that the members of a stored plan and base are objects. *)

From S2P Require Import Prelude Sha256 Canonical JsonLines PyLib Schema Contracts Projection KernelStore.
From Stdlib Require Import Ascii.

Module Verification.
Export KernelStore.

Definition _ZERO_SHA : string := String.concat "" (replicate 40 "0").
Definition _TIME : string := "1970-01-01T00:00:00Z".
Definition zero_digest : string := ("sha256:" +:+ String.concat "" (replicate 64 "0"))%stdpp.
Definition refused {A} (m : string) : result A := raise ExactCandidateVerificationError m.

(** ** Trees *)

Inductive entry := File (bytes : string) | Symlink | Other.
Inductive root := LinkedRoot | MissingRoot | Tree (entries : list (string * entry)).

(** [bytes.hex()] *)
Fixpoint hex_bytes (s : string) : string :=
  match s with
  | EmptyString => EmptyString
  | String a s' => String (hex_digit (Z.of_N (code a) / 16)) (String (hex_digit (Z.of_N (code a))) (hex_bytes s'))
  end.

Record TreeSnapshot := { root_digest : string; files : contract }.
Definition files_digest (fs : contract) : string := canonical_digest (JObj [("files", JObj fs)]).

Definition snapshot_entry (fs : contract) (e : string * entry) : result contract :=
  match e.2 with
  | Symlink => refused "candidate tree contains a symbolic link"
  | Other => Ok fs
  | File bytes =>
      if mem ".git" (split_on "/" e.1) then Ok fs
      else
        let? relative := normalize_portable_path (JStr e.1) in
        Ok (dict_set relative (JStr (canonical_digest (JObj [("bytes", JStr (hex_bytes bytes))]))) fs)
  end.
Definition snapshot_tree (r : root) : result TreeSnapshot :=
  match r with
  | LinkedRoot => refused "candidate tree root is a symbolic link"
  | MissingRoot => refused "candidate tree is unavailable"
  | Tree entries =>
      let? fs := rfold snapshot_entry [] entries in
      Ok {| root_digest := files_digest fs; files := fs |}
  end.
(** [asdict(snapshot)] *)
Definition snapshot_document (t : TreeSnapshot) : json := JObj [("root_digest", JStr (root_digest t)); ("files", JObj (files t))].

(** [==] on snapshots *)
Definition same_tree (a b : TreeSnapshot) : bool := String.eqb (root_digest a) (root_digest b) && py_eq (JObj (files a)) (JObj (files b)).

(** ** Plans and results

    An [EvaluationPlan] and an [EvaluationResult] are their fields. *)

Definition evaluation_plan_digest_of (plan : contract) : string := canonical_digest (JObj (pop_key "plan_digest" plan)).
Definition evaluation_result_digest (r : contract) : string := canonical_digest (JObj (pop_key "result_digest" r)).

Definition create_evaluation_plan (plan_id : string) (base_root : root) (acceptance_commands allowed_paths : list string) : result contract :=
  let? base := snapshot_tree base_root in
  let? budget := budget_of (JObj (zip budget_fields (map JInt [0; 0; 0; 0; 0; Z.of_nat (length acceptance_commands); 1; 1]))) in
  let? provisional := check_evaluation_plan
    [("plan_id", JStr plan_id); ("base_commit", JStr _ZERO_SHA); ("base_tree_digest", JStr (root_digest base));
     ("acceptance_commands", strs acceptance_commands); ("environment_requirements", strs ["local-only"]);
     ("allowed_test_paths", strs allowed_paths); ("test_digests", strs []); ("security_checks", strs ["bundle-integrity"]);
     ("contamination_checks", strs ["candidate-mutation"; "path-scope"]);
     ("evaluator_requirements", strs ["distinct-builder-curator"]); ("evidence_bundle_format", JStr "kernel-verification-bundle-v1");
     ("pass_fail_abstain_rules", strs ["passed-only-acceptance"; "abstain-is-not-pass"]); ("regression_budget", budget);
     ("state", JStr (evaluation_value E_SEALED)); ("plan_digest", JStr zero_digest)] in
  check_evaluation_plan (set_key "plan_digest" (JStr (evaluation_plan_digest_of provisional)) provisional).

(** ** Events of the log *)

Definition record : Type := event_row * KernelEvent.

(** An event these modules append: [KernelEvent(...)] at [_TIME]. *)
Definition local_event (id mission kind actor : string) (body : contract) (work : option string) (role : string) (previous : option string)
    : result KernelEvent :=
  check_event (fun fields =>
    {| event_id := id; mission_id := mission; event_type := kind; actor_id := actor; occurred_at := _TIME; payload := fields;
       work_id := work; attempt_id := None; event_actor_role := Some role; event_version := 1; previous_digest := previous |}) (JObj body).

(** [events[-1]["digest"] if events else None] *)
Definition head_of_events (events : list record) : option string := option_map (fun r => digest r.1) (last events).
Definition read_events : M store (list record) := fun s => (list_events s, s).

(** [event["payload"].get(outer, {}).get(inner)] *)
Definition nested (outer inner : string) (e : KernelEvent) : result json :=
  match lookup_key outer (payload e) with
  | None => Ok JNull
  | Some (JObj d) => Ok (get inner d)
  | Some _ => raise AttributeError "object has no attribute 'get'"
  end.

Definition about_work (k : string) (e : KernelEvent) : bool := bool_decide (work_id e = Some k).
(** The records of a kind about a work item whose nested digest is [d]. *)
Fixpoint records_with (kind k outer inner d : string) (events : list record) : result (list record) :=
  match events with
  | [] => Ok []
  | r :: rs =>
      let? here := (if String.eqb (event_type r.2) kind && about_work k r.2 then let? v := nested outer inner r.2 in Ok (py_eq v (JStr d)) else Ok false) in
      let? rest := records_with kind k outer inner d rs in
      Ok (if here then r :: rest else rest)
  end.

(** The mission of the first event about a work item. *)
Definition mission_of_work (k : string) (events : list record) : option string :=
  option_map (fun r => mission_id r.2) (List.find (fun r => about_work k r.2) events).

(** ** Sealing a plan *)

Definition seal_evaluation_plan (k : string) (plan : contract) (base_root : root) (actor recorded : string) : M store Z :=
  guardM (py_eq (get "state" plan) (JStr (evaluation_value E_SEALED)) && py_eq (get "plan_digest" plan) (JStr (evaluation_plan_digest_of plan)))
    ExactCandidateVerificationError "evaluation plan is not canonically sealed" ;*
  let* base := liftR (snapshot_tree base_root) in
  guardM (py_eq (get "base_tree_digest" plan) (JStr (root_digest base)))
    ExactCandidateVerificationError "evaluation base does not match the sealed plan" ;*
  let* events := read_events in
  guardM (negb (bool_decide (length events = 0%nat))) ExactCandidateVerificationError "evaluation plan requires a kernel mission" ;*
  match mission_of_work k events with
  | None => liftR (refused "evaluation plan belongs to unknown work")
  | Some mission =>
      let* e := liftR (local_event ("evaluation-plan:" +:+ evaluation_plan_digest_of plan)%stdpp mission "evaluation.plan.sealed" actor
                         [("plan", JObj plan); ("base", snapshot_document base)] (Some k) "architect" (head_of_events events)) in
      append e None recorded (Some (evaluation_plan_digest_of plan))
  end.

(** [_require_sealed_plan]: the base the plan was sealed with. *)
Definition _require_sealed_plan (k : string) (plan : contract) (events : list record) : result TreeSnapshot :=
  require (py_eq (get "plan_digest" plan) (JStr (evaluation_plan_digest_of plan))) ExactCandidateVerificationError "evaluation plan digest is invalid" ;?
  let? matches := records_with "evaluation.plan.sealed" k "plan" "plan_digest" (evaluation_plan_digest_of plan) events in
  match matches with
  | [m] =>
      match get "base" (payload m.2) with
      | JObj document =>
          match lookup_key "root_digest" document, lookup_key "files" document with
          | Some (JStr d), Some (JObj fs) =>
              require (py_eq (get "base_tree_digest" plan) (JStr d) && String.eqb d (files_digest fs))
                ExactCandidateVerificationError "sealed plan base manifest is invalid" ;?
              Ok {| root_digest := d; files := fs |}
          | Some _, Some (JObj _) => refused "sealed plan base manifest is invalid"
          | _, _ => refused "sealed plan base manifest is malformed"
          end
      | _ => refused "sealed plan has no base manifest"
      end
  | _ => refused "evaluation plan was not sealed for this work"
  end.

(** ** Verifying a candidate *)

(** What a verification works on: the event store, the candidate's directory,
    and the bundles published so far. *)
Record workshop := { w_store : store; w_candidate : root; w_bundles : gmap string string }.
Definition with_store (w : workshop) (s : store) : workshop := {| w_store := s; w_candidate := w_candidate w; w_bundles := w_bundles w |}.
Definition with_candidate (w : workshop) (r : root) : workshop := {| w_store := w_store w; w_candidate := r; w_bundles := w_bundles w |}.
Definition with_bundles (w : workshop) (b : gmap string string) : workshop := {| w_store := w_store w; w_candidate := w_candidate w; w_bundles := b |}.
Definition on_store {A} (m : M store A) : M workshop A := fun w => let '(r, s) := m (w_store w) in (r, with_store w s).

(** [set(base.files) | set(candidate.files)], sorted, where they differ. *)
Definition changed_paths_of (base candidate : contract) : list string :=
  List.filter (fun p => negb (py_eq (get p base) (get p candidate))) (sorted_str (dedup (base.*1 ++ candidate.*1))).

(** The loop over the acceptance commands.  The runner sees the directory as
    earlier commands left it; [None]: it raised. *)
Section Run.
Context (check_runner : string -> root -> option bool * root).

Fixpoint run_checks (commands : list string) : M workshop (list (string * bool)) := fun w =>
  match commands with
  | [] => (Ok [], w)
  | c :: cs =>
      let '(answer, r) := check_runner c (w_candidate w) in
      let matched := match answer with Some b => b | None => false end in
      (let* rest := run_checks cs in ret ((c, matched) :: rest)) (with_candidate w r)
  end.

Definition check_text (x : string * bool) : string := (x.1 +:+ ":" +:+ (if x.2 then "passed" else "failed"))%stdpp.

Definition bundle_body (plan : contract) (base candidate : TreeSnapshot) (changed : list string) (r : contract) : contract :=
  [("schema_version", JInt 1); ("plan", JObj plan); ("base", snapshot_document base); ("candidate", snapshot_document candidate);
   ("changed_paths", strs changed); ("result", JObj r)].
(** [_publish_bundle] *)
Definition _publish_bundle (destination : string) (plan : contract) (base candidate : TreeSnapshot) (changed : list string) (r : contract)
    : M workshop unit := fun w =>
  match w_bundles w !! destination with
  | Some _ => (refused "verification bundle destination already exists", w)
  | None =>
      let body := bundle_body plan base candidate changed r in
      let document := body ++ [("bundle_digest", JStr (canonical_digest (JObj body)))] in
      (Ok tt, with_bundles w (<[destination := (canonical_bytes (JObj document) +:+ newline)%stdpp]> (w_bundles w)))
  end.

Record VerificationOutcome := { vo_result : contract; vo_bundle_path : string; vo_changed_paths : list string }.

(** The acceptance commands and the allowed paths of a plan; its fields are
    tuples of strings. *)
Definition strings_of (v : json) : list string := match v with JList l => omap as_str l | _ => [] end.

Definition verify_exact_candidate (k : string) (plan : contract) (builder_id evaluator_id bundle_directory recorded : string)
    : M workshop VerificationOutcome :=
  guardM (negb (String.eqb builder_id "") && negb (String.eqb evaluator_id "") && negb (String.eqb builder_id evaluator_id))
    ExactCandidateVerificationError "Builder and Curator identities must differ" ;*
  let* events := on_store read_events in
  let* base := liftR (_require_sealed_plan k plan events) in
  let* w := getM in
  let* candidate := liftR (snapshot_tree (w_candidate w)) in
  let changed := changed_paths_of (files base) (files candidate) in
  let scope_valid := Contracts.subset changed (strings_of (get "allowed_test_paths" plan)) in
  let* checks := run_checks (strings_of (get "acceptance_commands" plan)) in
  let* w := getM in
  let* after := liftR (snapshot_tree (w_candidate w)) in
  let unchanged := same_tree after candidate in
  let passed := scope_valid && forallb snd checks && unchanged in
  let texts := map check_text checks ++ (if unchanged then [] else ["candidate-mutation:failed"]) in
  let* provisional := liftR (evaluation_result_of
    [("plan_digest", JStr (evaluation_plan_digest_of plan)); ("candidate_digest", JStr (root_digest candidate)); ("evaluator_id", JStr evaluator_id);
     ("state", JStr (evaluation_value (if passed then E_PASSED else E_FAILED))); ("check_results", strs texts);
     ("evidence_refs", strs ["bundle:verification.json"]); ("result_digest", JStr zero_digest)]) in
  let d := evaluation_result_digest provisional in
  let* r := liftR (evaluation_result_of (set_key "result_digest" (JStr d) provisional)) in
  _publish_bundle bundle_directory plan base candidate changed r ;*
  let* events := on_store read_events in
  match mission_of_work k events with
  | None => liftR (refused "work is not recorded in the kernel spine")
  | Some mission =>
      let* e := liftR (local_event ("evaluation-result:" +:+ d)%stdpp mission "evaluation.result" evaluator_id [("result", JObj r)] (Some k)
                         "curator" (head_of_events events)) in
      on_store (append e None recorded (Some d)) ;*
      ret {| vo_result := r; vo_bundle_path := bundle_directory; vo_changed_paths := changed |}
  end.
End Run.

(** ** Acceptance *)

Definition accept_verified_work (k : string) (r : contract) (actor recorded : string) : M store Z :=
  guardM (py_eq (get "state" r) (JStr (evaluation_value E_PASSED))) ExactCandidateVerificationError "only a passed evaluation may accept work" ;*
  let* events := read_events in
  let* recorded_results := liftR (records_with "evaluation.result" k "result" "result_digest" (str_field "result_digest" r) events) in
  guardM (negb (bool_decide (length recorded_results = 0%nat))) ExactCandidateVerificationError "evaluation result is not recorded for this work" ;*
  match mission_of_work k events with
  | None => liftR (refused "work is not recorded in the kernel spine")
  | Some mission =>
      let* e := liftR (local_event ("work-accepted:" +:+ k +:+ ":" +:+ str_field "result_digest" r)%stdpp mission "work.transition" actor
                         [("status", JStr "ACCEPTED"); ("evaluation_result_digest", JStr (str_field "result_digest" r))] (Some k) "integrator"
                         (head_of_events events)) in
      append e None recorded None
  end.

(** ** Bundles *)

(** [dict(value)] of a JSON value, whose keys may be any hashable value. *)
Definition dict_put (k v : json) (d : list (json * json)) : list (json * json) :=
  if existsb (fun kv => py_eq kv.1 k) d then map (fun kv => if py_eq kv.1 k then (kv.1, v) else kv) d else d ++ [(k, v)].
Definition dict_of (value : json) : result (list (json * json)) :=
  match value with
  | JObj d => Ok (map (fun kv => (JStr kv.1, kv.2)) d)
  | JList l =>
      rfold (fun d x =>
        let? parts := tuple_of x in
        match parts with
        | [k; v] => require (hashable k) TypeError "unhashable type" ;? Ok (dict_put k v d)
        | _ => raise ValueError "dictionary update sequence element has the wrong length"
        end) [] l
  | JStr s => require (String.eqb s "") ValueError "dictionary update sequence element has the wrong length" ;? Ok []
  | _ => raise TypeError "object is not iterable"
  end.
(** The keyword arguments a dictionary stands for. *)
Definition keywords (d : list (json * json)) : result contract :=
  map_result (fun kv => match kv.1 with JStr k => Ok (k, kv.2) | _ => raise TypeError "keywords must be strings" end) d.
(** [values[key] = tuple(values[key])] *)
Definition tuple_member (d : list (json * json)) (key : string) : result (list (json * json)) :=
  match List.find (fun kv => py_eq kv.1 (JStr key)) d with
  | None => raise KeyError key
  | Some kv => let? l := tuple_of kv.2 in Ok (dict_put (JStr key) (JList l) d)
  end.

(** [verify_bundle] on the text of the file; [None] when it cannot be read. *)
Definition corrupt {A} : result A := refused "verification bundle is corrupt".
Definition verify_bundle (text : option string) : result unit :=
  match text with
  | None => corrupt
  | Some t =>
      match loads t with
      | Some (JObj document) =>
          match lookup_key "bundle_digest" document, lookup_key "result" document with
          | Some claimed, Some r =>
              require (py_eq claimed (JStr (canonical_digest (JObj (pop_key "bundle_digest" document)))))
                ExactCandidateVerificationError "verification bundle digest is invalid" ;?
              let? values := dict_of r in
              let? values := rfold tuple_member values ["check_results"; "evidence_refs"] in
              let? restored := wrap [TypeError; ValueError] ExactCandidateVerificationError "verification result is corrupt"
                                 (let? kw := keywords values in evaluation_result_of kw) in
              require (py_eq (get "result_digest" restored) (JStr (evaluation_result_digest restored)))
                ExactCandidateVerificationError "verification result digest is invalid"
          | _, _ => corrupt
          end
      | Some (JList _) | None => corrupt
      | Some _ => raise AttributeError "object has no attribute 'pop'"
      end
  end.

(** ** A published bundle verifies *)

Lemma norm_members l : norm (JObj (map (fun kv => (kv.1, norm kv.2)) l)) = norm (JObj l).
Proof.
  cbn [norm]. do 2 f_equal. rewrite List.map_map. apply map_ext. intros kv. cbn. by rewrite norm_idem.
Qed.

Lemma pop_key_map {A B} (f : A -> B) k (l : list (string * A)) : pop_key k (map (fun kv => (kv.1, f kv.2)) l) = map (fun kv => (kv.1, f kv.2)) (pop_key k l).
Proof. unfold pop_key. induction l as [|[k' v] l IH]; [done|]. cbn. destruct (String.eqb k' k); cbn; by rewrite IH. Qed.

(** A stored object and the one it was written from: their digests with a
    member taken out, and their members. *)
Lemma stored_without t d k : NoDup t.*1 -> norm (JObj t) = JObj d ->
  canonical_digest (JObj (pop_key k d)) = canonical_digest (JObj (pop_key k t)).
Proof.
  intros Hn E. destruct (norm_obj_members t) as (d' & E' & Hp). rewrite E in E'. injection E' as <-.
  destruct (stored_members t d Hn E) as [_ Hk]. unfold canonical_digest. do 2 f_equal.
  rewrite (canonical_perm (pop_key k d) (pop_key k (map (fun kv => (kv.1, norm kv.2)) t))).
  - rewrite pop_key_map. unfold canonical_bytes, dumps. by rewrite norm_members.
  - apply pop_key_NoDup. by rewrite Hk.
  - by apply pop_key_perm.
Qed.

(** The keyword arguments of an object without conversions are the object. *)
Definition keyed_by_text (d : contract) : list (json * json) := map (fun kv => (JStr kv.1, kv.2)) d.

Lemma keywords_text d : keywords (keyed_by_text d) = Ok d.
Proof.
  induction d as [|[k v] d IH]; [done|]. unfold keywords in *. cbn [keyed_by_text map map_result fst snd rbind]. by setoid_rewrite IH.
Qed.

Lemma find_text key d : List.find (fun kv => py_eq kv.1 (JStr key)) (keyed_by_text d) = (fun v => (JStr key, v)) <$> lookup_key key d.
Proof.
  induction d as [|[k v] d IH]; [done|]. rewrite lookup_key_cons. cbn. 
  destruct (String.eqb_spec k key) as [->|]; [done|exact IH].
Qed.

Lemma tuple_member_list d key l : NoDup d.*1 -> lookup_key key d = Some (JList l) -> tuple_member (keyed_by_text d) key = Ok (keyed_by_text d).
Proof.
  intros Hn Hl. unfold tuple_member. rewrite find_text, Hl. cbn [fmap option_fmap option_map snd tuple_of rbind]. f_equal. unfold dict_put.
  replace (existsb _ (keyed_by_text d)) with true.
  - unfold keyed_by_text. rewrite List.map_map. apply map_ext_in. intros [k v] Hin%list_elem_of_In. cbn.
    destruct (String.eqb_spec k key) as [->|]; [|done]. apply (lookup_key_NoDup _ _ _ Hn) in Hin. congruence.
  - symmetry. apply existsb_exists. exists (JStr key, JList l). split; [|apply String.eqb_refl]. apply in_map_iff. exists (key, JList l).
    split; [done|]. by apply list_elem_of_In, lookup_key_in.
Qed.

Lemma evaluation_result_fields_of vals r : evaluation_result_of vals = Ok r -> r = map (fun k => (k, get k vals)) evaluation_result_fields.
Proof.
  unfold evaluation_result_of, construct. intros H. take_ok H r0 E. take_guard E E1. injection E as <-. take_ok H u E2. take_ok H u2 E3. by injection H as <-.
Qed.

Lemma fields_NoDup : NoDup evaluation_result_fields.
Proof. apply (bool_decide_unpack (NoDup evaluation_result_fields)). vm_compute. exact I. Qed.

Lemma evaluation_result_keys vals r : evaluation_result_of vals = Ok r -> r.*1 = evaluation_result_fields.
Proof. intros ->%evaluation_result_fields_of. change (map ?f ?l) with (f <$> l). rewrite <- list_fmap_compose. apply list_fmap_id. Qed.

Lemma get_of_fields k vals fields : k ∈ fields -> get k (map (fun k => (k, get k vals)) fields) = get k vals.
Proof.
  unfold get at 1. induction fields as [|k' fields IH]; [by intros ?%elem_of_nil|]. cbn [map]. rewrite lookup_key_cons.
  destruct (String.eqb_spec k' k) as [->|]; [done|]. intros [->|Hin]%elem_of_cons; [done|]. by apply IH.
Qed.

(** Reconstructing a result from its members gives it again. *)
Lemma evaluation_result_again vals r r' : evaluation_result_of vals = Ok r -> r' ≡ₚ r -> evaluation_result_of r' = Ok r.
Proof.
  intros H Hp. assert (Hk := evaluation_result_keys _ _ H). assert (Hf := evaluation_result_fields_of _ _ H).
  assert (Hn : NoDup r'.*1) by (rewrite Hp, Hk; apply fields_NoDup).
  assert (Hg : forall k, k ∈ evaluation_result_fields -> get k r' = get k vals).
  { intros k Hin. unfold get. rewrite (lookup_key_perm k r' r Hn Hp). change (default JNull (lookup_key k r)) with (get k r). rewrite Hf. by apply get_of_fields. }
  assert (Hc : construct evaluation_result_fields r' = Ok r).
  { unfold construct. rewrite (proj2 (andb_true_iff _ _)).
    - cbn [require rbind]. f_equal. rewrite Hf. apply map_ext_in. intros k Hin%list_elem_of_In. by rewrite Hg.
    - split; apply forallb_forall.
      + intros kv Hin%list_elem_of_In. apply mem_spec. rewrite <- Hk, <- Hp. by apply list_elem_of_fmap_2.
      + intros k Hin%list_elem_of_In. apply has_elem. by rewrite Hp, Hk. }
  unfold evaluation_result_of in *. rewrite Hc. take_ok H r0 E. cbn [rbind]. assert (r0 = r) as -> by (take_ok H u E1; take_ok H u2 E2; by injection H as ->). exact H.
Qed.

Definition plain_members (r : contract) : Prop := forall k v, (k, v) ∈ r -> json_wf v = true /\ norm v = v.

Lemma plain_stored r d : NoDup r.*1 -> plain_members r -> norm (JObj r) = JObj d -> d ≡ₚ r.
Proof.
  intros Hn Hr E. destruct (stored_members r d Hn E) as [Hg Hk]. apply same_members_perm; [done..|]. intros k. rewrite Hg. unfold get.
  destruct (lookup_key k r) as [v|] eqn:El; [|done]. apply lookup_key_in in El. by apply (Hr k).
Qed.

Definition bundle_document (body : contract) : contract := body ++ [("bundle_digest", JStr (canonical_digest (JObj body)))].
Definition bundle_text (body : contract) : string := (canonical_bytes (JObj (bundle_document body)) +:+ newline)%stdpp.

Section Bundle.
Context (plan : contract) (base candidate : TreeSnapshot) (changed : list string) (r vals : contract) (checks refs : list json).
Context (Hplan : json_wf (JObj plan) = true) (Hbase : json_wf (snapshot_document base) = true) (Hcand : json_wf (snapshot_document candidate) = true).
Context (Hres : evaluation_result_of vals = Ok r) (Hplain : plain_members r) (Hc : get "check_results" r = JList checks) (He : get "evidence_refs" r = JList refs)
  (Hd : get "result_digest" r = JStr (evaluation_result_digest r)).
Let body := bundle_body plan base candidate changed r.

Lemma result_NoDup : NoDup r.*1.
Proof. rewrite (evaluation_result_keys _ _ Hres). apply fields_NoDup. Qed.

Lemma bundle_keys : NoDup (bundle_document body).*1.
Proof. apply (bool_decide_unpack (NoDup ["schema_version"; "plan"; "base"; "candidate"; "changed_paths"; "result"; "bundle_digest"])). vm_compute. exact I. Qed.

Lemma bundle_wf : json_wf (JObj (bundle_document body)) = true.
Proof.
  assert (Hr : json_wf (JObj r) = true) by (apply object_wf; [apply result_NoDup|]; intros k v Hin; by apply (Hplain k)).
  apply object_wf; [apply bundle_keys|]. intros k v Hin. unfold bundle_document, body, bundle_body in Hin. cbn [app] in Hin.
  repeat (apply elem_of_cons in Hin as [[= -> ->]|Hin]; [first [reflexivity|exact Hplan|exact Hbase|exact Hcand|exact Hr|apply strs_wf]|]). by apply elem_of_nil in Hin.
Qed.

Lemma bundle_loads : exists d, loads (bundle_text body) = Some (JObj d)
  /\ lookup_key "bundle_digest" d = Some (JStr (canonical_digest (JObj body))) /\ lookup_key "result" d = Some (norm (JObj r))
  /\ canonical_digest (JObj (pop_key "bundle_digest" d)) = canonical_digest (JObj body).
Proof.
  destruct (norm_obj_members (bundle_document body)) as (d & Ed & _). exists d. unfold bundle_text. rewrite loads_line, Ed by apply bundle_wf. split; [done|].
  destruct (stored_members _ _ bundle_keys Ed) as [Hg Hk].
  assert (Hl : forall k, k ∈ (bundle_document body).*1 -> lookup_key k d = Some (norm (get k (bundle_document body)))).
  { intros k Hin. rewrite <- Hg. unfold get. rewrite <- Hk in Hin. destruct (lookup_key k d) eqn:E; [done|]. by apply lookup_key_not_in in E. }
  split; [apply Hl; cbn; set_solver|]. split; [apply Hl; cbn; set_solver|]. rewrite (stored_without _ _ _ bundle_keys Ed). reflexivity.
Qed.

Lemma bundle_verifies : verify_bundle (Some (bundle_text body)) = Ok tt.
Proof.
  destruct bundle_loads as (d & Hl & Hb & Hr & Hdig). unfold verify_bundle. rewrite Hl, Hb, Hr, Hdig, (proj2 (py_eq_str _ _) eq_refl). cbn [require rbind].
  destruct (norm_obj_members r) as (r' & Er & _). rewrite Er. assert (Hp := plain_stored r r' result_NoDup Hplain Er).
  assert (Hn : NoDup r'.*1) by (rewrite Hp; apply result_NoDup).
  assert (Hlk : forall k l, get k r = JList l -> lookup_key k r' = Some (JList l)).
  { intros k l Hg. unfold get in Hg. rewrite <- (lookup_key_perm k r' r Hn Hp) in Hg. by destruct (lookup_key k r'); [cbn in Hg; subst|]. }
  cbn [dict_of rbind]. change (map _ r') with (keyed_by_text r'). cbn [rfold].
  rewrite (tuple_member_list r' "check_results" checks Hn (Hlk _ _ Hc)). cbn [rbind]. rewrite (tuple_member_list r' "evidence_refs" refs Hn (Hlk _ _ He)). cbn [rbind].
  rewrite keywords_text. cbn [rbind]. rewrite (evaluation_result_again _ _ _ Hres Hp). cbn [wrap rbind]. rewrite Hd, (proj2 (py_eq_str _ _) eq_refl). reflexivity.
Qed.
End Bundle.

(** ** What is hashed and stored is well formed *)

Lemma snapshot_wf t r : snapshot_tree r = Ok t -> json_wf (snapshot_document t) = true.
Proof.
  unfold snapshot_tree. destruct r as [| |entries]; try done. intros H. take_ok H fs E. injection H as <-.
  assert (Hfs : NoDup fs.*1 /\ Forall (fun v => json_wf v = true) fs.*2).
  { revert E. apply (rfold_inv snapshot_entry (fun fs => NoDup fs.*1 /\ Forall (fun v => json_wf v = true) fs.*2)); [|split; constructor].
    intros s x s1 _ [Hn Hv] Hx. unfold snapshot_entry in Hx. destruct (x.2); [|done|by injection Hx as <-]. destruct (mem _ _); [by injection Hx as <-|].
    take_ok Hx rel Er. injection Hx as <-. split; [by apply dict_set_keys|]. apply Forall_fmap. apply (dict_set_Forall (fun v => json_wf v = true)); [done|by apply Forall_fmap in Hv]. }
  apply object_wf; [apply (bool_decide_unpack (NoDup ["root_digest"; "files"])); vm_compute; exact I|]. intros k v Hin. cbn in Hin.
  repeat (apply elem_of_cons in Hin as [[= -> ->]|Hin]; [try reflexivity|]); [|by apply elem_of_nil in Hin]. apply object_wf; [apply Hfs|].
  intros k' v' Hin. destruct Hfs as [_ Hv]. rewrite Forall_forall in Hv. apply Hv. apply list_elem_of_fmap. by exists (k', v').
Qed.

Lemma listed_payload_wf s events x : list_events s = Ok events -> x ∈ events -> json_wf (JObj (payload x.2)) = true.
Proof.
  unfold list_events. generalize (@None string). generalize (events_table s). intros rows. revert events.
  induction rows as [|row rows IH]; intros events previous H Hin; cbn in H; [injection H as <-; by apply elem_of_nil in Hin|].
  take_ok H e E. take_ok H rest Er. injection H as <-. apply elem_of_cons in Hin as [->|Hin]; [|by eapply IH].
  unfold verify_row in E. take_ok E e' Ee. take_ok E u Eu. injection E as ->. apply wrap_ok in Ee. unfold row_event in Ee.
  destruct (loads (payload_json row)) as [p|] eqn:El; [|done]. apply loads_wf in El. unfold check_event in Ee. take_ok Ee u1 E1. take_ok Ee u2 E2.
  destruct p; try done. by injection Ee as <-.
Qed.

Lemma member_wf k d : json_wf (JObj d) = true -> json_wf (get k d) = true.
Proof.
  cbn [json_wf]. intros [_ H]%andb_true_iff. unfold get. destruct (lookup_key k d) as [v|] eqn:E; [|done]. cbn. apply lookup_key_in, list_elem_of_In in E.
  rewrite forallb_forall in H. by apply (H (k, v)).
Qed.

Lemma records_with_sub kind k outer inner d events found : records_with kind k outer inner d events = Ok found -> forall x, x ∈ found ->
  x ∈ events /\ event_type x.2 = kind /\ work_id x.2 = Some k /\ nested outer inner x.2 = Ok (JStr d).
Proof.
  revert found. induction events as [|y events IH]; intros found H x Hx; cbn in H; [injection H as <-; by apply elem_of_nil in Hx|].
  take_ok H here Eh. take_ok H rest Er. injection H as <-. destruct here.
  - apply elem_of_cons in Hx as [->|Hx].
    + split; [by left|]. destruct (String.eqb_spec (event_type y.2) kind) as [->|]; [|done]. cbn [andb] in Eh.
      destruct (about_work k y.2) eqn:Ea; [|done]. take_ok Eh v Ev. injection Eh as Hv. apply py_eq_str in Hv as ->. by apply bool_decide_eq_true in Ea.
    + destruct (IH _ Er x Hx) as (? & ?). split; [by right|done].
  - destruct (IH _ Er x Hx) as (? & ?). split; [by right|done].
Qed.

(** Where one record is found, it is the only one. *)
Lemma records_with_none kind k outer inner d events : records_with kind k outer inner d events = Ok [] ->
  forall y, y ∈ events -> ~ (event_type y.2 = kind /\ work_id y.2 = Some k /\ nested outer inner y.2 = Ok (JStr d)).
Proof.
  induction events as [|x events IH]; intros H y Hy (E1 & E2 & E3); [by apply elem_of_nil in Hy|]. cbn in H. take_ok H here Eh. take_ok H rest Er.
  destruct here; [done|]. injection H as ->. apply elem_of_cons in Hy as [->|Hy]; [|by apply (IH Er y Hy)].
  rewrite (proj2 (String.eqb_eq _ _) E1) in Eh. unfold about_work in Eh. rewrite bool_decide_eq_true_2 in Eh by done. cbn [andb] in Eh. rewrite E3 in Eh.
  injection Eh as Eh. cbn in Eh. by rewrite String.eqb_refl in Eh.
Qed.
Lemma records_with_one kind k outer inner d events x : records_with kind k outer inner d events = Ok [x] ->
  exists pre post, events = pre ++ x :: post
    /\ forall y, y ∈ pre ++ post -> ~ (event_type y.2 = kind /\ work_id y.2 = Some k /\ nested outer inner y.2 = Ok (JStr d)).
Proof.
  induction events as [|z events IH]; intros H; [done|]. cbn in H. take_ok H here Eh. take_ok H rest Er. destruct here.
  - injection H as -> ->. exists [], events. split; [done|]. intros y Hy. by eapply records_with_none.
  - injection H as ->. destruct (IH Er) as (pre & post & -> & Hn). exists (z :: pre), post. split; [done|].
    intros y Hy (E1 & E2 & E3). apply elem_of_cons in Hy as [->|Hy]; [|by apply (Hn y Hy)].
    rewrite (proj2 (String.eqb_eq _ _) E1) in Eh. unfold about_work in Eh. rewrite bool_decide_eq_true_2 in Eh by done. cbn [andb] in Eh. rewrite E3 in Eh.
    injection Eh as Eh. cbn in Eh. by rewrite String.eqb_refl in Eh.
Qed.

(** An event that seals the plan with digest [d] for a work item. *)
Definition seals (k d : string) (x : record) : Prop :=
  event_type x.2 = "evaluation.plan.sealed" /\ work_id x.2 = Some k
  /\ exists p, lookup_key "plan" (payload x.2) = Some (JObj p) /\ get "plan_digest" p = JStr d.
Lemma seals_nested k d x : seals k d x <-> event_type x.2 = "evaluation.plan.sealed" /\ work_id x.2 = Some k /\ nested "plan" "plan_digest" x.2 = Ok (JStr d).
Proof.
  unfold seals, nested. split.
  - intros (H1 & H2 & p & H3 & H4). by rewrite H3, H4.
  - intros (H1 & H2 & H3). split; [done|]. split; [done|]. destruct (lookup_key "plan" (payload x.2)) as [[| | | | |p]|]; try done.
    exists p. split; [done|]. by injection H3.
Qed.

(** The plan was sealed for the work item by exactly one event of the log, whose
    base is the one the plan names, with the manifest its digest commits to. *)
Definition sealed_once (k : string) (plan : contract) (base : TreeSnapshot) (events : list record) : Prop :=
  exists pre x post document, events = pre ++ x :: post
    /\ seals k (canonical_digest (JObj (pop_key "plan_digest" plan))) x
    /\ (forall y, y ∈ pre ++ post -> ~ seals k (canonical_digest (JObj (pop_key "plan_digest" plan))) y)
    /\ get "plan_digest" plan = JStr (canonical_digest (JObj (pop_key "plan_digest" plan)))
    /\ get "base" (payload x.2) = JObj document
    /\ lookup_key "root_digest" document = Some (JStr (root_digest base)) /\ lookup_key "files" document = Some (JObj (files base))
    /\ get "base_tree_digest" plan = JStr (root_digest base)
    /\ root_digest base = canonical_digest (JObj [("files", JObj (files base))]).

Lemma sealed_plan_ok s k plan events base : list_events s = Ok events -> _require_sealed_plan k plan events = Ok base ->
  json_wf (snapshot_document base) = true /\ sealed_once k plan base events.
Proof.
  intros Hev H. unfold _require_sealed_plan in H. take_guard H E1. apply py_eq_str in E1. take_ok H matches Em. destruct matches as [|x [|]]; try done.
  destruct (get "base" (payload x.2)) as [| | | | |document] eqn:Eb; try done. destruct (lookup_key "root_digest" document) as [[| | |d| |]|] eqn:Ed; try done;
    destruct (lookup_key "files" document) as [[| | | | |fs]|] eqn:Ef; try done. take_guard H E2. injection H as <-. apply andb_true_iff in E2 as [E2%py_eq_str E3%String.eqb_eq].
  destruct (records_with_sub _ _ _ _ _ _ _ Em x) as (Hx & Hs); [by left|].
  assert (Hw := member_wf "base" _ (listed_payload_wf _ _ _ Hev Hx)). rewrite Eb in Hw. apply (member_wf "files") in Hw. unfold get in Hw. rewrite Ef in Hw.
  split.
  - apply object_wf; [apply (bool_decide_unpack (NoDup ["root_digest"; "files"])); vm_compute; exact I|]. intros k' v Hin. cbn in Hin.
    repeat (apply elem_of_cons in Hin as [[= -> ->]|Hin]; [first [reflexivity|exact Hw]|]). by apply elem_of_nil in Hin.
  - destruct (records_with_one _ _ _ _ _ _ _ Em) as (pre & post & -> & Hn). exists pre, x, post, document. split; [done|].
    split; [by apply seals_nested|]. split; [intros y Hy Hsy; apply seals_nested in Hsy; by apply (Hn y Hy)|]. by split_and!.
Qed.

(** ** The event in the log *)

(** A row of the events table holds an event, its digest computed behind the row's
    own predecessor. *)
Record row_holds (row : event_row) (e : KernelEvent) : Prop := {
  rh_names : row_event_id row = event_id e /\ row_mission_id row = mission_id e /\ row_work_id row = work_id e /\ row_attempt_id row = attempt_id e;
  rh_kind : row_event_type row = event_type e /\ row_event_version row = event_version e /\ row_occurred_at row = occurred_at e;
  rh_actor : row_actor_id row = actor_id e /\ row_actor_role row = event_actor_role e;
  rh_payload : exists p, loads (payload_json row) = Some p /\ canonical_bytes p = canonical_bytes (JObj (payload e));
  rh_digest : digest row = digest_for e (row_previous row) }.

Lemma matches_holds row e : _stored_event_matches_locked row e = true -> row_holds row e.
Proof.
  unfold _stored_event_matches_locked. destruct (loads (payload_json row)) as [p|] eqn:El; [|done]. rewrite !andb_true_iff, !bool_decide_eq_true, !String.eqb_eq, Z.eqb_eq.
  intros ((((((((((E1 & E2) & E3) & E4) & E5) & E6) & E7) & E8) & E9) & E10) & E11). constructor; try done. by exists p.
Qed.

(** What [local_event] makes is a constructed event. *)
Lemma local_event_ok id mission kind actor body work role previous e : json_wf (JObj body) = true ->
  local_event id mission kind actor body work role previous = Ok e ->
  e = {| event_id := id; mission_id := mission; event_type := kind; actor_id := actor; occurred_at := _TIME; payload := body; work_id := work;
         attempt_id := None; event_actor_role := Some role; event_version := 1; previous_digest := previous |}
  /\ event_wf e = true.
Proof.
  intros Hw H. unfold local_event, check_event in H. take_ok H u E1. take_ok H u2 E2. injection H as <-. split; [done|]. destruct u.
  rewrite each_ok, <- Forall_forall in E1. rewrite !Forall_cons in E1. cbn [fst snd event_id mission_id event_type actor_id occurred_at] in E1.
  rewrite !require_ok in E1. destruct E1 as (G1 & G2 & G3 & G4 & G5 & _). unfold event_wf.
  cbn [payload event_id mission_id event_type actor_id occurred_at event_version]. by rewrite G1, G2, G3, G4, G5, Hw.
Qed.

(** An append that returns leaves the event in the log: as the new last row, or,
    where the very same event was there already, without a change. *)
Lemma appended_event_held e expected recorded key s n s' : event_wf e = true -> append e expected recorded key s = (Ok n, s') ->
  exists row, row ∈ events_table s' /\ row_holds row e /\ sequence row = n
    /\ (events_table s' = events_table s ++ [row] /\ row_previous row = (head_of s).2 \/ s' = s).
Proof.
  intros Hwf H. unfold append in H. rewrite run_bind in H. destruct (append_batch _ _ _ s) as [[seqs|x] s1] eqn:E; [|done].
  apply append_batch_outcome in E. inversion E as [|E0|n0 k0 _ _ Hex Hlen|keys ms ws st1 _ _ _ _ _ _]; subst; [done| |].
  - cbn [length] in *. rewrite range_from_S in H, Hex. injection H as <- <-. cbn [map_result map] in Hex. take_ok Hex o Eo. injection Hex as ->.
    unfold existing_sequence in Eo. take_guard Eo G1. destruct (find_event _ (event_id e)) as [row|] eqn:Ef; [|by take_guard Eo G2].
    take_guard Eo G2. take_guard Eo G3. injection Eo as Eo. exists row. apply List.find_some in Ef as [Hin _]. apply list_elem_of_In in Hin.
    split; [done|]. split; [by apply matches_holds|]. split; [done|by right].
  - cbn [length] in H. rewrite range_from_S in H. injection H as <- <-. exists (event_to_row e ((head_of s).1 + 1) recorded (head_of s).2).
    cbn [with_views with_events events_table batch_rows]. split; [apply elem_of_app; right; by left|]. split; [|split; [done|by left]].
    by apply matches_holds, stored_event_matches.
Qed.

(** ** Verdicts *)

(** The answers to the acceptance commands, and the directory they leave. *)
Fixpoint checked (runner : string -> root -> option bool * root) (commands : list string) (r : root) : list (string * bool) * root :=
  match commands with
  | [] => ([], r)
  | c :: cs => let a := runner c r in let rest := checked runner cs a.2 in ((c, default false a.1) :: rest.1, rest.2)
  end.

Lemma run_checks_ok runner commands w :
  run_checks runner commands w = (Ok (checked runner commands (w_candidate w)).1, with_candidate w (checked runner commands (w_candidate w)).2).
Proof.
  revert w. induction commands as [|c cs IH]; intros [s r b]; [reflexivity|]. cbn [run_checks checked w_candidate]. destruct (runner c r) as [a r'] eqn:E.
  cbn [fst snd]. unfold bindM. rewrite IH. unfold with_candidate, ret. cbn [w_candidate w_store w_bundles]. by destruct a.
Qed.

Lemma on_store_read (w : workshop) : on_store read_events w = (list_events (w_store w), w).
Proof. by destruct w. Qed.

(** A verdict on a candidate, before its digest is put in. *)
Definition verdict_body (plan : contract) (candidate : TreeSnapshot) (evaluator_id : string) (passed : bool) (texts : list string) (d : string) : contract :=
  [("plan_digest", JStr (evaluation_plan_digest_of plan)); ("candidate_digest", JStr (root_digest candidate)); ("evaluator_id", JStr evaluator_id);
   ("state", JStr (evaluation_value (if passed then E_PASSED else E_FAILED))); ("check_results", strs texts);
   ("evidence_refs", strs ["bundle:verification.json"]); ("result_digest", JStr d)].

Lemma verdict_made plan candidate evaluator_id passed texts d r : evaluation_result_of (verdict_body plan candidate evaluator_id passed texts d) = Ok r ->
  r = verdict_body plan candidate evaluator_id passed texts d.
Proof. intros ->%evaluation_result_fields_of. reflexivity. Qed.

Lemma verdict_plain plan candidate evaluator_id passed texts d : plain_members (verdict_body plan candidate evaluator_id passed texts d).
Proof.
  intros k v Hin. unfold verdict_body in Hin.
  repeat (apply elem_of_cons in Hin as [[= -> ->]|Hin]; [first [split; reflexivity|split; [apply strs_wf|apply norm_strs]]|]). by apply elem_of_nil in Hin.
Qed.

Lemma verdict_payload_wf plan candidate evaluator_id passed texts d r : evaluation_result_of (verdict_body plan candidate evaluator_id passed texts d) = Ok r ->
  json_wf (JObj [("result", JObj (verdict_body plan candidate evaluator_id passed texts d))]) = true.
Proof.
  intros H. assert (E := verdict_made _ _ _ _ _ _ _ H). apply evaluation_result_keys in H. rewrite E in H.
  assert (Hr : json_wf (JObj (verdict_body plan candidate evaluator_id passed texts d)) = true).
  { apply object_wf; [rewrite H; apply fields_NoDup|]. intros k v Hin. eapply verdict_plain, Hin. }
  apply object_wf; [apply NoDup_singleton|]. intros k v [= -> ->]%list_elem_of_singleton. exact Hr.
Qed.

(** A verdict with its digest. *)
Definition verdict (plan : contract) (candidate : TreeSnapshot) (evaluator_id : string) (passed : bool) (texts : list string) : contract :=
  verdict_body plan candidate evaluator_id passed texts (evaluation_result_digest (verdict_body plan candidate evaluator_id passed texts zero_digest)).

(** C6: a verdict is earned.  When the verification of a candidate returns, builder
    and evaluator differ; exactly one event of the log seals this plan for this work
    item, and it holds the base the plan names, whose digest commits to its files;
    the commands were run in order on the directory, and the verdict is a pass
    exactly when nothing outside the allowed paths differs from that base, every
    command answered that it passed (an exception does not count), and the
    directory is at the end what it was at the start; the verdict names the plan,
    the candidate and the evaluator; exactly one bundle is published, where there
    was none, and it verifies; and the log now holds the event of the verdict, for
    this work item and its mission, by the evaluator as curator: it is the new last
    event, behind the old head, unless the very same verdict was recorded before and
    the log is left as it was. *)
Theorem verdict_is_earned runner k plan builder_id evaluator_id directory recorded w out w' :
  json_wf (JObj plan) = true ->
  verify_exact_candidate runner k plan builder_id evaluator_id directory recorded w = (Ok out, w') ->
  builder_id <> "" /\ evaluator_id <> "" /\ builder_id <> evaluator_id
  /\ exists events base candidate after passed texts,
       let run := checked runner (strings_of (get "acceptance_commands" plan)) (w_candidate w) in
       list_events (w_store w) = Ok events /\ sealed_once k plan base events
       /\ snapshot_tree (w_candidate w) = Ok candidate /\ w_candidate w' = run.2 /\ snapshot_tree run.2 = Ok after
       /\ vo_changed_paths out = changed_paths_of (files base) (files candidate)
       /\ (passed = true <-> vo_changed_paths out ⊆ strings_of (get "allowed_test_paths" plan)
             /\ (forall c b, (c, b) ∈ run.1 -> b = true) /\ same_tree after candidate = true)
       /\ vo_result out = verdict plan candidate evaluator_id passed texts
       /\ w_bundles w !! directory = None
       /\ w_bundles w' = <[directory := bundle_text (bundle_body plan base candidate (vo_changed_paths out) (vo_result out))]> (w_bundles w)
       /\ verify_bundle (w_bundles w' !! directory) = Ok tt
       /\ exists mission row, (exists y, y ∈ events /\ work_id y.2 = Some k /\ mission_id y.2 = mission)
            /\ row ∈ events_table (w_store w')
            /\ row_holds row
                 {| event_id := ("evaluation-result:" +:+ str_field "result_digest" (vo_result out))%stdpp; mission_id := mission;
                    event_type := "evaluation.result"; actor_id := evaluator_id; occurred_at := _TIME; payload := [("result", JObj (vo_result out))];
                    work_id := Some k; attempt_id := None; event_actor_role := Some "curator"; event_version := 1;
                    previous_digest := head_of_events events |}
            /\ (events_table (w_store w') = events_table (w_store w) ++ [row] /\ row_previous row = (head_of (w_store w)).2
                \/ w_store w' = w_store w).
Proof.
  intros Hplan H. unfold verify_exact_candidate in H. rewrite run_guard in H. destruct (negb _ && negb _ && negb _) eqn:Eids; [|done].
  rewrite !andb_true_iff, !negb_true_iff, !String.eqb_neq in Eids. destruct Eids as [[? ?] ?]. split; [done|]. split; [done|]. split; [done|].
  unfold bindM at 1 in H. rewrite on_store_read in H. destruct (list_events (w_store w)) as [events|] eqn:Ev; [|done].
  rewrite run_lift in H. destruct (_require_sealed_plan k plan events) as [base|] eqn:Eb; [|done]. rewrite run_get, run_lift in H.
  destruct (snapshot_tree (w_candidate w)) as [candidate|] eqn:Ec; [|done]. cbv zeta in H. unfold bindM at 1 in H. rewrite run_checks_ok in H.
  set (run := checked runner (strings_of (get "acceptance_commands" plan)) (w_candidate w)) in *. rewrite run_get, run_lift in H. cbn [with_candidate w_candidate] in H.
  destruct (snapshot_tree run.2) as [after|] eqn:Ea; [|done]. set (changed := changed_paths_of (files base) (files candidate)) in *.
  set (passed := Contracts.subset changed (strings_of (get "allowed_test_paths" plan)) && forallb snd run.1 && same_tree after candidate) in *.
  set (texts := map check_text run.1 ++ (if same_tree after candidate then [] else ["candidate-mutation:failed"])) in *.
  rewrite run_lift in H. change [("plan_digest", _); _; _; _; _; _; _] with (verdict_body plan candidate evaluator_id passed texts zero_digest) in H.
  destruct (evaluation_result_of (verdict_body _ _ _ _ _ _)) as [provisional|] eqn:Ep; [|done]. apply verdict_made in Ep as ->.
  rewrite run_lift in H. change (set_key "result_digest" _ (verdict_body plan candidate evaluator_id passed texts zero_digest))
    with (verdict plan candidate evaluator_id passed texts) in H.
  destruct (evaluation_result_of (verdict plan candidate evaluator_id passed texts)) as [r|] eqn:Er; [|done]. assert (Er' := Er). apply verdict_made in Er' as ->.
  unfold bindM at 1 in H. unfold _publish_bundle at 1 in H.
  change (w_bundles (with_candidate w run.2)) with (w_bundles w) in H. destruct (w_bundles w !! directory) eqn:Ebun; [discriminate H|].
  unfold bindM at 1 in H. rewrite on_store_read in H.
  change (w_store (with_bundles _ _)) with (w_store w) in H. rewrite Ev in H.
  destruct (mission_of_work k events) as [mission|] eqn:Em; [|done]. rewrite run_lift in H.
  destruct (local_event _ _ _ _ _ _ _ _) as [e|] eqn:Ee; [|done]. unfold bindM at 1 in H. unfold on_store in H.
  change (w_store (with_bundles _ _)) with (w_store w) in H.
  destruct (append e None recorded _ (w_store w)) as [[n|] s'] eqn:Eapp; [|done]. 
  assert (Hw : w_candidate w' = run.2 /\ w_store w' = s'
    /\ w_bundles w' = <[directory := bundle_text (bundle_body plan base candidate changed (verdict plan candidate evaluator_id passed texts))]> (w_bundles w)
    /\ out = {| vo_result := verdict plan candidate evaluator_id passed texts; vo_bundle_path := directory; vo_changed_paths := changed |})
    by (injection H as <- <-; done).
  destruct Hw as (Hc' & Hs' & Hb' & ->). clear H. cbn [vo_result vo_changed_paths] in *.
  exists events, base, candidate, after, passed, texts. cbv zeta. fold run. rewrite Hc', Hb', lookup_insert_eq.
  split_and!; try done; try reflexivity.
  - by apply (sealed_plan_ok _ _ _ _ _ Ev Eb).
  - unfold passed. rewrite !andb_true_iff, subset_spec, forallb_forall. split.
    + intros [[A1 A2] A3]. split; [done|]. split; [|done]. intros c b Hin%list_elem_of_In. by apply (A2 (c, b)).
    + intros (A1 & A2 & A3). split; [split; [done|]|done]. intros [c b] Hin%list_elem_of_In. by apply (A2 c b).
  - eapply (bundle_verifies plan base candidate changed _ _ (map JStr texts) [JStr "bundle:verification.json"]);
      [done|by apply (sealed_plan_ok _ _ _ _ _ Ev Eb)|by apply (snapshot_wf _ _ Ec)|exact Er|apply verdict_plain|reflexivity..].
  - apply local_event_ok in Ee as [-> Hwf]; [|by eapply verdict_payload_wf].
    destruct (appended_event_held _ _ _ _ _ _ _ Hwf Eapp) as (row & F1 & F2 & _ & F3).
    exists mission, row. rewrite Hs'. split_and!; try done. unfold mission_of_work in Em. destruct (List.find _ events) as [y|] eqn:Ey; [|done].
    apply List.find_some in Ey as [Hy%list_elem_of_In Hk%bool_decide_eq_true]. exists y. split_and!; try done. by injection Em.
Qed.

(** ** Refused verifications *)

(** A computation that leaves the event store alone. *)
Definition quiet {A} (m : M workshop A) : Prop := forall w r w', m w = (r, w') -> w_store w' = w_store w.
(** One that leaves it alone when it raises. *)
Definition safe {A} (m : M workshop A) : Prop := forall w e w', m w = (Raise e, w') -> w_store w' = w_store w.

Lemma quiet_safe {A} (m : M workshop A) : quiet m -> safe m.
Proof. intros H w e w'. apply H. Qed.
Lemma quiet_pure {A} (f : workshop -> result A) : quiet (fun w => (f w, w)).
Proof. by intros w r w' [= <- <-]. Qed.
Lemma safe_bind {A B} (m : M workshop A) (f : A -> M workshop B) : quiet m -> (forall a, safe (f a)) -> safe (bindM m f).
Proof.
  intros Hm Hf w e w' H. unfold bindM in H. destruct (m w) as [[a|e'] w1] eqn:E; [|injection H as _ <-; by eapply Hm].
  rewrite (Hf a _ _ _ H). by eapply Hm.
Qed.
Lemma safe_bind_ret {A B} (m : M workshop A) (b : B) : safe m -> safe (bindM m (fun _ => ret b)).
Proof. intros Hm w e w' H. unfold bindM in H. destruct (m w) as [[a|e'] w1] eqn:E; [done|]. injection H as -> <-. by eapply Hm. Qed.
Lemma quiet_run runner commands : quiet (run_checks runner commands).
Proof. intros w r w'. rewrite run_checks_ok. by intros [= <- <-]. Qed.
Lemma quiet_publish destination plan base candidate changed r : quiet (_publish_bundle destination plan base candidate changed r).
Proof. intros w x w'. unfold _publish_bundle. destruct (w_bundles w !! destination); by intros [= <- <-]. Qed.
Lemma quiet_read : quiet (on_store read_events).
Proof. intros w r w'. rewrite on_store_read. by intros [= <- <-]. Qed.
Lemma safe_append e key recorded : safe (on_store (append e None recorded key)).
Proof.
  intros w x w' H. unfold on_store in H. destruct (append e None recorded key (w_store w)) as [r s] eqn:E. injection H as -> <-. cbn [with_store w_store].
  unfold append, bindM in E. destruct (append_batch _ _ _ (w_store w)) as [r' s'] eqn:Eb. apply append_batch_outcome in Eb. by inversion Eb; subst; injection E.
Qed.

(** A verification that is refused at any point leaves the event log as it was. *)
Theorem refused_verification_leaves_log runner k plan builder_id evaluator_id directory recorded w e w' :
  verify_exact_candidate runner k plan builder_id evaluator_id directory recorded w = (Raise e, w') -> w_store w' = w_store w.
Proof.
  revert w e w'. change (safe (verify_exact_candidate runner k plan builder_id evaluator_id directory recorded)). unfold verify_exact_candidate.
  repeat (apply safe_bind; [first [apply quiet_run|apply quiet_publish|apply quiet_read|apply quiet_pure]|intros ?]).
  destruct (mission_of_work _ _); [|apply quiet_safe, quiet_pure]. apply safe_bind; [apply quiet_pure|intros ?]. apply safe_bind_ret, safe_append.
Qed.

(** ** A sample verification *)

Module SampleVerification.

Definition stamp : string := "2030-01-01T00:00:00Z".
Definition base_tree : root := Tree [("src/app.py", File "print(1)"); ("notes.txt", File "todo")].
Definition candidate_tree : root := Tree [("src/app.py", File "print(2)"); ("notes.txt", File "todo")].
Definition runner (c : string) (r : root) : option bool * root := (Some true, r).
Definition plan : contract := Eval vm_compute in
  match create_evaluation_plan "PLAN-1" base_tree ["make check"] ["src/app.py"] with Ok p => p | Raise _ => [] end.

Definition step (n : Z) (kind actor role : string) (body : contract) : M store Z :=
  let* events := read_events in
  let* e := liftR (local_event ("step-" +:+ str_of_Z n)%stdpp "MISSION-1" kind actor body
                     (if String.eqb kind "mission.created" then None else Some "WORK-1") role (head_of_events events)) in
  append e None stamp None.
Definition move (n : Z) (status : string) : M store Z := step n "work.transition" "owner" "orchestrator" [("status", JStr status)].
Definition start : M store Z :=
  step 1 "mission.created" "owner" "orchestrator" [] ;* step 2 "work.created" "owner" "orchestrator" [] ;*
  move 3 "READY" ;* move 4 "LEASED" ;* move 5 "RUNNING" ;* seal_evaluation_plan "WORK-1" plan base_tree "ada" stamp.
Definition bench (s : store) : workshop := {| w_store := s; w_candidate := candidate_tree; w_bundles := ∅ |}.
Definition started : workshop := bench ((start ;* move 6 "AWAITING_VERIFICATION") fresh_store).2.
Notation verification := (verify_exact_candidate runner "WORK-1" plan "bob" "cy" "/bundles/1" stamp).
Definition verified : VerificationOutcome := Eval vm_compute in
  match (verification started).1 with Ok o => o | Raise _ => {| vo_result := []; vo_bundle_path := ""; vo_changed_paths := [] |} end.

End SampleVerification.

Lemma run_result {S A} (m : M S A) s r : (m s).1 = r -> m s = (r, (m s).2).
Proof. intros <-. apply surjective_pairing. Qed.

Lemma verdict_is_earned_witness :
  get "state" (vo_result SampleVerification.verified) = JStr "PASSED"
  /\ verify_bundle (w_bundles (SampleVerification.verification SampleVerification.started).2 !! "/bundles/1") = Ok tt.
Proof.
  split; [reflexivity|].
  assert (E : (SampleVerification.verification SampleVerification.started).1 = Ok SampleVerification.verified) by (vm_compute; reflexivity).
  destruct (verdict_is_earned SampleVerification.runner "WORK-1" SampleVerification.plan "bob" "cy" "/bundles/1" SampleVerification.stamp
              SampleVerification.started SampleVerification.verified (SampleVerification.verification SampleVerification.started).2
              ltac:(vm_compute; reflexivity) (run_result _ _ _ E))
    as (_ & _ & _ & events & base & candidate & after & passed & texts & H).
  apply H.
Defined.

(** A change outside the allowed paths, and a command that changes the
    candidate, make the verdict a failure. *)
Example out_of_scope_fails :
  match create_evaluation_plan "PLAN-1" SampleVerification.base_tree ["make check"] ["docs/readme.md"] with
  | Ok plan =>
      let run := (seal_evaluation_plan "WORK-1" plan SampleVerification.base_tree "ada" SampleVerification.stamp)
                   (((SampleVerification.step 1 "mission.created" "owner" "orchestrator" [] ;* SampleVerification.step 2 "work.created" "owner" "orchestrator" [] ;*
                      SampleVerification.move 3 "READY" ;* SampleVerification.move 4 "LEASED" ;* SampleVerification.move 5 "RUNNING") fresh_store).2) in
      let s := (SampleVerification.move 6 "AWAITING_VERIFICATION" run.2).2 in
      match (verify_exact_candidate SampleVerification.runner "WORK-1" plan "bob" "cy" "/bundles/1" SampleVerification.stamp (SampleVerification.bench s)).1 with
      | Ok o => Some (get "state" (vo_result o), vo_changed_paths o)
      | Raise _ => None
      end
  | Raise _ => None
  end = Some (JStr "FAILED", ["src/app.py"]).
Proof. vm_compute. reflexivity. Qed.
Example mutation_fails :
  match (verify_exact_candidate (fun _ r => (Some true, SampleVerification.base_tree)) "WORK-1" SampleVerification.plan "bob" "cy" "/bundles/1"
           SampleVerification.stamp SampleVerification.started).1 with
  | Ok o => Some (get "state" (vo_result o), get "check_results" (vo_result o))
  | Raise _ => None
  end = Some (JStr "FAILED", strs ["make check:passed"; "candidate-mutation:failed"]).
Proof. vm_compute. reflexivity. Qed.

End Verification.
