(* ===== verification/Closeout.v ===== *)
(** * Technical closeout

    [brain_kernel/closeout.py], [TechnicalCloseoutReport] of
    [brain_kernel/contracts.py] and [append_role_result] of
    [brain_kernel/roles.py]: the obligations of a mission, the binding of an
    evidence bundle, integration, and the report that is recomputed from the
    event log.  The machine's bundle files are a function from a directory to
    the text of its [verification.json]. *)

From S2P Require Import Prelude Sha256 Canonical JsonLines PyLib Policy Schema Contracts Projection KernelStore Verification.

Module Closeout.
Export Verification.

Definition malformed {A} (m : string) : result A := raise TechnicalCloseoutError m.

(** [KERNEL_IMPLEMENTED_ROLES] *)
Definition KERNEL_IMPLEMENTED_ROLES : list string := map Policy.role_value Policy.canonical_roles.

(** ** The report *)

Inductive TechnicalCloseoutState := TECHNICALLY_VERIFIED | PARTIAL | BLOCKED.
#[global] Instance closeout_state_eq_dec : EqDecision TechnicalCloseoutState.
Proof. solve_decision. Defined.
Definition closeout_value (s : TechnicalCloseoutState) : string :=
  match s with TECHNICALLY_VERIFIED => "TECHNICALLY_VERIFIED" | PARTIAL => "PARTIAL" | BLOCKED => "BLOCKED" end.

Record TechnicalCloseoutReport := {
  tc_mission_id : string;
  event_head_digest : string;
  projection_digest : string;
  required_roles : list json;
  fulfilled_roles : list json;
  missing_obligations : list string;
  integrated_work_ids : list string;
  evaluation_result_digests : list string;
  evidence_bundle_digests : list string;
  tc_state : TechnicalCloseoutState;
  report_digest : string }.

(** [TechnicalCloseoutReport.__post_init__].  The roles come from an event and
    may be any value. *)
Definition check_report (r : TechnicalCloseoutReport) : result TechnicalCloseoutReport :=
  _identifier (JStr (tc_mission_id r)) K_mission ;?
  each (fun d => _digest (JStr d) "digest") [event_head_digest r; projection_digest r; report_digest r] ;?
  let? unique := unique_elements (required_roles r) in
  require (negb (Nat.eqb (length (required_roles r)) 0) && unique) ValueError "required_roles must be non-empty and unique" ;?
  let? unique := unique_elements (fulfilled_roles r) in
  require unique ValueError "fulfilled_roles must be unique" ;?
  each _role (required_roles r ++ fulfilled_roles r) ;?
  require (forallb (fun f => existsb (py_eq f) (required_roles r)) (fulfilled_roles r)) ValueError "fulfilled_roles must be required roles" ;?
  each (fun k => _identifier (JStr k) K_work) (integrated_work_ids r) ;?
  each (fun d => _digest (JStr d) "digest") (evaluation_result_digests r ++ evidence_bundle_digests r) ;?
  Ok r.

(** [asdict(report)] without the digest *)
Definition report_body (r : TechnicalCloseoutReport) : contract :=
  [("mission_id", JStr (tc_mission_id r)); ("event_head_digest", JStr (event_head_digest r)); ("projection_digest", JStr (projection_digest r));
   ("required_roles", JList (required_roles r)); ("fulfilled_roles", JList (fulfilled_roles r));
   ("missing_obligations", strs (missing_obligations r)); ("integrated_work_ids", strs (integrated_work_ids r));
   ("evaluation_result_digests", strs (evaluation_result_digests r)); ("evidence_bundle_digests", strs (evidence_bundle_digests r));
   ("state", JStr (closeout_value (tc_state r)))].
Definition technical_closeout_digest (r : TechnicalCloseoutReport) : string := canonical_digest (JObj (report_body r)).
Definition with_report_digest (r : TechnicalCloseoutReport) (d : string) : TechnicalCloseoutReport :=
  {| tc_mission_id := tc_mission_id r; event_head_digest := event_head_digest r; projection_digest := projection_digest r;
     required_roles := required_roles r; fulfilled_roles := fulfilled_roles r; missing_obligations := missing_obligations r;
     integrated_work_ids := integrated_work_ids r; evaluation_result_digests := evaluation_result_digests r;
     evidence_bundle_digests := evidence_bundle_digests r; tc_state := tc_state r; report_digest := d |}.

(** ** Appending to the log *)

Definition of_mission (m : string) (e : KernelEvent) : bool := String.eqb (mission_id e) m.
Definition mission_created (m : string) (events : list record) : bool :=
  existsb (fun r => of_mission m r.2 && String.eqb (event_type r.2) "mission.created") events.

Definition declare_closeout_obligations (m : string) (roles : list string) (historical : list contract) (actor recorded : string) : M store Z :=
  guardM (negb (Nat.eqb (length roles) 0) && distinct roles) TechnicalCloseoutError "closeout roles must be non-empty and unique" ;*
  guardM (forallb (fun r => mem r KERNEL_IMPLEMENTED_ROLES) roles) TechnicalCloseoutError "closeout role is not registered" ;*
  guardM (distinct (map (str_field "receipt_ref") historical)) TechnicalCloseoutError "historical evidence references must be unique" ;*
  let* events := read_events in
  guardM (mission_created m events) TechnicalCloseoutError "closeout mission is unknown" ;*
  let body := [("required_roles", strs roles); ("historical_evidence", JList (map JObj historical))] in
  let d := canonical_digest (JObj body) in
  let* e := liftR (local_event ("closeout-obligations:" +:+ m +:+ ":" +:+ d)%stdpp m "closeout.obligations.declared" actor body None "orchestrator"
                     (head_of_events events)) in
  append e None recorded (Some d).

(** [_verified_bundle_digest] *)
Definition _verified_bundle_digest (text : option string) : result string :=
  wrap [ExactCandidateVerificationError] TechnicalCloseoutError "verification bundle is corrupt" (verify_bundle text) ;?
  match text with
  | None => malformed "verification bundle is corrupt"
  | Some t =>
      match loads t with
      | Some (JObj document) =>
          match lookup_key "bundle_digest" document with
          | Some (JStr d) => Ok d
          | Some _ => malformed "verification bundle digest is invalid"
          | None => malformed "verification bundle is corrupt"
          end
      | _ => malformed "verification bundle is corrupt"
      end
  end.

Definition record_evaluation_bundle (bundles : string -> option string) (k : string) (r : contract) (directory bundle_ref actor recorded : string) : M store Z :=
  guardM (py_eq (get "state" r) (JStr (evaluation_value E_PASSED)) && negb (String.eqb bundle_ref "")) TechnicalCloseoutError
    "only a named passed result may bind an evidence bundle" ;*
  let* bundle_digest := liftR (_verified_bundle_digest (bundles directory)) in
  let* events := read_events in
  let result_digest := str_field "result_digest" r in
  let* matching := liftR (records_with "evaluation.result" k "result" "result_digest" result_digest events) in
  match matching with
  | [x] =>
      let body := [("result_digest", JStr result_digest); ("bundle_digest", JStr bundle_digest); ("bundle_ref", JStr bundle_ref)] in
      let* e := liftR (local_event ("evaluation-bundle:" +:+ result_digest +:+ ":" +:+ bundle_digest)%stdpp (mission_id x.2)
                         "evaluation.bundle.recorded" actor body (Some k) "curator" (head_of_events events)) in
      append e None recorded (Some (canonical_digest (JObj body)))
  | _ => liftR (malformed "evaluation result is not recorded for this work")
  end.

Definition integrate_verified_work (k : string) (r : contract) (actor recorded : string) : M store Z :=
  let* events := read_events in
  match mission_of_work k events with
  | None => liftR (malformed "work is not recorded in the kernel spine")
  | Some m =>
      let result_digest := str_field "result_digest" r in
      let* e := liftR (local_event ("work-integrated:" +:+ k +:+ ":" +:+ result_digest)%stdpp m "work.transition" actor
                         [("status", JStr "INTEGRATED"); ("evaluation_result_digest", JStr result_digest)] (Some k) "integrator"
                         (head_of_events events)) in
      append e None recorded (Some ("integrated:" +:+ result_digest)%stdpp)
  end.

(** [result_digest] and [append_role_result] of [roles.py] *)
Definition role_result_digest (r : contract) : string := canonical_digest (JObj (pop_key "result_digest" r)).
Definition append_role_result (r : contract) (occurred recorded : string) : M store Z :=
  guardM (py_eq (get "result_digest" r) (JStr (role_result_digest r))) RoleProtocolError "role result digest does not bind its content" ;*
  let* events := read_events in
  let* e := liftR (check_event (fun fields =>
    {| event_id := ("role-result:" +:+ role_result_digest r)%stdpp; mission_id := str_field "mission_id" r; event_type := "role.result";
       actor_id := str_field "executor_id" r; occurred_at := occurred; payload := fields; work_id := as_str (get "work_id" r);
       attempt_id := as_str (get "attempt_id" r); event_actor_role := as_str (get "role" r); event_version := 1;
       previous_digest := head_of_events events |}) (JObj [("result", JObj r)])) in
  append e None recorded (Some (role_result_digest r)).

(** ** Deriving the report *)

(** Obligations found missing, and whether one of them blocks. *)
Record findings := { missing : list string; blocked : bool }.
Definition no_findings : findings := {| missing := []; blocked := false |}.
Definition note (f : findings) (m : string) : findings := {| missing := missing f ++ [m]; blocked := blocked f |}.
Definition block (f : findings) (m : string) : findings := {| missing := missing f ++ [m]; blocked := true |}.

(** The declared roles, and whether the declaration is valid.  The roles are
    assigned before the rest of the payload is read. *)
Definition declared_roles (body : contract) : list json * bool :=
  match (let? v := item "required_roles" body in tuple_of v) with
  | Raise _ => (map JStr KERNEL_IMPLEMENTED_ROLES, false)
  | Ok roles =>
      (roles,
       is_ok (let? v := item "historical_evidence" body in
              let? l := tuple_of v in
              let? references := map_result historical_evidence_from_document l in
              let? unique := unique_elements roles in
              require (negb (Nat.eqb (length roles) 0) && unique) ValueError "invalid role declaration" ;?
              require (distinct (map (str_field "receipt_ref") references)) ValueError "duplicate historical receipt reference"))
  end.
Definition declarations (m : string) (events : list record) : list record :=
  List.filter (fun r => of_mission m r.2 && String.eqb (event_type r.2) "closeout.obligations.declared") events.
Definition obligations (m : string) (events : list record) : list json * findings :=
  match declarations m events with
  | [r] =>
      let '(roles, valid) := declared_roles (payload r.2) in
      (roles, if valid then no_findings else block no_findings "valid closeout obligation declaration")
  | _ => (map JStr KERNEL_IMPLEMENTED_ROLES, block no_findings "exactly one closeout obligation declaration")
  end.

(** The role results by role, in the order of the log. *)
Definition role_tuples : list string :=
  ["base_artifact_refs"; "candidate_artifact_refs"; "output_artifact_refs"; "claims"; "effect_receipt_refs"; "unresolved_risks"].
Definition role_result_in (e : KernelEvent) : result contract :=
  let? v := item "result" (payload e) in
  let? d := dict_of v in
  let? d := rfold tuple_member d role_tuples in
  let? kw := keywords d in
  let? r := role_result_of kw in
  require (py_eq (get "result_digest" r) (JStr (role_result_digest r))) ValueError "role result digest mismatch" ;?
  Ok r.
Definition role_turn (m : string) (s : list (string * contract) * findings) (x : record) : list (string * contract) * findings :=
  if of_mission m x.2 && String.eqb (event_type x.2) "role.result" then
    match role_result_in x.2 with
    | Ok r =>
        let role := str_field "role" r in
        if bool_decide (is_Some (lookup_key role s.1)) then (s.1, block s.2 "valid role result") else (s.1 ++ [(role, r)], s.2)
    | Raise _ => (s.1, block s.2 "valid role result")
    end
  else s.
Definition role_results (m : string) (events : list record) (f : findings) : list (string * contract) * findings :=
  fold_left (role_turn m) events ([], f).

(** [role in role_results] *)
Definition result_of_role (rs : list (string * contract)) (role : json) : option contract :=
  match role with JStr s => lookup_key s rs | _ => None end.
(** [f"role:{role}"]: a role that is not a string never leaves the constructor
    of the report. *)
Definition role_text (role : json) : string := default "" (as_str role).
Definition fulfilled (roles : list json) (rs : list (string * contract)) : list json :=
  List.filter (fun r => bool_decide (is_Some (result_of_role rs r))) roles.
Definition role_findings (roles : list json) (rs : list (string * contract)) (f : findings) : findings :=
  let f := fold_left (fun f r => match result_of_role rs r with Some _ => f | None => note f ("role:" +:+ role_text r)%stdpp end) roles f in
  if distinct (omap (fun r => option_map (str_field "executor_id") (result_of_role rs r)) roles) then f
  else block f "distinct required role identities".

Definition works_of (m : string) (st : State) : list (string * work_entry) := List.filter (fun kw => String.eqb (w_mission_id kw.2) m) (work st).
Definition is_integrated (w : work_entry) : bool := bool_decide (w_status w = W_INTEGRATED).
Definition integrated (works : list (string * work_entry)) : list string := sorted_str (map fst (List.filter (fun kw => is_integrated kw.2) works)).
Definition work_findings (works : list (string * work_entry)) (f : findings) : findings :=
  match works with
  | [] => note f "integrated local work"
  | _ => fold_left (fun f kw => if is_integrated kw.2 then f else note f ("integrated:" +:+ kw.1)%stdpp) works f
  end.

(** The passed results by work item, in the order of the log, and the bundles by
    result digest. *)
Record evidence := { passed_results : list (string * string); bundle_records : list (string * (string * string)) }.
(** [str(value)]: the reducer admits only strings and [None] here. *)
Definition py_str (v : json) : string := match v with JStr s => s | JNull => "None" | JBool true => "True" | JBool false => "False" | JInt z => str_of_Z z | _ => "" end.
Definition bundle_in (body : contract) : result (string * (string * string)) :=
  let? r := item "result_digest" body in
  let? d := item "bundle_digest" body in
  let? b := item "bundle_ref" body in
  Ok (py_str r, (py_str d, py_str b)).
Definition evidence_turn (m : string) (s : evidence * findings) (x : record) : result (evidence * findings) :=
  let '(ev, f) := s in
  if negb (of_mission m x.2) then Ok s
  else if String.eqb (event_type x.2) "evaluation.result" then
    let? state := nested "result" "state" x.2 in
    let? digest := nested "result" "result_digest" x.2 in
    match py_eq state (JStr (evaluation_value E_PASSED)), work_id x.2, digest with
    | true, Some k, JStr d => Ok ({| passed_results := passed_results ev ++ [(k, d)]; bundle_records := bundle_records ev |}, f)
    | _, _, _ => Ok s
    end
  else if String.eqb (event_type x.2) "evaluation.bundle.recorded" then
    match bundle_in (payload x.2) with
    | Ok (r, b) => Ok ({| passed_results := passed_results ev; bundle_records := dict_set r b (bundle_records ev) |}, f)
    | Raise _ => Ok (ev, block f "valid evaluation bundle record")
    end
  else Ok s.

Definition digests_for (ev : evidence) (k : string) : list string := dedup (map snd (List.filter (fun p => String.eqb p.1 k) (passed_results ev))).

(** One turn of the loop over the integrated work. *)
Record verdicts := { result_digests : list string; bundle_digests : list string }.
Definition integrated_turn (directories : gmap string string) (bundles : string -> option string) (ev : evidence) (s : verdicts * findings) (k : string)
    : result (verdicts * findings) :=
  let '(v, f) := s in
  match digests_for ev k with
  | [d] =>
      let v := {| result_digests := result_digests v ++ [d]; bundle_digests := bundle_digests v |} in
      match lookup_key d (bundle_records ev) with
      | None => Ok (v, block f ("bundle-record:" +:+ k)%stdpp)
      | Some (expected, bundle_ref) =>
          let v := {| result_digests := result_digests v; bundle_digests := bundle_digests v ++ [expected] |} in
          match directories !! bundle_ref with
          | None => Ok (v, block f ("bundle-available:" +:+ bundle_ref)%stdpp)
          | Some directory =>
              match _verified_bundle_digest (bundles directory) with
              | Ok found => Ok (v, if String.eqb found expected then f else block f ("bundle-valid:" +:+ bundle_ref)%stdpp)
              | Raise e => if bool_decide (exc_cls e ∈ [OSError; TechnicalCloseoutError]) then Ok (v, block f ("bundle-valid:" +:+ bundle_ref)%stdpp) else Raise e
              end
          end
      end
  | _ => Ok (v, block f ("passed-evaluation:" +:+ k)%stdpp)
  end.

Definition disposition (f : findings) : TechnicalCloseoutState :=
  if blocked f then BLOCKED else if bool_decide (missing f = []) then TECHNICALLY_VERIFIED else PARTIAL.

Definition derive_technical_closeout (s : store) (m : string) (directories : gmap string string) (bundles : string -> option string)
    : result TechnicalCloseoutReport :=
  let? events := list_events s in
  require (mission_created m events) TechnicalCloseoutError "closeout mission is unknown" ;?
  let? st := projection s in
  match head_of_events events with
  | None => malformed "closeout requires a non-empty event spine"
  | Some head =>
      let '(roles, f) := obligations m events in
      let '(rs, f) := role_results m events f in
      require (forallb hashable roles) TypeError "unhashable type" ;?
      let f := role_findings roles rs f in
      let works := works_of m st in
      let f := work_findings works f in
      let? (ev, f) := rfold (evidence_turn m) ({| passed_results := []; bundle_records := [] |}, f) events in
      let? (v, f) := rfold (integrated_turn directories bundles ev) ({| result_digests := []; bundle_digests := [] |}, f) (integrated works) in
      let? provisional := check_report
        {| tc_mission_id := m; event_head_digest := head; projection_digest := state_digest st; required_roles := roles;
           fulfilled_roles := fulfilled roles rs; missing_obligations := sorted_str (dedup (missing f)); integrated_work_ids := integrated works;
           evaluation_result_digests := sorted_str (result_digests v); evidence_bundle_digests := sorted_str (bundle_digests v);
           tc_state := disposition f; report_digest := zero_digest |} in
      check_report (with_report_digest provisional (technical_closeout_digest provisional))
  end.

(** ** What a clean report rests on *)

Definition clean (f : findings) : Prop := blocked f = false /\ missing f = [].

Lemma note_clean f m : ~ clean (note f m).
Proof. intros [_ H]. by apply app_nil in H as [_ H]. Qed.
Lemma block_clean f m : ~ clean (block f m).
Proof. by intros [H _]. Qed.

(** A loop that only adds findings and ends clean was clean at every turn. *)
Lemma fold_clean {A S} (get_f : S -> findings) (turn : S -> A -> S) l s :
  (forall s x, clean (get_f (turn s x)) -> clean (get_f s)) -> clean (get_f (fold_left turn l s)) ->
  clean (get_f s) /\ forall l1 x l2, l = l1 ++ x :: l2 -> clean (get_f (turn (fold_left turn l1 s) x)).
Proof.
  intros Hback. induction l as [|y l IH] using rev_ind; intros H; [split; [done|]; by intros [|? ?] x l2|].
  rewrite fold_left_app in H. cbn in H. assert (Hl := Hback _ _ H). destruct (IH Hl) as [Hs Hx]. split; [done|].
  intros l1 x l2 E. symmetry in E. destruct l2 as [|z l2 _] using rev_ind.
  - apply app_inj_tail in E as [-> ->]. done.
  - rewrite app_comm_cons, app_assoc in E. apply app_inj_tail in E as [<- ->]. by eapply Hx.
Qed.

Lemma obligations_clean m events roles f : obligations m events = (roles, f) -> clean f ->
  exists x, declarations m events = [x] /\ declared_roles (payload x.2) = (roles, true).
Proof.
  unfold obligations. destruct (declarations m events) as [|x [|]]; intros H Hf;
    [injection H as _ <-; by apply block_clean in Hf| |injection H as _ <-; by apply block_clean in Hf].
  destruct (declared_roles (payload x.2)) as [r []] eqn:E; injection H as <- <-; [by exists x|by apply block_clean in Hf].
Qed.

(** The role results come from events of the log. *)
Definition performed (m : string) (events : list record) (role : string) (r : contract) : Prop :=
  exists x, x ∈ events /\ mission_id x.2 = m /\ event_type x.2 = "role.result" /\ role_result_in x.2 = Ok r /\ str_field "role" r = role.

Lemma role_results_performed m events f rs f' role r : role_results m events f = (rs, f') -> lookup_key role rs = Some r -> performed m events role r.
Proof.
  unfold role_results. revert rs f'. induction events as [|x events IH] using rev_ind; intros rs f' H Hr; [by injection H as <- _|].
  rewrite fold_left_app in H. cbn in H. destruct (fold_left (role_turn m) events ([], f)) as [rs1 f1] eqn:E.
  assert (Hmore : performed m events role r -> performed m (events ++ [x]) role r).
  { intros (y & Hy & Hrest). exists y. split; [apply elem_of_app; by left|done]. }
  unfold role_turn in H. cbn [fst snd] in H. destruct (of_mission m x.2 && _) eqn:Eg; [|injection H as <- <-; by apply Hmore, (IH _ _ eq_refl)].
  destruct (role_result_in x.2) as [r0|] eqn:Er; [|injection H as <- <-; by apply Hmore, (IH _ _ eq_refl)].
  destruct (bool_decide _) eqn:Eb; [injection H as <- <-; by apply Hmore, (IH _ _ eq_refl)|]. injection H as <- <-.
  apply andb_true_iff in Eg as [Em%String.eqb_eq Et%String.eqb_eq]. rewrite lookup_key_app in Hr.
  destruct (lookup_key role rs1) as [r1|] eqn:Ef.
  - apply Hmore, (IH _ _ eq_refl). by rewrite Ef.
  - rewrite lookup_key_cons in Hr. destruct (String.eqb_spec (str_field "role" r0) role) as [Hn|]; [|done]. injection Hr as ->. exists x. rewrite elem_of_app, list_elem_of_singleton. auto.
Qed.

Lemma role_turn_back m s x : clean (role_turn m s x).2 -> clean s.2.
Proof.
  unfold role_turn. destruct (_ && _); [|done]. destruct (role_result_in x.2); [|intros H; by apply block_clean in H].
  destruct (bool_decide _); [intros H; by apply block_clean in H|done].
Qed.

Lemma role_results_clean m events f rs f' : role_results m events f = (rs, f') -> clean f' -> clean f.
Proof.
  unfold role_results. intros E H. replace f' with (fold_left (role_turn m) events ([], f)).2 in H by (by rewrite E).
  by apply (fold_clean snd (role_turn m)) in H as [H _]; [|apply role_turn_back].
Qed.

Lemma role_findings_clean roles rs f : clean (role_findings roles rs f) ->
  clean f /\ (forall role, role ∈ roles -> is_Some (result_of_role rs role))
  /\ NoDup (omap (fun r => option_map (str_field "executor_id") (result_of_role rs r)) roles).
Proof.
  unfold role_findings. destruct (distinct _) eqn:Ed; [|intros H; by apply block_clean in H]. intros H. unfold distinct in Ed. bool_hyps.
  apply (fold_clean id) in H as [Hf Hx]; [|intros s x; unfold id; by destruct (result_of_role rs x); [|intros H'%note_clean]].
  split; [done|]. split; [|done]. intros role (l1 & l2 & ->)%list_elem_of_split. specialize (Hx _ _ _ eq_refl). unfold id in Hx.
  destruct (result_of_role rs role); [by eexists|by apply note_clean in Hx].
Qed.

Lemma work_findings_clean works f : clean (work_findings works f) -> clean f /\ works <> [] /\ forall kw, kw ∈ works -> is_integrated kw.2 = true.
Proof.
  unfold work_findings. destruct works as [|w works]; [intros H; by apply note_clean in H|]. intros H.
  apply (fold_clean id) in H as [Hf Hx]; [|intros s x; unfold id; by destruct (is_integrated x.2); [|intros H'%note_clean]].
  split; [done|]. split; [done|]. intros kw (l1 & l2 & E)%list_elem_of_split. specialize (Hx _ _ _ E). unfold id in Hx.
  destruct (is_integrated kw.2); [done|by apply note_clean in Hx].
Qed.

(** The evidence gathered from a log. *)
Definition passed_in (m : string) (x : record) (k d : string) : Prop :=
  mission_id x.2 = m /\ event_type x.2 = "evaluation.result" /\ work_id x.2 = Some k
  /\ nested "result" "state" x.2 = Ok (JStr "PASSED") /\ nested "result" "result_digest" x.2 = Ok (JStr d).
Definition bound_in (m : string) (x : record) (d expected ref : string) : Prop :=
  mission_id x.2 = m /\ event_type x.2 = "evaluation.bundle.recorded" /\ bundle_in (payload x.2) = Ok (d, (expected, ref)).

Record gathered (m : string) (events : list record) (ev : evidence) : Prop := {
  ga_passed : forall k d, (k, d) ∈ passed_results ev <-> exists x, x ∈ events /\ passed_in m x k d;
  ga_bundle : forall d expected ref, lookup_key d (bundle_records ev) = Some (expected, ref) -> exists x, x ∈ events /\ bound_in m x d expected ref }.

Lemma gathered_skip m events ev x : gathered m events ev -> (forall k d, ~ passed_in m x k d) -> gathered m (events ++ [x]) ev.
Proof.
  intros H Hx. constructor.
  - intros k d. rewrite (ga_passed _ _ _ H). split; intros (y & Hy & Hp); [exists y; rewrite elem_of_app; auto|].
    apply elem_of_app in Hy as [Hy|Hy]; [by exists y|]. apply list_elem_of_singleton in Hy as ->. by apply Hx in Hp.
  - intros d e r Hd. apply (ga_bundle _ _ _ H) in Hd as (y & Hy & Hb). exists y. rewrite elem_of_app. auto.
Qed.

Lemma gathered_turn m events ev f x s' : gathered m events ev -> evidence_turn m (ev, f) x = Ok s' ->
  gathered m (events ++ [x]) s'.1 /\ (clean s'.2 -> clean f).
Proof.
  intros H E. unfold evidence_turn in E. destruct (of_mission m x.2) eqn:Em; cbn [negb] in E.
  2:{ injection E as <-. split; [|done]. apply gathered_skip; [done|]. intros k d (Hm & _). unfold of_mission in Em. by rewrite Hm, String.eqb_refl in Em. }
  apply String.eqb_eq in Em. destruct (String.eqb_spec (event_type x.2) "evaluation.result") as [Et|Et].
  - take_ok E st Est. take_ok E dg Edg. destruct (py_eq st (JStr (evaluation_value E_PASSED))) eqn:Ep.
    + apply py_eq_str in Ep as ->. destruct (work_id x.2) as [k|] eqn:Ek; [destruct dg as [| | |d| |]|];
        try (injection E as <-; split; [|done]; apply gathered_skip; [done|]; intros k' d' (_ & _ & Hk & _ & Hd); congruence).
      injection E as <-. split; [|done]. constructor; cbn [fst passed_results bundle_records].
      * intros k' d'. rewrite elem_of_app, (ga_passed _ _ _ H), list_elem_of_singleton. split.
        -- intros [(y & Hy & Hp)|[= -> ->]]; [exists y; rewrite elem_of_app; auto|]. exists x. rewrite elem_of_app, list_elem_of_singleton.
           split; [by right|]. by split_and!.
        -- intros (y & [Hy|Hy]%elem_of_app & Hp); [left; by exists y|]. apply list_elem_of_singleton in Hy as ->. right.
           destruct Hp as (_ & _ & Hk & _ & Hd). congruence.
      * intros d' e r Hd. apply (ga_bundle _ _ _ H) in Hd as (y & Hy & Hb). exists y. rewrite elem_of_app. auto.
    + injection E as <-. split; [|done]. apply gathered_skip; [done|]. intros k d (_ & _ & _ & Hs & _). rewrite Est in Hs. injection Hs as ->. done.
  - destruct (String.eqb_spec (event_type x.2) "evaluation.bundle.recorded") as [Eb|Eb].
    2:{ injection E as <-. split; [|done]. apply gathered_skip; [done|]. by intros k d (_ & Ht & _). }
    assert (Hskip : gathered m (events ++ [x]) ev) by (apply gathered_skip; [done|]; by intros k d (_ & Ht & _)).
    destruct (bundle_in (payload x.2)) as [[r b]|] eqn:Ebd; injection E as <-; [|split; [done|by intros ?%block_clean]].
    split; [|done]. constructor; [apply Hskip|]. cbn [fst bundle_records]. intros d e ref. rewrite lookup_key_set.
    destruct (String.eqb_spec r d) as [<-|]; [|apply (ga_bundle _ _ _ Hskip)]. intros [= ->]. exists x. rewrite elem_of_app, list_elem_of_singleton.
    split; [by right|]. by split_and!.
Qed.

Lemma gather_ok m events f ev f' : rfold (evidence_turn m) ({| passed_results := []; bundle_records := [] |}, f) events = Ok (ev, f') ->
  gathered m events ev /\ (clean f' -> clean f).
Proof.
  revert ev f'. induction events as [|x events IH] using rev_ind; intros ev f' H.
  - injection H as <- <-. split; [|done]. constructor; cbn; [|done]. intros k d. rewrite elem_of_nil. split; [done|]. by intros (x & Hx%elem_of_nil & _).
  - rewrite rfold_app in H. take_ok H s1 E1. destruct s1 as [ev1 f1]. destruct (IH _ _ E1) as [G B]. cbn [rfold] in H. take_ok H s2 E2. injection H as ->.
    destruct (gathered_turn _ _ _ _ _ _ G E2) as [G' B']. split; [exact G'|]. intros C. apply B, B', C.
Qed.

(** What the loop over the integrated work confirms of one item. *)
Definition confirmed (directories : gmap string string) (bundles : string -> option string) (ev : evidence) (v : verdicts) (k : string) : Prop :=
  exists d expected ref directory, digests_for ev k = [d] /\ d ∈ result_digests v
    /\ lookup_key d (bundle_records ev) = Some (expected, ref) /\ expected ∈ bundle_digests v
    /\ directories !! ref = Some directory /\ _verified_bundle_digest (bundles directory) = Ok expected.

Definition verdicts_le (v v' : verdicts) : Prop := result_digests v ⊆ result_digests v' /\ bundle_digests v ⊆ bundle_digests v'.

Lemma confirmed_le directories bundles ev v v' k : verdicts_le v v' -> confirmed directories bundles ev v k -> confirmed directories bundles ev v' k.
Proof. intros [H1 H2] (d & e & r & dir & ? & Hd & ? & He & ? & ?). exists d, e, r, dir. auto 10. Qed.

Lemma integrated_turn_ok directories bundles ev v f k s' : integrated_turn directories bundles ev (v, f) k = Ok s' ->
  verdicts_le v s'.1 /\ (clean s'.2 -> clean f /\ confirmed directories bundles ev s'.1 k).
Proof.
  unfold integrated_turn. destruct (digests_for ev k) as [|d [|]] eqn:Ed;
    [intros [= <-]; split; [done|by intros ?%block_clean]| |intros [= <-]; split; [done|by intros ?%block_clean]].
  destruct (lookup_key d (bundle_records ev)) as [[expected ref]|] eqn:Eb;
    [|intros [= <-]; split; [split; cbn; set_solver|by intros ?%block_clean]].
  destruct (directories !! ref) as [directory|] eqn:Er; [|intros [= <-]; split; [split; cbn; set_solver|by intros ?%block_clean]].
  destruct (_verified_bundle_digest (bundles directory)) as [found|e] eqn:Ev.
  - intros [= <-]. split; [split; cbn; set_solver|]. cbn [snd fst]. destruct (String.eqb_spec found expected) as [->|]; [|by intros ?%block_clean].
    intros C. split; [done|]. exists d, expected, ref, directory. cbn. split_and!; set_solver.
  - destruct (bool_decide _); [|done]. intros [= <-]. split; [split; cbn; set_solver|by intros ?%block_clean].
Qed.

Lemma verdicts_le_refl v : verdicts_le v v.
Proof. by split. Qed.
Lemma verdicts_le_trans v v' v'' : verdicts_le v v' -> verdicts_le v' v'' -> verdicts_le v v''.
Proof. intros [? ?] [? ?]. split; by etrans. Qed.

Lemma integrated_loop directories bundles ev ks v f v' f' :
  rfold (integrated_turn directories bundles ev) (v, f) ks = Ok (v', f') ->
  verdicts_le v v' /\ (clean f' -> clean f /\ forall k, k ∈ ks -> confirmed directories bundles ev v' k).
Proof.
  revert v' f'. induction ks as [|k ks IH] using rev_ind; intros v' f' H.
  - injection H as <- <-. split; [apply verdicts_le_refl|]. intros C. split; [done|]. by intros k Hk%elem_of_nil.
  - rewrite rfold_app in H. take_ok H s1 E1. destruct s1 as [v1 f1]. destruct (IH _ _ E1) as [L1 C1]. cbn [rfold] in H. take_ok H s2 E2. injection H as ->.
    destruct (integrated_turn_ok _ _ _ _ _ _ _ E2) as [L2 C2]. cbn [fst snd] in *. split; [by eapply verdicts_le_trans|]. intros C. destruct (C2 C) as [Cf Hk].
    destruct (C1 Cf) as [C0 Hks]. split; [done|]. intros k' [Hin|Hin]%elem_of_app; [|by apply list_elem_of_singleton in Hin as ->].
    eapply confirmed_le; [exact L2|by apply Hks].
Qed.

Lemma disposition_verified f : disposition f = TECHNICALLY_VERIFIED <-> clean f.
Proof.
  unfold disposition, clean. destruct (blocked f); [split; [done|by intros [? _]]|]. case_bool_decide; split; try done; by intros [_ ?].
Qed.

(** ** Verdicts and their work items *)

Lemma replay_reduced evs st : rfold reduce_row empty_state evs = Ok st -> replay evs = Ok st.
Proof.
  unfold replay. generalize empty_state. induction evs as [|e evs IH]; intros s H; [exact H|]. cbn [rfold] in *. take_ok H s1 E.
  apply reduce_row_ok in E. rewrite E. by apply IH.
Qed.

(** A verdict names the mission its work item belongs to for good. *)
Lemma verdict_mission evs st e k : replay evs = Ok st -> e ∈ evs -> event_type e = "evaluation.result" -> work_id e = Some k ->
  exists w, lookup_key k (work st) = Some w /\ w_mission_id w = mission_id e.
Proof.
  unfold replay. revert st. induction evs as [|x evs IH] using rev_ind; intros st H Hin Ht Hk; [by apply elem_of_nil in Hin|].
  rewrite rfold_app in H. take_ok H s1 E1. cbn [rfold] in H. take_ok H s2 E2. injection H as ->.
  apply elem_of_app in Hin as [Hin|Hin].
  - destruct (IH _ E1 Hin Ht Hk) as (w & Hw & Hm). destruct (reduction_moves _ _ _ (reduce_event_sound _ _ _ E2) k) as [_ Hmove].
    rewrite Hw in Hmove. destruct (lookup_key k (work st)) as [w'|]; [|done]. exists w'. split; [done|]. destruct Hmove as [Hm' _]. congruence.
  - apply list_elem_of_singleton in Hin as ->. unfold reduce_event in E2. rewrite Ht in E2. unfold reducers in E2. rewrite !lookup_key_cons in E2.
    cbn [String.eqb Ascii.eqb Bool.eqb] in E2. unfold reduce_evaluation_result in E2. take_ok E2 kw En. destruct kw as [k' w].
    apply named_work_ok in En as [Hk' Hw]. assert (k' = k) as -> by congruence. take_guard E2 Eg. rewrite !andb_true_iff in Eg.
    destruct Eg as [[Em%String.eqb_eq _] _]. destruct (get "result" (payload x)); try done. take_ok E2 vals Ev. take_ok E2 evl Ee. take_guard E2 Eb.
    injection E2 as <-. rewrite lookup_put_work, String.eqb_refl. eexists. split; [done|]. destruct (py_eq (get "state" evl) _); exact Em.
Qed.

Lemma passes_passed_in m x k p d : passes x.2 k p d -> mission_id x.2 = m -> passed_in m x k d.
Proof.
  intros (Ht & _ & Hk & doc & Hr & Hs & _ & Hd & _) Hm. unfold get in Hr. destruct (lookup_key "result" (payload x.2)) as [v|] eqn:El; [|done].
  cbn in Hr. subst v. unfold passed_in, nested. rewrite El, Hs, Hd. done.
Qed.

Lemma check_report_same r r' : check_report r = Ok r' -> r' = r.
Proof.
  unfold check_report. intros H. take_ok H u1 E1. take_ok H u2 E2. take_ok H u3 E3. take_ok H u4 E4. take_ok H u5 E5. take_ok H u6 E6. take_ok H u7 E7.
  take_ok H u8 E8. take_ok H u9 E9. take_ok H u10 E10. by injection H as <-.
Qed.

Lemma results_of_roles rs roles : (forall role, role ∈ roles -> is_Some (result_of_role rs role)) ->
  exists rl, Forall2 (fun role r => result_of_role rs role = Some r) roles rl
    /\ omap (fun r => option_map (str_field "executor_id") (result_of_role rs r)) roles = map (str_field "executor_id") rl
    /\ fulfilled roles rs = roles.
Proof.
  induction roles as [|role roles IH]; intros H; [by exists []|]. destruct (H role) as [r Hr]; [by left|].
  destruct IH as (rl & Hf & Ho & Hl); [intros x Hx; apply H; by right|]. exists (r :: rl). split; [by constructor|]. cbn [omap list_omap map].
  unfold fulfilled in *. cbn [List.filter]. rewrite (bool_decide_eq_true_2 (is_Some (result_of_role rs role))) by (by eexists). rewrite Hr. cbn [option_map].
  change (omap ?f roles) with (list_omap _ _ f roles) in *. by rewrite Ho, Hl.
Qed.

Lemma elem_works_of m st k w : (k, w) ∈ works_of m st <-> (k, w) ∈ work st /\ w_mission_id w = m.
Proof. unfold works_of. rewrite !list_elem_of_In, filter_In. cbn [snd]. by rewrite String.eqb_eq. Qed.

Lemma elem_integrated works k : k ∈ integrated works <-> exists w, (k, w) ∈ works /\ is_integrated w = true.
Proof.
  unfold integrated, sorted_str. rewrite elem_of_sorted_by, list_elem_of_In, in_map_iff. split.
  - intros ([k' w] & <- & [Hin Hi]%filter_In). exists w. split; [by apply list_elem_of_In|done].
  - intros (w & Hin & Hi). exists (k, w). split; [done|]. apply filter_In. split; [by apply list_elem_of_In|done].
Qed.

(** C5: a mission is only reported technically verified on evidence in its own
    log.  If a store whose history is intact yields a report in that state, then
    exactly one event declared the obligations, with the roles the report
    requires; every one of them is fulfilled by a recorded role result whose
    digest binds it, and their executors are distinct; the mission has work, and
    every work item of it is integrated, with an architect's sealed plan, a
    curator's passing verdict against that plan whose digest the report lists,
    and a bundle recorded for exactly that verdict, whose file was found, verifies
    and has the recorded digest, which the report lists too. *)
Theorem verified_closeout_is_evidenced s m directories bundles report : store_ok s ->
  derive_technical_closeout s m directories bundles = Ok report -> tc_state report = TECHNICALLY_VERIFIED ->
  exists events st declaration, list_events s = Ok events /\ _replay_locked s None = Ok st
    /\ declarations m events = [declaration] /\ declared_roles (payload declaration.2) = (required_roles report, true)
    /\ fulfilled_roles report = required_roles report /\ missing_obligations report = []
    /\ (exists rs, NoDup (map (str_field "executor_id") rs)
        /\ Forall2 (fun role r => exists name, role = JStr name /\ performed m events name r) (required_roles report) rs)
    /\ (exists k w, lookup_key k (work st) = Some w /\ w_mission_id w = m)
    /\ forall k w, lookup_key k (work st) = Some w -> w_mission_id w = m ->
        w_status w = W_INTEGRATED /\ k ∈ integrated_work_ids report
        /\ exists p d plan_event verdict binding expected ref directory,
             plan_event ∈ events /\ verdict ∈ events /\ binding ∈ events
             /\ seals_plan plan_event.2 k p /\ passes verdict.2 k p d /\ bound_in m binding d expected ref
             /\ directories !! ref = Some directory /\ _verified_bundle_digest (bundles directory) = Ok expected
             /\ d ∈ evaluation_result_digests report /\ expected ∈ evidence_bundle_digests report.
Proof.
  intros Hok H Hstate. unfold derive_technical_closeout in H. take_ok H events Ev. take_guard H Ec. take_ok H view Eview.
  destruct (head_of_events events) as [head|]; [|done]. destruct (obligations m events) as [roles f0] eqn:Eo.
  destruct (role_results m events f0) as [rs f1] eqn:Er. take_guard H Eh. take_ok H evf Eg. destruct evf as [ev f2]. take_ok H vf Ei. destruct vf as [v f3].
  take_ok H provisional Ep. apply check_report_same in Ep as ->, H as ->. cbn in Hstate. apply disposition_verified in Hstate as C3.
  destruct (integrated_loop _ _ _ _ _ _ _ _ Ei) as [_ Hl]. destruct (Hl C3) as [C2 Hconf]. destruct (gather_ok _ _ _ _ _ Eg) as [G B]. apply B in C2.
  apply work_findings_clean in C2 as (C1 & Hne & Hint). apply role_findings_clean in C1 as (C1 & Hroles & Hex).
  apply (role_results_clean _ _ _ _ _ Er) in C1. destruct (obligations_clean _ _ _ _ Eo C1) as (decl & Hd & Hdr).
  destruct (results_of_roles rs roles Hroles) as (rl & Hf2 & Ho & Hful).
  destruct (projection_agrees s Hok) as (st & view' & Hst & Hv & _ & Hw). rewrite Eview in Hv. injection Hv as <-.
  destruct (projection_keys s view Hok Eview) as [_ Hkeys].
  pose proof Hst as Hrep. apply (replay_rows_verify None) in Hrep as (pairs & Hpairs & _ & Hreduce & _). unfold list_events in Ev. rewrite Ev in Hpairs. injection Hpairs as <-.
  apply replay_reduced in Hreduce.
  exists events, st, decl. split; [exact Ev|]. split; [done|]. split; [done|]. cbn. split; [done|]. split; [exact Hful|]. split.
  { destruct C3 as [_ ->]. reflexivity. }
  split.
  { exists rl. rewrite <- Ho. split; [done|]. eapply Forall2_impl; [exact Hf2|]. intros role r Hr. destruct role as [| | |name| |]; try done. exists name. split; [done|].
    by eapply role_results_performed. }
  assert (Hview : forall k w, lookup_key k (work st) = Some w -> w_mission_id w = m ->
            exists w', (k, w') ∈ works_of m view /\ w_status w' = w_status w).
  { intros k w Hk Hm. specialize (Hw k). rewrite Hk in Hw. cbn in Hw. destruct (lookup_key k (work view)) as [w'|] eqn:Ek; [|done]. injection Hw as H1 H2.
    exists w'. split; [|done]. apply elem_works_of. split; [by apply lookup_key_in|congruence]. }
  split.
  { destruct (works_of m view) as [|[k w'] rest] eqn:Ew; [done|]. assert (Hin : (k, w') ∈ works_of m view) by (rewrite Ew; by left).
    apply elem_works_of in Hin as [Hin Hm]. apply (lookup_key_NoDup _ _ _ Hkeys) in Hin. specialize (Hw k). rewrite Hin in Hw. cbn in Hw.
    destruct (lookup_key k (work st)) as [w|] eqn:Ek; [|done]. injection Hw as H1 _. exists k, w. split; [done|]. congruence. }
  intros k w Hk Hm. destruct (Hview k w Hk Hm) as (w' & Hin & Hs). assert (Hi : is_integrated w' = true) by (by apply (Hint (k, w'))).
  assert (Hki : k ∈ integrated (works_of m view)) by (apply elem_integrated; by exists w'). apply bool_decide_eq_true in Hi. rewrite Hs in Hi.
  split; [done|]. split; [done|]. destruct (Hconf k Hki) as (d & expected & ref & dir & Hds & Hdv & Hb & Hbv & Hdir & Hver).
  destruct (replay_backed _ _ Hreduce _ _ Hk) as (Hp & Hpd & Ha). destruct Ha as [d' Hd']; [by right|]. destruct (Hpd d' Hd') as (p & ve & Hpl & Hve & Hpass).
  destruct (Hp p Hpl) as (pe & Hpe & Hseal). apply list_elem_of_In, in_map_iff in Hve as (vx & <- & Hvx), Hpe as (px & <- & Hpx).
  apply list_elem_of_In in Hvx, Hpx. destruct (ga_bundle _ _ _ G _ _ _ Hb) as (bx & Hbx & Hbind).
  assert (Hvm : mission_id vx.2 = m).
  { destruct Hpass as (Ht & _ & Hwk & _). assert (Hin2 : vx.2 ∈ map snd events) by (apply list_elem_of_In, in_map, list_elem_of_In; exact Hvx).
    destruct (verdict_mission _ _ _ _ Hreduce Hin2 Ht Hwk) as (w2 & Hw2 & Hm2). congruence. }
  assert (d' = d) as ->.
  { assert (Hpi : (k, d') ∈ passed_results ev) by (apply (ga_passed _ _ _ G); exists vx; split; [done|]; by eapply passes_passed_in).
    assert (Hdd : d' ∈ digests_for ev k).
    { unfold digests_for. apply elem_of_dedup, list_elem_of_In, in_map_iff. exists (k, d'). split; [done|]. apply filter_In. split; [by apply list_elem_of_In|].
      apply String.eqb_refl. }
    rewrite Hds in Hdd. by apply list_elem_of_singleton in Hdd. }
  exists p, d, px, vx, bx, expected, ref, dir. unfold sorted_str. rewrite !elem_of_sorted_by. by split_and!.
Qed.

(** ** A sample mission, from its first event to its report *)

Module SamplePipeline.
Import SampleVerification.

Definition role_values (role executor : string) : contract :=
  [("mission_id", JStr "MISSION-1"); ("work_id", JStr "WORK-1"); ("attempt_id", JStr "ATTEMPT-1"); ("role", JStr role);
   ("executor_id", JStr executor); ("context_manifest_digest", JStr zero_digest); ("authority_envelope_digest", JStr zero_digest);
   ("base_artifact_refs", JList []); ("candidate_artifact_refs", JList []); ("output_artifact_refs", JList []); ("claims", JList []);
   ("effect_receipt_refs", JList []); ("unresolved_risks", JList []); ("requested_next_role", JNull); ("self_assessment", JStr "done")].
Definition role_result (role executor : string) : contract :=
  let r := role_values role executor in r ++ [("result_digest", JStr (canonical_digest (JObj r)))].

Definition pipeline : M workshop Z :=
  on_store (start ;* append_role_result (role_result "builder" "bob") _TIME stamp ;* append_role_result (role_result "curator" "cy") _TIME stamp ;*
            move 6 "AWAITING_VERIFICATION") ;*
  let* out := verification in
  let* w := getM in
  on_store (record_evaluation_bundle (fun d => w_bundles w !! d) "WORK-1" (vo_result out) (vo_bundle_path out) "BUNDLE-1" "cy" stamp ;*
            accept_verified_work "WORK-1" (vo_result out) "ivy" stamp ;* integrate_verified_work "WORK-1" (vo_result out) "ivy" stamp ;*
            declare_closeout_obligations "MISSION-1" ["builder"; "curator"] [] "owner" stamp).

(** The events of its log and its bundle. *)
Definition outcome : list KernelEvent * string :=
  let w := (pipeline (bench fresh_store)).2 in
  (match list_events (w_store w) with Ok l => map snd l | Raise _ => [] end, default "" (w_bundles w !! "/bundles/1")).
Definition closed_ops : list op := [Append (map (fun e => (e, None)) outcome.1) None stamp].
Definition directories : gmap string string := {["BUNDLE-1" := "/bundles/1"]}.
Definition disk (text : option string) (directory : string) : option string := if String.eqb directory "/bundles/1" then text else None.
Definition closed : store := run_ops closed_ops fresh_store.
Definition report_on (text : option string) : result TechnicalCloseoutReport := derive_technical_closeout closed "MISSION-1" directories (disk text).
Definition no_report : TechnicalCloseoutReport :=
  {| tc_mission_id := ""; event_head_digest := ""; projection_digest := ""; required_roles := []; fulfilled_roles := [];
     missing_obligations := []; integrated_work_ids := []; evaluation_result_digests := []; evidence_bundle_digests := [];
     tc_state := BLOCKED; report_digest := "" |}.
Definition ok_or {A} (a : A) (r : result A) : A := match r with Ok x => x | Raise _ => a end.
Definition report : TechnicalCloseoutReport := Eval vm_compute in ok_or no_report (report_on (Some outcome.2)).

End SamplePipeline.

Lemma verified_closeout_is_evidenced_witness :
  tc_state SamplePipeline.report = TECHNICALLY_VERIFIED /\ required_roles SamplePipeline.report = [JStr "builder"; JStr "curator"]
  /\ exists events declaration, declarations "MISSION-1" events = [declaration]
       /\ declared_roles (payload declaration.2) = (required_roles SamplePipeline.report, true).
Proof.
  split; [reflexivity|]. split; [reflexivity|].
  assert (E : SamplePipeline.report_on (Some SamplePipeline.outcome.2) = Ok SamplePipeline.report) by (vm_compute; reflexivity).
  destruct (verified_closeout_is_evidenced SamplePipeline.closed "MISSION-1" SamplePipeline.directories
              (SamplePipeline.disk (Some SamplePipeline.outcome.2)) SamplePipeline.report
              (reachable_store_ok SamplePipeline.closed_ops) E eq_refl) as (events & st & declaration & _ & _ & H1 & H2 & _).
  exists events, declaration. exact (conj H1 H2).
Defined.

(** A bundle that is gone blocks the report; one whose file holds JSON that is
    not an object aborts it. *)
Example missing_bundle_blocks :
  match SamplePipeline.report_on None with Ok r => Some (tc_state r, missing_obligations r) | Raise _ => None end = Some (BLOCKED, ["bundle-valid:BUNDLE-1"]).
Proof. vm_compute. reflexivity. Qed.
Example scalar_bundle_aborts :
  match SamplePipeline.report_on (Some "7") with Ok _ => None | Raise e => Some (exc_cls e) end = Some AttributeError.
Proof. vm_compute. reflexivity. Qed.

End Closeout.
