(* ===== verification/Authority.v ===== *)
(** * Authority

    [brain_kernel/authority.py]: the in-memory registry of sealed constraint
    envelopes, their admission as minted, externally verified or delegated
    authority, revocation, and the capability tokens it issues. *)

From S2P Require Import Prelude Sha256 Canonical PyLib Schema Contracts.

Module Authority.
Export Contracts.

#[global] Instance Budget_eq_dec : EqDecision Budget.
Proof. solve_decision. Defined.
#[global] Instance ConstraintEnvelope_eq_dec : EqDecision ConstraintEnvelope.
Proof. solve_decision. Defined.

(** ** Tokens and attestations *)

Definition READ_ACTIONS : list string := ["read"].

Record CapabilityToken := {
  envelope_digest : string; tok_action : string; tok_target : string;
  token_digest : string; issuance_witness : string }.
#[global] Instance CapabilityToken_eq_dec : EqDecision CapabilityToken.
Proof. solve_decision. Defined.

Record RootProvenance := {
  rp_envelope_digest : string; rp_issuer : string; rp_authority_ref : string;
  rp_recorded_at : string; rp_record_digest : string }.

Definition _rfc3339 (value label : string) : result datetime :=
  require (negb (is_blank value)) AuthorityDenied (label +:+ " requires an RFC 3339 time")%stdpp ;?
  match from_zulu value with
  | Some d => require (is_aware d) AuthorityDenied (label +:+ " requires an RFC 3339 time")%stdpp ;? Ok d
  | None => raise AuthorityDenied (label +:+ " requires an RFC 3339 time")%stdpp
  end.

Record ExternalRootAttestation := {
  at_envelope_digest : string; at_issuer : string; at_authority_ref : string;
  at_issued_at : string; at_expires_at : string; attestation_digest : string }.

Definition attestation_payload (envelope issuer authority_ref issued expires : string) : json :=
  JObj [("envelope", JStr envelope); ("issuer", JStr issuer); ("authority_ref", JStr authority_ref);
        ("issued_at", JStr issued); ("expires_at", JStr expires)].

(** [a < b] on the two instants. *)
Definition dt_lt (a b : datetime) : result bool := let? ge := dt_le b a in Ok (negb ge).

(** [ExternalRootAttestation.__post_init__] *)
Definition check_attestation (a : ExternalRootAttestation) : result ExternalRootAttestation :=
  require (negb (String.eqb (at_envelope_digest a) "") && negb (is_blank (at_issuer a)) && negb (is_blank (at_authority_ref a)))
    AuthorityDenied "external root attestation requires bound authority claims" ;?
  let? issued := _rfc3339 (at_issued_at a) "external root attestation issued_at" in
  let? expires := _rfc3339 (at_expires_at a) "external root attestation expires_at" in
  let? alive := dt_lt issued expires in
  require alive AuthorityDenied "external root attestation must expire after issuance" ;?
  require (String.eqb (attestation_digest a)
             (canonical_digest (attestation_payload (at_envelope_digest a) (at_issuer a) (at_authority_ref a)
                                                    (at_issued_at a) (at_expires_at a))))
    AuthorityDenied "external root attestation digest does not seal its claims" ;?
  Ok a.

(** [ExternalRootAttestation.issue] *)
Definition issue_attestation (e : ConstraintEnvelope) (issuer authority_ref issued expires : string)
    : result ExternalRootAttestation :=
  check_attestation
    {| at_envelope_digest := digest_value e; at_issuer := issuer; at_authority_ref := authority_ref;
       at_issued_at := issued; at_expires_at := expires;
       attestation_digest := canonical_digest (attestation_payload (digest_value e) issuer authority_ref issued expires) |}.

Record ExternalRootVerification := {
  ve_attestation_digest : string; ve_verifier_id : string; ve_receipt_ref : string;
  ve_verified_at : string; ve_accepted : bool; verification_digest : string }.

Definition verification_payload (attestation verifier receipt verified : string) (accepted : bool) : json :=
  JObj [("attestation", JStr attestation); ("verifier", JStr verifier); ("receipt_ref", JStr receipt);
        ("verified_at", JStr verified); ("accepted", JBool accepted)].

(** [ExternalRootVerification.__post_init__] *)
Definition check_verification (v : ExternalRootVerification) : result ExternalRootVerification :=
  require (negb (String.eqb (ve_attestation_digest v) "") && negb (is_blank (ve_verifier_id v)) && negb (is_blank (ve_receipt_ref v)))
    AuthorityDenied "external root verification requires verifier evidence" ;?
  _rfc3339 (ve_verified_at v) "external root verification verified_at" ;?
  require (String.eqb (verification_digest v)
             (canonical_digest (verification_payload (ve_attestation_digest v) (ve_verifier_id v) (ve_receipt_ref v)
                                                     (ve_verified_at v) (ve_accepted v))))
    AuthorityDenied "external root verification digest does not seal its claims" ;?
  Ok v.

(** [ExternalRootVerification.record] *)
Definition record_verification (a : ExternalRootAttestation) (verifier receipt verified : string) (accepted : bool)
    : result ExternalRootVerification :=
  check_verification
    {| ve_attestation_digest := attestation_digest a; ve_verifier_id := verifier; ve_receipt_ref := receipt;
       ve_verified_at := verified; ve_accepted := accepted;
       verification_digest := canonical_digest (verification_payload (attestation_digest a) verifier receipt verified accepted) |}.

(** The owner-operated verifier behind the [ExternalRootVerifier] protocol. *)
Record ExternalRootVerifier := {
  verifier_id : string;
  verify_root : ExternalRootAttestation -> result ExternalRootVerification }.

(** ** The registry *)

Record registry := {
  envelopes : gmap string ConstraintEnvelope;
  roots : gmap string RootProvenance;
  external_roots : gmap string (ExternalRootAttestation * ExternalRootVerification);
  revoked : gset string;
  revoked_authorities : gset string }.

Definition empty_registry : registry :=
  {| envelopes := ∅; roots := ∅; external_roots := ∅; revoked := ∅; revoked_authorities := ∅ |}.

Definition intersect_envelopes (parent child : ConstraintEnvelope) : result ConstraintEnvelope :=
  let denied := "child envelope broadens or is not bound to its parent" in
  require (bool_decide (parent_envelope_digest child = Some (digest_value parent))) AuthorityDenied denied ;?
  let? narrow := is_no_broader_than child parent in
  require narrow AuthorityDenied denied ;?
  Ok child.

(** Whether an envelope is itself revoked, by its digest or by its authority. *)
Definition revoked_here (r : registry) (e : ConstraintEnvelope) : bool :=
  bool_decide (digest_value e ∈ revoked r) || bool_decide (authority_key e ∈ revoked_authorities r).

(** The loop of [_is_revoked]: it leaves the registry or meets a digest again
    after at most one turn per admitted envelope. *)
Fixpoint revoked_walk (fuel : nat) (r : registry) (seen : gset string) (current : ConstraintEnvelope) : bool :=
  match fuel with
  | O => false
  | S f =>
      if bool_decide (digest_value current ∈ seen) then false
      else if revoked_here r current then true
      else match parent_envelope_digest current with
           | None => false
           | Some d =>
               match envelopes r !! d with
               | Some parent => revoked_walk f r ({[ digest_value current ]} ∪ seen) parent
               | None => false
               end
           end
  end.
Definition _is_revoked (r : registry) (e : ConstraintEnvelope) : bool :=
  revoked_walk (S (S (size (envelopes r)))) r ∅ e.

Definition put_envelope (r : registry) (e : ConstraintEnvelope) : registry :=
  {| envelopes := <[digest_value e := e]> (envelopes r); roots := roots r; external_roots := external_roots r;
     revoked := revoked r; revoked_authorities := revoked_authorities r |}.

Definition _admit (e : ConstraintEnvelope) : M registry unit :=
  let* r := getM in
  guardM (String.eqb (digest_value e) (content_digest e)) AuthorityDenied "envelope digest does not seal its contents" ;*
  guardM (negb (_is_revoked r e)) AuthorityDenied "authority is revoked" ;*
  putM (put_envelope r e).

Definition provenance (envelope issuer authority_ref recorded : string) : RootProvenance :=
  {| rp_envelope_digest := envelope; rp_issuer := issuer; rp_authority_ref := authority_ref; rp_recorded_at := recorded;
     rp_record_digest := canonical_digest
       (JObj [("envelope", JStr envelope); ("issuer", JStr issuer); ("authority_ref", JStr authority_ref);
              ("recorded_at", JStr recorded)]) |}.
Definition put_root (d : string) (p : RootProvenance) : M registry unit :=
  let* r := getM in
  putM {| envelopes := envelopes r; roots := <[d := p]> (roots r); external_roots := external_roots r;
          revoked := revoked r; revoked_authorities := revoked_authorities r |}.
Definition put_external (d : string) (ev : ExternalRootAttestation * ExternalRootVerification) : M registry unit :=
  let* r := getM in
  putM {| envelopes := envelopes r; roots := roots r; external_roots := <[d := ev]> (external_roots r);
          revoked := revoked r; revoked_authorities := revoked_authorities r |}.

Definition mint_root (e : ConstraintEnvelope) (issuer authority_ref recorded : string) : M registry RootProvenance :=
  guardM (bool_decide (parent_envelope_digest e = None)) AuthorityDenied "root authority must not declare a parent" ;*
  guardM (negb (is_blank issuer)) AuthorityDenied "root authority requires a recorded issuer" ;*
  guardM (negb (is_blank authority_ref)) AuthorityDenied "root authority requires a recorded authority reference" ;*
  guardM (match from_zulu recorded with Some _ => true | None => false end) AuthorityDenied "root provenance requires an RFC 3339 time" ;*
  _admit e ;*
  let p := provenance (digest_value e) issuer authority_ref recorded in
  put_root (digest_value e) p ;*
  ret p.

(** The checks of [admit_external_root] before it admits. *)
Definition verify_external (e : ConstraintEnvelope) (a : ExternalRootAttestation) (v : ExternalRootVerifier)
    : result ExternalRootVerification :=
  require (bool_decide (parent_envelope_digest e = None)) AuthorityDenied "external root authority must not declare a parent" ;?
  require (String.eqb (at_envelope_digest a) (digest_value e) && String.eqb (at_issuer a) (strip (at_issuer a))
           && String.eqb (at_authority_ref a) (strip (at_authority_ref a)))
    AuthorityDenied "external root attestation does not bind this authority" ;?
  require (negb (is_blank (verifier_id v))) AuthorityDenied "external root requires a configured verifier" ;?
  let? ver := match verify_root v a with
              | Ok x => Ok x
              | Raise x => raise AuthorityDenied ("external root verifier failed closed: " +:+ exc_name (exc_cls x))%stdpp
              end in
  require (String.eqb (ve_attestation_digest ver) (attestation_digest a) && String.eqb (ve_verifier_id ver) (verifier_id v)
           && ve_accepted ver)
    AuthorityDenied "external root verification does not accept this attestation" ;?
  let? verified := _rfc3339 (ve_verified_at ver) "external root verification verified_at" in
  let? issued := _rfc3339 (at_issued_at a) "external root attestation issued_at" in
  let? expires := _rfc3339 (at_expires_at a) "external root attestation expires_at" in
  let? early := dt_lt verified issued in
  let? late := dt_le expires verified in
  require (negb (early || late)) AuthorityDenied "external root verification is outside attestation validity" ;?
  Ok ver.

Definition admit_external_root (e : ConstraintEnvelope) (a : ExternalRootAttestation) (v : ExternalRootVerifier)
    : M registry RootProvenance :=
  let* ver := liftR (verify_external e a v) in
  _admit e ;*
  let p := provenance (digest_value e) (at_issuer a) (at_authority_ref a) (ve_verified_at ver) in
  put_root (digest_value e) p ;*
  put_external (digest_value e) (a, ver) ;*
  ret p.

(** [AuthorityRegistry.envelope] *)
Definition envelope (r : registry) (d : string) : result ConstraintEnvelope :=
  match envelopes r !! d with
  | Some e => require (negb (_is_revoked r e)) AuthorityDenied "authority envelope is unavailable" ;? Ok e
  | None => raise AuthorityDenied "authority envelope is unavailable"
  end.

Definition require_external_root (r : registry) (d now : string)
    : result (ExternalRootAttestation * ExternalRootVerification) :=
  envelope r d ;?
  match external_roots r !! d with
  | None => raise AuthorityDenied "authority root lacks external verifier evidence"
  | Some (a, ver) =>
      let? moment := _rfc3339 now "external root verification now" in
      let? expires := _rfc3339 (at_expires_at a) "external root attestation expires_at" in
      let? late := dt_le expires moment in
      require (negb late) AuthorityDenied "external root attestation is expired" ;?
      require (ve_accepted ver) AuthorityDenied "external root verification is not accepted" ;?
      Ok (a, ver)
  end.

Definition register (e : ConstraintEnvelope) (parent : option ConstraintEnvelope) : M registry unit :=
  let* r := getM in
  match parent_envelope_digest e with
  | None => fail AuthorityDenied "root envelope requires an explicit mint ceremony"
  | Some d =>
      match envelopes r !! d with
      | None => fail AuthorityDenied "parent envelope is required"
      | Some admitted =>
          guardM (match parent with Some p => bool_decide (p = admitted) | None => true end)
            AuthorityDenied "parent envelope is not the admitted authority" ;*
          let* _ := liftR (intersect_envelopes admitted e) in
          _admit e
      end
  end.

Definition revoke (d : string) : M registry unit :=
  let* r := getM in
  putM {| envelopes := envelopes r; roots := roots r; external_roots := external_roots r;
          revoked := {[ d ]} ∪ revoked r;
          revoked_authorities := match envelopes r !! d with
                                 | Some e => {[ authority_key e ]} ∪ revoked_authorities r
                                 | None => revoked_authorities r
                                 end |}.

(** ** Issuing capabilities

    [_ISSUANCE_KEY] is a random secret of the process. *)
Section issuance.
Context (issuance_key : string).

Definition _issuance_witness (d action target : string) : string :=
  canonical_digest (JObj [("envelope", JStr d); ("action", JStr action); ("target", JStr target);
                          ("issuance_key", JStr issuance_key)]).

Definition token_is_issued (t : CapabilityToken) : bool :=
  String.eqb (issuance_witness t) (_issuance_witness (envelope_digest t) (tok_action t) (tok_target t)).

(** [CapabilityToken.__post_init__] *)
Definition check_token (t : CapabilityToken) : result CapabilityToken :=
  require (token_is_issued t) AuthorityDenied "capability token was not issued by an authority registry" ;? Ok t.

Definition token_seal (d action target : string) : string :=
  canonical_digest (JObj [("envelope", JStr d); ("action", JStr action); ("target", JStr target)]).

(** [normalized == path or normalized.startswith(path + "/")] *)
Definition in_scope (target : string) (scope : list string) : bool :=
  existsb (fun path => String.eqb target path || startswith (path +:+ "/")%stdpp target) scope.

Definition authorize (r : registry) (d action target now : string) : result CapabilityToken :=
  let? e := envelope r d in
  let? moment := _instant now in
  let? expires := _instant (expires_at e) in
  let? expired := dt_le expires moment in
  require (negb expired) AuthorityDenied "authority envelope is expired" ;?
  let? normalized := normalize_portable_path (JStr target) in
  require (mem action (allowed_actions e) && negb (mem action (denied_actions e))) AuthorityDenied "action is not granted" ;?
  let reading := mem action READ_ACTIONS in
  let scope := if reading then path_read_scope e else path_write_scope e in
  require (in_scope normalized scope) AuthorityDenied
    (if reading then "target is outside read scope" else "target is outside write scope") ;?
  check_token {| envelope_digest := d; tok_action := action; tok_target := normalized;
                 token_digest := token_seal d action normalized;
                 issuance_witness := _issuance_witness d action normalized |}.

End issuance.

(** ** Histories of a registry *)

Inductive op :=
| Mint (e : ConstraintEnvelope) (issuer authority_ref recorded : string)
| AdmitExternal (e : ConstraintEnvelope) (a : ExternalRootAttestation) (v : ExternalRootVerifier)
| Register (e : ConstraintEnvelope) (parent : option ConstraintEnvelope)
| Revoke (d : string).

Definition run_op (o : op) (r : registry) : registry :=
  match o with
  | Mint e issuer authority_ref recorded => (mint_root e issuer authority_ref recorded r).2
  | AdmitExternal e a v => (admit_external_root e a v r).2
  | Register e parent => (register e parent r).2
  | Revoke d => (revoke d r).2
  end.
Definition run_ops (ops : list op) (r : registry) : registry := fold_left (fun r o => run_op o r) ops r.

Definition presented (o : op) : list ConstraintEnvelope :=
  match o with Mint e _ _ _ => [e] | AdmitExternal e _ _ => [e] | Register e _ => [e] | Revoke _ => [] end.

Lemma admit_cases e r res r' :
  _admit e r = (res, r') ->
  (r' = r /\ exists x, res = Raise x)
  \/ (res = Ok tt /\ r' = put_envelope r e /\ digest_value e = content_digest e /\ _is_revoked r e = false).
Proof.
  unfold _admit. rewrite run_get, run_guard. destruct (String.eqb _ _) eqn:E1; [|intros [= <- <-]; left; eauto].
  rewrite run_guard. destruct (_is_revoked r e) eqn:E2; cbn [negb]; intros [= <- <-]; [left; eauto|].
  right. bool_hyps. done.
Qed.

(** What one operation does to the admitted envelopes. *)
Lemma run_op_effect o r :
  envelopes (run_op o r) = envelopes r
  \/ exists e, e ∈ presented o /\ envelopes (run_op o r) = <[digest_value e := e]> (envelopes r)
       /\ digest_value e = content_digest e /\ _is_revoked r e = false
       /\ (forall d, parent_envelope_digest e = Some d -> exists p, envelopes r !! d = Some p
              /\ digest_value p = d /\ narrower e p).
Proof.
  destruct o as [e issuer ref rec|e a v|e parent|d]; cbn [run_op presented].
  - unfold mint_root. rewrite run_guard. case_bool_decide as Hp; [|by left].
    rewrite !run_guard. repeat (destruct (negb _); [|by left]). destruct (from_zulu rec); [|by left].
    rewrite run_bind. destruct (_admit e r) as [res r'] eqn:E. apply admit_cases in E as [[-> [x ->]]|(-> & -> & H1 & H2)]; [by left|].
    right. exists e. split; [by left|]. split; [done|]. split; [done|]. split; [done|]. by rewrite Hp.
  - unfold admit_external_root. rewrite run_lift. destruct (verify_external e a v) as [ver|] eqn:Ev; [|by left].
    unfold verify_external in Ev. take_guard Ev Hp. bool_hyps.
    rewrite run_bind. destruct (_admit e r) as [res r'] eqn:E. apply admit_cases in E as [[-> [x ->]]|(-> & -> & H1 & H2)]; [by left|].
    right. exists e. split; [by left|]. split; [done|]. split; [done|]. split; [done|]. by rewrite Hp.
  - unfold register. rewrite run_get. destruct (parent_envelope_digest e) as [d|] eqn:Hp; [|by left].
    destruct (envelopes r !! d) as [p|] eqn:Hl; [|by left]. rewrite run_guard.
    destruct (match parent with Some p0 => _ | None => true end); [|by left].
    rewrite run_lift. destruct (intersect_envelopes p e) as [c|] eqn:Hi; [|by left].
    destruct (_admit e r) as [res r'] eqn:E. apply admit_cases in E as [[-> [x ->]]|(-> & -> & H1 & H2)]; [by left|].
    right. exists e. split; [by left|]. split; [done|]. split; [done|]. split; [done|].
    intros d' Hd'. rewrite Hp in Hd'. injection Hd' as <-. exists p. split; [done|].
    unfold intersect_envelopes in Hi. take_guard Hi Hb. take_ok Hi b Eb. take_guard Hi Hbt. bool_hyps. subst b.
    split; [rewrite Hp in Hb; by injection Hb|by apply is_no_broader_than_spec].
  - by left.
Qed.

Lemma run_op_revoked o r : revoked r ⊆ revoked (run_op o r) /\ revoked_authorities r ⊆ revoked_authorities (run_op o r).
Proof.
  destruct o as [e issuer ref rec|e a v|e parent|d]; cbn [run_op].
  - unfold mint_root. rewrite !run_guard. repeat (case_match; [|done]). rewrite run_bind.
    destruct (_admit e r) as [res r'] eqn:E. apply admit_cases in E as [[-> [x ->]]|(-> & -> & _)]; done.
  - unfold admit_external_root. rewrite run_lift. case_match; [|done]. rewrite run_bind.
    destruct (_admit e r) as [res r'] eqn:E. apply admit_cases in E as [[-> [x ->]]|(-> & -> & _)]; done.
  - unfold register. rewrite run_get. destruct (parent_envelope_digest e); [|done]. destruct (envelopes r !! _); [|done].
    rewrite run_guard. destruct (match parent with Some p0 => _ | None => true end); [|done].
    rewrite run_lift. destruct (intersect_envelopes _ _); [|done].
    destruct (_admit e r) as [res r'] eqn:E. apply admit_cases in E as [[-> [x ->]]|(-> & -> & _)]; done.
  - cbn. split; [set_solver|]. case_match; set_solver.
Qed.

(** Every admitted envelope is stored under its own seal. *)
Definition keyed (r : registry) : Prop :=
  forall d e, envelopes r !! d = Some e -> digest_value e = d /\ content_digest e = d.

Lemma keyed_empty : keyed empty_registry.
Proof. intros d e H. cbn in H. rewrite lookup_empty in H. discriminate H. Qed.

Lemma keyed_run ops r : keyed r -> keyed (run_ops ops r).
Proof.
  revert r. induction ops as [|o ops IH]; intros r Hk; [done|]. cbn. apply IH.
  intros d e. destruct (run_op_effect o r) as [->|(e0 & _ & -> & Hseal & _)]; [apply Hk|].
  rewrite lookup_insert_Some. intros [[<- <-]|[_ H]]; [done|by apply Hk].
Qed.

Lemma revoked_run ops r :
  revoked r ⊆ revoked (run_ops ops r) /\ revoked_authorities r ⊆ revoked_authorities (run_ops ops r).
Proof.
  revert r. induction ops as [|o ops IH]; intros r; [done|]. cbn.
  destruct (IH (run_op o r)) as [H1 H2]. destruct (run_op_revoked o r). set_solver.
Qed.

(** ** Revocation is inherited *)

(** [a] is [e] or an admitted ancestor of [e]. *)
Inductive ancestor (r : registry) : ConstraintEnvelope -> ConstraintEnvelope -> Prop :=
| Anc_self e : ancestor r e e
| Anc_parent e d p a : parent_envelope_digest e = Some d -> envelopes r !! d = Some p -> ancestor r p a -> ancestor r e a.

Lemma revoked_walk_ancestor fuel r seen e :
  revoked_walk fuel r seen e = true -> exists a, ancestor r e a /\ revoked_here r a = true.
Proof.
  revert seen e. induction fuel as [|f IH]; intros seen e H; [done|]. cbn in H.
  case_bool_decide; [done|]. destruct (revoked_here r e) eqn:E; [exists e; split; [constructor|done]|].
  destruct (parent_envelope_digest e) as [d|] eqn:Hp; [|done]. destruct (envelopes r !! d) as [p|] eqn:Hl; [|done].
  apply IH in H as (a & Ha & Hr). exists a. split; [by eapply Anc_parent|done].
Qed.

(** [S] holds the parent of every member, and no member is revoked. *)
Definition closed_at (r : registry) (S : gset string) (x : ConstraintEnvelope) : Prop :=
  revoked_here r x = false
  /\ forall d p, parent_envelope_digest x = Some d -> envelopes r !! d = Some p -> digest_value p ∈ S.

Lemma revoked_walk_closed fuel r seen e :
  keyed r -> envelopes r !! digest_value e = Some e ->
  (size (dom (envelopes r) ∖ seen) < fuel)%nat -> revoked_walk fuel r seen e = false ->
  exists S, seen ⊆ S /\ digest_value e ∈ S
    /\ forall d x, d ∈ S -> d ∉ seen -> envelopes r !! d = Some x -> closed_at r S x.
Proof.
  intros Hk. revert seen e. induction fuel as [|f IH]; intros seen e Hst Hf H; [lia|]. cbn in H.
  case_bool_decide as Hin.
  { exists seen. split; [done|]. split; [done|]. done. }
  destruct (revoked_here r e) eqn:Hr; [done|].
  assert (Hlast : (forall d p, parent_envelope_digest e = Some d -> envelopes r !! d = Some p -> False) ->
    exists S, seen ⊆ S /\ digest_value e ∈ S /\ forall d x, d ∈ S -> d ∉ seen -> envelopes r !! d = Some x -> closed_at r S x).
  { intros Hnone. exists ({[digest_value e]} ∪ seen). split; [set_solver|]. split; [set_solver|].
    intros d x Hd Hns Hx. assert (d = digest_value e) as -> by set_solver. rewrite Hst in Hx. injection Hx as <-.
    split; [done|]. intros d' p Hd' Hp'. by destruct (Hnone d' p). }
  destruct (parent_envelope_digest e) as [d|] eqn:Hp; [|by apply Hlast].
  destruct (envelopes r !! d) as [p|] eqn:Hl; [|apply Hlast; naive_solver].
  destruct (Hk _ _ Hl) as [Hd _]. subst d.
  apply IH in H as (S & H1 & H2 & H3); [|done|].
  - exists S. split; [set_solver|]. split; [set_solver|]. intros d x Hd Hns Hx.
    destruct (decide (d = digest_value e)) as [->|Hne]; [|apply (H3 d); set_solver].
    rewrite Hst in Hx. injection Hx as <-. split; [done|]. intros d' p' Hd' Hp'. rewrite Hp in Hd'. injection Hd' as <-.
    rewrite Hl in Hp'. by injection Hp' as <-.
  - assert (dom (envelopes r) ∖ ({[digest_value e]} ∪ seen) ⊂ dom (envelopes r) ∖ seen) as Hss.
    { split; [set_solver|]. intros Hsub. apply elem_of_dom_2 in Hst. set_solver. }
    apply subset_size in Hss. lia.
Qed.

Lemma is_revoked_spec r e :
  keyed r -> envelopes r !! digest_value e = Some e ->
  _is_revoked r e = true <-> exists a, ancestor r e a /\ revoked_here r a = true.
Proof.
  intros Hk Hst. split; [apply revoked_walk_ancestor|]. intros (a & Ha & Hr).
  destruct (_is_revoked r e) eqn:E; [done|]. exfalso. unfold _is_revoked in E.
  assert (Hsize : (size (dom (envelopes r) ∖ ∅) < S (S (size (envelopes r))))%nat)
    by (rewrite difference_empty_L, size_dom; lia).
  destruct (revoked_walk_closed _ _ _ _ Hk Hst Hsize E) as (S & _ & HeS & HS).
  assert (G : forall x, ancestor r x a -> envelopes r !! digest_value x = Some x -> digest_value x ∈ S -> False); [|by eapply G].
  intros x Hx. induction Hx as [x|x d p a Hp Hl Hx IH]; intros Hsx HxS.
  - destruct (HS _ x HxS) as [Hf _]; [set_solver|done|congruence].
  - destruct (Hk _ _ Hl) as [Hd _]. subst d. apply IH; try done.
    destruct (HS _ x HxS) as [_ Hpar]; [set_solver|done|]. by eapply Hpar.
Qed.

(** Revocation is inherited: an admitted envelope is unavailable exactly when
    it or one of its admitted ancestors was revoked, by digest or by carrying
    a revoked authority under another digest. *)
Theorem envelope_available_iff ops d e :
  let r := run_ops ops empty_registry in
  envelopes r !! d = Some e ->
  (exists a, ancestor r e a /\ (digest_value a ∈ revoked r \/ authority_key a ∈ revoked_authorities r))
  <-> envelope r d = raise AuthorityDenied "authority envelope is unavailable".
Proof.
  intros r Hl. assert (Hk : keyed r) by (apply keyed_run, keyed_empty).
  destruct (Hk _ _ Hl) as [<- _]. pose proof (is_revoked_spec r e Hk Hl) as Hspec.
  assert (Hr : (exists a, ancestor r e a /\ (digest_value a ∈ revoked r \/ authority_key a ∈ revoked_authorities r))
               <-> _is_revoked r e = true).
  { rewrite Hspec. unfold revoked_here. by setoid_rewrite orb_true_iff; setoid_rewrite bool_decide_eq_true. }
  rewrite Hr. unfold envelope. rewrite Hl. destruct (_is_revoked r e); cbn [negb require rbind]; split; done.
Qed.

(** C11: revocation is final: after [revoke d], whatever is minted, verified,
    delegated or revoked later, no capability is ever issued again from that
    authority, from a re-mint of it under another identifier, or from any
    envelope delegated from either; and no such envelope is admitted. *)
Theorem revocation_is_final key ops1 ops2 d e :
  let r1 := run_ops ops1 empty_registry in
  let r2 := run_ops ops2 (run_op (Revoke d) r1) in
  envelopes r1 !! d = Some e ->
  (forall x a action target now,
     envelopes r2 !! digest_value x = Some x -> ancestor r2 x a -> authority_key a = authority_key e ->
     authorize key r2 (digest_value x) action target now = raise AuthorityDenied "authority envelope is unavailable")
  /\ (forall x, authority_key x = authority_key e -> exists m, _admit x r2 = (raise AuthorityDenied m, r2)).
Proof.
  intros r1 r2 He. assert (Hk : keyed r2) by (apply keyed_run; apply (keyed_run [Revoke d]); apply keyed_run, keyed_empty).
  assert (Hrev : authority_key e ∈ revoked_authorities r2).
  { apply (proj2 (revoked_run ops2 _)). cbn. rewrite He. set_solver. }
  split.
  - intros x a action target now Hx Ha Hka.
    assert (_is_revoked r2 x = true) as Hr.
    { apply is_revoked_spec; [done|done|]. exists a. split; [done|]. unfold revoked_here.
      rewrite Hka, (bool_decide_eq_true_2 (authority_key e ∈ _)) by done. apply orb_true_r. }
    unfold authorize, envelope. by rewrite Hx, Hr.
  - intros x Hka. unfold _admit. rewrite run_get, run_guard. destruct (String.eqb _ _); [|by eexists].
    rewrite run_guard. assert (_is_revoked r2 x = true) as ->; [|by eexists].
    unfold _is_revoked. cbn [revoked_walk]. rewrite (bool_decide_eq_false_2 (digest_value x ∈ _)) by apply not_elem_of_empty.
    unfold revoked_here. rewrite Hka, (bool_decide_eq_true_2 (authority_key e ∈ _)) by done. by rewrite orb_true_r.
Qed.

(** ** Delegation *)

(** No two different sealed envelopes of the history share a digest. *)
Definition collision_free (ops : list op) : Prop :=
  forall e e', e ∈ mjoin (presented <$> ops) -> e' ∈ mjoin (presented <$> ops) ->
    digest_value e = content_digest e -> digest_value e' = content_digest e' ->
    digest_value e = digest_value e' -> e = e'.

(** Every delegated envelope has its parent admitted and is no broader. *)
Record delegated (P : list ConstraintEnvelope) (r : registry) : Prop := {
  del_keyed : keyed r;
  del_known : forall d e, envelopes r !! d = Some e -> e ∈ P;
  del_parent : forall d e pd, envelopes r !! d = Some e -> parent_envelope_digest e = Some pd ->
    exists p, envelopes r !! pd = Some p /\ narrower e p }.

Lemma delegated_step P o r :
  (forall e e', e ∈ P -> e' ∈ P -> digest_value e = content_digest e -> digest_value e' = content_digest e' ->
     digest_value e = digest_value e' -> e = e') ->
  presented o ⊆ P -> delegated P r -> delegated P (run_op o r).
Proof.
  intros Hcf Hin [Hk Hkn Hpar]. assert (Hk' : keyed (run_op o r)) by (apply (keyed_run [o]); exact Hk).
  destruct (run_op_effect o r) as [E|(e0 & He0 & E & Hseal & _ & Hnew)].
  { split; [done|rewrite E..]; done. }
  (* storing an envelope whose digest is taken stores the same envelope *)
  assert (Hext : forall d e, envelopes r !! d = Some e -> envelopes (run_op o r) !! d = Some e).
  { intros d e Hl. rewrite E. destruct (decide (d = digest_value e0)) as [->|]; [|by rewrite lookup_insert_ne].
    rewrite lookup_insert_eq. f_equal. destruct (Hk _ _ Hl) as [H1 H2].
    apply Hcf; [by apply Hin|by eapply Hkn|done|congruence|congruence]. }
  split; [done| |].
  - intros d e. rewrite E, lookup_insert_Some. intros [[_ <-]|[_ Hl]]; [by apply Hin|by eapply Hkn].
  - intros d e pd. rewrite E at 1. rewrite lookup_insert_Some. intros [[_ <-]|[_ Hl]] Hp.
    + destruct (Hnew _ Hp) as (p & Hl & _ & Hn). exists p. split; [by apply Hext|done].
    + destruct (Hpar _ _ _ Hl Hp) as (p & Hlp & Hn). exists p. split; [by apply Hext|done].
Qed.

Lemma delegated_run ops : collision_free ops -> delegated (mjoin (presented <$> ops)) (run_ops ops empty_registry).
Proof.
  intros Hcf. unfold run_ops.
  assert (G : forall l r, l ⊆ ops -> delegated (mjoin (presented <$> ops)) r ->
    delegated (mjoin (presented <$> ops)) (fold_left (fun r o => run_op o r) l r)).
  { induction l as [|o l IH]; intros r Hl Hd; [done|]. cbn. apply IH; [set_solver|].
    apply delegated_step; [exact Hcf| |done]. intros e He. apply list_elem_of_join. exists (presented o).
    split; [done|]. apply list_elem_of_fmap_2, Hl. by left. }
  apply G; [done|]. split; [apply keyed_empty|intros d e H|intros d e pd H];
    cbn in H; rewrite lookup_empty in H; discriminate H.
Qed.

Lemma in_scope_mono target a b : subset a b = true -> in_scope target a = true -> in_scope target b = true.
Proof.
  intros Hs H. apply subset_spec in Hs. apply existsb_exists in H as (x & Hx & H). apply existsb_exists.
  exists x. split; [|done]. apply list_elem_of_In, Hs. by apply list_elem_of_In.
Qed.

Lemma not_expired_mono c p now :
  dt_le c p = Ok true -> dt_le c now = Ok false -> dt_le p now = Ok false.
Proof.
  unfold dt_le. destruct (Bool.eqb (is_aware c) (is_aware p)) eqn:E1; [|discriminate].
  destruct (Bool.eqb (is_aware c) (is_aware now)) eqn:E2; [|discriminate].
  apply Bool.eqb_prop in E1, E2. rewrite <- E1, <- E2, Bool.eqb_reflx. intros [= H1] [= H2]. bool_hyps.
  f_equal. apply Z.leb_gt. lia.
Qed.

(** What a granted request says of the envelope that granted it. *)
Lemma authorize_ok key r d action target now t :
  authorize key r d action target now = Ok t ->
  exists e moment expires normalized,
    envelope r d = Ok e /\ _instant now = Ok moment /\ _instant (expires_at e) = Ok expires
    /\ dt_le expires moment = Ok false /\ normalize_portable_path (JStr target) = Ok normalized
    /\ mem action (allowed_actions e) = true /\ mem action (denied_actions e) = false
    /\ in_scope normalized (if mem action READ_ACTIONS then path_read_scope e else path_write_scope e) = true
    /\ t = {| envelope_digest := d; tok_action := action; tok_target := normalized;
               token_digest := token_seal d action normalized;
               issuance_witness := _issuance_witness key d action normalized |}.
Proof.
  unfold authorize. intros H. take_ok H e E1. take_ok H moment E2. take_ok H expires E3. take_ok H b E4.
  take_guard H E5. take_ok H normalized E6. take_guard H E7. take_guard H E8.
  unfold check_token in H. take_guard H E9. injection H as <-.
  apply negb_true_iff in E5. subst b. apply andb_true_iff in E7 as [E7 E7']. apply negb_true_iff in E7'.
  exists e, moment, expires, normalized. done.
Qed.

Lemma authorize_intro key r d action target now e moment expires normalized :
  envelope r d = Ok e -> _instant now = Ok moment -> _instant (expires_at e) = Ok expires ->
  dt_le expires moment = Ok false -> normalize_portable_path (JStr target) = Ok normalized ->
  mem action (allowed_actions e) = true -> mem action (denied_actions e) = false ->
  in_scope normalized (if mem action READ_ACTIONS then path_read_scope e else path_write_scope e) = true ->
  authorize key r d action target now =
    Ok {| envelope_digest := d; tok_action := action; tok_target := normalized;
          token_digest := token_seal d action normalized;
          issuance_witness := _issuance_witness key d action normalized |}.
Proof.
  intros E1 E2 E3 E4 E5 E6 E7 E8. unfold authorize. rewrite E1. cbn [rbind]. rewrite E2. cbn [rbind]. rewrite E3. cbn [rbind].
  rewrite E4. cbn [rbind negb require]. rewrite E5. cbn [rbind]. rewrite E6, E7. cbn [andb negb require rbind].
  rewrite E8. cbn [require rbind]. unfold check_token, token_is_issued. cbn [issuance_witness envelope_digest tok_action tok_target].
  by rewrite String.eqb_refl.
Qed.

(** [authorize] grants exactly what the envelope holds: a token is issued if
    and only if the envelope is admitted and unrevoked, unexpired at [now],
    names the action among the allowed and not among the denied ones, and the
    normalised target lies under a path of the scope for the action; and the
    token binds that envelope, action and target. *)
Theorem authorize_grants_iff key r d action target now t :
  authorize key r d action target now = Ok t <->
  exists e moment expires normalized,
    envelope r d = Ok e /\ _instant now = Ok moment /\ _instant (expires_at e) = Ok expires
    /\ dt_le expires moment = Ok false /\ normalize_portable_path (JStr target) = Ok normalized
    /\ action ∈ allowed_actions e /\ action ∉ denied_actions e
    /\ in_scope normalized (if mem action READ_ACTIONS then path_read_scope e else path_write_scope e) = true
    /\ t = {| envelope_digest := d; tok_action := action; tok_target := normalized;
               token_digest := token_seal d action normalized;
               issuance_witness := _issuance_witness key d action normalized |}.
Proof.
  split.
  - intros H. apply authorize_ok in H as (e & m & x & n & H1 & H2 & H3 & H4 & H5 & H6 & H7 & H8 & H9).
    exists e, m, x, n. apply mem_spec in H6. assert (action ∉ denied_actions e) by (intros Hin%mem_spec; congruence). done.
  - intros (e & m & x & n & H1 & H2 & H3 & H4 & H5 & H6 & H7 & H8 & ->). apply mem_spec in H6.
    apply (authorize_intro key r d action target now e m x n); try done.
    apply not_true_is_false. intros Hin. by apply mem_spec in Hin.
Qed.

Lemma parent_authorizes key P r e d p action target now t :
  delegated P r -> envelopes r !! digest_value e = Some e -> parent_envelope_digest e = Some d -> envelopes r !! d = Some p ->
  authorize key r (digest_value e) action target now = Ok t ->
  exists t', authorize key r d action target now = Ok t' /\ tok_target t' = tok_target t.
Proof.
  intros Hd He Hp Hl H.
  destruct (del_parent P r Hd _ _ _ He Hp) as (p' & Hl' & [Hs (ce & pe & Ec & Ep & Hle) _]). rewrite Hl in Hl'. injection Hl' as <-.
  apply authorize_ok in H as (e' & moment & expires & normalized & E1 & E2 & E3 & E4 & E5 & E6 & E7 & E8 & ->).
  unfold envelope in E1. rewrite He in E1. take_guard E1 E1'. injection E1 as <-. rewrite Ec in E3. injection E3 as ->.
  apply negb_true_iff in E1'.
  assert (Hrp : _is_revoked r p = false).
  { apply not_true_is_false. intros Hr. destruct (del_keyed P r Hd _ _ Hl) as [Hd' _].
    apply is_revoked_spec in Hr as (a & Ha & Hra); [|apply Hd|by rewrite Hd'].
    assert (_is_revoked r e = true) as Hre; [|congruence].
    apply is_revoked_spec; [apply Hd|done|]. exists a. split; [by eapply Anc_parent|done]. }
  unfold narrower_scopes in Hs. bool_hyps.
  eexists. split; [eapply (authorize_intro key r d action target now p moment pe normalized)|reflexivity]; try done.
  - unfold envelope. by rewrite Hl, Hrp.
  - by eapply not_expired_mono.
  - apply mem_spec. apply mem_spec in E6. match goal with H : subset (allowed_actions e) _ = true |- _ => apply subset_spec in H; by apply H end.
  - apply not_true_is_false. intros Hin. apply mem_spec in Hin.
    match goal with H : subset (denied_actions p) _ = true |- _ => apply subset_spec in H; apply H in Hin end.
    apply mem_spec in Hin. congruence.
  - destruct (mem action READ_ACTIONS); by eapply in_scope_mono.
Qed.

(** C7: delegation never amplifies authority: in a history without digest
    collisions, whatever a delegated envelope may do at some moment, each of
    its ancestors up to the minted root may do at that moment, on the same
    target. *)
Theorem delegation_never_amplifies key ops e a action target now t :
  let r := run_ops ops empty_registry in
  collision_free ops -> envelopes r !! digest_value e = Some e -> ancestor r e a ->
  authorize key r (digest_value e) action target now = Ok t ->
  exists t', authorize key r (digest_value a) action target now = Ok t' /\ tok_target t' = tok_target t.
Proof.
  intros r Hcf He Ha. pose proof (delegated_run ops Hcf) as Hd. fold r in Hd. revert t.
  induction Ha as [e|e d p a Hp Hl Ha IH]; intros t Ht; [by exists t|].
  destruct (del_keyed _ r Hd _ _ Hl) as [<- _].
  destruct (parent_authorizes key _ r e _ p action target now t Hd He Hp Hl Ht) as (t1 & H1 & <-).
  by apply IH.
Qed.

(** ** External roots *)

(** The evidence behind an externally verified root [d]. *)
Definition externally_verified (d : string) (ev : ExternalRootAttestation * ExternalRootVerification) : Prop :=
  let '(a, ver) := ev in
  at_envelope_digest a = d /\ ve_attestation_digest ver = attestation_digest a /\ ve_accepted ver = true
  /\ exists issued expires verified,
       from_zulu (at_issued_at a) = Some issued /\ from_zulu (at_expires_at a) = Some expires
       /\ from_zulu (ve_verified_at ver) = Some verified
       /\ instant issued <= instant verified /\ instant verified < instant expires.

Lemma rfc3339_ok value label d : _rfc3339 value label = Ok d -> from_zulu value = Some d /\ is_aware d = true.
Proof.
  unfold _rfc3339. intros H. take_guard H E. destruct (from_zulu value) as [x|]; [|discriminate H].
  take_guard H E'. injection H as <-. done.
Qed.

Lemma verify_external_ok e a v ver :
  verify_external e a v = Ok ver -> externally_verified (digest_value e) (a, ver).
Proof.
  unfold verify_external. intros H. take_guard H E1. take_guard H E2. take_guard H E3. take_ok H ver' E4.
  take_guard H E5. take_ok H verified E6. take_ok H issued E7. take_ok H expires E8. take_ok H early E9. take_ok H late E10.
  take_guard H E11. injection H as <-. apply rfc3339_ok in E6 as [E6 A6], E7 as [E7 A7], E8 as [E8 A8].
  apply andb_true_iff in E2 as [E2 _]. apply andb_true_iff in E2 as [E2 _]. apply String.eqb_eq in E2.
  apply andb_true_iff in E5 as [E5 Hacc]. apply andb_true_iff in E5 as [E5 _]. apply String.eqb_eq in E5.
  split; [done|]. split; [done|]. split; [done|]. exists issued, expires, verified.
  split; [done|]. split; [done|]. split; [done|].
  unfold dt_lt, dt_le in E9, E10. rewrite A6, A7, A8 in *. cbn in E9, E10. injection E9 as <-. injection E10 as <-.
  bool_hyps. lia.
Qed.

(** Every external root of a registry rests on a verification its verifier
    accepted, of an attestation that names that envelope, made between the
    attestation's issue and its expiry. *)
Theorem external_roots_are_verified ops d ev :
  external_roots (run_ops ops empty_registry) !! d = Some ev -> externally_verified d ev.
Proof.
  assert (G : forall r, (forall d ev, external_roots r !! d = Some ev -> externally_verified d ev) ->
    forall d ev, external_roots (run_ops ops r) !! d = Some ev -> externally_verified d ev).
  { induction ops as [|o ops IH]; intros r Hr; [done|]. cbn. apply IH.
    destruct o as [e issuer ref rec|e a v|e parent|d']; cbn [run_op].
    - unfold mint_root. rewrite !run_guard. repeat (case_match; [|done]). rewrite run_bind.
      destruct (_admit e r) as [res r'] eqn:E. apply admit_cases in E as [[-> [x ->]]|(-> & -> & _)]; done.
    - unfold admit_external_root. rewrite run_lift. destruct (verify_external e a v) as [ver|] eqn:Ev; [|done].
      rewrite run_bind. destruct (_admit e r) as [res r'] eqn:E.
      apply admit_cases in E as [[-> [x ->]]|(-> & -> & _)]; [done|]. cbn. intros d' ev'.
      rewrite lookup_insert_Some. intros [[<- <-]|[_ H]]; [by eapply verify_external_ok|by apply Hr].
    - unfold register. rewrite run_get. destruct (parent_envelope_digest e); [|done]. destruct (envelopes r !! _); [|done].
      rewrite run_guard. destruct (match parent with Some p0 => _ | None => true end); [|done].
      rewrite run_lift. destruct (intersect_envelopes _ _); [|done].
      destruct (_admit e r) as [res r'] eqn:E. apply admit_cases in E as [[-> [x ->]]|(-> & -> & _)]; done.
    - done. }
  apply G. intros d' ev' H. cbn in H. rewrite lookup_empty in H. discriminate H.
Qed.

(** ** A sample registry *)

Module Sample.

Definition draft (id : string) (parent : option string) (actions writes : list string) (expiry : string) : ConstraintEnvelope :=
  {| envelope_id := id; env_mission_id := "MISSION-1"; env_work_id := "WORK-1"; parent_envelope_digest := parent;
     actor_role := "builder"; env_risk_tier := "R1"; allowed_actions := actions; denied_actions := ["deploy"];
     path_read_scope := ["src"]; path_write_scope := writes; network_allowlist := []; data_scopes := [];
     secret_scopes := []; human_gates := [];
     budgets := {| max_wall_seconds := 60; max_model_calls := 1; max_input_tokens := 100; max_output_tokens := 100;
                   max_cost_microunits := 0; max_tool_calls := 5; max_work_items := 1; max_depth := 1 |};
     expires_at := expiry; policy_fingerprint := ("sha256:" +:+ String.concat "" (replicate 64 "0"))%stdpp;
     digest_value := "" |}.
Definition seal (e : ConstraintEnvelope) : ConstraintEnvelope := with_digest e (content_digest e).

Definition root : ConstraintEnvelope := Eval vm_compute in seal (draft "AUTH-root" None ["read"; "write"] ["src"; "docs"] "2026-06-01T00:00:00Z").
Definition child : ConstraintEnvelope := Eval vm_compute in
  seal (draft "AUTH-child" (Some (digest_value root)) ["write"] ["src"] "2026-05-01T02:00:00+02:00").
Definition ops : list op := [Mint root "owner" "ticket-1" "2026-01-01T00:00:00Z"; Register child None].
Definition now : string := "2026-02-01T00:00:00Z".
Definition token : CapabilityToken := Eval vm_compute in
  {| envelope_digest := digest_value child; tok_action := "write"; tok_target := "src/core.py";
     token_digest := token_seal (digest_value child) "write" "src/core.py";
     issuance_witness := _issuance_witness "secret" (digest_value child) "write" "src/core.py" |}.

Lemma admitted : envelopes (run_ops ops empty_registry) !! digest_value child = Some child
  /\ envelopes (run_ops ops empty_registry) !! digest_value root = Some root.
Proof. split; vm_compute; reflexivity. Defined.

Lemma no_collision : collision_free ops.
Proof.
  intros e e' He He' _ _ Hd. assert (Hne : digest_value root <> digest_value child) by (vm_compute; discriminate).
  change (mjoin (presented <$> ops)) with [root; child] in He, He'.
  apply elem_of_cons in He as [->|He]; apply elem_of_cons in He' as [->|He'];
    try apply list_elem_of_singleton in He; try apply list_elem_of_singleton in He'; subst; congruence.
Defined.

End Sample.

Lemma delegation_never_amplifies_witness :
  exists t', authorize "secret" (run_ops Sample.ops empty_registry) (digest_value Sample.root) "write" "src\core.py" Sample.now = Ok t'
             /\ tok_target t' = "src/core.py".
Proof.
  apply (delegation_never_amplifies "secret" Sample.ops Sample.child Sample.root "write" "src\core.py" Sample.now Sample.token).
  - apply Sample.no_collision.
  - apply Sample.admitted.
  - eapply Anc_parent; [reflexivity|apply Sample.admitted|constructor].
  - vm_compute. reflexivity.
Defined.

Lemma revocation_is_final_witness :
  authorize "secret" (run_ops [Register Sample.child None] (run_op (Revoke (digest_value Sample.root)) (run_ops Sample.ops empty_registry)))
    (digest_value Sample.child) "write" "src/core.py" Sample.now
  = raise AuthorityDenied "authority envelope is unavailable".
Proof.
  apply (proj1 (revocation_is_final "secret" Sample.ops [Register Sample.child None] (digest_value Sample.root) Sample.root
    (proj2 Sample.admitted))) with (a := Sample.root).
  - vm_compute. reflexivity.
  - eapply Anc_parent; [reflexivity|vm_compute; reflexivity|constructor].
  - reflexivity.
Defined.

Lemma envelope_available_iff_witness :
  let r := run_ops (Sample.ops ++ [Revoke (digest_value Sample.root)]) empty_registry in
  envelope r (digest_value Sample.child) = raise AuthorityDenied "authority envelope is unavailable".
Proof.
  intros r. apply (envelope_available_iff (Sample.ops ++ [Revoke (digest_value Sample.root)]) _ Sample.child).
  - vm_compute. reflexivity.
  - exists Sample.root. split.
    + eapply Anc_parent; [reflexivity|vm_compute; reflexivity|constructor].
    + left. vm_compute. reflexivity.
Defined.

Module SampleExternal.
Definition attestation : ExternalRootAttestation :=
  {| at_envelope_digest := digest_value Sample.root; at_issuer := "owner"; at_authority_ref := "ref-1";
     at_issued_at := "2026-01-01T00:00:00Z"; at_expires_at := "2026-12-31T00:00:00Z";
     attestation_digest := canonical_digest (attestation_payload (digest_value Sample.root) "owner" "ref-1"
                                               "2026-01-01T00:00:00Z" "2026-12-31T00:00:00Z") |}.
(** A verifier that records its acceptance of whatever it is shown. *)
Definition verifier : ExternalRootVerifier :=
  {| verifier_id := "notary"; verify_root := fun a => record_verification a "notary" "receipt-1" Sample.now true |}.
Definition verification : ExternalRootVerification :=
  {| ve_attestation_digest := attestation_digest attestation; ve_verifier_id := "notary"; ve_receipt_ref := "receipt-1";
     ve_verified_at := Sample.now; ve_accepted := true;
     verification_digest := canonical_digest (verification_payload (attestation_digest attestation) "notary" "receipt-1" Sample.now true) |}.
End SampleExternal.

Lemma external_roots_are_verified_witness :
  externally_verified (digest_value Sample.root) (SampleExternal.attestation, SampleExternal.verification).
Proof.
  apply (external_roots_are_verified [AdmitExternal Sample.root SampleExternal.attestation SampleExternal.verifier]).
  vm_compute. reflexivity.
Defined.

End Authority.
