(* ===== verification/Outbox.v ===== *)
(** * Effects

    [brain_kernel/effects.py], [brain_kernel/effect_outbox.py] and the effect
    tables of [brain_kernel/store.py]: binding a capability token to an intent,
    the in-memory gateway, and the durable outbox that records an intent before
    its adapter runs and turns every ambiguous outcome into a reconciliation
    obligation.  The clock, the adapters and the issuing secret are parameters;
    the state carries a trace of the adapter calls, the physical effects. *)

From S2P Require Import Prelude Sha256 Canonical PyLib Schema Contracts Authority.

Module Outbox.
Export Authority.

(** ** The effect tables *)

Inductive effect_state := pending | executing | receipt_recorded | reconciliation_required.
#[global] Instance effect_state_eq_dec : EqDecision effect_state.
Proof. solve_decision. Defined.
Definition effect_state_value (s : effect_state) : string :=
  match s with
  | pending => "pending" | executing => "executing" | receipt_recorded => "receipt_recorded"
  | reconciliation_required => "reconciliation_required"
  end.

Record entry := {
  o_key : string; o_intent : string; intent_json : string; o_state : effect_state; attempt_count : Z;
  last_error : option string; reconciliation_reason : option string; o_receipt : option string;
  created_at : string; updated_at : string }.
Record receipt_row := { rr_digest : string; rr_intent : string; receipt_json : string; rr_recorded_at : string }.
Record reconciliation_row := {
  rec_intent : string; rec_state : string; rec_reason : string; evidence_json : string; rec_recorded_at : string }.

Record effect_db := {
  db_read_only : bool;
  effect_outbox : list entry;
  effect_receipts : list receipt_row;
  effect_reconciliations : list reconciliation_row }.

Definition empty_db : effect_db :=
  {| db_read_only := false; effect_outbox := []; effect_receipts := []; effect_reconciliations := [] |}.

Definition with_outbox (d : effect_db) (l : list entry) : effect_db :=
  {| db_read_only := db_read_only d; effect_outbox := l; effect_receipts := effect_receipts d;
     effect_reconciliations := effect_reconciliations d |}.
Definition with_receipts (d : effect_db) (l : list receipt_row) : effect_db :=
  {| db_read_only := db_read_only d; effect_outbox := effect_outbox d; effect_receipts := l;
     effect_reconciliations := effect_reconciliations d |}.
Definition with_reconciliations (d : effect_db) (l : list reconciliation_row) : effect_db :=
  {| db_read_only := db_read_only d; effect_outbox := effect_outbox d; effect_receipts := effect_receipts d;
     effect_reconciliations := l |}.

Definition _require_writable : M effect_db unit :=
  let* d := getM in
  guardM (negb (db_read_only d)) KernelIntegrityError "read-only kernel store cannot be mutated".

Definition find_key (d : effect_db) (k : string) : option entry :=
  List.find (fun e => String.eqb (o_key e) k) (effect_outbox d).
Definition find_intent (d : effect_db) (i : string) : option entry :=
  List.find (fun e => String.eqb (o_intent e) i) (effect_outbox d).
(** [UPDATE effect_outbox SET ... WHERE intent_digest=?] *)
Definition update_intent (i : string) (f : entry -> entry) (d : effect_db) : effect_db :=
  with_outbox d (map (fun e => if String.eqb (o_intent e) i then f e else e) (effect_outbox d)).

(** [SELECT * FROM effect_outbox WHERE intent_digest=?] after an update. *)
Definition select_intent (i : string) : M effect_db entry :=
  let* d := getM in
  match find_intent d i with
  | Some e => ret e
  | None => fail TypeError "'NoneType' object is not iterable"
  end.

Definition enqueue_effect (key intent : string) (document : contract) (recorded : string) : M effect_db entry :=
  _require_writable ;*
  let encoded := canonical_bytes (JObj document) in
  atomic (
    let* d := getM in
    match find_key d key with
    | Some row =>
        guardM (String.eqb (o_intent row) intent && String.eqb (intent_json row) encoded)
          KernelIntegrityError "idempotency key is already bound to another effect" ;*
        ret row
    | None =>
        guardM (match find_intent d intent with Some _ => false | None => true end)
          IntegrityError "UNIQUE constraint failed: effect_outbox.intent_digest" ;*
        let row := {| o_key := key; o_intent := intent; intent_json := encoded; o_state := pending; attempt_count := 0;
                      last_error := None; reconciliation_reason := None; o_receipt := None;
                      created_at := recorded; updated_at := recorded |} in
        putM (with_outbox d (effect_outbox d ++ [row])) ;*
        ret row
    end).

Definition begin_row (recorded : string) (e : entry) : entry :=
  {| o_key := o_key e; o_intent := o_intent e; intent_json := intent_json e; o_state := executing;
     attempt_count := attempt_count e + 1; last_error := None; reconciliation_reason := reconciliation_reason e;
     o_receipt := o_receipt e; created_at := created_at e; updated_at := recorded |}.

Definition begin_effect (intent recorded : string) : M effect_db entry :=
  _require_writable ;*
  atomic (
    let* d := getM in
    match find_intent d intent with
    | None => fail KernelIntegrityError "effect intent is not durable"
    | Some row =>
        if bool_decide (o_state row = pending) then
          putM (update_intent intent (fun e => if bool_decide (o_state e = pending) then begin_row recorded e else e) d) ;*
          select_intent intent
        else ret row
    end).

Definition link_row (receipt recorded : string) (e : entry) : entry :=
  {| o_key := o_key e; o_intent := o_intent e; intent_json := intent_json e; o_state := receipt_recorded;
     attempt_count := attempt_count e; last_error := None; reconciliation_reason := None;
     o_receipt := Some receipt; created_at := created_at e; updated_at := recorded |}.

Definition find_receipt (d : effect_db) (i : string) : option receipt_row :=
  List.find (fun r => String.eqb (rr_intent r) i) (effect_receipts d).

Definition record_effect_receipt (intent receipt : string) (document : contract) (recorded : string) : M effect_db entry :=
  _require_writable ;*
  let encoded := canonical_bytes (JObj document) in
  atomic (
    let* d := getM in
    match find_intent d intent with
    | None => fail KernelIntegrityError "effect intent is not durable"
    | Some _ =>
        match find_receipt d intent with
        | Some existing =>
            guardM (String.eqb (rr_digest existing) receipt && String.eqb (receipt_json existing) encoded)
              KernelIntegrityError "effect intent already has a different receipt"
        | None =>
            guardM (forallb (fun r => negb (String.eqb (rr_digest r) receipt)) (effect_receipts d))
              IntegrityError "UNIQUE constraint failed: effect_receipts.receipt_digest" ;*
            putM (with_receipts d (effect_receipts d ++
              [{| rr_digest := receipt; rr_intent := intent; receipt_json := encoded; rr_recorded_at := recorded |}]))
        end ;*
        let* d := getM in
        putM (update_intent intent (link_row receipt recorded) d) ;*
        select_intent intent
    end).

Definition ambiguous_row (reason recorded : string) (e : entry) : entry :=
  {| o_key := o_key e; o_intent := o_intent e; intent_json := intent_json e; o_state := reconciliation_required;
     attempt_count := attempt_count e; last_error := Some reason; reconciliation_reason := Some reason;
     o_receipt := o_receipt e; created_at := created_at e; updated_at := recorded |}.

Definition note_reconciliation (row : reconciliation_row) : M effect_db unit :=
  let* d := getM in putM (with_reconciliations d (effect_reconciliations d ++ [row])).

Definition mark_effect_reconciliation_required (intent reason recorded : string) (evidence : contract) (state : string)
    : M effect_db entry :=
  _require_writable ;*
  guardM (mem state ["reconciliation_required"; "reconciled"]) KernelIntegrityError "invalid effect reconciliation state" ;*
  atomic (
    let* d := getM in
    match find_intent d intent with
    | None => fail KernelIntegrityError "effect intent is not durable"
    | Some e =>
        (if bool_decide (o_state e = receipt_recorded) then ret tt
         else putM (update_intent intent (ambiguous_row reason recorded) d)) ;*
        note_reconciliation {| rec_intent := intent; rec_state := state; rec_reason := reason;
                               evidence_json := canonical_bytes (JObj evidence); rec_recorded_at := recorded |} ;*
        select_intent intent
    end).

Definition interrupted : string := "process interrupted during effect execution".

(** One turn of the loop of [recover_effects]. *)
Definition recover_one (recorded intent : string) (d : effect_db) : effect_db :=
  let d := update_intent intent (fun e => if bool_decide (o_state e = executing) then ambiguous_row interrupted recorded e else e) d in
  with_reconciliations d (effect_reconciliations d ++
    [{| rec_intent := intent; rec_state := "reconciliation_required"; rec_reason := interrupted; evidence_json := "{}";
        rec_recorded_at := recorded |}]).

Definition recover_effects (recorded : string) : M effect_db (list string) :=
  _require_writable ;*
  atomic (
    let* d := getM in
    let rows := map o_intent (List.filter (fun e => bool_decide (o_state e = executing)) (effect_outbox d)) in
    putM (fold_left (fun d i => recover_one recorded i d) rows d) ;*
    ret rows).

(** [UPDATE] and [DELETE] on the receipts: the triggers abort. *)
Definition update_receipts : M effect_db unit :=
  let* d := getM in
  match effect_receipts d with [] => ret tt | _ :: _ => fail IntegrityError "effect receipts are append-only" end.

(** ** Seals and tokens *)

Record EffectResult := { res_intent : string; res_receipt : string; res_status : string }.

Definition intent_seal (i : EffectIntent) : string :=
  canonical_digest (JObj (pop_key "intent_digest" (intent_to_document i))).
(** [sealed_intent]; [replace] runs the field checks again. *)
Definition sealed_intent (i : EffectIntent) : result EffectIntent := check_intent (with_intent_digest i (intent_seal i)).

Definition validate_capability_token (key : string) (i : EffectIntent) (t : CapabilityToken) (authority : option registry)
    (now : string) (hosts : list string) : result unit :=
  require (String.eqb (token_digest t) (token_seal (envelope_digest t) (tok_action t) (tok_target t))
           && String.eqb (envelope_digest t) (authority_envelope_digest i)
           && String.eqb (tok_action t) (i_action i) && String.eqb (tok_target t) (i_target i))
    AuthorityDenied "capability token does not bind this intent" ;?
  require (String.eqb (intent_digest i) (intent_seal i)) AuthorityDenied "intent digest does not seal this intent" ;?
  match authority with
  | None => raise AuthorityDenied "effect execution requires an authority-bound gateway"
  | Some r =>
      let? issued := authorize key r (envelope_digest t) (tok_action t) (tok_target t) now in
      require (bool_decide (issued = t)) AuthorityDenied "capability token was not issued by this authority" ;?
      match hosts with
      | [] => Ok tt
      | _ :: _ =>
          let? e := envelope r (envelope_digest t) in
          let outside := sorted_str (dedup (List.filter (fun h => negb (mem h (network_allowlist e))) hosts)) in
          require (bool_decide (outside = [])) AuthorityDenied
            ("effect reaches a host outside the network allowlist: " +:+ join ", " outside)%stdpp
      end
  end.

(** [x or default] on a digest that may be absent or empty. *)
Definition or_default (o : option string) (d : string) : string :=
  match o with Some s => if String.eqb s "" then d else s | None => d end.

Definition build_effect_receipt (i : EffectIntent) (identity version started ended : string) (produced : list string)
    (postcondition : option string) : result EffectReceipt :=
  check_receipt
    {| r_intent_digest := intent_digest i; started_at := started; ended_at := ended; adapter_identity := identity;
       adapter_version := version;
       observed_precondition_digest := canonical_digest (strs (expected_preconditions i));
       r_status := "SUCCEEDED"; stdout_digest := None; stderr_digest := None; produced_identifiers := produced;
       postcondition_digest := or_default postcondition
         (canonical_digest (JObj [("intent", JStr (intent_digest i)); ("status", JStr "SUCCEEDED")]));
       retry_of := None; rollback_receipt := None |}.

(** ** Adapters and the running system *)

(** What an adapter returns: a receipt, a mapping, or anything else. *)
Inductive raw_result := RawReceipt (r : EffectReceipt) | RawMapping (m : contract) | RawOther.

(** [_ActiveEffectExecution] *)
Record marker := { mk_intent : string; mk_adapter : string }.

Record adapter := {
  version : option string;
  network_hosts : list string;
  (** the physical effect, given the execution marker and the call number *)
  perform : option marker -> EffectIntent -> nat -> result raw_result }.

Definition require_active_effect_execution (m : option marker) (name : string) : result unit :=
  match m with
  | None => raise AuthorityDenied "remote execution requires a validated effect gateway invocation"
  | Some mk => require (String.eqb (mk_adapter mk) name) AuthorityDenied
                 ("remote execution is not authorized for adapter " +:+ name)%stdpp
  end.

(** The system around an outbox: the database, the registry, the execution
    marker, the clock reading, and the trace of adapter calls. *)
Record sys := {
  db : effect_db;
  authority : option registry;
  active : option marker;
  ticks : nat;
  performed : list EffectIntent }.

Definition with_db (s : sys) (d : effect_db) : sys :=
  {| db := d; authority := authority s; active := active s; ticks := ticks s; performed := performed s |}.
Definition with_active (s : sys) (m : option marker) : sys :=
  {| db := db s; authority := authority s; active := m; ticks := ticks s; performed := performed s |}.

(** A database transaction of the system. *)
Definition on_db {A} (m : M effect_db A) : M sys A :=
  fun s => let '(r, d) := m (db s) in (r, with_db s d).

Section outbox.
Context (issuance_key : string) (clock : nat -> string) (adapters : gmap string adapter).

(** [self.clock()] *)
Definition read_clock : M sys string :=
  fun s => (Ok (clock (ticks s)),
            {| db := db s; authority := authority s; active := active s; ticks := S (ticks s); performed := performed s |}).

Definition adapter_hosts (name : string) : list string :=
  match adapters !! name with Some a => network_hosts a | None => [] end.

(** [DurableEffectOutbox._validate] *)
Definition _validate (i : EffectIntent) (t : CapabilityToken) : M sys unit :=
  let* now := read_clock in
  let* s := getM in
  liftR (validate_capability_token issuance_key i t (authority s) now (adapter_hosts (target_adapter i))).

Definition enqueue (i : EffectIntent) (t : CapabilityToken) : M sys entry :=
  _validate i t ;*
  guardM (match adapters !! target_adapter i with Some _ => true | None => false end)
    AuthorityDenied "adapter is not registered" ;*
  let* now := read_clock in
  on_db (enqueue_effect (i_idempotency_key i) (intent_digest i) (intent_to_document i) now).

(** [_authorized_effect_execution] around one adapter call: the marker is set,
    the effect happens, and the marker is reset however the call ends. *)
Definition call_adapter (a : adapter) (i : EffectIntent) : M sys raw_result :=
  let* s := getM in
  guardM (match active s with Some _ => false | None => true end) AuthorityDenied "nested effect execution is not permitted" ;*
  let mk := Some {| mk_intent := intent_digest i; mk_adapter := target_adapter i |} in
  putM {| db := db s; authority := authority s; active := active s; ticks := ticks s; performed := performed s ++ [i] |} ;*
  liftR (perform a mk i (length (performed s))).

Definition _result (e : entry) : result EffectResult :=
  match o_receipt e with
  | Some d => require (negb (String.eqb d "")) KernelIntegrityError "receipt-recorded effect has no receipt digest" ;?
              Ok {| res_intent := o_intent e; res_receipt := d; res_status := "SUCCEEDED" |}
  | None => raise KernelIntegrityError "receipt-recorded effect has no receipt digest"
  end.

Definition needs (i : EffectIntent) (m : string) : string := ("effect " +:+ intent_digest i +:+ m)%stdpp.

(** Record an ambiguous outcome, then raise. *)
Definition mark_ambiguous (i : EffectIntent) (reason : string) (evidence : contract) (m : string) : M sys EffectResult :=
  let* now := read_clock in
  on_db (mark_effect_reconciliation_required (intent_digest i) reason now evidence "reconciliation_required") ;*
  fail EffectReconciliationRequired (needs i m).

(** [produced_identifiers] and [postcondition_digest] of a returned mapping. *)
Definition produced_of (raw : raw_result) : list string :=
  match raw with
  | RawMapping m => match get "produced_identifiers" m with
                    | JList l => if forallb (fun v => match v with JStr _ => true | _ => false end) l then omap as_str l else []
                    | _ => [] end
  | _ => []
  end.
Definition postcondition_of (raw : raw_result) : option string :=
  match raw with RawMapping m => as_str (get "postcondition_digest" m) | _ => None end.

(** The receipt for what the adapter returned. *)
Definition receipt_of (i : EffectIntent) (a : adapter) (started : string) (raw : raw_result) : M sys EffectReceipt :=
  match raw with
  | RawReceipt r =>
      guardM (String.eqb (r_intent_digest r) (intent_digest i)) KernelIntegrityError "adapter receipt is bound to another intent" ;*
      ret r
  | _ =>
      let* ended := read_clock in
      liftR (build_effect_receipt i (target_adapter i) (default "1" (version a)) started ended
               (produced_of raw) (postcondition_of raw))
  end.

(** The part of [execute] behind [begin_effect]: the effect and its receipt. *)
Definition deliver (i : EffectIntent) (a : adapter) : M sys EffectResult :=
  let* started := read_clock in
  fun s =>
    match call_adapter a i s with
    | (Raise e, s1) =>
        mark_ambiguous i "adapter failed after durable execution began" [("error_type", JStr (exc_name (exc_cls e)))]
          " has an ambiguous adapter outcome" s1
    | (Ok raw, s1) =>
        (let* receipt := receipt_of i a started raw in
         let document := receipt_to_document receipt in
         let* now := read_clock in
         fun s2 =>
           match on_db (record_effect_receipt (intent_digest i) (canonical_digest (JObj document)) document now) s2 with
           | (Ok e, s3) => (_result e, s3)
           | (Raise e, s3) =>
               mark_ambiguous i "physical effect completed but receipt append failed" [("error_type", JStr (exc_name (exc_cls e)))]
                 " needs receipt reconciliation" s3
           end) s1
    end.

(** [execute] up to and including [begin_effect]: the entry as it then is, or
    the result of an earlier delivery. *)
Definition prepare (i : EffectIntent) (t : CapabilityToken) : M sys (adapter * (entry + EffectResult)) :=
  _validate i t ;*
  match adapters !! target_adapter i with
  | None => fail AuthorityDenied "adapter is not registered"
  | Some a =>
      let* s := getM in
      let* e := match find_intent (db s) (intent_digest i) with
                | None => enqueue i t
                | Some e =>
                    guardM (String.eqb (intent_json e) (canonical_bytes (JObj (intent_to_document i))))
                      KernelIntegrityError "durable intent does not match requested intent" ;*
                    ret e
                end in
      match o_state e with
      | receipt_recorded => let* r := liftR (_result e) in ret (a, inr r)
      | reconciliation_required => fail EffectReconciliationRequired (needs i " requires reconciliation")
      | executing =>
          let* r := mark_ambiguous i "previous delivery was interrupted before receipt" [] " was interrupted before receipt" in
          ret (a, inr r)
      | pending =>
          let* now := read_clock in
          let* e := on_db (begin_effect (intent_digest i) now) in
          match o_state e with
          | executing => ret (a, inl e)
          | receipt_recorded => let* r := liftR (_result e) in ret (a, inr r)
          | st => fail EffectReconciliationRequired (needs i (" is not deliverable: " +:+ effect_state_value st)%stdpp)
          end
      end
  end.

(** [DurableEffectOutbox.execute] *)
Definition execute (i : EffectIntent) (t : CapabilityToken) : M sys EffectResult :=
  let* (a, outcome) := prepare i t in
  match outcome with
  | inr r => ret r
  | inl _ => deliver i a
  end.

(** The intent an entry holds, parsed and checked again. *)
Definition stored_intent (e : entry) : result EffectIntent :=
  match loads (intent_json e) with
  | None => raise KernelIntegrityError "durable effect intent is corrupt"
  | Some j => match intent_from_document j with
              | Ok i => Ok i
              | Raise x => if bool_decide (exc_cls x ∈ [TypeError; ValueError])
                           then raise KernelIntegrityError "durable effect intent is corrupt" else Raise x
              end
  end.

Definition reconcile (intent : string) (receipt : EffectReceipt) (t : CapabilityToken) (evidence : contract) : M sys EffectResult :=
  guardM (String.eqb (r_intent_digest receipt) intent) KernelIntegrityError "reconciliation receipt is bound to another intent" ;*
  let* s := getM in
  match find_intent (db s) intent with
  | None => fail KernelIntegrityError "cannot reconcile an unknown effect intent"
  | Some e =>
      let* stored := liftR (stored_intent e) in
      _validate stored t ;*
      let document := receipt_to_document receipt in
      let* now := read_clock in
      let* e := on_db (record_effect_receipt intent (canonical_digest (JObj document)) document now) in
      (match evidence with
       | [] => ret tt
       | _ :: _ =>
           let* now := read_clock in
           on_db (mark_effect_reconciliation_required intent
                    "receipt adopted from explicit authorized reconciliation witness" now evidence "reconciled") ;*
           ret tt
       end) ;*
      liftR (_result e)
  end.

Definition recover : M sys (list string) :=
  let* now := read_clock in on_db (recover_effects now).

(** ** The in-memory gateway

    Without a store the gateway keeps its receipts by idempotency key. *)
Definition gateway_execute (receipts : list (string * EffectResult)) (i : EffectIntent) (t : CapabilityToken)
    : M sys (EffectResult * list (string * EffectResult)) :=
  _validate i t ;*
  match lookup_key (i_idempotency_key i) receipts with
  | Some previous => ret (previous, receipts)
  | None =>
      match adapters !! target_adapter i with
      | None => fail AuthorityDenied "adapter is not registered"
      | Some a =>
          call_adapter a i ;*
          let r := {| res_intent := intent_digest i;
                      res_receipt := canonical_digest (JObj [("intent", JStr (intent_digest i)); ("status", JStr "SUCCEEDED")]);
                      res_status := "SUCCEEDED" |} in
          ret (r, dict_set (i_idempotency_key i) r receipts)
      end
  end.

(** [EffectGateway.execute] over a store: the gateway validates, and so does the
    outbox it hands the intent to. *)
Definition gateway_execute_durable (i : EffectIntent) (t : CapabilityToken) : M sys EffectResult :=
  _validate i t ;* execute i t.

End outbox.

(** [EffectGateway.register_adapter] *)
Definition register_adapter (adapters : gmap string adapter) (name : string) (a : adapter) : result (gmap string adapter) :=
  require (negb (String.eqb name "") && match adapters !! name with Some _ => false | None => true end)
    ValueError "adapter name must be new and non-empty" ;?
  require (match version a with Some v => negb (is_blank v) | None => true end) ValueError "adapter version must be non-empty" ;?
  Ok (<[name := a]> adapters).

(** ** The lifecycle of an entry *)

(** How the state of an entry may develop: never back to pending, into
    executing only from pending, and a recorded receipt is final. *)
Definition state_moves (before after : effect_state) : Prop :=
  after = before \/ (before <> receipt_recorded /\ after <> pending /\ (after = executing -> before = pending)).

Definition entry_moves (before after : option entry) : Prop :=
  match before, after with
  | None, None => True
  | None, Some e => True
  | Some e, Some e' => o_key e' = o_key e /\ intent_json e' = intent_json e /\ state_moves (o_state e) (o_state e')
  | Some _, None => False
  end.

(** [d'] develops from [d]. *)
Definition db_moves (d d' : effect_db) : Prop := forall i, entry_moves (find_intent d i) (find_intent d' i).

Lemma state_moves_trans a b c : state_moves a b -> state_moves b c -> state_moves a c.
Proof. unfold state_moves. intros [->|(H1 & H2 & H3)] [->|(H4 & H5 & H6)]; naive_solver. Qed.

Lemma db_moves_refl d : db_moves d d.
Proof. intros i. unfold entry_moves. destruct (find_intent d i); [|done]. repeat split; by left. Qed.

(** Only the outbox table matters. *)
Lemma db_moves_ext d d1 d2 : effect_outbox d2 = effect_outbox d1 -> db_moves d d1 -> db_moves d d2.
Proof. unfold db_moves, find_intent. by intros ->. Qed.

Lemma db_moves_trans d1 d2 d3 : db_moves d1 d2 -> db_moves d2 d3 -> db_moves d1 d3.
Proof.
  intros H1 H2 i. specialize (H1 i). specialize (H2 i). unfold entry_moves in *.
  destruct (find_intent d1 i), (find_intent d2 i), (find_intent d3 i); try done.
  destruct H1 as (E1 & E2 & E3), H2 as (E4 & E5 & E6). split; [congruence|]. split; [congruence|].
  by eapply state_moves_trans.
Qed.

Lemma find_map_intent (f : entry -> entry) l j :
  (forall e, o_intent (f e) = o_intent e) ->
  List.find (fun e => String.eqb (o_intent e) j) (map f l) = f <$> List.find (fun e => String.eqb (o_intent e) j) l.
Proof. intros Hf. induction l as [|e l IH]; [done|]. cbn. rewrite Hf. by destruct (String.eqb _ _). Qed.

Lemma find_update i f d j :
  (forall e, o_intent (f e) = o_intent e) ->
  find_intent (update_intent i f d) j = if String.eqb i j then f <$> find_intent d j else find_intent d j.
Proof.
  intros Hf. unfold find_intent, update_intent. cbn [with_outbox effect_outbox].
  rewrite find_map_intent by (intros e; by destruct (String.eqb _ _)).
  destruct (List.find _ (effect_outbox d)) as [e|] eqn:E; [|by destruct (String.eqb i j)].
  apply List.find_some in E as [_ E]. apply String.eqb_eq in E. cbn. rewrite E, String.eqb_sym.
  by destruct (String.eqb i j).
Qed.

(** An update that only moves states moves the database. *)
Lemma update_moves i f d :
  (forall e, o_intent (f e) = o_intent e) ->
  (forall e, find_intent d i = Some e -> o_key (f e) = o_key e /\ intent_json (f e) = intent_json e
             /\ state_moves (o_state e) (o_state (f e))) ->
  db_moves d (update_intent i f d).
Proof.
  intros Hf Hm j. rewrite find_update by done. destruct (String.eqb_spec i j) as [<-|]; [|apply db_moves_refl].
  unfold entry_moves. destruct (find_intent d i) as [e|] eqn:E; [|done]. by apply Hm.
Qed.

Lemma find_append d row j :
  find_intent d (o_intent row) = None ->
  find_intent (with_outbox d (effect_outbox d ++ [row])) j =
  if String.eqb (o_intent row) j then Some row else find_intent d j.
Proof.
  unfold find_intent. cbn [with_outbox effect_outbox]. intros Hn.
  assert (G : forall l, List.find (fun e => String.eqb (o_intent e) j) (l ++ [row]) =
    match List.find (fun e => String.eqb (o_intent e) j) l with Some e => Some e
    | None => if String.eqb (o_intent row) j then Some row else None end).
  { induction l as [|e l IH]; cbn; [done|]. by destruct (String.eqb (o_intent e) j). }
  rewrite G. destruct (String.eqb_spec (o_intent row) j) as [<-|]; [by rewrite Hn|].
  by destruct (List.find (fun e => String.eqb (o_intent e) j) (effect_outbox d)).
Qed.

Lemma select_intent_keeps i d : (select_intent i d).2 = d.
Proof. unfold select_intent. rewrite run_get. by destruct (find_intent d i). Qed.

Lemma run_db_writable {A} (f : unit -> M effect_db A) d :
  bindM _require_writable f d =
  if db_read_only d then (raise KernelIntegrityError "read-only kernel store cannot be mutated", d) else f tt d.
Proof. unfold bindM, _require_writable, guardM, liftR. by cbn; destruct (db_read_only d). Qed.

(** A transaction that raised. *)
Ltac unchanged := intros [= <- <-]; split; [apply db_moves_refl|split; [done|discriminate]].

Lemma enqueue_effect_spec key i doc rec d r d' :
  enqueue_effect key i doc rec d = (r, d') ->
  db_moves d d' /\ effect_receipts d' = effect_receipts d
  /\ (forall e, r = Ok e -> find_intent d i = None -> find_intent d' i = Some e /\ o_state e = pending).
Proof.
  unfold enqueue_effect. rewrite run_db_writable. destruct (db_read_only d); [unchanged|].
  unfold atomic. rewrite run_get. destruct (find_key d key) as [row|] eqn:Ek.
  - rewrite run_guard. destruct (_ && _) eqn:E; [|unchanged]. cbn. intros [= <- <-].
    split; [apply db_moves_refl|]. split; [done|]. intros e [= <-] Hn. exfalso. bool_hyps. subst i.
    unfold find_key in Ek. apply List.find_some in Ek as [Hin _]. unfold find_intent in Hn.
    eapply find_none in Hn; [|exact Hin]. cbn in Hn. by rewrite String.eqb_refl in Hn.
  - rewrite run_guard. destruct (find_intent d i) as [e|] eqn:Ei; [unchanged|].
    rewrite run_put. cbn. intros [= <- <-]. split; [|split; [done|]].
    + intros j. rewrite find_append by done. cbn. destruct (String.eqb_spec i j) as [<-|]; [by rewrite Ei|apply db_moves_refl].
    + intros e [= <-] _. rewrite find_append by done. cbn. by rewrite String.eqb_refl.
Qed.

Lemma begin_effect_spec i rec d r d' :
  begin_effect i rec d = (r, d') ->
  db_moves d d' /\ effect_receipts d' = effect_receipts d
  /\ (forall e, r = Ok e -> (forall e0, find_intent d i = Some e0 -> o_state e0 = pending) ->
       find_intent d' i = Some e /\ o_state e = executing).
Proof.
  unfold begin_effect. rewrite run_db_writable. destruct (db_read_only d); [unchanged|].
  unfold atomic. rewrite run_get. destruct (find_intent d i) as [row|] eqn:Ei; [|unchanged].
  case_bool_decide as Hp.
  - rewrite run_put. unfold select_intent. rewrite run_get, find_update by (intros e; by case_bool_decide).
    rewrite String.eqb_refl, Ei. cbn. rewrite bool_decide_eq_true_2 by done. intros [= <- <-].
    split; [|split; [done|]].
    + apply update_moves; [intros e; by case_bool_decide|]. intros e He. rewrite Ei in He. injection He as <-.
      rewrite bool_decide_eq_true_2 by done. split; [done|]. split; [done|]. right. rewrite Hp. done.
    + intros e [= <-] _. rewrite find_update by (intros e; by case_bool_decide). rewrite String.eqb_refl, Ei. cbn.
      by rewrite bool_decide_eq_true_2.
  - cbn. intros [= <- <-]. split; [apply db_moves_refl|]. split; [done|]. intros e [= <-] H. by destruct Hp; apply H.
Qed.

Lemma mark_effect_spec i reason rec ev st d r d' :
  mark_effect_reconciliation_required i reason rec ev st d = (r, d') ->
  db_moves d d' /\ effect_receipts d' = effect_receipts d.
Proof.
  unfold mark_effect_reconciliation_required. rewrite run_db_writable.
  destruct (db_read_only d); [intros [= <- <-]; split; [apply db_moves_refl|done]|]. rewrite run_guard.
  destruct (mem _ _); [|intros [= <- <-]; split; [apply db_moves_refl|done]].
  unfold atomic. rewrite run_get. destruct (find_intent d i) as [row|] eqn:Ei;
    [|intros [= <- <-]; split; [apply db_moves_refl|done]].
  set (note := {| rec_intent := i |}). clearbody note. unfold note_reconciliation.
  case_bool_decide as Hs.
  - rewrite run_ret, run_bind, run_get. unfold putM.
    match goal with |- context [select_intent i ?x] => pose proof (select_intent_keeps i x); destruct (select_intent i x) as [[] d1] end;
      cbn in *; intros [= <- <-]; subst; by split; [apply (db_moves_ext d d); [done|apply db_moves_refl]|].
  - rewrite run_put, run_bind, run_get. unfold putM.
    match goal with |- context [select_intent i ?x] => pose proof (select_intent_keeps i x); destruct (select_intent i x) as [[] d1] end;
      cbn [snd] in *; intros [= <- <-]; subst; [|by split; [apply db_moves_refl|]].
    split; [|done]. apply (db_moves_ext d (update_intent i (ambiguous_row reason rec) d)); [done|].
    apply update_moves; [done|]. intros e He. rewrite Ei in He. injection He as <-. split; [done|]. split; [done|].
    right. split; [done|]. split; [done|]. discriminate.
Qed.

Lemma find_intent_name d i e : find_intent d i = Some e -> o_intent e = i.
Proof. unfold find_intent. intros H. apply List.find_some in H as [_ H]. by apply String.eqb_eq. Qed.

(** A recorded receipt is linked: the entry names it and the table holds it. *)
Definition receipt_linked (d : effect_db) (i rd : string) (doc : contract) : Prop :=
  exists row, row ∈ effect_receipts d /\ rr_intent row = i /\ rr_digest row = rd /\ receipt_json row = canonical_bytes (JObj doc).

(** The last step of [record_effect_receipt]. *)
Lemma link_spec i rd rec d row :
  find_intent d i = Some row ->
  (let* d := getM in putM (update_intent i (link_row rd rec) d) ;* select_intent i) d
  = (Ok (link_row rd rec row), update_intent i (link_row rd rec) d)
  /\ db_moves d (update_intent i (link_row rd rec) d)
  /\ find_intent (update_intent i (link_row rd rec) d) i = Some (link_row rd rec row).
Proof.
  intros Hf. assert (E : find_intent (update_intent i (link_row rd rec) d) i = Some (link_row rd rec row))
    by (rewrite find_update by done; by rewrite String.eqb_refl, Hf).
  split; [|split; [|done]].
  - rewrite run_get, run_put. unfold select_intent. by rewrite run_get, E.
  - apply update_moves; [done|]. intros e He. rewrite Hf in He. injection He as <-. split; [done|]. split; [done|].
    destruct (o_state row) eqn:Es; [right..|left|right]; done.
Qed.

Lemma record_receipt_spec i rd doc rec d r d' :
  record_effect_receipt i rd doc rec d = (r, d') ->
  db_moves d d' /\ effect_receipts d ⊆ effect_receipts d'
  /\ (forall e, r = Ok e -> o_intent e = i /\ o_state e = receipt_recorded /\ o_receipt e = Some rd
       /\ find_intent d' i = Some e /\ receipt_linked d' i rd doc).
Proof.
  unfold record_effect_receipt. rewrite run_db_writable. destruct (db_read_only d); [unchanged|].
  unfold atomic. rewrite run_get. destruct (find_intent d i) as [row|] eqn:Ei; [|unchanged].
  destruct (find_receipt d i) as [existing|] eqn:Er.
  - rewrite run_guard. destruct (_ && _) eqn:E; [|unchanged].
    destruct (link_spec i rd rec d row Ei) as (-> & Hm & Hf). intros [= <- <-]. split; [done|]. split; [done|].
    intros e [= <-]. split; [by apply find_intent_name in Ei|]. split; [done|]. split; [done|]. split; [done|].
    apply List.find_some in Er as [Hin Hi]. bool_hyps. exists existing. split; [by apply list_elem_of_In|done].
  - rewrite run_bind, run_guard. destruct (forallb _ _); [|unchanged]. unfold putM at 1.
    set (new := {| rr_digest := rd |}). set (d1 := with_receipts d (effect_receipts d ++ [new])).
    destruct (link_spec i rd rec d1 row Ei) as (-> & Hm & Hf). intros [= <- <-].
    split; [exact Hm|]. split; [cbn; set_solver|].
    intros e [= <-]. split; [by apply find_intent_name in Ei|]. split; [done|]. split; [done|]. split; [done|].
    exists new. split; [cbn; set_solver|done].
Qed.

(** A first receipt whose digest is new is recorded. *)
Lemma record_receipt_fresh i rd doc rec d e :
  db_read_only d = false -> find_intent d i = Some e -> find_receipt d i = None ->
  Forall (fun r => rr_digest r <> rd) (effect_receipts d) ->
  exists e' d', record_effect_receipt i rd doc rec d = (Ok e', d').
Proof.
  intros Hro He Hnr Hd. unfold record_effect_receipt. rewrite run_db_writable, Hro. unfold atomic.
  rewrite run_get, He, Hnr, run_bind, run_guard, (proj2 (forallb_forall _ _)).
  2: { intros r Hin. rewrite Forall_forall in Hd. apply negb_true_iff, String.eqb_neq, Hd. by apply list_elem_of_In. }
  unfold putM at 1.
  match goal with |- context [with_receipts d ?l] => destruct (link_spec i rd rec (with_receipts d l) e He) as (-> & _) end.
  by eexists _, _.
Qed.

(** The result of a linked entry. *)
Lemma result_linked e doc :
  o_receipt e = Some (canonical_digest doc) ->
  _result e = Ok {| res_intent := o_intent e; res_receipt := canonical_digest doc; res_status := "SUCCEEDED" |}.
Proof. intros H. unfold _result. rewrite H. by assert (String.eqb (canonical_digest doc) "" = false) as -> by (by apply String.eqb_neq). Qed.

Lemma recover_one_spec rec i d :
  db_moves d (recover_one rec i d)
  /\ effect_receipts (recover_one rec i d) = effect_receipts d
  /\ find_intent (recover_one rec i d) i
     = (fun e => if bool_decide (o_state e = executing) then ambiguous_row interrupted rec e else e) <$> find_intent d i
  /\ (forall j, j <> i -> find_intent (recover_one rec i d) j = find_intent d j).
Proof.
  set (f := fun e => if bool_decide (o_state e = executing) then ambiguous_row interrupted rec e else e).
  assert (Hf : forall e, o_intent (f e) = o_intent e) by (intros e; unfold f; by case_bool_decide).
  assert (Hfind : forall j, find_intent (recover_one rec i d) j = find_intent (update_intent i f d) j) by done.
  split; [|split; [done|split]].
  - eapply db_moves_ext; [|apply (update_moves i f)]; [done|done|]. intros e _. unfold f. case_bool_decide as He.
    + split; [done|]. split; [done|]. right. rewrite He. done.
    + split; [done|]. split; [done|]. by left.
  - rewrite Hfind, find_update by done. by rewrite String.eqb_refl.
  - intros j Hj. rewrite Hfind, find_update by done. destruct (String.eqb_spec i j); [congruence|done].
Qed.

(** What recovery makes of an entry. *)
Definition recovered (rec : string) (e : entry) : entry :=
  if bool_decide (o_state e = executing) then ambiguous_row interrupted rec e else e.

Lemma recover_all_spec rec rows d :
  let d' := fold_left (fun d i => recover_one rec i d) rows d in
  db_moves d d' /\ effect_receipts d' = effect_receipts d
  /\ forall j, find_intent d' j = if bool_decide (j ∈ rows) then recovered rec <$> find_intent d j else find_intent d j.
Proof.
  revert d. induction rows as [|i rows IH]; intros d; cbn [fold_left].
  - split; [apply db_moves_refl|]. split; [done|]. intros j. rewrite bool_decide_eq_false_2; [done|apply not_elem_of_nil].
  - destruct (IH (recover_one rec i d)) as (Hm & Hr & Hf). destruct (recover_one_spec rec i d) as (Hm1 & Hr1 & Hf1 & Hf2).
    split; [by eapply db_moves_trans|]. split; [congruence|]. intros j. rewrite Hf.
    destruct (decide (j = i)) as [->|Hj].
    + rewrite (bool_decide_eq_true_2 (i ∈ i :: rows)) by (by left). rewrite Hf1. fold (recovered rec).
      destruct (bool_decide (i ∈ rows)); [|done]. destruct (find_intent d i) as [e|]; [|done]. cbn. f_equal.
      unfold recovered. destruct (bool_decide (o_state e = executing)) eqn:E; [done|by rewrite E].
    + rewrite (Hf2 j Hj). destruct (decide (j ∈ rows)) as [Hin|Hin].
      * rewrite !bool_decide_eq_true_2; [done|by right|done].
      * rewrite !bool_decide_eq_false_2; [done| |done]. rewrite elem_of_cons. naive_solver.
Qed.

(** Recovery marks exactly the entries whose delivery was interrupted. *)
Lemma recover_effects_spec rec d r d' :
  recover_effects rec d = (r, d') ->
  db_moves d d' /\ effect_receipts d' = effect_receipts d
  /\ (forall l, r = Ok l -> forall j, find_intent d' j = recovered rec <$> find_intent d j).
Proof.
  unfold recover_effects. rewrite run_db_writable. destruct (db_read_only d); [unchanged|].
  unfold atomic. rewrite run_get, run_put. cbn [ret].
  set (rows := map o_intent _). destruct (recover_all_spec rec rows d) as (Hm & Hr & Hf).
  intros [= <- <-]. split; [done|]. split; [done|]. intros l _ j. rewrite Hf. case_bool_decide as Hin; [done|].
  destruct (find_intent d j) as [e|] eqn:E; [|done]. cbn. f_equal. unfold recovered. case_bool_decide as He; [|done].
  destruct Hin. pose proof (find_intent_name _ _ _ E) as <-. unfold find_intent in E. apply List.find_some in E as [Hin _].
  apply list_elem_of_In, in_map, filter_In. split; [done|by apply bool_decide_eq_true].
Qed.

(** ** At most one delivery *)

Section deliveries.
Context (issuance_key : string) (clock : nat -> string) (adapters : gmap string adapter).

Notation execute := (execute issuance_key clock adapters).
Notation prepare := (prepare issuance_key clock adapters).
Notation _validate := (_validate issuance_key clock adapters).

(** Only the clock moved. *)
Definition tick (s : sys) : sys :=
  {| db := db s; authority := authority s; active := active s; ticks := S (ticks s); performed := performed s |}.

Lemma run_clock {A} (f : string -> M sys A) s : bindM (read_clock clock) f s = f (clock (ticks s)) (tick s).
Proof. done. Qed.

Lemma run_db {A B} (m : M effect_db B) (f : B -> M sys A) s :
  bindM (on_db m) f s = match m (db s) with
                        | (Ok b, d) => f b (with_db s d)
                        | (Raise e, d) => (Raise e, with_db s d)
                        end.
Proof. unfold bindM, on_db. destruct (m (db s)) as [[b|e] d]; done. Qed.

Lemma run_validate {A} i t (f : unit -> M sys A) s :
  bindM (_validate i t) f s =
  match validate_capability_token issuance_key i t (authority s) (clock (ticks s)) (adapter_hosts adapters (target_adapter i)) with
  | Ok _ => f tt (tick s)
  | Raise e => (Raise e, tick s)
  end.
Proof.
  unfold _validate. rewrite run_bind, run_clock, run_get. unfold liftR. cbn [authority tick].
  destruct (validate_capability_token _ _ _ _ _ _) as [[]|]; done.
Qed.

(** [s'] develops from [s] without an adapter call. *)
Definition quiet (s s' : sys) : Prop :=
  db_moves (db s) (db s') /\ performed s' = performed s /\ active s' = active s
  /\ effect_receipts (db s) ⊆ effect_receipts (db s').

Lemma quiet_refl s : quiet s s.
Proof. split; [apply db_moves_refl|done]. Qed.
Lemma quiet_tick s : quiet s (tick s).
Proof. split; [apply db_moves_refl|done]. Qed.
Lemma quiet_trans s1 s2 s3 : quiet s1 s2 -> quiet s2 s3 -> quiet s1 s3.
Proof.
  intros (H1 & H2 & H3 & H4) (H5 & H6 & H7 & H8). split; [by eapply db_moves_trans|]. split; [congruence|].
  split; [congruence|]. by etrans.
Qed.
Lemma quiet_db s d : db_moves (db s) d -> effect_receipts (db s) ⊆ effect_receipts d -> quiet s (with_db s d).
Proof. done. Qed.
Lemma quiet_from_tick s s' : quiet (tick s) s' -> quiet s s'.
Proof. intros H. eapply quiet_trans; [apply quiet_tick|done]. Qed.

Lemma mark_ambiguous_spec i reason ev m s r s' :
  mark_ambiguous clock i reason ev m s = (r, s') -> quiet s s' /\ exists x, r = Raise x.
Proof.
  unfold mark_ambiguous. rewrite run_clock, run_db. cbn [db tick].
  destruct (mark_effect_reconciliation_required _ _ _ _ _ _) as [res d] eqn:E.
  apply mark_effect_spec in E as [Hm Hr].
  destruct res; cbn; intros [= <- <-]; (split; [apply quiet_from_tick, quiet_db; [done|by rewrite Hr]|eauto]).
Qed.

Lemma enqueue_spec i t s r s' :
  enqueue issuance_key clock adapters i t s = (r, s') ->
  quiet s s' /\ (forall e, r = Ok e -> find_intent (db s) (intent_digest i) = None ->
                   find_intent (db s') (intent_digest i) = Some e /\ o_state e = pending).
Proof.
  unfold enqueue. rewrite run_validate. destruct (validate_capability_token _ _ _ _ _ _);
    [|intros [= <- <-]; split; [apply quiet_tick|discriminate]].
  rewrite run_guard. destruct (adapters !! target_adapter i); [|intros [= <- <-]; split; [apply quiet_tick|discriminate]].
  rewrite run_clock. unfold on_db. cbn [db tick].
  destruct (enqueue_effect _ _ _ _ _) as [res d] eqn:E. apply enqueue_effect_spec in E as (Hm & Hr & Hf).
  intros [= <- <-]. split; [|done]. apply quiet_from_tick, quiet_from_tick, quiet_db; [done|by rewrite Hr].
Qed.

(** [prepare] performs nothing, and hands out an entry to deliver only when
    that entry was pending or new, and now is executing. *)
Lemma prepare_spec i t s r s' :
  prepare i t s = (r, s') ->
  quiet s s'
  /\ (forall a e, r = Ok (a, inl e) ->
      (forall e0, find_intent (db s) (intent_digest i) = Some e0 -> o_state e0 = pending)
      /\ find_intent (db s') (intent_digest i) = Some e /\ o_state e = executing)
  /\ (forall a res, r = Ok (a, inr res) ->
      exists e, find_intent (db s') (intent_digest i) = Some e /\ o_state e = receipt_recorded /\ _result e = Ok res).
Proof.
  unfold Outbox.prepare. rewrite run_validate. destruct (validate_capability_token _ _ _ _ _ _);
    [|intros [= <- <-]; split; [apply quiet_tick|split; discriminate]].
  destruct (adapters !! target_adapter i) as [ad|]; [|intros [= <- <-]; split; [apply quiet_tick|split; discriminate]].
  rewrite run_get, run_bind. cbn [db tick].
  set (m := match find_intent (db s) (intent_digest i) with None => _ | Some e => _ end).
  assert (Hm : forall r1 s1, m (tick s) = (r1, s1) -> quiet s s1 /\ forall e, r1 = Ok e ->
    find_intent (db s1) (intent_digest i) = Some e
    /\ (o_state e = pending -> forall e0, find_intent (db s) (intent_digest i) = Some e0 -> o_state e0 = pending)).
  { intros r1 s1. subst m. destruct (find_intent (db s) (intent_digest i)) as [e0|] eqn:Ef.
    - rewrite run_guard. destruct (String.eqb _ _); cbn; intros [= <- <-]; (split; [apply quiet_tick|]); [|discriminate].
      intros e [= <-]. split; [done|]. by intros Hp e1 [= <-].
    - intros He. apply enqueue_spec in He as [Hq Hf]. split; [by apply quiet_from_tick|]. intros e ->.
      destruct (Hf e eq_refl Ef) as [-> _]. done. }
  destruct (m (tick s)) as [[e|x] s1] eqn:Em; destruct (Hm _ _ eq_refl) as [Hq Hfound];
    [|intros [= <- <-]; split; [done|split; discriminate]].
  destruct (Hfound e eq_refl) as [Hfe Hpend]. destruct (o_state e) eqn:Es.
  - rewrite run_clock, run_db. cbn [db tick].
    destruct (begin_effect _ _ _) as [[e1|x] d] eqn:Eb; apply begin_effect_spec in Eb as (Hbm & Hbr & Hbf).
    + assert (Hq' : quiet s (with_db (tick s1) d)).
      { eapply quiet_trans; [exact Hq|]. apply quiet_from_tick, quiet_db; [done|by rewrite Hbr]. }
      destruct (Hbf e1 eq_refl) as [Hfd Hex]; [intros e0 He0; rewrite Hfe in He0; by injection He0 as <-|].
      rewrite Hex. cbn. intros [= <- <-]. split; [exact Hq'|]. split; [|discriminate].
      intros a' e' [= <- <-]. split; [by apply Hpend|]. split; done.
    + intros [= <- <-]. split; [|split; discriminate]. eapply quiet_trans; [exact Hq|]. apply quiet_from_tick, quiet_db; [done|by rewrite Hbr].
  - rewrite run_bind. destruct (mark_ambiguous _ _ _ _ _ _) as [r2 s2] eqn:Ea.
    apply mark_ambiguous_spec in Ea as [Hq2 [x ->]]. intros [= <- <-]. split; [by eapply quiet_trans|split; discriminate].
  - rewrite run_lift. destruct (_result e) as [res|x] eqn:Er; cbn; intros [= <- <-]; (split; [done|]); split; try discriminate.
    intros a' res' [= <- <-]. by exists e.
  - cbn. intros [= <- <-]. split; [done|split; discriminate].
Qed.

Lemma receipt_of_spec i a started raw s r s' :
  receipt_of clock i a started raw s = (r, s') -> quiet s s'.
Proof.
  unfold receipt_of. destruct raw as [x|m|].
  - rewrite run_guard. destruct (String.eqb _ _); cbn; intros [= <- <-]; apply quiet_refl.
  - rewrite run_clock. unfold liftR. intros [= <- <-]. apply quiet_tick.
  - rewrite run_clock. unfold liftR. intros [= <- <-]. apply quiet_tick.
Qed.

(** The system after an adapter was called for [i]. *)
Definition called (s : sys) (i : EffectIntent) : sys :=
  {| db := db s; authority := authority s; active := active s; ticks := ticks s; performed := performed s ++ [i] |}.

Lemma call_adapter_spec a i s r s' :
  call_adapter a i s = (r, s') -> (s' = called s i /\ active s = None) \/ (s' = s /\ (exists x, r = Raise x) /\ active s <> None).
Proof.
  unfold call_adapter. rewrite run_get, run_guard. destruct (active s) eqn:E; [intros [= <- <-]; right; eauto|].
  rewrite run_put. unfold liftR. intros [= <- <-]. left. split; [|done]. unfold called. by rewrite E.
Qed.

(** A delivery's result is a linked receipt of this intent. *)
Definition delivered (s : sys) (i : EffectIntent) (res : EffectResult) : Prop :=
  res_intent res = intent_digest i
  /\ (exists e, find_intent (db s) (intent_digest i) = Some e /\ o_state e = receipt_recorded /\ o_receipt e = Some (res_receipt res))
  /\ exists doc, receipt_linked (db s) (intent_digest i) (res_receipt res) doc /\ res_receipt res = canonical_digest (JObj doc).

Lemma deliver_spec i a s r s' :
  deliver clock i a s = (r, s') ->
  (quiet (called s i) s' \/ (quiet s s' /\ active s <> None))
  /\ (forall res, r = Ok res -> delivered s' i res).
Proof.
  unfold deliver. rewrite run_clock. destruct (call_adapter a i (tick s)) as [[raw|x] s1] eqn:Ec;
    apply call_adapter_spec in Ec.
  - destruct Ec as [[-> Ha]|(_ & [x Hx] & _)]; [|discriminate Hx].
    assert (Hq0 : quiet (called s i) (called (tick s) i)) by (split; [apply db_moves_refl|done]).
    rewrite run_bind. destruct (receipt_of _ _ _ _ _ _) as [[rc|x] s2] eqn:Er; apply receipt_of_spec in Er.
    2: { intros [= <- <-]. split; [left; eapply quiet_trans; [exact Hq0|exact Er]|discriminate]. }
    rewrite run_clock. unfold on_db. cbn [db tick].
    destruct (record_effect_receipt _ _ _ _ _) as [[e|x] d] eqn:Ed; apply record_receipt_spec in Ed as (Hm & Hr & Hf).
    + intros [= <- <-]. destruct (Hf e eq_refl) as (Hi & Hs & Ho & Hfi & Hl). split.
      * left. eapply quiet_trans; [exact Hq0|]. eapply quiet_trans; [exact Er|]. by apply quiet_from_tick, quiet_db.
      * intros res Hres. unfold _result in Hres. rewrite Ho in Hres. take_guard Hres Hne. injection Hres as <-.
        split; [done|]. split; [by exists e|]. by eexists.
    + destruct (mark_ambiguous _ _ _ _ _ _) as [r2 s3] eqn:Ea. apply mark_ambiguous_spec in Ea as [Hq2 [y ->]].
      intros [= <- <-]. split; [|discriminate]. left. eapply quiet_trans; [exact Hq0|]. eapply quiet_trans; [exact Er|].
      eapply quiet_trans; [|exact Hq2]. by apply quiet_from_tick, quiet_db.
  - destruct (mark_ambiguous _ _ _ _ _ _) as [r2 s3] eqn:Ea. apply mark_ambiguous_spec in Ea as [Hq2 [y ->]].
    intros [= <- <-]. split; [|discriminate]. destruct Ec as [[-> _]|(-> & _ & Ha)].
    + left. eapply quiet_trans; [|exact Hq2]. split; [apply db_moves_refl|done].
    + right. split; [by apply quiet_from_tick|done].
Qed.

(** Every adapter call in the trace is backed by an entry that left the pending
    state, and no intent was delivered twice. *)
Definition traced (s : sys) : Prop :=
  (forall i, i ∈ performed s -> exists e, find_intent (db s) (intent_digest i) = Some e /\ o_state e <> pending)
  /\ NoDup (map intent_digest (performed s)).

Lemma traced_quiet s s' : quiet s s' -> traced s -> traced s'.
Proof.
  intros (Hm & Hp & _ & _) [H1 H2]. split; rewrite Hp; [|done]. intros i Hi. destruct (H1 i Hi) as (e & He & Hs).
  specialize (Hm (intent_digest i)). rewrite He in Hm. unfold entry_moves in Hm.
  destruct (find_intent (db s') (intent_digest i)) as [e'|]; [|done]. exists e'. split; [done|].
  destruct Hm as (_ & _ & [->|(_ & Hn & _)]); done.
Qed.

Lemma traced_called s i e :
  find_intent (db s) (intent_digest i) = Some e -> o_state e <> pending ->
  (forall j, j ∈ performed s -> intent_digest j <> intent_digest i) -> traced s -> traced (called s i).
Proof.
  intros He Hs Hfresh [H1 H2]. split; cbn.
  - intros j Hj. apply elem_of_app in Hj as [Hj|Hj]; [by apply H1|]. apply list_elem_of_singleton in Hj as ->.
    by exists e.
  - rewrite map_app. apply NoDup_app. split; [done|]. split; [|apply NoDup_singleton].
    intros d Hd Hd'. apply list_elem_of_singleton in Hd' as ->. apply list_elem_of_In, in_map_iff in Hd as (j & Hj & Hin).
    apply list_elem_of_In in Hin. by apply (Hfresh j).
Qed.

(** What [prepare] hands out was not delivered before. *)
Lemma prepare_fresh i t s a e s' :
  traced s -> prepare i t s = (Ok (a, inl e), s') ->
  traced s' /\ find_intent (db s') (intent_digest i) = Some e /\ o_state e = executing
  /\ forall j, j ∈ performed s' -> intent_digest j <> intent_digest i.
Proof.
  intros Ht H. apply prepare_spec in H as (Hq & Hf & _). destruct (Hf a e eq_refl) as (Hp & He & Hs).
  split; [by eapply traced_quiet|]. split; [done|]. split; [done|]. destruct Hq as (_ & -> & _).
  intros j Hj E. destruct Ht as [H1 _]. destruct (H1 j Hj) as (e0 & He0 & Hn). rewrite E in He0. by apply Hn, Hp.
Qed.

Lemma execute_traced i t s : traced s -> traced (execute i t s).2.
Proof.
  intros Ht. unfold Outbox.execute. rewrite run_bind. destruct (prepare i t s) as [[[a [e|r]]|x] s1] eqn:Ep.
  - apply prepare_fresh in Ep as (Ht1 & He & Hs & Hfresh); [|done].
    destruct (deliver clock i a s1) as [r s2] eqn:Ed. apply deliver_spec in Ed as [[Hq|[Hq _]] _]; cbn.
    + eapply traced_quiet; [exact Hq|]. eapply traced_called; [exact He|by rewrite Hs|done|done].
    + by eapply traced_quiet.
  - apply prepare_spec in Ep as [Hq _]. cbn. by eapply traced_quiet.
  - apply prepare_spec in Ep as [Hq _]. cbn. by eapply traced_quiet.
Qed.

(** ** Histories with crashes

    A crash stops a delivery behind [begin_effect], before or after the
    adapter ran; the process restarts with the same database. *)
Inductive crash_point := before_adapter | after_adapter.

Definition crash_execute (p : crash_point) (i : EffectIntent) (t : CapabilityToken) (s : sys) : sys :=
  match prepare i t s with
  | (Ok (a, inl _), s1) =>
      match p with
      | before_adapter => s1
      | after_adapter => (call_adapter a i (tick s1)).2
      end
  | (_, s1) => s1
  end.

Inductive op :=
| Execute (i : EffectIntent) (t : CapabilityToken)
| Enqueue (i : EffectIntent) (t : CapabilityToken)
| Crash (p : crash_point) (i : EffectIntent) (t : CapabilityToken)
| Recover
| Reconcile (d : string) (r : EffectReceipt) (t : CapabilityToken) (evidence : contract)
| SetAuthority (a : option registry).

Definition run_op (o : op) (s : sys) : sys :=
  match o with
  | Execute i t => (execute i t s).2
  | Enqueue i t => (enqueue issuance_key clock adapters i t s).2
  | Crash p i t => with_active (crash_execute p i t s) None
  | Recover => (recover clock s).2
  | Reconcile d r t evidence => (reconcile issuance_key clock adapters d r t evidence s).2
  | SetAuthority a => {| db := db s; authority := a; active := active s; ticks := ticks s; performed := performed s |}
  end.
Definition run_ops (ops : list op) (s : sys) : sys := fold_left (fun s o => run_op o s) ops s.

Definition fresh_sys : sys := {| db := empty_db; authority := None; active := None; ticks := 0; performed := [] |}.

Lemma crash_traced p i t s : traced s -> traced (with_active (crash_execute p i t s) None).
Proof.
  intros Ht. cut (traced (crash_execute p i t s)); [done|]. unfold crash_execute.
  destruct (prepare i t s) as [[[a [e|r]]|x] s1] eqn:Ep.
  - apply prepare_fresh in Ep as (Ht1 & He & Hs & Hfresh); [|done]. destruct p; [done|].
    destruct (call_adapter a i (tick s1)) as [r s2] eqn:Ec. apply call_adapter_spec in Ec as [[-> _]|(-> & _)]; cbn.
    + apply (traced_called (tick s1) i e); [done|by rewrite Hs|done|done].
    + done.
  - apply prepare_spec in Ep as [Hq _]. by eapply traced_quiet.
  - apply prepare_spec in Ep as [Hq _]. by eapply traced_quiet.
Qed.

Lemma recover_quiet s : quiet s (recover clock s).2.
Proof.
  unfold recover. rewrite run_clock. unfold on_db. cbn [db tick].
  destruct (recover_effects _ _) as [r d] eqn:E. apply recover_effects_spec in E as (Hm & Hr & _). cbn.
  apply quiet_from_tick, quiet_db; [done|by rewrite Hr].
Qed.

Lemma reconcile_quiet d r t ev s res s' :
  reconcile issuance_key clock adapters d r t ev s = (res, s') -> quiet s s'.
Proof.
  unfold reconcile. rewrite run_guard. destruct (String.eqb _ _); [|intros [= <- <-]; apply quiet_refl].
  rewrite run_get. destruct (find_intent (db s) d) as [e|]; [|cbn; intros [= <- <-]; apply quiet_refl].
  rewrite run_lift. match goal with |- context [match ?m with Ok a => _ | Raise e => _ end] => destruct m as [stored|x] end;
    [|intros [= <- <-]; apply quiet_refl].
  rewrite run_validate. destruct (validate_capability_token _ _ _ _ _ _); [|intros [= <- <-]; apply quiet_tick].
  rewrite run_clock, run_db. cbn [db tick].
  destruct (record_effect_receipt _ _ _ _ _) as [[e1|x] d1] eqn:Ed; apply record_receipt_spec in Ed as (Hm & Hr & _);
    (assert (Hq : quiet s (with_db (tick (tick s)) d1)) by (by apply quiet_from_tick, quiet_from_tick, quiet_db));
    [|intros [= <- <-]; exact Hq].
  destruct ev as [|kv ev]; [rewrite run_ret; unfold liftR; intros [= <- <-]; exact Hq|].
  rewrite run_bind, run_clock, run_db. cbn [db tick with_db].
  destruct (mark_effect_reconciliation_required _ _ _ _ _ _) as [[e2|x] d2] eqn:Em;
    apply mark_effect_spec in Em as [Hm2 Hr2]; cbn; intros [= <- <-];
    (eapply quiet_trans; [exact Hq|]; apply quiet_from_tick, quiet_db; [done|by rewrite Hr2]).
Qed.

Lemma run_op_traced o s : traced s -> traced (run_op o s).
Proof.
  intros Ht. destruct o; cbn [run_op].
  - by apply execute_traced.
  - destruct (enqueue _ _ _ i t s) as [r s'] eqn:E. apply enqueue_spec in E as [Hq _]. by eapply traced_quiet.
  - by apply crash_traced.
  - eapply traced_quiet; [apply recover_quiet|done].
  - destruct (reconcile _ _ _ d r t evidence s) as [res s'] eqn:E. apply reconcile_quiet in E. by eapply traced_quiet.
  - done.
Qed.

Lemma run_ops_traced ops s : traced s -> traced (run_ops ops s).
Proof. revert s. induction ops as [|o ops IH]; intros s Hs; [done|]. cbn. apply IH. by apply run_op_traced. Qed.

End deliveries.

(** C1: no effect is ever delivered twice by calls that follow one another: in
    every history of enqueues, executions, crashes before or after the adapter
    ran, recoveries, reconciliations and changes of authority, over any adapters
    and any clock, the adapter calls of the whole history are for pairwise
    different intents.  (Overlapping calls are the subject of [Workers].) *)
Theorem effects_delivered_at_most_once issuance_key clock adapters ops :
  NoDup (map intent_digest (performed (run_ops issuance_key clock adapters ops fresh_sys))).
Proof.
  apply (run_ops_traced issuance_key clock adapters ops fresh_sys). split; cbn; [|constructor].
  intros i Hi. by apply elem_of_nil in Hi.
Qed.

Section outcomes.
Context (issuance_key : string) (clock : nat -> string) (adapters : gmap string adapter).
Notation execute := (execute issuance_key clock adapters).
Notation run_op := (run_op issuance_key clock adapters).

Lemma execute_moves i t s :
  db_moves (db s) (db (execute i t s).2) /\ effect_receipts (db s) ⊆ effect_receipts (db (execute i t s).2).
Proof.
  unfold Outbox.execute. rewrite run_bind. destruct (prepare _ _ _ i t s) as [[[a [e|r]]|x] s1] eqn:Ep;
    apply prepare_spec in Ep as [(Hm & _ & _ & Hr) _]; try done.
  destruct (deliver clock i a s1) as [r s2] eqn:Ed. apply deliver_spec in Ed as [Hq _]. cbn.
  assert (db_moves (db s1) (db s2) /\ effect_receipts (db s1) ⊆ effect_receipts (db s2)) as [Hm2 Hr2]
    by (destruct Hq as [(H1 & _ & _ & H2)|[(H1 & _ & _ & H2) _]]; done).
  split; [by eapply db_moves_trans|by etrans].
Qed.

Lemma crash_moves p i t s :
  db_moves (db s) (db (crash_execute issuance_key clock adapters p i t s))
  /\ effect_receipts (db s) ⊆ effect_receipts (db (crash_execute issuance_key clock adapters p i t s)).
Proof.
  unfold crash_execute. destruct (prepare _ _ _ i t s) as [[[a [e|r]]|x] s1] eqn:Ep;
    apply prepare_spec in Ep as [(Hm & _ & _ & Hr) _]; try done.
  destruct p; [done|]. destruct (call_adapter a i (tick s1)) as [r s2] eqn:Ec.
  apply call_adapter_spec in Ec as [[-> _]|(-> & _)]; done.
Qed.

(** C38: the outbox refines the lifecycle of an effect: every operation, a crash
    included, keeps each entry with its key and its recorded intent, moves its
    state forward only (never back to pending, into executing only from
    pending, never out of receipt_recorded), and keeps every receipt. *)
Theorem outbox_refines_lifecycle o s :
  db_moves (db s) (db (run_op o s)) /\ effect_receipts (db s) ⊆ effect_receipts (db (run_op o s)).
Proof.
  destruct o; cbn [Outbox.run_op].
  - apply execute_moves.
  - destruct (enqueue _ _ _ i t s) as [r s'] eqn:E. apply enqueue_spec in E as [(Hm & _ & _ & Hr) _]. done.
  - apply crash_moves.
  - destruct (recover_quiet clock s) as (Hm & _ & _ & Hr). done.
  - destruct (reconcile _ _ _ d r t evidence s) as [res s'] eqn:E. apply reconcile_quiet in E as (Hm & _ & _ & Hr). done.
  - split; [apply db_moves_refl|done].
Qed.

(** An ambiguous outcome is never retried: when the entry of an intent says
    that a delivery began without a receipt, or that it needs reconciliation,
    [execute] raises and no adapter runs, whatever token is presented and
    however the earlier delivery ended. *)
Theorem ambiguous_effects_not_retried i t s e :
  find_intent (db s) (intent_digest i) = Some e -> o_state e = executing \/ o_state e = reconciliation_required ->
  exists x s', execute i t s = (Raise x, s') /\ performed s' = performed s.
Proof.
  intros He Hs. unfold Outbox.execute, Outbox.prepare. rewrite run_bind, run_validate.
  destruct (validate_capability_token _ _ _ _ _ _); [|by eexists _, _].
  destruct (adapters !! target_adapter i) as [ad|]; [|by eexists _, _]. rewrite run_get, run_bind. cbn [db tick].
  rewrite He, run_guard. destruct (String.eqb _ _); [|by eexists _, _]. cbn [ret].
  destruct Hs as [-> | ->]; [|by eexists _, _].
  rewrite run_bind. destruct (mark_ambiguous _ _ _ _ _ _) as [r s1] eqn:Ea.
  apply mark_ambiguous_spec in Ea as [(_ & Hp & _) [x ->]]. by exists x, s1.
Qed.

(** A result is backed by a receipt: when [execute] returns, the entry of the
    intent is in its final state and names the receipt the result names; and
    if this call delivered the effect, the adapter was called once, for this
    intent, and the receipt is stored under the digest of its contents. *)
Theorem execute_result_is_receipted i t s res s' :
  execute i t s = (Ok res, s') ->
  res_intent res = intent_digest i
  /\ (exists e, find_intent (db s') (intent_digest i) = Some e /\ o_state e = receipt_recorded
        /\ o_receipt e = Some (res_receipt res))
  /\ (performed s' = performed s
      \/ (performed s' = performed s ++ [i]
          /\ exists doc, receipt_linked (db s') (intent_digest i) (res_receipt res) doc
                         /\ res_receipt res = canonical_digest (JObj doc))).
Proof.
  unfold Outbox.execute. rewrite run_bind. destruct (prepare _ _ _ i t s) as [[[a [e|r]]|x] s1] eqn:Ep;
    apply prepare_spec in Ep as ((_ & Hp & _) & _ & Hinr); [| |discriminate].
  - intros Hd. apply deliver_spec in Hd as [Hq Hdel]. destruct (Hdel res eq_refl) as (H1 & H2 & H3).
    split; [done|]. split; [done|]. destruct Hq as [(_ & -> & _)|[(_ & -> & _) _]]; cbn; rewrite Hp; auto.
  - cbn. intros [= <- <-]. destruct (Hinr a r eq_refl) as (e & He & Hs & Hres). unfold _result in Hres.
    destruct (o_receipt e) as [d|] eqn:Ho; [|discriminate Hres]. take_guard Hres Hne. injection Hres as <-.
    split; [cbn; by eapply find_intent_name|]. split; [by exists e|]. by left.
Qed.

(** An ambiguous effect can always be settled without running it again: for
    an entry whose stored intent reads back and is still authorised by the
    token, and a receipt of that intent that no other stored receipt equals,
    [reconcile] adopts the receipt, returns it as the result and performs
    nothing. *)
Theorem reconcile_settles d receipt t s e stored :
  db_read_only (db s) = false -> find_intent (db s) d = Some e ->
  stored_intent e = Ok stored ->
  validate_capability_token issuance_key stored t (authority s) (clock (ticks s)) (adapter_hosts adapters (target_adapter stored)) = Ok tt ->
  r_intent_digest receipt = d -> find_receipt (db s) d = None ->
  Forall (fun r => rr_digest r <> canonical_digest (JObj (receipt_to_document receipt))) (effect_receipts (db s)) ->
  exists res s', reconcile issuance_key clock adapters d receipt t [] s = (Ok res, s')
    /\ res_receipt res = canonical_digest (JObj (receipt_to_document receipt))
    /\ (exists e', find_intent (db s') d = Some e' /\ o_state e' = receipt_recorded)
    /\ performed s' = performed s.
Proof.
  intros Hro He Hst Hv Hr Hnr Hd. unfold reconcile. rewrite run_guard, Hr, String.eqb_refl, run_get, He, run_lift.
  rewrite Hst, run_validate, Hv, run_clock, run_db. cbn [db tick].
  set (doc := receipt_to_document receipt). set (rd := canonical_digest (JObj doc)).
  destruct (record_receipt_fresh d rd doc (clock (S (ticks s))) (db s) e Hro He Hnr Hd) as (e' & d1 & Er).
  cbn [ticks tick]. rewrite Er. pose proof (record_receipt_spec _ _ _ _ _ _ _ Er) as (_ & _ & Hf).
  destruct (Hf e' eq_refl) as (Hi & Hs & Ho & Hfi & _). rewrite run_ret. unfold liftR. rewrite (result_linked e' (JObj doc) Ho).
  eexists _, _. split; [reflexivity|]. split; [done|]. split; [by exists e'|done].
Qed.

(** The status of a result does not tell how the effect went: when the
    adapter returns a receipt that says FAILED, the receipt is stored as it is
    and [execute]'s delivery reports SUCCEEDED. *)
Theorem failed_receipt_reported_as_success i a s e receipt :
  db_read_only (db s) = false -> active s = None -> find_intent (db s) (intent_digest i) = Some e ->
  find_receipt (db s) (intent_digest i) = None ->
  Forall (fun r => rr_digest r <> canonical_digest (JObj (receipt_to_document receipt))) (effect_receipts (db s)) ->
  perform a (Some {| mk_intent := intent_digest i; mk_adapter := target_adapter i |}) i (length (performed s)) = Ok (RawReceipt receipt) ->
  r_intent_digest receipt = intent_digest i -> r_status receipt = "FAILED" ->
  exists res s', deliver clock i a s = (Ok res, s') /\ res_status res = "SUCCEEDED"
    /\ receipt_linked (db s') (intent_digest i) (res_receipt res) (receipt_to_document receipt).
Proof.
  intros Hro Hact He Hnr Hd Hperf Hri Hst. unfold deliver. rewrite run_clock.
  assert (Hcall : call_adapter a i (tick s) = (Ok (RawReceipt receipt), called (tick s) i)).
  { unfold call_adapter. rewrite run_get, run_guard. cbn [active tick]. rewrite Hact, run_put. unfold liftR.
    cbn [performed tick]. rewrite Hperf. unfold called. cbn. by rewrite Hact. }
  rewrite Hcall, run_bind. unfold receipt_of. rewrite run_guard, Hri, String.eqb_refl. cbn [ret]. rewrite run_clock.
  unfold on_db. cbn [db tick called].
  set (doc := receipt_to_document receipt). set (rd := canonical_digest (JObj doc)) in *.
  match goal with |- context [record_effect_receipt _ rd doc ?now _] =>
    destruct (record_receipt_fresh (intent_digest i) rd doc now (db s) e Hro He Hnr Hd) as (e' & d1 & Er) end.
  rewrite Er. pose proof (record_receipt_spec _ _ _ _ _ _ _ Er) as (_ & _ & Hf).
  destruct (Hf e' eq_refl) as (Hi & Hs & Ho & Hfi & Hl). rewrite (result_linked e' (JObj doc) Ho).
  eexists _, _. split; [reflexivity|]. split; [done|exact Hl].
Qed.

End outcomes.

(** The in-memory gateway keeps receipts by idempotency key alone: a second
    intent that reuses the key is answered with the first intent's result and
    never performed, where the durable outbox refuses the key. *)
Theorem gateway_answers_for_other_intent issuance_key clock adapters receipts i t s previous :
  validate_capability_token issuance_key i t (authority s) (clock (ticks s)) (adapter_hosts adapters (target_adapter i)) = Ok tt ->
  lookup_key (i_idempotency_key i) receipts = Some previous -> res_intent previous <> intent_digest i ->
  gateway_execute issuance_key clock adapters receipts i t s = (Ok (previous, receipts), tick s)
  /\ (forall row doc recorded d, find_key d (i_idempotency_key i) = Some row -> o_intent row = res_intent previous ->
       db_read_only d = false ->
       enqueue_effect (i_idempotency_key i) (intent_digest i) doc recorded d
       = (raise KernelIntegrityError "idempotency key is already bound to another effect", d)).
Proof.
  intros Hv Hl Hne. split.
  - unfold gateway_execute. rewrite run_validate, Hv, Hl. reflexivity.
  - intros row doc recorded d Hk Hi Hro. unfold enqueue_effect. rewrite run_db_writable, Hro. unfold atomic.
    rewrite run_get, Hk, run_guard, Hi. apply String.eqb_neq in Hne. by rewrite Hne.
Qed.

(** ** A sample system *)

Module Sample.
Import Authority.Sample.

Definition key_1 : string := ("sha256:" +:+ String.concat "" (replicate 64 "1"))%stdpp.
Definition draft_intent (key : string) (work : string) : EffectIntent :=
  {| i_mission_id := "MISSION-1"; i_work_id := work; i_attempt_id := "ATTEMPT-1"; i_actor_id := "builder-1";
     i_role := "builder"; i_action := "write"; i_risk_tier := "R1"; target_adapter := "fs"; i_target := "src/core.py";
     parameters_digest := key_1; i_idempotency_key := key;
     authority_envelope_digest := digest_value child; expected_preconditions := []; rollback_description := "git restore";
     policy_decision_ref := "policy:1"; intent_digest := "" |}.
Definition intent : EffectIntent := Eval vm_compute in let i := draft_intent key_1 "WORK-1" in with_intent_digest i (intent_seal i).
Definition other_intent : EffectIntent := Eval vm_compute in let i := draft_intent key_1 "WORK-2" in with_intent_digest i (intent_seal i).

Definition failed : EffectReceipt :=
  {| r_intent_digest := intent_digest intent; started_at := now; ended_at := now; adapter_identity := "fs";
     adapter_version := "1"; observed_precondition_digest := key_1; r_status := "FAILED"; stdout_digest := None;
     stderr_digest := None; produced_identifiers := []; postcondition_digest := key_1; retry_of := None; rollback_receipt := None |}.
Definition fs : adapter := {| version := None; network_hosts := []; perform := fun _ _ _ => Ok RawOther |}.
Definition failing : adapter := {| version := None; network_hosts := []; perform := fun _ _ _ => Ok (RawReceipt failed) |}.
Definition adapters : gmap string adapter := {[ "fs" := fs ]}.
Definition clock (n : nat) : string := now.
Definition registry : registry := Eval vm_compute in Authority.run_ops ops empty_registry.
Definition start : sys := {| db := empty_db; authority := Some registry; active := None; ticks := 0; performed := [] |}.
Definition crashed : sys := Eval vm_compute in run_ops "secret" clock adapters [Crash after_adapter intent token] start.
Definition delivered_run : result EffectResult * sys := Eval vm_compute in
  execute "secret" clock adapters intent token start.
Definition delivered_result : EffectResult :=
  match delivered_run.1 with Ok r => r | Raise _ => {| res_intent := ""; res_receipt := ""; res_status := "" |} end.
Definition delivered_sys : sys := delivered_run.2.
Definition crashed_entry : entry := Eval vm_compute in
  {| o_key := key_1; o_intent := intent_digest intent; intent_json := canonical_bytes (JObj (intent_to_document intent));
     o_state := executing; attempt_count := 1; last_error := None; reconciliation_reason := None; o_receipt := None;
     created_at := now; updated_at := now |}.
End Sample.

Lemma ambiguous_effects_not_retried_witness :
  exists x s', execute "secret" Sample.clock Sample.adapters Sample.intent Authority.Sample.token Sample.crashed = (Raise x, s')
    /\ performed s' = performed Sample.crashed.
Proof.
  apply (ambiguous_effects_not_retried "secret" Sample.clock Sample.adapters Sample.intent Authority.Sample.token
           Sample.crashed Sample.crashed_entry).
  - vm_compute. reflexivity.
  - left. reflexivity.
Defined.

Lemma execute_result_is_receipted_witness :
  exists res s', execute "secret" Sample.clock Sample.adapters Sample.intent Authority.Sample.token Sample.start = (Ok res, s')
    /\ res_intent res = intent_digest Sample.intent.
Proof.
  assert (E : execute "secret" Sample.clock Sample.adapters Sample.intent Authority.Sample.token Sample.start
              = (Ok Sample.delivered_result, Sample.delivered_sys)) by (vm_compute; reflexivity).
  exists Sample.delivered_result, Sample.delivered_sys. split; [exact E|].
  destruct (execute_result_is_receipted "secret" Sample.clock Sample.adapters Sample.intent Authority.Sample.token
              Sample.start Sample.delivered_result Sample.delivered_sys E) as [H _]. exact H.
Defined.

Lemma reconcile_settles_witness :
  exists res s', reconcile "secret" Sample.clock Sample.adapters (intent_digest Sample.intent) Sample.failed
                   Authority.Sample.token [] Sample.crashed = (Ok res, s')
    /\ performed s' = performed Sample.crashed.
Proof.
  destruct (reconcile_settles "secret" Sample.clock Sample.adapters (intent_digest Sample.intent) Sample.failed
    Authority.Sample.token Sample.crashed Sample.crashed_entry Sample.intent) as (res & s' & H & _ & _ & Hp).
  - vm_compute. reflexivity.
  - vm_compute. reflexivity.
  - vm_compute. reflexivity.
  - vm_compute. reflexivity.
  - reflexivity.
  - vm_compute. reflexivity.
  - assert (effect_receipts (db Sample.crashed) = []) as -> by (vm_compute; reflexivity). constructor.
  - exists res, s'. split; [exact H|exact Hp].
Defined.

Lemma failed_receipt_reported_as_success_witness :
  exists res s', deliver Sample.clock Sample.intent Sample.failing Sample.crashed = (Ok res, s') /\ res_status res = "SUCCEEDED".
Proof.
  destruct (failed_receipt_reported_as_success Sample.clock Sample.intent Sample.failing Sample.crashed Sample.crashed_entry Sample.failed)
    as (res & s' & H & Hs & _).
  - vm_compute. reflexivity.
  - vm_compute. reflexivity.
  - vm_compute. reflexivity.
  - vm_compute. reflexivity.
  - assert (effect_receipts (db Sample.crashed) = []) as -> by (vm_compute; reflexivity). constructor.
  - reflexivity.
  - reflexivity.
  - reflexivity.
  - exists res, s'. split; [exact H|exact Hs].
Defined.

Lemma gateway_answers_for_other_intent_witness :
  let previous := {| res_intent := intent_digest Sample.intent; res_receipt := ""; res_status := "SUCCEEDED" |} in
  gateway_execute "secret" Sample.clock Sample.adapters [(Sample.key_1, previous)] Sample.other_intent Authority.Sample.token Sample.start
  = (Ok (previous, [(Sample.key_1, previous)]), tick Sample.start).
Proof.
  intros previous.
  apply (gateway_answers_for_other_intent "secret" Sample.clock Sample.adapters [(Sample.key_1, previous)] Sample.other_intent
           Authority.Sample.token Sample.start previous).
  - vm_compute. reflexivity.
  - reflexivity.
  - vm_compute. discriminate.
Defined.

End Outbox.
