(* ===== verification/Workers.v ===== *)
(** * Workers sharing one effect store

    [KernelStore] serialises its transactions with a lock and lets several
    threads use one connection, but [DurableEffectOutbox.execute] is a sequence
    of such transactions with the adapter call between them.  This file gives
    every entry point of the outbox as a program of atomic steps, shows that a
    worker running alone computes exactly what the sequential definition does,
    and studies what happens when workers are interleaved or stop half way, and
    when several of them execute one intent. *)

From S2P Require Import Prelude Programs Sha256 Canonical PyLib Schema Contracts Authority Outbox.

Module Workers.
Export Outbox Programs.

(** The programs of [Programs] over the state of the outbox. *)
#[local] Notation prog := (prog sys).

(** ** The entry points of the outbox as programs *)

Section programs.
Context (issuance_key : string) (clock : nat -> string) (adapters : gmap string adapter).

Definition clockP : prog string := doP (read_clock clock).

(** [DurableEffectOutbox._validate] reads the clock, then the live registry. *)
Definition validateP (i : EffectIntent) (t : CapabilityToken) : prog unit :=
  let% now := clockP in
  doP (let* s := getM in
       liftR (validate_capability_token issuance_key i t (authority s) now (adapter_hosts adapters (target_adapter i)))).

Definition enqueueP (i : EffectIntent) (t : CapabilityToken) : prog entry :=
  validateP i t ;%
  guardP (match adapters !! target_adapter i with Some _ => true | None => false end)
    AuthorityDenied "adapter is not registered" ;%
  let% now := clockP in
  doP (on_db (enqueue_effect (i_idempotency_key i) (intent_digest i) (intent_to_document i) now)).

(** [store.effect_entry] *)
Definition effect_entry (intent : string) : prog (option entry) :=
  doP (fun s => (Ok (find_intent (db s) intent), s)).

Definition mark_ambiguousP (i : EffectIntent) (reason : string) (evidence : contract) (m : string) : prog EffectResult :=
  let% now := clockP in
  doP (on_db (mark_effect_reconciliation_required (intent_digest i) reason now evidence "reconciliation_required")) ;%
  liftP (raise EffectReconciliationRequired (needs i m)).

Definition receiptP (i : EffectIntent) (a : adapter) (started : string) (raw : raw_result) : prog EffectReceipt :=
  match raw with
  | RawReceipt r =>
      guardP (String.eqb (r_intent_digest r) (intent_digest i)) KernelIntegrityError "adapter receipt is bound to another intent" ;%
      liftP (Ok r)
  | _ =>
      let% ended := clockP in
      liftP (build_effect_receipt i (target_adapter i) (default "1" (version a)) started ended
               (produced_of raw) (postcondition_of raw))
  end.

(** The delivery behind [begin_effect]. *)
Definition deliverP (i : EffectIntent) (a : adapter) : prog EffectResult :=
  let% started := clockP in
  afterP (doP (call_adapter a i)) (fun called =>
    match called with
    | Raise e =>
        mark_ambiguousP i "adapter failed after durable execution began" [("error_type", JStr (exc_name (exc_cls e)))]
          " has an ambiguous adapter outcome"
    | Ok raw =>
        let% receipt := receiptP i a started raw in
        let document := receipt_to_document receipt in
        let% now := clockP in
        afterP (doP (on_db (record_effect_receipt (intent_digest i) (canonical_digest (JObj document)) document now)))
          (fun recorded =>
             match recorded with
             | Ok e => liftP (_result e)
             | Raise e =>
                 mark_ambiguousP i "physical effect completed but receipt append failed"
                   [("error_type", JStr (exc_name (exc_cls e)))] " needs receipt reconciliation"
             end)
    end).

(** [begin_effect] and what follows it. *)
Definition claimP (i : EffectIntent) (a : adapter) : prog EffectResult :=
  let% now := clockP in
  let% e := doP (on_db (begin_effect (intent_digest i) now)) in
  match o_state e with
  | executing => deliverP i a
  | receipt_recorded => liftP (_result e)
  | st => liftP (raise EffectReconciliationRequired (needs i (" is not deliverable: " +:+ effect_state_value st)%stdpp))
  end.

(** [DurableEffectOutbox.execute] *)
Definition executeP (i : EffectIntent) (t : CapabilityToken) : prog EffectResult :=
  validateP i t ;%
  match adapters !! target_adapter i with
  | None => liftP (raise AuthorityDenied "adapter is not registered")
  | Some a =>
      let% found := effect_entry (intent_digest i) in
      let% e := match found with
                | None => enqueueP i t
                | Some e =>
                    guardP (String.eqb (intent_json e) (canonical_bytes (JObj (intent_to_document i))))
                      KernelIntegrityError "durable intent does not match requested intent" ;%
                    liftP (Ok e)
                end in
      match o_state e with
      | receipt_recorded => liftP (_result e)
      | reconciliation_required => liftP (raise EffectReconciliationRequired (needs i " requires reconciliation"))
      | executing => mark_ambiguousP i "previous delivery was interrupted before receipt" [] " was interrupted before receipt"
      | pending => claimP i a
      end
  end.

(** [DurableEffectOutbox.reconcile] *)
Definition reconcileP (intent : string) (receipt : EffectReceipt) (t : CapabilityToken) (evidence : contract)
    : prog EffectResult :=
  guardP (String.eqb (r_intent_digest receipt) intent) KernelIntegrityError "reconciliation receipt is bound to another intent" ;%
  let% found := effect_entry intent in
  match found with
  | None => liftP (raise KernelIntegrityError "cannot reconcile an unknown effect intent")
  | Some e =>
      let% stored := liftP (stored_intent e) in
      validateP stored t ;%
      let document := receipt_to_document receipt in
      let% now := clockP in
      let% e := doP (on_db (record_effect_receipt intent (canonical_digest (JObj document)) document now)) in
      (match evidence with
       | [] => liftP (Ok tt)
       | _ :: _ =>
           let% now := clockP in
           doP (on_db (mark_effect_reconciliation_required intent
                    "receipt adopted from explicit authorized reconciliation witness" now evidence "reconciled")) ;%
           liftP (Ok tt)
       end) ;%
      liftP (_result e)
  end.

Definition recoverP : prog (list string) :=
  let% now := clockP in doP (on_db (recover_effects now)).

(** What a worker may be asked to do, and what it returns. *)
Inductive task :=
| TExecute (i : EffectIntent) (t : CapabilityToken)
| TEnqueue (i : EffectIntent) (t : CapabilityToken)
| TReconcile (d : string) (r : EffectReceipt) (t : CapabilityToken) (evidence : contract)
| TRecover.
Inductive outcome := Result (r : EffectResult) | Entry (e : entry) | Digests (l : list string).

Definition program (k : task) : prog outcome :=
  match k with
  | TExecute i t => let% r := executeP i t in liftP (Ok (Result r))
  | TEnqueue i t => let% e := enqueueP i t in liftP (Ok (Entry e))
  | TReconcile d r t evidence => let% r := reconcileP d r t evidence in liftP (Ok (Result r))
  | TRecover => let% l := recoverP in liftP (Ok (Digests l))
  end.

(** The same task as one call of the sequential definitions. *)
Definition call (k : task) : M sys outcome :=
  match k with
  | TExecute i t => let* r := execute issuance_key clock adapters i t in ret (Result r)
  | TEnqueue i t => let* e := enqueue issuance_key clock adapters i t in ret (Entry e)
  | TReconcile d r t evidence => let* r := reconcile issuance_key clock adapters d r t evidence in ret (Result r)
  | TRecover => let* l := recover clock in ret (Digests l)
  end.

End programs.

(** ** A worker alone *)

Section equivalence.
Context (issuance_key : string) (clock : nat -> string) (adapters : gmap string adapter).

Notation validateP := (validateP issuance_key clock adapters).
Notation enqueueP := (enqueueP issuance_key clock adapters).

Lemma run_clockP {A} (f : string -> prog A) s : run (bindP (clockP clock) f) s = run (f (clock (ticks s))) (tick s).
Proof. by unfold clockP; rewrite run_bindP, run_do. Qed.
Lemma run_validateP i t s : run (validateP i t) s = _validate issuance_key clock adapters i t s.
Proof. unfold Workers.validateP. rewrite run_clockP, run_do. reflexivity. Qed.
Lemma run_enqueueP i t s : run (enqueueP i t) s = enqueue issuance_key clock adapters i t s.
Proof.
  unfold Workers.enqueueP, enqueue. rewrite run_bindP, run_validateP, run_bind.
  destruct (_validate _ _ _ i t s) as [[[]|e] s1]; [|done]. rewrite run_bindP, run_guard.
  destruct (adapters !! target_adapter i); [|done]. cbn [guardP require liftP run liftR]. rewrite run_clockP, run_clock. apply run_do.
Qed.
Lemma run_markP i reason ev m s : run (mark_ambiguousP clock i reason ev m) s = mark_ambiguous clock i reason ev m s.
Proof.
  unfold mark_ambiguousP, mark_ambiguous. rewrite run_clockP, run_clock, run_bindP, run_do, run_bind.
  by destruct (on_db _ _) as [[e|x] s1].
Qed.
Lemma run_receiptP i a started raw s : run (receiptP clock i a started raw) s = receipt_of clock i a started raw s.
Proof.
  unfold receiptP, receipt_of. destruct raw as [r|m|].
  - rewrite run_bindP, run_guard. by destruct (String.eqb _ _).
  - by rewrite run_clockP, run_clock.
  - by rewrite run_clockP, run_clock.
Qed.
Lemma run_deliverP i a s : run (deliverP clock i a) s = deliver clock i a s.
Proof.
  unfold deliverP, deliver. rewrite run_clockP, run_clock, run_after, run_do.
  destruct (call_adapter _ _ _) as [[raw|e] s1]; [|apply run_markP].
  rewrite run_bindP, run_receiptP, run_bind. destruct (receipt_of _ _ _ _ _ _) as [[r|e] s2]; [|done].
  rewrite run_clockP, run_clock, run_after, run_do. destruct (on_db _ _) as [[e|x] s3]; [done|apply run_markP].
Qed.

(** [execute] in the order of its steps. *)
Lemma run_executeP i t s : run (executeP issuance_key clock adapters i t) s = execute issuance_key clock adapters i t s.
Proof.
  unfold executeP, execute, prepare. rewrite run_bindP, run_validateP, !run_bind.
  destruct (_validate _ _ _ i t s) as [[[]|e] s1]; [|done].
  destruct (adapters !! target_adapter i) as [a|]; [|done].
  unfold effect_entry. rewrite run_bindP, run_do, run_get, run_bindP, run_bind.
  set (p := match find_intent (db s1) (intent_digest i) with Some _ => _ | None => _ end).
  set (m := match find_intent (db s1) (intent_digest i) with Some _ => _ | None => _ end).
  assert (E : run p s1 = m s1).
  { subst p m. destruct (find_intent _ _) as [e|]; [|apply run_enqueueP]. rewrite run_bindP, run_guard. by destruct (String.eqb _ _). }
  rewrite E. clear E. destruct (m s1) as [[e|x] s2]; [|done]. destruct (o_state e).
  - unfold claimP. rewrite run_clockP, run_clock, run_bindP, run_do, run_bind.
    destruct (on_db _ _) as [[e1|x] s3]; [|done].
    destruct (o_state e1); [done|apply run_deliverP| |done]. rewrite run_lift. by destruct (_result e1).
  - rewrite run_markP, run_bind. by destruct (mark_ambiguous _ _ _ _ _ _) as [[r|x] s3].
  - rewrite run_lift. by destruct (_result e).
  - done.
Qed.

Lemma run_reconcileP d r t ev s :
  run (reconcileP issuance_key clock adapters d r t ev) s = reconcile issuance_key clock adapters d r t ev s.
Proof.
  unfold reconcileP, reconcile. rewrite run_bindP, run_guard. destruct (String.eqb _ _); [|done].
  cbn [guardP require liftP run liftR]. unfold effect_entry. rewrite run_bindP, run_do, run_get.
  destruct (find_intent (db s) d) as [e|]; [|done].
  rewrite run_bindP, run_lift. cbn [liftP run liftR]. destruct (stored_intent e) as [i|x]; [|done].
  rewrite run_bindP, run_validateP, run_bind. destruct (_validate _ _ _ i t s) as [[[]|x] s1]; [|done].
  rewrite run_clockP, run_clock, run_bindP, run_do, run_bind. destruct (on_db _ _) as [[e1|x] s2]; [|done].
  rewrite run_bindP, run_bind. destruct ev as [|kv ev]; [done|].
  rewrite run_clockP, run_clock, run_bindP, run_do, run_bind. by destruct (on_db _ _) as [[e2|x] s3].
Qed.

(** A worker that is not interrupted or interleaved computes what the
    sequential operation computes, with the same result, exception and final
    state, for every task of the outbox. *)
Theorem worker_alone_is_sequential k s :
  run (program issuance_key clock adapters k) s = call issuance_key clock adapters k s.
Proof.
  unfold program, call. destruct k as [i t|i t|d r t ev|]; rewrite run_bindP, run_bind.
  - rewrite run_executeP. by destruct (execute _ _ _ i t s) as [[x|x] s1].
  - rewrite run_enqueueP. by destruct (enqueue _ _ _ i t s) as [[x|x] s1].
  - rewrite run_reconcileP. by destruct (reconcile _ _ _ d r t ev s) as [[x|x] s1].
  - unfold recoverP, recover. rewrite run_clockP, run_do, run_clock. by destruct (on_db _ _) as [[x|x] s1].
Qed.

End equivalence.

(** ** What a transaction may write

    [writes o]: the outbox table is only changed by moving entries forward and
    by adding new pending entries, and only the entry of [o] may start
    executing. *)

Definition may_start (o : option string) (i : string) (before after : effect_state) : Prop :=
  state_moves before after /\ (after = executing -> before = executing \/ o = Some i).

Inductive writes (o : option string) (d : effect_db) : effect_db -> Prop :=
| w_same d' : effect_outbox d' = effect_outbox d -> writes o d d'
| w_update i f d' :
    effect_outbox d' = effect_outbox (update_intent i f d) -> (forall e, o_intent (f e) = o_intent e) ->
    (forall e, find_intent d i = Some e ->
       o_key (f e) = o_key e /\ intent_json (f e) = intent_json e /\ may_start o i (o_state e) (o_state (f e))) ->
    writes o d d'
| w_insert row d' :
    find_intent d (o_intent row) = None -> o_state row = pending ->
    effect_outbox d' = effect_outbox d ++ [row] -> writes o d d'
| w_trans d1 d2 : writes o d d1 -> writes o d1 d2 -> writes o d d2.

Definition unique_intents (d : effect_db) : Prop := NoDup (map o_intent (effect_outbox d)).

Lemma find_same d d' j : effect_outbox d' = effect_outbox d -> find_intent d' j = find_intent d j.
Proof. unfold find_intent. by intros ->. Qed.

Lemma find_inserted d d' row j :
  find_intent d (o_intent row) = None -> effect_outbox d' = effect_outbox d ++ [row] ->
  find_intent d' j = if String.eqb (o_intent row) j then Some row else find_intent d j.
Proof. intros Hn E. rewrite <- find_append by done. by apply find_same. Qed.

Lemma writes_unique o d d' : writes o d d' -> unique_intents d -> unique_intents d'.
Proof.
  unfold unique_intents. induction 1 as [d d' E|d i f d' E Hf _|d row d' Hn _ E|]; [by rewrite E| | |tauto].
  - rewrite E. cbn. rewrite map_map. erewrite map_ext; [done|]. intros e. cbn. by destruct (String.eqb _ _).
  - intros Hd. rewrite E, map_app. apply NoDup_app. split; [done|]. split; [|apply NoDup_singleton].
    intros j Hj Hr. apply list_elem_of_singleton in Hr as ->. apply list_elem_of_In, in_map_iff in Hj as (e & He & Hin).
    unfold find_intent in Hn. eapply find_none in Hn; [|exact Hin]. cbn in Hn. by rewrite He, String.eqb_refl in Hn.
Qed.

Lemma writes_moves o d d' : writes o d d' -> db_moves d d'.
Proof.
  induction 1 as [d d' E|d i f d' E Hf Hs|d row d' Hn _ E|]; [| | |by eapply db_moves_trans].
  - intros j. rewrite (find_same d d' j E). apply db_moves_refl.
  - eapply db_moves_ext; [exact E|]. apply update_moves; [done|]. intros e He. by destruct (Hs e He) as (H1 & H2 & H3 & _).
  - intros j. rewrite (find_inserted d d' row j) by done.
    destruct (String.eqb_spec (o_intent row) j) as [<-|]; [by rewrite Hn|apply db_moves_refl].
Qed.

(** An entry found executing was executing before, or is the worker's own. *)
Lemma writes_starts o d d' j e' :
  writes o d d' -> find_intent d' j = Some e' -> o_state e' = executing ->
  (exists e, find_intent d j = Some e /\ o_state e = executing) \/ o = Some j.
Proof.
  intros H. revert e'. induction H as [d d' E|d i f d' E Hf Hs|d row d' Hn Hp E|d d1 d2 _ IH1 _ IH2]; intros e'.
  - rewrite (find_same d d' j E). eauto.
  - rewrite (find_same _ d' j E), find_update by done. destruct (String.eqb_spec i j) as [<-|]; [|eauto].
    destruct (find_intent d i) as [e|] eqn:Ei; [|done]. intros [= <-] Hx.
    destruct (Hs e eq_refl) as (_ & _ & _ & Hst). destruct (Hst Hx); eauto.
  - rewrite (find_inserted d d' row j) by done. destruct (String.eqb _ _); [|eauto]. intros [= <-]. by rewrite Hp.
  - intros He Hx. destruct (IH2 e' He Hx) as [(e & He1 & Hx1)|]; eauto.
Qed.

(** With unique intents an entry of the table is the one found. *)
Lemma find_unique d e : unique_intents d -> In e (effect_outbox d) -> find_intent d (o_intent e) = Some e.
Proof.
  unfold unique_intents, find_intent. induction (effect_outbox d) as [|x l IH]; [done|]. cbn. intros Hn [->|Hin].
  - by rewrite String.eqb_refl.
  - apply NoDup_cons in Hn as [Hx Hn]. destruct (String.eqb_spec (o_intent x) (o_intent e)) as [E|]; [|by apply IH].
    destruct Hx. rewrite E. by apply list_elem_of_In, in_map.
Qed.

Lemma enqueue_writes key i doc rec d : writes None d (enqueue_effect key i doc rec d).2.
Proof.
  unfold enqueue_effect. rewrite run_db_writable. destruct (db_read_only d); [by apply w_same|].
  unfold atomic. rewrite run_get. destruct (find_key d key) as [row|].
  - rewrite run_guard. destruct (_ && _); by apply w_same.
  - rewrite run_guard. destruct (find_intent d i) eqn:Ei; [by apply w_same|]. rewrite run_put. cbn.
    by eapply w_insert; [| |reflexivity].
Qed.

Lemma begin_writes i rec d : writes (Some i) d (begin_effect i rec d).2.
Proof.
  unfold begin_effect. rewrite run_db_writable. destruct (db_read_only d); [by apply w_same|].
  unfold atomic. rewrite run_get. destruct (find_intent d i) as [row|] eqn:Ei; [|by apply w_same].
  case_bool_decide as Hp; [|by apply w_same]. rewrite run_put.
  match goal with |- context [select_intent i ?x] => pose proof (select_intent_keeps i x) as Hk;
    destruct (select_intent i x) as [[e|x1] d1] end; cbn in Hk |- *; [|by apply w_same].
  subst d1. apply (w_update _ _ i (fun e => if bool_decide (o_state e = pending) then begin_row rec e else e));
    [reflexivity|intros e0; by case_bool_decide|]. intros e0 He0.
  rewrite Ei in He0. injection He0 as <-. rewrite bool_decide_eq_true_2 by done. repeat split; [|by right].
  right. by rewrite Hp.
Qed.

Lemma mark_writes i reason rec ev st d : writes None d (mark_effect_reconciliation_required i reason rec ev st d).2.
Proof.
  unfold mark_effect_reconciliation_required. rewrite run_db_writable. destruct (db_read_only d); [by apply w_same|].
  rewrite run_guard. destruct (mem _ _); [|by apply w_same]. unfold atomic. rewrite run_get.
  destruct (find_intent d i) as [row|] eqn:Ei; [|by apply w_same].
  set (note := {| rec_intent := i |}). clearbody note. unfold note_reconciliation.
  case_bool_decide as Hs; [rewrite run_ret|rewrite run_put]; rewrite run_bind, run_get; unfold putM;
    match goal with |- context [select_intent i ?x] => pose proof (select_intent_keeps i x) as Hk;
      destruct (select_intent i x) as [[e|x1] d1] end; cbn in Hk |- *; try (by apply w_same); subst d1; [by apply w_same|].
  eapply (w_update None d i (ambiguous_row reason rec)); [reflexivity|done|]. intros e0 He0.
  rewrite Ei in He0. injection He0 as <-. repeat split; [|discriminate]. right. split; [done|]. split; [done|discriminate].
Qed.

Lemma record_writes i rd doc rec d : writes None d (record_effect_receipt i rd doc rec d).2.
Proof.
  unfold record_effect_receipt. rewrite run_db_writable. destruct (db_read_only d); [by apply w_same|].
  unfold atomic. rewrite run_get. destruct (find_intent d i) as [row|] eqn:Ei; [|by apply w_same].
  assert (Hl : forall d1, effect_outbox d1 = effect_outbox d -> writes None d (update_intent i (link_row rd rec) d1)).
  { intros d1 E. eapply (w_update None d i (link_row rd rec)); [cbn; by rewrite E|done|]. intros e He.
    rewrite Ei in He. injection He as <-. repeat split; [|discriminate].
    destruct (o_state row) eqn:Es; [right..|left|right]; done. }
  destruct (find_receipt d i) as [existing|].
  - rewrite run_guard. destruct (_ && _); [|by apply w_same].
    destruct (link_spec i rd rec d row Ei) as (-> & _ & _). by apply Hl.
  - rewrite run_bind, run_guard. destruct (forallb _ _); [|by apply w_same]. unfold putM at 1.
    match goal with |- context [with_receipts d ?l] => destruct (link_spec i rd rec (with_receipts d l) row Ei) as (-> & _ & _) end.
    by apply Hl.
Qed.

Lemma recover_writes rec d : writes None d (recover_effects rec d).2.
Proof.
  unfold recover_effects. rewrite run_db_writable. destruct (db_read_only d); [by apply w_same|].
  unfold atomic. rewrite run_get, run_put. cbn. generalize (map o_intent (List.filter (fun e => bool_decide (o_state e = executing)) (effect_outbox d))).
  intros rows. revert d. induction rows as [|i rows IH]; intros d; cbn; [by apply w_same|].
  eapply w_trans; [|apply IH]. apply (w_update _ _ i (recovered rec)); [reflexivity|intros e; unfold recovered; by case_bool_decide|].
  intros e _. unfold recovered. case_bool_decide as He; (split; [done|]); (split; [done|]).
  - split; [right; by rewrite He|discriminate].
  - split; [by left|auto].
Qed.

(** ** Reasoning about one worker among others

    A worker on the intent [j] goes through three phases: it knows nothing; it
    saw the entry pending, so the intent was not performed and is not being
    executed; it owns the entry, so the intent was not performed and nobody else
    can start it. *)

Inductive phase := Free | Seen | Owned.

Definition unperformed (j : string) (s : sys) : Prop := forall i, i ∈ performed s -> intent_digest i <> j.

Definition holds (o : option string) (ph : phase) (s : sys) : Prop :=
  match ph, o with
  | Free, _ => True
  | Seen, Some j => unperformed j s /\ exists e, find_intent (db s) j = Some e /\ o_state e <> executing
  | Owned, Some j => unperformed j s /\ exists e, find_intent (db s) j = Some e /\ o_state e <> pending
  | _, None => False
  end.

Definition sound (s : sys) : Prop := traced s /\ unique_intents (db s).

(** What a step of the worker on [o] does to the shared system. *)
Definition guarantee (o : option string) (s s' : sys) : Prop :=
  writes o (db s) (db s')
  /\ (performed s' = performed s \/ exists i, o = Some (intent_digest i) /\ performed s' = performed s ++ [i]).

Lemma holds_stable o o' ph s s' :
  guarantee o s s' -> (forall j, o' = Some j -> o <> Some j) -> holds o' ph s -> holds o' ph s'.
Proof.
  intros [Hw Hp] Hne. destruct ph, o' as [j|]; try done; cbn; intros [Hu (e & He & Hs)]; specialize (Hne j eq_refl);
    (split; [intros i Hi; destruct Hp as [Hp|(i' & Ho & Hp)]; rewrite Hp in Hi;
       [by apply Hu|apply elem_of_app in Hi as [Hi|Hi]; [by apply Hu|apply list_elem_of_singleton in Hi as ->; congruence]]|]);
    assert (Hm := writes_moves _ _ _ Hw j); rewrite He in Hm; unfold entry_moves in Hm;
    (destruct (find_intent (db s') j) as [e'|] eqn:He'; [|done]); exists e'; (split; [done|]); intros Hx.
  - destruct (writes_starts _ _ _ _ _ Hw He' Hx) as [(e0 & He0 & Hx0)|Ho]; [|done]. congruence.
  - destruct Hm as (_ & _ & [E|(_ & Hn & _)]); congruence.
Qed.

Lemma sound_writes o s s' : writes o (db s) (db s') -> performed s' = performed s -> sound s -> sound s'.
Proof.
  intros Hw Hp [[H1 H2] Hu]. split; [|by eapply writes_unique]. split; rewrite Hp; [|done].
  intros i Hi. destruct (H1 i Hi) as (e & He & Hs). assert (Hm := writes_moves _ _ _ Hw (intent_digest i)).
  rewrite He in Hm. unfold entry_moves in Hm. destruct (find_intent (db s') (intent_digest i)) as [e'|]; [|done].
  exists e'. split; [done|]. destruct Hm as (_ & _ & [E|(_ & Hn & _)]); congruence.
Qed.

(** A pending entry was not performed. *)
Lemma pending_seen s j e : traced s -> find_intent (db s) j = Some e -> o_state e = pending -> holds (Some j) Seen s.
Proof.
  intros [H1 _] He Hp. split; [|exists e; by rewrite Hp]. intros i Hi <-. destruct (H1 i Hi) as (e' & He' & Hn). congruence.
Qed.

Section logic.
Context (o : option string).

(** [wp ph p Q]: from phase [ph] on, whatever other workers do between its
    steps, the worker keeps the system sound, gives its guarantee, and ends in
    a phase and with a result that satisfy [Q]. *)
Fixpoint wp {A} (ph : phase) (p : prog A) (Q : phase -> result A -> Prop) : Prop :=
  match p with
  | Done r => Q ph r
  | Act m k => forall s, sound s -> holds o ph s ->
      sound (m s).2 /\ guarantee o s (m s).2 /\ exists ph', holds o ph' (m s).2 /\ wp ph' (k (m s).1) Q
  end.

Lemma wp_after {A B} ph (p : prog A) (f : result A -> prog B) Q :
  wp ph p (fun ph r => wp ph (f r) Q) -> wp ph (afterP p f) Q.
Proof.
  revert ph. induction p as [r|C m k IH]; intros ph; cbn; [done|]. intros H s Hs Hh.
  destruct (H s Hs Hh) as (H1 & H2 & ph' & H3 & H4). split; [done|]. split; [done|]. exists ph'. eauto.
Qed.

Lemma wp_bind {A B} ph (p : prog A) (f : A -> prog B) Q :
  wp ph p (fun ph r => match r with Ok a => wp ph (f a) Q | Raise e => Q ph (Raise e) end) -> wp ph (bindP p f) Q.
Proof.
  intros H. apply wp_after. revert ph H. induction p as [r|C m k IH]; intros ph; cbn; [by destruct r|].
  intros H s Hs Hh. destruct (H s Hs Hh) as (H1 & H2 & ph' & H3 & H4). split; [done|]. split; [done|]. exists ph'. eauto.
Qed.

Lemma wp_mono {A} ph (p : prog A) (Q Q' : phase -> result A -> Prop) :
  (forall ph r, Q ph r -> Q' ph r) -> wp ph p Q -> wp ph p Q'.
Proof.
  intros HQ. revert ph. induction p as [r|C m k IH]; intros ph; cbn; [apply HQ|]. intros H s Hs Hh.
  destruct (H s Hs Hh) as (H1 & H2 & ph' & H3 & H4). split; [done|]. split; [done|]. exists ph'. eauto.
Qed.

(** Steps that perform nothing and start nothing keep the phase. *)
Definition calm {A} (m : M sys A) : Prop :=
  forall s, writes None (db s) (db (m s).2) /\ performed (m s).2 = performed s.
Fixpoint calmP {A} (p : prog A) : Prop :=
  match p with
  | Done _ => True
  | Act m k => calm m /\ forall r, calmP (k r)
  end.

Lemma calm_after {A B} (p : prog A) (f : result A -> prog B) : calmP p -> (forall r, calmP (f r)) -> calmP (afterP p f).
Proof. intros Hp Hf. induction p as [r|C m k IH]; cbn in *; [done|]. destruct Hp as [H1 H2]. split; auto. Qed.
Lemma calm_bind {A B} (p : prog A) (f : A -> prog B) : calmP p -> (forall a, calmP (f a)) -> calmP (bindP p f).
Proof. intros Hp Hf. apply calm_after; [done|]. intros [a|e]; [apply Hf|done]. Qed.
Lemma calm_do {A} (m : M sys A) : calm m -> calmP (doP m).
Proof. by split. Qed.

Lemma writes_none d d' : writes None d d' -> writes o d d'.
Proof.
  induction 1 as [d d' E|d i f d' E Hf Hs|d row d' Hn Hp E|]; [by apply w_same| |by eapply w_insert|by eapply w_trans].
  eapply w_update; [exact E|done|]. intros e He. destruct (Hs e He) as (H1 & H2 & H3 & H4). split; [done|]. split; [done|].
  split; [done|]. intros Hx. destruct (H4 Hx); [by left|done].
Qed.

Lemma wp_calm {A} ph (p : prog A) Q : calmP p -> (forall r, Q ph r) -> wp ph p Q.
Proof.
  intros Hp HQ. induction p as [r|C m k IH]; cbn in *; [done|]. destruct Hp as [Hm Hk]. intros s Hs Hh.
  destruct (Hm s) as [Hw Hpf]. split; [by eapply sound_writes|]. split; [split; [by apply writes_none|by left]|].
  exists ph. split; [|by apply IH]. eapply (holds_stable None); [split; [done|by left]|done|done].
Qed.

Lemma wp_calm_bind {A B} ph (p : prog A) (f : A -> prog B) Q :
  calmP p -> (forall a, wp ph (f a) Q) -> (forall e, Q ph (Raise e)) -> wp ph (bindP p f) Q.
Proof. intros Hp Hf He. apply wp_bind, wp_calm; [done|]. intros [a|e]; auto. Qed.

End logic.

Lemma calm_on_db {A} (m : M effect_db A) : (forall d, writes None d (m d).2) -> calm (on_db m).
Proof. intros H s. unfold on_db. specialize (H (db s)). destruct (m (db s)) as [r d]. by split. Qed.

Section workers.
Context (issuance_key : string) (clock : nat -> string) (adapters : gmap string adapter).

Lemma calm_clock : calmP (clockP clock).
Proof. apply calm_do. intros s. by split; [apply w_same|]. Qed.
Lemma calm_lift {A} (r : result A) : calmP (liftP r).
Proof. done. Qed.
Lemma calm_validate i t : calmP (validateP issuance_key clock adapters i t).
Proof.
  apply calm_bind; [apply calm_clock|]. intros now. apply calm_do. intros s. by split; [apply w_same|].
Qed.
Lemma calm_entry i : calmP (effect_entry i).
Proof. apply calm_do. intros s. by split; [apply w_same|]. Qed.
Lemma calm_enqueue_effect key i doc now : calmP (doP (on_db (enqueue_effect key i doc now))).
Proof. apply calm_do, calm_on_db. intros d. apply enqueue_writes. Qed.
Lemma calm_mark i reason now ev st : calmP (doP (on_db (mark_effect_reconciliation_required i reason now ev st))).
Proof. apply calm_do, calm_on_db. intros d. apply mark_writes. Qed.
Lemma calm_record i rd doc now : calmP (doP (on_db (record_effect_receipt i rd doc now))).
Proof. apply calm_do, calm_on_db. intros d. apply record_writes. Qed.
Lemma calm_recover now : calmP (doP (on_db (recover_effects now))).
Proof. apply calm_do, calm_on_db. intros d. apply recover_writes. Qed.

(** Sequences and branches of calm programs. *)
Ltac calm_tac :=
  repeat first
    [ simple apply calm_clock | simple apply calm_lift | simple apply calm_validate | simple apply calm_entry | simple apply calm_enqueue_effect
    | simple apply calm_mark | simple apply calm_record | simple apply calm_recover
    | simple apply calm_bind; [|intros ?] | simple apply calm_after; [|intros ?]
    | match goal with |- calmP (match ?x with _ => _ end) => destruct x end ].

Lemma calm_mark_ambiguous i reason ev m : calmP (mark_ambiguousP clock i reason ev m).
Proof. unfold mark_ambiguousP. calm_tac. Qed.
Lemma calm_enqueue i t : calmP (enqueueP issuance_key clock adapters i t).
Proof. unfold enqueueP, guardP. calm_tac. Qed.
Lemma calm_receipt i a started raw : calmP (receiptP clock i a started raw).
Proof. unfold receiptP, guardP. calm_tac. Qed.
Lemma calm_reconcile d r t ev : calmP (reconcileP issuance_key clock adapters d r t ev).
Proof. unfold reconcileP, guardP. calm_tac. Qed.
Lemma calm_recoverP : calmP (recoverP clock).
Proof. unfold recoverP. calm_tac. Qed.

(** The adapter call needs the entry, and uses it up. *)
Lemma wp_call a i : wp (Some (intent_digest i)) Owned (doP (call_adapter a i)) (fun ph _ => ph = Free).
Proof.
  intros s [Ht Hu] [Hun (e & He & Hs)]. destruct (call_adapter a i s) as [r s'] eqn:E. apply call_adapter_spec in E as [[-> _]|(-> & _)].
  - split; [split; [by eapply traced_called|done]|]. split; [split; [by apply w_same|right; by exists i]|]. by exists Free.
  - split; [done|]. split; [split; [by apply w_same|by left]|]. by exists Free.
Qed.

Lemma wp_deliver i a : wp (Some (intent_digest i)) Owned (deliverP clock i a) (fun _ _ => True).
Proof.
  unfold deliverP. apply wp_calm_bind; [apply calm_clock| |done]. intros started. apply wp_after.
  assert (H := wp_call a i). revert H. generalize (doP (call_adapter a i)). intros p Hp.
  eapply wp_mono; [|exact Hp]. intros ph r ->. cbn beta. apply wp_calm; [|done].
  destruct r as [raw|e]; [|apply calm_mark_ambiguous]. apply calm_bind; [apply calm_receipt|]. intros receipt.
  apply calm_bind; [apply calm_clock|]. intros now. apply calm_after; [apply calm_record|].
  intros [e|e]; [done|apply calm_mark_ambiguous].
Qed.

(** A worker that saw the entry pending and finds it executing owns it. *)
Lemma wp_begin j now :
  wp (Some j) Seen (doP (on_db (begin_effect j now)))
    (fun ph r => match r with Ok e => o_state e = executing -> ph = Owned | Raise _ => True end).
Proof.
  intros s Hs [Hun (e & He & Hx)]. unfold on_db.
  assert (Hw := begin_writes j now (db s)). destruct (begin_effect j now (db s)) as [r d] eqn:Eb. cbn in Hw |- *.
  split; [by apply (sound_writes (Some j) s)|]. split; [split; [done|by left]|].
  destruct (decide (o_state e = pending)) as [Hp|Hp].
  - apply begin_effect_spec in Eb as (_ & _ & Hf). destruct r as [e1|x]; [|by exists Free].
    destruct (Hf e1 eq_refl) as [Hd Hs1]; [intros e0 He0; congruence|]. exists Owned. split; [|done].
    split; [exact Hun|]. exists e1. cbn. split; [done|]. by rewrite Hs1.
  - exists Free. split; [done|]. revert Eb. unfold begin_effect. rewrite run_db_writable.
    destruct (db_read_only _); [by intros [= <- <-]|]. unfold atomic. rewrite run_get, He.
    rewrite bool_decide_eq_false_2 by done. cbn. by intros [= <- <-].
Qed.

Lemma wp_claim i a : wp (Some (intent_digest i)) Seen (claimP clock i a) (fun _ _ => True).
Proof.
  unfold claimP. apply wp_calm_bind; [apply calm_clock| |done]. intros now. apply wp_bind.
  eapply wp_mono; [|apply wp_begin]. intros ph [e|x] H; [|done].
  destruct (o_state e); [done| |done|done]. rewrite H by done. apply wp_deliver.
Qed.

(** What enqueueing returns is the entry of the intent. *)
Lemma enqueue_effect_found key i doc rec d e :
  unique_intents d -> (enqueue_effect key i doc rec d).1 = Ok e -> find_intent (enqueue_effect key i doc rec d).2 i = Some e.
Proof.
  intros Hu. unfold enqueue_effect. rewrite run_db_writable. destruct (db_read_only d); [done|].
  unfold atomic. rewrite run_get. destruct (find_key d key) as [row|] eqn:Ek.
  - rewrite run_guard. destruct (_ && _) eqn:E; [|done]. cbn. intros [= <-]. bool_hyps. subst i.
    apply List.find_some in Ek as [Hin _]. by apply find_unique.
  - rewrite run_guard. destruct (find_intent d i) eqn:Ei; [done|]. rewrite run_put. cbn [ret fst snd]. intros [= <-].
    rewrite find_append by done. cbn. by rewrite String.eqb_refl.
Qed.

Lemma wp_lookup j :
  wp (Some j) Free (effect_entry j)
    (fun ph r => match r with
                 | Ok (Some e) => o_state e = pending -> ph = Seen
                 | _ => ph = Free
                 end).
Proof.
  intros s Hs _. cbn. split; [done|]. split; [split; [by apply w_same|by left]|].
  destruct (find_intent (db s) j) as [e|] eqn:He; [|by exists Free].
  destruct (decide (o_state e = pending)) as [Hp|Hp].
  - exists Seen. split; [|done]. eapply pending_seen; [apply Hs|done|done].
  - by exists Free.
Qed.

Lemma wp_enqueue i t :
  wp (Some (intent_digest i)) Free (enqueueP issuance_key clock adapters i t)
    (fun ph r => forall e, r = Ok e -> o_state e = pending -> ph = Seen).
Proof.
  unfold enqueueP, guardP. apply wp_calm_bind; [apply calm_validate| |done]. intros _.
  apply wp_calm_bind; [apply calm_lift| |done]. intros _. apply wp_calm_bind; [apply calm_clock| |done]. intros now.
  set (m := enqueue_effect _ _ _ _). intros s Hs _. unfold on_db.
  assert (Hw : writes None (db s) (m (db s)).2) by apply enqueue_writes.
  assert (Hf : forall e, (m (db s)).1 = Ok e -> find_intent (m (db s)).2 (intent_digest i) = Some e)
    by (intros e; apply enqueue_effect_found, Hs).
  clearbody m. destruct (m (db s)) as [r d]. cbn in Hw, Hf |- *.
  assert (Hs' : sound (with_db s d)) by (by apply (sound_writes None s)).
  split; [done|]. split; [split; [by apply writes_none|by left]|].
  destruct r as [e|x]; [|by exists Free]. destruct (decide (o_state e = pending)) as [Hp|Hp].
  - exists Seen. split; [|done]. eapply pending_seen; [apply Hs'|by apply Hf|done].
  - exists Free. split; [done|]. intros e' [= <-] Hp'. done.
Qed.

Lemma wp_execute i t : wp (Some (intent_digest i)) Free (executeP issuance_key clock adapters i t) (fun _ _ => True).
Proof.
  unfold executeP. apply wp_calm_bind; [apply calm_validate| |done]. intros _.
  destruct (adapters !! target_adapter i) as [a|]; [|done].
  apply wp_bind. eapply wp_mono; [|apply wp_lookup]. intros ph [found|x] Hfound; [|done]. apply wp_bind.
  eapply (wp_mono _ _ _ (fun ph r => forall e, r = Ok e -> o_state e = pending -> ph = Seen)).
  { intros ph' [e|x] H; [|done]. destruct (o_state e) eqn:Es; [rewrite (H e) by done; apply wp_claim| |done|done].
    apply wp_calm; [apply calm_mark_ambiguous|done]. }
  destruct found as [e|].
  - apply wp_calm_bind; [apply calm_lift| |done]. intros _ e' [= <-] Hp. by apply Hfound.
  - rewrite Hfound. apply wp_enqueue.
Qed.

(** ** Pools of workers

    Tasks start at any time, the scheduler runs one atomic step of any worker,
    a worker may stop for good at any point (its process died), and the
    authority registry may change under the workers. *)

Record worker := { w_task : task; w_prog : prog outcome }.
Record pool := { shared : sys; workers : list worker; returned : list (task * result outcome) }.

Inductive action := Spawn (k : task) | Run (n : nat) | Stop (n : nat) | Authorize (a : option registry).

Definition fresh_pool : pool := {| shared := fresh_sys; workers := []; returned := [] |}.

Definition step (a : action) (P : pool) : pool :=
  match a with
  | Spawn k => {| shared := shared P; workers := workers P ++ [{| w_task := k; w_prog := program issuance_key clock adapters k |}];
                  returned := returned P |}
  | Run n =>
      match workers P !! n with
      | None => P
      | Some w =>
          match w_prog w with
          | Done r => {| shared := shared P; workers := delete n (workers P); returned := returned P ++ [(w_task w, r)] |}
          | Act m k => {| shared := (m (shared P)).2;
                          workers := <[n := {| w_task := w_task w; w_prog := k (m (shared P)).1 |}]> (workers P);
                          returned := returned P |}
          end
      end
  | Stop n => {| shared := shared P; workers := delete n (workers P); returned := returned P |}
  | Authorize a =>
      let s := shared P in
      {| shared := {| db := db s; authority := a; active := active s; ticks := ticks s; performed := performed s |};
         workers := workers P; returned := returned P |}
  end.
Definition steps (l : list action) (P : pool) : pool := fold_left (fun P a => step a P) l P.

(** The intent a task may perform. *)
Definition owner (k : task) : option string :=
  match k with TExecute i _ => Some (intent_digest i) | _ => None end.
Definition owners (l : list worker) : list string := omap (fun w => owner (w_task w)) l.

(** Callers that wait for, or have stopped, an execution of an intent before
    they start another one of the same intent. *)
Definition admitted (a : action) (P : pool) : bool :=
  match a with
  | Spawn k => match owner k with Some j => negb (mem j (owners (workers P))) | None => true end
  | _ => true
  end.
Fixpoint disciplined (l : list action) (P : pool) : bool :=
  match l with
  | [] => true
  | a :: l => admitted a P && disciplined l (step a P)
  end.

Definition worker_ok (s : sys) (w : worker) : Prop :=
  exists ph, holds (owner (w_task w)) ph s /\ wp (owner (w_task w)) ph (w_prog w) (fun _ _ => True).
Record pool_ok (P : pool) : Prop := {
  ok_sound : sound (shared P);
  ok_workers : Forall (worker_ok (shared P)) (workers P);
  ok_owners : NoDup (owners (workers P)) }.

Lemma program_ok k s : worker_ok s {| w_task := k; w_prog := program issuance_key clock adapters k |}.
Proof.
  exists Free. split; [done|]. destruct k as [i t|i t|d r t ev|]; cbn [w_task w_prog owner program].
  - apply wp_bind. eapply wp_mono; [|apply wp_execute]. by intros ph [r|x] _.
  - apply wp_calm; [|done]. apply calm_bind; [apply calm_enqueue|done].
  - apply wp_calm; [|done]. apply calm_bind; [apply calm_reconcile|done].
  - apply wp_calm; [|done]. apply calm_bind; [apply calm_recoverP|done].
Qed.

Lemma owners_app l1 l2 : owners (l1 ++ l2) = owners l1 ++ owners l2.
Proof. apply omap_app. Qed.

(** Other workers are not disturbed by a step that is guaranteed to [w]. *)
Lemma others_ok o s s' l :
  guarantee o s s' -> (forall j, o = Some j -> j ∉ owners l) -> Forall (worker_ok s) l -> Forall (worker_ok s') l.
Proof.
  intros Hg Ho Hl. rewrite Forall_forall in *. intros w Hw. destruct (Hl w Hw) as (ph & Hh & Hp).
  exists ph. split; [|done]. eapply holds_stable; [exact Hg| |done]. intros j Hj Hoj. apply (Ho j Hoj).
  apply list_elem_of_omap. by exists w.
Qed.

Lemma step_run_ok P n w C m (k : result C -> prog outcome) :
  pool_ok P -> workers P !! n = Some w -> w_prog w = Act m k -> pool_ok (step (Run n) P).
Proof.
  intros [Hs Hw Ho] Hn Hp. cbn [step]. rewrite Hn, Hp.
  assert (E := take_drop_middle _ _ _ Hn). set (l1 := take n (workers P)) in E. set (l2 := drop (S n) (workers P)) in E.
  rewrite insert_take_drop by (by eapply lookup_lt_Some). fold l1 l2. rewrite <- E in Hw, Ho.
  apply Forall_app in Hw as [Hw1 Hw2]. apply Forall_cons in Hw2 as [(ph & Hh & Hwp) Hw2].
  rewrite owners_app in Ho. rewrite Hp in Hwp. destruct (Hwp _ Hs Hh) as (Hs' & Hg & ph' & Hh' & Hwp').
  assert (Hne : forall j, owner (w_task w) = Some j -> j ∉ owners l1 /\ j ∉ owners l2).
  { intros j Hj. unfold owners in Ho. cbn in Ho. rewrite Hj in Ho. apply NoDup_app in Ho as (_ & H1 & H2).
    apply NoDup_cons in H2 as [H2 _]. split; [|done]. intros Hin. apply (H1 j Hin). by left. }
  split; cbn [shared workers]; [done| |].
  - apply Forall_app. split; [eapply others_ok; [exact Hg|by intros j Hj; apply Hne|done]|].
    apply Forall_cons. split; [|eapply others_ok; [exact Hg|by intros j Hj; apply Hne|done]]. by exists ph'.
  - rewrite owners_app. exact Ho.
Qed.

Lemma delete_ok s n l : Forall (worker_ok s) l -> NoDup (owners l) ->
  Forall (worker_ok s) (delete n l) /\ NoDup (owners (delete n l)).
Proof.
  intros Hw Ho. destruct (l !! n) as [w|] eqn:Hn.
  - assert (E := take_drop_middle _ _ _ Hn). rewrite delete_take_drop. rewrite <- E in Hw, Ho.
    apply Forall_app in Hw as [H1 H2]. apply Forall_cons in H2 as [_ H2]. split; [by apply Forall_app|].
    rewrite owners_app in *. apply NoDup_app in Ho as (N1 & N2 & N3). apply NoDup_app. split; [done|].
    unfold owners in *. cbn in N2, N3. destruct (owner (w_task w)); [|done]. apply NoDup_cons in N3 as [_ N3].
    split; [|done]. intros j Hj Hj'. apply (N2 j Hj). by right.
  - rewrite delete_take_drop. apply lookup_ge_None in Hn. rewrite take_ge, drop_ge, app_nil_r by lia. done.
Qed.

Lemma step_ok a P : admitted a P = true -> pool_ok P -> pool_ok (step a P).
Proof.
  intros Ha Hok. assert (Hok' := Hok). destruct Hok' as [Hs Hw Ho]. destruct a as [k|n|n|r]; cbn [step].
  - split; cbn [shared workers]; [done| |].
    + apply Forall_app. split; [done|]. apply Forall_singleton, program_ok.
    + rewrite owners_app. unfold owners at 2. cbn in *. destruct (owner k) as [j|]; [|by rewrite app_nil_r].
      apply NoDup_app. split; [done|]. split; [|apply NoDup_singleton]. intros x Hx Hj.
      apply list_elem_of_singleton in Hj as ->. apply negb_true_iff in Ha. by apply mem_spec in Hx; congruence.
  - destruct (workers P !! n) as [w|] eqn:Hn; [|done]. destruct (w_prog w) as [res|C m k] eqn:Hp.
    + by destruct (delete_ok _ n _ Hw Ho).
    + assert (H := step_run_ok P n w C m k Hok Hn Hp). cbn [step] in H. by rewrite Hn, Hp in H.
  - by destruct (delete_ok _ n _ Hw Ho).
  - split; cbn [shared workers]; [exact Hs| |done]. eapply (others_ok None); [|done|exact Hw].
    split; [by apply w_same|by left].
Qed.

Lemma steps_ok l P : disciplined l P = true -> pool_ok P -> pool_ok (steps l P).
Proof.
  revert P. induction l as [|a l IH]; intros P Hd HP; [done|]. cbn in *. apply andb_true_iff in Hd as [Ha Hd].
  apply IH; [done|]. by apply step_ok.
Qed.

Lemma fresh_pool_ok : pool_ok fresh_pool.
Proof.
  split; [|by constructor|constructor]. split; [|constructor]. split; [|constructor]. intros i Hi. by apply elem_of_nil in Hi.
Qed.

End workers.

(** C2: interleaving does not break at-most-once delivery as long as no two live
    workers execute the same intent: whatever tasks run, whenever the scheduler
    switches between their transactions and adapter calls, wherever workers
    die, and however the authority changes, the adapter calls are for pairwise
    different intents. *)
Theorem interleaved_effects_at_most_once issuance_key clock adapters acts :
  disciplined issuance_key clock adapters acts fresh_pool = true ->
  NoDup (map intent_digest (performed (shared (steps issuance_key clock adapters acts fresh_pool)))).
Proof. intros Hd. by destruct (steps_ok _ _ _ _ _ Hd fresh_pool_ok) as [[[_ H] _] _ _]. Qed.

(** ** Sample schedules *)

Module SampleSchedules.
Import Authority.Sample Outbox.Sample.

Definition key_2 : string := ("sha256:" +:+ String.concat "" (replicate 64 "2"))%stdpp.
Definition second_intent : EffectIntent := Eval vm_compute in
  let i := draft_intent key_2 "WORK-2" in with_intent_digest i (intent_seal i).

(** Two workers on different intents take turns; the second dies after its
    adapter call and its intent is executed again. *)
Definition turns : list action :=
  [Authorize (Some registry); Spawn (TExecute intent token); Spawn (TExecute second_intent token)]
  ++ concat (replicate 11 [Run 0; Run 1]) ++ [Stop 1; Spawn (TExecute second_intent token)]
  ++ replicate 12 (Run 1) ++ replicate 12 (Run 0).

(** Two workers on one intent: both see it pending before either begins. *)
Definition race : list action :=
  [Authorize (Some registry); Spawn (TExecute intent token); Spawn (TExecute intent token)]
  ++ concat (replicate 15 [Run 0; Run 1]) ++ [Run 0].

(** The status a worker returned. *)
Definition status_of (r : task * result outcome) : option string :=
  match r.2 with Ok (Result r) => Some (res_status r) | _ => None end.
End SampleSchedules.

Lemma interleaved_effects_at_most_once_witness :
  performed (shared (steps "secret" Sample.clock Sample.adapters SampleSchedules.turns fresh_pool))
    = [Sample.intent; SampleSchedules.second_intent]
  /\ NoDup (map intent_digest (performed (shared (steps "secret" Sample.clock Sample.adapters SampleSchedules.turns fresh_pool)))).
Proof.
  split; [vm_compute; reflexivity|].
  apply (interleaved_effects_at_most_once "secret" Sample.clock Sample.adapters SampleSchedules.turns). vm_compute. reflexivity.
Defined.


(** ** Racing workers *)

(** How often a worker has run. *)
Definition turns_of (n : nat) (l : list nat) : nat := length (List.filter (Nat.eqb n) l).
(** Workers take turns: each of [ns] runs seven steps, up to and with its adapter
    call, in an order in which each has read the entry, its third step, before
    any of them begins the effect, its fifth. *)
Record taking_turns (ns l : list nat) : Prop := {
  tt_only : forall n, n ∈ l -> n ∈ ns;
  tt_turns : forall n, n ∈ ns -> turns_of n l = 7%nat;
  tt_lookups : forall l' n rest m, l = l' ++ n :: rest -> (turns_of n l' < 3)%nat -> (turns_of m l' <= 4)%nat }.

Lemma turns_snoc n l m : turns_of n (l ++ [m]) = (turns_of n l + if Nat.eqb n m then 1 else 0)%nat.
Proof. unfold turns_of. rewrite List.filter_app, length_app. cbn. by destruct (Nat.eqb n m). Qed.

Lemma filter_grows (p q : nat -> bool) ns n : NoDup ns -> n ∈ ns -> (forall x, x <> n -> q x = p x) -> p n = false ->
  length (List.filter q ns) = (length (List.filter p ns) + if q n then 1 else 0)%nat.
Proof.
  intros Hd Hn Hq Hp. induction ns as [|x ns IH]; [by apply elem_of_nil in Hn|]. apply NoDup_cons in Hd as [Hx Hd]. cbn.
  destruct (decide (x = n)) as [->|E].
  - rewrite Hp. assert (E : List.filter q ns = List.filter p ns).
    { apply filter_ext_in. intros y Hy. apply Hq. intros ->. by apply Hx, list_elem_of_In. }
    rewrite E. destruct (q n); cbn; lia.
  - rewrite Hq by done. apply elem_of_cons in Hn as [->|Hn]; [done|]. specialize (IH Hd Hn). destruct (p x); cbn; lia.
Qed.

Section race.
Context (issuance_key : string) (clock : nat -> string) (adapters : gmap string adapter) (authority_used : option registry).
Context (i : EffectIntent) (t : CapabilityToken) (a : adapter).

Notation program := (program issuance_key clock adapters).
Notation steps := (steps issuance_key clock adapters).
Notation step := (step issuance_key clock adapters).

Context (Ha : adapters !! target_adapter i = Some a).
Context (Hvalid : forall k, validate_capability_token issuance_key i t authority_used (clock k) (adapter_hosts adapters (target_adapter i)) = Ok tt).

(** The entry of the intent waits, or somebody has begun it. *)
Record open_entry (waiting : bool) (s : sys) : Prop := {
  oe_writable : db_read_only (db s) = false;
  oe_active : active s = None;
  oe_authority : authority s = authority_used;
  oe_entry : exists e, find_intent (db s) (intent_digest i) = Some e
    /\ intent_json e = canonical_bytes (JObj (intent_to_document i))
    /\ (o_state e = pending \/ waiting = false /\ o_state e = executing) }.

Lemma open_weaken b s : open_entry true s -> open_entry b s.
Proof. intros [H1 H2 H3 (e & He & Hj & Hs)]. split; try done. exists e. split; [done|]. split; [done|]. destruct Hs as [Hs|[? _]]; [by left|done]. Qed.

Lemma open_tick b s : open_entry b s -> open_entry b (read_clock clock s).2.
Proof. by intros [? ? ? ?]. Qed.

Lemma begin_open now s : open_entry false s ->
  open_entry false (on_db (begin_effect (intent_digest i) now) s).2
  /\ exists e, (on_db (begin_effect (intent_digest i) now) s).1 = Ok e /\ o_state e = executing.
Proof.
  intros [H1 H2 H3 (e & He & Hj & Hs)]. unfold on_db, begin_effect. rewrite run_db_writable, H1. unfold atomic. rewrite run_get, He.
  destruct Hs as [Hs|[_ Hs]]; rewrite Hs.
  - rewrite bool_decide_eq_true_2 by done. rewrite run_put. set (f := fun e : entry => if bool_decide (o_state e = pending) then begin_row now e else e).
    assert (Hf : find_intent (update_intent (intent_digest i) f (db s)) (intent_digest i) = Some (begin_row now e)).
    { rewrite find_update by (intros x; unfold f; by case_bool_decide). rewrite String.eqb_refl, He. cbn. unfold f.
      by rewrite bool_decide_eq_true_2. }
    unfold select_intent. rewrite run_get, Hf. cbn. split; [|by eexists]. split; try done. exists (begin_row now e).
    split; [exact Hf|]. split; [done|]. by right.
  - rewrite bool_decide_eq_false_2 by done. cbn. split; [|by exists e]. split; try done. exists e. split; [done|]. split; [done|]. by right.
Qed.

(** [stage k p]: [k] more steps of [p] and the adapter has been called. *)
Fixpoint stage (k : nat) (p : prog outcome) : Prop :=
  match k, p with
  | O, _ => True
  | S k', Act m cont => forall b s, open_entry b s -> ((5 <= k)%nat -> b = true) -> ((k <= 3)%nat -> b = false) ->
      open_entry b (m s).2 /\ performed (m s).2 = performed s ++ (if (k' =? 0)%nat then [i] else []) /\ stage k' (cont (m s).1)
  | S _, Done _ => False
  end.

Lemma stage_call (f : result raw_result -> prog outcome) : stage 1 (afterP (doP (call_adapter a i)) f).
Proof.
  intros b s Hs _ _. cbn [fst snd stage Nat.eqb]. unfold call_adapter. rewrite run_get, run_guard. rewrite (oe_active _ _ Hs).
  destruct Hs as [H1 H2 H3 H4]. by split.
Qed.

Lemma stage_claim f : stage 4 (afterP (claimP clock i a) f).
Proof.
  unfold claimP, clockP, bindP, doP. cbn [afterP]. intros b s Hs _ _. split; [by apply open_tick|]. split; [by rewrite app_nil_r|].
  unfold read_clock at 1. cbn [fst afterP]. generalize (clock (ticks s)) as now. intros now. clear b s Hs.
  intros b s Hs _ Hb. assert (b = false) as -> by (apply Hb; lia). clear Hb. destruct (begin_open now s Hs) as (H1 & e & H2 & H3).
  split; [done|]. split; [unfold on_db; rewrite app_nil_r; by destruct (begin_effect _ _ _)|].
  rewrite H2. cbn [afterP]. rewrite H3. unfold deliverP, clockP, bindP, doP. cbn [afterP].
  clear s Hs H1 H2. intros b s Hs _ _. split; [by apply open_tick|]. split; [by rewrite app_nil_r|].
  unfold read_clock. cbn [fst afterP]. apply stage_call.
Qed.

Lemma stage_start : stage 7 (program (TExecute i t)).
Proof.
  unfold Workers.program, executeP, validateP, clockP, bindP, doP. cbn [afterP liftP].
  (* the clock and the registry *)
  intros b s Hs Hb _. split; [by apply open_tick|]. split; [by rewrite app_nil_r|]. unfold read_clock. cbn [fst afterP].
  clear b Hs Hb. intros b s1 Hs Hb _. rewrite run_get. unfold liftR at 1 2 3. cbn [fst snd].
  split; [done|]. split; [by rewrite app_nil_r|]. unfold liftR. cbn [fst]. rewrite (oe_authority _ _ Hs), Hvalid. cbn [afterP]. rewrite Ha.
  (* the entry *)
  unfold effect_entry, doP. cbn [afterP]. clear b s s1 Hs Hb. intros b s Hs Hb _. assert (b = true) as -> by (apply Hb; lia). clear Hb.
  split; [done|]. split; [by rewrite app_nil_r|]. destruct Hs as [_ _ _ (e & He & Hj & [Hp|[? _]])]; [|done].
  cbn [fst]. rewrite He. cbn [afterP]. unfold guardP, liftP. rewrite Hj, String.eqb_refl. cbn [require afterP]. rewrite Hp.
  apply stage_claim.
Qed.

Context (P : pool) (ns : list nat) (Hns : NoDup ns).
Context (Hworkers : forall n, n ∈ ns -> workers P !! n = Some {| w_task := TExecute i t; w_prog := program (TExecute i t) |}).
Context (Hopen : open_entry true (shared P)).

(** After the turns [l]: where each worker is, what the entry is, and what has
    been performed. *)
Record raced (l : list nat) (P' : pool) : Prop := {
  ra_open : open_entry false (shared P');
  ra_waiting : (forall m, (turns_of m l <= 4)%nat) -> open_entry true (shared P');
  ra_stage : forall n, n ∈ ns -> exists w, workers P' !! n = Some w /\ stage (7 - turns_of n l) (w_prog w);
  ra_performed : performed (shared P')
    = performed (shared P) ++ replicate (length (List.filter (fun n => turns_of n l =? 7)%nat ns)) i }.

Lemma raced_step l n P' : raced l P' -> n ∈ ns -> (turns_of n l < 7)%nat -> ((turns_of n l < 3)%nat -> forall m, (turns_of m l <= 4)%nat) ->
  raced (l ++ [n]) (step (Run n) P').
Proof.
  intros [H1 H2 H3 H4] Hn Hlt Hlook. destruct (H3 n Hn) as (w & Hw & Hs). cbn [step]. rewrite Hw.
  assert (Ek : (7 - turns_of n l)%nat = S (6 - turns_of n l)) by lia. rewrite Ek in Hs.
  assert (Et : turns_of n (l ++ [n]) = S (turns_of n l)) by (rewrite turns_snoc, Nat.eqb_refl; lia).
  assert (Eo : forall x, x <> n -> turns_of x (l ++ [n]) = turns_of x l) by (intros x Hx; rewrite turns_snoc; apply Nat.eqb_neq in Hx as ->; lia).
  destruct (w_prog w) as [r|C m cont]; [done|]. cbn [stage] in Hs.
  assert (Hb : exists b, open_entry b (shared P') /\ ((5 <= S (6 - turns_of n l))%nat -> b = true) /\ ((S (6 - turns_of n l) <= 3)%nat -> b = false)).
  { destruct (decide (turns_of n l < 3)%nat) as [Hc|Hc]; [exists true; split; [by apply H2, Hlook|lia]|]. exists false. split; [done|]. split; [lia|done]. }
  destruct Hb as (b & Hb1 & Hb2 & Hb3). destruct (Hs b (shared P') Hb1 Hb2 Hb3) as (G1 & G2 & G3).
  split; cbn [shared workers].
  - destruct b; [by apply open_weaken|done].
  - intros Hall. assert (turns_of n l <= 3)%nat by (specialize (Hall n); lia).
    assert (Ho : open_entry true (shared P')).
    { apply H2. intros x. specialize (Hall x). destruct (decide (x = n)) as [->|Hx]; [lia|]. by rewrite Eo in Hall. }
    by destruct (Hs true (shared P') Ho ltac:(done) ltac:(intros; lia)).
  - intros x Hx. destruct (decide (x = n)) as [->|Hne].
    + eexists. split; [apply list_lookup_insert_eq; by eapply lookup_lt_Some|]. cbn [w_prog]. rewrite Et. by replace (7 - S (turns_of n l))%nat with (6 - turns_of n l)%nat by lia.
    + rewrite list_lookup_insert_ne by done. rewrite Eo by done. by apply H3.
  - rewrite G2, H4.
    rewrite (filter_grows (fun x => turns_of x l =? 7)%nat (fun x => turns_of x (l ++ [n]) =? 7)%nat ns n); [|done|done| |apply Nat.eqb_neq; lia].
    + rewrite replicate_add, (assoc_L (++)). f_equal. rewrite Et.
      replace (S (turns_of n l) =? 7)%nat with (6 - turns_of n l =? 0)%nat; [by destruct (_ =? 0)%nat|].
      destruct (6 - turns_of n l =? 0)%nat eqn:E; symmetry; [apply Nat.eqb_eq in E; apply Nat.eqb_eq; lia|apply Nat.eqb_neq in E; apply Nat.eqb_neq; lia].
    + intros x Hx. by rewrite Eo.
Qed.

Lemma raced_all l rest : (forall n, n ∈ l -> n ∈ ns) -> (forall n, n ∈ ns -> (turns_of n (l ++ rest) <= 7)%nat) ->
  (forall l' n r m, l ++ rest = l' ++ n :: r -> (turns_of n l' < 3)%nat -> (turns_of m l' <= 4)%nat) ->
  raced l (steps (map Run l) P).
Proof.
  revert rest. induction l as [|n l IH] using rev_ind; intros rest Hin Ht Hl.
  - split; cbn [map fold_left].
    + by apply open_weaken.
    + done.
    + intros n Hn. eexists. split; [by apply Hworkers|]. apply stage_start.
    + assert (E : List.filter (fun n => turns_of n [] =? 7)%nat ns = []) by (clear; induction ns; done).
      unfold Workers.steps. cbn [map fold_left]. by rewrite E, app_nil_r.
  - rewrite map_app. unfold Workers.steps. rewrite fold_left_app. cbn [map fold_left].
    apply raced_step.
    + apply (IH (n :: rest)).
      * intros x Hx. apply Hin, elem_of_app. by left.
      * intros x Hx. specialize (Ht x Hx). by rewrite <- (assoc_L (++)) in Ht.
      * intros l' x r m E. apply (Hl l' x r m). by rewrite <- (assoc_L (++)).
    + apply Hin, elem_of_app. right. by left.
    + assert (Hn : n ∈ ns) by (apply Hin, elem_of_app; right; by left). specialize (Ht n Hn). revert Ht. unfold turns_of. rewrite !List.filter_app, !length_app.
      cbn. rewrite Nat.eqb_refl. cbn. lia.
    + intros Hlt m. apply (Hl l n rest m); [|done]. by rewrite <- (assoc_L (++)).
Qed.
End race.

(** C40: [begin_effect] does not tell its caller whether it claimed the entry or
    found it claimed, so the exclusion that [interleaved_effects_at_most_once]
    asks of the callers is needed: when workers execute one intent whose entry is
    pending, with a token that stays valid, and each of them has read the entry
    before any of them begins it, then in whatever order they take their turns
    every single one of them calls the adapter, although each of their
    transactions is atomic. *)
Theorem racing_workers_deliver_twice issuance_key clock adapters i t a P ns l :
  adapters !! target_adapter i = Some a ->
  (forall k, validate_capability_token issuance_key i t (authority (shared P)) (clock k) (adapter_hosts adapters (target_adapter i)) = Ok tt) ->
  open_entry (authority (shared P)) i true (shared P) ->
  NoDup ns ->
  (forall n, n ∈ ns -> workers P !! n
     = Some {| w_task := TExecute i t; w_prog := program issuance_key clock adapters (TExecute i t) |}) ->
  taking_turns ns l ->
  performed (shared (steps issuance_key clock adapters (map Run l) P)) = performed (shared P) ++ replicate (length ns) i.
Proof.
  intros Ha Hv Ho Hns Hw [R1 R2 R3].
  destruct (raced_all issuance_key clock adapters _ i t a Ha Hv P ns Hns Hw Ho l []) as [_ _ _ ->].
  - exact R1.
  - intros n Hn. rewrite app_nil_r. by rewrite R2.
  - intros l' n r m. rewrite app_nil_r. apply R3.
  - do 2 f_equal. clear -R2. induction ns as [|n ns IH]; [done|]. cbn. rewrite R2 by (by left). cbn. f_equal. apply IH.
    intros m Hm. apply R2. by right.
Qed.

(** A pool whose store holds the entry, and two workers that execute it. *)
Module SampleRace.
Import Authority.Sample Outbox.Sample.
Definition enqueued : pool := Eval vm_compute in
  steps "secret" clock adapters ([Authorize (Some registry); Spawn (TEnqueue intent token)] ++ replicate 6 (Run 0)) fresh_pool.
Definition contested : pool := steps "secret" clock adapters [Spawn (TExecute intent token); Spawn (TExecute intent token)] enqueued.
(** The first worker is about to begin when the second one starts. *)
Definition order : list nat := [0; 0; 0; 0; 1; 1; 1; 0; 0; 0; 1; 1; 1; 1]%nat.
End SampleRace.

Lemma sample_race : taking_turns [0; 1]%nat SampleRace.order.
Proof.
  split.
  - intros n Hn. unfold SampleRace.order in Hn. set_solver.
  - intros n Hn. repeat (apply elem_of_cons in Hn as [->|Hn]; [vm_compute; reflexivity|]). by apply elem_of_nil in Hn.
  - intros l' n rest m E. assert (El : l' = take (length l') SampleRace.order) by (rewrite E; symmetry; apply take_app_length).
    assert (Hn : SampleRace.order !! length l' = Some n) by (rewrite E, lookup_app_r, Nat.sub_diag by lia; done).
    revert El Hn. generalize (length l') as k. intros k -> Hn.
    do 14 (destruct k as [|k]; [injection Hn as <-; vm_compute; destruct m as [|[|m]]; lia|]). discriminate Hn.
Qed.

Lemma racing_workers_deliver_twice_witness :
  performed (shared (steps "secret" Sample.clock Sample.adapters (map Run SampleRace.order) SampleRace.contested))
  = [Sample.intent; Sample.intent].
Proof.
  apply (racing_workers_deliver_twice "secret" Sample.clock Sample.adapters Sample.intent Authority.Sample.token Sample.fs
           SampleRace.contested [0; 1]%nat SampleRace.order).
  - reflexivity.
  - intros k. vm_compute. reflexivity.
  - split; [reflexivity|reflexivity|reflexivity|]. eexists. split; [reflexivity|]. split; [vm_compute; reflexivity|by left].
  - apply (bool_decide_unpack _). vm_compute. exact I.
  - intros n Hn. repeat (apply elem_of_cons in Hn as [->|Hn]; [reflexivity|]). by apply elem_of_nil in Hn.
  - exact sample_race.
Defined.

(** Both workers of such a race report success when their receipts are equal. *)
Example racing_workers_both_succeed :
  let P := steps "secret" Sample.clock Sample.adapters SampleSchedules.race fresh_pool in
  performed (shared P) = [Sample.intent; Sample.intent]
  /\ map SampleSchedules.status_of (returned P) = [Some "SUCCEEDED"; Some "SUCCEEDED"].
Proof. vm_compute. split; reflexivity. Qed.

End Workers.
