(* ===== verification/WorkItems.v ===== *)
(** * Charters and work items

    [MissionCharter] and [WorkItem] of [brain_kernel/contracts.py], with the
    documents they are written to and read from.  A work item read from a
    schema-valid document writes that same document again, and the document of a
    constructed item reads back exactly when its scopes have the portable format. *)

From S2P Require Import Prelude Sha256 Canonical PyLib Schema Contracts.
From Stdlib Require Import Ascii.

Module WorkItems.
Export Contracts.

(** ** The mission charter *)

Record MissionCharter := {
  charter_schema_version : Z;
  charter_mission_id : string;
  created_at : string;
  charter_objective : string;
  charter_acceptance_specs : list string;
  repository_root : string;
  base_commit : string;
  target_branch : string;
  charter_policy_fingerprint : string;
  role_registry_fingerprint : string;
  model_route_fingerprint : string;
  charter_budget : Budget;
  external_grants : list string;
  protected_branches : list string;
  charter_human_gates : list string;
  charter_status : MissionState }.

(** [MissionCharter.__post_init__]; the budget was checked when it was built. *)
Definition check_charter (c : MissionCharter) : result MissionCharter :=
  require (charter_schema_version c =? 1) ValueError "unsupported schema version" ;?
  _identifier (JStr (charter_mission_id c)) K_mission ;?
  _time (JStr (created_at c)) "created_at" ;?
  _require (JStr (charter_objective c)) "objective" ;?
  require (negb (bool_decide (charter_acceptance_specs c = []))) ValueError "acceptance_specs is required" ;?
  require (negb (String.eqb (repository_root c) "")) ValueError "repository_root is required" ;?
  _sha (JStr (base_commit c)) ;?
  _require (JStr (target_branch c)) "target_branch" ;?
  require (negb (mem (target_branch c) (protected_branches c))) ValueError "target_branch must not be protected" ;?
  each (fun d => _digest (JStr d) "fingerprint")
    [charter_policy_fingerprint c; role_registry_fingerprint c; model_route_fingerprint c] ;?
  Ok c.

(** [MissionCharter.to_document] *)
Definition charter_to_document (c : MissionCharter) : contract :=
  [("schema_version", JInt (charter_schema_version c)); ("mission_id", JStr (charter_mission_id c));
   ("created_at", JStr (created_at c)); ("objective", JStr (charter_objective c));
   ("acceptance_specs", strs (charter_acceptance_specs c)); ("repository_root", JStr (repository_root c));
   ("base_commit", JStr (base_commit c)); ("target_branch", JStr (target_branch c));
   ("policy_fingerprint", JStr (charter_policy_fingerprint c));
   ("role_registry_fingerprint", JStr (role_registry_fingerprint c));
   ("model_route_fingerprint", JStr (model_route_fingerprint c)); ("budget", budget_document (charter_budget c));
   ("external_grants", strs (external_grants c)); ("protected_branches", strs (protected_branches c));
   ("human_gates", strs (charter_human_gates c)); ("status", JStr (mission_value (charter_status c)))].
Definition charter_digest (c : MissionCharter) : string := canonical_digest (JObj (charter_to_document c)).

(** ** Work items *)

Record WorkItem := {
  wi_work_id : string;
  wi_mission_id : string;
  parent_work_id : option string;
  depth : Z;
  title : string;
  wi_objective : string;
  wi_role : string;
  wi_risk_tier : string;
  wi_dependencies : list string;
  required_inputs : list string;
  expected_outputs : list string;
  wi_acceptance_specs : list string;
  write_scope : list string;
  requested_actions : list string;
  context_request : contract;
  max_attempts : Z;
  wi_status : WorkState;
  wi_authority_envelope_digest : string;
  wi_idempotency_key : string }.

Definition with_write_scope (w : WorkItem) (scope : list string) : WorkItem :=
  {| wi_work_id := wi_work_id w; wi_mission_id := wi_mission_id w; parent_work_id := parent_work_id w;
     depth := depth w; title := title w; wi_objective := wi_objective w; wi_role := wi_role w;
     wi_risk_tier := wi_risk_tier w; wi_dependencies := wi_dependencies w; required_inputs := required_inputs w;
     expected_outputs := expected_outputs w; wi_acceptance_specs := wi_acceptance_specs w; write_scope := scope;
     requested_actions := requested_actions w; context_request := context_request w;
     max_attempts := max_attempts w; wi_status := wi_status w;
     wi_authority_envelope_digest := wi_authority_envelope_digest w; wi_idempotency_key := wi_idempotency_key w |}.

(** [WorkItem.__post_init__] *)
Definition check_work_item (w : WorkItem) : result WorkItem :=
  _identifier (JStr (wi_work_id w)) K_work ;?
  _identifier (JStr (wi_mission_id w)) K_mission ;?
  match parent_work_id w with Some p => _identifier (JStr p) K_work | None => Ok tt end ;?
  _nonnegative (JInt (depth w)) "depth" ;?
  _require (JStr (title w)) "title" ;?
  _require (JStr (wi_objective w)) "objective" ;?
  _role (JStr (wi_role w)) ;?
  require (mem (wi_risk_tier w) RISK_TIERS) ValueError "invalid risk_tier" ;?
  let? scope := map_result (fun p => normalize_portable_path (JStr p)) (write_scope w) in
  require (1 <=? max_attempts w) ValueError "max_attempts must be positive" ;?
  _digest (JStr (wi_authority_envelope_digest w)) "digest" ;?
  _digest (JStr (wi_idempotency_key w)) "idempotency_key" ;?
  Ok (with_write_scope w scope).

(** [WorkItem.to_document] *)
Definition work_item_to_document (w : WorkItem) : contract :=
  [("work_id", JStr (wi_work_id w)); ("mission_id", JStr (wi_mission_id w));
   ("parent_work_id", opt_str (parent_work_id w)); ("depth", JInt (depth w)); ("title", JStr (title w));
   ("objective", JStr (wi_objective w)); ("role", JStr (wi_role w)); ("risk_tier", JStr (wi_risk_tier w));
   ("dependencies", strs (wi_dependencies w)); ("required_inputs", strs (required_inputs w));
   ("expected_outputs", strs (expected_outputs w)); ("acceptance_specs", strs (wi_acceptance_specs w));
   ("write_scope", strs (write_scope w)); ("requested_actions", strs (requested_actions w));
   ("context_request", JObj (context_request w)); ("max_attempts", JInt (max_attempts w));
   ("status", JStr (work_value (wi_status w)));
   ("authority_envelope_digest", JStr (wi_authority_envelope_digest w));
   ("idempotency_key", JStr (wi_idempotency_key w))].

Definition int_field (k : string) (d : contract) : Z := default 0 (as_int (get k d)).
Definition obj_field (k : string) (d : contract) : contract := default [] (as_obj (get k d)).

(** The keyword arguments of [WorkItem] in a document the schema accepts, which has checked the
    type of every member read here. *)
Definition work_item_of (d : contract) (status : WorkState) : WorkItem :=
  {| wi_work_id := str_field "work_id" d; wi_mission_id := str_field "mission_id" d;
     parent_work_id := as_str (get "parent_work_id" d); depth := int_field "depth" d;
     title := str_field "title" d; wi_objective := str_field "objective" d; wi_role := str_field "role" d;
     wi_risk_tier := str_field "risk_tier" d; wi_dependencies := strs_field "dependencies" d;
     required_inputs := strs_field "required_inputs" d; expected_outputs := strs_field "expected_outputs" d;
     wi_acceptance_specs := strs_field "acceptance_specs" d; write_scope := strs_field "write_scope" d;
     requested_actions := strs_field "requested_actions" d; context_request := obj_field "context_request" d;
     max_attempts := int_field "max_attempts" d; wi_status := status;
     wi_authority_envelope_digest := str_field "authority_envelope_digest" d;
     wi_idempotency_key := str_field "idempotency_key" d |}.

(** [WorkItem.from_document] *)
Definition work_item_from_document (document : json) : result WorkItem :=
  match document with
  | JObj d =>
      schema_check "brain-kernel-work-item" d ;?
      let? status := work_state_of (get "status" d) in
      check_work_item (work_item_of d status)
  | _ => raise ValueError "kernel contract document must be an object"
  end.

(** ** Documents *)

Lemma schema_check_ok name schema d :
  kernel_schemas name = Ok schema ->
  schema_check name d = Ok tt <-> validate_node 3 kernel_schemas (JObj d) schema "$" = Some [].
Proof.
  intros E. unfold schema_check, validate_contract. rewrite E.
  destruct (validate_node _ _ _ _ _) as [l|]; cbn; [|split; intros H; discriminate H].
  rewrite require_ok, bool_decide_eq_true. split; congruence.
Qed.

Definition work_item_properties : list (string * json) := obj_field "properties" work_item_schema.
Definition work_item_fields : list string := strs_field "required" work_item_schema.

Lemma work_item_closed : closed_schema work_item_schema work_item_properties work_item_fields.
Proof. split; reflexivity. Qed.

Lemma work_item_keys k : k ∈ work_item_fields <-> has k work_item_properties = true.
Proof.
  rewrite has_elem. change (work_item_properties.*1) with work_item_fields. done.
Qed.

Lemma work_item_fields_NoDup : NoDup work_item_fields.
Proof. apply (bool_decide_unpack (NoDup work_item_fields)). vm_compute. exact I. Qed.

(** The document has exactly the members of a work item, each valid on its own. *)
Definition valid_members (d : contract) : Prop :=
  (forall k, k ∈ d.*1 <-> k ∈ work_item_fields)
  /\ forall k child, (k, JObj child) ∈ work_item_properties ->
       validate_node 2 kernel_schemas (get k d) child ("$" +:+ "." +:+ k)%stdpp = Some [].

Lemma work_item_valid d : schema_check "brain-kernel-work-item" d = Ok tt <-> valid_members d.
Proof.
  rewrite (schema_check_ok "brain-kernel-work-item" work_item_schema d eq_refl), (closed_object_iff _ _ _ _ _ _ _ work_item_closed).
  unfold valid_members. split.
  - intros (H1 & H2 & H3). split.
    + intros k. rewrite work_item_keys. split; [apply H1|]. rewrite <- work_item_keys. intros Hk.
      by apply has_elem, H2.
    + intros k child Hk. apply H3; [done|]. apply H2, work_item_keys, has_elem. by apply (list_elem_of_fmap_2 fst) in Hk.
  - intros [H1 H2]. split; [|split].
    + intros k Hk. by apply work_item_keys, H1.
    + intros k Hk. by apply has_elem, H1.
    + intros k child Hk _. by apply H2.
Qed.

(** What each kind of member schema says of the field read from it. *)
Section fields.
Context (k : string) (d : contract) (child : contract) (path : string).
Hypothesis Href : as_str (get "$ref" child) = None.

Lemma str_field_typed fuel : get "type" child = JStr "string" ->
  validate_node fuel kernel_schemas (get k d) child path = Some [] -> JStr (str_field k d) = get k d.
Proof. intros Ht H. apply validated_string in H as [s E]; [|done..]. unfold str_field. by rewrite E. Qed.

Lemma int_field_typed fuel : get "type" child = JStr "integer" ->
  validate_node fuel kernel_schemas (get k d) child path = Some [] -> JInt (int_field k d) = get k d.
Proof.
  intros Ht H. eapply validated_type in H; [|done..]. unfold int_field. by destruct (get k d).
Qed.

Lemma obj_field_typed fuel : get "type" child = JStr "object" ->
  validate_node fuel kernel_schemas (get k d) child path = Some [] -> JObj (obj_field k d) = get k d.
Proof.
  intros Ht H. eapply validated_type in H; [|done..]. unfold obj_field. by destruct (get k d).
Qed.

Lemma enum_field_typed fuel names : get "type" child = JNull -> as_list (get "enum" child) = Some (map JStr names) ->
  validate_node fuel kernel_schemas (get k d) child path = Some [] -> JStr (str_field k d) = get k d.
Proof. intros Ht He H. eapply validated_enum in H as (s & E & _); [|done..]. unfold str_field. by rewrite E. Qed.

Lemma omap_strings l : (forall x, x ∈ l -> exists s, x = JStr s) -> JList (map JStr (omap as_str l)) = JList l.
Proof.
  intros H. f_equal. induction l as [|x l IH]; [done|]. destruct (H x) as [s ->]; [by left|]. cbn. f_equal.
  apply IH. intros y Hy. apply H. by right.
Qed.

Lemma strs_field_typed fuel item : get "type" child = JStr "array" -> as_obj (get "items" child) = Some item ->
  as_str (get "$ref" item) = None -> get "type" item = JStr "string" ->
  validate_node (S fuel) kernel_schemas (get k d) child path = Some [] -> strs (strs_field k d) = get k d.
Proof.
  intros Ht Hi Hr His H. eapply validated_array in H as (l & E & H); [|done..]. unfold strs_field. rewrite E. cbn.
  apply omap_strings. intros x Hx. destruct (H x Hx) as [p Hp]. by eapply validated_string in Hp.
Qed.

Lemma opt_field_typed fuel : get "type" child = JList [JStr "string"; JStr "null"] ->
  validate_node fuel kernel_schemas (get k d) child path = Some [] -> opt_str (as_str (get k d)) = get k d.
Proof.
  intros Ht H. destruct fuel as [|f]; [done|]. cbn [validate_node] in H. rewrite Href, Ht in H. cbv zeta in H.
  by destruct (get k d).
Qed.
End fields.

Lemma work_state_value v s : work_state_of v = Ok s -> v = JStr (work_value s).
Proof.
  unfold work_state_of, enum_of. destruct (List.find _ _) as [e|] eqn:E; [|done]. intros [= ->].
  apply find_some in E as [_ E]. by apply py_eq_str in E.
Qed.

(** The document a valid document's work item writes has its members. *)
Lemma to_document_member d status k : valid_members d -> work_state_of (get "status" d) = Ok status ->
  k ∈ work_item_fields -> get k (work_item_to_document (work_item_of d status)) = get k d.
Proof.
  intros [_ Hv] Hs Hk. apply work_state_value in Hs. unfold work_item_fields in Hk. cbn in Hk.
  repeat (apply elem_of_cons in Hk as [->|Hk];
    [match goal with |- get ?k _ = _ =>
       assert (H := Hv k _ (lookup_key_in k _ work_item_properties eq_refl)); lazy beta iota in H end;
     first [exact (eq_sym Hs)
           |apply str_field_typed in H; [exact H|reflexivity..]
           |apply int_field_typed in H; [exact H|reflexivity..]
           |apply obj_field_typed in H; [exact H|reflexivity..]
           |apply opt_field_typed in H; [exact H|reflexivity..]
           |apply (enum_field_typed _ _ _ _) with (names := ROLE_NAMES) in H; [exact H|reflexivity..]
           |apply (enum_field_typed _ _ _ _) with (names := RISK_TIERS) in H; [exact H|reflexivity..]
           |eapply strs_field_typed in H; [exact H|reflexivity..]]|]).
  by apply elem_of_nil in Hk.
Qed.

(** A path the schema accepts is its own normal form. *)
Lemma portable_is_normal s p :
  is_ok (portable_path_parts s) = true -> normalize_portable_path (JStr s) = Ok p -> p = s.
Proof.
  unfold portable_path_parts. intros H Hn. apply normalize_path_spec in Hn as [-> _].
  apply replace_char_absent. destruct (_ || drive_prefix s) eqn:E; [discriminate H|]. by bool_hyps.
Qed.

Lemma with_write_scope_same w : with_write_scope w (write_scope w) = w.
Proof. by destruct w. Qed.

Lemma checked_scope w w' : check_work_item w = Ok w' ->
  exists scope, map_result (fun p => normalize_portable_path (JStr p)) (write_scope w) = Ok scope
    /\ w' = with_write_scope w scope.
Proof.
  unfold check_work_item. intros H. do 8 apply rbind_ok in H as (? & _ & H). take_ok H scope Es.
  do 3 apply rbind_ok in H as (? & _ & H).
  injection H as <-. by exists scope.
Qed.

Lemma valid_scope d status w : valid_members d ->
  check_work_item (work_item_of d status) = Ok w -> w = work_item_of d status.
Proof.
  intros [_ Hv] H. apply checked_scope in H as (scope & Es & ->).
  rewrite <- (with_write_scope_same (work_item_of d status)) at 2. f_equal.
  assert (H := Hv "write_scope" _ (lookup_key_in "write_scope" _ work_item_properties eq_refl)). lazy beta iota in H.
  eapply validated_array in H as (l & E & H); [|reflexivity..]. cbn [work_item_of write_scope] in *.
  unfold strs_field in *. rewrite E in *. cbn [as_list default from_option id] in *. clear E. revert scope Es.
  induction l as [|x l IH]; cbn; intros scope Es; [by injection Es as <-|].
  destruct (H x) as [p Hp]; [by left|]. eapply validated_path in Hp as (s & -> & Hok); [|reflexivity..]. cbn in *.
  take_ok Es y Ey. take_ok Es ys Eys. injection Es as <-. apply portable_is_normal in Ey as ->; [|done].
  f_equal. apply IH; [|done]. intros z Hz. apply H. by right.
Qed.

Lemma from_document_ok d w : work_item_from_document (JObj d) = Ok w <->
  valid_members d /\ work_state_of (get "status" d) = Ok (wi_status w)
  /\ w = work_item_of d (wi_status w) /\ check_work_item w = Ok w.
Proof.
  unfold work_item_from_document. split.
  - intros H. take_ok H u Ev. destruct u. apply work_item_valid in Ev. take_ok H status Es.
    assert (Hw := H). apply valid_scope in Hw; [|done]. subst w. done.
  - intros (Hv & Hs & Hw & Hc). apply work_item_valid in Hv. rewrite Hv. cbn [rbind]. rewrite Hs. cbn [rbind].
    by rewrite <- Hw.
Qed.

(** Dictionaries with the same lookups are permutations of each other. *)
Lemma same_lookup_perm (d d' : contract) : NoDup d.*1 -> NoDup d'.*1 ->
  (forall k, lookup_key k d = lookup_key k d') -> d ≡ₚ d'.
Proof.
  intros Hd Hd' H. apply NoDup_Permutation; [by eapply NoDup_fmap_1..|]. intros [k v]. split; intros Hin.
  - apply lookup_key_in. rewrite <- H. by apply lookup_key_NoDup.
  - apply lookup_key_in. rewrite H. by apply lookup_key_NoDup.
Qed.

Lemma lookup_get k (d : contract) : lookup_key k d = if has k d then Some (get k d) else None.
Proof. unfold has, get. by destruct (lookup_key k d). Qed.

Lemma to_document_perm d w : NoDup d.*1 -> work_item_from_document (JObj d) = Ok w -> d ≡ₚ work_item_to_document w.
Proof.
  intros Hd H. apply from_document_ok in H as (Hv & Hs & Hw & _). rewrite Hw.
  apply same_lookup_perm; [done|exact work_item_fields_NoDup|]. intros k. rewrite !lookup_get.
  destruct (has k d) eqn:Eh.
  - apply has_elem in Eh. apply Hv in Eh. rewrite to_document_member by done.
    assert (has k (work_item_to_document (work_item_of d (wi_status w))) = true) as ->; [|done].
    by apply has_elem.
  - destruct (has k (work_item_to_document _)) eqn:E; [|done]. apply has_elem in E.
    apply not_true_iff_false in Eh. destruct Eh. apply has_elem, Hv. exact E.
Qed.

(** Replacing the context request of a work item. *)
Definition with_context (w : WorkItem) (c : contract) : WorkItem :=
  {| wi_work_id := wi_work_id w; wi_mission_id := wi_mission_id w; parent_work_id := parent_work_id w;
     depth := depth w; title := title w; wi_objective := wi_objective w; wi_role := wi_role w;
     wi_risk_tier := wi_risk_tier w; wi_dependencies := wi_dependencies w; required_inputs := required_inputs w;
     expected_outputs := expected_outputs w; wi_acceptance_specs := wi_acceptance_specs w;
     write_scope := write_scope w; requested_actions := requested_actions w; context_request := c;
     max_attempts := max_attempts w; wi_status := wi_status w;
     wi_authority_envelope_digest := wi_authority_envelope_digest w; wi_idempotency_key := wi_idempotency_key w |}.

Lemma check_with_context w c :
  check_work_item (with_context w c) = (let? w' := check_work_item w in Ok (with_context w' c)).
Proof.
  unfold check_work_item. cbn -[_identifier _nonnegative _require _role _digest map_result].
  repeat match goal with |- rbind ?r _ = rbind (rbind ?r _) _ => destruct r; cbn [rbind]; [|done] end. done.
Qed.

(** Reading depends on the members only, and on the context request only in the
    field that holds it. *)
Lemma from_document_ext d d' w c :
  (forall k, k ∈ d'.*1 <-> k ∈ d.*1) -> (forall k, k <> "context_request" -> get k d' = get k d) ->
  get "context_request" d' = JObj c ->
  work_item_from_document (JObj d) = Ok w -> work_item_from_document (JObj d') = Ok (with_context w c).
Proof.
  intros Hk Hg Hc H. apply from_document_ok in H as ((Hkeys & Hv) & Hs & Hw & Hck). apply from_document_ok.
  split; [split; [intros k; by rewrite Hk|]|split; [|split]].
  - intros k child Hin. destruct (decide (k = "context_request")) as [->|Hn]; [|rewrite Hg by done; by apply Hv].
    rewrite Hc. apply lookup_key_NoDup in Hin; [|exact work_item_fields_NoDup].
    vm_compute in Hin. injection Hin as <-. reflexivity.
  - by rewrite Hg.
  - rewrite Hw at 1. unfold work_item_of, with_context, str_field, strs_field, int_field, obj_field.
    rewrite Hc, !Hg by done. done.
  - by rewrite check_with_context, Hck.
Qed.

Lemma with_context_same w : with_context w (context_request w) = w.
Proof. by destruct w. Qed.

Lemma to_document_reads_back d w : NoDup d.*1 -> work_item_from_document (JObj d) = Ok w ->
  work_item_from_document (JObj (work_item_to_document w)) = Ok w.
Proof.
  intros Hd H. assert (Hp := to_document_perm d w Hd H). rewrite <- (with_context_same w) at 2.
  apply (from_document_ext d); [|intros k _; unfold get; by rewrite (lookup_key_perm _ _ _ Hd Hp)|done|done].
  intros k. by rewrite Hp.
Qed.

Definition norm_context (c : contract) : contract := match norm (JObj c) with JObj l => l | _ => [] end.

(** Read back from its stored (canonical) document, a work item has its context
    request in canonical order and is otherwise unchanged. *)
Lemma stored_item_reads_back d w d' : NoDup d.*1 -> work_item_from_document (JObj d) = Ok w ->
  norm (JObj (work_item_to_document w)) = JObj d' ->
  work_item_from_document (JObj d') = Ok (with_context w (norm_context (context_request w))).
Proof.
  intros Hd H En. apply to_document_reads_back in H; [|done].
  set (t := work_item_to_document w) in *.
  destruct (stored_members t d' work_item_fields_NoDup En) as [Hg Hkeys].
  apply (from_document_ext t); [| | |done].
  - intros k. by rewrite Hkeys.
  - intros k Hk. rewrite Hg. destruct (has k t) eqn:Eh.
    + apply has_elem in Eh. change (t.*1) with work_item_fields in Eh. unfold work_item_fields in Eh. cbn in Eh.
      repeat (apply elem_of_cons in Eh as [->|Eh];
        [first [done|exact (norm_strs _)|change (norm (opt_str (parent_work_id w)) = opt_str (parent_work_id w));
                by destruct (parent_work_id w)]|]).
      by apply elem_of_nil in Eh.
    + unfold get. unfold has in Eh. by destruct (lookup_key k t).
  - rewrite Hg. reflexivity.
Qed.

(** A work item read from a document writes a document with the same
    canonical bytes (so the same digest), and reading that document gives the
    work item again.  The schema and the constructor agree: no field is lost,
    renamed or rewritten, the write scope included. *)
Theorem work_item_round_trip d w :
  NoDup d.*1 -> work_item_from_document (JObj d) = Ok w ->
  canonical_bytes (JObj (work_item_to_document w)) = canonical_bytes (JObj d)
  /\ work_item_from_document (JObj (work_item_to_document w)) = Ok w.
Proof.
  intros Hd H. split; [|by eapply to_document_reads_back]. unfold canonical_bytes, dumps. f_equal.
  symmetry. apply norm_obj_perm; [by apply bool_decide_eq_true|]. by apply to_document_perm.
Qed.

(** ** Items whose own document can be read

    The constructor and the schema agree on every field but one: the write
    scope, whose paths the constructor normalises and the schema wants in the
    portable format. *)

Definition portable_scope (w : WorkItem) : bool := forallb (fun p => is_ok (portable_path_parts p)) (write_scope w).

Lemma match_items_weaken its its' s : Forall2 (fun i j => match i, j with
    | One c, One c' | Star c, Star c' => forall a, c a = true -> c' a = true | _, _ => False end) its its' ->
  match_items its s = true -> match_items (its' ++ [Dollar]) s = true.
Proof.
  intros H. revert s. induction H as [|i j its its' Hij H IH]; intros s Hs.
  - cbn in Hs |- *. by rewrite Hs.
  - destruct i as [c| |c|], j as [c'| |c'|]; try done; cbn [match_items app] in *.
    + destruct s as [|a s]; [done|]. bool_hyps. apply andb_true_iff. auto.
    + induction s as [|a s IHs]; apply orb_true_iff in Hs as [Hs|Hs]; apply orb_true_iff; [left; auto|done|left; auto|].
      bool_hyps. right. apply andb_true_iff. auto.
Qed.


Ltac by_character := intros [[] [] [] [] [] [] [] []]; vm_compute; congruence.

Lemma hex_class a : is_hex a = true -> in_ranges [(48, 57); (97, 102)]%N a = true.
Proof. revert a. by_character. Qed.
Lemma alnum_class a : is_alnum a = true -> in_ranges [(65, 90); (97, 122); (48, 57)]%N a = true.
Proof. revert a. by_character. Qed.
Lemma id_class a : is_id_char a = true -> in_ranges [(65, 90); (97, 122); (48, 57); (46, 46); (95, 95); (45, 45)]%N a = true.
Proof. revert a. by_character. Qed.

Ltac classes := repeat (apply Forall2_cons; split; [first [exact (fun _ H => H)|exact alnum_class|exact id_class|exact hex_class]|]); apply List.Forall2_nil.

Lemma search_identifier k s : k ∈ [K_work; K_mission] -> is_identifier k s = true ->
  re_search ("^" +:+ id_prefix k +:+ "[A-Za-z0-9][A-Za-z0-9._-]*$")%stdpp s = Some true.
Proof.
  intros Hk H. unfold re_search.
  assert (Hc : exists its, compile ("^" +:+ id_prefix k +:+ "[A-Za-z0-9][A-Za-z0-9._-]*$")%stdpp = Some (its ++ [Dollar])
    /\ Forall2 (fun i j => match i, j with One c, One c' | Star c, Star c' => forall a, c a = true -> c' a = true | _, _ => False end)
         (lits (id_prefix k) ++ [One is_alnum; Star is_id_char]) its).
  { repeat (apply elem_of_cons in Hk as [->|Hk]); [..|by apply elem_of_nil in Hk].
    - eexists (lits "WORK-" ++ [One (in_ranges [(65, 90); (97, 122); (48, 57)]%N); Star (in_ranges [(65, 90); (97, 122); (48, 57); (46, 46); (95, 95); (45, 45)]%N)]).
      split; [reflexivity|]. classes.
    - eexists (lits "MISSION-" ++ [One (in_ranges [(65, 90); (97, 122); (48, 57)]%N); Star (in_ranges [(65, 90); (97, 122); (48, 57); (46, 46); (95, 95); (45, 45)]%N)]).
      split; [reflexivity|]. classes. }
  destruct Hc as (its & -> & Hf). cbn [option_map]. by rewrite (match_items_weaken _ _ _ Hf H).
Qed.

Lemma search_digest s : is_digest s = true -> re_search "^sha256:[0-9a-f]{64}$" s = Some true.
Proof.
  intros H. unfold re_search.
  change (compile "^sha256:[0-9a-f]{64}$") with (Some ((lits "sha256:" ++ times 64 (in_ranges [(48, 57); (97, 102)]%N)) ++ [Dollar])).
  cbn [option_map]. f_equal. eapply match_items_weaken; [|exact H]. apply Forall2_app; [classes|].
  apply Forall2_replicate. apply hex_class.
Qed.

Lemma chars_acc_cons cur s : cur <> "" -> chars_acc s cur <> [].
Proof.
  revert cur. induction s as [|a s IH]; intros cur Hc; cbn [chars_acc].
  - by apply String.eqb_neq in Hc as ->.
  - destruct (_ && _); [apply IH; by destruct cur|]. by apply String.eqb_neq in Hc as ->.
Qed.

Lemma nonblank_length s : is_blank s = false -> (str_len s <? 1) = false.
Proof.
  intros H. destruct s as [|a s]; [done|]. apply Z.ltb_ge. unfold str_len, chars.
  assert (Hc : chars_acc (String a s) "" <> []).
  { cbn [chars_acc]. destruct (_ && _); [by apply chars_acc_cons|]. cbn. by apply chars_acc_cons. }
  destruct (chars_acc _ _); [done|]. cbn [length]. lia.
Qed.

(** The members of an item's document are valid. *)
Lemma valid_string s child path fuel : get "$ref" child = JNull -> get "type" child = JStr "string" ->
  lookup_key "const" child = None -> get "enum" child = JNull -> get "allOf" child = JNull ->
  string_issues child path s = Some [] -> validate_node (S fuel) kernel_schemas (JStr s) child path = Some [].
Proof.
  intros H1 H2 H3 H4 H5 H6. cbn [validate_node]. rewrite H1, H2. cbn [as_str]. cbv zeta.
  change (matches_type (JStr s) "string") with true. cbv iota. unfold value_issues, on. by rewrite H3, H4, H5, H6.
Qed.

Lemma valid_digest_member s path fuel : is_digest s = true ->
  validate_node (S fuel) kernel_schemas (JStr s) [("type", JStr "string"); ("pattern", JStr "^sha256:[0-9a-f]{64}$")] path = Some [].
Proof.
  intros H. apply valid_string; try done. unfold string_issues.
  change (on as_str "pattern" _ _ ?f) with (f "^sha256:[0-9a-f]{64}$"). cbv beta. by rewrite search_digest.
Qed.

Lemma valid_identifier k s path fuel : k ∈ [K_work; K_mission] -> is_identifier k s = true ->
  validate_node (S fuel) kernel_schemas (JStr s)
    [("type", JStr "string"); ("pattern", JStr ("^" +:+ id_prefix k +:+ "[A-Za-z0-9][A-Za-z0-9._-]*$")%stdpp)] path = Some [].
Proof.
  intros Hk H. apply valid_string; try done. unfold string_issues.
  change (on as_str "pattern" _ _ ?f) with (f ("^" +:+ id_prefix k +:+ "[A-Za-z0-9][A-Za-z0-9._-]*$")%stdpp). cbv beta.
  by rewrite search_identifier.
Qed.

Lemma valid_nonempty s path fuel : is_blank s = false ->
  validate_node (S fuel) kernel_schemas (JStr s) [("type", JStr "string"); ("minLength", JInt 1)] path = Some [].
Proof.
  intros H. apply valid_string; try done. unfold string_issues.
  change (on as_int "minLength" _ _ ?f) with (f 1). cbv beta. by rewrite nonblank_length.
Qed.

Lemma valid_integer z n path fuel : n <= z ->
  validate_node (S fuel) kernel_schemas (JInt z) [("type", JStr "integer"); ("minimum", JInt n)] path = Some [].
Proof.
  intros H. apply Z.ltb_ge in H. cbn [validate_node]. change (get "type" _) with (JStr "integer"). cbn -[Z.ltb].
  unfold integer_issues. change (on as_int "minimum" _ _ ?f) with (f n). cbv beta. by rewrite H.
Qed.

Lemma valid_choice s names path fuel : mem s names = true ->
  validate_node (S fuel) kernel_schemas (JStr s) [("enum", JList (map JStr names))] path = Some [].
Proof.
  intros H. cbn [validate_node]. unfold value_issues. change (on as_list "enum" _ _ ?f) with (f (map JStr names)). cbv beta.
  assert (existsb (py_eq (JStr s)) (map JStr names) = true) as ->.
  { apply mem_spec in H. apply existsb_exists. exists (JStr s). split; [apply in_map; by apply list_elem_of_In|]. cbn. apply String.eqb_refl. }
  reflexivity.
Qed.

Lemma valid_strings l item path fuel :
  (forall s p, s ∈ l -> validate_node (S fuel) kernel_schemas (JStr s) item p = Some []) ->
  validate_node (S (S fuel)) kernel_schemas (strs l) [("type", JStr "array"); ("items", JObj item)] path = Some [].
Proof.
  intros H. remember (S fuel) as n eqn:En. cbn [validate_node]. change (get "type" _) with (JStr "array"). cbn -[collect validate_node].
  assert (Hc : collect (fun ix => validate_node n kernel_schemas ix.2 item (path +:+ "[" +:+ str_of_Z (Z.of_nat ix.1) +:+ "]")%stdpp)
    (enumerate_from 0 (map JStr l)) = Some []); [|unfold strs; cbn -[collect validate_node]; by rewrite Hc].
  generalize 0%nat as i. induction l as [|s l IH]; intros i; [done|]. cbn [map enumerate_from collect fst snd].
  rewrite (H s) by (by left). rewrite IH; [done|]. intros s' p Hs. apply H. by right.
Qed.

Lemma valid_path s path fuel : is_ok (portable_path_parts s) = true ->
  validate_node (S fuel) kernel_schemas (JStr s) [("type", JStr "string"); ("format", JStr "portable-relative-path")] path = Some [].
Proof.
  intros H. apply valid_string; try done. unfold string_issues. rewrite H. done.
Qed.

Lemma omap_as_str l : omap as_str (map JStr l) = l.
Proof. induction l as [|x l IH]; [done|]. cbn. f_equal. exact IH. Qed.

Lemma require_str s label : _require (JStr s) label = Ok tt -> is_blank s = false.
Proof. intros H. apply require_ok in H. by bool_hyps. Qed.
Lemma identifier_str s k : _identifier (JStr s) k = Ok tt -> is_identifier k s = true.
Proof. unfold _identifier. intros H. apply rbind_ok in H as (_ & _ & H). by apply require_ok in H. Qed.

Lemma constructed_members w : check_work_item w = Ok w -> portable_scope w = true -> valid_members (work_item_to_document w).
Proof.
  intros H Hp. split; [done|]. intros k child Hin. unfold check_work_item in H.
  apply rbind_ok in H as ([] & H1%identifier_str & H). apply rbind_ok in H as ([] & H2%identifier_str & H).
  apply rbind_ok in H as (_ & _ & H). apply rbind_ok in H as ([] & H3%require_ok & H).
  apply rbind_ok in H as ([] & H4%require_str & H). apply rbind_ok in H as ([] & H5%require_str & H).
  apply rbind_ok in H as ([] & H6 & H). apply rbind_ok in H as ([] & H7%require_ok & H).
  apply rbind_ok in H as (scope & _ & H). apply rbind_ok in H as ([] & H8%require_ok & H).
  apply rbind_ok in H as ([] & H9%require_ok & H). apply rbind_ok in H as ([] & H10%require_ok & _).
  apply Z.leb_le in H3, H8. unfold _role in H6. cbn [in_names rbind] in H6. apply require_ok in H6.
  assert (Hs : forall l path, validate_node 2 kernel_schemas (strs l) [("type", JStr "array"); ("items", string_schema)] path = Some []).
  { intros l path. apply valid_strings. intros s p _. by apply valid_string. }
  apply lookup_key_NoDup in Hin; [|exact work_item_fields_NoDup].
  assert (Hk : k ∈ work_item_fields) by (apply work_item_keys; unfold has; by rewrite Hin).
  unfold work_item_fields in Hk. cbn in Hk.
  repeat (apply elem_of_cons in Hk as [->|Hk]; [|]); [..|by apply elem_of_nil in Hk].
  all: lazy in Hin; injection Hin as <-.
  all: [> apply (valid_identifier K_work); [by left|exact H1]|apply (valid_identifier K_mission); [by right; left|exact H2]
        |change (validate_node 2 kernel_schemas (opt_str (parent_work_id w)) [("type", JList [JStr "string"; JStr "null"])] ("$" +:+ "." +:+ "parent_work_id")%stdpp = Some []);
         by destruct (parent_work_id w)
        |by apply (valid_integer (depth w))|by apply valid_nonempty|by apply valid_nonempty
        |by apply (valid_choice (wi_role w) ROLE_NAMES)|by apply (valid_choice (wi_risk_tier w) RISK_TIERS)
        |exact (Hs _ _)|exact (Hs _ _)|exact (Hs _ _)|exact (Hs _ _)
        |apply (valid_strings (write_scope w)); intros s p Hin; apply valid_path; by apply (forallb_elem _ _ _ Hp)
        |exact (Hs _ _)|reflexivity|by apply (valid_integer (max_attempts w))
        |apply (valid_choice (work_value (wi_status w)) (map work_value work_states)); by destruct (wi_status w)
        |by apply valid_digest_member|by apply valid_digest_member].
Qed.

(** Reading a document whose scopes are not in the portable format is refused
    by the schema. *)
Lemma scope_refused d w : get "write_scope" d = strs (write_scope w) -> portable_scope w = false ->
  exists m, work_item_from_document (JObj d) = raise ValueError m.
Proof.
  intros Hg Hp. unfold work_item_from_document. destruct (schema_check _ _) as [[]|e] eqn:E.
  - exfalso. apply work_item_valid in E as [_ Hv]. apply not_true_iff_false in Hp. apply Hp, forallb_forall. intros p Hin.
    assert (Hw := Hv "write_scope" _ (lookup_key_in "write_scope" _ work_item_properties eq_refl)). lazy beta iota in Hw.
    rewrite Hg in Hw. eapply validated_array in Hw as (l & [= <-] & Hw); [|reflexivity..].
    destruct (Hw (JStr p)) as [q Hq]; [apply list_elem_of_In, in_map, Hin|].
    eapply validated_path in Hq as (s & [= <-] & Hs); [done|reflexivity..].
  - cbn [rbind]. unfold schema_check in E.
    destruct (kernel_validation_total 3 "brain-kernel-work-item" (JObj d)) as [v Ev]; [done|].
    rewrite Ev in E. unfold require in E. destruct (valid v); [done|]. injection E as <-. by eexists.
Qed.

(** A constructed item's own document reads back as the same item when its
    scopes are in the portable format. *)
Lemma own_document_reads w : check_work_item w = Ok w -> portable_scope w = true ->
  work_item_from_document (JObj (work_item_to_document w)) = Ok w.
Proof.
  intros H Hp. apply from_document_ok. split; [by apply constructed_members|].
  split; [by destruct w as [????????????????[]]|]. split; [|done].
  destruct w. unfold work_item_of. cbn. unfold strs_field. cbn. rewrite !omap_as_str. by destruct parent_work_id0.
Qed.

Module SampleWork.
Definition some_digest : string := ("sha256:" +:+ String.concat "" (replicate 64 "a"))%stdpp.
Definition item (i : string) (parent : option string) (n : Z) (role tier : string) (deps accepts writes : list string)
    : WorkItem :=
  {| wi_work_id := i; wi_mission_id := "MISSION-1"; parent_work_id := parent; depth := n; title := "Title of " +:+ i;
     wi_objective := "objective"; wi_role := role; wi_risk_tier := tier; wi_dependencies := deps; required_inputs := [];
     expected_outputs := ["report"]; wi_acceptance_specs := accepts; write_scope := writes; requested_actions := [];
     context_request := [("z", JInt 1); ("kind", JStr "sample")]; max_attempts := 2; wi_status := W_PROPOSED;
     wi_authority_envelope_digest := some_digest; wi_idempotency_key := some_digest |}%stdpp.
Definition build : WorkItem := item "WORK-build" (Some "WORK-root") 1 "builder" "R1" [] ["AC-1"] ["src/core"].
End SampleWork.

Lemma work_item_round_trip_witness :
  work_item_from_document (JObj (reverse (work_item_to_document SampleWork.build))) = Ok SampleWork.build
  /\ canonical_bytes (JObj (work_item_to_document SampleWork.build))
     = canonical_bytes (JObj (reverse (work_item_to_document SampleWork.build))).
Proof.
  assert (E : work_item_from_document (JObj (reverse (work_item_to_document SampleWork.build))) = Ok SampleWork.build)
    by (vm_compute; reflexivity).
  split; [exact E|]. apply (work_item_round_trip (reverse (work_item_to_document SampleWork.build)) SampleWork.build); [|exact E].
  apply (bool_decide_unpack _). vm_compute. exact I.
Defined.

End WorkItems.
