(* ===== verification/Court.v ===== *)
(** * The court

    [brain_kernel/court_runtime.py]: cases, briefs and verdicts, the checks a
    court record must pass, and the append-only history with its appeals.  The
    constructors that drop repeated references are modelled as functions from
    the arguments to the instance; enumerations and nesting are typed, so those
    tests hold by typing.  A role result is the dictionary of its fields, as in
    [Contracts]. *)

From S2P Require Import Prelude Canonical PyLib Schema Contracts Consultation.

Module Court.
Export Contracts.

Inductive CourtSeat := ADVOCATE | CROSS_EXAMINER | EXPERT_WITNESS | JUDGE | APPEALS_JUDGE.
Inductive CourtDisposition := ADOPT | ADAPT | DEFER | REJECT | QUARANTINED.
Inductive CourtClaimKind := ORDINARY | CHEATING | SUPERIORITY.

#[global] Instance seat_eq_dec : EqDecision CourtSeat.
Proof. solve_decision. Defined.
#[global] Instance disposition_eq_dec : EqDecision CourtDisposition.
Proof. solve_decision. Defined.
#[global] Instance claim_kind_eq_dec : EqDecision CourtClaimKind.
Proof. solve_decision. Defined.

Definition _APPROVING : list CourtDisposition := [ADOPT; ADAPT].
Definition _ADVERSE : list CourtDisposition := [REJECT; QUARANTINED].

Definition _text (value label : string) : result unit :=
  require (negb (is_blank value)) CourtProtocolError (label +:+ " is required")%stdpp.
Definition _references (values : list string) (label : string) : result (list string) :=
  require (negb (bool_decide (values = [])) && forallb (fun v => negb (is_blank v)) values) CourtProtocolError
    (label +:+ " require at least one retained reference")%stdpp ;?
  Ok (dedup values).

(** ** Participants, briefs, cases and verdicts *)

Record CourtParticipant := { seat : CourtSeat; identity : string; task : string; identity_kind : string }.

(** [CourtParticipant.__post_init__] *)
Definition check_participant (p : CourtParticipant) : result unit :=
  _text (identity p) "participant identity" ;?
  _text (task p) "participant task" ;?
  require (mem (identity_kind p) ["model_role"; "procedural_role"]) CourtProtocolError
    "court participants cannot claim independent human status".

Record CourtBrief := {
  participant : CourtParticipant;
  conclusion : string;
  brief_evidence : list string;
  role_result_refs : list string;
  consultation_refs : list string;
  brief_dissent : option string }.

(** [CourtBrief(...)] *)
Definition new_brief (b : CourtBrief) : result CourtBrief :=
  _text (conclusion b) "brief conclusion" ;?
  let? refs := _references (brief_evidence b) "brief evidence" in
  match brief_dissent b with Some d => _text d "dissent" | None => Ok tt end ;?
  Ok {| participant := participant b; conclusion := conclusion b; brief_evidence := refs;
        role_result_refs := dedup (role_result_refs b); consultation_refs := dedup (consultation_refs b);
        brief_dissent := brief_dissent b |}.

Record CourtCase := {
  case_id : string;
  claim_kind : CourtClaimKind;
  subject : string;
  affected_identities : list string;
  role_results : list contract;
  consultations : list Consultation.ConsultationResult }.

(** [CourtCase(...)] *)
Definition new_case (c : CourtCase) : result CourtCase :=
  _text (case_id c) "case id" ;?
  _text (subject c) "case subject" ;?
  require (forallb (fun i => negb (is_blank i)) (affected_identities c)) CourtProtocolError
    "affected identities must be non-empty strings" ;?
  Ok {| case_id := case_id c; claim_kind := claim_kind c; subject := subject c;
        affected_identities := dedup (affected_identities c); role_results := role_results c; consultations := consultations c |}.

Definition source_identities (c : CourtCase) : list string :=
  dedup (affected_identities c ++ map (str_field "executor_id") (role_results c)).
Definition case_evidence (c : CourtCase) : list string :=
  dedup (map (str_field "result_digest") (role_results c) ++ concat (map Consultation.r_evidence (consultations c))).

Record CourtVerdict := {
  verdict_case : string;
  disposition : CourtDisposition;
  decided_by : string;
  verdict_reasons : list string;
  verdict_evidence : list string;
  verdict_dissent : list string }.

(** [CourtVerdict(...)] *)
Definition new_verdict (v : CourtVerdict) : result CourtVerdict :=
  _text (verdict_case v) "verdict case id" ;?
  _text (decided_by v) "judge identity" ;?
  let? reasons := _references (verdict_reasons v) "verdict reasons" in
  let? evidence := _references (verdict_evidence v) "verdict evidence" in
  require (forallb (fun i => negb (is_blank i)) (verdict_dissent v)) CourtProtocolError "dissent must contain non-empty strings" ;?
  Ok {| verdict_case := verdict_case v; disposition := disposition v; decided_by := decided_by v; verdict_reasons := reasons;
        verdict_evidence := evidence; verdict_dissent := dedup (verdict_dissent v) |}.

(** ** Records *)

Definition REQUIRED_SEATS : list CourtSeat := [ADVOCATE; CROSS_EXAMINER; EXPERT_WITNESS; JUDGE].

(** [by_seat.get(seat)] *)
Definition by_seat (participants : list CourtParticipant) (s : CourtSeat) : option CourtParticipant :=
  List.find (fun p => bool_decide (seat p = s)) participants.
Definition deciding_participant (participants : list CourtParticipant) : option CourtParticipant :=
  match by_seat participants APPEALS_JUDGE with Some p => Some p | None => by_seat participants JUDGE end.

Definition panel_evidence (c : CourtCase) (briefs : list CourtBrief) : list string :=
  case_evidence c ++ concat (map brief_evidence briefs).

Definition _validate_panel (c : CourtCase) (briefs : list CourtBrief) (v : CourtVerdict) : result unit :=
  let participants := map participant briefs in
  let seats := map seat participants in
  require (forallb (fun s => bool_decide (s ∈ seats)) REQUIRED_SEATS) CourtProtocolError
    "court requires advocate, cross-examiner, expert witness, and judge briefs" ;?
  require (distinct seats) CourtProtocolError "each court seat may submit only one brief" ;?
  require (distinct (map identity participants)) CourtProtocolError "each court brief requires a distinct identity" ;?
  match by_seat participants ADVOCATE, by_seat participants CROSS_EXAMINER, deciding_participant participants with
  | Some advocate, Some examiner, Some deciding =>
      require (negb (String.eqb (task advocate) (task examiner))) CourtProtocolError
        "advocate and cross-examiner require distinct tasks" ;?
      require (String.eqb (identity deciding) (decided_by v)) CourtProtocolError
        "verdict must be issued by the assigned deciding participant" ;?
      require (negb (mem (identity deciding) (source_identities c))) CourtProtocolError
        "judge cannot adjudicate an affected generator, builder, or evaluator" ;?
      (if bool_decide (disposition v ∈ _APPROVING) && bool_decide (claim_kind c ∈ [CHEATING; SUPERIORITY]) then
         require (negb (bool_decide (panel_evidence c briefs = []))) CourtProtocolError
           "cheating and superiority claims cannot be approved without evidence" ;?
         require (existsb (fun b => bool_decide (seat (participant b) = CROSS_EXAMINER)) briefs) CourtProtocolError
           "approval requires adversarial cross-examination"
       else Ok tt) ;?
      require (negb (existsb (fun k => bool_decide (Consultation.r_cheating k = Consultation.UNRESOLVED)) (consultations c)
                     && bool_decide (disposition v ∈ _APPROVING))) CourtProtocolError
        "unresolved cheating cannot receive an approving verdict"
  | _, _, _ => raise KeyError "seat"
  end.

Record CourtRecord := { record_case_of : CourtCase; briefs : list CourtBrief; verdict : CourtVerdict; appeal_of : option string }.

(** [CourtRecord.__post_init__] *)
Definition check_record (r : CourtRecord) : result unit :=
  require (String.eqb (verdict_case (verdict r)) (case_id (record_case_of r))) CourtProtocolError "verdict is not bound to the court case" ;?
  require (negb (bool_decide (briefs r = []))) CourtProtocolError "record requires court briefs" ;?
  _validate_panel (record_case_of r) (briefs r) (verdict r) ;?
  match appeal_of r with Some a => _text a "appeal parent case id" | None => Ok tt end.

(** ** History *)

Definition history : Type := list CourtRecord.
Definition record_id_of (r : CourtRecord) : string := case_id (record_case_of r).
Definition find_record (h : history) (id : string) : option CourtRecord := List.find (fun r => String.eqb (record_id_of r) id) h.

(** Everything a record cites. *)
Definition cited (r : CourtRecord) : list string :=
  case_evidence (record_case_of r) ++ verdict_evidence (verdict r) ++ concat (map brief_evidence (briefs r)).
Definition appeals_judges (r : CourtRecord) : list CourtParticipant :=
  List.filter (fun p => bool_decide (seat p = APPEALS_JUDGE)) (map participant (briefs r)).

(** [CourtHistory.append] *)
Definition append (h : history) (r : CourtRecord) : result history :=
  require (negb (existsb (fun x => String.eqb (record_id_of x) (record_id_of r)) h)) CourtProtocolError
    "court case ids are append-only and cannot be replaced" ;?
  match appeal_of r with
  | None => Ok tt
  | Some parent_id =>
      match find_record h parent_id with
      | None => raise CourtProtocolError "appeal must retain an existing parent record"
      | Some parent =>
          require (bool_decide (disposition (verdict parent) ∈ _ADVERSE)) CourtProtocolError
            "appeals are only available after rejected or quarantined verdicts" ;?
          match appeals_judges r with
          | [judge] =>
              require (String.eqb (decided_by (verdict r)) (identity judge)) CourtProtocolError
                "appeal verdict requires its assigned appeals judge" ;?
              require (negb (mem (identity judge) (map (fun b => identity (participant b)) (briefs parent)))) CourtProtocolError
                "appeals judge must be distinct from the original court" ;?
              require (negb (forallb (fun e => mem e (cited parent)) (cited r))) CourtProtocolError
                "appeal requires materially new retained evidence"
          | _ => raise CourtProtocolError "appeal verdict requires its assigned appeals judge"
          end
      end
  end ;?
  Ok (h ++ [r]).

(** [record_case]: the record is constructed, then appended. *)
Definition record_case (h : history) (c : CourtCase) (bs : list CourtBrief) (v : CourtVerdict) (parent : option string) : result history :=
  let r := {| record_case_of := c; briefs := bs; verdict := v; appeal_of := parent |} in
  check_record r ;?
  append h r.

(** [CourtHistory.dissent] *)
Definition dissent (h : history) : list string :=
  dedup (concat (map (fun r => verdict_dissent (verdict r)
                               ++ List.filter (fun s => negb (String.eqb s "")) (omap brief_dissent (briefs r))) h)).

(** A caller constructs the participants, briefs, case and verdict and records
    the case. *)
Record filing := { f_case : CourtCase; f_briefs : list CourtBrief; f_verdict : CourtVerdict; f_appeal : option string }.
Definition file_case (h : history) (f : filing) : result history :=
  let? c := new_case (f_case f) in
  each (fun b => check_participant (participant b)) (f_briefs f) ;?
  let? bs := map_result new_brief (f_briefs f) in
  let? v := new_verdict (f_verdict f) in
  record_case h c bs v (f_appeal f).

(** The history after some filings, the refused ones included. *)
Definition try_file (h : history) (f : filing) : history := match file_case h f with Ok h' => h' | Raise _ => h end.
Definition filings (fs : list filing) : history := fold_left try_file fs [].

(** ** What a record that passed its checks is *)

Definition seats_of (r : CourtRecord) : list CourtSeat := map seat (map participant (briefs r)).
Definition identities_of (r : CourtRecord) : list string := map identity (map participant (briefs r)).

Record panel_ok (r : CourtRecord) : Prop := {
  po_required : forall s, s ∈ REQUIRED_SEATS -> s ∈ seats_of r;
  po_seats : NoDup (seats_of r);
  po_identities : NoDup (identities_of r);
  po_tasks : forall p q, p ∈ map participant (briefs r) -> q ∈ map participant (briefs r) ->
    seat p = ADVOCATE -> seat q = CROSS_EXAMINER -> task p <> task q;
  po_decider : exists p, p ∈ map participant (briefs r) /\ identity p = decided_by (verdict r)
    /\ (seat p = APPEALS_JUDGE \/ (seat p = JUDGE /\ APPEALS_JUDGE ∉ seats_of r))
    /\ identity p ∉ source_identities (record_case_of r);
  po_cheating : disposition (verdict r) ∈ _APPROVING ->
    forall k, k ∈ consultations (record_case_of r) -> Consultation.r_cheating k <> Consultation.UNRESOLVED;
  po_evidence : verdict_evidence (verdict r) <> [] /\ forall b, b ∈ briefs r -> brief_evidence b <> [];
  po_bound : verdict_case (verdict r) = record_id_of r }.

(** An appeal against the records before it. *)
Definition appeal_ok (before : history) (r : CourtRecord) : Prop :=
  forall parent_id, appeal_of r = Some parent_id ->
  exists parent judge, parent ∈ before /\ record_id_of parent = parent_id
    /\ disposition (verdict parent) ∈ _ADVERSE
    /\ judge ∈ map participant (briefs r) /\ seat judge = APPEALS_JUDGE /\ identity judge = decided_by (verdict r)
    /\ identity judge ∉ identities_of parent
    /\ exists e, e ∈ cited r /\ e ∉ cited parent.

Record history_ok (h : history) : Prop := {
  ho_ids : NoDup (map record_id_of h);
  ho_panels : forall r, r ∈ h -> panel_ok r;
  ho_appeals : forall l1 r l2, h = l1 ++ r :: l2 -> appeal_ok l1 r }.

Lemma by_seat_spec ps s p : by_seat ps s = Some p -> p ∈ ps /\ seat p = s.
Proof. intros H. apply find_some in H as [Hin E]. split; [by apply list_elem_of_In|by apply bool_decide_eq_true in E]. Qed.

Lemma by_seat_none ps s : by_seat ps s = None -> s ∉ map seat ps.
Proof.
  intros H (p & -> & Hin)%list_elem_of_fmap. apply list_elem_of_In in Hin. apply (List.find_none _ _ H) in Hin.
  by apply bool_decide_eq_false in Hin.
Qed.

Lemma same_seat ps p q : NoDup (map seat ps) -> p ∈ ps -> q ∈ ps -> seat p = seat q -> p = q.
Proof.
  intros Hn. induction ps as [|x ps IH]; intros Hp Hq E; [by apply elem_of_nil in Hp|]. cbn in Hn. apply NoDup_cons in Hn as [Hx Hn].
  apply elem_of_cons in Hp as [->|Hp]; apply elem_of_cons in Hq as [->|Hq]; [done| | |by apply IH].
  - exfalso. apply Hx. rewrite E. by apply list_elem_of_fmap_2.
  - exfalso. apply Hx. rewrite <- E. by apply list_elem_of_fmap_2.
Qed.

Lemma validate_panel_ok c bs v : _validate_panel c bs v = Ok tt ->
  verdict_case v = case_id c -> verdict_evidence v <> [] -> (forall b, b ∈ bs -> brief_evidence b <> []) ->
  forall parent, panel_ok {| record_case_of := c; briefs := bs; verdict := v; appeal_of := parent |}.
Proof.
  intros H Hb Hv Hbs parent. unfold _validate_panel in H. take_guard H H1. take_guard H H2. take_guard H H3.
  destruct (by_seat _ ADVOCATE) as [advocate|] eqn:Ea; [|done]. destruct (by_seat _ CROSS_EXAMINER) as [examiner|] eqn:Ee; [|done].
  destruct (deciding_participant _) as [deciding|] eqn:Ed; [|done].
  take_guard H H4. take_guard H H5. take_guard H H6. take_ok H u H7. apply require_ok in H. clear u H7.
  apply by_seat_spec in Ea as [Ha1 Ha2], Ee as [He1 He2].
  assert (Hn : NoDup (map seat (map participant bs))) by (by eapply bool_decide_eq_true).
  split; unfold seats_of, identities_of; cbn; try done.
  - intros s Hs. rewrite forallb_forall in H1. apply list_elem_of_In in Hs. apply H1 in Hs. by apply bool_decide_eq_true in Hs.
  - by eapply bool_decide_eq_true.
  - intros p q Hp Hq Ep Eq. rewrite (same_seat _ p advocate Hn Hp Ha1), (same_seat _ q examiner Hn Hq He1) by congruence. by bool_hyps.
  - exists deciding. assert (Hd : deciding ∈ map participant bs /\ (seat deciding = APPEALS_JUDGE
        \/ (seat deciding = JUDGE /\ APPEALS_JUDGE ∉ map seat (map participant bs)))).
    { unfold deciding_participant in Ed. destruct (by_seat _ APPEALS_JUDGE) as [p|] eqn:Ep.
      - injection Ed as ->. apply by_seat_spec in Ep as [? ?]. auto.
      - apply by_seat_spec in Ed as [? ?]. apply by_seat_none in Ep. auto. }
    destruct Hd as [Hd1 Hd2]. split; [done|]. split; [by apply String.eqb_eq|]. split; [done|].
    intros Hin. apply mem_spec in Hin. by rewrite Hin in H6.
  - intros Hap k Hk Ek. apply negb_true_iff in H. rewrite (bool_decide_eq_true_2 _ Hap), andb_true_r in H.
    apply not_true_iff_false in H. apply H, existsb_exists. exists k. split; [by apply list_elem_of_In|by apply bool_decide_eq_true].
Qed.

Lemma references_return l label l' : _references l label = Ok l' -> l' <> [].
Proof.
  unfold _references. intros H. take_guard H E. injection H as <-. bool_hyps. destruct l as [|x l]; [done|].
  intros E. assert (Hx : x ∈ dedup (x :: l)) by (apply elem_of_dedup; by left). rewrite E in Hx. by apply elem_of_nil in Hx.
Qed.

(** What a filing that was accepted appends. *)
Lemma file_case_returns h f h' : file_case h f = Ok h' ->
  exists r, h' = h ++ [r] /\ panel_ok r /\ record_id_of r ∉ map record_id_of h /\ appeal_ok h r.
Proof.
  intros H. unfold file_case in H. take_ok H c Ec. take_ok H u Eu. take_ok H bs Ebs. take_ok H v Ev.
  unfold record_case in H. take_ok H u2 Er. unfold check_record in Er. cbn in Er. take_guard Er E1. take_guard Er E2. take_ok Er u3 E3. destruct u3.
  set (r := {| record_case_of := c; briefs := bs; verdict := v; appeal_of := f_appeal f |}) in *.
  unfold append in H. take_guard H E4. take_ok H u4 E5. injection H as <-. exists r. split; [done|]. split; [|split].
  - apply validate_panel_ok; [done|by apply String.eqb_eq| |].
    + unfold new_verdict in Ev. take_ok Ev u5 E6. take_ok Ev u6 E7. take_ok Ev rs E8. take_ok Ev es E9. take_guard Ev E10.
      injection Ev as <-. cbn. by eapply references_return.
    + intros b Hb. apply (map_result_elem _ _ _ _ Ebs) in Hb as (x & _ & Ex). unfold new_brief in Ex. take_ok Ex u5 E6. take_ok Ex es E7.
      take_ok Ex u6 E8. injection Ex as <-. cbn. by eapply references_return.
  - apply negb_true_iff, not_true_iff_false in E4. intros (x & Ex & Hx)%list_elem_of_fmap. apply E4, existsb_exists. exists x.
    split; [by apply list_elem_of_In|]. by apply String.eqb_eq.
  - intros parent_id Ep. rewrite Ep in E5. unfold find_record in E5. destruct (List.find _ h) as [parent|] eqn:Ef; [|done].
    apply find_some in Ef as [Hin Eid]. apply list_elem_of_In in Hin. apply String.eqb_eq in Eid. take_guard E5 E6.
    destruct (appeals_judges r) as [|judge [|? ?]] eqn:Ej; [done| |done]. take_guard E5 E7. take_guard E5 E8. apply require_ok in E5.
    assert (Hj : judge ∈ appeals_judges r) by (rewrite Ej; by left). unfold appeals_judges in Hj.
    apply list_elem_of_In, List.filter_In in Hj as [Hj Es]. apply list_elem_of_In in Hj.
    exists parent, judge. split; [done|]. split; [done|]. split; [by apply bool_decide_eq_true in E6|]. split; [done|].
    split; [by apply bool_decide_eq_true in Es|]. split; [by apply String.eqb_eq in E7|]. split.
    + intros Hin'. unfold identities_of in Hin'. rewrite map_map in Hin'. apply mem_spec in Hin'. by rewrite Hin' in E8.
    + apply negb_true_iff, forallb_exists_false in E5 as (e & He & En). exists e. split; [done|]. intros He'. apply mem_spec in He'. congruence.
Qed.

Lemma filings_ok fs : history_ok (filings fs).
Proof.
  unfold filings. apply fold_left_inv.
  - split; [constructor|intros r H; by apply elem_of_nil in H|intros l1 r l2 H; by destruct l1].
  - intros h f [H1 H2 H3]. unfold try_file. destruct (file_case h f) as [h'|e] eqn:E; [|done].
    apply file_case_returns in E as (r & -> & Hp & Hn & Ha). split.
    + rewrite map_app. apply NoDup_app. split; [done|]. split; [|apply NoDup_singleton]. intros x Hx Hin. apply list_elem_of_singleton in Hin as ->. done.
    + intros x [Hx|Hx]%elem_of_app; [by apply H2|]. by apply list_elem_of_singleton in Hx as ->.
    + intros l1 x l2 E. destruct (snoc_split _ _ _ _ _ E) as [[-> [-> ->]]|(l3 & -> & ->)]; [done|by apply (H3 l1 x l3)].
Qed.

Lemma filings_grow fs gs : filings fs `prefix_of` filings (fs ++ gs).
Proof.
  unfold filings. rewrite fold_left_app. generalize (fold_left try_file fs []) as h. induction gs as [|g gs IH]; intros h; [done|]. cbn.
  etrans; [|apply IH]. unfold try_file. destruct (file_case h g) as [h'|e] eqn:E; [|done].
  apply file_case_returns in E as (r & -> & _). by apply prefix_app_r.
Qed.

(** C17: the court's history is sound and append-only.  Whatever cases are filed,
    every record kept has each required seat filled exactly once, by pairwise
    different identities, with different tasks for the advocate and the
    cross-examiner; the verdict is the one of the assigned judge, and that
    judge is none of the identities whose work is judged; every brief and the
    verdict cite evidence; an approving verdict leaves no suspicion of cheating
    open; an appeal follows an earlier adverse record, is decided by an appeals
    judge who did not sit in it, and cites something that record did not.  Case
    ids are never reused, and later filings only add records. *)
Theorem court_history_sound fs gs : history_ok (filings fs) /\ filings fs `prefix_of` filings (fs ++ gs).
Proof. split; [apply filings_ok|apply filings_grow]. Qed.

End Court.
