(* ===== verification/Promotion.v ===== *)
(** * Promotion decisions

    [brain_kernel/promotion.py], the candidates, decisions and the append-only
    decision log.  A decision rests on a record of the court ([Court]) and may
    carry an authorization ([PromotionAuth]).  The evaluation subject and the
    evaluation record a decision carries are documents this part never looks
    into.  [PromotionAuthority], which moves champion pointers in the prompt
    registry's files, is not modelled. *)

From S2P Require Import Prelude Canonical PyLib Policy Contracts Consultation PromotionAuth Court.
From Stdlib Require Import Ascii.

Module Promotion.
Export Contracts.

(** [ExperimentVerdict] *)
Inductive ExperimentVerdict := KEEP | RETEST | DISCARD | QUARANTINE | STOP.

#[global] Instance verdict_eq_dec : EqDecision ExperimentVerdict.
Proof. solve_decision. Defined.

Definition verdict_value (v : ExperimentVerdict) : string :=
  match v with KEEP => "keep" | RETEST => "retest" | DISCARD => "discard" | QUARANTINE => "quarantine" | STOP => "stop" end.
Definition verdicts : list ExperimentVerdict := [KEEP; RETEST; DISCARD; QUARANTINE; STOP].

Definition _TERMINAL_VERDICTS : list ExperimentVerdict := [KEEP; DISCARD; QUARANTINE; STOP].
Definition _COMPATIBLE_DISPOSITIONS (v : ExperimentVerdict) : list Court.CourtDisposition :=
  match v with
  | KEEP => [Court.ADOPT; Court.ADAPT]
  | RETEST => [Court.DEFER]
  | DISCARD => [Court.REJECT]
  | QUARANTINE => [Court.QUARANTINED]
  | STOP => [Court.DEFER; Court.REJECT]
  end.

Definition _text (value label : string) : result unit :=
  require (negb (is_blank value)) PromotionAuthorityError (label +:+ " is required")%stdpp.
Definition _refs (values : list string) (label : string) : result (list string) :=
  require (negb (bool_decide (values = [])) && forallb (fun s => negb (is_blank s)) values) PromotionAuthorityError
    (label +:+ " require at least one retained reference")%stdpp ;?
  require (Nat.eqb (length (dedup values)) (length values)) PromotionAuthorityError (label +:+ " must be unique")%stdpp ;?
  Ok values.
Definition _artifact_digest (value label : string) : result string :=
  _text value label ;?
  require (startswith "sha256:" value && (str_len (drop_bytes 7 value) =? 64) && all_chars is_hex (drop_bytes 7 value))
    PromotionAuthorityError (label +:+ " must be a canonical sha256:<64 lowercase hex> digest")%stdpp ;?
  Ok value.

(** ** Candidates *)

Record PromotionCandidate := {
  candidate_id : string;
  c_role : string;
  experiment_id : string;
  artifact_digest : string;
  parent_champion_digest : option string;
  proposer_id : string;
  builder_id : string;
  c_evidence : list string }.

(** [PromotionCandidate(...)]: the fields as given, or as normalised by the
    constructor, which changes none of them. *)
Definition check_candidate (c : PromotionCandidate) : result unit :=
  _text (candidate_id c) "candidate id" ;?
  require (mem (c_role c) (map Policy.role_value Policy.all_roles)) PromotionAuthorityError "candidate role is not a kernel role" ;?
  _text (experiment_id c) "experiment id" ;?
  let? _ := _artifact_digest (artifact_digest c) "candidate artifact digest" in
  match parent_champion_digest c with
  | Some p => let? _ := _artifact_digest p "parent champion digest" in Ok tt
  | None => Ok tt
  end ;?
  _text (proposer_id c) "proposer id" ;?
  _text (builder_id c) "builder id" ;?
  require (negb (bool_decide (Some (artifact_digest c) = parent_champion_digest c))) PromotionAuthorityError
    "a challenger cannot mutate the live champion in place" ;?
  require (negb (String.eqb (proposer_id c) (builder_id c))) PromotionAuthorityError "proposer and builder identities must be distinct" ;?
  let? _ := _refs (c_evidence c) "candidate evidence refs" in
  Ok tt.

Definition candidate_document (c : PromotionCandidate) : json :=
  JObj [("candidate_id", JStr (candidate_id c)); ("role", JStr (c_role c)); ("experiment_id", JStr (experiment_id c));
        ("artifact_digest", JStr (artifact_digest c)); ("parent_champion_digest", opt_str (parent_champion_digest c));
        ("proposer_id", JStr (proposer_id c)); ("builder_id", JStr (builder_id c)); ("evidence_refs", strs (c_evidence c))].

(** ** Decisions *)

(** The [authorization] argument: none, a constructed one or a document. *)
Inductive given_authorization := Unsigned | Built (a : PromotionAuth.authorization) | Document (d : json).

Record PromotionDecision := {
  decision_id : string;
  court_case_id : string;
  candidate : PromotionCandidate;
  verdict : ExperimentVerdict;
  judge_id : string;
  evaluator_id : string;
  reasons : list string;
  contract_fingerprint : string;
  decided_at : string;
  evaluation_subject : option json;
  evaluation_record : option json;
  promoter_id : option string;
  decision_authorization : given_authorization;
  action : string }.

Definition bound_identities (d : PromotionDecision) : list string :=
  [proposer_id (candidate d); builder_id (candidate d); evaluator_id d; judge_id d].

(** [PromotionDecision(...)] of a constructed candidate, at the moment [now]
    reads: the authorization is parsed and a blank moment filled in. *)
Definition new_decision (now : string) (d : PromotionDecision) : result PromotionDecision :=
  require (mem (action d) ["apply"; "rollback"]) PromotionAuthorityError "unknown promotion action" ;?
  let? authorization := match decision_authorization d with
                        | Document j => let? a := PromotionAuth.authorization_from_document j in Ok (Built a)
                        | given => Ok given
                        end in
  _text (decision_id d) "decision id" ;?
  _text (court_case_id d) "court case id" ;?
  _text (judge_id d) "judge id" ;?
  _text (evaluator_id d) "evaluator id" ;?
  let? kept := _refs (reasons d) "decision reasons" in
  _text (contract_fingerprint d) "contract fingerprint" ;?
  let decided := if is_blank (decided_at d) then now else decided_at d in
  match promoter_id d with
  | Some p => _text p "promoter id" ;?
              require (negb (mem p (bound_identities d))) PromotionAuthorityError
                "promoter must be independent of proposer, builder, evaluator, and judge"
  | None => Ok tt
  end ;?
  require (Nat.eqb (length (dedup (bound_identities d))) 4) PromotionAuthorityError
    "promotion requires four distinct proposer, builder, evaluator, and judge identities" ;?
  Ok {| decision_id := decision_id d; court_case_id := court_case_id d; candidate := candidate d; verdict := verdict d;
        judge_id := judge_id d; evaluator_id := evaluator_id d; reasons := kept; contract_fingerprint := contract_fingerprint d;
        decided_at := decided; evaluation_subject := evaluation_subject d; evaluation_record := evaluation_record d;
        promoter_id := promoter_id d; decision_authorization := authorization; action := action d |}.

Definition binding_digest (d : PromotionDecision) : string := canonical_digest (candidate_document (candidate d)).

(** ** The decision log *)

Definition log : Type := list PromotionDecision.
Definition for_candidate (l : log) (id : string) : log := List.filter (fun d => String.eqb (candidate_id (candidate d)) id) l.

(** [PromotionDecisionLog.append] *)
Definition append (l : log) (d : PromotionDecision) (court : Court.history) : result log :=
  require (negb (existsb (fun x => String.eqb (decision_id x) (decision_id d)) l)) PromotionAuthorityError
    "promotion decision ids are append-only and cannot be replaced" ;?
  require (negb (existsb (fun x => String.eqb (court_case_id x) (court_case_id d)) l)) PromotionAuthorityError
    "one promotion decision per court case is allowed" ;?
  match Court.find_record court (court_case_id d) with
  | None => raise PromotionAuthorityError "promotion requires an independent court record for its case id"
  | Some record =>
      require (String.eqb (Court.subject (Court.record_case_of record)) (artifact_digest (candidate d))) PromotionAuthorityError
        "court record is not bound to the candidate artifact digest" ;?
      require (String.eqb (Court.decided_by (Court.verdict record)) (judge_id d)) PromotionAuthorityError
        "promotion judge must be the court verdict's deciding identity" ;?
      require (subset [proposer_id (candidate d); builder_id (candidate d); evaluator_id d]
                      (Court.affected_identities (Court.record_case_of record))) PromotionAuthorityError
        "proposer, builder, and evaluator must be declared affected identities of the court case" ;?
      require (bool_decide (Court.disposition (Court.verdict record) ∈ _COMPATIBLE_DISPOSITIONS (verdict d))) PromotionAuthorityError
        "court disposition does not authorize this promotion verdict" ;?
      require (negb (bool_decide (verdict d = KEEP) && negb (bool_decide (Court.claim_kind (Court.record_case_of record) = Court.SUPERIORITY))))
        PromotionAuthorityError "a KEEP verdict requires a superiority claim before the court" ;?
      require (negb (existsb (fun x => bool_decide (verdict x ∈ _TERMINAL_VERDICTS)) (for_candidate l (candidate_id (candidate d)))))
        PromotionAuthorityError "a terminal verdict for this candidate is append-only" ;?
      Ok (l ++ [d])
  end.

(** ** The decisions of a log *)

(** A caller constructs the candidate and the decision and appends it, showing
    the court history some filings led to. *)
Record attempt := { a_now : string; a_decision : PromotionDecision; a_court : list Court.filing }.
Definition decide (l : log) (a : attempt) : result log :=
  check_candidate (candidate (a_decision a)) ;?
  let? d := new_decision (a_now a) (a_decision a) in
  append l d (Court.filings (a_court a)).
Definition try_decide (l : log) (a : attempt) : log := match decide l a with Ok l' => l' | Raise _ => l end.
Definition decisions (attempts : list attempt) : log := fold_left try_decide attempts [].

(** A decision the court supports. *)
Record supported (court : Court.history) (d : PromotionDecision) : Prop := {
  su_identities : NoDup (bound_identities d) /\ forall p, promoter_id d = Some p -> p ∉ bound_identities d;
  su_new : Some (artifact_digest (candidate d)) <> parent_champion_digest (candidate d);
  su_record : exists r, r ∈ court /\ Court.panel_ok r /\ Court.record_id_of r = court_case_id d
    /\ Court.subject (Court.record_case_of r) = artifact_digest (candidate d)
    /\ Court.decided_by (Court.verdict r) = judge_id d
    /\ (forall x, x ∈ [proposer_id (candidate d); builder_id (candidate d); evaluator_id d] ->
         x ∈ Court.affected_identities (Court.record_case_of r))
    /\ Court.disposition (Court.verdict r) ∈ _COMPATIBLE_DISPOSITIONS (verdict d)
    /\ (verdict d = KEEP -> Court.claim_kind (Court.record_case_of r) = Court.SUPERIORITY
         /\ forall k, k ∈ Court.consultations (Court.record_case_of r) -> Consultation.r_cheating k <> Consultation.UNRESOLVED) }.

Record log_ok (attempts : list attempt) (l : log) : Prop := {
  lo_ids : NoDup (map decision_id l);
  lo_cases : NoDup (map court_case_id l);
  lo_supported : forall d, d ∈ l -> exists a, a ∈ attempts /\ supported (Court.filings (a_court a)) d;
  lo_terminal : forall l1 d l2, l = l1 ++ d :: l2 -> forall x, x ∈ l1 ->
    candidate_id (candidate x) = candidate_id (candidate d) -> verdict x = RETEST }.

Lemma fresh_id {A} (f : A -> string) l x : negb (existsb (fun y => String.eqb (f y) (f x)) l) = true -> f x ∉ map f l.
Proof.
  intros E (y & Ey & Hy)%list_elem_of_fmap. apply negb_true_iff, not_true_iff_false in E. apply E, existsb_exists. exists y.
  split; [by apply list_elem_of_In|]. by apply String.eqb_eq.
Qed.

Lemma NoDup_snoc_fresh (l : list string) x : NoDup l -> x ∉ l -> NoDup (l ++ [x]).
Proof. intros Hl Hx. apply NoDup_app. split; [done|]. split; [|apply NoDup_singleton]. by intros y Hy ->%list_elem_of_singleton. Qed.

Lemma dedup_full (l : list string) : length (dedup l) = length l -> NoDup l.
Proof.
  intros H. assert (Hp : dedup l ≡ₚ l).
  { apply submseteq_length_Permutation; [|lia]. apply NoDup_submseteq; [apply NoDup_dedup|]. intros x. apply elem_of_dedup. }
  rewrite <- Hp. apply NoDup_dedup.
Qed.

Lemma new_decision_returns now d d' : new_decision now d = Ok d' ->
  candidate d' = candidate d /\ NoDup (bound_identities d') /\ (forall p, promoter_id d' = Some p -> p ∉ bound_identities d').
Proof.
  unfold new_decision. intros H. take_guard H E1. take_ok H auth E2. take_ok H u3 E3. take_ok H u4 E4. take_ok H u5 E5. take_ok H u6 E6.
  take_ok H kept E7. take_ok H u8 E8. take_ok H u9 E9. take_guard H E10. injection H as <-. split; [done|].
  split; [apply dedup_full; by apply Nat.eqb_eq in E10|]. cbn. intros p Hp. rewrite Hp in E9. take_ok E9 u10 E11. apply require_ok in E9.
  intros Hin. apply mem_spec in Hin. unfold bound_identities in *. cbn in Hin. by rewrite Hin in E9.
Qed.

Lemma candidate_differs c : check_candidate c = Ok tt -> Some (artifact_digest c) <> parent_champion_digest c.
Proof.
  unfold check_candidate. intros H. take_ok H u1 E1. take_guard H E2. take_ok H u3 E3. take_ok H u4 E4. take_ok H u5 E5. take_ok H u6 E6.
  take_ok H u7 E7. take_guard H E8. by bool_hyps.
Qed.

(** What an accepted attempt appends. *)
Lemma decide_returns l a l' : decide l a = Ok l' ->
  exists d, l' = l ++ [d] /\ supported (Court.filings (a_court a)) d /\ decision_id d ∉ map decision_id l /\ court_case_id d ∉ map court_case_id l
    /\ forall x, x ∈ l -> candidate_id (candidate x) = candidate_id (candidate d) -> verdict x = RETEST.
Proof.
  unfold decide. intros H. take_ok H u Ec. destruct u. take_ok H d Ed. apply candidate_differs in Ec.
  apply new_decision_returns in Ed as (Hc & Hn & Hp). rewrite <- Hc in Ec. unfold append in H.
  take_guard H E1. take_guard H E2. destruct (Court.find_record _ _) as [r|] eqn:Er; [|done].
  take_guard H E3. take_guard H E4. take_guard H E5. take_guard H E6. take_guard H E7. take_guard H E8. injection H as <-.
  apply find_some in Er as [Hr Eid]. apply list_elem_of_In in Hr. apply fresh_id in E1, E2. rewrite subset_spec in E5.
  apply negb_true_iff in E7. bool_hyps.
  exists d. split; [done|]. split; [|split; [done|split; [done|]]].
  - split; [done..|]. exists r. destruct (Court.filings_ok (a_court a)) as [_ Hpanels _]. split; [done|]. split; [by apply Hpanels|].
    do 5 (split; [done|]). intros Hv. split.
    + apply andb_false_iff in E7 as [E7|E7]; bool_hyps; done.
    + apply (Court.po_cheating r (Hpanels r Hr)). rewrite Hv in E6. exact E6.
  - intros x Hx Ex. apply not_true_iff_false in E8. destruct (verdict x) eqn:Ev; [|done|..]; exfalso; apply E8, existsb_exists; exists x;
      (split; [apply List.filter_In; split; [by apply list_elem_of_In|by apply String.eqb_eq]|apply bool_decide_eq_true; rewrite Ev; set_solver]).
Qed.

Lemma decisions_ok attempts : log_ok attempts (decisions attempts).
Proof.
  induction attempts as [|a attempts IH] using rev_ind.
  - split; [constructor|constructor|intros d H; by apply elem_of_nil in H|intros l1 d l2 H; by destruct l1].
  - unfold decisions in *. rewrite fold_left_app. cbn. destruct IH as [H1 H2 H3 H4].
    assert (H3' : forall d, d ∈ fold_left try_decide attempts [] -> exists b, b ∈ attempts ++ [a] /\ supported (Court.filings (a_court b)) d).
    { intros d (b & Hb & Hs)%H3. exists b. split; [apply elem_of_app; by left|done]. }
    revert H1 H2 H3 H3' H4. generalize (fold_left try_decide attempts []) as l. intros l H1 H2 H3 H3' H4.
    unfold try_decide. destruct (decide l a) as [l'|e] eqn:E; [|by split].
    apply decide_returns in E as (d & -> & Hs & Hi & Hc & Ht). split.
    + rewrite map_app. by apply NoDup_snoc_fresh.
    + rewrite map_app. by apply NoDup_snoc_fresh.
    + intros x [Hx|Hx]%elem_of_app; [by apply H3'|]. apply list_elem_of_singleton in Hx as ->. exists a. split; [apply elem_of_app; right; by left|done].
    + intros l1 x l2 E. destruct (snoc_split _ _ _ _ _ E) as [[-> [-> ->]]|(l3 & -> & ->)]; [done|by eapply H4].
Qed.

Lemma decisions_grow attempts more : decisions attempts `prefix_of` decisions (attempts ++ more).
Proof.
  unfold decisions. rewrite fold_left_app. generalize (fold_left try_decide attempts []) as l. induction more as [|a more IH]; intros l; [done|]. cbn.
  etrans; [|apply IH]. unfold try_decide. destruct (decide l a) as [l'|e] eqn:E; [|done].
  apply decide_returns in E as (r & -> & _). by apply prefix_app_r.
Qed.

(** C9: every logged promotion decision was judged independently.  Whatever
    candidates, decisions and court filings are attempted, each decision kept
    has four different identities for proposer, builder, evaluator and judge,
    none of them its promoter; it rests on a record of the court, sound in
    itself, whose subject is the candidate's artifact, whose verdict that very
    judge gave, which declares the other three affected and whose disposition
    agrees with the decision; to keep a candidate takes a superiority claim
    with no suspicion of cheating left open.  No decision id or court case
    serves twice, nothing follows a terminal verdict on a candidate, and later
    attempts only add decisions. *)
Theorem promotions_judged_independently attempts more :
  log_ok attempts (decisions attempts) /\ decisions attempts `prefix_of` decisions (attempts ++ more).
Proof. split; [apply decisions_ok|apply decisions_grow]. Qed.

(** ** A sample promotion *)

Module SamplePromotion.
Definition artifact : string := ("sha256:" +:+ String.concat "" (repeat "ab" 32))%stdpp.
Definition brief (s : Court.CourtSeat) (who : string) : Court.CourtBrief :=
  {| Court.participant := {| Court.seat := s; Court.identity := who; Court.task := ("task of " +:+ who)%stdpp; Court.identity_kind := "model_role" |};
     Court.conclusion := "sound"; Court.brief_evidence := ["e1"]; Court.role_result_refs := []; Court.consultation_refs := [];
     Court.brief_dissent := None |}.
Definition trial (kind : Court.CourtClaimKind) : Court.filing :=
  {| Court.f_case := {| Court.case_id := "case-1"; Court.claim_kind := kind; Court.subject := artifact;
                        Court.affected_identities := ["proposer"; "builder"; "evaluator"]; Court.role_results := []; Court.consultations := [] |};
     Court.f_briefs := [brief Court.ADVOCATE "ann"; brief Court.CROSS_EXAMINER "bob"; brief Court.EXPERT_WITNESS "eve"; brief Court.JUDGE "judge"];
     Court.f_verdict := {| Court.verdict_case := "case-1"; Court.disposition := Court.ADOPT; Court.decided_by := "judge";
                           Court.verdict_reasons := ["better"]; Court.verdict_evidence := ["e1"]; Court.verdict_dissent := [] |};
     Court.f_appeal := None |}.
Definition kept : PromotionDecision :=
  {| decision_id := "d1"; court_case_id := "case-1";
     candidate := {| candidate_id := "c1"; c_role := "builder"; experiment_id := "x1"; artifact_digest := artifact; parent_champion_digest := None;
                     proposer_id := "proposer"; builder_id := "builder"; c_evidence := ["e1"] |};
     verdict := KEEP; judge_id := "judge"; evaluator_id := "evaluator"; reasons := ["better"]; contract_fingerprint := "f";
     decided_at := ""; evaluation_subject := None; evaluation_record := None; promoter_id := Some "promoter";
     decision_authorization := Unsigned; action := "apply" |}.
Definition tried (kind : Court.CourtClaimKind) : attempt := {| a_now := "2026-01-01"; a_decision := kept; a_court := [trial kind] |}.

Example kept_once : map decided_at (decisions [tried Court.SUPERIORITY; tried Court.SUPERIORITY]) = ["2026-01-01"].
Proof. vm_compute. reflexivity. Qed.
Example ordinary_claim_refused : decisions [tried Court.ORDINARY] = [].
Proof. vm_compute. reflexivity. Qed.
End SamplePromotion.

End Promotion.
