(* ===== verification/MemoryRecords.v ===== *)
(** * Memory records

    [MemoryRecord] and [MemoryState] of [brain_kernel/contracts.py]: the
    constructor, the document a record is written to, and reading it back.  A
    constructed record always validates against its schema, so nothing that
    was stored is refused when it is read. *)

From S2P Require Import Prelude Sha256 Canonical PyLib Schema Contracts WorkItems.
From Stdlib Require Import Ascii.

Module MemoryRecords.
Export WorkItems.

(** ** Lifecycle states *)

Inductive MemoryState :=
| R_ACTIVE | R_SUPERSEDED | R_CONTRADICTED | R_RETRACTED | R_EXPIRED | R_QUARANTINED.

#[global] Instance memory_state_eq_dec : EqDecision MemoryState.
Proof. solve_decision. Defined.

Definition memory_states : list MemoryState :=
  [R_ACTIVE; R_SUPERSEDED; R_CONTRADICTED; R_RETRACTED; R_EXPIRED; R_QUARANTINED].
Definition memory_value (s : MemoryState) : string :=
  match s with
  | R_ACTIVE => "ACTIVE" | R_SUPERSEDED => "SUPERSEDED" | R_CONTRADICTED => "CONTRADICTED"
  | R_RETRACTED => "RETRACTED" | R_EXPIRED => "EXPIRED" | R_QUARANTINED => "QUARANTINED"
  end.
Definition memory_state_of : json -> result MemoryState := enum_of "MemoryState" memory_states memory_value.

(** ** Records *)

Record MemoryRecord := {
  record_id : string;
  memory_class : string;
  scope : string;
  subject_keys : list string;
  content_ref : string;
  source_refs : list string;
  authority_level : string;
  sensitivity : string;
  valid_from : string;
  valid_to : option string;
  recorded_at : string;
  available_at : string;
  record_state : MemoryState;
  supersedes : list string;
  superseded_by : list string;
  evaluator_id : option string;
  outcome_refs : list string;
  retention_policy : string;
  record_digest : string }.

#[global] Instance memory_record_eq_dec : EqDecision MemoryRecord.
Proof. solve_decision. Defined.

Definition SCOPES : list string := ["global"; "repository"; "mission"; "role"; "work_item"].

(** [MemoryRecord.__post_init__] *)
Definition check_memory_record (r : MemoryRecord) : result unit :=
  _identifier (JStr (record_id r)) K_memory ;?
  _require (JStr (memory_class r)) "memory_class" ;?
  require (mem (scope r) SCOPES) ValueError "invalid memory scope" ;?
  _require (JStr (content_ref r)) "content_ref" ;?
  _time (JStr (valid_from r)) "valid_from" ;?
  _time (JStr (recorded_at r)) "recorded_at" ;?
  _time (JStr (available_at r)) "available_at" ;?
  match valid_to r with Some t => _time (JStr t) "valid_to" | None => Ok tt end ;?
  _require (JStr (retention_policy r)) "retention_policy" ;?
  _digest (JStr (record_digest r)) "digest".

(** [MemoryRecord.to_document] *)
Definition record_to_document (r : MemoryRecord) : contract :=
  [("record_id", JStr (record_id r)); ("memory_class", JStr (memory_class r)); ("scope", JStr (scope r));
   ("subject_keys", strs (subject_keys r)); ("content_ref", JStr (content_ref r));
   ("source_refs", strs (source_refs r)); ("authority_level", JStr (authority_level r));
   ("sensitivity", JStr (sensitivity r)); ("valid_from", JStr (valid_from r)); ("valid_to", opt_str (valid_to r));
   ("recorded_at", JStr (recorded_at r)); ("available_at", JStr (available_at r));
   ("state", JStr (memory_value (record_state r))); ("supersedes", strs (supersedes r));
   ("superseded_by", strs (superseded_by r)); ("evaluator_id", opt_str (evaluator_id r));
   ("outcome_refs", strs (outcome_refs r)); ("retention_policy", JStr (retention_policy r));
   ("digest", JStr (record_digest r))].

(** The keyword arguments of [MemoryRecord] in a document the schema accepts. *)
Definition record_of (d : contract) (state : MemoryState) : MemoryRecord :=
  {| record_id := str_field "record_id" d; memory_class := str_field "memory_class" d; scope := str_field "scope" d;
     subject_keys := strs_field "subject_keys" d; content_ref := str_field "content_ref" d;
     source_refs := strs_field "source_refs" d; authority_level := str_field "authority_level" d;
     sensitivity := str_field "sensitivity" d; valid_from := str_field "valid_from" d;
     valid_to := as_str (get "valid_to" d); recorded_at := str_field "recorded_at" d;
     available_at := str_field "available_at" d; record_state := state; supersedes := strs_field "supersedes" d;
     superseded_by := strs_field "superseded_by" d; evaluator_id := as_str (get "evaluator_id" d);
     outcome_refs := strs_field "outcome_refs" d; retention_policy := str_field "retention_policy" d;
     record_digest := str_field "digest" d |}.

(** [MemoryRecord.from_document] *)
Definition record_from_document (document : json) : result MemoryRecord :=
  match document with
  | JObj d =>
      schema_check "brain-kernel-memory-record" d ;?
      let? state := memory_state_of (get "state" d) in
      check_memory_record (record_of d state) ;?
      Ok (record_of d state)
  | _ => raise ValueError "kernel contract document must be an object"
  end.

(** ** Valid members *)

(** Two patterns of which the second accepts at least the characters of the
    first, up to a tail of their own. *)
Definition item_le (p q : re_item) : Prop :=
  match p, q with One c, One c' => forall a, c a = true -> c' a = true | _, _ => False end.

Lemma match_weaken l l' p q s : Forall2 item_le l l' ->
  (forall t, match_items p t = true -> match_items q t = true) ->
  match_items (l ++ p) s = true -> match_items (l' ++ q) s = true.
Proof.
  intros Hl Hp. revert s. induction Hl as [|x y l l' Hxy _ IH]; intros s; cbn [app]; [apply Hp|].
  destruct x as [c| | |]; [|done..]. destruct y as [c'| | |]; [|done..]. cbn [match_items].
  destruct s as [|a s]; [done|]. intros H. apply andb_true_iff in H as [H1 H2]. rewrite (Hxy a H1). by apply IH.
Qed.

Lemma match_any s : match_items [Star (fun _ => true)] s = true.
Proof. induction s as [|a s IH]; [done|exact IH]. Qed.

Lemma lits_le p : Forall2 item_le (lits p) (lits p).
Proof. induction p as [|a p IH]; cbn; constructor; [by intros b|done]. Qed.

Lemma hex_ranges a : is_hex a = true -> Pattern.in_ranges [(48, 57); (97, 102)]%N a = true.
Proof. destruct a as [[] [] [] [] [] [] [] []]; vm_compute; auto. Qed.

Lemma digest_pattern : compile "^sha256:[0-9a-f]{64}$"
  = Some ((lits "sha256:" ++ times 64 (Pattern.in_ranges [(48, 57); (97, 102)]%N)) ++ [Dollar]).
Proof. reflexivity. Qed.

Lemma digest_matches s : is_digest s = true -> re_search "^sha256:[0-9a-f]{64}$" s = Some true.
Proof.
  intros H. unfold re_search. rewrite digest_pattern. cbn [option_map]. f_equal.
  unfold is_digest in H. rewrite <- (app_nil_r (lits _ ++ _)) in H. revert H. apply match_weaken.
  - apply Forall2_app; [apply lits_le|]. unfold times. apply Forall2_replicate. intros a. apply hex_ranges.
  - intros t Ht. cbn in *. by rewrite Ht.
Qed.

Lemma memory_id_pattern : compile "^MEMORY-" = Some (lits "MEMORY-" ++ [Star (fun _ => true)]).
Proof. reflexivity. Qed.

Lemma memory_id_matches s : is_identifier K_memory s = true -> re_search "^MEMORY-" s = Some true.
Proof.
  intros H. unfold re_search. rewrite memory_id_pattern. cbn [option_map]. f_equal.
  revert H. apply match_weaken; [apply lits_le|intros t _; apply match_any].
Qed.

Lemma chars_acc_nonempty s cur : s <> "" \/ cur <> "" -> chars_acc s cur <> [].
Proof.
  revert cur. induction s as [|a s IH]; intros cur H; cbn [chars_acc].
  - destruct H as [H|H]; [done|]. apply String.eqb_neq in H. by rewrite H.
  - destruct (_ && _); [apply IH; right; by destruct cur|]. intros E. apply app_eq_nil in E as [_ E]. revert E. apply IH. by right.
Qed.

Lemma nonempty_length s : s <> "" -> str_len s <? 1 = false.
Proof.
  intros H. assert (chars s <> []) by (apply chars_acc_nonempty; by left). unfold str_len.
  apply Z.ltb_ge. destruct (chars s); [done|]. cbn [length]. lia.
Qed.

(** What each kind of member schema accepts. *)
Section accepted.
Context (load : resources) (path : string).

Lemma accepts_text fuel s keyword v : mem keyword ["minLength"; "pattern"; "format"] = true ->
  string_issues [("type", JStr "string"); (keyword, v)] path s = Some [] ->
  validate_node (S fuel) load (JStr s) [("type", JStr "string"); (keyword, v)] path = Some [].
Proof.
  intros Hk H. apply mem_spec in Hk. cbn [validate_node].
  repeat (apply elem_of_cons in Hk as [->|Hk]; [cbn -[string_issues]; by rewrite H|]). by apply elem_of_nil in Hk.
Qed.

Lemma accepts_nonempty fuel s : s <> "" -> validate_node (S fuel) load (JStr s)
  [("type", JStr "string"); ("minLength", JInt 1)] path = Some [].
Proof.
  intros H. apply accepts_text; [done|]. cbn. by rewrite nonempty_length.
Qed.

Lemma accepts_date_time fuel s : is_date_time s = true -> validate_node (S fuel) load (JStr s)
  [("type", JStr "string"); ("format", JStr "date-time")] path = Some [].
Proof.
  intros H. apply accepts_text; [done|]. cbn -[re_search is_date_time]. by rewrite H.
Qed.

Lemma accepts_pattern fuel p s : re_search p s = Some true -> validate_node (S fuel) load (JStr s)
  [("type", JStr "string"); ("pattern", JStr p)] path = Some [].
Proof.
  intros H. apply accepts_text; [done|]. unfold string_issues, on. cbn -[re_search]. by rewrite H.
Qed.

Lemma accepts_strings fuel l : validate_node (S (S fuel)) load (strs l)
  [("type", JStr "array"); ("items", JObj [("type", JStr "string")])] path = Some [].
Proof.
  cbn. match goal with |- context [collect ?f ?xs] => assert (collect f xs = Some []) as ->; [|done] end.
  apply collect_nil_iff. intros [i x] Hix. assert (exists s, x = JStr s) as [s ->]; [|reflexivity].
  revert Hix. generalize 0%nat as n. induction l as [|y l IH]; intros n H; [by apply elem_of_nil in H|].
  apply elem_of_cons in H as [[= _ ->]|H]; [by exists y|by eapply IH].
Qed.

Lemma accepts_string fuel s : validate_node (S fuel) load (JStr s) [("type", JStr "string")] path = Some [].
Proof. reflexivity. Qed.

Lemma accepts_opt fuel o : validate_node (S fuel) load (opt_str o) [("type", JList [JStr "string"; JStr "null"])] path = Some [].
Proof. by destruct o. Qed.

Lemma accepts_enum fuel names s : s ∈ names ->
  validate_node (S fuel) load (JStr s) [("enum", JList (map JStr names))] path = Some [].
Proof.
  intros H. assert (E : existsb (py_eq (JStr s)) (map JStr names) = true).
  { apply existsb_exists. exists (JStr s). split; [apply in_map; by apply list_elem_of_In|by apply py_eq_str]. }
  cbn -[py_eq existsb map]. by rewrite E.
Qed.
End accepted.

Definition record_properties : list (string * json) := obj_field "properties" memory_record_schema.
Definition record_fields : list string := strs_field "required" memory_record_schema.

Lemma record_closed : closed_schema memory_record_schema record_properties record_fields.
Proof. split; reflexivity. Qed.

Lemma record_fields_NoDup : NoDup record_fields.
Proof. apply (bool_decide_unpack (NoDup record_fields)). vm_compute. exact I. Qed.

Lemma time_date_time s label : _time (JStr s) label = Ok tt -> is_date_time s = true.
Proof.
  unfold _time, is_date_time. intros H. take_guard H E. rewrite E. destruct (from_zulu s) as [t|]; [|done].
  by apply require_ok in H.
Qed.

Lemma required_nonempty s label : _require (JStr s) label = Ok tt -> s <> "".
Proof. unfold _require. rewrite require_ok. intros H ->. discriminate H. Qed.

(** The facts the constructor checks. *)
Record record_ok (r : MemoryRecord) : Prop := {
  ok_id : is_identifier K_memory (record_id r) = true;
  ok_class : memory_class r <> "";
  ok_scope : scope r ∈ SCOPES;
  ok_content : content_ref r <> "";
  ok_from : is_date_time (valid_from r) = true;
  ok_recorded : is_date_time (recorded_at r) = true;
  ok_available : is_date_time (available_at r) = true;
  ok_retention : retention_policy r <> "";
  ok_digest : is_digest (record_digest r) = true }.

Lemma check_record_ok r : check_memory_record r = Ok tt -> record_ok r.
Proof.
  unfold check_memory_record. intros H.
  take_ok H u1 E1. take_ok H u2 E2. take_guard H E3. take_ok H u4 E4. take_ok H u5 E5. take_ok H u6 E6. take_ok H u7 E7.
  take_ok H u8 E8. take_ok H u9 E9. destruct u2, u4, u5, u6, u7, u9.
  unfold _identifier in E1. apply rbind_ok in E1 as (? & _ & E1). apply require_ok in E1.
  split; [done|by eapply required_nonempty|by apply mem_spec|by eapply required_nonempty|by eapply time_date_time..|
    by eapply required_nonempty|]. unfold _digest in H. by apply require_ok in H.
Qed.

Ltac enum_member st :=
  first [by apply (accepts_enum _ _ _ SCOPES)
        |apply (accepts_enum _ _ _ (map memory_value memory_states)); cbn; destruct st; set_solver].

(** A document with the members of a constructed record is valid. *)
Lemma record_valid r d : record_ok r -> (forall k, get k d = get k (record_to_document r)) ->
  (forall k, k ∈ d.*1 <-> k ∈ record_fields) -> schema_check "brain-kernel-memory-record" d = Ok tt.
Proof.
  intros Hr Hg Hk. apply (schema_check_ok "brain-kernel-memory-record" memory_record_schema d eq_refl).
  apply (closed_object_iff _ _ _ _ _ _ _ record_closed). split; [|split].
  - intros k Hin. apply Hk in Hin. apply has_elem. exact Hin.
  - intros k Hin. by apply has_elem, Hk.
  - intros k child Hin _. rewrite Hg. clear Hg Hk. destruct Hr. unfold record_properties in Hin. cbn in Hin.
    repeat (apply elem_of_cons in Hin as [[= -> ->]|Hin];
      [lazy beta iota zeta delta [get lookup_key List.find option_map fst snd record_to_document default from_option id String.eqb Ascii.eqb Bool.eqb];
       match goal with
       | |- validate_node _ _ (strs _) _ _ = _ => apply accepts_strings
       | |- validate_node _ _ (opt_str _) _ _ = _ => apply accepts_opt
       | |- validate_node _ _ _ [_] _ = _ => first [apply accepts_string|enum_member (record_state r)]
       | |- validate_node _ _ _ [_; ("minLength", _)] _ = _ => by apply accepts_nonempty
       | |- validate_node _ _ _ [_; ("format", _)] _ = _ => by apply accepts_date_time
       | |- _ => apply accepts_pattern; first [by apply memory_id_matches|by apply digest_matches]
       end|]).
    by apply elem_of_nil in Hin.
Qed.

Lemma strs_field_get k d l : get k d = strs l -> strs_field k d = l.
Proof.
  intros E. unfold strs_field. rewrite E. clear E. cbn. induction l as [|x l IH]; [done|]. cbn. f_equal. exact IH.
Qed.
Lemma str_field_get k d s : get k d = JStr s -> str_field k d = s.
Proof. intros E. unfold str_field. by rewrite E. Qed.

Lemma memory_state_reads s : memory_state_of (JStr (memory_value s)) = Ok s.
Proof. by destruct s. Qed.

(** Reading a constructed record's members gives the record. *)
Lemma record_reads_back r d : check_memory_record r = Ok tt ->
  (forall k, get k d = get k (record_to_document r)) -> (forall k, k ∈ d.*1 <-> k ∈ record_fields) ->
  record_from_document (JObj d) = Ok r.
Proof.
  intros Hc Hg Hk. assert (Hv := record_valid r d (check_record_ok r Hc) Hg Hk).
  unfold record_from_document. rewrite Hv. cbn [rbind]. rewrite Hg. change (get "state" _) with (JStr (memory_value (record_state r))).
  rewrite memory_state_reads. cbn [rbind].
  assert (E : record_of d (record_state r) = r).
  { unfold record_of, str_field. rewrite !Hg.
    rewrite (strs_field_get "subject_keys" d (subject_keys r)), (strs_field_get "source_refs" d (source_refs r)),
      (strs_field_get "supersedes" d (supersedes r)), (strs_field_get "superseded_by" d (superseded_by r)),
      (strs_field_get "outcome_refs" d (outcome_refs r)) by (rewrite Hg; reflexivity).
    destruct r as [? ? ? ? ? ? ? ? ? vt ? ? ? ? ? ev ? ? ?]. by destruct vt, ev. }
  by rewrite E, Hc.
Qed.

Lemma record_document_plain r k : norm (get k (record_to_document r)) = get k (record_to_document r).
Proof.
  assert (H : forall v, v ∈ (record_to_document r).*2 -> norm v = v).
  { intros v Hv. cbn in Hv. repeat (apply elem_of_cons in Hv as [->|Hv];
      [first [reflexivity|apply norm_strs|by destruct (valid_to r)|by destruct (evaluator_id r)]|]).
    by apply elem_of_nil in Hv. }
  unfold get. destruct (lookup_key k _) as [v|] eqn:E; [|done]. apply H.
  apply lookup_key_in in E. by apply (list_elem_of_fmap_2 snd) in E.
Qed.

Lemma record_document_wf r : json_wf (JObj (record_to_document r)) = true.
Proof.
  apply object_wf; [exact record_fields_NoDup|]. intros k v Hin. cbn in Hin.
  repeat (apply elem_of_cons in Hin as [[= -> ->]|Hin];
    [first [reflexivity|apply strs_wf|by destruct (valid_to r)|by destruct (evaluator_id r)]|]).
  by apply elem_of_nil in Hin.
Qed.

(** Every constructed memory record survives storage: the document it
    writes, in canonical form, validates against the record schema and gives
    exactly the record again.  The schema refuses nothing the constructor
    accepts. *)
Theorem memory_record_round_trip r d : check_memory_record r = Ok tt ->
  loads (canonical_bytes (JObj (record_to_document r))) = Some (JObj d) -> record_from_document (JObj d) = Ok r.
Proof.
  intros Hc H. unfold canonical_bytes in H. rewrite loads_dumps_norm in H by apply record_document_wf. apply (inj Some) in H.
  destruct (stored_members (record_to_document r) d record_fields_NoDup H) as [Hg Hk].
  apply (record_reads_back r); [done| |intros k; by rewrite Hk].
  intros k. rewrite Hg. apply record_document_plain.
Qed.

End MemoryRecords.
