(* ===== verification/Memory.v ===== *)
(** * Kernel memory

    [brain_kernel/memory.py]: the content-addressed artifact store and the
    append-only catalog that derives which records are active, with its
    lifecycle facts and conflicts.  A method of the catalog is a computation
    over its state that keeps what it has done when it raises: the class rolls
    nothing back.  [rank] and the request fields only it reads are left out:
    its scores are floating-point sums. *)

From S2P Require Import Prelude Sha256 Canonical PyLib Schema Contracts WorkItems MemoryRecords.
From Stdlib Require Import Ascii.

Module Memory.
Export MemoryRecords.

(** ** Texts *)

(** [estimate_tokens] of UTF-8 text. *)
Definition estimate_tokens (text : string) : Z := (Z.of_nat (String.length text) + 3) / 4.

(** [Path.read_text]: universal newlines. *)
Fixpoint universal_newlines (s : string) : string :=
  match s with
  | EmptyString => EmptyString
  | String a r =>
      if bool_decide (a = chr 13) then
        match r with
        | String b _ => if bool_decide (b = chr 10) then universal_newlines r else String (chr 10) (universal_newlines r)
        | EmptyString => String (chr 10) EmptyString
        end
      else String a (universal_newlines r)
  end.

(** [_SECRET.search]: the pattern is matched character by character, without
    regard to case as Unicode understands it: the dotless and dotted i, the long s and the
    Kelvin sign fold to ASCII letters.  Which characters beyond ASCII are
    alphanumeric is a table of the interpreter's Unicode database. *)
Section Secrets.
Context (unicode_alnum : string -> bool).

Definition folds_to (k : ascii) (c : string) : bool :=
  match c with
  | String a EmptyString => bool_decide (a = k) || bool_decide (a = upper_char k)
  | _ =>
      (bool_decide (k = "i"%char) && mem c [String (chr 196) (String (chr 176) ""); String (chr 196) (String (chr 177) "")])
      || (bool_decide (k = "s"%char) && String.eqb c (String (chr 197) (String (chr 191) "")))
      || (bool_decide (k = "k"%char) && String.eqb c (String (chr 226) (String (chr 132) (String (chr 170) ""))))
  end.
Definition word_char (c : string) : bool :=
  match c with
  | String a EmptyString => if (code a <? 128)%N then is_alnum a || bool_decide (a = "_"%char) else unicode_alnum c
  | _ => unicode_alnum c
  end.
Definition is_space (c : string) : bool := match space_prefix c with Some EmptyString => true | _ => false end.
(** [[a-z0-9_-]] *)
Definition key_char (c : string) : bool :=
  match c with
  | String a EmptyString => is_alnum a || mem c ["_"; "-"]
  | _ => folds_to "i" c || folds_to "s" c || folds_to "k" c
  end.

(** The rest of the characters after a keyword. *)
Fixpoint after_keyword (k : string) (cs : list string) : option (list string) :=
  match k with
  | EmptyString => Some cs
  | String a k' => match cs with c :: cs' => if folds_to a c then after_keyword k' cs' else None | [] => None end
  end.
Definition after_either (ks : list string) (cs : list string) : list (list string) :=
  omap (fun k => after_keyword k cs) ks.
(** [X[_-]?Y] *)
Definition joined (x y : string) : list string := [(x +:+ y)%stdpp; (x +:+ "_" +:+ y)%stdpp; (x +:+ "-" +:+ y)%stdpp].
Fixpoint skip_spaces (cs : list string) : list string :=
  match cs with c :: cs' => if is_space c then skip_spaces cs' else cs | [] => [] end.
(** [\s*[:=]\s*\S+] *)
Definition assigned (cs : list string) : bool :=
  match skip_spaces cs with
  | c :: cs' => mem c [":"; "="] && negb (bool_decide (skip_spaces cs' = []))
  | [] => false
  end.
(** [_[a-z0-9_-]{8,}] *)
Definition token_body (cs : list string) : bool :=
  match cs with
  | c :: cs' => String.eqb c "_" && Nat.leb 8 (length cs') && forallb key_char (take 8 cs')
  | [] => false
  end.
Definition secret_at (cs : list string) : bool :=
  existsb assigned (after_either (joined "api" "key" ++ ["password"; "secret"] ++ joined "access" "token") cs)
  || existsb token_body (after_either ["sk"; "ghp"; "github_pat"] cs).
(** The search: a match starts where a word does. *)
Fixpoint secret_from (previous_word : bool) (cs : list string) : bool :=
  match cs with
  | [] => false
  | c :: cs' => (negb previous_word && secret_at cs) || secret_from (word_char c) cs'
  end.
Definition secret_like (body : string) : bool := secret_from false (chars body).

(** ** Artifacts *)

Definition _TRANSCRIPT_KINDS : list string := ["model_transcript"; "raw_transcript"; "tool_transcript"].

(** The files below [memory/artifacts], by the digest in their name. *)
Definition artifact_files : Type := gmap string string.

Record MemoryArtifact := { artifact_digest : string; token_count : Z }.

Definition body_digest (body : string) : string := ("sha256:" +:+ sha256_hexdigest body)%stdpp.

Definition put (body content_kind : string) : M artifact_files MemoryArtifact :=
  guardM (negb (String.eqb body "")) MemoryDenied "memory body must be non-empty UTF-8 text" ;*
  guardM (negb (mem content_kind _TRANSCRIPT_KINDS)) MemoryDenied "raw transcripts cannot enter durable memory" ;*
  guardM (negb (secret_like body)) MemoryDenied "secret-like data cannot enter durable memory" ;*
  let* files := getM in
  let d := body_digest body in
  match files !! d with
  | None => putM (<[d := body]> files) ;* ret {| artifact_digest := d; token_count := estimate_tokens body |}
  | Some stored =>
      guardM (String.eqb stored body) MemoryDenied "content-addressed evidence cannot be rewritten" ;*
      ret {| artifact_digest := d; token_count := estimate_tokens body |}
  end.
End Secrets.

Definition _path (digest : string) : result unit :=
  require (is_digest digest) ValueError "artifact reference must be a sha256 digest".

Definition artifact_get (files : artifact_files) (digest : string) : result string :=
  _path digest ;?
  match files !! digest with
  | None => raise KeyError ("unknown memory artifact: " +:+ digest)%stdpp
  | Some stored =>
      let body := universal_newlines stored in
      require (String.eqb (body_digest body) digest) MemoryDenied "memory artifact digest mismatch" ;?
      Ok body
  end.

(** ** Times *)

(** The range of [datetime] in microseconds. *)
Definition in_range (t : Z) : bool := (day_micros <=? t) && (t <? 3652060 * day_micros).

(** [_instant(value)]: the moment in UTC. *)
Definition utc_instant (value : string) : result Z :=
  match from_zulu value with
  | None => raise ValueError "time must be RFC 3339"
  | Some d =>
      require (is_aware d) ValueError "time must include an offset" ;?
      require (in_range (instant d)) OverflowError "date value out of range" ;?
      Ok (instant d)
  end.

(** ** Entries, events and conflicts *)

Inductive MemoryClass :=
| C_EVIDENCE | C_FACT | C_EPISODE | C_OPINION | C_LESSON | C_WORKING | C_SCRATCHPAD | C_SELF_ASSESSMENT.
Definition class_value (c : MemoryClass) : string :=
  match c with
  | C_EVIDENCE => "evidence" | C_FACT => "fact" | C_EPISODE => "episode" | C_OPINION => "opinion"
  | C_LESSON => "lesson" | C_WORKING => "working" | C_SCRATCHPAD => "scratchpad"
  | C_SELF_ASSESSMENT => "self_assessment"
  end.
Definition memory_classes : list MemoryClass :=
  [C_EVIDENCE; C_FACT; C_EPISODE; C_OPINION; C_LESSON; C_WORKING; C_SCRATCHPAD; C_SELF_ASSESSMENT].

Definition _TERMINAL_STATES : list MemoryState := [R_SUPERSEDED; R_CONTRADICTED; R_RETRACTED; R_EXPIRED; R_QUARANTINED].
Definition SENSITIVITY_LEVELS : list string := ["public"; "internal"; "restricted"].

Record MemoryAccess := { access_roles : list string; access_scopes : list string; evaluator_visible : bool }.

#[global] Instance memory_access_eq_dec : EqDecision MemoryAccess.
Proof. solve_decision. Defined.

(** [MemoryAccess.__post_init__] *)
Definition check_access (a : MemoryAccess) : result unit :=
  require (negb (bool_decide (access_roles a = []))) ValueError "memory access requires at least one role" ;?
  require (subset (access_roles a) ROLE_NAMES) ValueError "memory access contains an unregistered role" ;?
  require (distinct (access_roles a)) ValueError "memory access roles must be unique" ;?
  require (distinct (access_scopes a)) ValueError "memory access scopes must be unique".

Record MemoryEntry := { entry_record : MemoryRecord; entry_access : MemoryAccess }.

#[global] Instance memory_entry_eq_dec : EqDecision MemoryEntry.
Proof. solve_decision. Defined.

Record MemoryLifecycleEvent := {
  ev_sequence : Z;
  ev_id : string;
  ev_record : string;
  ev_previous : MemoryState;
  ev_state : MemoryState;
  ev_occurred_at : string;
  ev_reason : string;
  ev_successor : option string }.

#[global] Instance memory_event_eq_dec : EqDecision MemoryLifecycleEvent.
Proof. solve_decision. Defined.

Record MemoryConflict := {
  conflict_id : string;
  conflict_records : list string;
  conflict_reason : string;
  conflict_recorded_at : string }.

#[global] Instance memory_conflict_eq_dec : EqDecision MemoryConflict.
Proof. solve_decision. Defined.

(** [MemoryConflict.__post_init__] *)
Definition check_conflict (c : MemoryConflict) : result unit :=
  require (Nat.leb 2 (length (conflict_records c)) && distinct (conflict_records c)) ValueError
    "a conflict requires at least two distinct records" ;?
  require (bool_decide (sorted_str (conflict_records c) = conflict_records c)) ValueError "conflict record ids must be sorted" ;?
  require (negb (String.eqb (conflict_reason c) "")) ValueError "conflict reason is required" ;?
  let? _ := utc_instant (conflict_recorded_at c) in
  Ok tt.

(** ** The catalog *)

Record MemoryCatalog := {
  entries : gmap string MemoryEntry;
  states : gmap string MemoryState;
  lifecycle : list MemoryLifecycleEvent;
  conflicts : gmap string MemoryConflict }.

Definition empty_catalog : MemoryCatalog := {| entries := ∅; states := ∅; lifecycle := []; conflicts := ∅ |}.

(** [sorted(d)] of a dictionary. *)
Definition sorted_keys {A} (m : gmap string A) : list string := sorted_str (map_to_list m).*1.

(** [sorted(set(l))] *)
Definition sorted_set (l : list string) : list string := sorted_str (dedup l).

(** [_validate_class] *)
Definition _validate_class (r : MemoryRecord) : result unit :=
  let? c := wrap [ValueError] MemoryDenied "memory class is not registered"
              (enum_of "MemoryClass" memory_classes class_value (JStr (memory_class r))) in
  match c with
  | C_WORKING => require (String.eqb (scope r) "work_item" && bool_decide (is_Some (valid_to r))) MemoryDenied
                   "working memory must be work-scoped and expire"
  | C_EVIDENCE => require (negb (bool_decide (source_refs r = []))) MemoryDenied "evidence memory requires source references"
  | _ => Ok tt
  end.

Section Catalog.
Context (files : artifact_files).

Definition register (r : MemoryRecord) (a : MemoryAccess) : M MemoryCatalog unit :=
  liftR (_validate_class r) ;*
  let* _ := liftR (artifact_get files (content_ref r)) in
  let* c := getM in
  let entry := {| entry_record := r; entry_access := a |} in
  match entries c !! record_id r with
  | Some existing => guardM (bool_decide (existing = entry)) MemoryDenied "memory record cannot be rewritten"
  | None => putM {| entries := <[record_id r := entry]> (entries c); states := <[record_id r := record_state r]> (states c);
                    lifecycle := lifecycle c; conflicts := conflicts c |}
  end.

Definition transition (rid : string) (state : MemoryState) (eid occurred_at reason : string) (successor : option string)
    : M MemoryCatalog MemoryLifecycleEvent :=
  let* _ := liftR (utc_instant occurred_at) in
  guardM (negb (String.eqb eid "") && negb (String.eqb reason "")) ValueError "lifecycle event id and reason are required" ;*
  let* c := getM in
  guardM (bool_decide (is_Some (entries c !! rid))) KeyError ("unknown memory record: " +:+ rid)%stdpp ;*
  match states c !! rid with
  | None => fail KeyError rid
  | Some previous =>
      guardM (bool_decide (previous = R_ACTIVE) && bool_decide (state ∈ _TERMINAL_STATES)) MemoryDenied
        "memory lifecycle transition is not legal" ;*
      guardM (negb (bool_decide (state = R_SUPERSEDED))
              || match successor with Some k => bool_decide (is_Some (entries c !! k)) | None => false end)
        MemoryDenied "supersession requires a registered successor" ;*
      guardM (negb (mem eid (map ev_id (lifecycle c)))) MemoryDenied "memory lifecycle event id is already bound" ;*
      let ev := {| ev_sequence := Z.of_nat (length (lifecycle c)) + 1; ev_id := eid; ev_record := rid; ev_previous := previous;
                   ev_state := state; ev_occurred_at := occurred_at; ev_reason := reason; ev_successor := successor |} in
      putM {| entries := entries c; states := <[rid := state]> (states c); lifecycle := lifecycle c ++ [ev];
              conflicts := conflicts c |} ;*
      ret ev
  end.

(** [record_id in self._entries and self._states[record_id] is ACTIVE]: the two
    dictionaries always have the same keys ([ok_states]). *)
Definition is_active (c : MemoryCatalog) (rid : string) : bool :=
  bool_decide (is_Some (entries c !! rid)) && bool_decide (states c !! rid = Some R_ACTIVE).

Definition supersede (successor : MemoryRecord) (a : MemoryAccess) (now reason : string)
    : M MemoryCatalog (list MemoryLifecycleEvent) :=
  guardM (bool_decide (record_state successor = R_ACTIVE) && negb (bool_decide (supersedes successor = []))) MemoryDenied
    "an active successor must name prior records" ;*
  let* c := getM in
  let predecessor_ids := sorted_str (supersedes successor) in
  guardM (negb (mem (record_id successor) predecessor_ids) && forallb (is_active c) predecessor_ids) MemoryDenied
    "supersession requires active registered predecessors" ;*
  register successor a ;*
  loopM (fun rid => transition rid R_SUPERSEDED
                      ("memory.superseded:" +:+ rid +:+ ":" +:+ record_id successor)%stdpp now reason
                      (Some (record_id successor))) predecessor_ids.

Definition correct : MemoryRecord -> MemoryAccess -> string -> string -> M MemoryCatalog (list MemoryLifecycleEvent) := supersede.

Definition quarantine (rid now reason : string) (eid : option string) : M MemoryCatalog MemoryLifecycleEvent :=
  let default_id := ("memory.quarantined:" +:+ rid +:+ ":" +:+ now)%stdpp in
  transition rid R_QUARANTINED (match eid with Some e => if String.eqb e "" then default_id else e | None => default_id end)
    now reason None.

(** The identifier [record_conflict] derives from the contents. *)
Definition conflict_key (ids : list string) (reason recorded_at : string) : string :=
  ("CONFLICT-" +:+ take_bytes 20 (drop_bytes 7 (canonical_digest
     (JObj [("records", strs ids); ("reason", JStr reason); ("recorded_at", JStr recorded_at)]))))%stdpp.

Definition record_conflict (ids : list string) (reason recorded_at : string) : M MemoryCatalog MemoryConflict :=
  let identities := sorted_set ids in
  let* c := getM in
  guardM (forallb (fun rid => bool_decide (is_Some (entries c !! rid))) identities) KeyError
    "conflict references an unknown memory record" ;*
  let conflict := {| conflict_id := conflict_key identities reason recorded_at; conflict_records := identities;
                     conflict_reason := reason; conflict_recorded_at := recorded_at |} in
  liftR (check_conflict conflict) ;*
  guardM (match conflicts c !! conflict_id conflict with Some existing => bool_decide (existing = conflict) | None => true end)
    MemoryDenied "conflict cannot be rewritten" ;*
  putM {| entries := entries c; states := states c; lifecycle := lifecycle c;
          conflicts := <[conflict_id conflict := conflict]> (conflicts c) |} ;*
  ret conflict.

Definition contradict (ids : list string) (now reason : string) : M MemoryCatalog (MemoryConflict * list MemoryLifecycleEvent) :=
  let identities := sorted_set ids in
  let* c := getM in
  guardM (forallb (is_active c) identities) MemoryDenied "contradiction requires active registered records" ;*
  let* conflict := record_conflict identities reason now in
  let* events := loopM (fun rid => transition rid R_CONTRADICTED
                          ("memory.contradicted:" +:+ conflict_id conflict +:+ ":" +:+ rid)%stdpp now reason None) identities in
  ret (conflict, events).

(** [ConsolidationPolicy] *)
Record ConsolidationPolicy := { minimum_independent_episodes : Z; minimum_distinct_contexts : Z }.
Definition check_policy (p : ConsolidationPolicy) : result ConsolidationPolicy :=
  require ((2 <=? minimum_independent_episodes p) && (2 <=? minimum_distinct_contexts p)) ValueError
    "consolidation minimums must be integers of at least two" ;?
  Ok p.

(** An active episode with its sources and outcomes. *)
Definition evidenced_episode (c : MemoryCatalog) (rid : string) : bool :=
  is_active c rid
  && match entries c !! rid with
     | Some e => String.eqb (memory_class (entry_record e)) "episode"
                 && negb (bool_decide (source_refs (entry_record e) = []))
                 && negb (bool_decide (outcome_refs (entry_record e) = []))
     | None => false
     end.

Definition consolidate (lesson : MemoryRecord) (a : MemoryAccess) (supporting : list string)
    (independence_keys : gmap string string) (now reason : string) (policy : ConsolidationPolicy)
    : M MemoryCatalog (list MemoryLifecycleEvent) :=
  let support := sorted_set supporting in
  guardM (String.eqb (memory_class lesson) "lesson" && bool_decide (is_Some (evaluator_id lesson))
          && negb (bool_decide (outcome_refs lesson = [])) && bool_decide (supersedes lesson = support)) MemoryDenied
    "lesson consolidation lacks a complete independent approval" ;*
  guardM (minimum_independent_episodes policy <=? Z.of_nat (length support)) MemoryDenied
    "lesson consolidation has too few episodes" ;*
  let* c := getM in
  guardM (forallb (evidenced_episode c) support) MemoryDenied "lesson consolidation requires active evidenced episodes" ;*
  let contexts := dedup (map (fun rid => default "" (independence_keys !! rid)) support) in
  guardM (negb (mem "" contexts) && (minimum_distinct_contexts policy <=? Z.of_nat (length contexts))) MemoryDenied
    "lesson consolidation lacks independent contexts" ;*
  supersede lesson a now reason.

(** The records [expire] retires at a moment. *)
Definition elapsed (r : MemoryRecord) (current : Z) : result bool :=
  match valid_to r with
  | None => Ok false
  | Some t => let? until := utc_instant t in Ok (until <? current)
  end.

Definition expire_one (current : Z) (now rid : string) : M MemoryCatalog (option MemoryLifecycleEvent) :=
  let* c := getM in
  match entries c !! rid with
  | None => fail KeyError rid
  | Some e =>
      if bool_decide (states c !! rid = Some R_ACTIVE) then
        let* gone := liftR (elapsed (entry_record e) current) in
        if gone then
          let* ev := transition rid R_EXPIRED ("memory.expired:" +:+ rid +:+ ":" +:+ now)%stdpp now "validity window elapsed" None in
          ret (Some ev)
        else ret None
      else ret None
  end.

Definition expire (now : string) : M MemoryCatalog (list MemoryLifecycleEvent) :=
  let* current := liftR (utc_instant now) in
  let* c := getM in
  let* events := loopM (expire_one current now) (sorted_keys (entries c)) in
  ret (omap id events).
End Catalog.

(** ** Reading *)

Definition inspect (c : MemoryCatalog) (rid : string) : result (MemoryEntry * MemoryState) :=
  match entries c !! rid, states c !! rid with
  | Some e, Some s => Ok (e, s)
  | _, _ => raise KeyError ("unknown memory record: " +:+ rid)%stdpp
  end.

(** [conflicts_for] and [_unresolved_conflict_ids] *)
Definition sorted_conflicts (c : MemoryCatalog) : list MemoryConflict := omap (fun k => conflicts c !! k) (sorted_keys (conflicts c)).
Definition conflicts_for (c : MemoryCatalog) (ids : list string) : list string :=
  map conflict_id (List.filter (fun k => existsb (fun rid => mem rid (conflict_records k)) ids) (sorted_conflicts c)).
Definition _unresolved_conflict_ids (c : MemoryCatalog) : list string :=
  dedup (concat (map conflict_records (sorted_conflicts c))).

(** The fields of a [RetrievalRequest] that decide which records it may see. *)
Record RetrievalRequest := {
  rq_mission_id : string;
  rq_work_id : string;
  rq_role : string;
  rq_now : string;
  rq_data_scopes : list string;
  repository_key : option string;
  sensitivity_scopes : list string;
  required_sensitivities : list string }.

(** [RetrievalRequest.__post_init__] *)
Definition check_request (q : RetrievalRequest) : result unit :=
  require (mem (rq_role q) ROLE_NAMES) ValueError "retrieval role is not registered" ;?
  require (negb (String.eqb (rq_mission_id q) "") && negb (String.eqb (rq_work_id q) "")) ValueError
    "retrieval mission and work are required" ;?
  let? _ := utc_instant (rq_now q) in
  require (distinct (rq_data_scopes q)) ValueError "retrieval data scopes must be unique" ;?
  require (subset (sensitivity_scopes q) SENSITIVITY_LEVELS && subset (required_sensitivities q) (sensitivity_scopes q))
    ValueError "retrieval sensitivity scopes are invalid".

(** The scope of a record names what it is about. *)
Definition in_scope (r : MemoryRecord) (q : RetrievalRequest) : bool :=
  if String.eqb (scope r) "mission" then mem (rq_mission_id q) (subject_keys r)
  else if String.eqb (scope r) "work_item" then mem (rq_work_id q) (subject_keys r)
  else if String.eqb (scope r) "role" then mem (rq_role q) (subject_keys r)
  else if String.eqb (scope r) "repository" then
    match repository_key q with Some k => mem k (subject_keys r) | None => false end
  else true.

(** [_eligible], its tests in order: a later one is not evaluated when an
    earlier one fails. *)
Definition _eligible (c : MemoryCatalog) (e : MemoryEntry) (q : RetrievalRequest) (now : Z) : result bool :=
  let r := entry_record e in
  if negb (bool_decide (states c !! record_id r = Some R_ACTIVE)) then Ok false else
  let? available := utc_instant (available_at r) in
  if now <? available then Ok false else
  let? start := utc_instant (valid_from r) in
  if now <? start then Ok false else
  let? ended := elapsed r now in
  if ended then Ok false else
  Ok (mem (rq_role q) (access_roles (entry_access e))
      && subset (access_scopes (entry_access e)) (rq_data_scopes q)
      && mem (sensitivity r) (sensitivity_scopes q)
      && in_scope r q).

(** The entries in the order of their identifiers. *)
Definition sorted_entries (c : MemoryCatalog) : list MemoryEntry := omap (fun k => entries c !! k) (sorted_keys (entries c)).

Definition active_records (c : MemoryCatalog) (q : RetrievalRequest) : result (list MemoryEntry) :=
  let? now := utc_instant (rq_now q) in
  let? chosen := map_result (fun e => let? ok := _eligible c e q now in Ok (if ok : bool then Some e else None)) (sorted_entries c) in
  Ok (omap id chosen).

(** ** The invariant of a catalog *)

Definition initial_states (m : gmap string MemoryEntry) : gmap string MemoryState :=
  (fun e => record_state (entry_record e)) <$> m.
Definition states_after (events : list MemoryLifecycleEvent) (m : gmap string MemoryState) : gmap string MemoryState :=
  fold_left (fun m ev => <[ev_record ev := ev_state ev]> m) events m.

Record entry_ok (files : artifact_files) (rid : string) (e : MemoryEntry) : Prop := {
  eo_key : record_id (entry_record e) = rid;
  eo_record : check_memory_record (entry_record e) = Ok tt;
  eo_access : check_access (entry_access e) = Ok tt;
  eo_class : _validate_class (entry_record e) = Ok tt;
  eo_body : exists body, artifact_get files (content_ref (entry_record e)) = Ok body }.

(** An event that was legal after the events before it. *)
Record event_ok (m : gmap string MemoryEntry) (before : list MemoryLifecycleEvent) (ev : MemoryLifecycleEvent) : Prop := {
  vo_sequence : ev_sequence ev = Z.of_nat (length before) + 1;
  vo_known : is_Some (m !! ev_record ev);
  vo_active : states_after before (initial_states m) !! ev_record ev = Some R_ACTIVE;
  vo_previous : ev_previous ev = R_ACTIVE;
  vo_terminal : ev_state ev ∈ _TERMINAL_STATES;
  vo_successor : ev_state ev = R_SUPERSEDED -> exists k, ev_successor ev = Some k /\ is_Some (m !! k);
  vo_fresh : ev_id ev ∉ map ev_id before;
  vo_named : ev_id ev <> "" /\ ev_reason ev <> "";
  vo_time : exists t, utc_instant (ev_occurred_at ev) = Ok t }.

Record conflict_ok (m : gmap string MemoryEntry) (k : string) (cf : MemoryConflict) : Prop := {
  ko_id : conflict_id cf = k;
  ko_key : k = conflict_key (conflict_records cf) (conflict_reason cf) (conflict_recorded_at cf);
  ko_check : check_conflict cf = Ok tt;
  ko_known : forall rid, rid ∈ conflict_records cf -> is_Some (m !! rid) }.

Record catalog_ok (files : artifact_files) (c : MemoryCatalog) : Prop := {
  ok_entries : forall rid e, entries c !! rid = Some e -> entry_ok files rid e;
  ok_states : states c = states_after (lifecycle c) (initial_states (entries c));
  ok_events : forall l1 ev l2, lifecycle c = l1 ++ ev :: l2 -> event_ok (entries c) l1 ev;
  ok_conflicts : forall k cf, conflicts c !! k = Some cf -> conflict_ok (entries c) k cf }.

(** What no operation takes back. *)
Record extends (c c' : MemoryCatalog) : Prop := {
  ex_entries : entries c ⊆ entries c';
  ex_lifecycle : lifecycle c `prefix_of` lifecycle c';
  ex_conflicts : conflicts c ⊆ conflicts c';
  ex_final : forall rid s, states c !! rid = Some s -> s <> R_ACTIVE -> states c' !! rid = Some s }.

#[global] Instance extends_refl : Reflexive extends.
Proof. by split. Qed.
#[global] Instance extends_trans : Transitive extends.
Proof.
  intros c1 c2 c3 [H1 H2 H3 H4] [H5 H6 H7 H8]. split; [by etrans..|]. intros rid s Hs Hn. apply H8; [by apply H4|done].
Qed.

(** *** States *)

Lemma states_after_app l1 l2 m : states_after (l1 ++ l2) m = states_after l2 (states_after l1 m).
Proof. apply fold_left_app. Qed.

Lemma states_after_fresh l m rid s : rid ∉ map ev_record l ->
  states_after l (<[rid := s]> m) = <[rid := s]> (states_after l m).
Proof.
  revert m. induction l as [|ev l IH]; intros m H; [done|]. cbn in *. apply not_elem_of_cons in H as [H1 H2].
  rewrite <- IH by done. f_equal. by apply insert_insert_ne.
Qed.

Lemma initial_insert m rid e :
  initial_states (<[rid := e]> m) = <[rid := record_state (entry_record e)]> (initial_states m).
Proof. unfold initial_states. by rewrite fmap_insert. Qed.

Lemma states_after_dom l m : (forall ev, ev ∈ l -> is_Some (m !! ev_record ev)) ->
  forall rid, is_Some (states_after l (initial_states m) !! rid) <-> is_Some (m !! rid).
Proof.
  intros H rid. assert (Hi : is_Some (initial_states m !! rid) <-> is_Some (m !! rid)).
  { unfold initial_states. rewrite lookup_fmap. by rewrite fmap_is_Some. }
  revert Hi. generalize (initial_states m) as st. induction l as [|ev l IH]; intros st Hi; [done|]. cbn.
  apply IH; [intros ev' H'; apply H; by right|]. destruct (decide (ev_record ev = rid)) as [<-|Hn].
  - rewrite lookup_insert_eq. split; intros _; [apply H; by left|by eexists].
  - by rewrite lookup_insert_ne.
Qed.

(** *** Operations that keep the invariant, whether they return or raise *)

Section Stable.
Context (files : artifact_files).

Definition stable {A} (m : M MemoryCatalog A) : Prop :=
  forall c, catalog_ok files c -> catalog_ok files (m c).2 /\ extends c (m c).2.

Lemma stable_skip {A} (m : M MemoryCatalog A) : (forall c, (m c).2 = c) -> stable m.
Proof. intros H c Hc. by rewrite H. Qed.
Lemma stable_ret {A} (a : A) : stable (ret a).
Proof. by apply stable_skip. Qed.
Lemma stable_fail {A} cl msg : stable (@fail MemoryCatalog A cl msg).
Proof. by apply stable_skip. Qed.
Lemma stable_lift {A} (r : result A) : stable (liftR r).
Proof. by apply stable_skip. Qed.
Lemma stable_guard b cl msg : stable (guardM b cl msg).
Proof. by apply stable_skip. Qed.
Lemma stable_get : stable getM.
Proof. by apply stable_skip. Qed.
Lemma stable_bind {A B} (m : M MemoryCatalog A) (f : A -> M MemoryCatalog B) :
  stable m -> (forall a, stable (f a)) -> stable (bindM m f).
Proof.
  intros Hm Hf c Hc. destruct (Hm c Hc) as [H1 H2]. unfold bindM. destruct (m c) as [[a|e] c1]; cbn in *; [|done].
  destruct (Hf a c1 H1) as [H3 H4]. split; [done|by etrans].
Qed.
Lemma stable_loop {A B} (f : A -> M MemoryCatalog B) l : (forall a, stable (f a)) -> stable (loopM f l).
Proof.
  intros Hf. induction l as [|x l IH]; cbn; [apply stable_ret|].
  apply stable_bind; [done|]. intros y. apply stable_bind; [done|]. intros ys. apply stable_ret.
Qed.

Lemma known_records c : catalog_ok files c -> forall ev, ev ∈ lifecycle c -> is_Some (entries c !! ev_record ev).
Proof.
  intros Hc ev Hev. apply list_elem_of_split in Hev as (l1 & l2 & E). by eapply vo_known, ok_events.
Qed.

Lemma states_known c rid : catalog_ok files c -> is_Some (states c !! rid) <-> is_Some (entries c !! rid).
Proof. intros Hc. rewrite (ok_states _ _ Hc). apply states_after_dom. by apply known_records. Qed.

Lemma event_ok_mono m m' l ev : m ⊆ m' ->
  states_after l (initial_states m') !! ev_record ev = states_after l (initial_states m) !! ev_record ev ->
  event_ok m l ev -> event_ok m' l ev.
Proof.
  intros Hm Hs [H1 H2 H3 H4 H5 H6 H7 H8 H9].
  assert (Hk : forall k, is_Some (m !! k) -> is_Some (m' !! k)) by (intros k [e He]; eexists; by eapply lookup_weaken).
  split; try done; [by apply Hk|by rewrite Hs|]. intros E. destruct (H6 E) as (k & ? & ?). exists k. auto.
Qed.

Lemma conflict_ok_mono m m' k cf : m ⊆ m' -> conflict_ok m k cf -> conflict_ok m' k cf.
Proof.
  intros Hm [H1 H2 H3 H4]. split; try done. intros rid Hr. destruct (H4 rid Hr) as [e He]. eexists. by eapply lookup_weaken.
Qed.

(** Registering a new record. *)
Definition with_entry (c : MemoryCatalog) (e : MemoryEntry) : MemoryCatalog :=
  {| entries := <[record_id (entry_record e) := e]> (entries c);
     states := <[record_id (entry_record e) := record_state (entry_record e)]> (states c);
     lifecycle := lifecycle c; conflicts := conflicts c |}.

Lemma with_entry_ok c e : catalog_ok files c -> entry_ok files (record_id (entry_record e)) e ->
  entries c !! record_id (entry_record e) = None -> catalog_ok files (with_entry c e) /\ extends c (with_entry c e).
Proof.
  intros Hc He Hn. set (rid := record_id (entry_record e)) in *.
  assert (Hsub : entries c ⊆ <[rid := e]> (entries c)) by (by apply insert_subseteq).
  assert (Hother : forall ev, ev ∈ lifecycle c -> ev_record ev <> rid).
  { intros ev Hev E. destruct (known_records c Hc ev Hev) as [x Hx]. congruence. }
  assert (Hfresh : forall l, (forall ev, ev ∈ l -> ev ∈ lifecycle c) -> rid ∉ map ev_record l).
  { intros l Hl Hin. apply list_elem_of_fmap in Hin as (ev & E & Hev). by apply (Hother ev); [apply Hl|]. }
  split; [split; cbn|split; cbn; try done].
  - intros k x Hx. apply lookup_insert_Some in Hx as [[<- <-]|[_ Hx]]; [done|]. by apply (ok_entries files c Hc).
  - rewrite initial_insert, states_after_fresh by (by apply Hfresh). by rewrite <- (ok_states _ _ Hc).
  - intros l1 ev l2 E. assert (Hev := ok_events _ _ Hc _ _ _ E).
    assert (Hl : forall x, x ∈ l1 ++ [ev] -> x ∈ lifecycle c).
    { intros x. rewrite E, !elem_of_app, !elem_of_cons, elem_of_nil. naive_solver. }
    eapply event_ok_mono; [exact Hsub| |exact Hev]. rewrite initial_insert, states_after_fresh.
    + apply lookup_insert_ne. apply not_eq_sym, Hother, Hl. apply elem_of_app. right. by left.
    + apply Hfresh. intros x Hx. apply Hl, elem_of_app. by left.
  - intros k cf Hk. eapply conflict_ok_mono; [exact Hsub|by apply (ok_conflicts _ _ Hc)].
  - intros k s Hs Hna. rewrite lookup_insert_ne; [done|]. intros <-.
    assert (is_Some (entries c !! rid)) as [x Hx]; [|congruence]. apply (states_known c rid Hc). by eexists.
Qed.

Lemma stable_register r a : check_memory_record r = Ok tt -> check_access a = Ok tt -> stable (register files r a).
Proof.
  intros Hr Ha c Hc. unfold register, bindM, liftR, getM. destruct (_validate_class r) as [[]|] eqn:Ev; [|done].
  destruct (artifact_get files (content_ref r)) as [body|] eqn:Eb; [|done].
  destruct (entries c !! record_id r) as [existing|] eqn:Ee; [by apply stable_guard|].
  apply (with_entry_ok c {| entry_record := r; entry_access := a |} Hc); [|done]. split; cbn; try done. by eexists.
Qed.

(** Appending a lifecycle event. *)
Definition with_event (c : MemoryCatalog) (ev : MemoryLifecycleEvent) : MemoryCatalog :=
  {| entries := entries c; states := <[ev_record ev := ev_state ev]> (states c); lifecycle := lifecycle c ++ [ev];
     conflicts := conflicts c |}.

Lemma with_event_ok c ev : catalog_ok files c -> event_ok (entries c) (lifecycle c) ev ->
  catalog_ok files (with_event c ev) /\ extends c (with_event c ev).
Proof.
  intros Hc Hev. split; [split; cbn|split; cbn; try done].
  - apply Hc.
  - rewrite states_after_app, (ok_states _ _ Hc). reflexivity.
  - intros l1 x l2 E. apply app_eq_app in E as (l & [[E1 E2]|[E1 E2]]); destruct l as [|y l]; cbn in E2.
    + injection E2 as <- _. rewrite app_nil_r in E1. by rewrite <- E1.
    + injection E2 as -> E2. by apply (ok_events _ _ Hc _ _ _ E1).
    + injection E2 as <- _. by rewrite E1, app_nil_r.
    + injection E2 as _ E2. by destruct l.
  - apply Hc.
  - by apply prefix_app_r.
  - intros k s Hs Hna. rewrite lookup_insert_ne; [done|]. intros <-.
    rewrite (ok_states _ _ Hc), (vo_active _ _ _ Hev) in Hs. congruence.
Qed.

(** What a successful transition is. *)
Lemma transition_returns rid state eid at_ reason succ c ev c' :
  catalog_ok files c -> transition rid state eid at_ reason succ c = (Ok ev, c') ->
  event_ok (entries c) (lifecycle c) ev /\ c' = with_event c ev
  /\ ev_record ev = rid /\ ev_state ev = state /\ ev_successor ev = succ /\ ev_id ev = eid
  /\ ev_reason ev = reason /\ ev_occurred_at ev = at_.
Proof.
  intros Hc. unfold transition, guardM, bindM, liftR, getM, putM, ret, fail.
  destruct (utc_instant at_) as [t|] eqn:Et; [|done].
  destruct (negb (eid =? "")%string && negb (reason =? "")%string) eqn:En; [|done]. cbn [require].
  destruct (bool_decide (is_Some (entries c !! rid))) eqn:Hk; [|done]. cbn [require]. destruct (states c !! rid) as [previous|] eqn:Es; [|done].
  destruct (_ && bool_decide (state ∈ _)) eqn:Ea; [|done]. cbn [require].
  destruct (negb (bool_decide (state = _)) || _) eqn:Esu; [|done]. cbn [require].
  destruct (negb (mem eid _)) eqn:Ef; [|done]. cbn [require]. bool_hyps. subst previous.
  intros H. injection H as <- <-. split; [|split; [reflexivity|done]]. split; cbn.
  - done.
  - done.
  - by rewrite <- (ok_states _ _ Hc).
  - done.
  - done.
  - intros ->. rewrite bool_decide_eq_true_2 in Esu by done. cbn in Esu. destruct succ as [k|]; [|done].
    exists k. split; [done|]. by apply bool_decide_eq_true in Esu.
  - intros Hin. apply mem_spec in Hin. congruence.
  - done.
  - by eexists.
Qed.

(** A legal event is appended. *)
Lemma transition_legal c ev : states c = states_after (lifecycle c) (initial_states (entries c)) ->
  event_ok (entries c) (lifecycle c) ev ->
  transition (ev_record ev) (ev_state ev) (ev_id ev) (ev_occurred_at ev) (ev_reason ev) (ev_successor ev) c
  = (Ok ev, with_event c ev).
Proof.
  intros Hs [H1 H2 H3 H4 H5 H6 H7 [H8 H8'] [t H9]]. unfold transition. rewrite run_lift, H9, run_guard.
  apply String.eqb_neq in H8, H8'. rewrite H8, H8'. cbn [negb andb]. rewrite run_get, run_guard.
  rewrite bool_decide_eq_true_2 by done. rewrite <- Hs in H3. rewrite H3, run_guard. rewrite !bool_decide_eq_true_2 by done.
  cbn [andb]. rewrite run_guard.
  assert (Hsuc : negb (bool_decide (ev_state ev = R_SUPERSEDED))
    || match ev_successor ev with Some k => bool_decide (is_Some (entries c !! k)) | None => false end = true).
  { destruct (decide (ev_state ev = R_SUPERSEDED)) as [E|E]; [|by rewrite bool_decide_eq_false_2].
    destruct (H6 E) as (k & -> & Hk). rewrite orb_true_iff. right. by apply bool_decide_eq_true. }
  rewrite Hsuc, run_guard. assert (mem (ev_id ev) (map ev_id (lifecycle c)) = false) as ->.
  { destruct (mem _ _) eqn:E; [|done]. by apply mem_spec in E. }
  cbn [negb]. rewrite run_put. cbv zeta. unfold ret, with_event. destruct ev. cbn in *. by rewrite H1, H4.
Qed.

Lemma stable_transition rid state eid at_ reason succ : stable (transition rid state eid at_ reason succ).
Proof.
  intros c Hc. destruct (transition rid state eid at_ reason succ c) as [[ev|e] c'] eqn:E.
  - apply transition_returns in E as (Hev & -> & _); [|done]. by apply with_event_ok.
  - assert (c' = c) as ->; [|done]. revert E. unfold transition, guardM, bindM, liftR, getM, putM, ret, fail, require.
    repeat case_match; naive_solver.
Qed.

Lemma stable_record_conflict ids reason at_ : stable (record_conflict ids reason at_).
Proof.
  intros c Hc. unfold record_conflict, guardM, bindM, getM, liftR, putM, ret. cbv zeta.
  destruct (forallb _ _) eqn:Ek; [|done]. cbn [require]. set (cf := {| conflict_id := _ |}).
  destruct (check_conflict cf) as [[]|] eqn:Ec; [|done].
  destruct (match conflicts c !! conflict_id cf with Some x => bool_decide (x = cf) | None => true end) eqn:En; [|done].
  cbn [require snd]. split; [split; cbn; try apply Hc|split; cbn; try done].
  - intros k x Hx. apply lookup_insert_Some in Hx as [[<- <-]|[_ Hx]]; [|by apply (ok_conflicts _ _ Hc)].
    split; cbn; try done. intros rid Hr. rewrite forallb_forall in Ek. apply list_elem_of_In in Hr.
    by apply Ek, bool_decide_eq_true in Hr.
  - apply map_subseteq_spec. intros k x Hx. destruct (decide (conflict_id cf = k)) as [<-|Hn].
    + rewrite Hx in En. apply bool_decide_eq_true in En as ->. apply lookup_insert_eq.
    + by rewrite lookup_insert_ne.
Qed.
End Stable.

#[export] Hint Resolve stable_ret stable_fail stable_lift stable_guard stable_get stable_transition stable_record_conflict : hive.
#[export] Hint Extern 3 (stable _ (bindM _ _)) => apply stable_bind : hive.
#[export] Hint Extern 3 (stable _ (loopM _ _)) => apply stable_loop : hive.
#[export] Hint Extern 4 (stable _ (match _ with _ => _ end)) => case_match : hive.

Section Operations.
Context (files : artifact_files).

Lemma stable_supersede r a now reason : check_memory_record r = Ok tt -> check_access a = Ok tt ->
  stable files (supersede files r a now reason).
Proof. intros Hr Ha. assert (H := stable_register files r a Hr Ha). unfold supersede. eauto 20 with hive. Qed.

Lemma stable_quarantine rid now reason eid : stable files (quarantine rid now reason eid).
Proof. unfold quarantine. eauto with hive. Qed.

Lemma stable_contradict ids now reason : stable files (contradict ids now reason).
Proof. unfold contradict. eauto 20 with hive. Qed.

Lemma stable_consolidate r a sup keys now reason p : check_memory_record r = Ok tt -> check_access a = Ok tt ->
  stable files (consolidate files r a sup keys now reason p).
Proof. intros Hr Ha. assert (H := stable_supersede r a now reason Hr Ha). unfold consolidate. eauto 20 with hive. Qed.

Lemma stable_expire now : stable files (expire now).
Proof.
  assert (H : forall t rid, stable files (expire_one t now rid)) by (intros; unfold expire_one; eauto 20 with hive).
  unfold expire. eauto 20 with hive.
Qed.
End Operations.

(** ** What the operations do *)

Section Effects.
Context (files : artifact_files).

(** The catalog after some lifecycle events. *)
Definition with_events (c : MemoryCatalog) (evs : list MemoryLifecycleEvent) : MemoryCatalog :=
  {| entries := entries c; states := states_after evs (states c); lifecycle := lifecycle c ++ evs; conflicts := conflicts c |}.

Lemma with_events_cons c ev evs : with_events (with_event c ev) evs = with_events c (ev :: evs).
Proof. unfold with_events, with_event. cbn. by rewrite <- (assoc_L (++)). Qed.

Lemma with_events_nil c : with_events c [] = c.
Proof. unfold with_events. destruct c. cbn. by rewrite app_nil_r. Qed.

Lemma loop_transitions state key now reason succ ids c evs c' :
  catalog_ok files c -> loopM (fun rid => transition rid state (key rid) now reason succ) ids c = (Ok evs, c') ->
  catalog_ok files c' /\ c' = with_events c evs /\ map ev_record evs = ids /\ forall ev, ev ∈ evs -> ev_state ev = state.
Proof.
  revert c evs. induction ids as [|rid ids IH]; intros c evs Hc H.
  - cbn in H. injection H as <- <-. rewrite with_events_nil. do 3 (split; [done|]). intros ev Hev. by apply elem_of_nil in Hev.
  - cbn [loopM] in H. apply bindM_ok in H as (ev & c1 & H1 & H). apply bindM_ok in H as (rest & c2 & H2 & H).
    injection H as <- <-. assert (Hs := stable_transition files rid state (key rid) now reason succ c Hc). rewrite H1 in Hs.
    apply (transition_returns files) in H1 as (_ & -> & Hr & Hst & _); [|done].
    apply IH in H2 as (H3 & -> & H4 & H5); [|apply Hs]. split; [done|]. split; [apply with_events_cons|].
    split; [cbn; congruence|]. intros ev' Hev. apply elem_of_cons in Hev as [->|Hev]; [done|by apply H5].
Qed.

Lemma states_after_record evs m rid s : (forall ev, ev ∈ evs -> ev_state ev = s) ->
  states_after evs m !! rid = if decide (rid ∈ map ev_record evs) then Some s else m !! rid.
Proof.
  revert m. induction evs as [|ev evs IH]; intros m H; [by rewrite decide_False by apply not_elem_of_nil|].
  change (states_after (ev :: evs) m) with (states_after evs (<[ev_record ev := ev_state ev]> m)).
  rewrite IH by (intros x Hx; apply H; by right). rewrite (H ev) by (by left). cbn [map].
  destruct (decide (rid ∈ map ev_record evs)) as [Hin|Hin]; [by rewrite decide_True by (by right)|].
  destruct (decide (ev_record ev = rid)) as [<-|Hn]; [rewrite decide_True by (by left); apply lookup_insert_eq|].
  rewrite lookup_insert_ne by done. rewrite decide_False; [done|]. intros [E|E]%elem_of_cons; congruence.
Qed.

Lemma is_active_spec c rid : is_active c rid = true <-> is_Some (entries c !! rid) /\ states c !! rid = Some R_ACTIVE.
Proof. unfold is_active. by rewrite andb_true_iff, !bool_decide_eq_true. Qed.

Lemma forallb_spec {A} (f : A -> bool) l : forallb f l = true <-> forall x, x ∈ l -> f x = true.
Proof. rewrite forallb_forall. split; intros H x Hx; apply H; by apply list_elem_of_In. Qed.

(** A successful supersession. *)
Lemma supersede_returns r a now reason c evs c' :
  catalog_ok files c -> check_memory_record r = Ok tt -> check_access a = Ok tt ->
  supersede files r a now reason c = (Ok evs, c') ->
  record_state r = R_ACTIVE /\ supersedes r <> [] /\ record_id r ∉ supersedes r
  /\ (forall rid, rid ∈ supersedes r -> is_active c rid = true /\ states c' !! rid = Some R_SUPERSEDED)
  /\ entries c' = <[record_id r := {| entry_record := r; entry_access := a |}]> (entries c)
  /\ (forall rid, rid ∉ supersedes r -> rid <> record_id r -> states c' !! rid = states c !! rid)
  /\ states c' !! record_id r = Some (default R_ACTIVE (states c !! record_id r)).
Proof.
  intros Hc Hr Ha H. unfold supersede in H.
  apply bindM_ok in H as (u & c1 & H1 & H). injection H1 as H1 <-. apply require_ok, andb_true_iff in H1 as [Hst Hne].
  bool_hyps. apply bindM_ok in H as (c2 & c3 & H2 & H). injection H2 as <- <-.
  apply bindM_ok in H as (u2 & c4 & H3 & H). injection H3 as H3 <-. apply require_ok, andb_true_iff in H3 as [Hself Hact].
  bool_hyps. rewrite forallb_spec in Hact.
  apply bindM_ok in H as (u3 & c5 & Hreg & Hloop).
  assert (Hs := stable_register files r a Hr Ha c Hc). rewrite Hreg in Hs. destruct Hs as [Hc5 Hext].
  apply loop_transitions in Hloop as (_ & -> & Hrec & Hstates); [|done].
  assert (Hin : forall rid, rid ∈ map ev_record evs <-> rid ∈ supersedes r) by (intros rid; rewrite Hrec; apply elem_of_sorted_by).
  assert (Hself' : record_id r ∉ supersedes r).
  { intros Hin'. apply (elem_of_sorted_by id) in Hin'. apply mem_spec in Hin'. unfold sorted_str in Hself. congruence. }
  assert (Hreg' : entries c5 = <[record_id r := {| entry_record := r; entry_access := a |}]> (entries c)
    /\ forall rid, states c5 !! rid = if decide (rid = record_id r) then Some (default R_ACTIVE (states c !! rid)) else states c !! rid).
  { unfold register, guardM, bindM, liftR, getM, putM in Hreg. destruct (_validate_class r) as [[]|]; [|done].
    destruct (artifact_get files (content_ref r)) as [body|]; [|done].
    destruct (entries c !! record_id r) as [existing|] eqn:Ee.
    - destruct (bool_decide _) eqn:Eb; [|done]. apply bool_decide_eq_true in Eb as ->. injection Hreg as _ <-.
      split; [by rewrite insert_id|]. intros rid. destruct (decide _) as [->|]; [|done].
      destruct (proj2 (states_known files c (record_id r) Hc)) as [s Hs]; [by eexists|]. by rewrite Hs.
    - injection Hreg as _ <-. split; [done|]. intros rid. cbn. destruct (decide (rid = record_id r)) as [->|Hn].
      + rewrite lookup_insert_eq. destruct (states c !! record_id r) as [s|] eqn:Es; [|by rewrite Hst].
        destruct (proj1 (states_known files c (record_id r) Hc)) as [x Hx]; [by eexists|]. congruence.
      + by rewrite lookup_insert_ne. }
  destruct Hreg' as [Hent Hsta].
  do 3 (split; [done|]). split; [|split; [done|]].
  - intros rid Hrid. split; [apply Hact; by apply elem_of_sorted_by|]. cbn.
    rewrite (states_after_record evs _ _ _ Hstates), decide_True by (by apply Hin). done.
  - split.
    + intros rid Hn1 Hn2. cbn. rewrite (states_after_record evs _ _ _ Hstates), decide_False by (by rewrite Hin).
      by rewrite Hsta, decide_False.
    + cbn. rewrite (states_after_record evs _ _ _ Hstates), decide_False by (by rewrite Hin). by rewrite Hsta, decide_True.
Qed.
End Effects.

(** ** What the theorems rest on *)

Lemma append_inj_r (s1 s2 t : string) : (s1 +:+ t = s2 +:+ t)%stdpp -> s1 = s2.
Proof.
  intros H. assert (Hl : String.length s1 = String.length s2).
  { apply (f_equal String.length) in H. rewrite !length_append in H. lia. }
  revert s2 H Hl. induction s1 as [|a s1 IH]; intros [|b s2] H Hl; try done.
  rewrite !append_cons in H. injection H as -> H. f_equal. apply IH; [done|]. by injection Hl.
Qed.

(** *** Newline translation *)

Definition no_return (s : string) : bool := all_chars (fun a => negb (bool_decide (a = chr 13))) s.

Lemma universal_newlines_id s : no_return s = true -> universal_newlines s = s.
Proof.
  induction s as [|a s IH]; [done|]. unfold no_return. cbn [all_chars universal_newlines]. intros H.
  apply andb_true_iff in H as [Ha H]. apply negb_true_iff in Ha. rewrite Ha. f_equal. by apply IH.
Qed.

Lemma universal_newlines_no_return s : no_return (universal_newlines s) = true.
Proof.
  assert (H : forall n s, (String.length s <= n)%nat -> no_return (universal_newlines s) = true); [|by eapply H].
  clear s. induction n as [|n IH]; intros [|a s] Hl; try done; [cbn in Hl; lia|]. cbn [universal_newlines]. cbn in Hl.
  destruct (bool_decide (a = chr 13)) eqn:Ea.
  - destruct s as [|b s]; [done|]. destruct (bool_decide (b = chr 10)); [apply IH; cbn in *; lia|].
    unfold no_return. cbn [all_chars]. apply IH. cbn in *. lia.
  - unfold no_return. cbn [all_chars]. rewrite Ea. apply IH. lia.
Qed.

(** What the artifact store accepts and what it can give back differ.  A
    body that was stored reads back as itself when it contains no carriage
    return.  The reader translates newlines, so for a body with one the digest
    is taken of another text: unless SHA-256 gives both the same digest, the
    artifact that was just stored is refused as corrupt. *)
Theorem stored_artifact_reads_back unicode_alnum body kind files a files' :
  put unicode_alnum body kind files = (Ok a, files') ->
  artifact_digest a = body_digest body
  /\ (no_return body = true -> artifact_get files' (artifact_digest a) = Ok body)
  /\ (no_return body = false -> universal_newlines body <> body
       /\ (body_digest (universal_newlines body) <> body_digest body ->
           artifact_get files' (artifact_digest a) = raise MemoryDenied "memory artifact digest mismatch")).
Proof.
  intros H. unfold put in H. do 3 (rewrite run_guard in H; destruct (negb _); [|done]). rewrite run_get in H. cbv zeta in H.
  assert (Hf : artifact_digest a = body_digest body /\ files' !! body_digest body = Some body).
  { destruct (files !! body_digest body) as [text|] eqn:E.
    - rewrite run_guard in H. destruct (String.eqb _ _) eqn:Et; [|done]. apply String.eqb_eq in Et as ->. by injection H as <- <-.
    - rewrite run_put in H. injection H as <- <-. split; [done|]. apply lookup_insert_eq. }
  destruct Hf as [Ha Hf]. split; [exact Ha|]. rewrite Ha.
  assert (Hget : artifact_get files' (body_digest body) = (require (String.eqb (body_digest (universal_newlines body)) (body_digest body))
    MemoryDenied "memory artifact digest mismatch" ;? Ok (universal_newlines body))).
  { unfold artifact_get, _path. unfold body_digest at 1. rewrite reference_is_digest. cbn [require rbind]. by rewrite Hf. }
  rewrite Hget. split; intros Hr.
  - rewrite (universal_newlines_id body Hr), String.eqb_refl. done.
  - split; [intros E; assert (Hn := universal_newlines_no_return body); congruence|]. intros Hd. apply String.eqb_neq in Hd. by rewrite Hd.
Qed.

Lemma sorted_keys_spec {A} (m : gmap string A) k : k ∈ sorted_keys m <-> is_Some (m !! k).
Proof.
  unfold sorted_keys, sorted_str. rewrite elem_of_sorted_by, list_elem_of_fmap. split.
  - intros ([k' x] & -> & H). apply elem_of_map_to_list in H. by eexists.
  - intros [x H]. exists (k, x). split; [done|]. by apply elem_of_map_to_list.
Qed.

Lemma sorted_keys_NoDup {A} (m : gmap string A) : NoDup (sorted_keys m).
Proof. unfold sorted_keys, sorted_str. rewrite (sorted_by_perm id). apply NoDup_fst_map_to_list. Qed.

Lemma elem_of_sorted_entries c e files : catalog_ok files c ->
  e ∈ sorted_entries c <-> entries c !! record_id (entry_record e) = Some e.
Proof.
  intros Hc. unfold sorted_entries. rewrite list_elem_of_omap. split.
  - intros (k & _ & H). by rewrite (eo_key _ _ _ (ok_entries _ _ Hc _ _ H)).
  - intros H. exists (record_id (entry_record e)). split; [|done]. apply sorted_keys_spec. by eexists.
Qed.

Lemma sorted_entries_keys c files : catalog_ok files c ->
  map (fun e => record_id (entry_record e)) (sorted_entries c) = sorted_keys (entries c).
Proof.
  intros Hc. unfold sorted_entries.
  assert (H : forall k, k ∈ sorted_keys (entries c) -> is_Some (entries c !! k)) by (intros k; by apply sorted_keys_spec).
  revert H. induction (sorted_keys (entries c)) as [|k l IH]; intros H; [done|]. cbn.
  destruct (H k) as [e He]; [by left|]. rewrite He. cbn. f_equal.
  - apply (ok_entries _ _ Hc _ _ He).
  - apply IH. intros k' Hk. apply H. by right.
Qed.

(** ** Expiry *)

Section Expiry.
Context (files : artifact_files) (t : Z) (now : string).

(** The active records whose validity ended before the moment [t]. *)
Definition due (c : MemoryCatalog) (rid : string) : bool :=
  bool_decide (states c !! rid = Some R_ACTIVE)
  && match entries c !! rid with Some e => match elapsed (entry_record e) t with Ok gone => gone | Raise _ => false end | None => false end.

Definition expiry_id (rid : string) : string := ("memory.expired:" +:+ rid +:+ ":" +:+ now)%stdpp.
Definition expiry_event (c : MemoryCatalog) (rid : string) : MemoryLifecycleEvent :=
  {| ev_sequence := Z.of_nat (length (lifecycle c)) + 1; ev_id := expiry_id rid; ev_record := rid; ev_previous := R_ACTIVE;
     ev_state := R_EXPIRED; ev_occurred_at := now; ev_reason := "validity window elapsed"; ev_successor := None |}.

Lemma expiry_id_inj r1 r2 : expiry_id r1 = expiry_id r2 -> r1 = r2.
Proof. unfold expiry_id. intros H. apply append_inj_l in H. by apply append_inj_r in H. Qed.

(** Every validity end is a time the code can compare. *)
Definition ends_readable (c : MemoryCatalog) : Prop :=
  forall rid e, entries c !! rid = Some e -> exists b, elapsed (entry_record e) t = Ok b.

Lemma expire_one_runs c rid : catalog_ok files c -> utc_instant now = Ok t -> is_Some (entries c !! rid) ->
  ends_readable c -> (due c rid = true -> expiry_id rid ∉ map ev_id (lifecycle c)) ->
  expire_one t now rid c
  = if due c rid then (Ok (Some (expiry_event c rid)), with_event c (expiry_event c rid)) else (Ok None, c).
Proof.
  intros Hc Hnow [e He] Hends Hfresh. unfold expire_one. rewrite run_get, He. unfold due in *. rewrite He in *.
  destruct (bool_decide (states c !! rid = Some R_ACTIVE)) eqn:Ea; [|done]. apply bool_decide_eq_true in Ea.
  destruct (Hends rid e He) as [b Hb]. rewrite run_lift, Hb. rewrite Hb in Hfresh. cbn [andb] in *.
  destruct b; [|done].
  change (bindM (transition (ev_record (expiry_event c rid)) (ev_state (expiry_event c rid)) (ev_id (expiry_event c rid))
    (ev_occurred_at (expiry_event c rid)) (ev_reason (expiry_event c rid)) (ev_successor (expiry_event c rid)))
    (fun ev => ret (Some ev)) c = (Ok (Some (expiry_event c rid)), with_event c (expiry_event c rid))).
  rewrite run_bind, transition_legal; [done|by apply (ok_states files)|]. split; cbn; try done.
  - by rewrite <- (ok_states _ _ Hc).
  - rewrite list_elem_of_In. cbn. tauto.
  - by apply Hfresh.
  - by eexists.
Qed.

Lemma due_with_event c rid rid' : rid <> rid' -> due (with_event c (expiry_event c rid)) rid' = due c rid'.
Proof. intros Hn. unfold due. cbn. by rewrite lookup_insert_ne. Qed.

Lemma expire_loop ids c : catalog_ok files c -> utc_instant now = Ok t -> NoDup ids ->
  (forall rid, rid ∈ ids -> is_Some (entries c !! rid)) -> ends_readable c ->
  (forall rid, rid ∈ ids -> due c rid = true -> expiry_id rid ∉ map ev_id (lifecycle c)) ->
  exists out, loopM (expire_one t now) ids c = (Ok out, with_events c (omap id out))
    /\ map ev_record (omap id out) = List.filter (due c) ids /\ forall ev, ev ∈ omap id out -> ev_state ev = R_EXPIRED.
Proof.
  intros Hc Hnow Hnd. revert c Hc. induction Hnd as [|rid ids Hnotin Hnd IH]; intros c Hc Hknown Hends Hfresh.
  - exists []. cbn. rewrite with_events_nil. split; [done|]. split; [done|]. intros ev H. by apply elem_of_nil in H.
  - cbn [loopM]. rewrite run_bind, expire_one_runs by (auto using list_elem_of_here). cbn [List.filter].
    destruct (due c rid) eqn:Ed.
    + set (ev := expiry_event c rid). set (c1 := with_event c ev).
      assert (Hc1 : catalog_ok files c1).
      { apply with_event_ok; [done|]. assert (Hd := Ed). unfold due in Hd. apply andb_true_iff in Hd as [Ha _].
        apply bool_decide_eq_true in Ha. split; cbn; try done; [by apply Hknown; left| | | |by eexists].
        - by rewrite <- (ok_states _ _ Hc).
        - rewrite list_elem_of_In. cbn. tauto.
        - apply Hfresh; [by left|done]. }
      assert (Hother : forall k, k ∈ ids -> rid <> k) by (intros k Hk ->; contradiction).
      destruct (IH c1 Hc1) as (out & Hrun & Hrec & Hst).
      * intros k Hk. apply Hknown. by right.
      * exact Hends.
      * intros k Hk Hdue. cbn. rewrite map_app, elem_of_app. unfold c1, ev in Hdue. rewrite due_with_event in Hdue by auto.
        intros [H|H]; [by apply (Hfresh k); [right|..]|]. cbn in H. apply list_elem_of_singleton, expiry_id_inj in H. by apply (Hother k).
      * exists (Some ev :: out). rewrite run_bind, Hrun. cbn. unfold ret. rewrite <- with_events_cons. split; [done|]. split.
        -- rewrite Hrec. f_equal. apply List.filter_ext_in. intros k Hk%list_elem_of_In. apply due_with_event. by apply Hother.
        -- intros x [->|H]%elem_of_cons; [done|by apply Hst].
    + destruct (IH c Hc) as (out & Hrun & Hrec & Hst); [intros k Hk; apply Hknown; by right|done|intros k Hk; apply Hfresh; by right|].
      exists (None :: out). rewrite run_bind, Hrun. by cbn.
Qed.

(** An expiry pass returns for every catalog whose validity ends can be
    compared and whose expiry event names are unused, and it retires exactly
    the active records whose validity ended strictly before the moment given,
    in the order of their identifiers; every other record keeps its state,
    and no record, earlier event or conflict is touched. *)
Theorem expire_retires_exactly_the_elapsed c : catalog_ok files c -> utc_instant now = Ok t -> ends_readable c ->
  (forall rid, due c rid = true -> expiry_id rid ∉ map ev_id (lifecycle c)) ->
  exists evs c', expire now c = (Ok evs, c')
    /\ map ev_record evs = List.filter (due c) (sorted_keys (entries c))
    /\ (forall rid, states c' !! rid = if due c rid then Some R_EXPIRED else states c !! rid)
    /\ entries c' = entries c /\ lifecycle c' = lifecycle c ++ evs /\ conflicts c' = conflicts c.
Proof.
  intros Hc Hnow Hends Hfresh. unfold expire. rewrite run_lift, Hnow, run_get.
  destruct (expire_loop (sorted_keys (entries c)) c Hc Hnow (sorted_keys_NoDup _)) as (out & Hrun & Hrec & Hst);
    [intros rid; by apply sorted_keys_spec|done|intros rid _; apply Hfresh|].
  rewrite run_bind, Hrun. exists (omap id out), (with_events c (omap id out)). split; [done|]. split; [done|].
  split; [|done]. intros rid. cbn. rewrite (states_after_record _ _ _ _ Hst), Hrec.
  assert (H : rid ∈ List.filter (due c) (sorted_keys (entries c)) <-> due c rid = true).
  { rewrite list_elem_of_In, List.filter_In, <- list_elem_of_In, sorted_keys_spec. split; [tauto|]. intros H. split; [|done].
    unfold due in H. destruct (entries c !! rid); [by eexists|]. by rewrite andb_false_r in H. }
  destruct (due c rid); [by rewrite decide_True by (by apply H)|rewrite decide_False; [done|intros E; by apply H in E]].
Qed.
End Expiry.

(** ** Lessons *)

Section Lessons.
Context (files : artifact_files).

Lemma evidenced_episode_spec c rid : evidenced_episode c rid = true -> exists e, entries c !! rid = Some e
  /\ states c !! rid = Some R_ACTIVE /\ memory_class (entry_record e) = "episode"
  /\ source_refs (entry_record e) <> [] /\ outcome_refs (entry_record e) <> [].
Proof.
  unfold evidenced_episode. intros H. apply andb_true_iff in H as [[[e He] Ha]%is_active_spec H]. rewrite He in H. bool_hyps.
  by exists e.
Qed.

(** Two values at least among the images of a list. *)
Lemma two_images (f : string -> string) l : (2 <= Z.of_nat (length (dedup (map f l))))%Z ->
  exists x y, x ∈ l /\ y ∈ l /\ f x <> f y.
Proof.
  intros H. assert (Hn := NoDup_dedup (map f l)). assert (He := elem_of_dedup (map f l)).
  destruct (dedup (map f l)) as [|u [|v d]]; cbn in H; [lia..|].
  apply NoDup_cons in Hn as [Huv _].
  assert (Hu : u ∈ map f l) by (apply He; by left). assert (Hv : v ∈ map f l) by (apply He; right; by left).
  apply list_elem_of_fmap in Hu as (x & -> & Hx), Hv as (y & -> & Hy).
  exists x, y. split; [done|]. split; [done|]. intros E. apply Huv. rewrite E. by left.
Qed.

(** A consolidation that returns promoted an independently evidenced
    lesson.  The lesson names an evaluator and outcomes; what it supersedes
    is a sorted list of at least two distinct records, every one of which was
    an active episode with sources and outcomes; each had a non-empty context
    and two of the contexts differ.  Afterwards the lesson is registered with
    the access given, those episodes are superseded, and no other record
    changed its state. *)
Theorem consolidated_lessons_are_evidenced c lesson a sup (keys : gmap string string) now reason p p' evs c' :
  catalog_ok files c -> check_memory_record lesson = Ok tt -> check_access a = Ok tt -> check_policy p = Ok p' ->
  consolidate files lesson a sup keys now reason p c = (Ok evs, c') ->
  is_Some (evaluator_id lesson) /\ outcome_refs lesson <> []
  /\ (2 <= length (supersedes lesson))%nat /\ NoDup (supersedes lesson)
  /\ (forall rid, rid ∈ supersedes lesson -> states c' !! rid = Some R_SUPERSEDED
       /\ (exists context, keys !! rid = Some context /\ context <> "")
       /\ exists e, entries c !! rid = Some e /\ states c !! rid = Some R_ACTIVE
            /\ memory_class (entry_record e) = "episode"
            /\ source_refs (entry_record e) <> [] /\ outcome_refs (entry_record e) <> [])
  /\ (exists r1 r2, r1 ∈ supersedes lesson /\ r2 ∈ supersedes lesson /\ keys !! r1 <> keys !! r2)
  /\ entries c' !! record_id lesson = Some {| entry_record := lesson; entry_access := a |}
  /\ (forall rid, rid ∉ supersedes lesson -> rid <> record_id lesson -> states c' !! rid = states c !! rid).
Proof.
  intros Hc Hl Ha Hp H. unfold check_policy in Hp. take_guard Hp Hp1. apply andb_true_iff in Hp1 as [Hp1 Hp2]. bool_hyps.
  unfold consolidate in H. rewrite run_guard in H. destruct (_ && _) eqn:E1; [|done].
  rewrite run_guard in H. destruct (Z.leb _ _) eqn:E2; [|done].
  rewrite run_get, run_guard in H. destruct (forallb _ _) eqn:E3; [|done]. rewrite forallb_spec in E3.
  cbv zeta in H. rewrite run_guard in H. destruct (_ && _) eqn:E4 in H; [|done].
  apply andb_true_iff in E1 as [E1 E1s]. apply andb_true_iff in E1 as [E1 E1o]. apply andb_true_iff in E1 as [_ E1e].
  apply andb_true_iff in E4 as [E4n E4l].
  bool_hyps. rewrite <- E1s in *.
  apply (supersede_returns files) in H as (_ & _ & _ & Hsup & Hent & Hrest & _); [|done..].
  assert (Hctx : forall rid, rid ∈ supersedes lesson -> exists context, keys !! rid = Some context /\ context <> "").
  { intros rid Hr. assert (Hne : default "" (keys !! rid) <> "").
    { intros E. assert (mem "" (dedup (map (fun rid => default "" (keys !! rid)) (supersedes lesson))) = true); [|congruence].
      apply mem_spec, elem_of_dedup, list_elem_of_fmap. exists rid. by rewrite E. }
    destruct (keys !! rid) as [x|]; [by exists x|done]. }
  split; [done|]. split; [done|]. split; [lia|]. split.
  { rewrite E1s. unfold sorted_set, sorted_str. rewrite (sorted_by_perm id). apply NoDup_dedup. }
  split.
  { intros rid Hr. split; [by apply Hsup|]. split; [by apply Hctx|]. by apply evidenced_episode_spec, E3. }
  split.
  { destruct (two_images (fun rid => default "" (keys !! rid)) (supersedes lesson)) as (r1 & r2 & H1 & H2 & Hne); [lia|].
    exists r1, r2. split; [done|]. split; [done|]. intros E. by rewrite E in Hne. }
  split; [|done]. rewrite Hent. apply lookup_insert_eq.
Qed.

(** ** What a failed or a late supersession leaves *)

(** Supersession is not one step.  When the successor is accepted and the
    first retirement is refused, here because the time given is not a time,
    the call raises and leaves the successor registered and active next to
    the active records it was to replace. *)
Theorem failed_supersession_keeps_successor c r a now reason e c1 : catalog_ok files c ->
  entries c !! record_id r = None -> record_state r = R_ACTIVE -> supersedes r <> [] -> record_id r ∉ supersedes r ->
  (forall rid, rid ∈ supersedes r -> states c !! rid = Some R_ACTIVE) ->
  utc_instant now = Raise e -> register files r a c = (Ok tt, c1) ->
  supersede files r a now reason c = (Raise e, c1)
  /\ states c1 !! record_id r = Some R_ACTIVE
  /\ forall rid, rid ∈ supersedes r -> states c1 !! rid = Some R_ACTIVE.
Proof.
  intros Hc Hnew Hst Hne Hself Hact Hnow Hreg.
  assert (Hin : forall rid, rid ∈ sorted_str (supersedes r) <-> rid ∈ supersedes r) by (intros; apply elem_of_sorted_by).
  split.
  - unfold supersede. rewrite run_guard, Hst, !bool_decide_eq_true_2, bool_decide_eq_false_2 by done. cbn [negb andb].
    rewrite run_get. cbv zeta. rewrite run_guard.
    assert (mem (record_id r) (sorted_str (supersedes r)) = false) as ->.
    { destruct (mem _ _) eqn:E; [|done]. by apply mem_spec, Hin in E. }
    assert (forallb (is_active c) (sorted_str (supersedes r)) = true) as ->.
    { apply forallb_spec. intros rid Hr%Hin. apply is_active_spec. split; [|by apply Hact].
      apply (states_known files c rid Hc). rewrite (Hact rid Hr). by eexists. }
    cbn [negb andb]. rewrite run_bind, Hreg.
    destruct (sorted_str (supersedes r)) as [|rid l] eqn:El.
    + destruct (supersedes r) as [|x l]; [done|]. exfalso. assert (H : x ∈ []); [apply Hin; by left|by apply elem_of_nil in H].
    + cbn [loopM]. rewrite run_bind. unfold transition. rewrite run_lift, Hnow. done.
  - unfold register in Hreg. rewrite run_lift in Hreg. destruct (_validate_class r); [|done]. rewrite run_lift in Hreg.
    destruct (artifact_get _ _); [|done]. rewrite run_get, Hnew in Hreg. unfold putM in Hreg. injection Hreg as <-. cbn.
    rewrite lookup_insert_eq, Hst. split; [done|]. intros rid Hr. rewrite lookup_insert_ne; [by apply Hact|]. by intros <-.
Qed.

(** The successor of a supersession is checked by the state it was written
    with, not by its state in the catalog.  A record that is registered and
    has since been retired (quarantined, say) is accepted as a successor: the
    call returns, every active record it names is superseded, and the
    successor stays retired, so none of them is active afterwards. *)
Theorem retired_successor_supersedes c r a now reason evs c' s : catalog_ok files c ->
  check_memory_record r = Ok tt -> check_access a = Ok tt -> states c !! record_id r = Some s -> s <> R_ACTIVE ->
  supersede files r a now reason c = (Ok evs, c') ->
  states c' !! record_id r = Some s
  /\ forall rid, rid ∈ supersedes r -> states c !! rid = Some R_ACTIVE /\ states c' !! rid = Some R_SUPERSEDED.
Proof.
  intros Hc Hr Ha Hs Hna H.
  apply (supersede_returns files) in H as (_ & _ & _ & Hsup & _ & _ & Hlast); [|done..].
  split; [by rewrite Hlast, Hs|]. intros rid Hrid. destruct (Hsup rid Hrid) as [Hact Hst]. split; [|done].
  by apply is_active_spec in Hact as [_ ?].
Qed.
End Lessons.

(** ** Retrieval *)

Section Retrieval.
Context (files : artifact_files).

(** The times the eligibility test reads can all be converted to UTC. *)
Definition times_readable (r : MemoryRecord) : bool :=
  forallb (fun t => match utc_instant t with Ok _ => true | Raise _ => false end)
    (available_at r :: valid_from r :: match valid_to r with Some t => [t] | None => [] end).

Definition moment (t : string) : Z := match utc_instant t with Ok z => z | Raise _ => 0 end.

(** Which entries a request may see. *)
Record visible (c : MemoryCatalog) (q : RetrievalRequest) (e : MemoryEntry) : Prop := {
  vi_active : states c !! record_id (entry_record e) = Some R_ACTIVE;
  vi_available : (moment (available_at (entry_record e)) <= moment (rq_now q))%Z;
  vi_started : (moment (valid_from (entry_record e)) <= moment (rq_now q))%Z;
  vi_lasting : forall t, valid_to (entry_record e) = Some t -> (moment (rq_now q) <= moment t)%Z;
  vi_role : rq_role q ∈ access_roles (entry_access e);
  vi_scopes : forall s, s ∈ access_scopes (entry_access e) -> s ∈ rq_data_scopes q;
  vi_sensitivity : sensitivity (entry_record e) ∈ sensitivity_scopes q;
  vi_subject : in_scope (entry_record e) q = true }.

Lemma readable_moment t : (match utc_instant t with Ok _ => true | Raise _ => false end) = true -> utc_instant t = Ok (moment t).
Proof. unfold moment. by destruct (utc_instant t). Qed.

Lemma eligible_decides c e q now : times_readable (entry_record e) = true -> utc_instant (rq_now q) = Ok now ->
  exists b, _eligible c e q now = Ok b /\ (b = true <-> visible c q e).
Proof.
  unfold times_readable. cbn [forallb]. intros H Hnow. apply andb_true_iff in H as [Ha%readable_moment H].
  apply andb_true_iff in H as [Hv%readable_moment Ht].
  assert (Hm : moment (rq_now q) = now) by (unfold moment; by rewrite Hnow).
  assert (He : exists b, elapsed (entry_record e) now = Ok b
    /\ (b = false <-> forall t, valid_to (entry_record e) = Some t -> (now <= moment t)%Z)).
  { unfold elapsed. destruct (valid_to (entry_record e)) as [t|]; [|by exists false].
    cbn [forallb] in Ht. rewrite andb_true_r in Ht. apply readable_moment in Ht. rewrite Ht. cbn [rbind]. eexists. split; [done|].
    rewrite Z.ltb_ge. split; [by intros ? ? [= <-]|auto]. }
  unfold _eligible. case_bool_decide as Hst; cbn [negb]; [|exists false; split; [done|]; by split; [|intros []]].
  rewrite Ha. cbn [rbind]. destruct (now <? moment _) eqn:E1.
  { exists false. split; [done|]. split; [done|]. intros []. bool_hyps. lia. }
  rewrite Hv. cbn [rbind]. destruct (now <? moment (valid_from _)) eqn:E2.
  { exists false. split; [done|]. split; [done|]. intros []. bool_hyps. lia. }
  destruct He as (b & -> & He). cbn [rbind]. destruct b.
  { exists false. split; [done|]. split; [done|]. intros []. rewrite Hm in *. by discriminate (proj2 He). }
  eexists. split; [done|]. bool_hyps. unfold subset. rewrite !andb_true_iff, !mem_spec, forallb_spec. split.
  - intros [[[H1 H2] H3] H4]. split; try done; rewrite ?Hm; [lia|lia|by apply He|]. intros s Hs. by apply mem_spec, H2.
  - intros []. split; [split; [split|]|]; try done. intros s Hs. apply mem_spec. auto.
Qed.

Lemma omap_chosen {A} (P : A -> bool) l : omap id (map (fun x => if P x then Some x else None) l) = List.filter P l.
Proof. induction l as [|x l IH]; [done|]. cbn. destruct (P x); cbn; by rewrite IH. Qed.

Lemma NoDup_map_filter {A} (f : A -> string) (P : A -> bool) l : NoDup (map f l) -> NoDup (map f (List.filter P l)).
Proof.
  induction l as [|x l IH]; cbn; [done|]. intros [Hn Hl]%NoDup_cons. destruct (P x); cbn; [|auto].
  apply NoDup_cons. split; [|auto]. intros (y & E & Hy)%list_elem_of_fmap. apply Hn, list_elem_of_fmap. exists y. split; [done|].
  apply list_elem_of_In, List.filter_In in Hy as [Hy _]. by apply list_elem_of_In.
Qed.

Lemma sorted_filter {A} (f : A -> string) (P : A -> bool) l :
  StronglySorted (key_le id) (map f l) -> StronglySorted (key_le f) (List.filter P l).
Proof.
  induction l as [|x l IH]; cbn; [constructor|]. intros H. inversion H as [|? ? H1 H2]; subst.
  destruct (P x); [|auto]. constructor; [auto|]. apply Forall_forall. intros y Hy. rewrite Forall_forall in H2.
  apply (H2 (f y)), list_elem_of_fmap. exists y. split; [done|].
  apply list_elem_of_In, List.filter_In in Hy as [Hy _]. by apply list_elem_of_In.
Qed.

(** What a request may see is decided exactly.  On a catalog whose times
    can be converted, an admitted request gets an answer: the registered
    entries that are active, already available, within their validity, open
    to the role, to the request's data scopes and sensitivities, and about
    the request's subject; those and no others, each once, in the order of
    their record identifiers. *)
Theorem active_records_exact c q : catalog_ok files c -> check_request q = Ok tt ->
  (forall rid e, entries c !! rid = Some e -> times_readable (entry_record e) = true) ->
  exists found, active_records c q = Ok found
    /\ (forall e, e ∈ found <-> entries c !! record_id (entry_record e) = Some e /\ visible c q e)
    /\ NoDup (map (fun e => record_id (entry_record e)) found)
    /\ StronglySorted (key_le (fun e => record_id (entry_record e))) found.
Proof.
  intros Hc Hq Ht. unfold check_request in Hq. take_guard Hq H1. take_guard Hq H2. take_ok Hq now Hnow.
  unfold active_records. rewrite Hnow. cbn [rbind].
  set (P := fun e => match _eligible c e q now with Ok b => b | Raise _ => false end).
  assert (Hlist : forall e, e ∈ sorted_entries c -> _eligible c e q now = Ok (P e) /\ (P e = true <-> visible c q e)).
  { intros e He. apply (elem_of_sorted_entries c e files Hc) in He.
    destruct (eligible_decides c e q now (Ht _ _ He) Hnow) as (b & Hb & Hv). unfold P. by rewrite Hb. }
  assert (Hrun : map_result (fun e => let? ok := _eligible c e q now in Ok (if ok : bool then Some e else None)) (sorted_entries c)
    = Ok (map (fun e => if P e then Some e else None) (sorted_entries c))).
  { rewrite <- (map_id (sorted_entries c)) at 1. apply map_result_map. intros e He. by rewrite (proj1 (Hlist e He)). }
  rewrite Hrun. cbn [rbind]. rewrite omap_chosen. eexists. split; [reflexivity|]. split; [|split].
  - intros e. rewrite list_elem_of_In, List.filter_In, <- list_elem_of_In. rewrite <- (elem_of_sorted_entries c e files Hc).
    split; intros [He H]; (split; [done|]); by apply Hlist.
  - apply NoDup_map_filter. rewrite (sorted_entries_keys c files Hc). apply sorted_keys_NoDup.
  - apply sorted_filter. rewrite (sorted_entries_keys c files Hc). apply (sorted_by_sorted id).
Qed.
End Retrieval.

(** ** A small catalog *)

Lemma empty_catalog_ok files : catalog_ok files empty_catalog.
Proof. split; cbn; try done. intros l1 ev l2 E. by destruct l1. Qed.

Module SampleMemory.

Definition bodies : list string := ["the parser drops a tail"; "the loop misses a bound"; "check the ends of every range"].
Definition sample_files : artifact_files :=
  fold_left (fun files body => (put (fun _ => false) body "evidence" files).2) bodies ∅.
Definition digest_of (n : nat) : string := body_digest (nth n bodies "").

Definition episode (rid : string) (n : nat) (ends : option string) : MemoryRecord :=
  {| record_id := rid; memory_class := "episode"; scope := "global"; subject_keys := ["parser"]; content_ref := digest_of n;
     source_refs := ["run-1"]; authority_level := "verified"; sensitivity := "internal"; valid_from := "2026-01-01T00:00:00Z";
     valid_to := ends; recorded_at := "2026-01-01T00:00:00Z"; available_at := "2026-01-01T00:00:00Z";
     record_state := R_ACTIVE; supersedes := []; superseded_by := []; evaluator_id := Some "evaluator-1";
     outcome_refs := ["outcome-1"]; retention_policy := "keep"; record_digest := digest_of n |}.
Definition first_episode : MemoryRecord := episode "MEMORY-a" 0 None.
Definition second_episode : MemoryRecord := episode "MEMORY-b" 1 (Some "2026-06-01T00:00:00Z").
Definition lesson_named (rid : string) : MemoryRecord :=
  {| record_id := rid; memory_class := "lesson"; scope := "global"; subject_keys := ["parser"]; content_ref := digest_of 2;
     source_refs := ["run-2"]; authority_level := "verified"; sensitivity := "internal"; valid_from := "2026-01-02T00:00:00Z";
     valid_to := None; recorded_at := "2026-01-02T00:00:00Z"; available_at := "2026-01-02T00:00:00Z";
     record_state := R_ACTIVE; supersedes := ["MEMORY-a"; "MEMORY-b"]; superseded_by := [];
     evaluator_id := Some "evaluator-1"; outcome_refs := ["outcome-2"]; retention_policy := "keep"; record_digest := digest_of 2 |}.
Definition lesson : MemoryRecord := lesson_named "MEMORY-c".
Definition everyone : MemoryAccess := {| access_roles := ["architect"; "optimizer"]; access_scopes := ["mission"]; evaluator_visible := true |}.

(** Two episodes, and the same with the lesson registered and quarantined. *)
Definition two_episodes : MemoryCatalog :=
  ((register sample_files first_episode everyone ;* register sample_files second_episode everyone) empty_catalog).2.
Definition retired_lesson : MemoryCatalog :=
  ((register sample_files lesson everyone ;* quarantine "MEMORY-c" "2026-02-01T00:00:00Z" "doubtful" None) two_episodes).2.

Definition contexts : gmap string string := {["MEMORY-a" := "mission-1"; "MEMORY-b" := "mission-2"]}.
Definition at_least_two : ConsolidationPolicy := {| minimum_independent_episodes := 2; minimum_distinct_contexts := 2 |}.
Definition consolidated := consolidate sample_files lesson everyone ["MEMORY-b"; "MEMORY-a"] contexts "2026-02-01T00:00:00Z" "proved" at_least_two two_episodes.
Definition request : RetrievalRequest :=
  {| rq_mission_id := "MISSION-1"; rq_work_id := "WORK-1"; rq_role := "architect"; rq_now := "2026-03-01T00:00:00Z";
     rq_data_scopes := ["mission"]; repository_key := None; sensitivity_scopes := ["public"; "internal"]; required_sensitivities := [] |}.

Lemma two_episodes_ok : catalog_ok sample_files two_episodes.
Proof.
  apply (stable_bind sample_files (register sample_files first_episode everyone) (fun _ => register sample_files second_episode everyone)).
  - apply stable_register; vm_compute; reflexivity.
  - intros _. apply stable_register; vm_compute; reflexivity.
  - apply empty_catalog_ok.
Qed.

Lemma retired_lesson_ok : catalog_ok sample_files retired_lesson.
Proof.
  apply (stable_bind sample_files (register sample_files lesson everyone)
    (fun _ => quarantine "MEMORY-c" "2026-02-01T00:00:00Z" "doubtful" None)).
  - apply stable_register; vm_compute; reflexivity.
  - intros _. apply stable_quarantine.
  - apply two_episodes_ok.
Qed.

Definition events_of {S A} (x : result (list A) * S) : list A := match x.1 with Ok l => l | Raise _ => [] end.

Lemma consolidated_lessons_are_evidenced_witness :
  states consolidated.2 !! "MEMORY-a" = Some R_SUPERSEDED /\ states consolidated.2 !! "MEMORY-c" = Some R_ACTIVE
  /\ exists r1 r2, r1 ∈ supersedes lesson /\ r2 ∈ supersedes lesson /\ contexts !! r1 <> contexts !! r2.
Proof.
  split; [vm_compute; reflexivity|]. split; [vm_compute; reflexivity|].
  assert (H : consolidated = (Ok (events_of consolidated), consolidated.2)) by (vm_compute; reflexivity).
  destruct (consolidated_lessons_are_evidenced sample_files two_episodes lesson everyone ["MEMORY-b"; "MEMORY-a"] contexts
    "2026-02-01T00:00:00Z" "proved" at_least_two at_least_two (events_of consolidated) consolidated.2 two_episodes_ok
    ltac:(vm_compute; reflexivity) ltac:(vm_compute; reflexivity) eq_refl H) as (_ & _ & _ & _ & _ & Hk & _).
  exact Hk.
Defined.

Definition june : string := "2026-06-02T00:00:00Z".

Lemma expire_retires_exactly_the_elapsed_witness : exists evs c', expire june two_episodes = (Ok evs, c')
  /\ map ev_record evs = ["MEMORY-b"] /\ states c' !! "MEMORY-b" = Some R_EXPIRED /\ states c' !! "MEMORY-a" = Some R_ACTIVE.
Proof.
  destruct (expire_retires_exactly_the_elapsed sample_files (moment june) june two_episodes two_episodes_ok)
    as (evs & c' & H & Hr & Hs & _).
  - vm_compute. reflexivity.
  - intros rid e He. apply elem_of_map_to_list in He. vm_compute in He.
    repeat (apply elem_of_cons in He as [[= -> ->]|He]; [eexists; vm_compute; reflexivity|]). by apply elem_of_nil in He.
  - intros rid _. vm_compute. by apply not_elem_of_nil.
  - exists evs, c'. split; [exact H|]. split; [rewrite Hr; vm_compute; reflexivity|].
    split; rewrite Hs; vm_compute; reflexivity.
Defined.

Lemma active_records_exact_witness : exists found, active_records two_episodes request = Ok found
  /\ forall e, e ∈ found <-> entries two_episodes !! record_id (entry_record e) = Some e /\ visible two_episodes request e.
Proof.
  destruct (active_records_exact sample_files two_episodes request two_episodes_ok) as (found & H & He & _).
  - vm_compute. reflexivity.
  - intros rid e He. apply elem_of_map_to_list in He. vm_compute in He.
    repeat (apply elem_of_cons in He as [[= -> ->]|He]; [vm_compute; reflexivity|]). by apply elem_of_nil in He.
  - exists found. split; [exact H|exact He].
Defined.

Lemma failed_supersession_keeps_successor_witness : exists e c1,
  supersede sample_files lesson everyone "soon" "better" two_episodes = (Raise e, c1)
  /\ states c1 !! "MEMORY-c" = Some R_ACTIVE /\ states c1 !! "MEMORY-a" = Some R_ACTIVE.
Proof.
  set (run := register sample_files lesson everyone two_episodes).
  destruct (failed_supersession_keeps_successor sample_files two_episodes lesson everyone "soon" "better"
    {| exc_cls := ValueError; exc_msg := "time must be RFC 3339" |} run.2 two_episodes_ok) as (H1 & H2 & H3).
  - vm_compute. reflexivity.
  - reflexivity.
  - discriminate.
  - apply (bool_decide_unpack _). vm_compute. exact I.
  - intros rid Hr. repeat (apply elem_of_cons in Hr as [->|Hr]; [vm_compute; reflexivity|]). by apply elem_of_nil in Hr.
  - vm_compute. reflexivity.
  - vm_compute. reflexivity.
  - eexists _, _. split; [exact H1|]. split; [exact H2|]. apply H3. by left.
Defined.

Definition superseded := supersede sample_files lesson everyone "2026-02-02T00:00:00Z" "better" retired_lesson.

Lemma retired_successor_supersedes_witness :
  states superseded.2 !! "MEMORY-c" = Some R_QUARANTINED /\ states superseded.2 !! "MEMORY-a" = Some R_SUPERSEDED.
Proof.
  assert (H : superseded = (Ok (events_of superseded), superseded.2)) by (vm_compute; reflexivity).
  destruct (retired_successor_supersedes sample_files retired_lesson lesson everyone "2026-02-02T00:00:00Z" "better"
    (events_of superseded) superseded.2 R_QUARANTINED retired_lesson_ok ltac:(vm_compute; reflexivity)
    ltac:(vm_compute; reflexivity) ltac:(vm_compute; reflexivity) ltac:(discriminate) H) as [H1 H2].
  split; [exact H1|]. apply H2. by left.
Defined.

Definition stored_lesson : contract :=
  match loads (canonical_bytes (JObj (record_to_document lesson))) with Some (JObj d) => d | _ => [] end.
Lemma memory_record_round_trip_witness : record_from_document (JObj stored_lesson) = Ok lesson.
Proof.
  apply memory_record_round_trip; vm_compute; reflexivity.
Defined.

Definition returning : string := ("a" +:+ String (chr 13) "b")%stdpp.
Lemma stored_artifact_reads_back_witness :
  let run := put (fun _ => false) returning "evidence" ∅ in
  artifact_get run.2 (body_digest returning) = raise MemoryDenied "memory artifact digest mismatch".
Proof.
  destruct (stored_artifact_reads_back (fun _ => false) returning "evidence" ∅
    {| artifact_digest := body_digest returning; token_count := 1 |} {[ body_digest returning := returning ]}) as (_ & _ & H).
  - vm_compute. reflexivity.
  - destruct H as [_ H]; [reflexivity|]. cbv zeta.
    assert (E : (put (fun _ => false) returning "evidence" ∅).2 = {[ body_digest returning := returning ]}) by (vm_compute; reflexivity).
    rewrite E. apply H. vm_compute. discriminate.
Defined.

End SampleMemory.

End Memory.
