(* ===== verification/MemoryStore.v ===== *)
(** * Memory snapshots

    The rest of [brain_kernel/memory.py]: [MemorySnapshot] with its document,
    [MemoryCatalogStore] that keeps snapshots as content-addressed files, and
    [MemoryCatalog.rebuild], which replays one.  The reader of a document does
    not look at the types of most members: a document in which a member has
    another type than the dataclass declares is outside the model, and the
    reader's result for it is [None]. *)

From S2P Require Import Prelude Sha256 Canonical PyLib Schema Contracts WorkItems MemoryRecords Memory.
From Stdlib Require Import Ascii DecimalString.

Module MemoryStore.
Export Memory.

(** ** Snapshots and their documents *)

Record MemorySnapshot := {
  sn_entries : list MemoryEntry;
  sn_events : list MemoryLifecycleEvent;
  sn_conflicts : list MemoryConflict }.

Definition access_document (a : MemoryAccess) : json :=
  JObj [("roles", strs (access_roles a)); ("data_scopes", strs (access_scopes a));
        ("evaluator_visible", JBool (evaluator_visible a))].
Definition entry_document (e : MemoryEntry) : json :=
  JObj [("record", JObj (record_to_document (entry_record e))); ("access", access_document (entry_access e))].
(** Also what [MemoryLifecycleEvent.digest] digests. *)
Definition event_document (ev : MemoryLifecycleEvent) : json :=
  JObj [("sequence", JInt (ev_sequence ev)); ("event_id", JStr (ev_id ev)); ("record_id", JStr (ev_record ev));
        ("previous_state", JStr (memory_value (ev_previous ev))); ("state", JStr (memory_value (ev_state ev)));
        ("occurred_at", JStr (ev_occurred_at ev)); ("reason", JStr (ev_reason ev)); ("successor_id", opt_str (ev_successor ev))].
Definition conflict_document (k : MemoryConflict) : json :=
  JObj [("conflict_id", JStr (conflict_id k)); ("record_ids", strs (conflict_records k));
        ("reason", JStr (conflict_reason k)); ("recorded_at", JStr (conflict_recorded_at k))].

(** [MemorySnapshot.to_document] and [digest] *)
Definition snapshot_to_document (s : MemorySnapshot) : json :=
  JObj [("entries", JList (map entry_document (sn_entries s)));
        ("lifecycle_events", JList (map event_document (sn_events s)));
        ("conflicts", JList (map conflict_document (sn_conflicts s)))].
Definition snapshot_digest (s : MemorySnapshot) : string := canonical_digest (snapshot_to_document s).

(** *** Reading a document *)

(** A result, or a value outside the model. *)
Definition reader (A : Type) : Type := option (result A).
Definition then_read {A B} (m : reader A) (f : A -> reader B) : reader B :=
  match m with
  | Some (Ok a) => f a
  | Some (Raise e) => Some (Raise e)
  | None => None
  end.
Definition typed {A} (o : option A) : reader A := option_map Ok o.
Fixpoint read_all {A} (f : json -> reader A) (l : list json) : reader (list A) :=
  match l with
  | [] => Some (Ok [])
  | x :: xs => then_read (f x) (fun y => then_read (read_all f xs) (fun ys => Some (Ok (y :: ys))))
  end.
Notation "'let!' x ':=' m 'in' k" := (then_read m (fun x => k)) (at level 10, x pattern, m at level 100, k at level 200) : hive_scope.

(** [set(d) == {...}] *)
Definition has_exactly (fields : list string) (d : contract) : bool :=
  subset d.*1 fields && forallb (fun k => has k d) fields.
Fixpoint as_strs (l : list json) : option (list string) :=
  match l with
  | [] => Some []
  | x :: xs => match as_str x, as_strs xs with Some s, Some ss => Some (s :: ss) | _, _ => None end
  end.
Definition as_opt_str (j : json) : option (option string) :=
  match j with JNull => Some None | JStr s => Some (Some s) | _ => None end.

Definition malformed {A} (what : string) : reader A := Some (raise ValueError ("memory snapshot " +:+ what +:+ " is malformed")%stdpp).

Definition access_from (a : contract) : reader MemoryAccess :=
  if negb (has_exactly ["roles"; "data_scopes"; "evaluator_visible"] a) then malformed "access" else
  match get "roles" a, get "data_scopes" a, get "evaluator_visible" a with
  | JList roles, JList scopes, JBool v =>
      let! rs := typed (as_strs roles) in
      let! ss := typed (as_strs scopes) in
      let access := {| access_roles := rs; access_scopes := ss; evaluator_visible := v |} in
      Some (check_access access ;? Ok access)
  | _, _, _ => malformed "access"
  end.

Definition entry_from (item : json) : reader MemoryEntry :=
  match item with
  | JObj i =>
      if negb (has_exactly ["record"; "access"] i) then malformed "entry" else
      match get "record" i, get "access" i with
      | JObj r, JObj a =>
          let! record := Some (record_from_document (JObj r)) in
          let! access := access_from a in
          Some (Ok {| entry_record := record; entry_access := access |})
      | _, _ => malformed "entry"
      end
  | _ => malformed "entry"
  end.

Definition event_fields : list string :=
  ["sequence"; "event_id"; "record_id"; "previous_state"; "state"; "occurred_at"; "reason"; "successor_id"].
Definition event_from (item : json) : reader MemoryLifecycleEvent :=
  match item with
  | JObj i =>
      if negb (has_exactly event_fields i) then malformed "lifecycle event" else
      let! previous := Some (memory_state_of (get "previous_state" i)) in
      let! state := Some (memory_state_of (get "state" i)) in
      typed (match as_int (get "sequence" i), as_str (get "event_id" i), as_str (get "record_id" i),
                   as_str (get "occurred_at" i), as_str (get "reason" i), as_opt_str (get "successor_id" i) with
             | Some n, Some eid, Some rid, Some at_, Some reason, Some successor =>
                 Some {| ev_sequence := n; ev_id := eid; ev_record := rid; ev_previous := previous; ev_state := state;
                         ev_occurred_at := at_; ev_reason := reason; ev_successor := successor |}
             | _, _, _, _, _, _ => None
             end)
  | _ => malformed "lifecycle event"
  end.

Definition conflict_fields : list string := ["conflict_id"; "record_ids"; "reason"; "recorded_at"].
Definition conflict_from (item : json) : reader MemoryConflict :=
  match item with
  | JObj i =>
      if negb (has_exactly conflict_fields i) then malformed "conflict" else
      match get "record_ids" i with
      | JList ids =>
          let! conflict := typed (match as_str (get "conflict_id" i), as_strs ids, as_str (get "reason" i), as_str (get "recorded_at" i) with
                                  | Some k, Some rs, Some reason, Some at_ =>
                                      Some {| conflict_id := k; conflict_records := rs; conflict_reason := reason; conflict_recorded_at := at_ |}
                                  | _, _, _, _ => None
                                  end) in
          Some (check_conflict conflict ;? Ok conflict)
      | _ => malformed "conflict"
      end
  | _ => malformed "conflict"
  end.

Definition entry_id (e : MemoryEntry) : string := record_id (entry_record e).

(** [MemorySnapshot.from_document] *)
Definition snapshot_from_document (d : contract) : reader MemorySnapshot :=
  if negb (has_exactly ["entries"; "lifecycle_events"; "conflicts"] d) then Some (raise ValueError "memory snapshot has unsupported fields") else
  match get "entries" d, get "lifecycle_events" d, get "conflicts" d with
  | JList es, JList vs, JList ks =>
      let! es' := read_all entry_from es in
      let! vs' := read_all event_from vs in
      let! ks' := read_all conflict_from ks in
      Some (require (bool_decide (map entry_id es' = sorted_str (map entry_id es'))) ValueError "memory snapshot entries are not sorted" ;?
            Ok {| sn_entries := es'; sn_events := vs'; sn_conflicts := ks' |})
  | _, _, _ => Some (raise ValueError "memory snapshot lists are malformed")
  end.

(** ** Snapshot and rebuild *)

(** [MemoryCatalog.snapshot] *)
Definition snapshot (c : MemoryCatalog) : MemorySnapshot :=
  {| sn_entries := sorted_entries c; sn_events := lifecycle c; sn_conflicts := sorted_conflicts c |}.

(** [MemoryCatalog.rebuild]: the calls on the new catalog. *)
Definition rebuild_event (ev : MemoryLifecycleEvent) : M MemoryCatalog unit :=
  let* rebuilt := transition (ev_record ev) (ev_state ev) (ev_id ev) (ev_occurred_at ev) (ev_reason ev) (ev_successor ev) in
  guardM (bool_decide (rebuilt = ev)) MemoryDenied "memory lifecycle reconstruction diverged".
Definition rebuild_conflict (k : MemoryConflict) : M MemoryCatalog unit :=
  let* rebuilt := record_conflict (conflict_records k) (conflict_reason k) (conflict_recorded_at k) in
  guardM (bool_decide (rebuilt = k)) MemoryDenied "memory conflict reconstruction diverged".
Definition replay_snapshot (files : artifact_files) (s : MemorySnapshot) : M MemoryCatalog unit :=
  loopM (fun e => register files (entry_record e) (entry_access e)) (sn_entries s) ;*
  loopM rebuild_event (sn_events s) ;*
  loopM rebuild_conflict (sn_conflicts s) ;*
  ret tt.
Definition rebuild (files : artifact_files) (s : MemorySnapshot) : result MemoryCatalog :=
  match replay_snapshot files s empty_catalog with
  | (Ok _, c) => Ok c
  | (Raise e, _) => Raise e
  end.

(** ** The store *)

(** The files below [memory/snapshots], by the digest in their name. *)
Definition snapshot_files : Type := gmap string string.

Definition persist (c : MemoryCatalog) : M snapshot_files string :=
  let s := snapshot c in
  let d := snapshot_digest s in
  let encoded := canonical_bytes (snapshot_to_document s) in
  let* stored := getM in
  match stored !! d with
  | None => putM (<[d := encoded]> stored) ;* ret d
  | Some text => guardM (String.eqb text encoded) MemoryDenied "memory snapshot cannot be rewritten" ;* ret d
  end.

(** [MemoryCatalogStore._path] *)
Definition snapshot_path (digest : string) : result unit :=
  require (is_digest digest) ValueError "memory snapshot reference must be a sha256 digest".

(** The text of a snapshot file as a document. *)
Definition snapshot_text (stored : snapshot_files) (digest : string) : result json :=
  match stored !! digest with
  | Some text =>
      match loads (universal_newlines text) with
      | Some document => Ok document
      | None => raise KeyError ("unknown or corrupt memory snapshot: " +:+ digest)%stdpp
      end
  | None => raise KeyError ("unknown or corrupt memory snapshot: " +:+ digest)%stdpp
  end.

Definition restore (files : artifact_files) (stored : snapshot_files) (digest : string) : reader MemoryCatalog :=
  let! _ := Some (snapshot_path digest) in
  let! document := Some (snapshot_text stored digest) in
  match document with
  | JObj d =>
      let! s := option_map (wrap [ValueError; MemoryDenied] MemoryDenied "memory snapshot is corrupt") (snapshot_from_document d) in
      let! _ := Some (require (String.eqb (snapshot_digest s) digest) MemoryDenied "memory snapshot digest mismatch") in
      Some (rebuild files s)
  | _ => Some (raise MemoryDenied "memory snapshot is not an object")
  end.

(** [snapshots()]: the stems are digests without their prefix, so the order is
    the order of the digests. *)
Definition snapshots (stored : snapshot_files) : list string := sorted_keys stored.

(** ** Printed JSON survives newline translation *)

Lemma no_return_append s t : no_return s = true -> no_return t = true -> no_return (s +:+ t)%stdpp = true.
Proof.
  unfold no_return. induction s as [|a s IH]; [done|]. rewrite append_cons. cbn [all_chars]. intros H Ht.
  apply andb_true_iff in H as [-> H]. by apply IH.
Qed.

Lemma no_return_escape_char a t : no_return t = true -> no_return (escape_char a t) = true.
Proof. intros H. destruct a as [[] [] [] [] [] [] [] []]; cbn; by rewrite ?H. Qed.

Lemma no_return_quote s t : no_return t = true -> no_return (quote s t) = true.
Proof.
  intros H. unfold quote. change (no_return (escape s (String dquote t)) = true).
  induction s as [|a s IH]; [exact H|]. cbn [escape]. by apply no_return_escape_char.
Qed.

Lemma no_return_uint d : no_return (NilEmpty.string_of_uint d) = true.
Proof. by induction d. Qed.

Lemma no_return_print j : forall t, no_return t = true -> no_return (print j t) = true.
Proof.
  induction j as [| [] | z | s | l IH | l IH] using json_ind'; intros t Ht; cbn [print].
  1-3: by apply no_return_append.
  - apply no_return_append; [|done]. unfold str_of_Z. destruct z as [|p|p]; cbn; try apply no_return_uint. done.
  - by apply no_return_quote.
  - destruct l as [|x l]; [by apply no_return_append|]. change (no_return (print x (elems_tail t l)) = true).
    apply Forall_cons in IH as [Hx Hl]. apply Hx. clear Hx x. induction Hl as [|y l Hy _ IHl]; [exact Ht|].
    change (no_return (print y (elems_tail t l)) = true). by apply Hy.
  - destruct l as [|[k x] l]; [by apply no_return_append|].
    change (no_return (quote k (String ":" (print x (members_tail t l)))) = true). apply no_return_quote.
    change (no_return (print x (members_tail t l)) = true).
    apply Forall_cons in IH as [Hx Hl]. apply Hx. clear Hx x k. induction Hl as [|[k y] l Hy _ IHl]; [exact Ht|].
    change (no_return (quote k (String ":" (print y (members_tail t l)))) = true). apply no_return_quote. by apply Hy.
Qed.

Lemma dumps_newlines j : universal_newlines (canonical_bytes j) = canonical_bytes j.
Proof. apply universal_newlines_id, no_return_print. done. Qed.

(** ** Documents read back *)

Lemma as_strs_strs l : as_strs (map JStr l) = Some l.
Proof. induction l as [|x l IH]; [done|]. cbn. by rewrite IH. Qed.

Lemma access_reads_back a : check_access a = Ok tt -> exists d, norm (access_document a) = JObj d /\ access_from d = Some (Ok a).
Proof.
  intros H. exists [("data_scopes", strs (access_scopes a)); ("evaluator_visible", JBool (evaluator_visible a));
                   ("roles", strs (access_roles a))].
  split.
  - change (norm (access_document a)) with (JObj [("data_scopes", norm (strs (access_scopes a)));
      ("evaluator_visible", JBool (evaluator_visible a)); ("roles", norm (strs (access_roles a)))]). by rewrite !norm_strs.
  - unfold access_from. cbn -[check_access as_strs map]. rewrite !as_strs_strs. cbn [typed option_map then_read]. destruct a.
    cbn in *. by rewrite H.
Qed.

Lemma entry_reads_back e : check_memory_record (entry_record e) = Ok tt -> check_access (entry_access e) = Ok tt ->
  entry_from (norm (entry_document e)) = Some (Ok e).
Proof.
  intros Hr Ha. destruct (access_reads_back (entry_access e) Ha) as (da & Ea & Hda).
  destruct (norm_obj_members (record_to_document (entry_record e))) as (dr & Er & _).
  assert (Hrec : record_from_document (JObj dr) = Ok (entry_record e)).
  { destruct (stored_members (record_to_document (entry_record e)) dr record_fields_NoDup Er) as [Hg Hk].
    apply record_reads_back; [done| |intros k; by rewrite Hk]. intros k. rewrite Hg. apply record_document_plain. }
  change (norm (entry_document e)) with (JObj [("access", norm (access_document (entry_access e)));
    ("record", norm (JObj (record_to_document (entry_record e))))]).
  rewrite Ea, Er. cbn -[record_from_document access_from]. rewrite Hrec. cbn [then_read]. rewrite Hda. by destruct e.
Qed.

Lemma event_reads_back ev : event_from (norm (event_document ev)) = Some (Ok ev).
Proof.
  destruct ev as [n eid rid p s at_ reason o].
  change (norm (event_document _)) with (JObj [("event_id", JStr eid); ("occurred_at", JStr at_);
    ("previous_state", JStr (memory_value p)); ("reason", JStr reason); ("record_id", JStr rid); ("sequence", JInt n);
    ("state", JStr (memory_value s)); ("successor_id", norm (opt_str o))]).
  unfold event_from. change (has_exactly _ _) with true. cbn [negb].
  change (get "previous_state" _) with (JStr (memory_value p)). change (get "state" _) with (JStr (memory_value s)).
  rewrite !memory_state_reads. by destruct o.
Qed.

Lemma conflict_reads_back k : check_conflict k = Ok tt -> conflict_from (norm (conflict_document k)) = Some (Ok k).
Proof.
  intros H. change (norm (conflict_document k)) with (JObj [("conflict_id", JStr (conflict_id k));
    ("reason", JStr (conflict_reason k)); ("record_ids", norm (strs (conflict_records k))); ("recorded_at", JStr (conflict_recorded_at k))]).
  rewrite norm_strs. unfold conflict_from. change (has_exactly _ _) with true. cbn -[check_conflict as_strs map].
  rewrite as_strs_strs. cbn [typed option_map then_read]. destruct k. cbn in *. by rewrite H.
Qed.

Lemma read_all_map {A} (f : json -> reader A) (g : A -> json) l :
  (forall x, x ∈ l -> f (norm (g x)) = Some (Ok x)) -> read_all f (map norm (map g l)) = Some (Ok l).
Proof.
  induction l as [|x l IH]; intros H; [done|]. cbn. rewrite H by (by left). cbn. rewrite IH; [done|].
  intros y Hy. apply H. by right.
Qed.

Record snapshot_ok (s : MemorySnapshot) : Prop := {
  so_entries : forall e, e ∈ sn_entries s -> check_memory_record (entry_record e) = Ok tt /\ check_access (entry_access e) = Ok tt;
  so_conflicts : forall k, k ∈ sn_conflicts s -> check_conflict k = Ok tt;
  so_sorted : map entry_id (sn_entries s) = sorted_str (map entry_id (sn_entries s)) }.

(** A snapshot of checked entries and conflicts, in order, reads back from the
    canonical form of its document. *)
Lemma snapshot_reads_back s : snapshot_ok s ->
  exists d, norm (snapshot_to_document s) = JObj d /\ snapshot_from_document d = Some (Ok s).
Proof.
  intros [He Hk Hs]. exists [("conflicts", JList (map norm (map conflict_document (sn_conflicts s))));
    ("entries", JList (map norm (map entry_document (sn_entries s))));
    ("lifecycle_events", JList (map norm (map event_document (sn_events s))))].
  split; [reflexivity|]. unfold snapshot_from_document. cbn -[read_all sorted_str norm map].
  rewrite (read_all_map entry_from entry_document) by (intros e H; by apply entry_reads_back; apply He).
  cbn -[read_all sorted_str norm map]. rewrite (read_all_map event_from event_document) by (intros ev _; apply event_reads_back).
  cbn -[read_all sorted_str norm map]. rewrite (read_all_map conflict_from conflict_document) by (intros k H; by apply conflict_reads_back, Hk).
  cbn -[sorted_str map]. rewrite bool_decide_eq_true_2 by done. by destruct s.
Qed.

Lemma list_wf {A} (g : A -> json) l : (forall x, json_wf (g x) = true) -> json_wf (JList (map g l)) = true.
Proof. intros H. cbn. apply forallb_spec. intros v (x & -> & _)%list_elem_of_fmap. apply H. Qed.

(** An object with literal keys whose members are well formed. *)
Ltac literal_wf tac :=
  apply object_wf;
  [match goal with |- NoDup ?l => let l' := eval cbn in l in change (NoDup l'); apply (bool_decide_unpack (NoDup l')); vm_compute; exact I end|];
  let k := fresh in let v := fresh in let Hin := fresh in intros k v Hin;
  repeat (apply elem_of_cons in Hin as [[= -> ->]|Hin]; [tac|]); by apply elem_of_nil in Hin.

Lemma entry_wf e : json_wf (entry_document e) = true.
Proof.
  assert (Ha : json_wf (access_document (entry_access e)) = true) by (literal_wf ltac:(first [apply strs_wf|reflexivity])).
  literal_wf ltac:(first [apply record_document_wf|exact Ha]).
Qed.
Lemma event_wf ev : json_wf (event_document ev) = true.
Proof. literal_wf ltac:(first [reflexivity|by destruct (ev_successor ev)]). Qed.
Lemma conflict_wf k : json_wf (conflict_document k) = true.
Proof. literal_wf ltac:(first [apply strs_wf|reflexivity]). Qed.

Lemma snapshot_document_wf s : json_wf (snapshot_to_document s) = true.
Proof.
  literal_wf ltac:(first [apply list_wf, entry_wf|apply list_wf, event_wf|apply list_wf, conflict_wf]).
Qed.

(** ** Rebuilding *)

Lemma sorted_set_id l : NoDup l -> sorted_str l = l -> sorted_set l = l.
Proof. intros Hn Hs. unfold sorted_set. by rewrite dedup_id. Qed.

(** A dictionary filled from a list of values that carry their keys. *)
Section Filled.
Context {A : Type} (key : A -> string).

Definition filled (l : list A) (m : gmap string A) : gmap string A := fold_left (fun m x => <[key x := x]> m) l m.

Lemma filled_lookup l m k x : NoDup (map key l) -> (forall y, y ∈ l -> m !! key y = None) ->
  filled l m !! k = Some x <-> (x ∈ l /\ key x = k) \/ m !! k = Some x.
Proof.
  revert m. induction l as [|y l IH]; intros m Hn Hf; unfold filled; cbn [fold_left].
  - split; [by right|]. intros [[H _]|H]; [by apply elem_of_nil in H|done].
  - apply NoDup_cons in Hn as [Hy Hn]. change (fold_left _ l ?m') with (filled l m'). rewrite IH; [|done|].
    + rewrite lookup_insert_Some, elem_of_cons. split.
      * intros [[H <-]|[[<- <-]|[_ H]]]; auto.
      * intros [[[->|H] <-]|H]; auto. right. right. split; [|done]. intros <-. rewrite Hf in H by (by left). done.
    + intros z Hz. rewrite lookup_insert_ne; [apply Hf; by right|]. intros E. apply Hy, list_elem_of_fmap. exists z. by split.
Qed.

(** Filling an empty dictionary from another's values gives that one. *)
Lemma filled_values (m : gmap string A) l : NoDup (map key l) -> (forall x, x ∈ l <-> m !! key x = Some x) ->
  (forall k x, m !! k = Some x -> key x = k) -> filled l ∅ = m.
Proof.
  intros Hn Hl Hk. apply map_eq. intros k. apply option_eq. intros x. rewrite filled_lookup; [|done|done]. rewrite lookup_empty, Hl. split.
  - by intros [[H <-]|H].
  - intros H. left. assert (E := Hk k x H). by rewrite E.
Qed.
End Filled.

Section Rebuild.
Context (files : artifact_files).

Lemma register_new c e : entry_ok files (entry_id e) e -> entries c !! entry_id e = None ->
  register files (entry_record e) (entry_access e) c = (Ok tt, with_entry c e).
Proof.
  intros [_ _ _ Hv [body Hb]] Hn. unfold register. rewrite run_lift, Hv, run_lift, Hb, run_get.
  unfold entry_id in Hn. rewrite Hn. by destruct e.
Qed.

Lemma register_all es c : (forall e, e ∈ es -> entry_ok files (entry_id e) e) -> NoDup (map entry_id es) ->
  (forall x, x ∈ es -> entries c !! entry_id x = None) ->
  exists out, loopM (fun e => register files (entry_record e) (entry_access e)) es c = (Ok out, fold_left with_entry es c).
Proof.
  revert c. induction es as [|x es IH]; intros c He Hn Hf; [by exists []|].
  apply NoDup_cons in Hn as [Hx Hn]. cbn [loopM fold_left]. rewrite run_bind, register_new by (first [apply He|apply Hf]; by left).
  destruct (IH (with_entry c x)) as [out Hout]; [intros e H; apply He; by right|done| |].
  - intros y Hy. change (entries (with_entry c x)) with (<[entry_id x := x]> (entries c)). rewrite lookup_insert_ne; [apply Hf; by right|].
    intros E. apply Hx, list_elem_of_fmap. exists y. by split.
  - exists (tt :: out). by rewrite run_bind, Hout.
Qed.

Lemma with_entries_rest es c : states c = initial_states (entries c) ->
  entries (fold_left with_entry es c) = filled entry_id es (entries c)
  /\ states (fold_left with_entry es c) = initial_states (entries (fold_left with_entry es c))
  /\ lifecycle (fold_left with_entry es c) = lifecycle c /\ conflicts (fold_left with_entry es c) = conflicts c.
Proof.
  revert c. induction es as [|x es IH]; intros c H; [done|]. cbn [fold_left].
  destruct (IH (with_entry c x)) as (H1 & H2 & H3 & H4); [|by rewrite H1 in *]. cbn. by rewrite initial_insert, H.
Qed.

Lemma rebuild_events evs c : states c = states_after (lifecycle c) (initial_states (entries c)) ->
  (forall l1 ev l2, evs = l1 ++ ev :: l2 -> event_ok (entries c) (lifecycle c ++ l1) ev) ->
  exists out, loopM rebuild_event evs c = (Ok out, with_events c evs).
Proof.
  revert c. induction evs as [|ev evs IH]; intros c Hs Hev; [exists []; by rewrite with_events_nil|].
  cbn [loopM]. rewrite run_bind. unfold rebuild_event at 1. rewrite run_bind, transition_legal;
    [|done|specialize (Hev [] ev evs eq_refl); by rewrite app_nil_r in Hev].
  unfold guardM at 1. rewrite bool_decide_eq_true_2 by done. cbn [require].
  destruct (IH (with_event c ev)) as [out Hout].
  - change (<[ev_record ev := ev_state ev]> (states c) = states_after (lifecycle c ++ [ev]) (initial_states (entries c))).
    by rewrite states_after_app, <- Hs.
  - intros l1 x l2 ->. cbn. rewrite <- (assoc_L (++)). by apply (Hev (ev :: l1) x l2).
  - exists (tt :: out). unfold liftR. rewrite run_bind, Hout. cbn. by rewrite <- with_events_cons.
Qed.

Definition with_conflict (c : MemoryCatalog) (k : MemoryConflict) : MemoryCatalog :=
  {| entries := entries c; states := states c; lifecycle := lifecycle c; conflicts := <[conflict_id k := k]> (conflicts c) |}.

Lemma rebuild_one_conflict c k : conflict_ok (entries c) (conflict_id k) k -> conflicts c !! conflict_id k = None ->
  rebuild_conflict k c = (Ok tt, with_conflict c k).
Proof.
  intros [_ Hkey Hc Hknown] Hn. assert (Hc' := Hc). unfold check_conflict in Hc'. take_guard Hc' H1. take_guard Hc' H2. bool_hyps.
  assert (Hset : sorted_set (conflict_records k) = conflict_records k).
  { apply sorted_set_id; [by eapply bool_decide_eq_true|done]. }
  unfold rebuild_conflict, record_conflict. rewrite run_bind, Hset. cbv zeta. rewrite run_get, run_guard.
  assert (forallb (fun rid => bool_decide (is_Some (entries c !! rid))) (conflict_records k) = true) as ->.
  { apply forallb_spec. intros rid Hr. by apply bool_decide_eq_true, Hknown. }
  rewrite <- Hkey. assert (E : {| conflict_id := conflict_id k; conflict_records := conflict_records k; conflict_reason := conflict_reason k;
    conflict_recorded_at := conflict_recorded_at k |} = k) by (by destruct k).
  rewrite E, run_lift, Hc, run_guard, Hn, run_put. unfold ret, guardM, liftR. by rewrite bool_decide_eq_true_2.
Qed.

Lemma rebuild_conflicts ks c : (forall k, k ∈ ks -> conflict_ok (entries c) (conflict_id k) k) -> NoDup (map conflict_id ks) ->
  (forall k, k ∈ ks -> conflicts c !! conflict_id k = None) ->
  exists out, loopM rebuild_conflict ks c = (Ok out, fold_left with_conflict ks c).
Proof.
  revert c. induction ks as [|k ks IH]; intros c Hk Hn Hf; [by exists []|].
  apply NoDup_cons in Hn as [Hx Hn]. cbn [loopM fold_left]. rewrite run_bind, rebuild_one_conflict by (first [apply Hk|apply Hf]; by left).
  destruct (IH (with_conflict c k)) as [out Hout]; [intros x H; apply Hk; by right|done| |].
  - intros y Hy. cbn. rewrite lookup_insert_ne; [apply Hf; by right|]. intros E. apply Hx, list_elem_of_fmap. exists y. by split.
  - exists (tt :: out). by rewrite run_bind, Hout.
Qed.

Lemma with_conflicts_rest ks c : conflicts (fold_left with_conflict ks c) = filled conflict_id ks (conflicts c)
  /\ entries (fold_left with_conflict ks c) = entries c
  /\ states (fold_left with_conflict ks c) = states c /\ lifecycle (fold_left with_conflict ks c) = lifecycle c.
Proof. revert c. induction ks as [|k ks IH]; intros c; [done|]. cbn [fold_left]. destruct (IH (with_conflict c k)) as (-> & -> & -> & ->). done. Qed.
End Rebuild.

Section Restored.
Context (files : artifact_files).

Lemma sorted_conflicts_spec c k : catalog_ok files c -> k ∈ sorted_conflicts c <-> conflicts c !! conflict_id k = Some k.
Proof.
  intros Hc. unfold sorted_conflicts. rewrite list_elem_of_omap. split.
  - intros (i & _ & H). by rewrite (ko_id _ _ _ (ok_conflicts _ _ Hc _ _ H)).
  - intros H. exists (conflict_id k). split; [|done]. apply sorted_keys_spec. by eexists.
Qed.

Lemma sorted_conflicts_keys c : catalog_ok files c -> map conflict_id (sorted_conflicts c) = sorted_keys (conflicts c).
Proof.
  intros Hc. unfold sorted_conflicts.
  assert (H : forall k, k ∈ sorted_keys (conflicts c) -> is_Some (conflicts c !! k)) by (intros k; by apply sorted_keys_spec).
  revert H. induction (sorted_keys (conflicts c)) as [|k l IH]; intros H; [done|]. cbn.
  destruct (H k) as [e He]; [by left|]. rewrite He. cbn. f_equal; [apply (ok_conflicts _ _ Hc _ _ He)|].
  apply IH. intros k' Hk. apply H. by right.
Qed.

Lemma entry_keys_NoDup c : catalog_ok files c -> NoDup (map entry_id (sorted_entries c)).
Proof.
  intros Hc. change (map entry_id) with (map (fun e => record_id (entry_record e))).
  rewrite (sorted_entries_keys c files Hc). apply sorted_keys_NoDup.
Qed.

(** Replaying the snapshot of a catalog on an empty one gives the catalog. *)
Lemma rebuild_snapshot c : catalog_ok files c -> rebuild files (snapshot c) = Ok c.
Proof.
  intros Hc. unfold rebuild, replay_snapshot, snapshot. cbn [sn_entries sn_events sn_conflicts].
  assert (He : forall e, e ∈ sorted_entries c -> entries c !! entry_id e = Some e) by (intros e; by apply (elem_of_sorted_entries c e files)).
  assert (Hk : forall k, k ∈ sorted_conflicts c -> conflicts c !! conflict_id k = Some k) by (intros k; by apply sorted_conflicts_spec).
  destruct (register_all files (sorted_entries c) empty_catalog) as [o1 H1];
    [intros e H; by apply (ok_entries _ _ Hc), He|by apply entry_keys_NoDup|done|].
  rewrite run_bind, H1. set (c1 := fold_left with_entry (sorted_entries c) empty_catalog).
  destruct (with_entries_rest (sorted_entries c) empty_catalog) as (E1 & E2 & E3 & E4); [done|]. fold c1 in E1, E2, E3, E4.
  assert (Ee : entries c1 = entries c).
  { rewrite E1. apply filled_values; [by apply entry_keys_NoDup|intros e; by apply (elem_of_sorted_entries c e files)|].
    intros k e H. apply (ok_entries _ _ Hc _ _ H). }
  destruct (rebuild_events (lifecycle c) c1) as [o2 H2].
  - by rewrite E3.
  - intros l1 ev l2 E. rewrite Ee, E3. by apply (ok_events _ _ Hc _ _ _ E).
  - rewrite run_bind, H2. set (c2 := with_events c1 (lifecycle c)).
    assert (Ec : conflicts c2 = ∅) by exact E4.
    destruct (rebuild_conflicts (sorted_conflicts c) c2) as [o3 H3].
    + intros k H. change (entries c2) with (entries c1). rewrite Ee. by apply (ok_conflicts _ _ Hc), Hk.
    + rewrite (sorted_conflicts_keys c Hc). apply sorted_keys_NoDup.
    + intros k _. by rewrite Ec.
    + rewrite run_bind, H3. unfold ret. destruct (with_conflicts_rest (sorted_conflicts c) c2) as (F1 & F2 & F3 & F4).
      assert (F5 : conflicts (fold_left with_conflict (sorted_conflicts c) c2) = conflicts c).
      { rewrite F1, Ec. apply filled_values.
        - rewrite (sorted_conflicts_keys c Hc). apply sorted_keys_NoDup.
        - intros k. by apply sorted_conflicts_spec.
        - intros i k H. apply (ok_conflicts _ _ Hc _ _ H). }
      assert (F6 : states c2 = states c).
      { change (states c2) with (states_after (lifecycle c) (states c1)). by rewrite E2, Ee, (ok_states _ _ Hc). }
      assert (F7 : lifecycle c2 = lifecycle c) by (change (lifecycle c2) with (lifecycle c1 ++ lifecycle c); by rewrite E3).
      change (entries c2) with (entries c1) in F2. rewrite Ee in F2. rewrite F6 in F3. rewrite F7 in F4. clear -F2 F3 F4 F5.
      destruct (fold_left with_conflict (sorted_conflicts c) c2), c. cbn in *. by subst.
Qed.

Lemma snapshot_is_ok c : catalog_ok files c -> snapshot_ok (snapshot c).
Proof.
  intros Hc. split; cbn.
  - intros e H. apply (elem_of_sorted_entries c e files Hc) in H. apply (ok_entries _ _ Hc) in H. split; apply H.
  - intros k H. apply sorted_conflicts_spec in H; [|done]. by apply (ok_conflicts _ _ Hc _ _ H).
  - change (map entry_id) with (map (fun e => record_id (entry_record e))). rewrite (sorted_entries_keys c files Hc).
    unfold sorted_keys, sorted_str. symmetry. apply sorted_by_id, (sorted_by_sorted id).
Qed.

(** What the file of a snapshot gives. *)
Lemma restore_file stored c : catalog_ok files c ->
  stored !! snapshot_digest (snapshot c) = Some (canonical_bytes (snapshot_to_document (snapshot c))) ->
  restore files stored (snapshot_digest (snapshot c)) = Some (Ok c).
Proof.
  intros Hc Hf. unfold restore, snapshot_path. unfold snapshot_digest at 1, canonical_digest at 1. rewrite reference_is_digest. cbn [require then_read].
  unfold snapshot_text. rewrite Hf, dumps_newlines. unfold canonical_bytes. rewrite loads_dumps_norm by apply snapshot_document_wf.
  cbn [then_read]. destruct (snapshot_reads_back (snapshot c) (snapshot_is_ok c Hc)) as (d & -> & Hd). rewrite Hd.
  cbn [option_map wrap then_read]. rewrite String.eqb_refl. cbn [require then_read]. by rewrite rebuild_snapshot.
Qed.
End Restored.

(** ** A memory in use

    One artifact store, one snapshot store and one catalog below one root, and
    the calls a caller may make on them in any order.  A caller constructs the
    records, access labels and policies it passes, so a refused constructor is
    a refused call. *)

Record memory := { m_artifacts : artifact_files; m_snapshots : snapshot_files; m_catalog : MemoryCatalog }.
Definition empty_memory : memory := {| m_artifacts := ∅; m_snapshots := ∅; m_catalog := empty_catalog |}.

Inductive memory_call :=
| Call_put (body content_kind : string)
| Call_register (r : MemoryRecord) (a : MemoryAccess)
| Call_transition (rid : string) (state : MemoryState) (eid occurred_at reason : string) (successor : option string)
| Call_supersede (r : MemoryRecord) (a : MemoryAccess) (now reason : string)
| Call_correct (r : MemoryRecord) (a : MemoryAccess) (now reason : string)
| Call_quarantine (rid now reason : string) (eid : option string)
| Call_contradict (ids : list string) (now reason : string)
| Call_record_conflict (ids : list string) (reason recorded_at : string)
| Call_consolidate (lesson : MemoryRecord) (a : MemoryAccess) (supporting : list string) (keys : gmap string string)
    (now reason : string) (policy : ConsolidationPolicy)
| Call_expire (now : string)
| Call_persist.

Definition on_catalog {A} (m : M MemoryCatalog A) : M memory unit :=
  fun w => match m (m_catalog w) with
           | (Ok _, c) => (Ok tt, {| m_artifacts := m_artifacts w; m_snapshots := m_snapshots w; m_catalog := c |})
           | (Raise e, c) => (Raise e, {| m_artifacts := m_artifacts w; m_snapshots := m_snapshots w; m_catalog := c |})
           end.
Definition on_artifacts {A} (m : M artifact_files A) : M memory unit :=
  fun w => match m (m_artifacts w) with
           | (Ok _, f) => (Ok tt, {| m_artifacts := f; m_snapshots := m_snapshots w; m_catalog := m_catalog w |})
           | (Raise e, f) => (Raise e, {| m_artifacts := f; m_snapshots := m_snapshots w; m_catalog := m_catalog w |})
           end.
Definition persist_memory : M memory string :=
  fun w => match persist (m_catalog w) (m_snapshots w) with
           | (r, s) => (r, {| m_artifacts := m_artifacts w; m_snapshots := s; m_catalog := m_catalog w |})
           end.
Definition with_files {A} (f : artifact_files -> M memory A) : M memory A := fun w => f (m_artifacts w) w.
Definition constructed {A} (r : MemoryRecord) (a : MemoryAccess) (m : M memory A) : M memory A :=
  liftR (check_memory_record r) ;* liftR (check_access a) ;* m.

Section Use.
Context (unicode_alnum : string -> bool).

Definition memory_step (call : memory_call) : M memory unit :=
  match call with
  | Call_put body kind => on_artifacts (put unicode_alnum body kind)
  | Call_register r a => constructed r a (with_files (fun files => on_catalog (register files r a)))
  | Call_transition rid state eid at_ reason successor => on_catalog (transition rid state eid at_ reason successor)
  | Call_supersede r a now reason => constructed r a (with_files (fun files => on_catalog (supersede files r a now reason)))
  | Call_correct r a now reason => constructed r a (with_files (fun files => on_catalog (correct files r a now reason)))
  | Call_quarantine rid now reason eid => on_catalog (quarantine rid now reason eid)
  | Call_contradict ids now reason => on_catalog (contradict ids now reason)
  | Call_record_conflict ids reason at_ => on_catalog (record_conflict ids reason at_)
  | Call_consolidate r a supporting keys now reason policy =>
      constructed r a (let* p := liftR (check_policy policy) in
        with_files (fun files => on_catalog (consolidate files r a supporting keys now reason p)))
  | Call_expire now => on_catalog (expire now)
  | Call_persist => persist_memory ;* ret tt
  end.

(** The memory after some calls, the refused ones included. *)
Definition memory_run (calls : list memory_call) (w : memory) : memory := fold_left (fun w call => (memory_step call w).2) calls w.

(** *** Its invariant *)

Record memory_ok (w : memory) : Prop := {
  mo_catalog : catalog_ok (m_artifacts w) (m_catalog w);
  mo_snapshots : forall d text, m_snapshots w !! d = Some text -> d = ("sha256:" +:+ sha256_hexdigest text)%stdpp }.

Record memory_extends (w w' : memory) : Prop := {
  mx_artifacts : m_artifacts w ⊆ m_artifacts w';
  mx_snapshots : m_snapshots w ⊆ m_snapshots w';
  mx_catalog : extends (m_catalog w) (m_catalog w') }.

#[global] Instance memory_extends_refl : Reflexive memory_extends.
Proof. split; done. Qed.
#[global] Instance memory_extends_trans : Transitive memory_extends.
Proof. intros w1 w2 w3 [H1 H2 H3] [H4 H5 H6]. split; by etrans. Qed.

(** Calls that keep the invariant and only add. *)
Definition grows {A} (m : M memory A) : Prop := forall w, memory_ok w -> memory_ok (m w).2 /\ memory_extends w (m w).2.

Lemma artifact_get_mono files files' d body : files ⊆ files' -> artifact_get files d = Ok body -> artifact_get files' d = Ok body.
Proof.
  intros Hs H. unfold artifact_get in *. destruct (_path d) as [[]|]; [|done]. cbn [rbind] in *.
  destruct (files !! d) as [text|] eqn:E; [|done]. assert (files' !! d = Some text) as -> by (by eapply lookup_weaken). exact H.
Qed.

Lemma catalog_ok_mono files files' c : files ⊆ files' -> catalog_ok files c -> catalog_ok files' c.
Proof.
  intros Hs [H1 H2 H3 H4]. split; [|done..]. intros rid e He. destruct (H1 rid e He) as [E1 E2 E3 E4 [body E5]].
  split; [done..|]. exists body. by eapply artifact_get_mono.
Qed.

Lemma put_grows body kind files : files ⊆ (put unicode_alnum body kind files).2.
Proof.
  unfold put. rewrite !run_guard. do 3 (destruct (negb _); [|done]). rewrite run_get. cbv zeta.
  destruct (files !! body_digest body) as [text|] eqn:E.
  - rewrite run_guard. by destruct (String.eqb _ _).
  - rewrite run_put. by apply insert_subseteq.
Qed.

Lemma grown_catalog w c : memory_ok w -> catalog_ok (m_artifacts w) c -> extends (m_catalog w) c ->
  let w' := {| m_artifacts := m_artifacts w; m_snapshots := m_snapshots w; m_catalog := c |} in
  memory_ok w' /\ memory_extends w w'.
Proof. intros [_ Hs] Hc He. split; split; done. Qed.

Lemma grows_catalog {A} (m : M MemoryCatalog A) : (forall files, stable files m) -> grows (on_catalog m).
Proof.
  intros Hm w Hw. destruct (Hm _ _ (mo_catalog w Hw)) as [H1 H2]. unfold on_catalog.
  destruct (m (m_catalog w)) as [[a|e] c]; by apply grown_catalog.
Qed.

Lemma grows_files {A} (m : artifact_files -> M MemoryCatalog A) : (forall files, stable files (m files)) ->
  grows (with_files (fun files => on_catalog (m files))).
Proof.
  intros Hm w Hw. destruct (Hm (m_artifacts w) _ (mo_catalog w Hw)) as [H1 H2]. unfold with_files, on_catalog.
  destruct (m (m_artifacts w) (m_catalog w)) as [[a|e] c]; by apply grown_catalog.
Qed.

Lemma grows_put body kind : grows (on_artifacts (put unicode_alnum body kind)).
Proof.
  intros w [Hc Hs]. assert (H := put_grows body kind (m_artifacts w)). unfold on_artifacts.
  destruct (put unicode_alnum body kind (m_artifacts w)) as [[a|e] f]; cbn in *; (split; [split; cbn; [exact (catalog_ok_mono _ _ _ H Hc)|exact Hs]|split; done]).
Qed.

Lemma grows_persist : grows persist_memory.
Proof.
  intros w [Hc Hs]. unfold persist_memory, persist. cbv zeta. rewrite run_get.
  destruct (m_snapshots w !! _) as [text|] eqn:E.
  - rewrite run_guard. destruct (String.eqb _ _); by split; split.
  - rewrite run_put. cbn [snd]. split; split; cbn; try done; [|by apply insert_subseteq].
    intros d text H. apply lookup_insert_Some in H as [[<- <-]|[_ H]]; [done|by apply Hs].
Qed.

Lemma grows_bind {A B} (m : M memory A) (f : A -> M memory B) : grows m -> (forall a w, (m w).1 = Ok a -> grows (f a)) -> grows (bindM m f).
Proof.
  intros Hm Hf w Hw. destruct (Hm w Hw) as [H1 H2]. unfold bindM. destruct (m w) as [[a|e] w1] eqn:E; cbn in *; [|done].
  destruct (Hf a w ltac:(by rewrite E) w1 H1) as [H3 H4]. split; [done|by etrans].
Qed.

Lemma grows_lift {A} (r : result A) : grows (liftR r).
Proof. intros w Hw. done. Qed.

Lemma grows_constructed {A} r a (m : M memory A) :
  (check_memory_record r = Ok tt -> check_access a = Ok tt -> grows m) -> grows (constructed r a m).
Proof.
  intros Hm. unfold constructed. apply grows_bind; [apply grows_lift|]. intros [] w1 H1.
  apply grows_bind; [apply grows_lift|]. intros [] w2 H2. by apply Hm.
Qed.

Lemma memory_step_grows call : grows (memory_step call).
Proof.
  destruct call; cbn [memory_step]; try (by apply grows_catalog; intros; eauto using stable_quarantine, stable_contradict, stable_expire with hive).
  - apply grows_put.
  - apply grows_constructed. intros Hr Ha. apply grows_files. intros files. by apply stable_register.
  - apply grows_constructed. intros Hr Ha. apply grows_files. intros files. by apply stable_supersede.
  - apply grows_constructed. intros Hr Ha. apply grows_files. intros files. by apply stable_supersede.
  - apply grows_constructed. intros Hr Ha. apply grows_bind; [apply grows_lift|]. intros p w _.
    apply grows_files. intros files. by apply stable_consolidate.
  - apply grows_bind; [apply grows_persist|]. intros d w _. intros w' Hw. done.
Qed.

Lemma memory_run_grows calls w : memory_ok w -> memory_ok (memory_run calls w) /\ memory_extends w (memory_run calls w).
Proof.
  revert w. induction calls as [|call calls IH]; intros w Hw; [done|]. destruct (memory_step_grows call w Hw) as [H1 H2].
  destruct (IH _ H1) as [H3 H4]. split; [exact H3|]. etrans; [exact H2|exact H4].
Qed.

Lemma empty_memory_ok : memory_ok empty_memory.
Proof. split; [apply empty_catalog_ok|done]. Qed.

(** C16: memory only grows.  Whatever calls are made, in whatever order and
    whether they return or raise half way, nothing recorded is rewritten or
    forgotten: every artifact and snapshot keeps its contents, every record
    its metadata, every conflict its text, the lifecycle facts of the earlier
    moment are the first ones of the later moment, and a record that left the
    active state keeps the state it left for. *)
Theorem memory_is_append_only calls later :
  let w := memory_run calls empty_memory in
  let w' := memory_run later w in
  m_artifacts w ⊆ m_artifacts w' /\ m_snapshots w ⊆ m_snapshots w'
  /\ entries (m_catalog w) ⊆ entries (m_catalog w')
  /\ conflicts (m_catalog w) ⊆ conflicts (m_catalog w')
  /\ lifecycle (m_catalog w) `prefix_of` lifecycle (m_catalog w')
  /\ forall rid s, states (m_catalog w) !! rid = Some s -> s <> R_ACTIVE -> states (m_catalog w') !! rid = Some s.
Proof.
  destruct (memory_run_grows calls empty_memory empty_memory_ok) as [H _].
  destruct (memory_run_grows later _ H) as [_ [H1 H2 [H3 H4 H5 H6]]]. done.
Qed.

(** What the catalog's records are is never in doubt: after any calls, the
    state of every record is the state it was registered with, changed by the
    lifecycle facts about it in order; every fact was legal when it was
    appended (an active record, a terminal state, a fresh name, the next
    number), facts and conflicts speak of registered records only, and the
    body of every record can be read. *)
Theorem reachable_catalogs_are_derived calls : let w := memory_run calls empty_memory in catalog_ok (m_artifacts w) (m_catalog w).
Proof. apply (memory_run_grows calls empty_memory empty_memory_ok). Qed.

(** C15: a persisted catalog survives.  After any calls, persisting the catalog
    returns a digest, and after any further calls restoring that digest gives
    exactly the catalog that was persisted; otherwise two different texts with
    one SHA-256 digest were found. *)
Theorem persisted_catalog_restores calls later :
  let w := memory_run calls empty_memory in
  (exists d w1, persist_memory w = (Ok d, w1)
     /\ let w' := memory_run later w1 in restore (m_artifacts w') (m_snapshots w') d = Some (Ok (m_catalog w)))
  \/ exists t1 t2, t1 <> t2 /\ sha256_hexdigest t1 = sha256_hexdigest t2.
Proof.
  cbv zeta. destruct (memory_run_grows calls empty_memory empty_memory_ok) as [Hw _].
  set (w := memory_run calls empty_memory) in *. destruct (grows_persist w Hw) as [H1 H2]. revert H1 H2.
  set (s := snapshot (m_catalog w)). set (text := canonical_bytes (snapshot_to_document s)).
  assert (Hstep : (exists w1, persist_memory w = (Ok (snapshot_digest s), w1)
      /\ m_catalog w1 = m_catalog w /\ m_snapshots w1 !! snapshot_digest s = Some text)
    \/ exists t1 t2, t1 <> t2 /\ sha256_hexdigest t1 = sha256_hexdigest t2).
  { unfold persist_memory, persist. fold s. cbv zeta. rewrite run_get. destruct (m_snapshots w !! snapshot_digest s) as [old|] eqn:E.
    - rewrite run_guard. fold text. destruct (String.eqb old text) eqn:Et.
      + apply String.eqb_eq in Et as ->. left. eexists. split; [reflexivity|]. by split.
      + right. exists old, text. apply String.eqb_neq in Et. split; [done|]. apply (mo_snapshots w Hw) in E.
        unfold snapshot_digest, canonical_digest in E. by apply append_inj_l in E.
    - left. rewrite run_put. eexists. split; [reflexivity|]. split; [done|]. apply lookup_insert_eq. }
  destruct Hstep as [(w1 & Hrun & Hcat & Hfile)|Hc]; [|by right]. rewrite Hrun. cbn [snd]. intros H1 H2. left.
  exists (snapshot_digest s), w1. split; [done|].
  destruct (memory_run_grows later w1 H1) as [H3 [H4 H5 _]]. unfold s. apply restore_file.
  - eapply catalog_ok_mono; [exact H4|]. rewrite <- Hcat. apply H1.
  - by eapply lookup_weaken.
Qed.
End Use.

End MemoryStore.
