(* ===== verification/Objectives.v ===== *)
(** * Objective graphs

    [brain_kernel/objectives.py]: the validated work DAG of a mission, its
    deterministic topological order and the search that decides whether two
    work items are ordered by their dependencies. *)

From S2P Require Import Prelude Sha256 Canonical PyLib Graphs Schema Contracts WorkItems.

Module Objectives.
Export WorkItems Graphs.

(** ** Limits and paths *)

Record PlanLimits := { limit_work_items : Z; limit_depth : Z; max_fanout : Z }.

(** [PlanLimits.__post_init__] *)
Definition check_limits (l : PlanLimits) : result PlanLimits :=
  require (1 <=? Z.min (Z.min (limit_work_items l) (limit_depth l)) (max_fanout l)) ValueError "plan limits must be positive" ;?
  Ok l.

Definition paths_overlap (left right : string) : bool :=
  String.eqb left right || startswith (right +:+ "/")%stdpp left || startswith (left +:+ "/")%stdpp right.

(** ** The graph *)

Record ObjectiveGraph := {
  charter : MissionCharter;
  work_items : list WorkItem;
  limits : PlanLimits;
  _by_id : list (string * WorkItem) }.

(** [self._by_id[work_id]] *)
Definition graph_item (g : ObjectiveGraph) (i : string) : result WorkItem :=
  match lookup_key i (_by_id g) with Some w => Ok w | None => raise KeyError i end.

(** One turn of the loop of [ordered_items] and what is left of [pending]. *)
Definition pending_sets (items : list WorkItem) : list (string * list string) :=
  dict_of_pairs (map (fun w => (wi_work_id w, dedup (wi_dependencies w))) items).
Definition ready_ids (pending : list (string * list string)) : list string :=
  sorted_str (map fst (List.filter (fun kd => bool_decide (kd.2 = [])) pending)).
Definition without_completed (ready : list string) (pending : list (string * list string)) : list (string * list string) :=
  map (fun kd => (kd.1, List.filter (fun d => negb (mem d ready)) kd.2))
    (List.filter (fun kd => negb (mem kd.1 ready)) pending).

(** [while pending]: every turn removes an identifier, so the number of pending
    ones bounds the turns; [None] is a loop that is still running. *)
Fixpoint ordered_loop (fuel : nat) (g : ObjectiveGraph) (pending : list (string * list string)) : option (result (list WorkItem)) :=
  match pending with
  | [] => Some (Ok [])
  | _ :: _ =>
      match fuel with
      | O => None
      | S n =>
          let ready := ready_ids pending in
          if bool_decide (ready = []) then Some (raise ValueError "work graph contains a cycle")
          else match map_result (graph_item g) ready with
               | Raise e => Some (Raise e)
               | Ok now =>
                   match ordered_loop n g (without_completed ready pending) with
                   | Some (Ok later) => Some (Ok (now ++ later))
                   | other => other
                   end
               end
      end
  end.
Definition still_running {A} : result A := raise RuntimeError "still running".
Definition ordered_items (g : ObjectiveGraph) : result (list WorkItem) :=
  let pending := pending_sets (work_items g) in
  default still_running (ordered_loop (length pending) g pending).

Definition ready_items (g : ObjectiveGraph) (completed : list string) : result (list WorkItem) :=
  let? ordered := ordered_items g in
  Ok (List.filter (fun w => bool_decide (wi_status w = W_PROPOSED) && subset (wi_dependencies w) completed) ordered).

(** [ObjectiveGraph.digest] *)
Definition graph_digest (g : ObjectiveGraph) : result string :=
  let? ordered := ordered_items g in
  Ok (canonical_digest (JObj [("mission_id", JStr (charter_mission_id (charter g)));
                              ("items", JList (map (fun w => JObj (work_item_to_document w)) ordered))])).

(** [_ordered]: the stack [pending] is listed from its top, so that extending
    it puts the last dependency first.  Every turn pops one entry, and an
    identifier is expanded once. *)
Fixpoint ordered_search (fuel : nat) (g : ObjectiveGraph) (predecessor : string) (pending visited : list string)
    : option (result bool) :=
  match pending with
  | [] => Some (Ok false)
  | current :: rest =>
      match fuel with
      | O => None
      | S n =>
          if String.eqb current predecessor then Some (Ok true)
          else if mem current visited then ordered_search n g predecessor rest visited
          else match graph_item g current with
               | Raise e => Some (Raise e)
               | Ok w => ordered_search n g predecessor (rev (wi_dependencies w) ++ rest) (current :: visited)
               end
      end
  end.
(** How many entries can ever be pushed: the dependencies of every item, and those the search starts with. *)
Definition edge_count (items : list WorkItem) : nat := list_sum (map (fun w => length (wi_dependencies w)) items).
Definition _ordered (g : ObjectiveGraph) (predecessor successor : string) : result bool :=
  let? w := graph_item g successor in
  default still_running
    (ordered_search (length (wi_dependencies w) + edge_count (map snd (_by_id g))) g predecessor (rev (wi_dependencies w)) []).

(** The pairs [(left, right)] of the two nested loops over positions. *)
Fixpoint later_pairs {A} (l : list A) : list (A * A) :=
  match l with [] => [] | x :: xs => map (pair x) xs ++ later_pairs xs end.

Definition scopes_overlap (left right : WorkItem) : bool :=
  existsb (fun l => existsb (paths_overlap l) (write_scope right)) (write_scope left).
Definition check_concurrent (g : ObjectiveGraph) (lr : WorkItem * WorkItem) : result unit :=
  if scopes_overlap lr.1 lr.2 then
    let? forward := _ordered g (wi_work_id lr.1) (wi_work_id lr.2) in
    if forward then Ok tt
    else let? backward := _ordered g (wi_work_id lr.2) (wi_work_id lr.1) in
         require backward ValueError "overlapping write scopes require a dependency"
  else Ok tt.
Definition _validate_concurrent_writes (g : ObjectiveGraph) : result unit :=
  each (check_concurrent g) (later_pairs (work_items g)).

(** The loop of [_validate] over the items, with the number of children per
    item and the acceptance specs met so far. *)
Definition count_child (i : string) (children : list (string * Z)) : list (string * Z) :=
  dict_set i (default 0 (lookup_key i children) + 1) children.
Definition validate_item (g : ObjectiveGraph) (st : list (string * Z) * list string) (w : WorkItem)
    : result (list (string * Z) * list string) :=
  let '(children, acceptance) := st in
  require (String.eqb (wi_mission_id w) (charter_mission_id (charter g))) ValueError "work item belongs to another mission" ;?
  require (depth w <=? limit_depth (limits g)) ValueError "work graph exceeds depth limit" ;?
  require (forallb (fun d => mem d (_by_id g).*1) (wi_dependencies w)) ValueError "work graph has missing dependency" ;?
  require (negb (mem (wi_work_id w) (wi_dependencies w))) ValueError "work item cannot depend on itself" ;?
  let? children :=
    match parent_work_id w with
    | None => Ok children
    | Some p =>
        match lookup_key p (_by_id g) with
        | None => raise ValueError "work graph has orphan parent"
        | Some parent =>
            require (depth w =? depth parent + 1) ValueError "work item depth does not match parent" ;?
            Ok (count_child (wi_work_id parent) children)
        end
    end in
  Ok (children, acceptance ++ wi_acceptance_specs w).

Definition _validate (g : ObjectiveGraph) : result unit :=
  require (negb (bool_decide (work_items g = []))) ValueError "work graph needs at least one item" ;?
  require (Z.of_nat (length (work_items g)) <=? limit_work_items (limits g)) ValueError "work graph exceeds work item limit" ;?
  let? st := rfold (validate_item g) (dict_of_pairs (map (fun w => (wi_work_id w, 0)) (work_items g)), []) (work_items g) in
  require (forallb (fun kc => kc.2 <=? max_fanout (limits g)) st.1) ValueError "work graph exceeds fanout limit" ;?
  require (subset (charter_acceptance_specs (charter g)) st.2) ValueError "work graph is missing charter acceptance" ;?
  ordered_items g ;?
  _validate_concurrent_writes g.

(** Without explicit limits they come from the charter's budget. *)
Definition graph_limits (c : MissionCharter) (given : option PlanLimits) : result PlanLimits :=
  match given with
  | Some l => Ok l
  | None => check_limits {| limit_work_items := max_work_items (charter_budget c);
                            limit_depth := max_depth (charter_budget c); max_fanout := 8 |}
  end.

(** [ObjectiveGraph.__init__] *)
Definition build_graph (c : MissionCharter) (items : list WorkItem) (given : option PlanLimits) : result ObjectiveGraph :=
  let? lim := graph_limits c given in
  let g := {| charter := c; work_items := items; limits := lim; _by_id := index_by wi_work_id items |} in
  require (Nat.eqb (length (_by_id g)) (length items)) ValueError "work item ids must be unique" ;?
  _validate g ;?
  Ok g.

(** [ObjectiveGraph.from_documents]: the documents are read one after the
    other by [tuple(work_items)]. *)
Definition graph_from_documents (c : MissionCharter) (documents : list json) : result ObjectiveGraph :=
  let? items := map_result work_item_from_document documents in
  build_graph c items None.

(** ** The dependency relation *)

(** [i] depends directly on [d]. *)
Definition depends (items : list WorkItem) (i d : string) : Prop :=
  exists w, w ∈ items /\ wi_work_id w = i /\ d ∈ wi_dependencies w.
Definition deps_closed (items : list WorkItem) : Prop :=
  forall i d, depends items i d -> d ∈ map wi_work_id items.

(** The items come after everything they depend on. *)
Fixpoint topological (completed : list string) (l : list WorkItem) : Prop :=
  match l with
  | [] => True
  | w :: ws => wi_dependencies w ⊆ completed /\ topological (wi_work_id w :: completed) ws
  end.

Lemma topological_mono l completed completed' : completed ⊆ completed' -> topological completed l -> topological completed' l.
Proof.
  revert completed completed'. induction l as [|w l IH]; intros c c' Hs; cbn; [done|]. intros [H1 H2].
  split; [set_solver|]. eapply IH; [|exact H2]. set_solver.
Qed.

Lemma topological_app l1 l2 completed :
  topological completed l1 -> topological (map wi_work_id l1 ++ completed) l2 -> topological completed (l1 ++ l2).
Proof.
  revert completed. induction l1 as [|w l1 IH]; intros c; cbn; [done|]. intros [H1 H2] H3. split; [done|].
  apply IH; [done|]. eapply topological_mono; [|exact H3]. set_solver.
Qed.

Lemma topological_independent l completed :
  (forall w, w ∈ l -> wi_dependencies w ⊆ completed) -> topological completed l.
Proof.
  revert completed. induction l as [|w l IH]; intros c H; cbn; [done|]. split; [apply H; by left|].
  apply IH. intros w' Hw'. etrans; [apply H; by right|set_solver].
Qed.

Lemma elem_of_rev {A} (x : A) l : x ∈ rev l <-> x ∈ l.
Proof. by rewrite !list_elem_of_In, <- in_rev. Qed.

(** ** Topological order *)

Section ordering.
Context (g : ObjectiveGraph).
Notation items := (work_items g).
Context (Hids : NoDup (map wi_work_id items)) (Hindex : _by_id g = index_by wi_work_id items).

Lemma item_ok i w : graph_item g i = Ok w <-> w ∈ items /\ wi_work_id w = i.
Proof.
  unfold graph_item. rewrite Hindex, <- (index_by_some wi_work_id items i w Hids).
  destruct (lookup_key i _); split; intros H; simplify_eq; done.
Qed.

Lemma items_ok l : l ⊆ map wi_work_id items ->
  exists now, map_result (graph_item g) l = Ok now /\ map wi_work_id now = l /\ now ⊆ items.
Proof.
  induction l as [|i l IH]; intros Hl; cbn; [exists []; split; [done|]; split; [done|set_solver]|].
  destruct IH as (now & -> & Hm & Hs); [set_solver|].
  assert (Hi : i ∈ map wi_work_id items) by (apply Hl; by left).
  apply list_elem_of_fmap in Hi as (w & -> & Hw). rewrite (proj2 (item_ok _ w) (conj Hw eq_refl)). cbn.
  exists (w :: now). split; [done|]. split; [cbn; by f_equal|set_solver].
Qed.

(** The work that is left once [completed] is done. *)
Record pending_ok (completed : list string) (pending : list (string * list string)) : Prop := {
  po_keys : NoDup pending.*1;
  po_sets : forall k ds, (k, ds) ∈ pending ->
    exists w, w ∈ items /\ wi_work_id w = k /\ forall d, d ∈ ds <-> d ∈ wi_dependencies w /\ d ∉ completed;
  po_cover : forall i, i ∈ map wi_work_id items -> i ∈ completed \/ i ∈ pending.*1 }.

Lemma ready_elem pending k : k ∈ ready_ids pending <-> (k, []) ∈ pending.
Proof.
  unfold ready_ids, sorted_str. rewrite elem_of_sorted_by, list_elem_of_In, in_map_iff. split.
  - intros ([k' ds] & <- & H). apply filter_In in H as [H Hd]. bool_hyps. cbn in *. subst. by apply list_elem_of_In.
  - intros H. exists (k, []). split; [done|]. apply filter_In. split; [by apply list_elem_of_In|done].
Qed.

Lemma ready_sub pending : ready_ids pending ⊆ pending.*1.
Proof. intros k Hk. apply ready_elem in Hk. by apply (list_elem_of_fmap_2 fst) in Hk. Qed.

Lemma ready_NoDup pending : NoDup pending.*1 -> NoDup (ready_ids pending).
Proof.
  intros H. unfold ready_ids, sorted_str. rewrite sorted_by_perm. eapply sublist_NoDup; [exact H|].
  clear. induction pending as [|[k ds] l IH]; cbn; [done|]. case_bool_decide; cbn; by constructor.
Qed.

Lemma without_keys ready pending : (without_completed ready pending).*1 = List.filter (fun k => negb (mem k ready)) pending.*1.
Proof.
  rewrite <- filter_keys. unfold without_completed. change (map ?f ?l) with (f <$> l).
  by rewrite <- list_fmap_compose.
Qed.

Lemma pending_step completed pending :
  pending_ok completed pending -> pending_ok (ready_ids pending ++ completed) (without_completed (ready_ids pending) pending).
Proof.
  intros [Hk Hs Hc]. set (ready := ready_ids pending). split.
  - rewrite without_keys. by apply NoDup_filter_list.
  - intros k ds Hin. apply list_elem_of_fmap in Hin as ([k' ds'] & [= -> ->] & Hin).
    apply list_elem_of_In, filter_In in Hin as [Hin _]. apply list_elem_of_In, Hs in Hin as (w & Hw & Hid & Hd).
    exists w. split; [done|]. split; [done|]. intros d. rewrite elem_of_filter_not, Hd. set_solver.
  - intros i Hi. rewrite without_keys, elem_of_filter_not, elem_of_app.
    destruct (decide (i ∈ ready)); [tauto|]. destruct (Hc i Hi); tauto.
Qed.

Lemma pending_keys_sub completed pending : pending_ok completed pending -> pending.*1 ⊆ map wi_work_id items.
Proof.
  intros [_ Hs _] k Hk. apply list_elem_of_fmap in Hk as ([k' ds] & -> & Hin). destruct (Hs _ _ Hin) as (w & Hw & <- & _).
  by apply (list_elem_of_fmap_2 wi_work_id).
Qed.

Lemma ready_independent completed pending now : pending_ok completed pending -> now ⊆ items ->
  map wi_work_id now = ready_ids pending -> topological completed now.
Proof.
  intros [_ Hs _] Hn Hm. apply topological_independent. intros w Hw d Hd.
  assert (Hr : wi_work_id w ∈ ready_ids pending) by (rewrite <- Hm; by apply (list_elem_of_fmap_2 wi_work_id)).
  apply ready_elem, Hs in Hr as (w' & Hw' & Hid & Hset).
  assert (w' = w) as -> by (apply (same_key wi_work_id items); auto).
  destruct (decide (d ∈ completed)); [done|]. exfalso. apply (not_elem_of_nil d), Hset. done.
Qed.

Lemma without_shorter pending : ready_ids pending <> [] ->
  (length (without_completed (ready_ids pending) pending) < length pending)%nat.
Proof.
  intros Hne. destruct (ready_ids pending) as [|k r] eqn:E; [done|].
  assert (Hk : (k, []) ∈ pending) by (apply ready_elem; rewrite E; by left).
  unfold without_completed. rewrite length_map. clear E Hne.
  apply list_elem_of_split in Hk as (l1 & l2 & ->). rewrite List.filter_app, !length_app. cbn.
  rewrite (proj2 (mem_spec k (k :: r))) by (by left). cbn.
  assert (H1 := List.filter_length_le (fun kd : string * list string => negb (mem kd.1 (k :: r))) l1).
  assert (H2 := List.filter_length_le (fun kd : string * list string => negb (mem kd.1 (k :: r))) l2). lia.
Qed.

(** A loop that returns lists every pending item once, in dependency order. *)
Lemma ordered_loop_sound n completed pending l : pending_ok completed pending ->
  ordered_loop n g pending = Some (Ok l) ->
  map wi_work_id l ≡ₚ pending.*1 /\ l ⊆ items /\ topological completed l.
Proof.
  revert completed pending l. induction n as [|n IH]; intros completed pending l Hp H; (destruct pending as [|p rest];
    [injection H as <-; split; [done|]; split; [set_solver|done]|]); [done|].
  cbn [ordered_loop] in H. set (pending := p :: rest) in *. case_bool_decide; [done|].
  destruct (items_ok (ready_ids pending)) as (now & E & Hm & Hs).
  { etrans; [apply ready_sub|by eapply pending_keys_sub]. }
  rewrite E in H. destruct (ordered_loop n g _) as [[later|e]|] eqn:El; [|done..]. injection H as <-.
  destruct (IH _ _ _ (pending_step _ _ Hp) El) as (H1 & H2 & H3). split; [|split; [set_solver|]].
  - rewrite map_app, Hm, H1, without_keys. apply split_keys; [apply Hp|apply ready_NoDup, Hp|apply ready_sub].
  - apply topological_app; [by eapply ready_independent|]. by rewrite Hm.
Qed.

(** The loop raises only when no pending item is free of pending dependencies. *)
Lemma ordered_loop_complete n completed pending : pending_ok completed pending ->
  deps_closed items -> (forall i, finishable (depends items) i) -> (length pending <= n)%nat ->
  exists l, ordered_loop n g pending = Some (Ok l).
Proof.
  intros Hp Hc Hf. revert completed pending Hp. induction n as [|n IH]; intros completed pending Hp Hl;
    (destruct pending as [|p rest]; [by eexists|]); [cbn in Hl; lia|].
  cbn [ordered_loop]. set (pending := p :: rest) in *.
  assert (Hne : ready_ids pending <> []).
  { assert (Hk : p.1 ∈ pending.*1) by (by left). revert Hk. generalize p.1 as k. clear -Hp Hc Hf.
    intros k. specialize (Hf k). induction Hf as [k _ IHk]. intros Hk.
    apply list_elem_of_fmap in Hk as ([k' [|d ds]] & -> & Hin).
    - intros E. assert (H : k' ∈ ready_ids pending) by (by apply ready_elem). rewrite E in H. by apply elem_of_nil in H.
    - destruct (po_sets _ _ Hp _ _ Hin) as (w & Hw & Hid & Hd). assert (Hdw := proj1 (Hd d) ltac:(by left)).
      assert (Hdep : depends items k' d) by (exists w; tauto). apply (IHk d Hdep).
      destruct (po_cover _ _ Hp d); [by eapply Hc|tauto|done]. }
  rewrite bool_decide_eq_false_2 by done.
  destruct (items_ok (ready_ids pending)) as (now & E & _ & _).
  { etrans; [apply ready_sub|by eapply pending_keys_sub]. }
  rewrite E. destruct (IH _ _ (pending_step _ _ Hp)) as [later ->]; [|by eexists].
  assert (Hsh := without_shorter pending Hne). lia.
Qed.

(** The loop ends whatever the graph is. *)
Lemma ordered_loop_total n pending : (length pending <= n)%nat -> is_Some (ordered_loop n g pending).
Proof.
  revert pending. induction n as [|n IH]; intros pending Hl; (destruct pending as [|p rest]; [by eexists|]);
    [cbn in Hl; lia|]. cbn [ordered_loop]. set (pending := p :: rest) in *. case_bool_decide as Hne; [by eexists|].
  destruct (map_result _ _); [|by eexists]. destruct (IH (without_completed (ready_ids pending) pending)) as [[l|e] ->];
    [|by eexists..]. assert (Hsh := without_shorter pending Hne). lia.
Qed.

Lemma pending_initial : pending_ok [] (pending_sets items).
Proof.
  assert (E : pending_sets items = map (fun w => (wi_work_id w, dedup (wi_dependencies w))) items).
  { apply dict_of_pairs_distinct. by rewrite <- list_fmap_compose. }
  rewrite E. split.
  - by rewrite <- list_fmap_compose.
  - intros k ds Hin. apply list_elem_of_fmap in Hin as (w & [= -> ->] & Hw). exists w. split; [done|]. split; [done|].
    intros d. rewrite elem_of_dedup. set_solver.
  - intros i Hi. right. by rewrite <- list_fmap_compose.
Qed.

Lemma ordered_items_ok l : ordered_items g = Ok l -> l ≡ₚ items /\ topological [] l.
Proof.
  unfold ordered_items. destruct (ordered_loop _ _ _) as [r|] eqn:E; cbn; [|done]. intros ->.
  destruct (ordered_loop_sound _ _ _ _ pending_initial E) as (H1 & H2 & H3). split; [|done].
  assert (Hm : map wi_work_id l ≡ₚ map wi_work_id items).
  { rewrite H1. unfold pending_sets. rewrite dict_of_pairs_distinct; rewrite <- list_fmap_compose; done. }
  assert (Hnl : NoDup (map wi_work_id l)) by (by rewrite Hm).
  apply NoDup_Permutation; [by eapply NoDup_fmap_1|by eapply NoDup_fmap_1|]. intros w. split; [apply H2|].
  intros Hw. assert (Hi : wi_work_id w ∈ map wi_work_id l) by (rewrite Hm; by apply (list_elem_of_fmap_2 wi_work_id)).
  apply list_elem_of_fmap in Hi as (w' & Hid & Hw'). by rewrite (same_key wi_work_id items w w' Hids Hw (H2 _ Hw') Hid).
Qed.

Lemma topological_finishable completed l : (forall i, i ∈ completed -> finishable (depends items) i) -> l ⊆ items ->
  topological completed l -> forall w, w ∈ l -> finishable (depends items) (wi_work_id w).
Proof.
  revert completed. induction l as [|w l IH]; intros completed Hc Hs Ht v Hv; [by apply elem_of_nil in Hv|].
  cbn in Ht. destruct Ht as [Hd Ht]. assert (Hw : finishable (depends items) (wi_work_id w)).
  { constructor. intros d (w' & Hw' & Hid & Hd'). rewrite (same_key wi_work_id items w' w Hids) in Hd'; [|done|set_solver|done].
    by apply Hc, Hd. }
  apply elem_of_cons in Hv as [->|Hv]; [done|]. eapply IH; [|set_solver|exact Ht|done].
  intros i Hi. apply elem_of_cons in Hi as [->|Hi]; auto.
Qed.

Lemma ordered_items_iff : deps_closed items -> (exists l, ordered_items g = Ok l) <-> no_cycle (depends items).
Proof.
  intros Hc. split.
  - intros [l H] i Hcy. apply ordered_items_ok in H as [Hp Ht].
    assert (Hi : exists w, w ∈ items /\ wi_work_id w = i) by (inversion Hcy as [? ? (w & ? & ? & _)|? ? ? (w & ? & ? & _)]; eauto).
    destruct Hi as (w & Hw & <-). eapply finishable_no_cycle; [|exact Hcy].
    eapply (topological_finishable [] l); [set_solver|by rewrite Hp|done|by rewrite Hp].
  - intros Hn. unfold ordered_items. destruct (ordered_loop_complete (length (pending_sets items)) [] (pending_sets items))
      as [l ->]; [apply pending_initial|done| |done|by eexists].
    apply (no_cycle_finishable _ (map wi_work_id items)); [|done]. intros i d (w & Hw & <- & _).
    by apply (list_elem_of_fmap_2 wi_work_id).
Qed.

(** ** The dependency search *)

(** The dependencies of the items that have not been expanded. *)
Definition unexpanded (visited : list string) : nat :=
  list_sum (map (fun w => if mem (wi_work_id w) visited then 0%nat else length (wi_dependencies w)) items).

Lemma sum_expand (l : list WorkItem) w visited : NoDup (map wi_work_id l) -> w ∈ l -> wi_work_id w ∉ visited ->
  list_sum (map (fun w => if mem (wi_work_id w) visited then 0%nat else length (wi_dependencies w)) l)
  = (length (wi_dependencies w) + list_sum (map (fun v => if mem (wi_work_id v) (wi_work_id w :: visited) then 0%nat
                                                    else length (wi_dependencies v)) l))%nat.
Proof.
  intros Hn Hw Hv. apply list_elem_of_split in Hw as (l1 & l2 & ->). rewrite !map_app, !list_sum_app. cbn.
  rewrite (proj2 (mem_spec (wi_work_id w) (wi_work_id w :: visited))) by (by left).
  assert (mem (wi_work_id w) visited = false) as -> by (apply not_true_iff_false; by rewrite mem_spec).
  assert (Hother : forall l, (forall v, v ∈ l -> wi_work_id v <> wi_work_id w) ->
    map (fun v => if mem (wi_work_id v) visited then 0%nat else length (wi_dependencies v)) l
    = map (fun v => if mem (wi_work_id v) (wi_work_id w :: visited) then 0%nat else length (wi_dependencies v)) l).
  { intros l Hl. apply map_ext_in. intros v Hvl. unfold mem. rewrite (bool_decide_ext _ (wi_work_id v ∈ wi_work_id w :: visited)); [done|].
    rewrite elem_of_cons. specialize (Hl v ltac:(by apply list_elem_of_In)). tauto. }
  rewrite map_app, map_cons in Hn. apply NoDup_app in Hn as (_ & Hd & Hn). apply NoDup_cons in Hn as [Hn _].
  rewrite <- !Hother; [lia| |]; intros v Hvl E; apply (list_elem_of_fmap_2 wi_work_id) in Hvl; rewrite E in Hvl.
  - by apply Hn.
  - by apply (Hd _ Hvl), list_elem_of_here.
Qed.

Lemma unexpanded_visit w visited : w ∈ items -> wi_work_id w ∉ visited ->
  unexpanded visited = (length (wi_dependencies w) + unexpanded (wi_work_id w :: visited))%nat.
Proof. by apply sum_expand. Qed.

(** The search decides whether the predecessor is on the stack or can be
    reached from it: what it has visited does not lead to the predecessor
    except through the stack. *)
Lemma search_decides (Hc : deps_closed items) (start : string -> Prop) predecessor n pending visited :
  pending ⊆ map wi_work_id items -> predecessor ∉ visited -> (length pending + unexpanded visited <= n)%nat ->
  (forall x, x ∈ pending \/ x ∈ visited -> start x) ->
  (forall x d, start x -> depends items x d -> start d) ->
  (forall x d, x ∈ visited -> depends items x d -> d ∈ visited \/ d ∈ pending) ->
  exists b, ordered_search n g predecessor pending visited = Some (Ok b)
    /\ (b = true -> start predecessor)
    /\ (b = false -> exists final, visited ++ pending ⊆ final /\ predecessor ∉ final
         /\ forall x d, x ∈ final -> depends items x d -> d ∈ final).
Proof.
  intros Hsub Hpred Hlen Hst Hstart Hclosed. revert pending visited Hsub Hpred Hlen Hst Hclosed.
  induction n as [|n IH]; intros [|current rest] visited Hsub Hpred Hlen Hst Hclosed; cbn [ordered_search].
  1,3: exists false; split; [done|]; split; [done|]; intros _; exists visited; split; [set_solver|]; split; [done|];
    intros x d Hx Hd; destruct (Hclosed x d Hx Hd) as [?|Hn]; [done|by apply elem_of_nil in Hn].
  { cbn in Hlen. lia. }
  destruct (String.eqb_spec current predecessor) as [->|Hne].
  { exists true. split; [done|]. split; [intros _; apply Hst; left; by left|done]. }
  destruct (mem current visited) eqn:Em.
  - apply mem_spec in Em. destruct (IH rest visited) as (b & E & Ht & Hf); try done.
    + set_solver.
    + cbn in Hlen. lia.
    + intros x Hx. apply Hst. set_solver.
    + intros x d Hx Hd. destruct (Hclosed x d Hx Hd) as [?|Hin]; [by left|].
      apply elem_of_cons in Hin as [->|?]; [by left|by right].
    + exists b. split; [done|]. split; [done|]. intros Hb. destruct (Hf Hb) as (final & H1 & H2 & H3). exists final.
      split; [|done]. set_solver.
  - assert (Hv : current ∉ visited) by (rewrite <- mem_spec; congruence).
    assert (Hi : current ∈ map wi_work_id items) by (apply Hsub; by left).
    apply list_elem_of_fmap in Hi as (w & -> & Hw). rewrite (proj2 (item_ok _ w) (conj Hw eq_refl)).
    assert (Hdep : forall d, d ∈ wi_dependencies w -> depends items (wi_work_id w) d) by (intros d Hd; exists w; done).
    destruct (IH (rev (wi_dependencies w) ++ rest) (wi_work_id w :: visited)) as (b & E & Ht & Hf).
    + intros d. rewrite elem_of_app, elem_of_rev. intros [Hd|Hd]; [|set_solver].
      by apply (Hc (wi_work_id w)), Hdep.
    + rewrite elem_of_cons. naive_solver.
    + rewrite length_app, length_rev. rewrite (unexpanded_visit w visited Hw Hv) in Hlen. cbn in Hlen. lia.
    + assert (Hsw : start (wi_work_id w)) by (apply Hst; left; by left).
      intros x. rewrite elem_of_app, elem_of_cons, elem_of_rev.
      intros [[Hx|Hx]|[->|Hx]]; [by eapply Hstart; [|apply Hdep]|apply Hst; set_solver|done|apply Hst; set_solver].
    + intros x d Hx Hd. rewrite elem_of_app, elem_of_cons, elem_of_rev.
      apply elem_of_cons in Hx as [->|Hx].
      * destruct Hd as (w' & Hw' & Hid & Hd). rewrite (same_key wi_work_id items w' w Hids Hw' Hw Hid) in Hd. tauto.
      * destruct (Hclosed x d Hx Hd) as [?|Hin]; [tauto|]. apply elem_of_cons in Hin as [->|?]; tauto.
    + exists b. split; [done|]. split; [done|]. intros Hb. destruct (Hf Hb) as (final & H1 & H2 & H3). exists final.
      split; [|done]. intros x Hx. apply H1. set_solver.
Qed.

Lemma by_id_items : map snd (_by_id g) = items.
Proof.
  rewrite Hindex, index_by_NoDup by done. rewrite List.map_map. cbn. apply map_id.
Qed.

Lemma unexpanded_nil : unexpanded [] = edge_count items.
Proof. unfold unexpanded, edge_count. f_equal. Qed.

(** [_ordered] decides the transitive dependency of the two identifiers. *)
Lemma ordered_decides predecessor successor : deps_closed items -> successor ∈ map wi_work_id items ->
  exists b, _ordered g predecessor successor = Ok b /\ (b = true <-> tc (depends items) successor predecessor).
Proof.
  intros Hc Hs. apply list_elem_of_fmap in Hs as (w & -> & Hw). unfold _ordered.
  rewrite (proj2 (item_ok _ w) (conj Hw eq_refl)). cbn [rbind]. rewrite by_id_items.
  assert (Hdep : forall d, d ∈ wi_dependencies w <-> depends items (wi_work_id w) d).
  { intros d. split; [intros Hd; by exists w|]. intros (w' & Hw' & Hid & Hd).
    by rewrite (same_key wi_work_id items w' w Hids Hw' Hw Hid) in Hd. }
  destruct (search_decides Hc (tc (depends items) (wi_work_id w)) predecessor
    (length (wi_dependencies w) + edge_count items) (rev (wi_dependencies w)) []) as (b & E & Ht & Hf).
  - intros d. rewrite elem_of_rev, Hdep. apply Hc.
  - set_solver.
  - by rewrite length_rev, unexpanded_nil.
  - intros x [Hx|Hx]; [|by apply elem_of_nil in Hx]. apply tc_once, Hdep.
    by rewrite elem_of_rev in Hx.
  - intros x d Hx Hd. by eapply tc_r.
  - intros x d Hx. by apply elem_of_nil in Hx.
  - exists b. rewrite E. split; [done|]. split; [done|]. intros Htc. destruct b; [done|]. exfalso.
    destruct (Hf eq_refl) as (final & H1 & H2 & H3). apply H2.
    assert (Hfin : forall x y, tc (depends items) x y -> (x = wi_work_id w \/ x ∈ final) -> y ∈ final).
    { assert (Hone : forall x y, depends items x y -> x = wi_work_id w \/ x ∈ final -> y ∈ final).
      { intros x y Hxy [->|Hx]; [|by eapply H3]. apply H1. apply elem_of_app. right.
        rewrite elem_of_rev. by apply Hdep. }
      induction 1 as [x y Hxy|x y z Hxy _ IHt]; intros Hx; [by eapply Hone|]. apply IHt. right. by eapply Hone. }
    eapply Hfin; [exact Htc|by left].
Qed.

End ordering.

(** ** What the constructor accepts *)

(** The number of items whose parent is [i]. *)
Definition children_of (items : list WorkItem) (i : string) : Z :=
  Z.of_nat (length (List.filter (fun w => bool_decide (parent_work_id w = Some i)) items)).

Record graph_ok (c : MissionCharter) (lim : PlanLimits) (items : list WorkItem) : Prop := {
  go_ids : NoDup (map wi_work_id items);
  go_some : items <> [];
  go_count : Z.of_nat (length items) <= limit_work_items lim;
  go_mission : forall w, w ∈ items -> wi_mission_id w = charter_mission_id c;
  go_depth : forall w, w ∈ items -> depth w <= limit_depth lim;
  go_closed : deps_closed items;
  go_parent : forall w p, w ∈ items -> parent_work_id w = Some p ->
    exists parent, parent ∈ items /\ wi_work_id parent = p /\ depth w = depth parent + 1;
  go_fanout : forall w, w ∈ items -> children_of items (wi_work_id w) <= max_fanout lim;
  go_acceptance : charter_acceptance_specs c ⊆ concat (map wi_acceptance_specs items);
  go_acyclic : no_cycle (depends items);
  (** Items that may write a common path are ordered, if only indirectly. *)
  go_writes : forall a b, a ∈ items -> b ∈ items -> wi_work_id a <> wi_work_id b -> scopes_overlap a b = true ->
    tc (depends items) (wi_work_id a) (wi_work_id b) \/ tc (depends items) (wi_work_id b) (wi_work_id a) }.

Definition graph_of (c : MissionCharter) (lim : PlanLimits) (items : list WorkItem) : ObjectiveGraph :=
  {| charter := c; work_items := items; limits := lim; _by_id := index_by wi_work_id items |}.

Section accepting.
Context (c : MissionCharter) (lim : PlanLimits) (items : list WorkItem) (Hids : NoDup (map wi_work_id items)).
Notation g := (graph_of c lim items).

Definition item_valid (w : WorkItem) : Prop :=
  wi_mission_id w = charter_mission_id c /\ depth w <= limit_depth lim
  /\ wi_dependencies w ⊆ map wi_work_id items /\ wi_work_id w ∉ wi_dependencies w
  /\ (forall p, parent_work_id w = Some p -> exists parent, parent ∈ items /\ wi_work_id parent = p /\ depth w = depth parent + 1).

Definition count_children (children : list (string * Z)) (l : list WorkItem) : list (string * Z) :=
  fold_left (fun ch w => match parent_work_id w with Some p => count_child p ch | None => ch end) l children.

Lemma validate_item_ok children acceptance w st :
  validate_item g (children, acceptance) w = Ok st <->
  item_valid w /\ st = (count_children children [w], acceptance ++ wi_acceptance_specs w).
Proof.
  assert (Hdeps : forallb (fun d => mem d (_by_id g).*1) (wi_dependencies w) = true <-> wi_dependencies w ⊆ map wi_work_id items).
  { etrans; [apply (subset_spec (wi_dependencies w) ((_by_id g).*1))|]. cbn [_by_id graph_of].
    split; intros H d Hd; [rewrite <- index_by_elem|rewrite index_by_elem]; by apply H. }
  unfold validate_item, item_valid. split.
  - intros H. take_guard H H1. take_guard H H2. take_guard H H3. take_guard H H4. take_ok H ch Ech. injection H as <-.
    apply Hdeps in H3. bool_hyps. split; [split; [done|]; split; [done|]; split; [done|]; split|].
    + intros Hin. apply mem_spec in Hin. congruence.
    + intros p Hp. rewrite Hp in Ech. cbn [_by_id graph_of] in Ech.
      destruct (lookup_key p _) as [parent|] eqn:El; [|done]. apply index_by_some in El as [Hin Hid]; [|done].
      take_guard Ech Hd. apply Z.eqb_eq in Hd. eauto.
    + f_equal. cbn. destruct (parent_work_id w) as [p|]; [|by injection Ech]. cbn [_by_id graph_of] in Ech.
      destruct (lookup_key p _) as [parent|] eqn:El; [|done]. apply index_by_some in El as [Hin Hid]; [|done].
      take_guard Ech Hd. injection Ech as <-. by rewrite Hid.
  - intros [(H1 & H2 & H3 & H4 & H5) ->]. cbn [charter limits graph_of]. rewrite (proj2 (String.eqb_eq _ _) H1), (proj2 (Z.leb_le _ _) H2), (proj2 Hdeps H3).
    cbn [require rbind]. rewrite <- mem_spec, not_true_iff_false in H4. rewrite H4. cbn [negb require rbind count_children fold_left].
    destruct (parent_work_id w) as [p|]; [|done]. destruct (H5 p eq_refl) as (parent & Hin & Hid & Hd).
    cbn [_by_id graph_of]. rewrite (proj2 (index_by_some wi_work_id items p parent Hids) (conj Hin Hid)).
    rewrite (proj2 (Z.eqb_eq _ _) Hd). cbn [require rbind]. by rewrite Hid.
Qed.

Lemma validate_items_ok l children acceptance st :
  rfold (validate_item g) (children, acceptance) l = Ok st <->
  (forall w, w ∈ l -> item_valid w)
  /\ st = (count_children children l, acceptance ++ concat (map wi_acceptance_specs l)).
Proof.
  revert children acceptance. induction l as [|w l IH]; intros children acceptance; cbn [rfold].
  - cbn. rewrite app_nil_r. split; [intros [= <-]; split; [intros w Hw; by apply elem_of_nil in Hw|done]|by intros [_ ->]].
  - rewrite rbind_ok. split.
    + intros (st1 & H1 & H2). apply validate_item_ok in H1 as [Hv ->]. apply IH in H2 as [Hl ->]. split.
      * intros v Hin. apply elem_of_cons in Hin as [->|Hin]; auto.
      * cbn. by rewrite app_assoc.
    + intros [Hl ->]. eexists. split; [apply validate_item_ok; split; [apply Hl; by left|reflexivity]|].
      apply IH. split; [intros v Hv; apply Hl; by right|]. cbn. by rewrite app_assoc.
Qed.

(** The counters hold the number of children. *)
Lemma count_children_lookup l children i :
  i ∈ children.*1 -> lookup_key i (count_children children l) = Some (default 0 (lookup_key i children) + children_of l i).
Proof.
  revert children. induction l as [|w l IH]; intros children Hi; cbn.
  - unfold children_of. cbn. rewrite Z.add_0_r. destruct (lookup_key i children) eqn:E; [done|].
    by apply lookup_key_not_in in E.
  - unfold children_of in *. cbn [List.filter]. destruct (parent_work_id w) as [p|] eqn:Ep.
    + assert (Hi' : i ∈ (count_child p children).*1).
      { destruct (decide (i ∈ (count_child p children).*1)) as [|Hn]; [done|]. apply lookup_key_not_in in Hn.
        unfold count_child in Hn. rewrite lookup_key_set in Hn. destruct (String.eqb p i); [done|].
        by apply lookup_key_not_in in Hn. }
      change (fold_left _ l (count_child p children)) with (count_children (count_child p children) l).
      rewrite (IH _ Hi'). f_equal. unfold count_child. rewrite lookup_key_set.
      destruct (String.eqb_spec p i) as [->|Hne].
      * rewrite bool_decide_eq_true_2 by done. cbn. lia.
      * rewrite bool_decide_eq_false_2 by congruence. done.
    + rewrite bool_decide_eq_false_2 by congruence. by apply IH.
Qed.

Lemma count_children_keys l children : NoDup children.*1 -> (forall w p, w ∈ l -> parent_work_id w = Some p -> p ∈ children.*1) ->
  NoDup (count_children children l).*1 /\ forall i, i ∈ (count_children children l).*1 <-> i ∈ children.*1.
Proof.
  revert children. induction l as [|w l IH]; intros children Hn Hp; cbn; [done|].
  change (fold_left _ l ?ch) with (count_children ch l). destruct (parent_work_id w) as [p|] eqn:Ep.
  - destruct (dict_set_keys p (default 0 (lookup_key p children) + 1) children Hn) as [Hn' He].
    assert (Hin : p ∈ children.*1) by (eapply Hp; [by left|done]).
    destruct (IH (count_child p children)) as [H1 H2]; [done| |].
    + intros w' p' Hw' Hp'. unfold count_child. rewrite He. right. eapply Hp; [by right|done].
    + split; [done|]. intros i. rewrite H2. unfold count_child. rewrite He. naive_solver.
  - apply IH; [done|]. intros w' p' Hw'. apply Hp. by right.
Qed.

Lemma fanout_ok : (forall w, w ∈ items -> item_valid w) ->
  forallb (fun kc => kc.2 <=? max_fanout lim) (count_children (dict_of_pairs (map (fun w => (wi_work_id w, 0)) items)) items) = true
  <-> forall w, w ∈ items -> children_of items (wi_work_id w) <= max_fanout lim.
Proof.
  intros Hv. rewrite dict_of_pairs_distinct by (by rewrite <- list_fmap_compose).
  set (zero := map (fun w => (wi_work_id w, 0)) items). assert (Hz : zero.*1 = map wi_work_id items) by (unfold zero; by rewrite <- list_fmap_compose).
  destruct (count_children_keys items zero) as [Hn Hk].
  { by rewrite Hz. }
  { intros w p Hw Hp. destruct (Hv w Hw) as (_ & _ & _ & _ & H). destruct (H p Hp) as (parent & Hin & <- & _).
    rewrite Hz. by apply (list_elem_of_fmap_2 wi_work_id). }
  assert (Hl : forall w, w ∈ items -> lookup_key (wi_work_id w) (count_children zero items) = Some (children_of items (wi_work_id w))).
  { intros w Hw. assert (Hw' : wi_work_id w ∈ zero.*1) by (rewrite Hz; by apply (list_elem_of_fmap_2 wi_work_id)).
    rewrite count_children_lookup by done. f_equal.
    assert (lookup_key (wi_work_id w) zero = Some 0) as ->; [|done].
    apply lookup_key_NoDup; [by rewrite Hz|]. by apply (list_elem_of_fmap_2 (fun w => (wi_work_id w, 0))). }
  rewrite forallb_forall. split.
  - intros H w Hw. specialize (Hl w Hw). apply lookup_key_in, list_elem_of_In, H in Hl. by apply Z.leb_le in Hl.
  - intros H [i n] Hin. apply list_elem_of_In in Hin. assert (Hi := list_elem_of_fmap_2 fst _ _ Hin).
    cbn in Hi. apply Hk in Hi. rewrite Hz in Hi. apply list_elem_of_fmap in Hi as (w & -> & Hw).
    apply lookup_key_NoDup in Hin; [|done]. rewrite Hl in Hin by done. injection Hin as <-. cbn. apply Z.leb_le. by apply H.
Qed.

End accepting.

Lemma later_pairs_elem {A} (l : list A) a b : (a, b) ∈ later_pairs l -> a ∈ l /\ b ∈ l.
Proof.
  induction l as [|x l IH]; cbn; intros H; [by apply elem_of_nil in H|]. apply elem_of_app in H as [H|H].
  - apply list_elem_of_fmap in H as (y & [= -> ->] & Hy). split; [by left|by right].
  - apply IH in H as [? ?]. split; by right.
Qed.
Lemma later_pairs_cover {A} (l : list A) a b : a ∈ l -> b ∈ l -> a <> b -> (a, b) ∈ later_pairs l \/ (b, a) ∈ later_pairs l.
Proof.
  induction l as [|x l IH]; cbn; intros Ha Hb Hne; [by apply elem_of_nil in Ha|]. rewrite !elem_of_app.
  apply elem_of_cons in Ha as [->|Ha]; apply elem_of_cons in Hb as [->|Hb]; [done| | |].
  - left. left. by apply (list_elem_of_fmap_2 (pair x)).
  - right. left. by apply (list_elem_of_fmap_2 (pair x)).
  - destruct (IH Ha Hb Hne); tauto.
Qed.
Lemma later_pairs_NoDup {A} (f : A -> string) (l : list A) a b : NoDup (map f l) -> (a, b) ∈ later_pairs l -> f a <> f b.
Proof.
  induction l as [|x l IH]; cbn; intros Hn H; [by apply elem_of_nil in H|]. apply NoDup_cons in Hn as [Hx Hn].
  apply elem_of_app in H as [H|H]; [|by apply IH]. apply list_elem_of_fmap in H as (y & [= -> ->] & Hy).
  intros E. apply Hx. rewrite E. by apply (list_elem_of_fmap_2 f).
Qed.

Lemma paths_overlap_sym l r : paths_overlap l r = paths_overlap r l.
Proof. unfold paths_overlap. rewrite (String.eqb_sym l r), <- !orb_assoc. f_equal. apply orb_comm. Qed.
Lemma scopes_overlap_sym a b : scopes_overlap a b = scopes_overlap b a.
Proof.
  apply eq_true_iff_eq. unfold scopes_overlap. setoid_rewrite existsb_exists. setoid_rewrite existsb_exists.
  split; intros (x & Hx & y & Hy & H); exists y; (split; [done|]); exists x; (split; [done|]); by rewrite paths_overlap_sym.
Qed.

Section writes.
Context (c : MissionCharter) (lim : PlanLimits) (items : list WorkItem).
Context (Hids : NoDup (map wi_work_id items)) (Hc : deps_closed items).
Notation g := (graph_of c lim items).

Lemma check_concurrent_ok a b : a ∈ items -> b ∈ items ->
  check_concurrent g (a, b) = Ok tt <->
  (scopes_overlap a b = true -> tc (depends items) (wi_work_id a) (wi_work_id b) \/ tc (depends items) (wi_work_id b) (wi_work_id a)).
Proof.
  intros Ha Hb. unfold check_concurrent. cbn [fst snd]. destruct (scopes_overlap a b); [|naive_solver].
  destruct (ordered_decides g Hids eq_refl (wi_work_id a) (wi_work_id b) Hc) as (x & -> & Hx);
    [by apply (list_elem_of_fmap_2 wi_work_id)|]. cbn [rbind work_items graph_of] in *.
  destruct (ordered_decides g Hids eq_refl (wi_work_id b) (wi_work_id a) Hc) as (y & -> & Hy);
    [by apply (list_elem_of_fmap_2 wi_work_id)|]. cbn [rbind work_items graph_of] in *.
  destruct x; [split; [intros _ _; right; by apply Hx|done]|]. rewrite require_ok. split.
  - intros -> _. left. by apply Hy.
  - intros H. destruct (H eq_refl) as [H'|H']; [by apply Hy|]. by apply Hx in H'.
Qed.

Lemma concurrent_writes_ok : _validate_concurrent_writes g = Ok tt <->
  forall a b, a ∈ items -> b ∈ items -> wi_work_id a <> wi_work_id b -> scopes_overlap a b = true ->
    tc (depends items) (wi_work_id a) (wi_work_id b) \/ tc (depends items) (wi_work_id b) (wi_work_id a).
Proof.
  unfold _validate_concurrent_writes. rewrite each_ok. cbn [work_items graph_of]. split.
  - intros H a b Ha Hb Hne Ho. destruct (later_pairs_cover items a b Ha Hb) as [Hp|Hp]; [congruence| |].
    + by apply (proj1 (check_concurrent_ok a b Ha Hb) (H _ Hp)).
    + rewrite scopes_overlap_sym in Ho. destruct (proj1 (check_concurrent_ok b a Hb Ha) (H _ Hp) Ho); auto.
  - intros H [a b] Hab. destruct (later_pairs_elem _ _ _ Hab) as [Ha Hb]. apply check_concurrent_ok; [done..|].
    apply H; try done. by eapply later_pairs_NoDup.
Qed.
End writes.

Lemma validate_ok c lim items : NoDup (map wi_work_id items) ->
  _validate (graph_of c lim items) = Ok tt <-> graph_ok c lim items.
Proof.
  intros Hids. assert (Hself : forall w, w ∈ items -> no_cycle (depends items) -> wi_work_id w ∉ wi_dependencies w).
  { intros w Hw Hn Hin. apply (Hn (wi_work_id w)). apply tc_once. by exists w. }
  unfold _validate. split.
  - intros H. take_guard H H1. take_guard H H2. take_ok H st E. apply validate_items_ok in E as [Hv ->]; [|done].
    take_guard H H3. take_guard H H4. take_ok H l Eo. cbn [fst snd app work_items limits charter graph_of] in *.
    pose proof (proj1 (fanout_ok c lim items Hids Hv) H3) as Hfan. clear H3. apply subset_spec in H4. bool_hyps.
    assert (Hc : deps_closed items).
    { intros i d (w & Hw & _ & Hd). destruct (Hv w Hw) as (_ & _ & Hs & _). by apply Hs. }
    pose proof (proj1 (concurrent_writes_ok c lim items Hids Hc) H) as Hwr. split; try done.
    + intros w Hw. by apply Hv.
    + intros w Hw. by apply Hv.
    + intros w p Hw Hp. by apply (Hv w Hw).
    + apply (ordered_items_iff (graph_of c lim items) Hids eq_refl Hc). by exists l.
  - intros [Hn Hsome Hcount Hmis Hdep Hc Hpar Hfan Hacc Hcyc Hw]. cbn [work_items limits charter graph_of].
    rewrite bool_decide_eq_false_2 by done. rewrite (proj2 (Z.leb_le _ _) Hcount). cbn [negb require rbind].
    assert (Hv : forall w, w ∈ items -> item_valid c lim items w).
    { intros w Hin. split; [by apply Hmis|]. split; [by apply Hdep|]. split.
      - intros d Hd. apply (Hc (wi_work_id w)). by exists w.
      - split; [by apply Hself|]. intros p. by apply Hpar. }
    rewrite (proj2 (validate_items_ok c lim items Hids items _ _ _) (conj Hv eq_refl)). cbn [rbind fst snd app].
    rewrite (proj2 (fanout_ok c lim items Hids Hv) Hfan). cbn [require rbind].
    rewrite (proj2 (subset_spec _ _) Hacc). cbn [require rbind].
    destruct (proj2 (ordered_items_iff (graph_of c lim items) Hids eq_refl Hc) Hcyc) as [l ->]. cbn [rbind].
    exact (proj2 (concurrent_writes_ok c lim items Hids Hc) Hw).
Qed.

Lemma build_graph_iff c items given g : build_graph c items given = Ok g <->
  exists lim, graph_limits c given = Ok lim /\ g = graph_of c lim items /\ graph_ok c lim items.
Proof.
  unfold build_graph. split.
  - intros H. take_ok H lim El. exists lim. take_guard H Hl. apply Nat.eqb_eq, index_by_length in Hl. take_ok H u Hv.
    destruct u. injection H as <-. split; [done|]. split; [done|]. by apply validate_ok.
  - intros (lim & -> & -> & Hok). cbn [rbind]. fold (graph_of c lim items). assert (Hids := go_ids _ _ _ Hok).
    cbn [_by_id graph_of]. rewrite (proj2 (Nat.eqb_eq _ _) (proj2 (index_by_length wi_work_id items) Hids)).
    cbn [require rbind]. apply validate_ok in Hok; [|done]. unfold graph_of in *. by rewrite Hok.
Qed.

(** C35: the constructor of an objective graph accepts exactly the well-formed
    work graphs: unique identifiers, within the item and depth limits, one
    mission, every dependency present, no dependency cycle of any length,
    parents present at the depth above, within the fan-out limit, the charter's
    acceptance specs covered, and any two items with overlapping write scopes
    ordered by a chain of dependencies. *)
Theorem objective_graph_accepts_iff c lim items g :
  build_graph c items (Some lim) = Ok g <-> g = graph_of c lim items /\ graph_ok c lim items.
Proof.
  rewrite build_graph_iff. split; [by intros (? & [= <-] & H)|]. intros H. by exists lim.
Qed.

(** ** The order is canonical *)

Lemma ordered_loop_perm g g' n pending pending' : (forall i, graph_item g i = graph_item g' i) -> pending ≡ₚ pending' ->
  ordered_loop n g pending = ordered_loop n g' pending'.
Proof.
  intros Hi. revert pending pending'. induction n as [|n IH]; intros pending pending' Hp.
  - destruct pending, pending'; try done; by apply Permutation_length in Hp.
  - destruct pending as [|p rest], pending' as [|p' rest']; try done; try (by apply Permutation_length in Hp).
    cbn [ordered_loop]. set (l := p :: rest) in *. set (l' := p' :: rest') in *.
    assert (Hr : ready_ids l = ready_ids l') by (apply sorted_str_perm, Permutation_map; by apply filter_perm).
    rewrite <- Hr. case_bool_decide; [done|]. rewrite (map_result_ext _ _ _ Hi). destruct (map_result _ _); [|done].
    by rewrite (IH _ (without_completed (ready_ids l) l')) by (apply Permutation_map; by apply filter_perm).
Qed.

Lemma ordered_items_perm c lim items items' : NoDup (map wi_work_id items) -> items ≡ₚ items' ->
  ordered_items (graph_of c lim items) = ordered_items (graph_of c lim items').
Proof.
  intros Hn Hp. assert (Hn' : NoDup (map wi_work_id items')) by (by rewrite <- Hp).
  unfold ordered_items. cbn [work_items graph_of].
  assert (Hpp : pending_sets items ≡ₚ pending_sets items').
  { unfold pending_sets. rewrite !dict_of_pairs_distinct by (by rewrite <- list_fmap_compose). by apply Permutation_map. }
  rewrite <- (Permutation_length Hpp). f_equal. apply ordered_loop_perm; [|done].
  intros i. unfold graph_item. cbn [_by_id graph_of]. rewrite !index_by_NoDup by done.
  rewrite (lookup_key_perm i _ (map (fun w => (wi_work_id w, w)) items')); [done|by rewrite <- list_fmap_compose|].
  by apply Permutation_map.
Qed.

Lemma depends_perm items items' i d : items ≡ₚ items' -> depends items i d -> depends items' i d.
Proof. intros Hp (w & Hw & H). exists w. by rewrite <- Hp. Qed.

Lemma tc_depends_perm items items' i d : items ≡ₚ items' -> tc (depends items) i d -> tc (depends items') i d.
Proof.
  intros Hp. induction 1 as [x y H|x y z H _ IH]; [by apply tc_once, (depends_perm items)|].
  eapply tc_l; [by apply (depends_perm items)|done].
Qed.

Lemma concat_perm {A} (l l' : list (list A)) : l ≡ₚ l' -> concat l ≡ₚ concat l'.
Proof.
  induction 1 as [|x l l' _ IH|x y l|l1 l2 l3 _ IH1 _ IH2]; cbn; [done|by rewrite IH| |by rewrite IH1].
  rewrite !app_assoc. apply Permutation_app_tail, Permutation_app_comm.
Qed.

#[global] Instance children_of_proper : Proper ((≡ₚ) ==> eq ==> eq) children_of.
Proof. intros l l' Hp i _ <-. unfold children_of. by rewrite (filter_perm _ _ _ Hp). Qed.

Lemma graph_ok_perm c lim items items' : items ≡ₚ items' -> graph_ok c lim items -> graph_ok c lim items'.
Proof.
  intros Hp [H1 H2 H3 H4 H5 H6 H7 H8 H9 H10 H11]. assert (Hp' : items' ≡ₚ items) by done. split.
  - by rewrite <- Hp.
  - intros ->. by apply H2, Permutation_nil.
  - by rewrite <- (Permutation_length Hp).
  - intros w. rewrite <- Hp. auto.
  - intros w. rewrite <- Hp. auto.
  - intros i d H. rewrite <- Hp. by eapply H6, (depends_perm items').
  - intros w p. rewrite <- Hp. intros Hw E. destruct (H7 w p Hw E) as (parent & H & ?). exists parent. by rewrite <- Hp.
  - intros w. rewrite <- Hp. auto.
  - by rewrite <- (concat_perm _ _ (Permutation_map wi_acceptance_specs Hp)).
  - intros i H. by apply (H10 i), (tc_depends_perm items').
  - intros a b Ha Hb Hne Ho. rewrite <- Hp in Ha, Hb. destruct (H11 a b Ha Hb Hne Ho); [left|right]; by apply (tc_depends_perm items).
Qed.

Lemma accepted_order c given items g : build_graph c items given = Ok g ->
  exists l, ordered_items g = Ok l /\ l ≡ₚ items /\ topological [] l.
Proof.
  intros H. apply build_graph_iff in H as (lim & _ & -> & Hok). assert (Hids := go_ids _ _ _ Hok).
  destruct (proj2 (ordered_items_iff (graph_of c lim items) Hids eq_refl (go_closed _ _ _ Hok)) (go_acyclic _ _ _ Hok)) as [l E].
  exists l. split; [done|]. by apply ordered_items_ok in E.
Qed.

(** The order of the work items of an accepted graph is canonical: it lists
    every item once, each after everything it depends on, and it is the same
    list, with the same graph digest, whatever order the items were given in. *)
Theorem objective_order_canonical c given items items' g :
  build_graph c items given = Ok g -> items ≡ₚ items' ->
  exists l g', ordered_items g = Ok l /\ l ≡ₚ items /\ topological [] l
    /\ build_graph c items' given = Ok g' /\ ordered_items g' = Ok l /\ graph_digest g' = graph_digest g.
Proof.
  intros H Hp. destruct (accepted_order _ _ _ _ H) as (l & E & Hl & Ht).
  apply build_graph_iff in H as (lim & Hlim & -> & Hok).
  assert (Eo := ordered_items_perm c lim items items' (go_ids _ _ _ Hok) Hp).
  exists l, (graph_of c lim items'). split; [done|]. split; [done|]. split; [done|]. split; [|split; [congruence|]].
  - apply build_graph_iff. exists lim. split; [done|]. split; [done|]. by eapply graph_ok_perm.
  - unfold graph_digest. rewrite <- Eo. done.
Qed.

(** The loops of the graph always end: on any items whatever, cyclic or with
    missing dependencies, [ordered_items] runs out of neither fuel, and
    returns the items or raises. *)
Theorem objective_loops_terminate g : is_Some (ordered_loop (length (pending_sets (work_items g))) g (pending_sets (work_items g))).
Proof. by apply ordered_loop_total. Qed.

(** ** A sample mission *)

Module SampleMission.
Definition charter : MissionCharter :=
  {| charter_schema_version := 1; charter_mission_id := "MISSION-1"; created_at := "2024-05-01T10:00:00Z";
     charter_objective := "ship"; charter_acceptance_specs := ["AC-1"; "AC-2"]; repository_root := "repo";
     base_commit := String.concat "" (replicate 40 "b"); target_branch := "work"; charter_policy_fingerprint := SampleWork.some_digest;
     role_registry_fingerprint := SampleWork.some_digest; model_route_fingerprint := SampleWork.some_digest;
     charter_budget := {| max_wall_seconds := 600; max_model_calls := 50; max_input_tokens := 9000; max_output_tokens := 9000;
                          max_cost_microunits := 1800; max_tool_calls := 90; max_work_items := 6; max_depth := 2 |};
     external_grants := []; protected_branches := ["main"]; charter_human_gates := ["release"]; charter_status := M_PLANNING |}.
(** Two items that write below [src], ordered through a third one; the suffix
    tells the items of one plan from those of the next. *)
Definition items_of (suffix : string) : list WorkItem :=
  let id (name : string) := ("WORK-" +:+ name +:+ suffix)%stdpp in
  [SampleWork.item (id "root") None 0 "orchestrator" "R0" [id "test"] [] [];
   SampleWork.item (id "test") (Some (id "root")) 1 "curator" "R1" [id "review"] ["AC-2"] ["src/core/tests"];
   SampleWork.item (id "review") (Some (id "root")) 1 "architect" "R1" [id "build"] [] [];
   SampleWork.item (id "build") (Some (id "root")) 1 "builder" "R1" [] ["AC-1"] ["src/core"]].
Definition items : list WorkItem := Eval vm_compute in items_of "".
Definition graph : ObjectiveGraph :=
  graph_of charter {| limit_work_items := 6; limit_depth := 2; max_fanout := 8 |} items.
End SampleMission.

Lemma sample_graph_builds : build_graph SampleMission.charter SampleMission.items None = Ok SampleMission.graph.
Proof. vm_compute. reflexivity. Qed.

Lemma objective_order_canonical_witness :
  exists l g', ordered_items SampleMission.graph = Ok l
    /\ build_graph SampleMission.charter (reverse SampleMission.items) None = Ok g' /\ ordered_items g' = Ok l
    /\ map wi_work_id l = ["WORK-build"; "WORK-review"; "WORK-test"; "WORK-root"].
Proof.
  destruct (objective_order_canonical SampleMission.charter None SampleMission.items (reverse SampleMission.items) SampleMission.graph)
    as (l & g' & E & _ & _ & Eb & Eo & _); [exact sample_graph_builds|symmetry; apply reverse_Permutation|].
  exists l, g'. split; [exact E|]. split; [exact Eb|]. split; [exact Eo|].
  assert (Ev : rbind (ordered_items SampleMission.graph) (fun l => Ok (map wi_work_id l))
    = Ok ["WORK-build"; "WORK-review"; "WORK-test"; "WORK-root"]) by (vm_compute; reflexivity).
  rewrite E in Ev. by injection Ev.
Defined.

End Objectives.
