(* ===== verification/Plans.v ===== *)
(** * Orchestration plans

    The pure half of [brain_kernel/planner.py]: schedules and their budgets, the
    checks of an orchestration plan, plan complexity, the orchestrator planner
    (plan, replan, simplify, choice of the simplest plan) and the fixture
    planner. *)

From S2P Require Import Prelude Sha256 Canonical PyLib Graphs Schema Contracts Projection WorkItems Objectives.

Module Plans.
Export Projection Objectives.

Definition _PLAN_SCHEMA_VERSION : Z := 1.
Definition _FIXTURE_PLANNER_KIND : string := "fixture-v1".
Definition _ORCHESTRATOR_PLANNER_KIND : string := "orchestration-v1".
Definition _EMPTY_DIGEST : string := ("sha256:" +:+ String.concat "" (replicate 64 "0"))%stdpp.

(** ** Budgets *)

#[global] Instance Budget_eq_dec : EqDecision Budget.
Proof. solve_decision. Defined.

Definition _CONSUMPTIVE_BUDGET_FIELDS : list string := take 6 budget_fields.
(** The consumptive fields of a budget, in the order of their names. *)
Definition consumptive (b : Budget) : list Z := take 6 (budget_values b).

(** A dictionary over [_CONSUMPTIVE_BUDGET_FIELDS], by its values. *)
Definition totals : Type := list Z.
Definition no_totals : totals := map (fun _ => 0) _CONSUMPTIVE_BUDGET_FIELDS.
Definition add_totals : totals -> totals -> totals := zip_with Z.add.
Definition totals_document (t : totals) : json := JObj (zip _CONSUMPTIVE_BUDGET_FIELDS (map JInt t)).

Definition _assert_budget_within (used : totals) (limit : Budget) (label : string) : result unit :=
  each (fun nvl => require (nvl.2.1 <=? nvl.2.2) ValueError (label +:+ " exceeds charter " +:+ nvl.1)%stdpp)
    (zip _CONSUMPTIVE_BUDGET_FIELDS (zip used (consumptive limit))).

(** One integer member of a budget document. *)
Definition budget_member (d : contract) (k : string) : result Z :=
  match lookup_key k d with
  | None => raise KeyError k
  | Some (JInt z) => Ok z
  | Some _ => raise ValueError "scheduled budget fields must be integers"
  end.
Definition budget_from_values (vs : list Z) : result Budget :=
  match vs with
  | [a; b; c; d; e; f; g; h] =>
      let b := {| max_wall_seconds := a; max_model_calls := b; max_input_tokens := c; max_output_tokens := d;
                  max_cost_microunits := e; max_tool_calls := f; max_work_items := g; max_depth := h |} in
      check_budget b ;? Ok b
  | _ => raise TypeError "missing argument"
  end.

(** [except (KeyError, TypeError, ValueError) as error: raise ValueError(m)] *)
Definition reraise {A} (m : string) : result A -> result A := wrap [KeyError; TypeError; ValueError] ValueError m.

Definition _budget_from_document (d : contract) : result Budget :=
  reraise "scheduled budget is invalid"
    (let? vs := map_result (budget_member d) budget_fields in budget_from_values vs).

(** ** Schedules *)

Record WorkSchedule := {
  sc_work_id : string;
  sc_budget : Budget;
  risk_lane : string;
  stop_conditions : list string;
  consultation_roles : list string;
  sc_human_gates : list string }.
#[global] Instance WorkSchedule_eq_dec : EqDecision WorkSchedule.
Proof. solve_decision. Defined.

(** [value.strip() and value == value.strip()] of a string *)
Definition trimmed (s : string) : bool := negb (is_blank s) && String.eqb s (strip s).
Definition trimmed_str (v : json) : bool := match v with JStr s => trimmed s | _ => false end.

Definition _require_trimmed_unique (values : list json) (label : string) (minimum : nat) : result (list string) :=
  require (minimum <=? length values)%nat ValueError
    (label +:+ " requires at least " +:+ str_of_Z (Z.of_nat minimum) +:+ " values")%stdpp ;?
  require (forallb trimmed_str values) ValueError (label +:+ " must contain exact non-empty strings")%stdpp ;?
  let strings := omap as_str values in
  require (distinct strings) ValueError (label +:+ " must be unique")%stdpp ;?
  Ok strings.

(** [WorkSchedule] on its fields as they come; [__post_init__] tests their types. *)
Definition schedule_of (wid : json) (b : Budget) (lane : json) (stops roles gates : list json) : result WorkSchedule :=
  require (trimmed_str wid) ValueError "scheduled work id is required" ;?
  let? known := in_names lane RISK_TIERS in
  require known ValueError "scheduled risk lane is invalid" ;?
  let? stop_conditions := _require_trimmed_unique stops "scheduled stop conditions" 1 in
  let? roles := _require_trimmed_unique roles "scheduled consultation roles" 2 in
  require (forallb (fun r => mem r ROLE_NAMES) roles) ValueError "scheduled work needs registered consultation roles" ;?
  let? gates := _require_trimmed_unique gates "scheduled human gates" 0 in
  Ok {| sc_work_id := default "" (as_str wid); sc_budget := b; risk_lane := default "" (as_str lane);
        stop_conditions := stop_conditions; consultation_roles := roles; sc_human_gates := gates |}.
(** [WorkSchedule.__post_init__] *)
Definition check_schedule (s : WorkSchedule) : result WorkSchedule :=
  schedule_of (JStr (sc_work_id s)) (sc_budget s) (JStr (risk_lane s)) (map JStr (stop_conditions s))
    (map JStr (consultation_roles s)) (map JStr (sc_human_gates s)).

(** [WorkSchedule.to_document] *)
Definition schedule_to_document (s : WorkSchedule) : contract :=
  [("work_id", JStr (sc_work_id s)); ("budget", budget_document (sc_budget s)); ("risk_lane", JStr (risk_lane s));
   ("stop_conditions", strs (stop_conditions s)); ("consultation_roles", strs (consultation_roles s));
   ("human_gates", strs (sc_human_gates s))].

(** [WorkSchedule.from_document] *)
Definition schedule_from_document (d : contract) : result WorkSchedule :=
  reraise "scheduled work document is invalid"
    (let? budget := item "budget" d in
     match budget with
     | JObj budget =>
         let? wid := item "work_id" d in
         let? b := _budget_from_document budget in
         let? lane := item "risk_lane" d in
         let? stops := item "stop_conditions" d in
         let? stops := tuple_of stops in
         let? roles := item "consultation_roles" d in
         let? roles := tuple_of roles in
         let? gates := item "human_gates" d in
         let? gates := tuple_of gates in
         schedule_of wid b lane stops roles gates
     | _ => raise ValueError "scheduled budget is invalid"
     end).

Definition _schedule_budget_totals (schedules : list WorkSchedule) : totals :=
  fold_left (fun t s => add_totals t (consumptive (sc_budget s))) schedules no_totals.

(** ** Complexity *)

Record PlanComplexity := {
  pc_work_items : Z; dependency_edges : Z; pc_max_depth : Z; pc_max_attempts : Z; wall_seconds : Z; model_calls : Z;
  input_tokens : Z; output_tokens : Z; cost_microunits : Z; tool_calls : Z }.
#[global] Instance PlanComplexity_eq_dec : EqDecision PlanComplexity.
Proof. solve_decision. Defined.

Definition as_tuple (c : PlanComplexity) : list Z :=
  [pc_work_items c; dependency_edges c; pc_max_depth c; pc_max_attempts c; wall_seconds c; model_calls c;
   input_tokens c; output_tokens c; cost_microunits c; tool_calls c].
Definition strictly_reduces (current previous : PlanComplexity) : bool :=
  negb (bool_decide (as_tuple current = as_tuple previous))
  && forallb (fun vo => vo.1 <=? vo.2) (zip (as_tuple current) (as_tuple previous)).

(** [<] on tuples of integers. *)
Fixpoint tuple_ltb (a b : list Z) : bool :=
  match a, b with
  | [], [] => false
  | [], _ :: _ => true
  | _ :: _, [] => false
  | x :: xs, y :: ys => if x =? y then tuple_ltb xs ys else x <? y
  end.

(** ** Plans *)

Record OrchestrationPlan := {
  plan_graph : ObjectiveGraph;
  schedules : list WorkSchedule;
  replaces_digest : option string;
  replan_reason : option string;
  replan_evidence_refs : list string }.

(** The checks of one planned item against its schedule. *)
Definition check_scheduled (c : MissionCharter) (by_id : list (string * WorkSchedule)) (w : WorkItem) : result unit :=
  require (bool_decide (wi_status w = W_PROPOSED)) ValueError "new plans require PROPOSED work items" ;?
  match lookup_key (wi_work_id w) by_id with
  | None => raise KeyError (wi_work_id w)
  | Some s =>
      require (String.eqb (risk_lane s) (wi_risk_tier w)) ValueError "scheduled risk lane must match work item risk tier" ;?
      require (negb (mem (wi_role w) (consultation_roles s))) ValueError
        "consultation route cannot include the requesting work role" ;?
      require (subset (sc_human_gates s) (charter_human_gates c)) ValueError "scheduled human gate is not chartered" ;?
      require (budget_le (sc_budget s) (charter_budget c)) ValueError "scheduled budget exceeds charter budget"
  end.

(** [value is None] *)
Definition is_none (v : json) : bool := match v with JNull => true | _ => false end.

(** The replan fields: digest, reason and evidence go together. *)
Definition check_replan (replaced reason : json) (evidence : list json) : result (option string * option string * list string) :=
  require (Bool.eqb (negb (is_none replaced)) (negb (is_none reason))) ValueError
    "replan digest and reason must be supplied together" ;?
  if is_none replaced then
    require (Nat.eqb (length evidence) 0) ValueError "initial plan cannot contain replan evidence" ;?
    Ok (None, None, [])
  else
    require (match replaced with JStr s => is_digest s | _ => false end) ValueError
      "replan digest must be lowercase sha256:<64 hex>" ;?
    require (trimmed_str reason) ValueError "replan reason is required" ;?
    let? refs := _require_trimmed_unique evidence "replan evidence" 1 in
    Ok (as_str replaced, as_str reason, refs).

(** [OrchestrationPlan] on its fields as they come, with [__post_init__]. *)
Definition plan_of (g : ObjectiveGraph) (given : list WorkSchedule) (replaced reason : json) (evidence : list json)
    : result OrchestrationPlan :=
  let sorted := sorted_by sc_work_id given in
  let by_id := index_by sc_work_id sorted in
  require (Nat.eqb (length by_id) (length sorted) && subset (by_id.*1) (map wi_work_id (work_items g))
           && subset (map wi_work_id (work_items g)) (by_id.*1)) ValueError
    "each planned work item needs exactly one schedule" ;?
  each (check_scheduled (charter g) by_id) (work_items g) ;?
  _assert_budget_within (_schedule_budget_totals sorted) (charter_budget (charter g)) "total consumptive schedule budget" ;?
  let? (digest, why, refs) := check_replan replaced reason evidence in
  Ok {| plan_graph := g; schedules := sorted; replaces_digest := digest; replan_reason := why; replan_evidence_refs := refs |}.

(** [OrchestrationPlan.to_document] and [digest]: the graph orders its items
    again, which it has done before. *)
Definition plan_to_document (p : OrchestrationPlan) : result json :=
  let? gd := graph_digest (plan_graph p) in
  let? ordered := ordered_items (plan_graph p) in
  Ok (JObj [("schema_version", JInt _PLAN_SCHEMA_VERSION); ("planner_kind", JStr _ORCHESTRATOR_PLANNER_KIND);
            ("mission_id", JStr (charter_mission_id (charter (plan_graph p))));
            ("charter_digest", JStr (charter_digest (charter (plan_graph p)))); ("graph_digest", JStr gd);
            ("work_items", JList (map (fun w => JObj (work_item_to_document w)) ordered));
            ("schedules", JList (map (fun s => JObj (schedule_to_document s)) (schedules p)));
            ("replaces_digest", opt_str (replaces_digest p)); ("replan_reason", opt_str (replan_reason p));
            ("replan_evidence_refs", strs (replan_evidence_refs p))]).
Definition plan_digest (p : OrchestrationPlan) : result string :=
  let? d := plan_to_document p in Ok (canonical_digest d).

(** [max(item.depth for item in work_items)] of a non-empty list *)
Definition max_list (l : list Z) : result Z :=
  match l with [] => raise ValueError "max() arg is an empty sequence" | x :: xs => Ok (fold_left Z.max xs x) end.
Definition sum_list (l : list Z) : Z := fold_left Z.add l 0.
Definition nth_total (n : nat) (t : totals) : Z := nth n t 0.

(** [OrchestrationPlan.complexity] *)
Definition complexity (p : OrchestrationPlan) : result PlanComplexity :=
  let t := _schedule_budget_totals (schedules p) in
  let items := work_items (plan_graph p) in
  let? deepest := max_list (map depth items) in
  Ok {| pc_work_items := Z.of_nat (length items);
        dependency_edges := sum_list (map (fun w => Z.of_nat (length (wi_dependencies w))) items);
        pc_max_depth := deepest; pc_max_attempts := sum_list (map max_attempts items);
        wall_seconds := nth_total 0 t; model_calls := nth_total 1 t; input_tokens := nth_total 2 t;
        output_tokens := nth_total 3 t; cost_microunits := nth_total 4 t; tool_calls := nth_total 5 t |}.

(** ** The orchestrator planner *)

(** [OrchestratorPlanner.plan] *)
Definition plan (c : MissionCharter) (items : list WorkItem) (given : list WorkSchedule) : result OrchestrationPlan :=
  let? g := build_graph c items None in
  plan_of g given JNull JNull [].

(** [OrchestratorPlanner.replan] *)
Definition replan (previous : OrchestrationPlan) (items : list WorkItem) (given : list WorkSchedule) (reason : json)
    (evidence : list json) : result OrchestrationPlan :=
  let? candidate := plan (charter (plan_graph previous)) items given in
  let? d := graph_digest (plan_graph candidate) in
  let? d' := graph_digest (plan_graph previous) in
  require (negb (String.eqb d d' && bool_decide (schedules candidate = schedules previous))) ValueError
    "replan must change the planned graph or schedule" ;?
  let? replaced := plan_digest previous in
  plan_of (plan_graph candidate) (schedules candidate) (JStr replaced) reason evidence.

(** [OrchestratorPlanner.simplify] *)
Definition simplify (previous : OrchestrationPlan) (items : list WorkItem) (given : list WorkSchedule) (reason : json)
    (evidence : list json) : result OrchestrationPlan :=
  let? candidate := replan previous items given reason evidence in
  let? now := complexity candidate in
  let? before := complexity previous in
  require (strictly_reduces now before) ValueError "simplification must reduce at least one bound and increase none" ;?
  Ok candidate.

(** The key of [min] and its order. *)
Definition simplicity_key (p : OrchestrationPlan) : result (list Z * string) :=
  let? c := complexity p in
  let? d := plan_digest p in
  Ok (as_tuple c, d).
Definition key_ltb (a b : list Z * string) : bool :=
  if bool_decide (a.1 = b.1) then String.ltb a.2 b.2 else tuple_ltb a.1 b.1.
(** [min(..., key=...)] keeps the first of the least. *)
Definition min_by_key {A} (first : A * (list Z * string)) (rest : list (A * (list Z * string))) : A * (list Z * string) :=
  fold_left (fun best x => if key_ltb x.2 best.2 then x else best) rest first.

(** [OrchestratorPlanner.select_simplest] *)
Definition select_simplest (candidates : list OrchestrationPlan) : result OrchestrationPlan :=
  match candidates with
  | [] => raise ValueError "simplicity selection needs at least one plan"
  | p :: ps =>
      let d := charter_digest (charter (plan_graph p)) in
      require (forallb (fun q => String.eqb (charter_digest (charter (plan_graph q))) d) ps) ValueError
        "simplicity candidates must use the same charter" ;?
      let? k := simplicity_key p in
      let? ks := map_result (fun q => let? k := simplicity_key q in Ok (q, k)) ps in
      Ok (min_by_key (p, k) ks).1
  end.

(** ** The fixture planner *)

Record FixturePlan := { fixture_graph : ObjectiveGraph; fixture_kind : string }.

Definition _FIXTURE_KINDS : list string := ["bugfix"; "feature"; "refactor"; "docs"; "integration"].

(** [digest[-12:]] *)
Definition last_chars (n : nat) (s : string) : string := drop_bytes (String.length s - n) s.

(** [DeterministicFixturePlanner.plan] *)
Definition fixture_item (c : MissionCharter) (kind wid : string) (parent : option string) (n : Z) (suffix role tier : string)
    (deps inputs outputs accepts writes : list string) : WorkItem :=
  {| wi_work_id := wid; wi_mission_id := charter_mission_id c; parent_work_id := parent; depth := n;
     title := (kind +:+ " " +:+ suffix)%stdpp; wi_objective := charter_objective c; wi_role := role; wi_risk_tier := tier;
     wi_dependencies := deps; required_inputs := inputs; expected_outputs := outputs; wi_acceptance_specs := accepts;
     write_scope := writes; requested_actions := []; context_request := [("fixture_kind", JStr kind)]; max_attempts := 1;
     wi_status := W_PROPOSED; wi_authority_envelope_digest := _EMPTY_DIGEST;
     wi_idempotency_key := canonical_digest (JObj [("work_id", JStr wid)]) |}.
Definition fixture_plan (c : MissionCharter) (kind : string) : result FixturePlan :=
  require (mem kind _FIXTURE_KINDS) ValueError "unsupported fixture plan kind" ;?
  let seed := last_chars 12 (canonical_digest
    (JObj [("mission_id", JStr (charter_mission_id c)); ("objective", JStr (charter_objective c));
           ("acceptance_specs", strs (charter_acceptance_specs c)); ("kind", JStr kind)])) in
  let root_id := ("WORK-" +:+ kind +:+ "-aggregate-" +:+ seed)%stdpp in
  let leaf_id := ("WORK-" +:+ kind +:+ "-implementation-" +:+ seed)%stdpp in
  let? leaf := check_work_item
    (fixture_item c kind leaf_id (Some root_id) 1 "implementation" "builder" "R1" [] []
       ["fixture:" +:+ kind]%stdpp (charter_acceptance_specs c) ["fixtures/" +:+ kind +:+ ".txt"]%stdpp) in
  let? aggregate := check_work_item
    (fixture_item c kind root_id None 0 "aggregate" "orchestrator" "R0" [leaf_id] ["fixture:" +:+ kind]%stdpp [] [] []) in
  let? g := build_graph c [aggregate; leaf] None in
  Ok {| fixture_graph := g; fixture_kind := kind |}.

(** [FixturePlan.digest] *)
Definition fixture_digest (p : FixturePlan) : result string :=
  let? gd := graph_digest (fixture_graph p) in
  Ok (canonical_digest (JObj [("schema_version", JInt _PLAN_SCHEMA_VERSION); ("planner_kind", JStr _FIXTURE_PLANNER_KIND);
        ("kind", JStr (fixture_kind p)); ("charter_digest", JStr (charter_digest (charter (fixture_graph p))));
        ("graph_digest", JStr gd)])).

(** ** Budgets of a plan *)

(** The consumptive resources, by the field that holds them. *)
Definition consumables : list (Budget -> Z) :=
  [max_wall_seconds; max_model_calls; max_input_tokens; max_output_tokens; max_cost_microunits; max_tool_calls].

Lemma sum_list_from l n : fold_left Z.add l n = n + sum_list l.
Proof.
  unfold sum_list. revert n. induction l as [|x l IH]; intros n; cbn; [lia|]. rewrite IH, (IH (0 + x)). lia.
Qed.
Lemma sum_list_cons x l : sum_list (x :: l) = x + sum_list l.
Proof. unfold sum_list at 1. cbn [fold_left]. rewrite sum_list_from. lia. Qed.
Lemma sum_list_app l l' : sum_list (l ++ l') = sum_list l + sum_list l'.
Proof. induction l as [|x l IH]; [done|]. cbn [app]. rewrite !sum_list_cons, IH. lia. Qed.
Lemma sum_list_perm l l' : l ≡ₚ l' -> sum_list l = sum_list l'.
Proof. induction 1; rewrite ?sum_list_cons; lia. Qed.
#[global] Instance sum_list_proper : Proper ((≡ₚ) ==> eq) sum_list.
Proof. intros l l'. apply sum_list_perm. Qed.
Lemma sum_list_nonneg l : Forall (fun x => 0 <= x) l -> 0 <= sum_list l.
Proof. induction 1; rewrite ?sum_list_cons; [done|]. cbn. lia. Qed.

(** What all the schedules together reserve of one resource. *)
Definition reserved (f : Budget -> Z) (l : list WorkSchedule) : Z := sum_list (map (fun s => f (sc_budget s)) l).

Lemma totals_spec l : _schedule_budget_totals l = map (fun f => reserved f l) consumables.
Proof.
  unfold _schedule_budget_totals. cut (forall (start : (Budget -> Z) -> Z),
    fold_left (fun t s => add_totals t (consumptive (sc_budget s))) l (map start consumables)
    = map (fun f => start f + reserved f l) consumables).
  { intros H. exact (H (fun _ => 0)). }
  induction l as [|s l IH]; intros start; cbn [fold_left].
  - apply map_ext. intros f. unfold reserved. cbn. lia.
  - change (add_totals (map start consumables) (consumptive (sc_budget s)))
      with (map (fun f => start f + f (sc_budget s)) consumables). rewrite IH.
    apply map_ext. intros f. unfold reserved. cbn [map]. rewrite sum_list_cons. lia.
Qed.

Lemma within_spec (used : (Budget -> Z) -> Z) limit label :
  _assert_budget_within (map used consumables) limit label = Ok tt <-> forall f, f ∈ consumables -> used f <= f limit.
Proof.
  unfold _assert_budget_within. rewrite each_ok, <- !Forall_forall. cbn.
  rewrite !Forall_cons, !Forall_nil. cbn. rewrite !require_ok, !Z.leb_le. unfold consumables. by rewrite !Forall_cons, Forall_nil.
Qed.

(** ** What a plan is *)

Record plan_ok (p : OrchestrationPlan) : Prop := {
  po_one_each : map sc_work_id (schedules p) ≡ₚ map wi_work_id (work_items (plan_graph p));
  po_item : forall w s, w ∈ work_items (plan_graph p) -> s ∈ schedules p -> sc_work_id s = wi_work_id w ->
    wi_status w = W_PROPOSED /\ risk_lane s = wi_risk_tier w /\ wi_role w ∉ consultation_roles s
    /\ sc_human_gates s ⊆ charter_human_gates (charter (plan_graph p))
    /\ budget_le (sc_budget s) (charter_budget (charter (plan_graph p))) = true;
  po_budget : forall f, f ∈ consumables -> reserved f (schedules p) <= f (charter_budget (charter (plan_graph p)));
  po_sorted : StronglySorted (key_le sc_work_id) (schedules p);
  po_replan : is_Some (replaces_digest p) <-> is_Some (replan_reason p);
  po_evidence : replaces_digest p = None <-> replan_evidence_refs p = [];
  po_checked : check_replan (opt_str (replaces_digest p)) (opt_str (replan_reason p)) (map JStr (replan_evidence_refs p))
    = Ok (replaces_digest p, replan_reason p, replan_evidence_refs p) }.

Lemma trimmed_unique_ok values label n l : _require_trimmed_unique values label n = Ok l ->
  values = map JStr l /\ (n <= length l)%nat /\ NoDup l /\ forallb trimmed l = true.
Proof.
  unfold _require_trimmed_unique. intros H. take_guard H H1. take_guard H H2. take_guard H H3. injection H as <-.
  apply Nat.leb_le in H1. unfold distinct in H3. bool_hyps.
  assert (Hv : values = map JStr (omap as_str values) /\ forallb trimmed (omap as_str values) = true).
  { clear H1 H3. induction values as [|v l IH]; [done|]. cbn in H2. apply andb_true_iff in H2 as [Hv Hl].
    destruct v; try discriminate Hv. destruct (IH Hl) as [E Ht]. cbn. rewrite E at 1. split; [done|]. cbn in Hv.
    by rewrite Hv. }
  destruct Hv as [E Ht]. split; [done|]. split; [|done]. rewrite E, length_map in H1. done.
Qed.

Lemma check_replan_ok replaced reason evidence d r refs :
  check_replan replaced reason evidence = Ok (d, r, refs) ->
  replaced = opt_str d /\ reason = opt_str r /\ evidence = map JStr refs
  /\ (is_Some d <-> is_Some r) /\ (d = None <-> refs = []).
Proof.
  unfold check_replan. intros H. take_guard H H1. destruct (is_none replaced) eqn:Er.
  - take_guard H H2. injection H as <- <- <-. destruct replaced; try discriminate Er. destruct reason; try discriminate H1.
    apply Nat.eqb_eq, nil_length_inv in H2 as ->. done.
  - take_guard H H2. take_guard H H3. take_ok H l El. injection H as <- <- <-.
    apply trimmed_unique_ok in El as (-> & Hl & _). destruct replaced; try discriminate H2.
    destruct reason; try discriminate H3. cbn. split; [done|]. split; [done|]. split; [done|]. split; [by split|].
    split; [done|]. intros ->. cbn in Hl. lia.
Qed.

Lemma plan_of_ok g given replaced reason evidence p :
  NoDup (map wi_work_id (work_items g)) -> plan_of g given replaced reason evidence = Ok p ->
  plan_graph p = g /\ schedules p = sorted_by sc_work_id given /\ replaced = opt_str (replaces_digest p)
  /\ reason = opt_str (replan_reason p) /\ evidence = map JStr (replan_evidence_refs p) /\ plan_ok p.
Proof.
  intros Hn H. unfold plan_of in H. take_guard H H1. take_ok H u H2. take_ok H u' H3. take_ok H x H4.
  destruct x as [[d r] refs], u, u'. injection H as <-. cbn [plan_graph schedules replaces_digest replan_reason replan_evidence_refs].
  bool_hyps. set (sorted := sorted_by sc_work_id given) in *.
  match goal with H : Nat.eqb _ _ = true |- _ => apply Nat.eqb_eq, index_by_length in H; rename H into Hs end.
  assert (Hsub1 : map sc_work_id sorted ⊆ map wi_work_id (work_items g)).
  { apply subset_spec in H1. intros k Hk. apply H1, index_by_elem, Hk. }
  assert (Hsub2 : map wi_work_id (work_items g) ⊆ map sc_work_id sorted).
  { apply subset_spec in H0. intros k Hk. apply (index_by_elem sc_work_id), H0, Hk. }
  destruct (check_replan_ok _ _ _ _ _ _ H4) as (E1 & E2 & E3 & E4 & E5).
  split; [done|]. split; [done|]. split; [done|]. split; [done|]. split; [done|]. split; cbn.
  - apply NoDup_Permutation; [done|done|]. intros k. split; auto.
  - intros w s Hw Hsc Hid. rewrite each_ok in H2. specialize (H2 w Hw). unfold check_scheduled in H2.
    take_guard H2 G1. rewrite (proj2 (index_by_some sc_work_id sorted (wi_work_id w) s Hs) (conj Hsc Hid)) in H2.
    take_guard H2 G2. take_guard H2 G3. take_guard H2 G4. apply require_ok in H2. apply subset_spec in G4. bool_hyps.
    split; [done|]. split; [done|]. split; [|done]. intros Hin. apply mem_spec in Hin. congruence.
  - rewrite totals_spec, (within_spec (fun f => reserved f sorted)) in H3. exact H3.
  - apply sorted_by_sorted.
  - done.
  - done.
  - by rewrite <- E1, <- E2, <- E3.
Qed.

(** Sorting depends on the records only, not on the order they come in. *)
Lemma sorted_by_perm_eq {A} (key : A -> string) l l' : NoDup (map key l) -> l ≡ₚ l' -> sorted_by key l = sorted_by key l'.
Proof.
  intros Hn Hp. assert (Hpp : sorted_by key l ≡ₚ sorted_by key l') by (by rewrite !sorted_by_perm).
  apply (StronglySorted_unique_strong (key_le key)); [|apply sorted_by_sorted..|done].
  intros x y Hx Hy H1 H2. rewrite <- Hpp in Hy. apply elem_of_sorted_by in Hx, Hy. apply (same_key key l); [done..|].
  by apply (anti_symm String.le).
Qed.

(** Conversely a plan that meets its conditions is accepted, from schedules in
    any order. *)
Lemma plan_of_complete p given : NoDup (map wi_work_id (work_items (plan_graph p))) -> plan_ok p -> given ≡ₚ schedules p ->
  plan_of (plan_graph p) given (opt_str (replaces_digest p)) (opt_str (replan_reason p)) (map JStr (replan_evidence_refs p)) = Ok p.
Proof.
  intros Hn [H1 H2 H3 H4 _ _ H5] Hg. assert (Hns : NoDup (map sc_work_id (schedules p))) by (by rewrite H1).
  unfold plan_of. assert (Es : sorted_by sc_work_id given = schedules p).
  { rewrite (sorted_by_perm_eq sc_work_id given (schedules p)); [by apply sorted_by_id|by rewrite Hg|done]. }
  rewrite Es. assert (Hkeys : forall k, k ∈ (index_by sc_work_id (schedules p)).*1 <-> k ∈ map wi_work_id (work_items (plan_graph p))).
  { intros k. by rewrite index_by_elem, H1. }
  rewrite (proj2 (Nat.eqb_eq _ _) (proj2 (index_by_length sc_work_id (schedules p)) Hns)).
  rewrite (proj2 (subset_spec _ _)) by (intros k; apply Hkeys). rewrite (proj2 (subset_spec _ _)) by (intros k; apply Hkeys).
  cbn [andb require rbind].
  assert (He : each (check_scheduled (charter (plan_graph p)) (index_by sc_work_id (schedules p))) (work_items (plan_graph p)) = Ok tt).
  { apply each_ok. intros w Hw. assert (Hid : wi_work_id w ∈ map sc_work_id (schedules p))
      by (rewrite H1; by apply (list_elem_of_fmap_2 wi_work_id)).
    apply list_elem_of_fmap in Hid as (s & Hid & Hs). destruct (H2 w s Hw Hs (eq_sym Hid)) as (G1 & G2 & G3 & G4 & G5).
    unfold check_scheduled. rewrite bool_decide_eq_true_2 by done.
    rewrite (proj2 (index_by_some sc_work_id _ (wi_work_id w) s Hns) (conj Hs (eq_sym Hid))), G2, String.eqb_refl.
    rewrite <- mem_spec, not_true_iff_false in G3. rewrite G3, (proj2 (subset_spec _ _) G4), G5. done. }
  rewrite He. cbn [rbind]. rewrite totals_spec, (proj2 (within_spec (fun f => reserved f (schedules p)) _ _) H3). cbn [rbind].
  rewrite H5. cbn [rbind]. by destruct p.
Qed.

(** ** Building plans *)

(** What the planner is given has been constructed: items and budgets passed
    their own checks. *)
Definition constructed (items : list WorkItem) (given : list WorkSchedule) : Prop :=
  (forall w, w ∈ items -> check_work_item w = Ok w) /\ (forall s, s ∈ given -> check_budget (sc_budget s) = Ok tt).

(** The plans the planner can build, one call after the other. *)
Inductive built : OrchestrationPlan -> Prop :=
| B_plan c items given p : constructed items given -> plan c items given = Ok p -> built p
| B_replan previous items given reason evidence p :
    built previous -> constructed items given -> replan previous items given reason evidence = Ok p -> built p
| B_simplify previous items given reason evidence p :
    built previous -> constructed items given -> simplify previous items given reason evidence = Ok p -> built p.

Lemma plan_call c items given p : plan c items given = Ok p ->
  build_graph c items None = Ok (plan_graph p) /\ schedules p = sorted_by sc_work_id given
  /\ replaces_digest p = None /\ plan_ok p.
Proof.
  unfold plan. intros H. take_ok H g Eg. assert (Hg := Eg). apply build_graph_iff in Hg as (lim & _ & -> & Hok).
  apply plan_of_ok in H as (Hpg & Hs & Hr & _ & _ & Hp); [|apply Hok]. rewrite Hpg. split; [done|]. split; [done|].
  split; [by destruct (replaces_digest p)|done].
Qed.

Lemma replan_call previous items given reason evidence p : replan previous items given reason evidence = Ok p ->
  exists d, plan_digest previous = Ok d /\ replaces_digest p = Some d
  /\ build_graph (charter (plan_graph previous)) items None = Ok (plan_graph p)
  /\ schedules p = sorted_by sc_work_id given /\ evidence = map JStr (replan_evidence_refs p) /\ reason = opt_str (replan_reason p)
  /\ plan_ok p
  /\ (graph_digest (plan_graph p) <> graph_digest (plan_graph previous) \/ schedules p <> schedules previous).
Proof.
  unfold replan. intros H. take_ok H cand Ec. take_ok H d1 E1. take_ok H d2 E2. take_guard H Hd. take_ok H d Ed.
  exists d. split; [done|]. apply plan_call in Ec as (Eg & Es & _ & Hc). assert (Hg := Eg).
  apply build_graph_iff in Hg as (lim & _ & Egr & Hok). rewrite Egr in Eg, E1, H.
  apply plan_of_ok in H as (Hpg & Hs & Hr & Hre & Hev & Hp); [|apply Hok]. rewrite Hpg.
  assert (Hss : schedules p = schedules cand) by (rewrite Hs; apply sorted_by_id, Hc).
  split; [destruct (replaces_digest p); cbn in Hr; congruence|]. split; [done|]. split; [congruence|].
  split; [done|]. split; [done|]. split; [done|]. rewrite E1, E2, Hss. apply negb_true_iff, andb_false_iff in Hd as [Hd|Hd].
  - left. apply String.eqb_neq in Hd. congruence.
  - right. by apply bool_decide_eq_false in Hd.
Qed.

Lemma simplify_call previous items given reason evidence p : simplify previous items given reason evidence = Ok p ->
  replan previous items given reason evidence = Ok p
  /\ exists now before, complexity p = Ok now /\ complexity previous = Ok before /\ strictly_reduces now before = true.
Proof.
  unfold simplify. intros H. take_ok H cand Ec. take_ok H now En. take_ok H before Eb. take_guard H Hr. injection H as <-.
  split; [done|]. eauto.
Qed.

(** A built plan: its graph was accepted, and every bound of it is a natural
    number. *)
Record sane (p : OrchestrationPlan) : Prop := {
  sane_graph : exists lim, graph_limits (charter (plan_graph p)) None = Ok lim
    /\ plan_graph p = graph_of (charter (plan_graph p)) lim (work_items (plan_graph p))
    /\ graph_ok (charter (plan_graph p)) lim (work_items (plan_graph p));
  sane_constructed : constructed (work_items (plan_graph p)) (schedules p) }.

Lemma accepted_sane c items given g : build_graph c items None = Ok g -> constructed items given ->
  forall p, plan_graph p = g -> schedules p = sorted_by sc_work_id given -> charter g = c /\ sane p.
Proof.
  intros Hg [H1 H2] p Ep Es. apply build_graph_iff in Hg as (lim & Hl & -> & Hok). split; [done|]. split.
  - exists lim. rewrite Ep. done.
  - split; [by rewrite Ep|]. intros s. rewrite Es, elem_of_sorted_by. apply H2.
Qed.

Lemma built_ok p : built p -> plan_ok p /\ sane p.
Proof.
  induction 1 as [c items given p Hc H|prev items given reason evidence p _ _ Hc H|prev items given reason evidence p _ _ Hc H].
  - apply plan_call in H as (Hg & Hs & _ & Hp). split; [done|]. by eapply accepted_sane.
  - apply replan_call in H as (d & _ & _ & Hg & Hs & _ & _ & Hp & _). split; [done|]. by eapply accepted_sane.
  - apply simplify_call in H as [H _]. apply replan_call in H as (d & _ & _ & Hg & Hs & _ & _ & Hp & _). split; [done|].
    by eapply accepted_sane.
Qed.

(** A plan never exceeds its charter, however many times it was replanned or
    simplified: for every consumptive resource (wall time, model calls, input
    and output tokens, cost, tool calls) the schedules together reserve no more
    than the charter's budget, no schedule exceeds the charter in any of its
    eight bounds, the number of items and their depths are within the
    charter's, and every work item has exactly one schedule, in its own risk
    lane and with chartered human gates only. *)
Theorem plans_stay_within_charter p : built p ->
  let c := charter (plan_graph p) in
  (forall f, f ∈ consumables -> reserved f (schedules p) <= f (charter_budget c))
  /\ Z.of_nat (length (work_items (plan_graph p))) <= max_work_items (charter_budget c)
  /\ (forall w, w ∈ work_items (plan_graph p) -> 0 <= depth w <= max_depth (charter_budget c))
  /\ map sc_work_id (schedules p) ≡ₚ map wi_work_id (work_items (plan_graph p))
  /\ (forall w s, w ∈ work_items (plan_graph p) -> s ∈ schedules p -> sc_work_id s = wi_work_id w ->
       budget_le (sc_budget s) (charter_budget c) = true /\ risk_lane s = wi_risk_tier w
       /\ sc_human_gates s ⊆ charter_human_gates c).
Proof.
  intros Hb c. apply built_ok in Hb as [Hp [(lim & Hl & _ & Hok) [Hi _]]]. unfold graph_limits, check_limits in Hl.
  take_guard Hl Hpos. injection Hl as <-. destruct Hok as [_ _ Hcount _ Hdep _ _ _ _ _ _]. cbn in Hcount, Hdep.
  split; [apply Hp|]. split; [done|]. split; [|split; [apply Hp|]].
  - intros w Hw. split; [|by apply Hdep]. specialize (Hi w Hw). unfold check_work_item in Hi.
    do 3 apply rbind_ok in Hi as (? & _ & Hi). take_ok Hi u Hd. apply require_ok in Hd. by apply Z.leb_le in Hd.
  - intros w s Hw Hs Hid. destruct (po_item p Hp w s Hw Hs Hid) as (_ & H1 & _ & H2 & H3). done.
Qed.

(** ** Simplification *)

(** [n] simplifications lead from [p] to [q]. *)
Inductive simplified (p : OrchestrationPlan) : nat -> OrchestrationPlan -> Prop :=
| S_none : simplified p 0 p
| S_more n q items given reason evidence r :
    simplified p n q -> constructed items given -> simplify q items given reason evidence = Ok r -> simplified p (S n) r.

Definition pointwise_le (a b : list Z) : Prop := Forall2 Z.le a b.

Lemma Forall2_map_same {A B} (R : B -> B -> Prop) (f g : A -> B) l :
  Forall2 R (map f l) (map g l) -> forall x, x ∈ l -> R (f x) (g x).
Proof.
  induction l as [|y l IH]; cbn; intros H x Hx; [by apply elem_of_nil in Hx|]. inversion H; subst.
  apply elem_of_cons in Hx as [->|Hx]; auto.
Qed.

Lemma pointwise_sum a b : pointwise_le a b -> sum_list a <= sum_list b /\ (a <> b -> sum_list a < sum_list b).
Proof.
  induction 1 as [|x y a b Hxy _ [IH1 IH2]]; rewrite ?sum_list_cons; [done|]. split; [lia|]. intros Hne.
  destruct (decide (x = y)) as [->|]; [|lia]. assert (a <> b) by congruence. specialize (IH2 H). lia.
Qed.

Lemma forallb_zip_le a b : length a = length b ->
  forallb (fun vo => vo.1 <=? vo.2) (zip a b) = true <-> pointwise_le a b.
Proof.
  unfold pointwise_le. revert b. induction a as [|x a IH]; intros [|y b] Hl; try done; cbn.
  rewrite andb_true_iff, Z.leb_le, IH by (by injection Hl). split; [intros [? ?]; by constructor|]. by inversion 1.
Qed.

Lemma strictly_reduces_spec now before : strictly_reduces now before = true <->
  as_tuple now <> as_tuple before /\ pointwise_le (as_tuple now) (as_tuple before).
Proof.
  unfold strictly_reduces. rewrite andb_true_iff, negb_true_iff, bool_decide_eq_false, forallb_zip_le by done. done.
Qed.

Lemma check_budget_nonneg b f : check_budget b = Ok tt -> f ∈ consumables -> 0 <= f b.
Proof.
  unfold check_budget. rewrite each_ok, <- Forall_forall. intros H. cbn in H. rewrite !Forall_cons in H. cbn in H.
  unfold _nonnegative in H. rewrite !require_ok, !Z.leb_le in H. revert f. apply Forall_forall. unfold consumables.
  rewrite !Forall_cons, Forall_nil. tauto.
Qed.

Lemma reserved_nonneg f l : f ∈ consumables -> (forall s, s ∈ l -> check_budget (sc_budget s) = Ok tt) -> 0 <= reserved f l.
Proof.
  intros Hf H. apply sum_list_nonneg, Forall_forall. intros x Hx. apply list_elem_of_fmap in Hx as (s & -> & Hs).
  apply check_budget_nonneg; auto.
Qed.

Lemma complexity_spec p c : complexity p = Ok c -> as_tuple c =
  Z.of_nat (length (work_items (plan_graph p)))
  :: sum_list (map (fun w => Z.of_nat (length (wi_dependencies w))) (work_items (plan_graph p)))
  :: pc_max_depth c :: sum_list (map max_attempts (work_items (plan_graph p)))
  :: map (fun f => reserved f (schedules p)) consumables.
Proof.
  unfold complexity. intros H. rewrite totals_spec in H. take_ok H m Em. injection H as <-. done.
Qed.

Lemma max_list_ge x l m : max_list l = Ok m -> x ∈ l -> x <= m.
Proof.
  destruct l as [|y l]; [done|]. cbn. intros [= <-] Hx. cut (forall y, y <= fold_left Z.max l y /\ forall x, x ∈ l -> x <= fold_left Z.max l y).
  { intros G. destruct (G y) as [G1 G2]. apply elem_of_cons in Hx as [->|Hx]; auto. }
  clear Hx. induction l as [|z l IH]; intros y'; cbn; [split; [lia|intros ? Hn; by apply elem_of_nil in Hn]|].
  destruct (IH (Z.max y' z)) as [I1 I2]. split; [lia|]. intros x' Hx'. apply elem_of_cons in Hx' as [->|Hx']; [lia|auto].
Qed.

Lemma checked_item_bounds w : check_work_item w = Ok w -> 0 <= depth w /\ 1 <= max_attempts w.
Proof.
  unfold check_work_item. intros H. do 3 apply rbind_ok in H as (? & _ & H). take_ok H u Hd. apply require_ok, Z.leb_le in Hd.
  do 5 apply rbind_ok in H as (? & _ & H). take_guard H Ha. apply Z.leb_le in Ha. done.
Qed.

Lemma complexity_nonneg p c : sane p -> complexity p = Ok c -> Forall (fun x => 0 <= x) (as_tuple c).
Proof.
  intros [_ [Hi Hs]] H. rewrite (complexity_spec p c H).
  assert (Hm : 0 <= pc_max_depth c).
  { unfold complexity in H. take_ok H m Em. injection H as <-. cbn. destruct (work_items (plan_graph p)) as [|w ws] eqn:E; [done|].
    etrans; [|eapply max_list_ge; [exact Em|by left]]. apply checked_item_bounds, Hi. by left. }
  rewrite !Forall_cons. split; [lia|]. split; [|split; [done|split]].
  - apply sum_list_nonneg, Forall_forall. intros x Hx. apply list_elem_of_fmap in Hx as (w & -> & _). lia.
  - apply sum_list_nonneg, Forall_forall. intros x Hx. apply list_elem_of_fmap in Hx as (w & -> & Hw).
    apply Hi, checked_item_bounds in Hw. lia.
  - apply Forall_forall. intros x Hx. apply list_elem_of_fmap in Hx as (f & -> & Hf). by apply reserved_nonneg.
Qed.

Lemma simplified_bound p n q : built p -> simplified p n q ->
  built q /\ charter (plan_graph q) = charter (plan_graph p)
  /\ forall c, complexity p = Ok c -> exists d, complexity q = Ok d /\ pointwise_le (as_tuple d) (as_tuple c)
       /\ sum_list (as_tuple d) + Z.of_nat n <= sum_list (as_tuple c).
Proof.
  intros Hb. induction 1 as [|n q items given reason evidence r Hs (IHb & IHc & IHn) Hc H].
  - split; [done|]. split; [done|]. intros c Hc. exists c. split; [done|]. split; [|lia]. unfold pointwise_le. reflexivity.
  - split; [by eapply B_simplify|]. apply simplify_call in H as (Hr & now & before & En & Eb & Hred).
    apply replan_call in Hr as (dg & _ & _ & Hg & _). split.
    + apply build_graph_iff in Hg as (lim & _ & -> & _). cbn. congruence.
    + intros c Ec. destruct (IHn c Ec) as (d & Ed & Hle & Hsum). rewrite Eb in Ed. injection Ed as <-. exists now.
      apply strictly_reduces_spec in Hred as [Hne Hpw]. split; [done|]. split.
      * unfold pointwise_le in *. etrans; [exact Hpw|exact Hle].
      * destruct (pointwise_sum _ _ Hpw) as [_ Hlt]. specialize (Hlt Hne). lia.
Qed.

(** C36: simplification terminates: from a built plan no more simplifications are
    possible than the sum of its complexity bounds, and along the way no
    resource reservation, item count, edge count, depth or attempt bound ever
    grows, and the charter stays the same. *)
Theorem simplification_terminates p n q c : built p -> simplified p n q -> complexity p = Ok c ->
  Z.of_nat n <= sum_list (as_tuple c)
  /\ charter (plan_graph q) = charter (plan_graph p)
  /\ (length (work_items (plan_graph q)) <= length (work_items (plan_graph p)))%nat
  /\ forall f, f ∈ consumables -> reserved f (schedules q) <= reserved f (schedules p).
Proof.
  intros Hb Hs Hc. destruct (simplified_bound p n q Hb Hs) as (Hq & Hch & Hn). destruct (Hn c Hc) as (d & Ed & Hle & Hsum).
  assert (Hnn := complexity_nonneg q d (proj2 (built_ok q Hq)) Ed). apply sum_list_nonneg in Hnn.
  split; [lia|]. split; [done|]. rewrite (complexity_spec q d Ed), (complexity_spec p c Hc) in Hle.
  unfold pointwise_le in Hle. apply Forall2_cons in Hle as [Hw Hle]. split; [lia|].
  do 3 apply Forall2_cons in Hle as [_ Hle]. by apply Forall2_map_same.
Qed.

(** ** The simplest plan *)

Lemma string_ltb_trans x y z : String.ltb x y = true -> String.ltb y z = true -> String.ltb x z = true.
Proof.
  assert (Hlt : forall a b, String.ltb a b = negb (String.leb b a)).
  { intros a b. unfold String.ltb, String.leb. rewrite (String.compare_antisym b a). by destruct (String.compare a b). }
  rewrite !Hlt, !negb_true_iff. intros H1 H2. apply not_true_iff_false. intros H3.
  assert (Hyx : String.le x y) by (destruct (String.leb_total x y) as [H|H]; [unfold String.le; by rewrite H|congruence]).
  assert (Hzx : String.le z x) by (unfold String.le; by rewrite H3). assert (Hzy : String.le z y) by (by etrans).
  unfold String.le in Hzy. by rewrite H2 in Hzy.
Qed.

Lemma tuple_ltb_irrefl a : tuple_ltb a a = false.
Proof. induction a as [|x a IH]; cbn; [done|]. by rewrite Z.eqb_refl. Qed.
Lemma tuple_ltb_trans a b c : tuple_ltb a b = true -> tuple_ltb b c = true -> tuple_ltb a c = true.
Proof.
  revert b c. induction a as [|x a IH]; intros [|y b] [|z c]; cbn; try done.
  destruct (Z.eqb_spec x y) as [->|Hxy]; destruct (Z.eqb_spec y z) as [->|Hyz]; intros H1 H2; bool_hyps.
  - by apply (IH b).
  - by apply Z.ltb_lt.
  - destruct (Z.eqb_spec x z); [lia|]. by apply Z.ltb_lt.
  - destruct (Z.eqb_spec x z); [lia|]. apply Z.ltb_lt. lia.
Qed.

Lemma key_ltb_trans a b c : key_ltb a b = true -> key_ltb b c = true -> key_ltb a c = true.
Proof.
  destruct a as [a s], b as [b t], c as [c u]. unfold key_ltb. cbn.
  intros H1 H2. repeat case_bool_decide; subst; try congruence.
  - by eapply string_ltb_trans.
  - assert (Hac := tuple_ltb_trans _ _ _ H1 H2). by rewrite tuple_ltb_irrefl in Hac.
  - by eapply tuple_ltb_trans.
Qed.

Lemma key_ltb_irrefl a : key_ltb a a = false.
Proof. unfold key_ltb. rewrite bool_decide_eq_true_2 by done. apply string_ltb_irrefl. Qed.

Lemma tuple_ltb_total a b : a = b \/ tuple_ltb a b = true \/ tuple_ltb b a = true.
Proof.
  revert b. induction a as [|x a IH]; intros [|y b]; cbn; auto.
  destruct (Z.eqb_spec x y) as [->|Hne]; [rewrite Z.eqb_refl; destruct (IH b) as [->|H]; auto|].
  destruct (Z.eqb_spec y x); [lia|]. right. rewrite !Z.ltb_lt. lia.
Qed.
Lemma key_ltb_total a b : a = b \/ key_ltb a b = true \/ key_ltb b a = true.
Proof.
  destruct a as [a s], b as [b t]. unfold key_ltb. cbn. destruct (decide (a = b)) as [->|Hne].
  - rewrite bool_decide_eq_true_2 by done. destruct (string_ltb_total s t) as [->|H]; auto.
  - rewrite !bool_decide_eq_false_2 by congruence. destruct (tuple_ltb_total a b); auto.
Qed.

Lemma min_by_key_spec {A} (first : A * (list Z * string)) rest :
  min_by_key first rest ∈ first :: rest
  /\ forall x, x ∈ first :: rest -> key_ltb x.2 (min_by_key first rest).2 = false.
Proof.
  unfold min_by_key. revert first. induction rest as [|y rest IH]; intros first; cbn [fold_left].
  - split; [by left|]. intros x Hx. apply list_elem_of_singleton in Hx as ->. apply key_ltb_irrefl.
  - destruct (key_ltb y.2 first.2) eqn:E.
    + destruct (IH y) as [H1 H2]. split; [set_solver|]. intros x Hx. apply elem_of_cons in Hx as [->|Hx]; [|by apply H2].
      destruct (key_ltb first.2 _) eqn:E2; [|done]. assert (Hy := key_ltb_trans _ _ _ E E2).
      rewrite H2 in Hy; [done|by left].
    + destruct (IH first) as [H1 H2]. split; [set_solver|]. intros x Hx.
      apply elem_of_cons in Hx as [->|Hx]; [apply H2; by left|]. apply elem_of_cons in Hx as [->|Hx]; [|apply H2; by right].
      set (m := fold_left _ rest first) in *. destruct (key_ltb y.2 m.2) eqn:E2; [|done].
      assert (Hf := H2 first ltac:(by left)).
      destruct (key_ltb_total m.2 first.2) as [Em|[Em|Em]]; [congruence| |congruence].
      assert (key_ltb y.2 first.2 = true) by (by eapply key_ltb_trans). congruence.
Qed.

(** A built plan has a digest and a complexity. *)
Lemma sane_digest p : sane p -> exists d, plan_digest p = Ok d.
Proof.
  intros [(lim & Hl & Hg & Hok) _]. unfold plan_digest, plan_to_document, graph_digest.
  assert (Hb : build_graph (charter (plan_graph p)) (work_items (plan_graph p)) None = Ok (plan_graph p)).
  { apply build_graph_iff. exists lim. done. }
  destruct (accepted_order _ _ _ _ Hb) as (l & E & _). rewrite E. by eexists.
Qed.

Lemma sane_complexity p : sane p -> exists c, complexity p = Ok c.
Proof.
  intros [(lim & _ & _ & Hok) _]. unfold complexity. assert (Hne := go_some _ _ _ Hok).
  destruct (work_items (plan_graph p)) as [|w ws]; [done|]. by eexists.
Qed.

Lemma keys_total ps : (forall p, p ∈ ps -> sane p) ->
  exists ks, map_result (fun q => let? k := simplicity_key q in Ok (q, k)) ps = Ok ks
    /\ map fst ks = ps /\ forall q k, (q, k) ∈ ks -> simplicity_key q = Ok k.
Proof.
  induction ps as [|p ps IH]; intros H; [exists []; split; [done|]; split; [done|]; intros q k Hq; by apply elem_of_nil in Hq|].
  destruct IH as (ks & E & Em & Hk); [intros q Hq; apply H; by right|].
  destruct (sane_complexity p) as [c Ec]; [apply H; by left|]. destruct (sane_digest p) as [d Ed]; [apply H; by left|].
  cbn [map_result]. unfold simplicity_key at 1. rewrite Ec, Ed. cbn [rbind]. rewrite E. cbn [rbind]. eexists. split; [reflexivity|].
  split; [cbn; by f_equal|]. intros q k Hq. apply elem_of_cons in Hq as [[= -> ->]|Hq]; [|auto].
  unfold simplicity_key. rewrite Ec, Ed. done.
Qed.

Lemma pointwise_not_less a b : pointwise_le a b -> a <> b -> tuple_ltb a b = true.
Proof.
  induction 1 as [|x y a b Hxy _ IH]; [done|]. intros Hne. cbn. destruct (Z.eqb_spec x y) as [->|Hd].
  - apply IH. congruence.
  - apply Z.ltb_lt. lia.
Qed.

(** Among built plans for one charter the planner returns one of them, the
    least in the order of complexity (item count first, then edges, depth,
    attempts and the reserved resources); in particular no other candidate is a
    strict simplification of it. *)
Theorem simplest_plan_selected ps d :
  ps <> [] -> (forall p, p ∈ ps -> built p /\ charter_digest (charter (plan_graph p)) = d) ->
  exists p, select_simplest ps = Ok p /\ p ∈ ps
    /\ forall q cp cq, q ∈ ps -> complexity p = Ok cp -> complexity q = Ok cq ->
         tuple_ltb (as_tuple cq) (as_tuple cp) = false /\ strictly_reduces cq cp = false.
Proof.
  intros Hne Hall. destruct ps as [|p0 ps]; [done|]. clear Hne. unfold select_simplest.
  assert (Hd : forallb (fun q => String.eqb (charter_digest (charter (plan_graph q))) (charter_digest (charter (plan_graph p0)))) ps = true).
  { apply forallb_forall. intros q Hq. apply String.eqb_eq. destruct (Hall p0) as [_ ->]; [by left|].
    apply Hall. right. by apply list_elem_of_In. }
  rewrite Hd. cbn [require rbind]. destruct (keys_total (p0 :: ps)) as (ks & E & Em & Hk).
  { intros p Hp. apply built_ok, Hall, Hp. }
  cbn [map_result] in E. take_ok E pk0 E0. take_ok E0 k0 Ek0. injection E0 as <-. take_ok E ks' Eks. injection E as <-.
  rewrite Ek0. cbn [rbind]. rewrite Eks. cbn [rbind]. destruct (min_by_key_spec (p0, k0) ks') as [Hin Hmin].
  set (m := min_by_key (p0, k0) ks') in *. exists m.1. split; [done|].
  split; [rewrite <- Em; by apply (list_elem_of_fmap_2 fst)|]. intros q cp cq Hq Ecp Ecq.
  assert (Hkm : simplicity_key m.1 = Ok m.2) by (apply Hk; by destruct m).
  rewrite <- Em in Hq. apply list_elem_of_fmap in Hq as ([q' kq] & -> & Hq). assert (Hkq := Hk _ _ Hq). specialize (Hmin _ Hq).
  cbn [fst snd] in *. unfold simplicity_key in Hkm, Hkq. rewrite Ecp in Hkm. rewrite Ecq in Hkq. cbn [rbind] in *.
  take_ok Hkm dm Edm. take_ok Hkq dq Edq. injection Hkm as Hm. injection Hkq as <-. rewrite <- Hm in Hmin. unfold key_ltb in Hmin. cbn in Hmin.
  assert (Ht : tuple_ltb (as_tuple cq) (as_tuple cp) = false).
  { case_bool_decide as Heq; [rewrite Heq; apply tuple_ltb_irrefl|done]. }
  split; [done|]. apply not_true_iff_false. rewrite strictly_reduces_spec. intros [Hx Hpw].
  rewrite (pointwise_not_less _ _ Hpw Hx) in Ht. done.
Qed.

(** ** Stored schedules *)

Lemma trimmed_unique_same l label n l' : _require_trimmed_unique (map JStr l) label n = Ok l' -> l' = l.
Proof.
  intros H. apply trimmed_unique_ok in H as (E & _). clear -E. revert l' E.
  induction l as [|x l IH]; intros [|y l'] E; try discriminate E; [done|]. cbn in E. injection E as -> E. f_equal. by apply IH.
Qed.

(** A checked schedule is the one that was given. *)
Lemma check_schedule_same s s' : check_schedule s = Ok s' -> s' = s.
Proof.
  unfold check_schedule, schedule_of. intros H. take_guard H H1. take_ok H k H2. take_guard H H3. take_ok H st H4.
  take_ok H ro H5. take_guard H H6. take_ok H ga H7. injection H as <-.
  apply trimmed_unique_same in H4 as ->, H5 as ->, H7 as ->. by destruct s.
Qed.

Lemma budget_reads_back b : check_budget b = Ok tt -> forall d, d ≡ₚ zip budget_fields (map JInt (budget_values b)) ->
  _budget_from_document d = Ok b.
Proof.
  intros Hb d Hd. set (t := zip budget_fields (map JInt (budget_values b))) in *.
  assert (Hn : NoDup t.*1) by (apply (bool_decide_unpack (NoDup budget_fields)); vm_compute; exact I).
  assert (Hl : forall k, lookup_key k d = lookup_key k t).
  { intros k. apply lookup_key_perm; [by rewrite Hd|done]. }
  unfold _budget_from_document. assert (Hm : map_result (budget_member d) budget_fields = Ok (budget_values b)).
  { unfold budget_fields. cbn [map_result]. unfold budget_member. rewrite !Hl. reflexivity. }
  rewrite Hm. cbn [rbind]. destruct b. unfold budget_values, budget_from_values. cbn [max_wall_seconds max_model_calls
    max_input_tokens max_output_tokens max_cost_microunits max_tool_calls max_work_items max_depth]. rewrite Hb. done.
Qed.

(** A schedule read back from its stored document is the schedule. *)
Lemma schedule_reads_back s d : check_schedule s = Ok s -> check_budget (sc_budget s) = Ok tt ->
  norm (JObj (schedule_to_document s)) = JObj d -> schedule_from_document d = Ok s.
Proof.
  intros Hs Hb Hd. destruct (norm_obj_members (schedule_to_document s)) as (l & El & Hl). rewrite Hd in El. injection El as <-.
  set (t := map (fun kv => (kv.1, norm kv.2)) (schedule_to_document s)) in *.
  assert (Hn : NoDup t.*1).
  { apply (bool_decide_unpack (NoDup ["work_id"; "budget"; "risk_lane"; "stop_conditions"; "consultation_roles"; "human_gates"])).
    vm_compute. exact I. }
  assert (Hk : forall k, lookup_key k d = lookup_key k t) by (intros k; apply lookup_key_perm; [by rewrite Hl|done]).
  unfold schedule_from_document, item. rewrite !Hk. clear Hk Hd. subst t.
  destruct (norm_obj_members (zip budget_fields (map JInt (budget_values (sc_budget s))))) as (bl & Ebl & Hbl).
  assert (Hlk : lookup_key "budget" (map (fun kv => (kv.1, norm kv.2)) (schedule_to_document s)) = Some (JObj bl))
    by (rewrite <- Ebl; reflexivity).
  rewrite Hlk. cbn [rbind]. rewrite (budget_reads_back (sc_budget s) Hb bl) by exact Hbl.
  assert (Hstrs : forall k l, lookup_key k (schedule_to_document s) = Some (strs l) ->
    lookup_key k (map (fun kv => (kv.1, norm kv.2)) (schedule_to_document s)) = Some (strs l)).
  { intros k l' H. rewrite lookup_key_map, H. cbn. f_equal. apply norm_strs. }
  rewrite (Hstrs "stop_conditions" (stop_conditions s) eq_refl), (Hstrs "consultation_roles" (consultation_roles s) eq_refl),
    (Hstrs "human_gates" (sc_human_gates s) eq_refl).
  change (lookup_key "work_id" _) with (Some (JStr (sc_work_id s))).
  change (lookup_key "risk_lane" _) with (Some (JStr (risk_lane s))). cbn [rbind tuple_of strs]. unfold check_schedule in Hs. rewrite Hs. done.
Qed.

(** ** A sample plan and a simplification of it *)

Module SamplePlan.
Definition schedule (seconds : Z) (w : WorkItem) : WorkSchedule :=
  {| sc_work_id := wi_work_id w;
     sc_budget := {| max_wall_seconds := seconds; max_model_calls := 5; max_input_tokens := 1000; max_output_tokens := 1000;
                     max_cost_microunits := 200; max_tool_calls := 10; max_work_items := 1; max_depth := 1 |};
     risk_lane := wi_risk_tier w; stop_conditions := ["budget spent"]; consultation_roles := ["steward"; "optimizer"];
     sc_human_gates := ["release"] |}.
(** Two items: the one that comes first by identifier waits for the other. *)
Definition items_of (suffix : string) : list WorkItem :=
  let id (name : string) := ("WORK-" +:+ name +:+ suffix)%stdpp in
  [SampleWork.item (id "merge") None 0 "orchestrator" "R0" [id "write"] ["AC-2"] [];
   SampleWork.item (id "write") (Some (id "merge")) 1 "builder" "R1" [] ["AC-1"] ["src"]].
Definition items : list WorkItem := Eval vm_compute in items_of "".
Definition items2 : list WorkItem := Eval vm_compute in items_of "-2".
Definition given : list WorkSchedule := map (schedule 80) items.
Definition tighter : list WorkSchedule := map (schedule 60) items2.
Definition first : OrchestrationPlan :=
  {| plan_graph := graph_of SampleMission.charter (limits SampleMission.graph) items; schedules := sorted_by sc_work_id given; replaces_digest := None;
     replan_reason := None; replan_evidence_refs := [] |}.
Definition first_digest : string := Eval vm_compute in match plan_digest first with Ok d => d | Raise _ => "" end.
Definition second : OrchestrationPlan :=
  {| plan_graph := graph_of SampleMission.charter (limits SampleMission.graph) items2; schedules := sorted_by sc_work_id tighter;
     replaces_digest := Some first_digest; replan_reason := Some "measured"; replan_evidence_refs := ["receipt:1"] |}.
End SamplePlan.

Lemma sample_budgets seconds l : 0 <= seconds ->
  forall s, s ∈ map (SamplePlan.schedule seconds) l -> check_budget (sc_budget s) = Ok tt.
Proof.
  intros Hs s H. apply list_elem_of_fmap in H as (w & -> & _). unfold check_budget. apply each_ok. intros nv Hin. cbn in Hin.
  repeat (apply elem_of_cons in Hin as [->|Hin]; [apply require_ok; apply Z.leb_le; cbn; lia|]). by apply elem_of_nil in Hin.
Qed.

Lemma sample_constructed : constructed SamplePlan.items SamplePlan.given /\ constructed SamplePlan.items2 SamplePlan.tighter.
Proof.
  split; (split; [|by apply sample_budgets]); intros w Hw; unfold SamplePlan.items, SamplePlan.items2 in Hw;
    repeat (apply elem_of_cons in Hw as [->|Hw]; [vm_compute; reflexivity|]); by apply elem_of_nil in Hw.
Qed.

Lemma sample_first_built : built SamplePlan.first.
Proof.
  apply (B_plan SampleMission.charter SamplePlan.items SamplePlan.given); [apply sample_constructed|].
  vm_compute. reflexivity.
Qed.

Lemma sample_second : simplify SamplePlan.first SamplePlan.items2 SamplePlan.tighter (JStr "measured") [JStr "receipt:1"] = Ok SamplePlan.second.
Proof. vm_compute. reflexivity. Qed.

Lemma sample_second_built : built SamplePlan.second.
Proof.
  eapply B_simplify; [exact sample_first_built| |exact sample_second]. apply sample_constructed.
Qed.

Lemma plans_stay_within_charter_witness : reserved max_wall_seconds (schedules SamplePlan.second) <= 600.
Proof.
  destruct (plans_stay_within_charter SamplePlan.second sample_second_built) as [H _]. apply (H max_wall_seconds). by left.
Defined.

Lemma simplification_terminates_witness :
  reserved max_wall_seconds (schedules SamplePlan.second) <= reserved max_wall_seconds (schedules SamplePlan.first).
Proof.
  destruct (sane_complexity SamplePlan.first) as [c Hc]; [apply built_ok, sample_first_built|].
  destruct (simplification_terminates SamplePlan.first 1 SamplePlan.second c) as (_ & _ & _ & H);
    [exact sample_first_built| |exact Hc|apply H; by left].
  eapply S_more; [apply S_none| |exact sample_second]. apply sample_constructed.
Defined.

Lemma simplest_plan_selected_witness :
  exists p, select_simplest [SamplePlan.first; SamplePlan.second] = Ok p /\ p ∈ [SamplePlan.first; SamplePlan.second].
Proof.
  destruct (simplest_plan_selected [SamplePlan.first; SamplePlan.second] (charter_digest SampleMission.charter)) as (p & E & Hp & _);
    [discriminate| |exists p; split; [exact E|exact Hp]].
  intros p Hp. apply elem_of_cons in Hp as [->|Hp]; [split; [exact sample_first_built|vm_compute; reflexivity]|].
  apply list_elem_of_singleton in Hp as ->. split; [exact sample_second_built|vm_compute; reflexivity].
Defined.

End Plans.
