(* ===== verification/PlanStore.v ===== *)
(** * Durable plans

    The durable half of [brain_kernel/planner.py]: plans grouped from the work
    facts of the event store, the lineage of replans, [persist_plan], which
    appends one plan in one batch, and the functions that rebuild a plan from
    the stored events. *)

From S2P Require Import Prelude Sha256 Canonical PyLib Graphs Schema Contracts Projection KernelStore WorkItems Objectives Plans.

Module PlanStore.
Export KernelStore Plans.

(** A verified event record: the row and the event with its payload. *)
Definition record : Type := event_row * KernelEvent.

(** ** Groups *)

Record _DurablePlanGroup := {
  dg_mission_id : string;
  dg_plan_digest : string;
  planner_kind : string;
  metadata : contract;
  rows : list record }.

(** [_DurablePlanGroup.latest_sequence] of its non-empty rows *)
Definition latest_sequence (g : _DurablePlanGroup) : Z :=
  match rows g with [] => 0 | r :: rs => fold_left (fun n x => Z.max n (sequence x.1)) rs (sequence r.1) end.

(** [_DurablePlanGroup.work_ids] of the group's metadata *)
Definition manifest_ids (m : contract) : result (list string) :=
  match get "work_ids" m with
  | JList raw =>
      require (forallb (fun v => match v with JStr _ => true | _ => false end) raw) ValueError
        "durable plan work manifest is invalid" ;?
      let values := omap as_str raw in
      require (bool_decide (values = sorted_str values) && distinct values) ValueError
        "durable plan work manifest is not canonical" ;?
      Ok values
  | _ => raise ValueError "durable plan work manifest is invalid"
  end.
Definition work_ids (g : _DurablePlanGroup) : result (list string) := manifest_ids (metadata g).

(** A dictionary keyed by mission and plan digest. *)
Definition plan_key : Type := string * string.
Definition lookup_plan {A} (k : plan_key) (l : list (plan_key * A)) : option A :=
  option_map snd (List.find (fun kv => bool_decide (kv.1 = k)) l).
(** [grouped.setdefault(key, []).append(row)] *)
Fixpoint group_add (k : plan_key) (r : record) (l : list (plan_key * list record)) : list (plan_key * list record) :=
  match l with
  | [] => [(k, [r])]
  | (k', rs) :: l' => if bool_decide (k = k') then (k', rs ++ [r]) :: l' else (k', rs) :: group_add k r l'
  end.

(** The plan a record belongs to: a work fact with a plan digest and metadata. *)
Definition record_plan (r : record) : option (plan_key * contract) :=
  if String.eqb (row_event_type r.1) "work.created" then
    match get "plan_digest" (payload r.2), get "plan" (payload r.2) with
    | JStr d, JObj m => Some ((row_mission_id r.1, d), m)
    | _, _ => None
    end
  else None.
Definition group_step (acc : list (plan_key * list record)) (r : record) : list (plan_key * list record) :=
  match record_plan r with Some km => group_add km.1 r acc | None => acc end.
Definition group_records (events : list record) : list (plan_key * list record) := fold_left group_step events [].

(** The checks of one group. *)
Definition make_group (kr : plan_key * list record) : result _DurablePlanGroup :=
  let '((m, d), rs) := kr in
  match rs with
  | [] => raise ValueError "list index out of range"
  | r0 :: _ =>
      match get "plan" (payload r0.2) with
      | JObj meta =>
          require (forallb (fun r => py_eq (get "plan" (payload r.2)) (JObj meta)) rs) ValueError
            "durable plan metadata differs across work facts" ;?
          let kind := get "planner_kind" meta in
          let? known := in_names kind [_FIXTURE_PLANNER_KIND; _ORCHESTRATOR_PLANNER_KIND] in
          require known ValueError "durable plan kind is invalid" ;?
          let? expected := manifest_ids meta in
          let observed := map (fun r => row_work_id r.1) rs in
          require (forallb (fun o => match o with Some k => mem k expected | None => false end) observed
                   && forallb (fun k => bool_decide (Some k ∈ observed)) expected
                   && Nat.eqb (length observed) (length expected)) ValueError
            "durable plan is incomplete or duplicated" ;?
          require (py_eq (get "plan_digest" meta) (JStr d) && py_eq (get "mission_id" meta) (JStr m)) ValueError
            "durable plan identity is inconsistent" ;?
          Ok {| dg_mission_id := m; dg_plan_digest := d; planner_kind := default "" (as_str kind); metadata := meta; rows := rs |}
      | _ => raise ValueError "durable plan metadata differs across work facts"
      end
  end.

Definition groups_type : Type := list (plan_key * _DurablePlanGroup).
Definition _durable_plan_groups (events : list record) : result groups_type :=
  map_result (fun kr => let? g := make_group kr in Ok (kr.1, g)) (group_records events).

(** [_exact_plan_retry]: the sequence of every work fact, in manifest order. *)
Definition by_work (g : _DurablePlanGroup) : list (string * Z) :=
  dict_of_pairs (map (fun r => (default "" (row_work_id r.1), sequence r.1)) (rows g)).
Definition _exact_plan_retry (o : option _DurablePlanGroup) : result (option (list Z)) :=
  match o with
  | None => Ok None
  | Some g =>
      let? ids := work_ids g in
      let? seqs := map_result (fun i => match lookup_key i (by_work g) with Some n => Ok n | None => raise KeyError i end) ids in
      Ok (Some seqs)
  end.

(** [sorted(groups, key=latest_sequence)], stable *)
Fixpoint insert_group (g : _DurablePlanGroup) (l : list _DurablePlanGroup) : list _DurablePlanGroup :=
  match l with
  | [] => [g]
  | h :: t => if latest_sequence g <=? latest_sequence h then g :: h :: t else h :: insert_group g t
  end.
Definition _mission_plan_groups (groups : groups_type) (m : string) : list _DurablePlanGroup :=
  foldr insert_group [] (map snd (List.filter (fun kg => String.eqb kg.1.1 m) groups)).

(** ** Lineage *)

(** The loop of [_lineage_groups]: every turn adds a digest to [seen], so the
    number of groups bounds the turns; [None] is a loop that is still running.
    The lineage is collected oldest first. *)
Fixpoint lineage_loop (fuel : nat) (m : string) (groups : groups_type) (node : _DurablePlanGroup) (seen : list string)
    (lineage : list _DurablePlanGroup) : option (result (list _DurablePlanGroup)) :=
  if mem (dg_plan_digest node) seen then Some (raise ValueError "durable replan lineage contains a cycle")
  else
    match get "replaces_digest" (metadata node) with
    | JNull => Some (Ok (node :: lineage))
    | JStr replaced =>
        match lookup_plan (m, replaced) groups with
        | None => Some (raise ValueError "durable replan lineage is incomplete")
        | Some prior =>
            match fuel with
            | O => None
            | S n => lineage_loop n m groups prior (dg_plan_digest node :: seen) (node :: lineage)
            end
        end
    | _ => Some (raise ValueError "durable replan lineage digest is invalid")
    end.
Definition _lineage_groups (current : _DurablePlanGroup) (groups : groups_type) : result (list _DurablePlanGroup) :=
  default still_running (lineage_loop (S (length groups)) (dg_mission_id current) groups current [] []).

Definition _stored_reserved_budget (g : _DurablePlanGroup) : result totals :=
  match get "reserved_budget" (metadata g) with
  | JObj raw =>
      map_result (fun k => match get k raw with
                           | JInt z => require (0 <=? z) ValueError "durable plan budget evidence is invalid" ;? Ok z
                           | _ => raise ValueError "durable plan budget evidence is invalid"
                           end) _CONSUMPTIVE_BUDGET_FIELDS
  | _ => raise ValueError "durable plan budget evidence is missing"
  end.

(** ** Persisting *)

Inductive any_plan := Fixture (p : FixturePlan) | Orchestration (p : OrchestrationPlan).
Definition any_graph (p : any_plan) : ObjectiveGraph :=
  match p with Fixture f => fixture_graph f | Orchestration o => plan_graph o end.
Definition any_digest (p : any_plan) : result string :=
  match p with Fixture f => fixture_digest f | Orchestration o => plan_digest o end.
Definition any_kind (p : any_plan) : string :=
  match p with Fixture _ => _FIXTURE_PLANNER_KIND | Orchestration _ => _ORCHESTRATOR_PLANNER_KIND end.
Definition any_totals (p : any_plan) : totals :=
  match p with Fixture _ => no_totals | Orchestration o => _schedule_budget_totals (schedules o) end.
Definition any_replaces (p : any_plan) : option string := match p with Fixture _ => None | Orchestration o => replaces_digest o end.
Definition any_reason (p : any_plan) : option string := match p with Fixture _ => None | Orchestration o => replan_reason o end.
Definition any_evidence (p : any_plan) : list string := match p with Fixture _ => [] | Orchestration o => replan_evidence_refs o end.

Definition _plan_metadata (p : any_plan) (d gd : string) (revision : Z) (lineage_reserved : totals) : contract :=
  [("schema_version", JInt _PLAN_SCHEMA_VERSION); ("planner_kind", JStr (any_kind p));
   ("mission_id", JStr (charter_mission_id (charter (any_graph p)))); ("plan_digest", JStr d);
   ("charter_digest", JStr (charter_digest (charter (any_graph p)))); ("graph_digest", JStr gd);
   ("work_ids", strs (sorted_str (map wi_work_id (work_items (any_graph p))))); ("revision", JInt revision);
   ("replaces_digest", opt_str (any_replaces p)); ("replan_reason", opt_str (any_reason p));
   ("replan_evidence_refs", strs (any_evidence p)); ("reserved_budget", totals_document (any_totals p));
   ("lineage_reserved_budget", totals_document lineage_reserved);
   ("fixture_kind", match p with Fixture f => JStr (fixture_kind f) | Orchestration _ => JNull end)].

Definition _TERMINAL_MISSION_STATES : list MissionState := [M_COMPLETED; M_FAILED; M_CANCELLED].
Definition _PLANNING_MISSION_STATES : list MissionState := [M_CREATED; M_PLANNING; M_READY; M_PAUSED].
Definition _MAX_REVISIONS : nat := 2.

(** The predecessor a plan replaces, its revision, and what its lineage has
    reserved. *)
Definition find_predecessor (groups : groups_type) (m : string) (latest : option _DurablePlanGroup) (p : any_plan)
    : result (option _DurablePlanGroup * Z * totals) :=
  match p with
  | Orchestration o =>
      match replaces_digest o with
      | None =>
          require (negb (bool_decide (is_Some latest))) ValueError "an initial orchestration plan already exists for the mission" ;?
          Ok (None, 0, no_totals)
      | Some d =>
          match lookup_plan (m, d) groups with
          | None => raise ValueError "replan does not reference a durable prior plan"
          | Some prior =>
              require (match latest with Some l => String.eqb (dg_plan_digest prior) (dg_plan_digest l) | None => false end)
                ValueError "replan must replace the latest same-mission plan" ;?
              let? lineage := _lineage_groups prior groups in
              require (Nat.leb (length lineage) _MAX_REVISIONS) ValueError "replan revision limit exceeded" ;?
              let? reserved := rfold (fun t g => let? r := _stored_reserved_budget g in Ok (add_totals t r)) no_totals lineage in
              Ok (Some prior, Z.of_nat (length lineage), reserved)
          end
      end
  | Fixture _ =>
      match latest with
      | None => Ok (None, 0, no_totals)
      | Some l =>
          match lookup_key "revision" (metadata l) with
          | None => Ok (Some l, 1, no_totals)
          | Some (JInt z) => Ok (Some l, z + 1, no_totals)
          | Some (JBool b) => Ok (Some l, Z.b2z b + 1, no_totals)
          | Some _ => raise TypeError "unsupported operand type"
          end
      end
  end.

Definition stamp_epoch : string := "1970-01-01T00:00:00Z".
Definition planner_actor (p : any_plan) : string :=
  match p with Orchestration _ => "kernel-orchestrator-planner" | Fixture _ => "kernel-fixture-planner" end.
Definition planner_event (p : any_plan) (id kind : string) (wid : option string) (body : contract) (previous : option string) : result KernelEvent :=
  check_event (fun fields =>
    {| event_id := id; mission_id := charter_mission_id (charter (any_graph p)); event_type := kind; actor_id := planner_actor p;
       occurred_at := stamp_epoch; payload := fields; work_id := wid; attempt_id := None; event_actor_role := Some "orchestrator";
       event_version := 1; previous_digest := previous |}) (JObj body).

(** The batch of events, each chained to the one before: first the predecessor's
    work is superseded, in the order of work ids, then the new work is created,
    in dependency order. *)
Definition batch_type : Type := list (KernelEvent * option string).
Definition supersede_step (p : any_plan) (d : string) (prior : string) (st : option string * batch_type) (r : record)
    : result (option string * batch_type) :=
  let k := default "" (row_work_id r.1) in
  let? e := planner_event p ("supersede:" +:+ d +:+ ":" +:+ k)%stdpp "work.transition" (row_work_id r.1)
    [("status", JStr (work_value W_SUPERSEDED)); ("superseded_by", JStr d); ("supersedes_plan_digest", JStr prior)] st.1 in
  Ok (Some (digest_for e st.1),
      st.2 ++ [(e, Some (canonical_digest (JObj [("plan_digest", JStr d); ("supersedes_work_id", opt_str (row_work_id r.1))])))]).

Definition created_payload (p : any_plan) (d : string) (meta : contract) (w : WorkItem) : result contract :=
  let body := [("planner_kind", JStr (any_kind p)); ("plan_digest", JStr d); ("plan", JObj meta);
               ("work_item", JObj (work_item_to_document w))] in
  match p with
  | Fixture _ => Ok body
  | Orchestration o =>
      match lookup_key (wi_work_id w) (index_by sc_work_id (schedules o)) with
      | None => raise KeyError (wi_work_id w)
      | Some s =>
          Ok (body ++ [("schedule", JObj (schedule_to_document s))]
              ++ match replaces_digest o with
                 | None => []
                 | Some from => [("replan", JObj [("from_plan_digest", JStr from); ("reason", opt_str (replan_reason o));
                                                  ("evidence_refs", strs (replan_evidence_refs o))])]
                 end)
      end
  end.
Definition create_step (p : any_plan) (d : string) (meta : contract) (st : option string * batch_type) (w : WorkItem)
    : result (option string * batch_type) :=
  let? body := created_payload p d meta w in
  let? e := planner_event p ("plan:" +:+ d +:+ ":" +:+ wi_work_id w)%stdpp "work.created" (Some (wi_work_id w)) body st.1 in
  Ok (Some (digest_for e st.1),
      st.2 ++ [(e, Some (canonical_digest (JObj [("plan_digest", JStr d); ("work_id", JStr (wi_work_id w))])))]).

Definition plan_batch (p : any_plan) (d : string) (meta : contract) (ordered : list WorkItem)
    (prior : option _DurablePlanGroup) (head : option string) : result batch_type :=
  let? st := match prior with
             | None => Ok (head, [])
             | Some g => rfold (supersede_step p d (dg_plan_digest g)) (head, [])
                           (sorted_by (fun r => default "" (row_work_id r.1)) (rows g))
             end in
  let? st := rfold (create_step p d meta) st ordered in
  Ok st.2.

(** [events[-1]["digest"] if events else None] *)
Definition last_digest (events : list record) : option string := option_map (fun r => digest r.1) (last events).

(** Everything before the append: the retry of a stored plan, or the batch. *)
Definition prepare_plan (s : store) (p : any_plan) : result (list Z + batch_type * list record) :=
  let m := charter_mission_id (charter (any_graph p)) in
  let? events := list_events s in
  let? groups := _durable_plan_groups events in
  let? d := any_digest p in
  let? exact := _exact_plan_retry (lookup_plan (m, d) groups) in
  match exact with
  | Some seqs => Ok (inl seqs)
  | None =>
      let? st := projection s in
      match lookup_key m (missions st) with
      | None => raise ValueError "plan belongs to an unknown mission"
      | Some status =>
          require (negb (bool_decide (status ∈ _TERMINAL_MISSION_STATES))) ValueError "terminal mission rejects new plans" ;?
          require (bool_decide (status ∈ _PLANNING_MISSION_STATES)) ValueError "mission is not in an explicit planning state" ;?
          let mission_groups := _mission_plan_groups groups m in
          require (forallb (fun g => String.eqb (planner_kind g) (any_kind p)) mission_groups) ValueError
            "planner kind crossover is forbidden for a mission" ;?
          let? (prior, revision, previous_reserved) := find_predecessor groups m (last mission_groups) p in
          let lineage_reserved := add_totals previous_reserved (any_totals p) in
          match p with
          | Orchestration _ => _assert_budget_within lineage_reserved (charter_budget (charter (any_graph p))) "replan lineage reserved budget"
          | Fixture _ => Ok tt
          end ;?
          require (forallb (fun w => negb (bool_decide (is_Some (lookup_key (wi_work_id w) (work st))))) (work_items (any_graph p)))
            ValueError "new plan work ids must not reuse durable work ids" ;?
          require (forallb (fun r => match lookup_key (default "" (row_work_id r.1)) (work st) with
                                     | Some w => bool_decide (w_status w = W_PROPOSED)
                                     | None => false end) (match prior with Some g => rows g | None => [] end))
            ValueError "active predecessor work must be reconciled before replan" ;?
          let? gd := graph_digest (any_graph p) in
          let meta := _plan_metadata p d gd revision lineage_reserved in
          let? ordered := ordered_items (any_graph p) in
          let? batch := plan_batch p d meta ordered prior (last_digest events) in
          Ok (inr (batch, events))
      end
  end.

(** [sequences[-n:]] for a non-zero [n] *)
Definition last_n {A} (n : nat) (l : list A) : list A := drop (length l - n) l.

Definition persist_plan (p : any_plan) (recorded : string) : M store (list Z) :=
  let* s := getM in
  let* prepared := liftR (prepare_plan s p) in
  match prepared with
  | inl seqs => ret seqs
  | inr (batch, events) =>
      let* seqs := append_batch batch (Some (Z.of_nat (length events))) recorded in
      ret (last_n (length (work_items (any_graph p))) seqs)
  end.

(** ** Rehydration *)

Definition _latest_group_for_mission (m : string) (events : list record) : result _DurablePlanGroup :=
  let? groups := _durable_plan_groups events in
  match last (_mission_plan_groups groups m) with
  | None => raise ValueError "kernel mission has no durable plan"
  | Some g => Ok g
  end.

(** The work documents of a group by work id. *)
Definition document_step (documents : list (string * json)) (r : record) : result (list (string * json)) :=
  match get "work_item" (payload r.2) with
  | JObj d =>
      let k := default "" (row_work_id r.1) in
      require (negb (has k documents)) ValueError "durable plan contains duplicate work payloads" ;?
      Ok (dict_set k (JObj d) documents)
  | _ => raise ValueError "durable plan work payload is invalid"
  end.
Definition collect_documents (rs : list record) : result (list (string * json)) := rfold document_step [] rs.

Definition same_ids (keys ids : list string) : bool := subset keys ids && subset ids keys.

Definition _graph_for_group (c : MissionCharter) (g : _DurablePlanGroup) : result ObjectiveGraph :=
  require (String.eqb (dg_mission_id g) (charter_mission_id c)) ValueError "durable plan belongs to another mission" ;?
  require (py_eq (get "charter_digest" (metadata g)) (JStr (charter_digest c))) ValueError "durable plan charter binding differs" ;?
  let? documents := collect_documents (rows g) in
  let? ids := work_ids g in
  require (same_ids documents.*1 ids) ValueError "durable plan work payloads are incomplete" ;?
  let? graph := graph_from_documents c (map (fun k => get k documents) ids) in
  let? gd := graph_digest graph in
  require (py_eq (get "graph_digest" (metadata g)) (JStr gd)) ValueError "durable plan graph digest differs" ;?
  Ok graph.

Definition graph_from_events (c : MissionCharter) (events : list record) : result ObjectiveGraph :=
  let? g := _latest_group_for_mission (charter_mission_id c) events in
  _graph_for_group c g.

Definition schedule_step (found : list (string * WorkSchedule)) (r : record) : result (list (string * WorkSchedule)) :=
  match get "schedule" (payload r.2) with
  | JObj d =>
      let? s := schedule_from_document d in
      require (negb (bool_decide (is_Some (lookup_key (sc_work_id s) found)))) ValueError
        "durable orchestration schedule is duplicated" ;?
      Ok (dict_set (sc_work_id s) s found)
  | _ => raise ValueError "durable orchestration schedule is missing"
  end.
Definition collect_schedules (rs : list record) : result (list (string * WorkSchedule)) := rfold schedule_step [] rs.

Definition orchestration_plan_from_events (c : MissionCharter) (events : list record) : result OrchestrationPlan :=
  let? g := _latest_group_for_mission (charter_mission_id c) events in
  require (String.eqb (planner_kind g) _ORCHESTRATOR_PLANNER_KIND) ValueError "latest durable plan is not an orchestration plan" ;?
  let? graph := _graph_for_group c g in
  let? found := collect_schedules (rows g) in
  let? ids := work_ids g in
  require (same_ids found.*1 ids) ValueError "durable orchestration schedules are incomplete" ;?
  let? evidence := match lookup_key "replan_evidence_refs" (metadata g) with None => Ok [] | Some v => tuple_of v end in
  let? p := plan_of graph (map snd found) (get "replaces_digest" (metadata g)) (get "replan_reason" (metadata g)) evidence in
  let? d := plan_digest p in
  require (String.eqb d (dg_plan_digest g)) ValueError "durable orchestration plan digest differs" ;?
  Ok p.

(** ** What a persisted plan is made of *)

(** The facts established before a new plan is appended. *)
Record prepared (s : store) (p : any_plan) (batch : batch_type) (events : list record) : Type := {
  pr_groups : groups_type;
  pr_digest : string;
  pr_graph_digest : string;
  pr_ordered : list WorkItem;
  pr_prior : option _DurablePlanGroup;
  pr_revision : Z;
  pr_reserved : totals;
  pr_state : State;
  pr_events : list_events s = Ok events;
  pr_grouped : _durable_plan_groups events = Ok pr_groups;
  pr_digested : any_digest p = Ok pr_digest;
  pr_new : lookup_plan (charter_mission_id (charter (any_graph p)), pr_digest) pr_groups = None;
  pr_projected : projection s = Ok pr_state;
  pr_status : exists status, lookup_key (charter_mission_id (charter (any_graph p))) (missions pr_state) = Some status
    /\ status ∈ _PLANNING_MISSION_STATES;
  pr_predecessor : find_predecessor pr_groups (charter_mission_id (charter (any_graph p)))
    (last (_mission_plan_groups pr_groups (charter_mission_id (charter (any_graph p))))) p
    = Ok (pr_prior, pr_revision, pr_reserved);
  pr_budget : forall o, p = Orchestration o ->
    _assert_budget_within (add_totals pr_reserved (any_totals p)) (charter_budget (charter (any_graph p)))
      "replan lineage reserved budget" = Ok tt;
  pr_fresh : forall w, w ∈ work_items (any_graph p) -> lookup_key (wi_work_id w) (work pr_state) = None;
  pr_gd : graph_digest (any_graph p) = Ok pr_graph_digest;
  pr_order : ordered_items (any_graph p) = Ok pr_ordered;
  pr_batch : plan_batch p pr_digest
    (_plan_metadata p pr_digest pr_graph_digest pr_revision (add_totals pr_reserved (any_totals p))) pr_ordered pr_prior
    (last_digest events) = Ok batch }.

Lemma exact_none g : _exact_plan_retry g = Ok None -> g = None.
Proof. destruct g as [g|]; [|done]. cbn. intros H. take_ok H ids E. take_ok H seqs E'. discriminate H. Qed.

Lemma prepare_new s p batch events : prepare_plan s p = Ok (inr (batch, events)) -> inhabited (prepared s p batch events).
Proof.
  unfold prepare_plan. intros H. take_ok H evs E1. take_ok H groups E2. take_ok H d E3. take_ok H exact E4.
  destruct exact as [seqs|]; [discriminate H|]. apply exact_none in E4. take_ok H st E5.
  destruct (lookup_key _ (missions st)) as [status|] eqn:E6; [|discriminate H]. take_guard H E7. take_guard H E8. take_guard H E9.
  take_ok H x E10. destruct x as [[prior revision] reserved]. take_ok H u E11. take_guard H E12. take_guard H E13.
  take_ok H gd E14. take_ok H ordered E15. take_ok H b E16. injection H as -> ->. constructor.
  refine {| pr_groups := groups; pr_digest := d; pr_graph_digest := gd; pr_ordered := ordered; pr_prior := prior;
            pr_revision := revision; pr_reserved := reserved; pr_state := st |}; try done.
  - exists status. split; [done|]. by bool_hyps.
  - intros o Ho. destruct u. by rewrite Ho in E11 |- *.
  - intros w Hw. rewrite forallb_forall in E12. specialize (E12 w (proj1 (list_elem_of_In _ _) Hw)). bool_hyps.
    by apply eq_None_not_Some.
Qed.

(** How [persist_plan] ends: it raises and changes nothing; it finds the plan
    stored and changes nothing; or it appends the plan's batch. *)
Lemma persist_plan_outcome p recorded s r s' : persist_plan p recorded s = (r, s') ->
  (s' = s /\ ((exists e, r = Raise e) \/ exists seqs, prepare_plan s p = Ok (inl seqs) /\ r = Ok seqs))
  \/ exists batch events, prepare_plan s p = Ok (inr (batch, events))
       /\ exists r', append_batch batch (Some (Z.of_nat (length events))) recorded s = (r', s')
            /\ r = match r' with Ok seqs => Ok (last_n (length (work_items (any_graph p))) seqs) | Raise e => Raise e end.
Proof.
  unfold persist_plan. rewrite run_get, run_lift. destruct (prepare_plan s p) as [[seqs|[batch events]]|e] eqn:E.
  - intros [= <- <-]. left. split; [done|]. right. by exists seqs.
  - intros H. right. exists batch, events. split; [done|]. rewrite run_bind in H.
    destruct (append_batch _ _ _ s) as [[seqs|e] s1]; injection H as <- <-; eexists; by split.
  - intros [= <- <-]. left. split; [done|]. left. by eexists.
Qed.

(** ** The budget of a lineage *)

(** What the plans a new plan descends from have reserved, by their stored
    metadata. *)
Definition stored_total (i : nat) (rs : list totals) : Z := sum_list (map (fun r => nth_total i r) rs).

Lemma nth_add i t u : length t = length u -> nth_total i (add_totals t u) = nth_total i t + nth_total i u.
Proof.
  unfold nth_total, add_totals. revert t u. induction i as [|i IH]; intros [|x t] [|y u] H; try discriminate H; cbn; try done.
  apply IH. by injection H.
Qed.

Lemma stored_reserved_length g t : _stored_reserved_budget g = Ok t -> length t = 6%nat.
Proof.
  unfold _stored_reserved_budget. destruct (get _ _); try done. intros H. by rewrite (map_result_length _ _ _ H).
Qed.

Lemma lineage_totals lineage t0 t : length t0 = 6%nat ->
  rfold (fun t g => let? r := _stored_reserved_budget g in Ok (add_totals t r)) t0 lineage = Ok t ->
  exists rs, map_result _stored_reserved_budget lineage = Ok rs /\ length t = 6%nat
    /\ forall i, nth_total i t = nth_total i t0 + stored_total i rs.
Proof.
  revert t0. induction lineage as [|g l IH]; intros t0 Hl H; cbn [rfold] in H.
  - injection H as <-. exists []. split; [done|]. split; [done|]. intros i. unfold stored_total. cbn. lia.
  - take_ok H t1 E. take_ok E r Er. injection E as <-. assert (Hr := stored_reserved_length _ _ Er).
    destruct (IH (add_totals t0 r)) as (rs & Ers & Hlt & Hn); [unfold add_totals; rewrite length_zip_with; lia|done|].
    exists (r :: rs). cbn [map_result]. rewrite Er, Ers. split; [done|]. split; [done|]. intros i.
    rewrite Hn, nth_add by congruence. unfold stored_total. cbn [map]. rewrite sum_list_cons. lia.
Qed.

Lemma totals_length l : length (_schedule_budget_totals l) = 6%nat.
Proof. rewrite totals_spec. done. Qed.

(** The assertion, field by field. *)
Lemma within_nth used limit label i f : length used = 6%nat -> _assert_budget_within used limit label = Ok tt ->
  consumables !! i = Some f -> nth_total i used <= f limit.
Proof.
  intros Hl H Hi. unfold _assert_budget_within in H. rewrite each_ok, <- Forall_forall in H.
  do 6 (destruct used as [|? used]; [discriminate Hl|]). destruct used; [|discriminate Hl].
  cbn in H. rewrite !Forall_cons in H. cbn in H. rewrite !require_ok, !Z.leb_le in H.
  unfold consumables in Hi. do 6 (destruct i as [|i]; [injection Hi as <-; cbn; tauto|]). discriminate Hi.
Qed.

(** What a new orchestration plan descends from. *)
Definition lineage_of (groups : groups_type) (o : OrchestrationPlan) : result (list _DurablePlanGroup) :=
  match replaces_digest o with
  | None => Ok []
  | Some d => match lookup_plan (charter_mission_id (charter (plan_graph o)), d) groups with
              | Some prior => _lineage_groups prior groups
              | None => raise ValueError "replan does not reference a durable prior plan"
              end
  end.

Lemma predecessor_lineage groups m latest o prior n t : m = charter_mission_id (charter (plan_graph o)) ->
  find_predecessor groups m latest (Orchestration o) = Ok (prior, n, t) ->
  exists lineage rs, lineage_of groups o = Ok lineage /\ (length lineage <= 2)%nat /\ n = Z.of_nat (length lineage)
    /\ map_result _stored_reserved_budget lineage = Ok rs /\ length t = 6%nat /\ forall i, nth_total i t = stored_total i rs.
Proof.
  intros -> H. cbn [find_predecessor] in H. unfold lineage_of. destruct (replaces_digest o) as [d|].
  - destruct (lookup_plan _ groups) as [g|]; [|done]. take_guard H H1. take_ok H lineage El. take_guard H H2. take_ok H r Er.
    injection H as <- <- <-. apply Nat.leb_le in H2. destruct (lineage_totals lineage no_totals r) as (rs & Ers & Hl & Hn); [done|done|].
    exists lineage, rs. split; [done|]. split; [done|]. split; [done|]. split; [done|]. split; [done|]. intros i. rewrite Hn.
    assert (nth_total i no_totals = 0) as ->; [|lia]. unfold nth_total, no_totals. cbn. repeat (destruct i as [|i]; [done|]). by destruct i.
  - take_guard H H1. injection H as <- <- <-. exists [], []. split; [done|]. split; [cbn; lia|]. split; [done|]. split; [done|].
    split; [done|]. intros i. unfold nth_total, no_totals, stored_total. cbn. repeat (destruct i as [|i]; [done|]). by destruct i.
Qed.

(** C24: replanning never escapes the charter's budget: when an orchestration plan
    is stored, then for each consumptive resource what all the plans it
    descends from have reserved and what it reserves itself is together within
    the charter's budget, it descends from at most two plans, its mission is in
    a planning state, and none of its work identifiers was used before. *)
Theorem replan_lineage_within_charter s o recorded seqs s' :
  persist_plan (Orchestration o) recorded s = (Ok seqs, s') -> events_table s' <> events_table s ->
  exists events groups st lineage rs, list_events s = Ok events /\ _durable_plan_groups events = Ok groups
    /\ projection s = Ok st /\ lineage_of groups o = Ok lineage /\ map_result _stored_reserved_budget lineage = Ok rs
    /\ (length lineage <= 2)%nat
    /\ (forall i f, consumables !! i = Some f ->
          stored_total i rs + reserved f (schedules o) <= f (charter_budget (charter (plan_graph o))))
    /\ (exists status, lookup_key (charter_mission_id (charter (plan_graph o))) (missions st) = Some status
          /\ status ∈ _PLANNING_MISSION_STATES)
    /\ (forall w, w ∈ work_items (plan_graph o) -> lookup_key (wi_work_id w) (work st) = None).
Proof.
  intros H Hch. apply persist_plan_outcome in H as [[-> _]|(batch & events & Hprep & _)]; [done|].
  destruct (prepare_new _ _ _ _ Hprep) as [[groups d gd ordered prior n res st Hev Hgr Hd Hnew Hproj Hstat Hpred Hbud Hfresh Hgd Hord _]].
  apply predecessor_lineage in Hpred as (lineage & rs & Hlin & Hlen & _ & Hrs & Hl6 & Hn); [|done].
  exists events, groups, st, lineage, rs. do 5 (split; [done|]). split; [done|]. split; [|done]. intros i f Hf.
  assert (Hw := Hbud o eq_refl). eapply (within_nth _ _ _ i f) in Hw; [|unfold add_totals; rewrite length_zip_with; cbn [any_totals]; rewrite totals_length; lia|done].
  cbn [any_totals any_graph] in Hw. rewrite nth_add in Hw by (by rewrite totals_length). rewrite Hn, totals_spec in Hw.
  assert (Hr : nth_total i (map (fun f => reserved f (schedules o)) consumables) = reserved f (schedules o)).
  { unfold consumables in *. do 6 (destruct i as [|i]; [by injection Hf as <-|]). discriminate Hf. }
  by rewrite Hr in Hw.
Qed.

(** The loop over the lineage ends on any groups, cyclic or not. *)
Lemma lineage_loop_total m groups start fuel node seen lineage :
  NoDup seen -> seen ⊆ start :: map (fun kg => dg_plan_digest kg.2) groups ->
  dg_plan_digest node ∈ start :: map (fun kg => dg_plan_digest kg.2) groups ->
  (length groups + 1 <= fuel + length seen)%nat -> is_Some (lineage_loop fuel m groups node seen lineage).
Proof.
  revert node seen lineage. induction fuel as [|n IH]; intros node seen lineage Hn Hs Hin Hl; cbn [lineage_loop];
    (destruct (mem _ seen) eqn:Em; [by eexists|]); (destruct (get _ _); try (by eexists)); destruct (lookup_plan _ groups) as [g|] eqn:El;
    try (by eexists).
  - exfalso. assert (Hnd : NoDup (dg_plan_digest node :: seen)) by (constructor; [rewrite <- mem_spec; congruence|done]).
    assert (Hsub : dg_plan_digest node :: seen ⊆ start :: map (fun kg => dg_plan_digest kg.2) groups) by set_solver.
    apply (NoDup_submseteq _ _ Hnd), submseteq_length in Hsub. cbn in Hsub. rewrite length_map in Hsub. lia.
  - apply IH; [constructor; [rewrite <- mem_spec; congruence|done]|set_solver| |cbn; lia]. right.
    unfold lookup_plan in El. destruct (List.find _ _) as [[k' g']|] eqn:Ef; [|done]. injection El as <-.
    apply List.find_some in Ef as [Hf _]. apply list_elem_of_In in Hf. by apply (list_elem_of_fmap_2 (fun kg => dg_plan_digest kg.2)) in Hf.
Qed.

Lemma lineage_returns current groups : exists r, _lineage_groups current groups = r
  /\ lineage_loop (S (length groups)) (dg_mission_id current) groups current [] [] = Some r.
Proof.
  destruct (lineage_loop_total (dg_mission_id current) groups (dg_plan_digest current) (S (length groups)) current [] []) as [r E];
    [constructor|set_solver|by left|cbn; lia|]. exists r. unfold _lineage_groups. by rewrite E.
Qed.

(** ** A sample store *)

Module SampleStore.
(** A store with the sample mission in its planning state. *)
Definition mission_event (n : nat) (kind : string) (body : contract) (previous : option string) : KernelEvent :=
  {| event_id := "E-" +:+ str_of_Z (Z.of_nat n); mission_id := "MISSION-1"; event_type := kind; actor_id := "owner"; occurred_at := stamp_epoch;
     payload := body; work_id := None; attempt_id := None; event_actor_role := Some "orchestrator"; event_version := 1;
     previous_digest := previous |}%stdpp.
Definition created : KernelEvent := mission_event 1 "mission.created" [] None.
Definition planning : KernelEvent :=
  mission_event 2 "mission.transition" [("status", JStr "PLANNING")] (Some (digest_for created None)).
Definition opened_ops : list op := [Append [(created, None); (planning, None)] (Some 0) stamp_epoch].
Definition opened : store := Eval vm_compute in run_ops opened_ops fresh_store.
Definition after_first : store := Eval vm_compute in (persist_plan (Orchestration SamplePlan.first) stamp_epoch opened).2.
(** The replan, with its predecessor's work superseded. *)
Definition after_second : store := Eval vm_compute in (persist_plan (Orchestration SamplePlan.second) stamp_epoch after_first).2.
End SampleStore.

Lemma first_persisted : persist_plan (Orchestration SamplePlan.first) stamp_epoch SampleStore.opened = (Ok [3; 4], SampleStore.after_first).
Proof. vm_compute. reflexivity. Qed.

Lemma second_persisted :
  persist_plan (Orchestration SamplePlan.second) stamp_epoch SampleStore.after_first = (Ok [7; 8], SampleStore.after_second).
Proof. vm_compute. reflexivity. Qed.

Lemma tables_differ s s' : length (events_table s') <> length (events_table s) -> events_table s' <> events_table s.
Proof. intros H E. by rewrite E in H. Qed.

Lemma replan_lineage_within_charter_witness :
  exists lineage rs, map_result _stored_reserved_budget lineage = Ok rs /\ (length lineage <= 2)%nat
    /\ stored_total 0 rs + reserved max_wall_seconds (schedules SamplePlan.second)
       <= max_wall_seconds (charter_budget (charter (plan_graph SamplePlan.second))).
Proof.
  destruct (replan_lineage_within_charter _ _ _ _ _ second_persisted) as (_ & _ & _ & lineage & rs & _ & _ & _ & _ & Hrs & Hlen & H & _).
  { apply tables_differ. vm_compute. discriminate. }
  exists lineage, rs. split; [exact Hrs|]. split; [exact Hlen|]. apply (H 0%nat). reflexivity.
Defined.

(** An exact retry of a plan does not answer what the first call answered:
    the first call returns the sequence numbers of the new work events in the
    order of the dependencies, the retry returns the same events in the order of
    their work identifiers. *)
Theorem plan_retry_reorders_sequences : exists s p recorded first retried,
  (persist_plan p recorded s).1 = Ok first /\ (persist_plan p recorded (persist_plan p recorded s).2).1 = Ok retried
  /\ retried <> first /\ retried ≡ₚ first.
Proof.
  exists SampleStore.opened, (Orchestration SamplePlan.first), stamp_epoch, [3; 4], [4; 3].
  rewrite first_persisted. split; [reflexivity|]. split; [vm_compute; reflexivity|]. split; [discriminate|].
  apply perm_swap.
Qed.

End PlanStore.
