(* ===== verification/Rehydration.v ===== *)
(** * Rehydrated plans

    A plan stored by [persist_plan] is the plan [orchestration_plan_from_events]
    rebuilds, when the schema takes the write scopes of its items: the round trip through canonical JSON, the hash-chained event
    store, the grouping of work facts and the graph and plan constructors. *)

From S2P Require Import Prelude Sha256 Canonical PyLib Graphs Schema Contracts Projection KernelStore WorkItems Objectives Plans PlanStore.

Module Rehydration.
Export PlanStore.

(** ** Items in canonical form

    JSON text keeps no order of members, so the context request of a stored work
    item comes back with its members sorted. *)

Definition norm_item (w : WorkItem) : WorkItem := with_context w (norm_context (context_request w)).

Lemma norm_item_document w : norm (JObj (work_item_to_document (norm_item w))) = norm (JObj (work_item_to_document w)).
Proof.
  assert (Hc : norm (JObj (norm_context (context_request w))) = norm (JObj (context_request w))).
  { change (JObj (norm_context (context_request w))) with (norm (JObj (context_request w))). apply norm_idem. }
  assert (Hn : forall l, norm (JObj l) = JObj (sorted_by fst (map (fun kv => (kv.1, norm kv.2)) l))) by done.
  rewrite (Hn (work_item_to_document (norm_item w))), (Hn (work_item_to_document w)). do 2 f_equal.
  unfold work_item_to_document. cbn [map fst snd]. unfold norm_item at 15. cbn [with_context context_request]. rewrite Hc. reflexivity.
Qed.

Lemma norm_item_ids items : map wi_work_id (map norm_item items) = map wi_work_id items.
Proof. by rewrite List.map_map. Qed.

Lemma norm_elem items w : w ∈ map norm_item items -> exists v, v ∈ items /\ w = norm_item v.
Proof. intros H. apply list_elem_of_fmap in H as (v & -> & Hv). eauto. Qed.

Lemma depends_norm items i d : depends (map norm_item items) i d <-> depends items i d.
Proof.
  split.
  - intros (w & Hw & Hid & Hd). apply norm_elem in Hw as (v & Hv & ->). by exists v.
  - intros (w & Hw & Hid & Hd). exists (norm_item w). split; [by apply (list_elem_of_fmap_2 norm_item)|done].
Qed.

Lemma tc_depends_norm items i d : tc (depends (map norm_item items)) i d <-> tc (depends items) i d.
Proof.
  split; (induction 1 as [x y H|x y z H _ IH]; [apply tc_once|eapply tc_l; [|exact IH]]; by apply depends_norm).
Qed.

Lemma graph_ok_norm c lim items : graph_ok c lim items -> graph_ok c lim (map norm_item items).
Proof.
  intros [H1 H2 H3 H4 H5 H6 H7 H8 H9 H10 H11]. split.
  - by rewrite norm_item_ids.
  - by destruct items.
  - by rewrite length_map.
  - intros w Hw. apply norm_elem in Hw as (v & Hv & ->). exact (H4 v Hv).
  - intros w Hw. apply norm_elem in Hw as (v & Hv & ->). exact (H5 v Hv).
  - intros i d. rewrite depends_norm, norm_item_ids. apply H6.
  - intros w p Hw Hp. apply norm_elem in Hw as (v & Hv & ->). destruct (H7 v p Hv Hp) as (parent & Hin & Hid & Hd).
    exists (norm_item parent). split; [by apply (list_elem_of_fmap_2 norm_item)|done].
  - intros w Hw. apply norm_elem in Hw as (v & Hv & ->). etrans; [|by apply (H8 v)]. unfold children_of. apply Z.eq_le_incl. f_equal.
    change (wi_work_id (norm_item v)) with (wi_work_id v). generalize (wi_work_id v) as i. clear. intros i. induction items as [|w l IH]; [done|]. cbn [map List.filter].
    change (parent_work_id (norm_item w)) with (parent_work_id w). case_bool_decide; cbn; by rewrite IH.
  - rewrite List.map_map. exact H9.
  - intros i H. apply (H10 i). by apply tc_depends_norm.
  - intros a b Ha Hb. apply norm_elem in Ha as (a' & Ha & ->). apply norm_elem in Hb as (b' & Hb & ->). intros Hne Ho.
    rewrite !tc_depends_norm. exact (H11 a' b' Ha Hb Hne Ho).
Qed.

Definition norm_order (r : result (list WorkItem)) : result (list WorkItem) :=
  match r with Ok l => Ok (map norm_item l) | Raise e => Raise e end.

Lemma graph_item_norm c lim items i : NoDup (map wi_work_id items) ->
  graph_item (graph_of c lim (map norm_item items)) i
  = match graph_item (graph_of c lim items) i with Ok w => Ok (norm_item w) | Raise e => Raise e end.
Proof.
  intros Hn. unfold graph_item. cbn [_by_id graph_of]. rewrite !index_by_NoDup by (by rewrite ?norm_item_ids).
  assert (E : map (fun w => (wi_work_id w, w)) (map norm_item items)
    = map (fun kv => (kv.1, norm_item kv.2)) (map (fun w => (wi_work_id w, w)) items)) by (by rewrite !List.map_map).
  rewrite E, lookup_key_map. by destruct (lookup_key i _).
Qed.

Lemma ordered_items_norm c lim items : NoDup (map wi_work_id items) ->
  ordered_items (graph_of c lim (map norm_item items)) = norm_order (ordered_items (graph_of c lim items)).
Proof.
  intros Hn. unfold ordered_items. change (work_items (graph_of c lim (map norm_item items))) with (map norm_item items).
  change (work_items (graph_of c lim items)) with items.
  assert (E : pending_sets (map norm_item items) = pending_sets items) by (unfold pending_sets; by rewrite List.map_map).
  rewrite E. clear E. assert (G : forall n pending, ordered_loop n (graph_of c lim (map norm_item items)) pending
    = option_map norm_order (ordered_loop n (graph_of c lim items) pending)).
  { induction n as [|n IH]; intros [|p rest]; try done. cbn [ordered_loop]. case_bool_decide; [done|].
    assert (Em : map_result (graph_item (graph_of c lim (map norm_item items))) (ready_ids (p :: rest))
      = norm_order (map_result (graph_item (graph_of c lim items)) (ready_ids (p :: rest)))).
    { generalize (ready_ids (p :: rest)) as l. induction l as [|i l IHl]; [done|]. cbn [map_result].
      rewrite graph_item_norm by done. destruct (graph_item (graph_of c lim items) i); [|done]. cbn [rbind]. rewrite IHl.
      by destruct (map_result (graph_item (graph_of c lim items)) l). }
    rewrite Em, IH. clear Em. destruct (map_result _ _) as [now|]; [|done]. cbn [norm_order].
    destruct (ordered_loop n _ _) as [[later|]|]; cbn; [|done..]. by rewrite map_app. }
  rewrite G. by destruct (ordered_loop _ _ _).
Qed.

(** The documents of the items have one normal form, and so one digest. *)
Lemma norm_items_list l : norm (JList (map (fun w => JObj (work_item_to_document w)) (map norm_item l)))
  = norm (JList (map (fun w => JObj (work_item_to_document w)) l)).
Proof.
  cbn [norm]. f_equal. rewrite !List.map_map. apply map_ext. intros w. apply norm_item_document.
Qed.

Lemma dumps_norm j j' : norm j = norm j' -> canonical_digest j = canonical_digest j'.
Proof. intros H. unfold canonical_digest, canonical_bytes, dumps. by rewrite H. Qed.

(** Objects with pairwise equal members in normal form. *)
Lemma norm_obj_ext l l' : map (fun kv => (kv.1, norm kv.2)) l = map (fun kv => (kv.1, norm kv.2)) l' -> norm (JObj l) = norm (JObj l').
Proof. intros H. cbn [norm]. by rewrite H. Qed.

Lemma graph_digest_norm c lim items : NoDup (map wi_work_id items) ->
  graph_digest (graph_of c lim (map norm_item items)) = graph_digest (graph_of c lim items).
Proof.
  intros Hn. unfold graph_digest. rewrite ordered_items_norm by done. destruct (ordered_items _) as [l|]; [|done]. cbn [norm_order rbind].
  f_equal. apply dumps_norm, norm_obj_ext. cbn [map fst snd]. by rewrite norm_items_list.
Qed.

(** ** The records of an appended batch *)

Definition new_records (recorded : string) (n : Z) (previous : option string) (batch : batch_type) : list record :=
  zip (batch_rows recorded n previous batch) (map (fun b => norm_event b.1) batch).

Fixpoint chained (previous : option string) (batch : batch_type) : Prop :=
  match batch with
  | [] => True
  | (e, _) :: rest => previous_digest e = previous /\ chained (Some (digest_for e previous)) rest
  end.

Lemma insert_batch_chained recorded n previous batch rs keys t :
  insert_batch recorded n previous batch rs keys = Ok t -> chained previous batch.
Proof.
  revert n previous rs keys t. induction batch as [|[e k] batch IH]; intros n previous rs keys t H; [done|]. cbn [insert_batch] in H.
  take_guard H E. bool_hyps. take_ok H rs' E1. take_ok H keys' E2. take_ok H t' E3. cbn. split; [done|]. by eapply IH.
Qed.

Lemma verify_rows_app previous l1 l2 :
  verify_rows previous (l1 ++ l2) =
  (let? a := verify_rows previous l1 in
   let? b := verify_rows (match last l1 with Some r => Some (digest r) | None => previous end) l2 in Ok (a ++ b)).
Proof.
  revert previous. induction l1 as [|r l1 IH]; intros previous; cbn [app verify_rows].
  - cbn. by destruct (verify_rows previous l2).
  - destruct (verify_row previous r); [|done]. cbn [rbind]. rewrite IH. destruct (verify_rows _ l1) as [va|]; [|done]. cbn [rbind].
    rewrite last_cons. destruct (last l1); cbn; by destruct (verify_rows _ l2).
Qed.

Lemma verify_batch recorded n previous batch : Forall (fun b => event_wf b.1 = true) batch -> chained previous batch ->
  verify_rows previous (batch_rows recorded n previous batch) = Ok (new_records recorded n previous batch).
Proof.
  intros Hw. revert n previous. induction Hw as [|[e k] batch He Hw IH]; intros n previous Hc; [done|]. destruct Hc as [Hp Hc].
  cbn [batch_rows verify_rows]. rewrite verify_appended by done. cbn [rbind].
  change (digest (event_to_row e (n + 1) recorded previous)) with (digest_for e previous). rewrite IH by done. done.
Qed.

(** ** The events of a plan *)

(** The event that creates one planned work item. *)
Record creates (p : any_plan) (d : string) (meta : contract) (w : WorkItem) (e : KernelEvent) : Prop := {
  cr_type : event_type e = "work.created";
  cr_work : work_id e = Some (wi_work_id w);
  cr_mission : mission_id e = charter_mission_id (charter (any_graph p));
  cr_payload : created_payload p d meta w = Ok (payload e) }.

(** What a checked planner event is. *)
Lemma planner_event_ok p id kind wid body previous e : planner_event p id kind wid body previous = Ok e ->
  e = {| event_id := id; mission_id := charter_mission_id (charter (any_graph p)); event_type := kind; actor_id := planner_actor p;
         occurred_at := stamp_epoch; payload := body; work_id := wid; attempt_id := None; event_actor_role := Some "orchestrator";
         event_version := 1; previous_digest := previous |}
  /\ (json_wf (JObj body) = true -> event_wf e = true).
Proof.
  unfold planner_event, check_event. intros H. take_ok H u Eu. take_guard H Ev. injection H as <-. split; [done|].
  intros Hwf. unfold event_wf. destruct u. rewrite each_ok, <- Forall_forall in Eu.
  rewrite !Forall_cons in Eu. cbn [fst snd event_id mission_id event_type actor_id occurred_at] in Eu. rewrite !require_ok in Eu. destruct Eu as (E1 & E2 & E3 & E4 & E5 & _). cbn [payload event_id
    mission_id event_type actor_id occurred_at event_version]. rewrite E1, E2, E3, E4, E5, Hwf. done.
Qed.

Definition supersedes (b : KernelEvent * option string) : Prop := event_type b.1 = "work.transition" /\ event_wf b.1 = true.

Lemma supersede_steps p d prior l st st' : rfold (supersede_step p d prior) st l = Ok st' ->
  exists new, st'.2 = st.2 ++ new /\ Forall supersedes new.
Proof.
  revert st. induction l as [|r l IH]; intros st H; cbn [rfold] in H.
  - injection H as <-. exists []. by rewrite app_nil_r.
  - take_ok H st1 E. unfold supersede_step in E. take_ok E e Ee. injection E as <-. apply IH in H as (new & Hn & Hf).
    apply planner_event_ok in Ee as [-> Hwf]. eexists. rewrite Hn. cbn [snd]. rewrite <- app_assoc. split; [reflexivity|].
    constructor; [|done]. split; [done|]. by apply Hwf.
Qed.

Lemma create_steps p d meta l st st' : rfold (create_step p d meta) st l = Ok st' ->
  exists new, st'.2 = st.2 ++ new /\ Forall2 (fun w b => creates p d meta w b.1) l new
    /\ (Forall (fun w => forall body, created_payload p d meta w = Ok body -> json_wf (JObj body) = true) l ->
        Forall (fun b => event_wf b.1 = true) new).
Proof.
  revert st. induction l as [|w l IH]; intros st H; cbn [rfold] in H.
  - injection H as <-. exists []. rewrite app_nil_r. split; [done|]. split; constructor.
  - take_ok H st1 E. unfold create_step in E. take_ok E body Eb. take_ok E e Ee. injection E as <-.
    apply IH in H as (new & Hn & Hf & Hw). apply planner_event_ok in Ee as [-> Hwf]. eexists. rewrite Hn. cbn [snd].
    rewrite <- app_assoc. split; [reflexivity|]. split.
    + constructor; [by split|done].
    + intros Hall. apply Forall_cons in Hall as [H1 H2]. constructor; [by apply Hwf, H1|by apply Hw].
Qed.

Lemma plan_batch_ok p d meta ordered prior head batch : plan_batch p d meta ordered prior head = Ok batch ->
  exists old new, batch = old ++ new /\ Forall supersedes old /\ Forall2 (fun w b => creates p d meta w b.1) ordered new
    /\ (Forall (fun w => forall body, created_payload p d meta w = Ok body -> json_wf (JObj body) = true) ordered ->
        Forall (fun b => event_wf b.1 = true) new).
Proof.
  unfold plan_batch. intros H. take_ok H st1 E1. take_ok H st2 E2. injection H as <-.
  apply create_steps in E2 as (new & -> & Hf & Hw). exists st1.2, new. split; [done|]. split; [|done].
  destruct prior as [g|]; [|injection E1 as <-; constructor]. apply supersede_steps in E1 as (old & -> & Hs). exact Hs.
Qed.

(** The record that stores one event of a batch. *)
Definition stores (b : KernelEvent * option string) (r : record) : Prop :=
  row_event_type r.1 = event_type b.1 /\ row_mission_id r.1 = mission_id b.1 /\ row_work_id r.1 = work_id b.1
  /\ payload r.2 = norm_payload (payload b.1).

Lemma new_records_store recorded n previous batch : Forall2 stores batch (new_records recorded n previous batch).
Proof.
  revert n previous. induction batch as [|[e k] batch IH]; intros n previous; [constructor|]. constructor; [done|]. apply IH.
Qed.

Lemma new_records_sequence recorded n previous batch :
  map (fun r => sequence r.1) (new_records recorded n previous batch) = range_from (n + 1) (length batch).
Proof.
  revert n previous. induction batch as [|[e k] batch IH]; intros n previous; [done|].
  cbn [length]. rewrite range_from_S, <- (IH (n + 1) (Some (digest_for e previous))). done.
Qed.

Lemma lookup_norm_payload k body : NoDup body.*1 -> lookup_key k (norm_payload body) = norm <$> lookup_key k body.
Proof.
  intros Hn. unfold norm_payload. destruct (norm_obj_members body) as (l & -> & Hl).
  rewrite (lookup_key_perm k l (map (fun kv => (kv.1, norm kv.2)) body)), lookup_key_map; [done| |done].
  rewrite Hl. by rewrite <- list_fmap_compose.
Qed.
Lemma get_norm_payload k body : NoDup body.*1 -> get k (norm_payload body) = norm (get k body).
Proof. intros Hn. unfold get. rewrite lookup_norm_payload by done. by destruct (lookup_key k body). Qed.

(** The payload of a work fact, member by member. *)
Record payload_members (p : any_plan) (d : string) (meta : contract) (w : WorkItem) (body : contract) : Prop := {
  pm_keys : NoDup body.*1;
  pm_digest : get "plan_digest" body = JStr d;
  pm_plan : get "plan" body = JObj meta;
  pm_item : get "work_item" body = JObj (work_item_to_document w);
  pm_schedule : forall o, p = Orchestration o -> exists s, s ∈ schedules o /\ sc_work_id s = wi_work_id w
    /\ get "schedule" body = JObj (schedule_to_document s) }.

Lemma created_payload_members p d meta w body : created_payload p d meta w = Ok body -> payload_members p d meta w body.
Proof.
  unfold created_payload. intros H. destruct p as [f|o].
  - injection H as <-. split; try done.
    apply (bool_decide_unpack (NoDup ["planner_kind"; "plan_digest"; "plan"; "work_item"])). vm_compute. exact I.
  - destruct (lookup_key _ _) as [s|] eqn:E; [|done]. apply lookup_key_in, index_by_entries in E as [Hs Hid].
    injection H as <-. destruct (replaces_digest o); split; try done.
    + apply (bool_decide_unpack (NoDup ["planner_kind"; "plan_digest"; "plan"; "work_item"; "schedule"; "replan"])). vm_compute. exact I.
    + intros o' [= <-]. by exists s.
    + apply (bool_decide_unpack (NoDup ["planner_kind"; "plan_digest"; "plan"; "work_item"; "schedule"])). vm_compute. exact I.
    + intros o' [= <-]. by exists s.
Qed.

(** The record of one planned work item. *)
Record work_fact (p : any_plan) (d : string) (meta : contract) (w : WorkItem) (r : record) : Prop := {
  wf_type : row_event_type r.1 = "work.created";
  wf_mission : row_mission_id r.1 = charter_mission_id (charter (any_graph p));
  wf_work : row_work_id r.1 = Some (wi_work_id w);
  wf_digest : get "plan_digest" (payload r.2) = JStr d;
  wf_plan : get "plan" (payload r.2) = JObj (norm_payload meta);
  wf_item : get "work_item" (payload r.2) = norm (JObj (work_item_to_document w));
  wf_schedule : forall o, p = Orchestration o -> exists s, s ∈ schedules o /\ sc_work_id s = wi_work_id w
    /\ get "schedule" (payload r.2) = norm (JObj (schedule_to_document s)) }.

Lemma creates_work_fact p d meta w b r : creates p d meta w b.1 -> stores b r -> work_fact p d meta w r.
Proof.
  intros [H1 H2 H3 H4] (G1 & G2 & G3 & G4). apply created_payload_members in H4 as [Hn Hd Hp Hi Hs].
  split; try congruence.
  - by rewrite G4, get_norm_payload, Hd.
  - by rewrite G4, get_norm_payload, Hp.
  - by rewrite G4, get_norm_payload, Hi.
  - intros o Ho. destruct (Hs o Ho) as (sc & Hin & Hid & E). exists sc. by rewrite G4, get_norm_payload, E.
Qed.

Lemma work_fact_plan p d meta w r : work_fact p d meta w r ->
  record_plan r = Some ((charter_mission_id (charter (any_graph p)), d), norm_payload meta).
Proof. intros [H1 H2 H3 H4 H5 _ _]. unfold record_plan. by rewrite H1, H4, H5, H2. Qed.

(** The records of a plan's batch: transitions of old work, then one work fact
    per item, in order. *)
Lemma batch_records p d meta ordered old new recorded n previous :
  Forall supersedes old -> Forall2 (fun w b => creates p d meta w b.1) ordered new ->
  exists before facts, new_records recorded n previous (old ++ new) = before ++ facts
    /\ Forall (fun r => record_plan r = None) before /\ Forall2 (work_fact p d meta) ordered facts
    /\ map (fun r => sequence r.1) facts = range_from (n + Z.of_nat (length old) + 1) (length ordered).
Proof.
  intros Hold Hnew. assert (Hst := new_records_store recorded n previous (old ++ new)).
  apply Forall2_app_inv_l in Hst as (before & facts & H1 & H2 & E). exists before, facts. split; [done|].
  split; [|split].
  - clear -Hold H1. induction H1 as [|b r old before (Ht & _) H1 IH]; [constructor|]. apply Forall_cons in Hold as [[Hb _] Hold].
    constructor; [|by apply IH]. unfold record_plan. by rewrite Ht, Hb.
  - clear -Hnew H2. revert facts H2. induction Hnew as [|w b ordered new Hc Hnew IH]; intros facts H2.
    + inversion H2. constructor.
    + inversion H2 as [|? r ? facts' Hs H2']; subst. constructor; [by eapply creates_work_fact|by apply IH].
  - assert (Hs := new_records_sequence recorded n previous (old ++ new)).
    rewrite E, map_app, length_app, range_from_app in Hs. apply app_inj_1 in Hs as [_ Hs].
    + etrans; [exact Hs|]. rewrite (Forall2_length _ _ _ Hnew). f_equal. lia.
    + rewrite length_map, range_from_length. symmetry. by eapply Forall2_length.
Qed.

(** ** Grouping the records *)

Lemma group_add_fresh k r l : k ∉ l.*1 -> group_add k r l = l ++ [(k, [r])].
Proof.
  induction l as [|[k' rs] l IH]; intros H; cbn; [done|]. rewrite fmap_cons, not_elem_of_cons in H. destruct H as [Hk Hl].
  rewrite bool_decide_eq_false_2 by done. by rewrite IH.
Qed.
Lemma group_add_last k r rs l : k ∉ l.*1 -> group_add k r (l ++ [(k, rs)]) = l ++ [(k, rs ++ [r])].
Proof.
  induction l as [|[k' rs'] l IH]; intros H; cbn.
  - by rewrite bool_decide_eq_true_2.
  - rewrite fmap_cons, not_elem_of_cons in H. destruct H as [Hk Hl]. rewrite bool_decide_eq_false_2 by done. by rewrite IH.
Qed.

Lemma group_none before acc : Forall (fun r => record_plan r = None) before -> fold_left group_step before acc = acc.
Proof. induction 1 as [|r before Hr _ IH]; [done|]. cbn. unfold group_step at 2. by rewrite Hr. Qed.

Lemma group_more k seen facts acc : Forall (fun r => exists m, record_plan r = Some (k, m)) facts -> k ∉ acc.*1 ->
  fold_left group_step facts (acc ++ [(k, seen)]) = acc ++ [(k, seen ++ facts)].
Proof.
  intros Hf Hk. revert seen. induction Hf as [|r facts [m Hr] Hf IH]; intros seen; cbn [fold_left]; [by rewrite app_nil_r|].
  unfold group_step at 2. rewrite Hr. cbn [fst]. rewrite group_add_last by done. rewrite IH. by rewrite <- app_assoc.
Qed.

Lemma group_facts k facts acc : facts <> [] -> Forall (fun r => exists m, record_plan r = Some (k, m)) facts -> k ∉ acc.*1 ->
  fold_left group_step facts acc = acc ++ [(k, facts)].
Proof.
  intros Hne Hf Hk. destruct Hf as [|r facts [m Hr] Hf]; [done|]. cbn [fold_left]. unfold group_step at 2. rewrite Hr.
  cbn [fst]. rewrite group_add_fresh by done. by rewrite group_more.
Qed.

Lemma map_result_keys {A B} (f : A -> result B) (kf : A -> plan_key) l ys :
  map_result (fun x => let? y := f x in Ok (kf x, y)) l = Ok ys -> ys.*1 = map kf l.
Proof.
  revert ys. induction l as [|x l IH]; cbn [map_result]; intros ys H; [by injection H as <-|].
  take_ok H y Ey. take_ok Ey z Ez. injection Ey as <-. take_ok H ys' Eys. injection H as <-. cbn. f_equal. by apply IH.
Qed.

Lemma lookup_plan_none {A} k (l : list (plan_key * A)) : lookup_plan k l = None -> k ∉ l.*1.
Proof.
  unfold lookup_plan. destruct (List.find _ l) as [x|] eqn:E; [done|]. intros _ Hin.
  apply list_elem_of_fmap in Hin as (kv & -> & Hin). apply list_elem_of_In in Hin. apply (find_none _ _ E) in Hin.
  by apply bool_decide_eq_false in Hin.
Qed.

Lemma groups_appended events groups before facts k g :
  _durable_plan_groups events = Ok groups -> k ∉ groups.*1 -> Forall (fun r => record_plan r = None) before ->
  facts <> [] -> Forall (fun r => exists m, record_plan r = Some (k, m)) facts -> make_group (k, facts) = Ok g ->
  _durable_plan_groups (events ++ before ++ facts) = Ok (groups ++ [(k, g)]).
Proof.
  intros Hg Hk Hb Hne Hf Hm. unfold _durable_plan_groups, group_records in *.
  rewrite !fold_left_app, (group_none before) by done.
  assert (Hkeys : groups.*1 = (fold_left group_step events []).*1) by exact (map_result_keys _ fst _ _ Hg).
  rewrite (group_facts k) by (rewrite <- ?Hkeys; done). eapply map_result_app; [exact Hg|].
  cbn [map_result]. rewrite Hm. done.
Qed.

(** ** The group of a stored plan *)

Lemma plan_metadata_keys p d gd n t : NoDup (_plan_metadata p d gd n t).*1.
Proof.
  apply (bool_decide_unpack (NoDup ["schema_version"; "planner_kind"; "mission_id"; "plan_digest"; "charter_digest"; "graph_digest";
    "work_ids"; "revision"; "replaces_digest"; "replan_reason"; "replan_evidence_refs"; "reserved_budget"; "lineage_reserved_budget";
    "fixture_kind"])). vm_compute. exact I.
Qed.

Lemma sorted_str_idem l : sorted_str (sorted_str l) = sorted_str l.
Proof. apply sorted_by_id, sorted_by_sorted. Qed.

Lemma manifest_read meta ids : NoDup ids -> get "work_ids" meta = strs (sorted_str ids) -> manifest_ids meta = Ok (sorted_str ids).
Proof.
  intros Hn E. unfold manifest_ids. rewrite E. unfold strs.
  assert (Hs : forallb (fun v => match v with JStr _ => true | _ => false end) (map JStr (sorted_str ids)) = true).
  { apply forallb_forall. intros v Hv. apply in_map_iff in Hv as (x & <- & _). done. }
  rewrite Hs. cbn [require rbind]. rewrite omap_as_str, sorted_str_idem. rewrite bool_decide_eq_true_2 by done.
  unfold distinct. rewrite bool_decide_eq_true_2 by (unfold sorted_str; by rewrite sorted_by_perm). done.
Qed.

Section stored_group.
Context (p : any_plan) (d gd : string) (n : Z) (t : totals).
Notation meta := (_plan_metadata p d gd n t).
Notation m := (charter_mission_id (charter (any_graph p))).

Lemma get_stored k : get k (norm_payload meta) = norm (get k meta).
Proof. apply get_norm_payload, plan_metadata_keys. Qed.

Lemma meta_wf : json_wf (JObj meta) = true.
Proof.
  assert (Hstrs : forall l, json_wf (strs l) = true) by (intros l; cbn; induction l; [done|]; cbn; done).
  assert (Hopt : forall o, json_wf (opt_str o) = true) by (by intros [|]).
  assert (Htot : forall x, json_wf (totals_document x) = true).
  { intros x. unfold totals_document, _CONSUMPTIVE_BUDGET_FIELDS.
    do 7 (destruct x as [|? x]; [vm_compute; reflexivity|]). vm_compute. reflexivity. }
  change (json_wf (JObj meta)) with (distinct (map fst meta) && forallb (fun kv => json_wf kv.2) meta).
  unfold distinct. rewrite bool_decide_eq_true_2 by apply plan_metadata_keys. cbn [andb].
  apply forallb_forall. unfold _plan_metadata. intros kv Hin. cbn [In] in Hin.
  repeat destruct Hin as [<-|Hin]; try done; cbn [snd]; auto. by destruct p.
Qed.

Context (ordered : list WorkItem) (facts : list record).
Context (Hfacts : Forall2 (work_fact p d meta) ordered facts) (Hne : ordered <> []).
Context (Hperm : ordered ≡ₚ work_items (any_graph p)) (Hids : NoDup (map wi_work_id (work_items (any_graph p)))).

Definition stored_group : _DurablePlanGroup :=
  {| dg_mission_id := m; dg_plan_digest := d; planner_kind := any_kind p; metadata := norm_payload meta; rows := facts |}.

Lemma fact_ids : map (fun r => row_work_id r.1) facts = map (fun w => Some (wi_work_id w)) ordered.
Proof.
  cut (forall ws rs, Forall2 (work_fact p d meta) ws rs -> map (fun r => row_work_id r.1) rs = map (fun w => Some (wi_work_id w)) ws); [auto|].
  induction 1 as [|w r ws rs [_ _ Hw _ _ _ _] _ IH]; [done|]. cbn. f_equal; [exact Hw|exact IH].
Qed.

Lemma stored_manifest : manifest_ids (norm_payload meta) = Ok (sorted_str (map wi_work_id (work_items (any_graph p)))).
Proof. apply manifest_read; [done|]. rewrite get_stored. apply norm_strs. Qed.

Lemma fact_of r : r ∈ facts -> exists w, w ∈ ordered /\ work_fact p d meta w r.
Proof.
  intros Hr. apply list_elem_of_lookup in Hr as [i Hi]. destruct (Forall2_lookup_r _ _ _ _ _ Hfacts Hi) as (w & Hw & H).
  exists w. split; [|done]. by eapply list_elem_of_lookup_2.
Qed.

Lemma stored_group_made : make_group ((m, d), facts) = Ok stored_group.
Proof.
  assert (Hall : forall r, r ∈ facts -> get "plan" (payload r.2) = JObj (norm_payload meta)).
  { intros r Hr. destruct (fact_of r Hr) as (w & _ & Hw). apply (wf_plan _ _ _ _ _ Hw). }
  assert (exists r0 rs, facts = r0 :: rs) as (r0 & rs & EF).
  { assert (Hl := Forall2_length _ _ _ Hfacts). destruct facts; [|eauto]. by destruct ordered. }
  unfold make_group. rewrite EF at 1. cbv iota beta. rewrite (Hall r0) by (rewrite EF; by left).
  assert (Hpy : forallb (fun r => py_eq (get "plan" (payload r.2)) (JObj (norm_payload meta))) facts = true).
  { apply forallb_forall. intros r Hr. rewrite Hall by (by apply list_elem_of_In). apply py_eq_refl. rewrite norm_payload_obj.
    apply norm_wf, meta_wf. }
  rewrite Hpy. cbn [require rbind]. rewrite get_stored.
  change (norm (get "planner_kind" meta)) with (JStr (any_kind p)).
  assert (Hk : in_names (JStr (any_kind p)) [_FIXTURE_PLANNER_KIND; _ORCHESTRATOR_PLANNER_KIND] = Ok true) by (by destruct p).
  rewrite Hk. cbn [require rbind]. rewrite stored_manifest. cbn [rbind]. rewrite fact_ids.
  set (ids := map wi_work_id (work_items (any_graph p))) in *.
  assert (Hin : forall k, k ∈ sorted_str ids <-> k ∈ map wi_work_id ordered).
  { intros k. unfold sorted_str. rewrite elem_of_sorted_by. unfold ids. by rewrite Hperm. }
  assert (H1 : forallb (fun o => match o with Some k => mem k (sorted_str ids) | None => false end)
    (map (fun w => Some (wi_work_id w)) ordered) = true).
  { apply forallb_forall. intros o Ho. apply in_map_iff in Ho as (w & <- & Hw). apply mem_spec, Hin.
    apply (list_elem_of_fmap_2 wi_work_id). by apply list_elem_of_In. }
  assert (H2 : forallb (fun k => bool_decide (Some k ∈ map (fun w => Some (wi_work_id w)) ordered)) (sorted_str ids) = true).
  { apply forallb_forall. intros k Hk'. apply bool_decide_eq_true. apply list_elem_of_In, Hin, list_elem_of_fmap in Hk' as (w & -> & Hw).
    by apply (list_elem_of_fmap_2 (fun w => Some (wi_work_id w))). }
  assert (H3 : Nat.eqb (length (map (fun w => Some (wi_work_id w)) ordered)) (length (sorted_str ids)) = true).
  { apply Nat.eqb_eq. unfold sorted_str. rewrite (Permutation_length (sorted_by_perm id ids)). unfold ids. rewrite !length_map.
    by apply Permutation_length. }
  rewrite H1, H2, H3. cbn [andb require rbind]. rewrite !get_stored.
  change (norm (get "plan_digest" meta)) with (JStr d). change (norm (get "mission_id" meta)) with (JStr m).
  cbn [py_eq]. rewrite !String.eqb_refl. cbn [andb require rbind]. unfold stored_group. done.
Qed.
End stored_group.

(** ** The latest plan of a mission *)

Lemma insert_group_last x l g : latest_sequence x <= latest_sequence g -> exists l', insert_group x (l ++ [g]) = l' ++ [g].
Proof.
  intros Hle. induction l as [|h l IH]; cbn.
  - rewrite (proj2 (Z.leb_le _ _) Hle). by exists [x].
  - destruct (latest_sequence x <=? latest_sequence h); [by exists (x :: h :: l)|]. destruct IH as [l' ->]. by exists (h :: l').
Qed.

Lemma mission_groups_last groups m d g : (forall k x, (k, x) ∈ groups -> latest_sequence x <= latest_sequence g) ->
  last (_mission_plan_groups (groups ++ [((m, d), g)]) m) = Some g.
Proof.
  intros H. unfold _mission_plan_groups. rewrite List.filter_app, map_app, foldr_app. cbn [List.filter fst snd].
  rewrite String.eqb_refl. cbn [map foldr insert_group snd].
  set (l := map snd (List.filter _ groups)). assert (Hl : forall x, x ∈ l -> latest_sequence x <= latest_sequence g).
  { intros x Hx. apply list_elem_of_fmap in Hx as ([k y] & -> & Hin). apply list_elem_of_In, filter_In in Hin as [Hin _].
    apply (H k). by apply list_elem_of_In. }
  clearbody l. assert (exists l', foldr insert_group [g] l = l' ++ [g]) as [l' ->]; [|by rewrite last_snoc].
  induction l as [|x l IH]; [by exists []|]. destruct IH as [l' E]; [intros y Hy; apply Hl; by right|]. cbn. rewrite E.
  apply insert_group_last. apply Hl. by left.
Qed.

Lemma group_add_elem k r l k' rs : (k', rs) ∈ group_add k r l -> forall x, x ∈ rs -> x = r \/ exists rs', (k', rs') ∈ l /\ x ∈ rs'.
Proof.
  induction l as [|[k1 rs1] l IH]; cbn; intros H x Hx.
  - apply list_elem_of_singleton in H. injection H as -> ->. apply list_elem_of_singleton in Hx as ->. by left.
  - case_bool_decide.
    + apply elem_of_cons in H as [[= -> ->]|H]; [|right; exists rs; split; [by right|done]].
      apply elem_of_app in Hx as [Hx|Hx]; [right; exists rs1; split; [by left|done]|].
      apply list_elem_of_singleton in Hx as ->. by left.
    + apply elem_of_cons in H as [[= -> ->]|H]; [right; exists rs1; split; [by left|done]|].
      destruct (IH H x Hx) as [->|(rs' & Hin & Hx')]; [by left|]. right. exists rs'. split; [by right|done].
Qed.

Lemma group_records_sub events k rs x : (k, rs) ∈ group_records events -> x ∈ rs -> x ∈ events.
Proof.
  unfold group_records. cut (forall acc, (forall k' rs' y, (k', rs') ∈ acc -> y ∈ rs' -> y ∈ events) -> forall l, l ⊆ events ->
    (k, rs) ∈ fold_left group_step l acc -> x ∈ rs -> x ∈ events).
  { intros G. apply G; [|done]. intros k' rs' y Hn. by apply elem_of_nil in Hn. }
  intros acc Hacc l. revert acc Hacc. induction l as [|r l IH]; intros acc Hacc Hl H Hx; cbn in H; [by eapply Hacc|].
  eapply (IH (group_step acc r)); [|set_solver|done|done]. intros k' rs' y Hin Hy. unfold group_step in Hin.
  destruct (record_plan r) as [km|]; [|by eapply Hacc]. destruct (group_add_elem _ _ _ _ _ Hin y Hy) as [->|(rs2 & H1 & H2)];
    [apply Hl; by left|by eapply Hacc].
Qed.

Lemma make_group_rows kr g : make_group kr = Ok g -> rows g = kr.2.
Proof.
  destruct kr as [[m d] rs]. unfold make_group. destruct rs as [|r rs]; [done|]. destruct (get "plan" _); try done. intros H.
  take_guard H H1. take_ok H k H2. take_guard H H3. take_ok H ids H4. take_guard H H5. take_guard H H6. by injection H as <-.
Qed.

Lemma group_rows_sub events groups k g r : _durable_plan_groups events = Ok groups -> (k, g) ∈ groups -> r ∈ rows g -> r ∈ events.
Proof.
  intros H Hin Hr. apply (map_result_elem _ _ _ _ H) in Hin as ([k' rs] & Hin & E). take_ok E g' Eg. injection E as -> ->.
  apply make_group_rows in Eg. cbn in Eg. rewrite Eg in Hr. by eapply group_records_sub.
Qed.

Lemma latest_bound g n : 0 <= n -> (forall r, r ∈ rows g -> sequence r.1 <= n) -> latest_sequence g <= n.
Proof.
  intros Hn H. unfold latest_sequence. destruct (rows g) as [|r rs]; [done|].
  assert (Hr : sequence r.1 <= n) by (apply H; by left). assert (Hrs : forall x, x ∈ rs -> sequence x.1 <= n) by (intros; apply H; by right).
  clear H. revert Hr. generalize (sequence r.1) as a. induction rs as [|x rs IH]; intros a Ha; cbn; [done|].
  apply IH; [intros y Hy; apply Hrs; by right|]. specialize (Hrs x ltac:(by left)). lia.
Qed.

Lemma latest_ge g r : r ∈ rows g -> sequence r.1 <= latest_sequence g.
Proof.
  unfold latest_sequence. destruct (rows g) as [|r0 rs]; intros H; [by apply elem_of_nil in H|].
  assert (G : forall l a, a <= fold_left (fun n x => Z.max n (sequence x.1)) l a
    /\ forall x : record, x ∈ l -> sequence x.1 <= fold_left (fun n x => Z.max n (sequence x.1)) l a).
  { induction l as [|x l IH]; intros a; cbn; [split; [done|]; intros y Hy; by apply elem_of_nil in Hy|].
    destruct (IH (Z.max a (sequence x.1))) as [I1 I2]. split; [lia|]. intros y Hy. apply elem_of_cons in Hy as [->|Hy]; [lia|auto]. }
  apply elem_of_cons in H as [->|H]; [exact (proj1 (G rs (sequence r0.1)))|exact (proj2 (G rs (sequence r0.1)) r H)].
Qed.

(** ** Rebuilding the graph *)

Lemma to_document_keys w : NoDup (work_item_to_document w).*1.
Proof. exact work_item_fields_NoDup. Qed.

Lemma stored_members_item w : exists d, norm (JObj (work_item_to_document w)) = JObj d
  /\ forall k, get k d = norm (get k (work_item_to_document w)).
Proof.
  destruct (norm_obj_members (work_item_to_document w)) as (d & E & _). exists d. split; [done|].
  by destruct (stored_members (work_item_to_document w) d (to_document_keys w) E).
Qed.

(** What reading a stored item gives: the item, when its scopes are in the
    portable format, and a [ValueError] otherwise. *)
Lemma stored_document_reads w : check_work_item w = Ok w ->
  if portable_scope w then work_item_from_document (norm (JObj (work_item_to_document w))) = Ok (norm_item w)
  else exists m, work_item_from_document (norm (JObj (work_item_to_document w))) = raise ValueError m.
Proof.
  intros H. destruct (stored_members_item w) as (d & E & Hg). rewrite E. destruct (portable_scope w) eqn:Hp.
  - eapply stored_item_reads_back; [apply to_document_keys|by apply own_document_reads|done].
  - apply (scope_refused d w); [|done]. rewrite Hg. apply norm_strs.
Qed.

Lemma forallb_perm {A} (p : A -> bool) l l' : l ≡ₚ l' -> forallb p l = forallb p l'.
Proof. induction 1 as [|x l l' _ IH|x y l|l l' l'' _ IH1 _ IH2]; cbn; [done|by rewrite IH|by destruct (p x), (p y)|congruence]. Qed.

Lemma read_stored items : (forall w, w ∈ items -> check_work_item w = Ok w) ->
  if forallb portable_scope items
  then map_result work_item_from_document (map (fun w => norm (JObj (work_item_to_document w))) items) = Ok (map norm_item items)
  else exists m, map_result work_item_from_document (map (fun w => norm (JObj (work_item_to_document w))) items) = raise ValueError m.
Proof.
  induction items as [|w items IH]; intros H; [done|]. cbn [forallb map map_result].
  assert (Hw := stored_document_reads w (H w ltac:(by left))). assert (Hrest := IH ltac:(intros v Hv; apply H; by right)).
  destruct (portable_scope w); [|destruct Hw as [m ->]; by exists m]. rewrite Hw. cbn [andb rbind].
  destruct (forallb portable_scope items); [by rewrite Hrest|]. destruct Hrest as [m ->]. by exists m.
Qed.

Lemma collect_documents_facts p d meta ordered facts docs : Forall2 (work_fact p d meta) ordered facts ->
  NoDup (docs.*1 ++ map wi_work_id ordered) ->
  rfold document_step docs facts
  = Ok (docs ++ map (fun w => (wi_work_id w, norm (JObj (work_item_to_document w)))) ordered).
Proof.
  intros H. revert docs. induction H as [|w r ordered facts Hf _ IH]; intros docs Hn; cbn [rfold]; [by rewrite app_nil_r|].
  unfold document_step at 1. rewrite (wf_item _ _ _ _ _ Hf), (wf_work _ _ _ _ _ Hf). cbn [norm default from_option].
  assert (Hk : wi_work_id w ∉ docs.*1).
  { intros Hin. apply NoDup_app in Hn as (_ & Hn & _). apply (Hn _ Hin). by left. }
  assert (Hh : has (wi_work_id w) docs = false) by (apply not_true_iff_false; by rewrite has_elem).
  unfold id. rewrite Hh. cbn [negb require rbind]. rewrite dict_set_fresh by done. rewrite IH.
  - by rewrite <- app_assoc.
  - rewrite fmap_app. cbn. rewrite <- app_assoc. exact Hn.
Qed.

(** Identifiers in order are the identifiers of the items in order. *)
Lemma insert_by_map x l : map wi_work_id (insert_by wi_work_id x l) = insert_by id (wi_work_id x) (map wi_work_id l).
Proof. induction l as [|y l IH]; cbn; [done|]. unfold id. destruct (String.leb _ _); cbn; [done|]. f_equal. exact IH. Qed.
Lemma sorted_ids items : sorted_str (map wi_work_id items) = map wi_work_id (sorted_by wi_work_id items).
Proof. unfold sorted_str. induction items as [|w l IH]; cbn; [done|]. by rewrite IH, insert_by_map. Qed.

Lemma order_perm g lim ordered : graph_limits (charter g) None = Ok lim -> g = graph_of (charter g) lim (work_items g) ->
  graph_ok (charter g) lim (work_items g) -> ordered_items g = Ok ordered -> ordered ≡ₚ work_items g.
Proof.
  intros Hlim Hg Hok Hord. assert (Hb : build_graph (charter g) (work_items g) None = Ok g) by (apply build_graph_iff; exists lim; done).
  destruct (accepted_order _ _ _ _ Hb) as (l & E & Hp & _). rewrite Hord in E. by injection E as ->.
Qed.

Section rebuilding.
Context (p : any_plan) (d gd : string) (n : Z) (t : totals) (ordered : list WorkItem) (facts : list record) (lim : PlanLimits).
Notation c := (charter (any_graph p)).
Notation items := (work_items (any_graph p)).
Notation meta := (_plan_metadata p d gd n t).
Context (Hfacts : Forall2 (work_fact p d meta) ordered facts).
Context (Hlim : graph_limits c None = Ok lim) (Hg : any_graph p = graph_of c lim items) (Hok : graph_ok c lim items).
Context (Hord : ordered_items (any_graph p) = Ok ordered) (Hgd : graph_digest (any_graph p) = Ok gd).
Context (Hread : forall w, w ∈ items -> check_work_item w = Ok w).

Definition rebuilt_graph : ObjectiveGraph := graph_of c lim (map norm_item (sorted_by wi_work_id items)).

Lemma ordered_perm : ordered ≡ₚ items.
Proof. by apply (order_perm (any_graph p) lim). Qed.

Lemma collected : collect_documents facts = Ok (map (fun w => (wi_work_id w, norm (JObj (work_item_to_document w)))) ordered).
Proof.
  unfold collect_documents. rewrite (collect_documents_facts p d meta ordered facts []); [done|done|]. cbn.
  rewrite ordered_perm. apply Hok.
Qed.

Lemma sorted_graph_ok : graph_ok c lim (sorted_by wi_work_id items).
Proof. eapply graph_ok_perm; [symmetry; apply sorted_by_perm|exact Hok]. Qed.

Lemma rebuilt_digest : graph_digest rebuilt_graph = Ok gd.
Proof.
  unfold rebuilt_graph. rewrite graph_digest_norm by apply sorted_graph_ok. unfold graph_digest.
  rewrite <- (ordered_items_perm c lim items) by (apply Hok || (symmetry; apply sorted_by_perm)).
  unfold graph_digest in Hgd. rewrite Hg in Hgd. exact Hgd.
Qed.

(** The stored documents, in the order of the manifest. *)
Lemma stored_documents :
  map (fun k => get k (map (fun w => (wi_work_id w, norm (JObj (work_item_to_document w)))) ordered))
    (sorted_str (map wi_work_id items))
  = map (fun w => norm (JObj (work_item_to_document w))) (sorted_by wi_work_id items).
Proof.
  rewrite sorted_ids, List.map_map. apply map_ext_in. intros w Hw. apply list_elem_of_In, elem_of_sorted_by in Hw.
  set (documents := map _ ordered). assert (Hkeys : documents.*1 = map wi_work_id ordered) by (unfold documents; by rewrite <- list_fmap_compose).
  assert (Hnd : NoDup documents.*1) by (rewrite Hkeys, ordered_perm; apply Hok). unfold get.
  rewrite (lookup_key_NoDup _ (norm (JObj (work_item_to_document w)))); [done|done|].
  apply (list_elem_of_fmap_2 (fun w => (wi_work_id w, norm (JObj (work_item_to_document w))))). by rewrite ordered_perm.
Qed.

(** Reading the graph back: every check of the stored plan passes but, maybe,
    the schema's on the scopes. *)
Lemma rebuild_graph :
  if forallb portable_scope items then _graph_for_group c (stored_group p d gd n t facts) = Ok rebuilt_graph
  else exists m, _graph_for_group c (stored_group p d gd n t facts) = raise ValueError m.
Proof.
  unfold _graph_for_group. cbn [stored_group dg_mission_id metadata rows]. rewrite String.eqb_refl. cbn [require rbind].
  rewrite get_stored. change (norm (get "charter_digest" meta)) with (JStr (charter_digest c)). cbn [py_eq]. rewrite String.eqb_refl.
  cbn [require rbind]. rewrite collected. cbn [rbind]. unfold work_ids. cbn [stored_group metadata].
  rewrite (stored_manifest p d gd n t) by apply Hok. cbn [rbind]. rewrite stored_documents.
  assert (Hsame : same_ids (map (fun w => (wi_work_id w, norm (JObj (work_item_to_document w)))) ordered).*1
    (sorted_str (map wi_work_id items)) = true).
  { rewrite <- list_fmap_compose. change (list_fmap _ _ _ ordered) with (map wi_work_id ordered).
    unfold same_ids, sorted_str. rewrite andb_true_iff, !subset_spec. split; intros k; rewrite elem_of_sorted_by, ordered_perm; done. }
  rewrite Hsame. cbn [require rbind]. unfold graph_from_documents.
  assert (Hr := read_stored (sorted_by wi_work_id items) ltac:(intros w Hw; apply elem_of_sorted_by in Hw; by apply Hread)).
  assert (Hs : forallb portable_scope (sorted_by wi_work_id items) = forallb portable_scope items)
    by (apply forallb_perm, sorted_by_perm).
  rewrite Hs in Hr. destruct (forallb portable_scope items); [|destruct Hr as [m ->]; by exists m]. rewrite Hr. cbn [rbind].
  rewrite (proj2 (build_graph_iff c (map norm_item (sorted_by wi_work_id items)) None rebuilt_graph)).
  - cbn [rbind]. rewrite rebuilt_digest. cbn [rbind]. rewrite get_stored.
    change (norm (get "graph_digest" meta)) with (JStr gd). cbn [py_eq]. by rewrite String.eqb_refl.
  - exists lim. split; [done|]. split; [done|]. apply graph_ok_norm, sorted_graph_ok.
Qed.

End rebuilding.

(** ** Rebuilding the plan *)

Definition checked_schedule (sc : WorkSchedule) : Prop := check_schedule sc = Ok sc /\ check_budget (sc_budget sc) = Ok tt.

Lemma stored_schedule_reads sc : checked_schedule sc -> exists d, norm (JObj (schedule_to_document sc)) = JObj d /\ schedule_from_document d = Ok sc.
Proof.
  intros [H1 H2]. destruct (norm_obj_members (schedule_to_document sc)) as (l & E & _). exists l. split; [done|].
  by eapply schedule_reads_back.
Qed.

Lemma collect_schedules_facts o d meta ordered facts found : Forall2 (work_fact (Orchestration o) d meta) ordered facts ->
  (forall sc, sc ∈ schedules o -> checked_schedule sc) -> NoDup (found.*1 ++ map wi_work_id ordered) ->
  exists more, rfold schedule_step found facts = Ok (found ++ more) /\ more.*1 = map wi_work_id ordered
    /\ forall k sc, (k, sc) ∈ more -> sc ∈ schedules o /\ sc_work_id sc = k.
Proof.
  intros H Hc. revert found. induction H as [|w r ordered facts Hf _ IH]; intros found Hn; cbn [rfold].
  - exists []. rewrite app_nil_r. split; [done|]. split; [done|]. intros k sc Hin. by apply elem_of_nil in Hin.
  - destruct (wf_schedule _ _ _ _ _ Hf o eq_refl) as (sc & Hsc & Hid & E).
    destruct (stored_schedule_reads sc (Hc sc Hsc)) as (ds & En & Er). unfold schedule_step at 1. rewrite E, En, Er. cbn [rbind].
    assert (Hk : sc_work_id sc ∉ found.*1).
    { rewrite Hid. intros Hin. apply NoDup_app in Hn as (_ & Hn & _). apply (Hn _ Hin). by left. }
    rewrite (proj2 (lookup_key_not_in _ _) Hk). rewrite bool_decide_eq_false_2 by (by intros [? ?]). cbn [negb require rbind].
    rewrite dict_set_fresh by done. destruct (IH (found ++ [(sc_work_id sc, sc)])) as (more & Em & Hm & Hs).
    { rewrite fmap_app. cbn. rewrite <- app_assoc, Hid. exact Hn. }
    exists ((sc_work_id sc, sc) :: more). rewrite Em, <- app_assoc. split; [done|]. split; [cbn; by rewrite Hm, Hid|].
    intros k s0 Hin. apply elem_of_cons in Hin as [[= -> ->]|Hin]; auto.
Qed.

(** The plan as it is rebuilt: its graph in canonical form, everything else as
    it was. *)
Definition rebuilt_plan (o : OrchestrationPlan) (g : ObjectiveGraph) : OrchestrationPlan :=
  {| plan_graph := g; schedules := schedules o; replaces_digest := replaces_digest o; replan_reason := replan_reason o;
     replan_evidence_refs := replan_evidence_refs o |}.

Lemma rebuilt_plan_ok o lim : plan_ok o -> plan_ok (rebuilt_plan o (rebuilt_graph (Orchestration o) lim)).
Proof.
  intros [H1 H2 H3 H4 H5 H6 H7]. split; cbn [rebuilt_plan plan_graph schedules replaces_digest replan_reason replan_evidence_refs]; try done.
  - etrans; [exact H1|]. unfold rebuilt_graph. change (work_items (graph_of ?c ?l ?x)) with x. rewrite norm_item_ids.
    symmetry. apply Permutation_map, sorted_by_perm.
  - intros w sc Hw Hsc Hid. unfold rebuilt_graph in Hw. change (work_items (graph_of ?c ?l ?x)) with x in Hw.
    apply norm_elem in Hw as (v & Hv & ->). apply elem_of_sorted_by in Hv. exact (H2 v sc Hv Hsc Hid).
Qed.

Lemma rebuilt_plan_digest o lim gd : graph_ok (charter (plan_graph o)) lim (work_items (plan_graph o)) ->
  plan_graph o = graph_of (charter (plan_graph o)) lim (work_items (plan_graph o)) -> graph_digest (plan_graph o) = Ok gd ->
  plan_digest (rebuilt_plan o (rebuilt_graph (Orchestration o) lim)) = plan_digest o.
Proof.
  intros Hok Hg Hgd. set (c := charter (plan_graph o)) in *. set (items := work_items (plan_graph o)) in *.
  unfold plan_digest, plan_to_document. cbn [rebuilt_plan plan_graph schedules replaces_digest replan_reason replan_evidence_refs].
  assert (Hs : graph_ok c lim (sorted_by wi_work_id items)) by (eapply graph_ok_perm; [symmetry; apply sorted_by_perm|exact Hok]).
  assert (Ho : ordered_items (rebuilt_graph (Orchestration o) lim) = norm_order (ordered_items (plan_graph o))).
  { unfold rebuilt_graph. cbn [any_graph]. fold c items. rewrite ordered_items_norm by apply Hs.
    rewrite <- (ordered_items_perm c lim items) by (apply Hok || (symmetry; apply sorted_by_perm)). by rewrite <- Hg. }
  rewrite (rebuilt_digest (Orchestration o) gd lim) by done. rewrite Hgd, Ho. cbn [rbind].
  destruct (ordered_items (plan_graph o)) as [l|]; [|done]. cbn [norm_order rbind]. apply (f_equal Ok), dumps_norm, norm_obj_ext.
  cbn [map fst snd]. rewrite norm_items_list. reflexivity.
Qed.

(** ** The stored plan *)

(** What the planner is given has been constructed and can be written down. *)
Record storable (p : any_plan) : Prop := {
  st_graph : exists lim, graph_limits (charter (any_graph p)) None = Ok lim
    /\ any_graph p = graph_of (charter (any_graph p)) lim (work_items (any_graph p))
    /\ graph_ok (charter (any_graph p)) lim (work_items (any_graph p));
  st_context : forall w, w ∈ work_items (any_graph p) -> json_wf (JObj (context_request w)) = true }.

Lemma item_document_wf w : json_wf (JObj (context_request w)) = true -> json_wf (JObj (work_item_to_document w)) = true.
Proof.
  intros Hc. change (distinct (map fst (work_item_to_document w)) && forallb (fun kv => json_wf kv.2) (work_item_to_document w) = true).
  apply andb_true_iff. split; [apply bool_decide_eq_true, to_document_keys|]. unfold work_item_to_document.
  cbn [forallb snd]. rewrite !strs_wf, Hc. by destruct (parent_work_id w).
Qed.

Lemma schedule_document_wf sc : json_wf (JObj (schedule_to_document sc)) = true.
Proof.
  change (distinct (map fst (schedule_to_document sc)) && forallb (fun kv => json_wf kv.2) (schedule_to_document sc) = true).
  apply andb_true_iff. split; [vm_compute; reflexivity|]. cbn [schedule_to_document forallb snd]. rewrite !strs_wf. vm_compute. reflexivity.
Qed.

Lemma created_payload_wf p d gd n t w body : json_wf (JObj (context_request w)) = true ->
  created_payload p d (_plan_metadata p d gd n t) w = Ok body -> json_wf (JObj body) = true.
Proof.
  intros Hc H. apply item_document_wf in Hc. assert (Hm := meta_wf p d gd n t).
  assert (Hk := pm_keys _ _ _ _ _ (created_payload_members _ _ _ _ _ H)).
  change (distinct (map fst body) && forallb (fun kv => json_wf kv.2) body = true). apply andb_true_iff.
  split; [by apply bool_decide_eq_true|]. clear Hk. unfold created_payload in H. destruct p as [f|o].
  - injection H as <-. cbn [forallb snd]. by rewrite Hm, Hc.
  - destruct (lookup_key _ _) as [sc|]; [|done]. injection H as <-. destruct (replaces_digest o) as [from|]; cbn [forallb app snd];
      rewrite Hm, Hc, schedule_document_wf; [|done].
    change (json_wf (JObj [("from_plan_digest", JStr from); ?a; ?b])) with (json_wf a.2 && (json_wf b.2 && true)). cbn [snd].
    rewrite strs_wf. by destruct (replan_reason o).
Qed.

(** The store after a plan was appended: its events, and the group of the plan
    behind all others. *)
Record appended (s : store) (p : any_plan) (s' : store) (events : list record) (groups : groups_type) (d gd : string)
    (n : Z) (t : totals) (ordered : list WorkItem) (facts : list record) (old : nat) : Prop := {
  ap_events : exists before, list_events s' = Ok (events ++ before ++ facts);
  ap_groups : _durable_plan_groups events = Ok groups;
  ap_new : lookup_plan (charter_mission_id (charter (any_graph p)), d) groups = None;
  ap_all : forall all, list_events s' = Ok all -> _durable_plan_groups all
    = Ok (groups ++ [((charter_mission_id (charter (any_graph p)), d), stored_group p d gd n t facts)]);
  ap_digest : any_digest p = Ok d;
  ap_graph_digest : graph_digest (any_graph p) = Ok gd;
  ap_ordered : ordered_items (any_graph p) = Ok ordered;
  ap_facts : Forall2 (work_fact p d (_plan_metadata p d gd n t)) ordered facts;
  ap_sequences : map (fun r => sequence r.1) facts
    = range_from (Z.of_nat (length (events_table s)) + Z.of_nat old + 1) (length ordered);
  ap_old : forall r, r ∈ events -> sequence r.1 <= Z.of_nat (length (events_table s)) }.

Lemma verify_rows_elem previous rs evs r : verify_rows previous rs = Ok evs -> r ∈ evs -> r.1 ∈ rs.
Proof.
  revert previous evs. induction rs as [|x rs IH]; cbn; intros previous evs H Hr; [injection H as <-; by apply elem_of_nil in Hr|].
  take_ok H e Ee. take_ok H rest Er. injection H as <-. apply elem_of_cons in Hr as [->|Hr]; [by left|right; by eapply IH].
Qed.

Lemma sequence_bound s r : store_ok s -> r ∈ events_table s -> sequence r <= Z.of_nat (length (events_table s)).
Proof.
  intros Hok Hr. assert (Hs : sequence r ∈ map sequence (events_table s)) by (by apply (list_elem_of_fmap_2 sequence)).
  rewrite (ok_sequence s Hok) in Hs. apply list_elem_of_In, in_map_iff in Hs as (i & <- & Hi). apply in_seq in Hi. lia.
Qed.

Lemma plan_appended s p recorded seqs s' : store_ok s -> storable p -> persist_plan p recorded s = (Ok seqs, s') ->
  events_table s' <> events_table s ->
  exists events groups d gd n t ordered facts old, appended s p s' events groups d gd n t ordered facts old
    /\ seqs = map (fun r => sequence r.1) facts.
Proof.
  intros Hok [(lim & Hlim & Hg & Hgok) Hctx] H Hch. apply persist_plan_outcome in H as [[-> _]|(batch & events & Hprep & r' & Ha & Hr)]; [done|].
  destruct r' as [seqs'|e]; [|done]. injection Hr as ->. destruct (prepare_new _ _ _ _ Hprep) as [P].
  apply append_batch_outcome in Ha. inversion Ha as [| | |keys ms ws st Hne Hnd Hkd Hro Hi Hreb]; subst; try done.
  destruct P as [groups d gd ordered prior n res st0 Hev Hgr Hd Hnew Hproj Hstat Hpred Hbud Hfresh Hgd Hord Hbatch].
  apply plan_batch_ok in Hbatch as (old & new & -> & Hold & Hnewb & Hwf).
  assert (Hperm : ordered ≡ₚ work_items (any_graph p)) by (by apply (order_perm (any_graph p) lim)).
  assert (Hw : Forall (fun b => event_wf b.1 = true) (old ++ new)).
  { apply Forall_app. split; [eapply Forall_impl; [exact Hold|]; by intros b [_ Hb]|]. apply Hwf, Forall_forall.
    intros w Hw body Hb. eapply created_payload_wf; [|exact Hb]. apply Hctx. by rewrite <- Hperm. }
  assert (Hchain := insert_batch_chained _ _ _ _ _ _ _ Hi).
  destruct (batch_records p d _ ordered old new recorded (head_of s).1 (head_of s).2 Hold Hnewb) as (before & facts & Erec & Hbef & Hf & Hseq).
  assert (Hlist : verify_rows None (events_table s ++ batch_rows recorded (head_of s).1 (head_of s).2 (old ++ new)) = Ok (events ++ before ++ facts)).
  { rewrite verify_rows_app. unfold list_events in Hev. rewrite Hev. cbn [rbind].
    assert (Hhead : match last (events_table s) with Some r => Some (digest r) | None => None end = (head_of s).2)
      by (unfold head_of; by destruct (last (events_table s))).
    rewrite Hhead, verify_batch, Erec by done. done. }
  rewrite (head_of_ok s Hok) in Hseq.
  exists events, groups, d, gd, n, (add_totals res (any_totals p)), ordered, facts, (length old). split; [split; try done|].
  - exists before. exact Hlist.
  - intros all Hall. unfold list_events in Hall. cbn in Hall. rewrite Hlist in Hall. injection Hall as <-.
    apply groups_appended; [done|by apply lookup_plan_none|done| | |].
    + intros ->. apply Forall2_nil_inv_r in Hf as ->. apply Permutation_nil_l in Hperm. by apply (go_some _ _ _ Hgok).
    + apply Forall_forall. intros r Hin. destruct (fact_of _ _ _ _ _ _ _ Hf r Hin) as (w & _ & Hwr).
      exists (norm_payload (_plan_metadata p d gd n (add_totals res (any_totals p)))). by apply work_fact_plan in Hwr.
    + eapply stored_group_made; [exact Hf| |done|apply Hgok]. intros ->. apply Permutation_nil_l in Hperm.
      by apply (go_some _ _ _ Hgok).
  - intros r Hin. eapply verify_rows_elem in Hin; [|exact Hev]. by apply sequence_bound.
  - cbn [length]. rewrite (head_of_ok s Hok), Hseq.
    rewrite length_app, range_from_app. unfold last_n. rewrite length_app, !range_from_length.
    rewrite (Forall2_length _ _ _ Hnewb), <- (Permutation_length Hperm), (Forall2_length _ _ _ Hnewb).
    replace (length old + length new - length new)%nat with (length old) by lia. rewrite drop_app_length'; [f_equal; lia|].
    by rewrite range_from_length.
Qed.

(** ** Reading a stored plan *)

(** Records found under the keys of all the schedules are all the schedules. *)
Lemma found_ids (l : list (string * WorkSchedule)) (P : WorkSchedule -> Prop) :
  (forall k sc, (k, sc) ∈ l -> P sc /\ sc_work_id sc = k) -> map sc_work_id (map snd l) = l.*1.
Proof.
  induction l as [|[k sc] l IH]; intros H; [done|]. cbn. f_equal; [apply (H k sc); by left|].
  apply IH. intros k' sc' Hin. apply H. by right.
Qed.

Lemma same_keys_perm (key : WorkSchedule -> string) (l : list (string * WorkSchedule)) l' :
  map key (map snd l) = l.*1 -> (forall k sc, (k, sc) ∈ l -> sc ∈ l' /\ key sc = k) -> l.*1 ≡ₚ map key l' -> NoDup l.*1 ->
  map snd l ≡ₚ l'.
Proof.
  intros Hids Hin Hp Hn. assert (Hn' : NoDup (map key l')) by (by rewrite <- Hp). rewrite <- Hids in Hn.
  assert (Hsub : forall sc, sc ∈ map snd l -> sc ∈ l').
  { intros sc H. apply list_elem_of_fmap in H as ([k sc'] & -> & H). by apply (Hin k). }
  apply NoDup_Permutation; [by eapply NoDup_fmap_1|by eapply NoDup_fmap_1|]. intros sc. split; [apply Hsub|]. intros H.
  assert (Hi : key sc ∈ map key (map snd l)) by (rewrite Hids, Hp; by apply (list_elem_of_fmap_2 key)).
  apply list_elem_of_fmap in Hi as (sc' & Hid & Hin'). by rewrite (same_key key l' sc sc' Hn' H (Hsub _ Hin') Hid).
Qed.

Lemma latest_is_plan s p s' events groups d gd n t ordered facts old : storable p -> 
  appended s p s' events groups d gd n t ordered facts old ->
  forall all, list_events s' = Ok all ->
  _latest_group_for_mission (charter_mission_id (charter (any_graph p))) all = Ok (stored_group p d gd n t facts).
Proof.
  intros [(lim & Hlim & Hg & Hgok) _] [_ Hgr _ Hall _ _ Hord Hf Hseq Hold] all Ea. unfold _latest_group_for_mission.
  rewrite (Hall all Ea). cbn [rbind]. rewrite mission_groups_last; [done|]. intros k x Hx.
  assert (Hp := order_perm _ _ _ Hlim Hg Hgok Hord). transitivity (Z.of_nat (length (events_table s))).
  - apply latest_bound; [lia|]. intros r Hr. apply Hold. by eapply group_rows_sub.
  - destruct facts as [|r0 rs]; [apply Forall2_nil_inv_r in Hf as ->; apply Permutation_nil_l in Hp; by destruct (go_some _ _ _ Hgok)|].
    etrans; [|apply (latest_ge _ r0); by left]. destruct ordered as [|w ws]; [by inversion Hf|]. cbn [length map] in Hseq.
    rewrite range_from_S in Hseq. injection Hseq as Hseq _. rewrite Hseq. lia.
Qed.

(** What rehydrating a plan must give back. *)
Record same_plan (o o' : OrchestrationPlan) : Prop := {
  sp_digest : plan_digest o' = plan_digest o;
  sp_graph_digest : graph_digest (plan_graph o') = graph_digest (plan_graph o);
  sp_schedules : schedules o' = schedules o;
  sp_replaces : replaces_digest o' = replaces_digest o;
  sp_reason : replan_reason o' = replan_reason o;
  sp_evidence : replan_evidence_refs o' = replan_evidence_refs o;
  sp_items : work_items (plan_graph o') = map norm_item (sorted_by wi_work_id (work_items (plan_graph o))) }.

(** The plan constructor accepts the rebuilt graph and schedules. *)
Lemma rebuilt_plan_made o g' lim given : g' = rebuilt_graph (Orchestration o) lim -> plan_ok o ->
  graph_ok (charter (plan_graph o)) lim (work_items (plan_graph o)) -> given ≡ₚ schedules o ->
  plan_of g' given (opt_str (replaces_digest o)) (opt_str (replan_reason o)) (map JStr (replan_evidence_refs o))
  = Ok (rebuilt_plan o g').
Proof.
  intros -> Hpok Hgok Hfound. apply (plan_of_complete (rebuilt_plan o (rebuilt_graph (Orchestration o) lim)) given); [|by apply rebuilt_plan_ok|done].
  cbn [rebuilt_plan plan_graph].
  change (work_items (rebuilt_graph (Orchestration o) lim)) with (map norm_item (sorted_by wi_work_id (work_items (plan_graph o)))).
  rewrite norm_item_ids.
  assert (Hsp : map wi_work_id (sorted_by wi_work_id (work_items (plan_graph o))) ≡ₚ map wi_work_id (work_items (plan_graph o)))
    by (apply Permutation_map, sorted_by_perm). rewrite Hsp. apply Hgok.
Qed.

(** Reading the latest plan: the schema on the scopes decides. *)
Lemma read_latest s o s' evs groups d gd n t ordered facts old lim :
  appended s (Orchestration o) s' evs groups d gd n t ordered facts old -> storable (Orchestration o) ->
  graph_limits (charter (plan_graph o)) None = Ok lim ->
  plan_graph o = graph_of (charter (plan_graph o)) lim (work_items (plan_graph o)) ->
  graph_ok (charter (plan_graph o)) lim (work_items (plan_graph o)) ->
  (forall w, w ∈ work_items (plan_graph o) -> check_work_item w = Ok w) -> plan_ok o ->
  forall all, list_events s' = Ok all -> (forall sc, sc ∈ schedules o -> checked_schedule sc) ->
  if forallb portable_scope (work_items (plan_graph o))
  then exists o', orchestration_plan_from_events (charter (plan_graph o)) all = Ok o' /\ same_plan o o'
  else exists m, orchestration_plan_from_events (charter (plan_graph o)) all = raise ValueError m.
Proof.
  intros Happ Hst Hlim Hg Hgok Hitems Hpok all Hev Hsch.
  assert (Hlatest := latest_is_plan _ _ _ _ _ _ _ _ _ _ _ _ Hst Happ all Hev).
  destruct Happ as [_ _ _ _ Hd Hgd Hord Hf _ _]. cbn [any_graph any_digest] in *.
  set (p := Orchestration o) in *. assert (Hperm := order_perm _ _ _ Hlim Hg Hgok Hord).
  unfold orchestration_plan_from_events. rewrite Hlatest. cbn [rbind].
  change (planner_kind (stored_group p d gd n t facts)) with _ORCHESTRATOR_PLANNER_KIND. rewrite String.eqb_refl.
  cbn [require rbind].
  assert (Hgraph := rebuild_graph p d gd n t ordered facts lim Hf Hlim Hg Hgok Hord Hgd Hitems). cbn [p any_graph] in Hgraph. fold p in Hgraph.
  destruct (forallb portable_scope (work_items (plan_graph o))); [|destruct Hgraph as [m ->]; by exists m].
  rewrite Hgraph. cbn [rbind]. set (g' := rebuilt_graph p lim) in *. set (o' := rebuilt_plan o g').
  assert (Hdig : plan_digest o' = plan_digest o) by (by apply (rebuilt_plan_digest o lim gd)).
  assert (Hgdig : graph_digest g' = Ok gd) by (by apply (rebuilt_digest p gd lim)).
  exists o'. split; [|split; try done; by rewrite Hgd].
  change (rows (stored_group p d gd n t facts)) with facts. unfold collect_schedules.
  destruct (collect_schedules_facts o d _ ordered facts [] Hf Hsch) as (found & Ef & Hk & Hfs).
  { cbn. rewrite Hperm. apply Hgok. }
  cbn [app] in Ef. rewrite Ef. cbn [rbind]. unfold work_ids.
  change (metadata (stored_group p d gd n t facts)) with (norm_payload (_plan_metadata p d gd n t)).
  rewrite (stored_manifest p d gd n t) by apply Hgok. cbn [rbind].
  assert (Hsame : same_ids found.*1 (sorted_str (map wi_work_id (work_items (any_graph p)))) = true).
  { unfold same_ids, sorted_str. rewrite Hk, andb_true_iff, !subset_spec. split; intros k; rewrite elem_of_sorted_by, Hperm; done. }
  rewrite Hsame. cbn [require rbind]. rewrite lookup_norm_payload by apply plan_metadata_keys.
  change (lookup_key "replan_evidence_refs" (_plan_metadata p d gd n t)) with (Some (strs (replan_evidence_refs o))). cbn [fmap option_fmap option_map].
  rewrite norm_strs. cbn [tuple_of strs rbind]. rewrite !get_stored.
  change (norm (get "replaces_digest" (_plan_metadata p d gd n t))) with (norm (opt_str (replaces_digest o))).
  change (norm (get "replan_reason" (_plan_metadata p d gd n t))) with (norm (opt_str (replan_reason o))).
  assert (Hno : forall x, norm (opt_str x) = opt_str x) by (by intros [|]). rewrite !Hno.
  assert (Hfound : map snd found ≡ₚ schedules o).
  { eapply (same_keys_perm sc_work_id); [exact (found_ids found (fun sc => sc ∈ schedules o) Hfs)|exact Hfs| |]; rewrite ?Hk, Hperm; [symmetry; apply Hpok|apply Hgok]. }
  rewrite (rebuilt_plan_made o g' lim (map snd found)) by done. cbn [rbind]. fold o'. rewrite Hdig, Hd. cbn [rbind].
  change (dg_plan_digest (stored_group p d gd n t facts)) with d. by rewrite String.eqb_refl.
Qed.

(** ** Main results *)

(** C14: persisting a plan the planner built from constructed schedules and JSON
    context requests and rebuilding it from the event store gives the plan back, whenever the write scopes of its work items are
    in the portable path format of the work item schema: after [persist_plan]
    has stored an orchestration plan, [orchestration_plan_from_events] on the
    events of the store returns a plan with the same digest, graph digest,
    schedules and replan evidence, whose work items are the planned ones, each
    with its context request in canonical order.  No earlier plan of any mission
    disturbs it.  The scopes are the only thing that can go wrong: a stored plan
    with a scope outside that format, which the item's constructor and the
    planner accept, is refused when it is read, with a [ValueError]. *)
Theorem persisted_plan_rehydrates s o recorded seqs s' :
  store_ok s -> built o ->
  (forall w, w ∈ work_items (plan_graph o) -> json_wf (JObj (context_request w)) = true) ->
  (forall sc, sc ∈ schedules o -> check_schedule sc = Ok sc) ->
  persist_plan (Orchestration o) recorded s = (Ok seqs, s') -> events_table s' <> events_table s ->
  exists events, list_events s' = Ok events /\
    ((forall w p, w ∈ work_items (plan_graph o) -> p ∈ write_scope w -> is_ok (portable_path_parts p) = true) ->
       exists o', orchestration_plan_from_events (charter (plan_graph o)) events = Ok o' /\ same_plan o o') /\
    (forall w p, w ∈ work_items (plan_graph o) -> p ∈ write_scope w -> is_ok (portable_path_parts p) = false ->
       exists m, orchestration_plan_from_events (charter (plan_graph o)) events = raise ValueError m).
Proof.
  intros Hok Hb Hctx Hsch H Hch. apply built_ok in Hb as [Hpok [(lim & Hlim & Hg & Hgok) [Hitems Hbud]]].
  assert (Hst : storable (Orchestration o)) by (split; [by exists lim|exact Hctx]).
  destruct (plan_appended s _ recorded seqs s' Hok Hst H Hch) as (evs & groups & d & gd & n & t & ordered & facts & old & Happ & _).
  assert (Hread := read_latest s o s' evs groups d gd n t ordered facts old lim Happ Hst Hlim Hg Hgok Hitems Hpok).
  destruct Happ as [(before & Hev) _ _ _ _ _ _ _ _ _]. exists (evs ++ before ++ facts). split; [done|].
  specialize (Hread _ Hev ltac:(intros sc Hsc; split; auto)). split.
  - intros Hp. assert (forallb portable_scope (work_items (plan_graph o)) = true) as E; [|by rewrite E in Hread].
    apply forallb_forall. intros w Hw. apply list_elem_of_In in Hw. apply forallb_forall. intros p Hpw.
    apply list_elem_of_In in Hpw. by apply (Hp w).
  - intros w p Hw Hpw Hbad. destruct (forallb portable_scope (work_items (plan_graph o))) eqn:E; [|done].
    apply (forallb_elem _ _ _ E) in Hw. apply (forallb_elem _ _ _ Hw) in Hpw. by rewrite Hbad in Hpw.
Qed.

(** ** Retries *)

Lemma lookup_plan_app k (groups : groups_type) g : lookup_plan k groups = None -> lookup_plan k (groups ++ [(k, g)]) = Some g.
Proof.
  unfold lookup_plan. induction groups as [|[k' x] l IH]; cbn; intros H.
  - by rewrite bool_decide_eq_true_2.
  - case_bool_decide; [done|]. by apply IH.
Qed.

Lemma lookups_perm (pairs : list (string * Z)) ids : NoDup pairs.*1 -> ids ≡ₚ pairs.*1 ->
  exists l, map_result (fun i => match lookup_key i pairs with Some n => Ok n | None => raise KeyError i end) ids = Ok l
    /\ l ≡ₚ pairs.*2.
Proof.
  intros Hn Hp. exists (map (fun i => default 0 (lookup_key i pairs)) ids). split.
  - rewrite <- (map_id ids) at 1. apply map_result_map. intros i Hi. rewrite Hp in Hi.
    destruct (lookup_key i pairs) eqn:E; [done|]. by apply lookup_key_not_in in E.
  - rewrite Hp. clear ids Hp. rewrite <- list_fmap_compose. apply Permutation_refl'. apply list_fmap_ext. intros i [k n] Hin.
    cbn. rewrite (lookup_key_NoDup k n); [done|done|]. by eapply list_elem_of_lookup_2.
Qed.

Lemma facts_by_work p d gd n t ordered facts : Forall2 (work_fact p d (_plan_metadata p d gd n t)) ordered facts ->
  NoDup (map wi_work_id ordered) ->
  (by_work (stored_group p d gd n t facts)).*1 = map wi_work_id ordered
  /\ (by_work (stored_group p d gd n t facts)).*2 = map (fun r => sequence r.1) facts.
Proof.
  intros Hf Hn. set (pairs := map (fun r : record => (default "" (row_work_id r.1), sequence r.1)) facts).
  assert (Hk : pairs.*1 = map wi_work_id ordered).
  { unfold pairs. clear Hn pairs. induction Hf as [|w r ws rs [_ _ Hw _ _ _ _] _ IH]; [done|]. cbn. rewrite Hw. cbn. by f_equal. }
  assert (E : by_work (stored_group p d gd n t facts) = pairs) by (apply dict_of_pairs_distinct; by rewrite Hk).
  rewrite E. split; [done|]. unfold pairs. by rewrite <- list_fmap_compose.
Qed.

Lemma plan_retry s p s' events groups d gd n t ordered facts old recorded : storable p ->
  appended s p s' events groups d gd n t ordered facts old ->
  exists seqs, persist_plan p recorded s' = (Ok seqs, s') /\ seqs ≡ₚ map (fun r => sequence r.1) facts.
Proof.
  intros [(lim & Hlim & Hg & Hgok) _] [(before & Hev) Hgr Hnew Hall Hd Hgd Hord Hf Hseq Hold].
  assert (Hp := order_perm _ _ _ Hlim Hg Hgok Hord). assert (Hn : NoDup (map wi_work_id ordered)) by (rewrite Hp; apply Hgok).
  destruct (facts_by_work _ _ _ _ _ _ _ Hf Hn) as [Hk Hs].
  destruct (lookups_perm (by_work (stored_group p d gd n t facts)) (sorted_str (map wi_work_id (work_items (any_graph p)))))
    as (l & El & Hl).
  { by rewrite Hk. }
  { unfold sorted_str. by rewrite sorted_by_perm, Hk, Hp. }
  exists l. split; [|by rewrite <- Hs]. unfold persist_plan. rewrite run_get, run_lift. unfold prepare_plan.
  rewrite Hev. cbn [rbind]. rewrite (Hall _ Hev). cbn [rbind]. rewrite Hd. cbn [rbind]. rewrite lookup_plan_app by done.
  cbn [_exact_plan_retry]. unfold work_ids. change (metadata (stored_group p d gd n t facts)) with (norm_payload (_plan_metadata p d gd n t)).
  rewrite (stored_manifest p d gd n t) by apply Hgok. cbn [rbind]. rewrite El. done.
Qed.

(** Persisting a plan twice stores it once: after a call that stored the
    plan, a second call with the same plan, at any later time, returns the
    sequence numbers of the same events and leaves the store as it is. *)
Theorem persisted_plan_retry s p recorded recorded' seqs s' :
  store_ok s -> storable p -> persist_plan p recorded s = (Ok seqs, s') -> events_table s' <> events_table s ->
  exists seqs', persist_plan p recorded' s' = (Ok seqs', s') /\ seqs' ≡ₚ seqs.
Proof.
  intros Hok Hst H Hch.
  destruct (plan_appended s p recorded seqs s' Hok Hst H Hch) as (evs & groups & d & gd & n & t & ordered & facts & old & Happ & ->).
  by eapply plan_retry.
Qed.

Lemma opened_ok : store_ok SampleStore.opened.
Proof.
  assert (E : SampleStore.opened = run_ops SampleStore.opened_ops fresh_store) by (vm_compute; reflexivity).
  rewrite E. apply reachable_store_ok.
Qed.

Lemma first_contexts w : w ∈ work_items (plan_graph SamplePlan.first) -> json_wf (JObj (context_request w)) = true.
Proof.
  intros Hw. assert (H : forallb (fun w => json_wf (JObj (context_request w))) (work_items (plan_graph SamplePlan.first)) = true)
    by (vm_compute; reflexivity). exact (forallb_elem _ _ _ H Hw).
Qed.

Lemma first_scopes w p : w ∈ work_items (plan_graph SamplePlan.first) -> p ∈ write_scope w -> is_ok (portable_path_parts p) = true.
Proof.
  intros Hw Hp. assert (H : forallb portable_scope (work_items (plan_graph SamplePlan.first)) = true) by (vm_compute; reflexivity).
  apply (forallb_elem _ _ _ H) in Hw. exact (forallb_elem _ _ _ Hw Hp).
Qed.

Lemma first_schedules sc : sc ∈ schedules SamplePlan.first -> check_schedule sc = Ok sc.
Proof.
  intros Hs. assert (H : Forall (fun sc => check_schedule sc = Ok sc) (schedules SamplePlan.first)).
  { repeat (apply Forall_cons; split; [vm_compute; reflexivity|]). apply Forall_nil. exact I. }
  rewrite Forall_forall in H. by apply H.
Qed.

Lemma first_changed : events_table SampleStore.after_first <> events_table SampleStore.opened.
Proof. apply tables_differ. vm_compute. discriminate. Qed.

Lemma persisted_plan_rehydrates_witness : exists events o', list_events SampleStore.after_first = Ok events
  /\ orchestration_plan_from_events SampleMission.charter events = Ok o' /\ schedules o' = schedules SamplePlan.first.
Proof.
  destruct (persisted_plan_rehydrates _ _ _ _ _ opened_ok sample_first_built first_contexts first_schedules first_persisted first_changed)
    as (events & H1 & H2 & _). destruct (H2 first_scopes) as (o' & H3 & H4).
  exists events, o'. exact (conj H1 (conj H3 (sp_schedules _ _ H4))).
Defined.

(** A plan whose builder writes a path the constructor takes and the schema
    refuses. *)
Module SampleScope.
Definition items : list WorkItem := Eval vm_compute in
  [SampleWork.item "WORK-merge" None 0 "orchestrator" "R0" ["WORK-write"] ["AC-2"] [];
   SampleWork.item "WORK-write" (Some "WORK-merge") 1 "builder" "R1" [] ["AC-1"] ["src/aux.py"]].
Definition given : list WorkSchedule := map (SamplePlan.schedule 80) items.
Definition lost : OrchestrationPlan :=
  {| plan_graph := graph_of SampleMission.charter (limits SampleMission.graph) items; schedules := sorted_by sc_work_id given;
     replaces_digest := None; replan_reason := None; replan_evidence_refs := [] |}.
Definition stored : store := Eval vm_compute in (persist_plan (Orchestration lost) stamp_epoch SampleStore.opened).2.
End SampleScope.

Lemma scope_item w : w ∈ SampleScope.items -> check_work_item w = Ok w.
Proof.
  intros Hw. unfold SampleScope.items in Hw.
  repeat (apply elem_of_cons in Hw as [->|Hw]; [vm_compute; reflexivity|]). by apply elem_of_nil in Hw.
Qed.

(** Such a plan is stored and cannot be read back: the planner builds it and
    [persist_plan] stores it, and from then on rehydrating the mission fails. *)
Theorem stored_plan_lost :
  plan SampleMission.charter SampleScope.items SampleScope.given = Ok SampleScope.lost
  /\ (forall w, w ∈ SampleScope.items -> check_work_item w = Ok w)
  /\ persist_plan (Orchestration SampleScope.lost) stamp_epoch SampleStore.opened = (Ok [3; 4], SampleScope.stored)
  /\ exists events m, list_events SampleScope.stored = Ok events
       /\ orchestration_plan_from_events SampleMission.charter events = raise ValueError m.
Proof.
  split; [vm_compute; reflexivity|]. split; [exact scope_item|]. split; [vm_compute; reflexivity|].
  destruct (list_events SampleScope.stored) as [events|e] eqn:E; [|exfalso; vm_compute in E; discriminate E].
  exists events. destruct (orchestration_plan_from_events SampleMission.charter events) as [o|[c m]] eqn:Er.
  - exfalso. vm_compute in E. injection E as <-. vm_compute in Er. discriminate Er.
  - vm_compute in E. injection E as <-. vm_compute in Er. injection Er as <- _. by exists m.
Qed.

Lemma persisted_plan_retry_witness : exists seqs,
  persist_plan (Orchestration SamplePlan.first) "2026-01-01T00:00:00Z" SampleStore.after_first = (Ok seqs, SampleStore.after_first)
  /\ seqs ≡ₚ [3; 4].
Proof.
  apply (persisted_plan_retry SampleStore.opened _ stamp_epoch);
    [exact opened_ok|split|exact first_persisted|exact first_changed].
  - destruct (built_ok _ sample_first_built) as [_ [(lim & H) _]]. exists lim. exact H.
  - exact first_contexts.
Defined.

End Rehydration.
